(* ===== verification/_CoqProject ===== *)
-Q . S2P
Prelude.v
GoStrings.v
Net.v
Crypto.v
Url.v
GoTime.v
GoFloat.v
Sdk.v
Tables.v
Money.v
Workflow.v
Sequence.v
SequenceStore.v
EventBus.v
Outbox.v
Registry.v
Organization.v
AuditTrail.v
Documents.v
RateLimit.v
Quantity.v
Units.v
Products.v
Middleware.v
Http.v
Storage.v
Attachments.v
Tenants.v
Auth.v
Identity.v
ServiceAccounts.v
Webhooks.v
FieldValidator.v
CustomFields.v
Parties.v
Communication.v
ApiBusiness.v
ApiSecurity.v
App.v
Access.v
Isolation.v
Guarded.v
DocumentAccess.v
TenantData.v
Rpc.v
Bootstrap.v
Config.v
Lifecycle.v
Commands.v
