(* ===== verification/Prelude.v ===== *)
(** * Mergiate core: a verification library

    Mergiate core is the core of a multi-tenant ERP written in Go: a domain
    layer ([src/internal/core/domain], [src/pkg/sdk]), use cases
    ([src/internal/core/usecase]), PostgreSQL repositories
    ([src/internal/core/repository/postgres]), background workers
    ([src/internal/core/worker]), HTTP and RPC delivery
    ([src/internal/core/delivery]) and the module host ([src/pkg/module]).  This
    library is a shallow embedding of that program: every Go function is a Rocq
    function with the same name where that is possible, executable on concrete
    inputs, and the theorems are about these functions.

    ** How Go is read

    - Integers are [Z], wrapped at their width by [int64] and [int32] where the
      source can overflow (this file).  Strings are byte strings with the
      functions of package strings in [GoStrings]; what they do outside ASCII
      comes from the class [UnicodeTables].  [time.Time] is nanoseconds with the
      offset of its location ([GoTime]).  [float64] is IEEE binary64 through the
      Standard Library's [SpecFloat] ([GoFloat]); the conversion of a float that
      is out of range for an integer is the class [GoPlatform].
    - A call returns [Ok], [Err] or [Panic] ([res]); errors are sentinels, new
      messages or wrapped errors, compared by identity or through [errors_Is].
    - Effects are explicit: [M D A] passes a world with the tables or other
      state [D] and a counter of the questions the process has asked its
      environment.  The class [Env] of [Sdk] answers the questions: fresh
      identifiers (or their failure), clock readings, and failures of database
      round trips and system calls.  Theorems quantify over all environments, so
      they cover every pattern of failures.
    - A table is a finite map with the keys, foreign keys and statements of the
      migrations and [queries/*.sql]; [WithTx] restores the tables when the
      function or the commit fails.  What PostgreSQL and pgx do to a value is
      the class [Pg]; rows refused for other reasons (lengths, references to
      tables of other parts) are a parameter of each repository.
    - Other parameters are code that is not in the repository, each a class with
      the documented behaviour a theorem relies on as a hypothesis: [UUIDLib]
      (github.com/google/uuid), [JWTLib] (golang-jwt), [Bcrypt], [Rand] (the
      random bytes of API keys and secrets), [NetURL] (the host syntax of
      net/url), [TextLib] (regular expressions and the printing of floats),
      [Network] (what webhook receivers answer), [PayloadJSON], [JsonMoney],
      [JsonQuantity] and [Decoder] (encodings), [Multipart] (forms and content
      types), [GoOrder] (the order of a Go map and of equal elements after
      [sort.Slice]), [Dotenv] (what a .env file adds) and [Drivers] (pgxpool,
      golang-migrate and the working directory).  SHA-256 and HMAC are computed.  Loops that are not
      structural have fuel, and a theorem or lemma shows the fuel is enough
      ([walk_up_total], [search_exact], the kahn loop of [Registry], the digits
      of [dec], [cascade_exact]).

    ** Parts, files and theorems

    - [Prelude]: integers, errors, outcomes, the monad and its tactics.
      [GoStrings], [GoTime], [GoFloat]: the parts of Go's library in use.
    - [Sdk]: identifiers, request context, environment, transactions, generic
      table statements, and a small frame logic ([reads], [writes_last],
      [keeps]) for computations.  Source: [pkg/sdk], [pkg/database/tx.go].
    - [Money] ([pkg/sdk/money.go]): amounts stay in range and in their currency,
      sums fail exactly on different currencies, division loses less than the
      divisor, JSON round trip, and where multiplication by a float is not the
      nearest amount.  [Quantity] ([pkg/sdk/quantity.go]): units and JSON.
    - [Workflow] ([domain/document/workflow.go]): the status machine is exactly
      its table, stages only grow, the listed transitions are the valid ones.
    - [Sequence], [SequenceStore] ([domain/sequence], its repository and use
      case): formatting against a reference expansion; numbers acquired by any
      session are distinct when the process runs in UTC, the clock does not go back and
      the counter is fresh; counters only grow within a period, failures change
      nothing, the preview is the next number; daily formats repeat without a
      daily reset.
    - [EventBus] ([pkg/eventbus], [domain/event]): every matching subscription
      runs once and panics are contained; the contract [Bus].
      [Outbox] ([outbox_repo.go], [outbox_worker.go]): against that contract, a
      batch never loses or rewrites an event, and the outbox drains when the
      database and the bus answer and handlers add no events.
    - [Registry] ([pkg/module]): dependency order is exact, deterministic and
      governs start and stop.
    - [Organization]: the cycle check is exact and ends, the hierarchy stays a
      forest, the tree shows every organization once; what updates let through.
    - [AuditTrail] ([domain/audit], repository and use case).
    - [Documents] ([domain/document], repository and use case), which uses
      [Money], [Workflow], [SequenceStore], [Outbox] and [AuditTrail]: creation
      and transition are atomic with their event and audit entry (a failed creation may
      still use up a number), the tables stay consistent, tenants are isolated, their
      sequences and what they read included, totals are sums of the lines; where
      paging and currencies go wrong.
    - [RateLimit] ([pkg/ratelimit]): the sliding window equals a log of all
      grants, the window bound, and what holds under interleaved goroutines.
    - [Units] and [Products] ([domain/product], repository and use case):
      conversion by breadth-first search is exact; the catalogue stays
      consistent within each tenant, and a tenant keeps its rows whatever others
      do.
    - [Middleware] ([delivery/http/middleware], [pkg/response],
      [delivery/rpc/interceptors]): a route runs only behind all its gates.
    - [Storage] and [Attachments] ([pkg/storage/local], [domain/attachment],
      repository and use case): paths stay in the base directory, which the
      constructor makes absolute, and uploads in the directory of their tenant.
    - [Tables]: the statements of the queries for any table (insert, select,
      update, delete), triples for computations that may stop after each of
      them, and what the calls of one tenant leave of the rows of another.  [Net]
      (net.ParseIP, ParseCIDR), [Crypto] (SHA-256, HMAC, hex) and [Url]
      (net/url.Parse) are library functions with their inversions.
    - [Tenants] (repository and use case).  [Auth] ([pkg/auth]): tokens and
      password hashes.  [Identity] (users, memberships, roles, permissions;
      repository and use case): login succeeds exactly with the password of an
      active user and its token opens exactly the permissions of the roles; the
      tables stay consistent; the calls for members and roles store exactly what they
      are given; assigning permissions replaces them, and what is left when a round
      trip fails.
    - [ServiceAccounts] (domain, repository and use case): which API keys and
      addresses authenticate, and that a revoked key stays dead.
    - [Webhooks] (repository, use case and [webhook_dispatcher.go]): the
      deliveries run as goroutines that interleave with everything else; each
      sends at most three genuine requests, at the retry delays, to the active
      endpoints of the event's tenant.
    - [FieldValidator] and [CustomFields] ([domain/customfield], repository and
      use case): which dynamic values a set of definitions accepts, and that the
      accepted values are stored typed and read back.
    - [Parties] ([domain/party], [domain/contact], both repositories and the use
      case): references between parties, contacts and addresses stay within the tenant
      (the organization of a role does not have to), a tenant keeps its rows whatever
      others do; the detail of a party is complete.
    - [Communication] ([domain/communication], repository and use case): a
      comment is posted with its notifications, event and audit entry or not at
      all; which comments are accepted and deleted, with their whole threads;
      the timeline is sorted, survives failing sources and holds what the code reads:
      the comments of the entity under its type as written and the newest 100 audit
      entries.
    - [Http]: what handlers share, and the middleware of a route as a list of
      gates, which answers by itself or runs the endpoint on an admitted request.
      [ApiBusiness] and [ApiSecurity]: every handler of [delivery/http/v1].
      [App]: the state of the whole process, of which each component sees its
      part through a lens, and the route tables of [RegisterRoutes],
      [MountRoutes] of the module registry and [NewRouter].
    - [Access]: the permission the repository documents for each route, the routes
      that deviate from it (each a finding), and that every request the API serves is
      public or carries a credential that its own database accepts, with the permission
      of its route.  [App] also holds the CORS options of the router.
    - [Isolation]: the rows of other tenants under the calls of organizations,
      custom fields, sequences, webhooks and files.
      [Guarded]: a realm is a part of the state with its invariant, the rows of a
      tenant and the permissions that write in it; the class [RealmLaws] says that
      the rest of the state is apart from it.  Every group of routes is shown to
      leave a realm alone that it is apart from, and a realm whose own routes are
      bounded by their tenant and gated by its permissions keeps its invariant and
      its rows through any requests.  [DocumentAccess] instantiates it with
      documents, and shows how a user without permissions obtains them all;
      [TenantData] with parties, the catalogue, custom fields, organizations,
      sequences, webhooks and files.
    - [Rpc] ([delivery/rpc]): the ping and party services over Connect and gRPC
      behind the interceptors of [Middleware]; the two transports answer alike, and
      with the codes that match the statuses of the HTTP interface but for the listed
      exceptions.
    - [Bootstrap] ([pkg/bootstrap]): the seeding of tenant, organization, owner
      and roles on the tables of [Identity] and [Organization], statement by
      statement; what a run leaves behind, what it can take away when round trips fail,
      and that a second run changes nothing.
    - [Config] ([pkg/config] and the use of it in [cmd/server]): the environment
      variables with the parsing of numbers and durations; what holds of the
      settings whatever the environment is.
    - [Lifecycle] ([pkg/app], [pkg/database], [pkg/migrations], the host of
      [pkg/module]): [New] with its error paths over the operations of [Registry];
      [Start] as a relation between states whose steps are those of its
      goroutines, with the outbox worker and the clients of the gRPC server in the
      background.  A run has at most eighteen steps of the caller and the shutdown; what
      is stopped when [Start] returns, and what can hold up the shutdown, follows by
      induction on the steps.
    - [Commands] ([cmd/seed], [cmd/server]): flags as the standard package parses
      them, the seed command from its arguments to its exit code over [Config],
      [Lifecycle] and [Bootstrap], and when the server process exits with 0.

    Each of the later files ends with a run on concrete tables and, where the
    code does something its documentation excludes, a theorem that shows it.

    ** Not modelled

    Protobuf code, JSON decoding, multipart parsing and path matching of the HTTP
    server, logging, the text of a quantity, and the SQL of migrations, whose keys and
    constraints are part of the tables.  The generated queries ([sqlc]) are modelled
    with the repository that runs them.  Row locks and the concurrency of database
    sessions are not modelled: use cases run one after the other, except in
    [RateLimit], [Webhooks] and [Lifecycle].  A round trip or a commit that fails has
    had no effect on the server: the loss of an acknowledgement after the effect is not
    modelled.  Text ordering in the database is byte order.  *)

From stdpp Require Export base gmap strings list fin_maps sorting.
From Stdlib Require Export ZArith Lia.

#[global] Open Scope Z_scope.

(** [lia] with quotients and remainders by constants. *)
Ltac zdiv_lia := Z.to_euclidean_division_equations; lia.

(** ** Machine integers

    Go's [int], [int64] and [int32] wrap around silently.  A value of such
    a type is a [Z] in range; every arithmetic operation goes through
    [wrap w]. *)

Definition wrap (w : Z) (z : Z) : Z := (z + 2 ^ (w - 1)) mod 2 ^ w - 2 ^ (w - 1).

Definition int64 (z : Z) : Z := wrap 64 z.
Definition int32 (z : Z) : Z := wrap 32 z.

Definition in_width (w : Z) (z : Z) : Prop := - 2 ^ (w - 1) <= z < 2 ^ (w - 1).
Abbreviation in_int64 := (in_width 64).
Abbreviation in_int32 := (in_width 32).

Lemma wrap_id w z : 0 < w -> in_width w z -> wrap w z = z.
Proof.
  intros Hw [Hlo Hhi]. unfold wrap.
  assert (2 ^ w = 2 * 2 ^ (w - 1)) as E.
  { rewrite <- Z.pow_succ_r by lia. f_equal. lia. }
  rewrite Z.mod_small; lia.
Qed.

Lemma wrap_in_width w z : 0 < w -> in_width w (wrap w z).
Proof.
  intros Hw. unfold in_width, wrap.
  assert (2 ^ w = 2 * 2 ^ (w - 1)) as E.
  { rewrite <- Z.pow_succ_r by lia. f_equal. lia. }
  pose proof (Z.pow_pos_nonneg 2 (w - 1) ltac:(lia) ltac:(lia)).
  pose proof (Z.mod_pos_bound (z + 2 ^ (w - 1)) (2 ^ w) ltac:(lia)). lia.
Qed.

Lemma wrap_cong w z k : 0 < w -> wrap w (z + k * 2 ^ w) = wrap w z.
Proof.
  intros Hw. unfold wrap.
  pose proof (Z.pow_pos_nonneg 2 w ltac:(lia) ltac:(lia)).
  replace (z + k * 2 ^ w + 2 ^ (w - 1)) with (z + 2 ^ (w - 1) + k * 2 ^ w) by lia.
  by rewrite Z.mod_add by lia.
Qed.

(** Two integers that differ by a multiple of [2 ^ w] wrap to the same value,
    so wrapping the operands first changes nothing. *)
Lemma wrap_equiv w z : 0 < w -> exists k, wrap w z = z + k * 2 ^ w.
Proof.
  intros Hw. unfold wrap.
  pose proof (Z.pow_pos_nonneg 2 w ltac:(lia) ltac:(lia)).
  exists (- ((z + 2 ^ (w - 1)) / 2 ^ w)).
  pose proof (Z.div_mod (z + 2 ^ (w - 1)) (2 ^ w) ltac:(lia)). lia.
Qed.

Lemma wrap_add_l w a b : 0 < w -> wrap w (wrap w a + b) = wrap w (a + b).
Proof.
  intros Hw. destruct (wrap_equiv w a Hw) as [k ->].
  replace (a + k * 2 ^ w + b) with (a + b + k * 2 ^ w) by lia. by apply wrap_cong.
Qed.

Lemma wrap_sub_l w a b : 0 < w -> wrap w (wrap w a - b) = wrap w (a - b).
Proof. intros Hw. by rewrite <- !Z.add_opp_r, wrap_add_l. Qed.

Lemma wrap_mul_l w a b : 0 < w -> wrap w (wrap w a * b) = wrap w (a * b).
Proof.
  intros Hw. destruct (wrap_equiv w a Hw) as [k ->].
  replace ((a + k * 2 ^ w) * b) with (a * b + k * b * 2 ^ w) by lia. by apply wrap_cong.
Qed.

(** ** Errors

    The package-level error values of the program ([pkg/sdk/errors.go],
    [domain/identity/service_account.go], [domain/webhook/webhook.go],
    [pkg/module/registry.go], [pkg/storage/local/local.go]).  Go compares
    them by identity, so each is one constructor. *)
Inductive Sentinel :=
  | ErrNotFound | ErrAlreadyExists | ErrInvalidInput | ErrUnauthorized
  | ErrForbidden | ErrConflict | ErrInternal
  | ErrTenantRequired | ErrTenantNotFound | ErrTenantSuspended
  | ErrCurrencyMismatch | ErrInvalidCurrency | ErrInvalidAmount
  | ErrUnitMismatch | ErrDivisionByZero
  | ErrInvalidServiceAccount | ErrInvalidAPIKey | ErrAPIKeyExpired
  | ErrAPIKeyRevoked | ErrIPNotAllowed
  | ErrEndpointNotFound | ErrEndpointInactive | ErrInvalidURL | ErrSecretTooShort
  | ErrModuleNotFound | ErrDuplicateModule | ErrInvalidManifest | ErrCircularDependency
  | ErrPathTraversal | ErrFileNotFound
  | ErrInvalidToken.

#[global] Instance Sentinel_eq_dec : EqDecision Sentinel.
Proof. solve_decision. Defined.

(** The text each was made with. *)
Definition sentinel_text (s : Sentinel) : string :=
  match s with
  | ErrNotFound => "resource not found"
  | ErrAlreadyExists => "resource already exists"
  | ErrInvalidInput => "invalid input data"
  | ErrUnauthorized => "unauthorized"
  | ErrForbidden => "forbidden"
  | ErrConflict => "resource conflict"
  | ErrInternal => "internal server error"
  | ErrTenantRequired => "tenant context is required"
  | ErrTenantNotFound => "tenant not found"
  | ErrTenantSuspended => "tenant is suspended"
  | ErrCurrencyMismatch => "currency mismatch between money operations"
  | ErrInvalidCurrency => "invalid currency code"
  | ErrInvalidAmount => "invalid money amount"
  | ErrUnitMismatch => "unit mismatch between quantity operations"
  | ErrDivisionByZero => "division by zero"
  | ErrInvalidServiceAccount => "invalid service account"
  | ErrInvalidAPIKey => "invalid api key"
  | ErrAPIKeyExpired => "api key has expired"
  | ErrAPIKeyRevoked => "api key has been revoked"
  | ErrIPNotAllowed => "client IP address is not permitted by API key allowlist"
  | ErrEndpointNotFound => "webhook endpoint not found"
  | ErrEndpointInactive => "webhook endpoint is not active"
  | ErrInvalidURL => "webhook URL must be a valid https:// or http:// URL"
  | ErrSecretTooShort => "webhook secret must be at least 16 characters"
  | ErrModuleNotFound => "module not found"
  | ErrDuplicateModule => "module with same name already registered"
  | ErrInvalidManifest => "module manifest is invalid"
  | ErrCircularDependency => "circular dependency detected among modules"
  | ErrPathTraversal => "path traversal detected"
  | ErrFileNotFound => "file not found in local storage"
  | ErrInvalidToken => "invalid or expired authentication token"
  end%string.

(** A Go error value: a sentinel, a message made by [errors.New]/[fmt.Errorf]
    without [%w], or [fmt.Errorf] with one [%w] (text before and after it). *)
Inductive error :=
  | ESentinel (s : Sentinel)
  | ENew (msg : string)
  | EWrap (pre : string) (inner : error) (suf : string).

#[global] Instance error_eq_dec : EqDecision error.
Proof. solve_decision. Defined.

(** [err.Error()]. *)
Fixpoint Error (err : error) : string :=
  match err with
  | ESentinel s => sentinel_text s
  | ENew msg => msg
  | EWrap pre inner suf => pre +:+ Error inner +:+ suf
  end.

(** [errors.Is(err, s)]: the unwrap chain contains the sentinel. *)
Fixpoint errors_Is (err : error) (s : Sentinel) : bool :=
  match err with
  | ESentinel s' => bool_decide (s' = s)
  | ENew _ => false
  | EWrap _ inner _ => errors_Is inner s
  end.

(** [err == s]: identity, which no wrapped error satisfies. *)
Definition err_eq (err : error) (s : Sentinel) : bool := bool_decide (err = ESentinel s).

(** [fmt.Errorf("%w: <suf>", s)], the form almost every domain error has. *)
Definition Errorf (s : Sentinel) (suf : string) : error := EWrap "" (ESentinel s) (": " +:+ suf).

Lemma errors_Is_Errorf s suf : errors_Is (Errorf s suf) s = true.
Proof. simpl. by rewrite bool_decide_eq_true. Qed.

(** ** Outcomes and effects

    A Go call returns a value, returns an error, or panics. *)
Inductive res (A : Type) :=
  | Ok (a : A)
  | Err (e : error)
  | Panic (e : error).
Arguments Ok {A} _.
Arguments Err {A} _.
Arguments Panic {A} _.

#[global] Instance res_eq_dec `{EqDecision A} : EqDecision (res A).
Proof. solve_decision. Defined.

Definition res_bind {A B} (m : res A) (k : A -> res B) : res B :=
  match m with Ok a => k a | Err e => Err e | Panic e => Panic e end.

Definition is_Ok {A} (r : res A) : bool := match r with Ok _ => true | _ => false end.

(** What the process sees of its environment, in the order it asks: fresh
    identifiers ([uuid.NewV7], which may fail), clock readings and the
    failures of the database connection.  [w_tick] counts the questions. *)
Record World (D : Type) := mkWorld { w_db : D; w_tick : nat }.
Arguments mkWorld {D} _ _.
Arguments w_db {D} _.
Arguments w_tick {D} _.

Definition M (D A : Type) : Type := World D -> res A * World D.

Definition ret {D A} (a : A) : M D A := fun w => (Ok a, w).
Definition fail {D A} (e : error) : M D A := fun w => (Err e, w).
Definition panic {D A} (e : error) : M D A := fun w => (Panic e, w).
Definition bind {D A B} (m : M D A) (k : A -> M D B) : M D B := fun w =>
  match m w with
  | (Ok a, w') => k a w'
  | (Err e, w') => (Err e, w')
  | (Panic e, w') => (Panic e, w')
  end.
Definition lift_res {D A} (r : res A) : M D A := fun w => (r, w).

(** The error of a call as a value: [x, err := f()] followed by tests on
    [err].  A panic is not caught. *)
Definition attempt {D A} (m : M D A) : M D (A + error) := fun w =>
  match m w with
  | (Ok a, w') => (Ok (inl a), w')
  | (Err e, w') => (Ok (inr e), w')
  | (Panic e, w') => (Panic e, w')
  end.

Declare Scope go_scope.
Delimit Scope go_scope with go.
Notation "x <- m ;; k" := (bind m (fun x => k))
  (at level 100, m at next level, right associativity) : go_scope.
Notation "m ;;; k" := (bind m (fun _ => k))
  (at level 100, k at level 200, right associativity) : go_scope.
Notation "'let?' x ':=' m 'in' k" := (res_bind m (fun x => k))
  (at level 10, x name, m at level 100, k at level 200) : go_scope.
#[global] Open Scope go_scope.

(** [if cond { return err }]. *)
Definition guard {D} (cond : bool) (e : error) : M D unit :=
  if cond then fail e else ret tt.

(** [existing, err := get()]; any error but [ErrNotFound] is returned, and an
    existing record is the error [e]. *)
Definition check_absent {D A} (get : M D A) (e : error) : M D unit :=
  r <- attempt get ;;
  match r with
  | inl _ => fail e
  | inr err => if err_eq err ErrNotFound then ret tt else fail err
  end.

(** ** Reasoning about runs *)

Lemma bind_Ok {D A B} (m : M D A) (k : A -> M D B) w b w' :
  bind m k w = (Ok b, w') <-> exists a w1, m w = (Ok a, w1) /\ k a w1 = (Ok b, w').
Proof. unfold bind. destruct (m w) as [[a|e|e] w1]; naive_solver. Qed.

Lemma attempt_Ok {D A} (m : M D A) w r w' :
  attempt m w = (Ok r, w') <->
  (exists a, m w = (Ok a, w') /\ r = inl a) \/ (exists e, m w = (Err e, w') /\ r = inr e).
Proof. unfold attempt. destruct (m w) as [[a|e|e] w1]; naive_solver. Qed.

Lemma guard_Ok {D} (b : bool) e (w : World D) u w' :
  guard b e w = (Ok u, w') <-> b = false /\ w' = w.
Proof. unfold guard. destruct b, u; unfold fail, ret; naive_solver. Qed.

Lemma check_absent_Ok {D A} (get : M D A) e w u w' :
  check_absent get e w = (Ok u, w') <-> get w = (Err (ESentinel ErrNotFound), w').
Proof.
  unfold check_absent. rewrite bind_Ok. setoid_rewrite attempt_Ok. unfold err_eq, fail, ret.
  split.
  - intros ([a|err] & w1 & [(a' & E & ?)|(e' & E & ?)] & K); simplify_eq.
    case_bool_decide; simplify_eq. done.
  - intros E. exists (inr (ESentinel ErrNotFound)), w'. split; [naive_solver |].
    rewrite bool_decide_eq_true_2 by done. by destruct u.
Qed.

(** Split a successful run into its calls. *)
Ltac run_inv H :=
  repeat first
    [ apply bind_Ok in H;
      let a := fresh "a" in let w := fresh "w" in let H1 := fresh "R" in
      destruct H as (a & w & H1 & H); cbv beta in H
    | apply guard_Ok in H; let H1 := fresh "G" in destruct H as [H1 ->] ].

(** Symbolic execution of a computation on a known world. *)
Create HintDb go_run.
#[export] Hint Unfold bind ret fail panic attempt guard lift_res : go_run.
#[export] Hint Resolve errors_Is_Errorf : go_run.
Ltac go_run := autounfold with go_run in *; cbv beta iota zeta in *.
