(* ===== verification/GoStrings.v ===== *)
(** * Go's [strings], [strconv] and [fmt] as the program uses them

    A Go string is a sequence of bytes: a [string] whose characters are the
    bytes.  [TrimSpace] trims Unicode white space in its UTF-8 encoding.
    [ToUpper] and [ToLower] are exact on ASCII; for a string with a byte
    above 127 Go consults the Unicode tables, which are the parameter
    [UnicodeTables]. *)

From S2P Require Import Prelude.
From Stdlib Require Export Ascii.
#[local] Open Scope string_scope.

#[global] Arguments String.append !_ _ / : simpl nomatch.

(** ** Bytes *)

Definition byte_of (c : ascii) : N := N_of_ascii c.
Definition is_ascii_byte (c : ascii) : bool := (byte_of c <? 128)%N.

Fixpoint all_chars (p : ascii -> bool) (s : string) : bool :=
  match s with "" => true | String c s' => p c && all_chars p s' end.

Definition is_ascii (s : string) : bool := all_chars is_ascii_byte s.

Fixpoint map_chars (f : ascii -> ascii) (s : string) : string :=
  match s with "" => "" | String c s' => String (f c) (map_chars f s') end.

Definition ascii_upper (c : ascii) : ascii :=
  let b := byte_of c in if ((97 <=? b) && (b <=? 122))%N then ascii_of_N (b - 32) else c.
Definition ascii_lower (c : ascii) : ascii :=
  let b := byte_of c in if ((65 <=? b) && (b <=? 90))%N then ascii_of_N (b + 32) else c.

(** Case mapping and quoting of strings that are not ASCII. *)
Class UnicodeTables := {
  unicode_ToUpper : string -> string;
  unicode_ToLower : string -> string;
  unicode_Quote : string -> string;
}.

Definition ToUpper `{UnicodeTables} (s : string) : string :=
  if is_ascii s then map_chars ascii_upper s else unicode_ToUpper s.
Definition ToLower `{UnicodeTables} (s : string) : string :=
  if is_ascii s then map_chars ascii_lower s else unicode_ToLower s.

(** The tables a witness uses; no witness needs a non-ASCII string. *)
#[export] Instance ascii_tables : UnicodeTables :=
  {| unicode_ToUpper := id; unicode_ToLower := id; unicode_Quote := id |}.

(** The verb [%q]: [strconv.Quote]. *)
Definition hex_digit (n : N) : ascii := ascii_of_N (if (n <? 10)%N then 48 + n else 87 + n)%N.
Definition quote_byte (c : ascii) : string :=
  match byte_of c with
  | 7 => "\a" | 8 => "\b" | 9 => "\t" | 10 => "\n" | 11 => "\v" | 12 => "\f" | 13 => "\r"
  | 34 => String "\" (String c "") | 92 => "\\"
  | b => if (b <? 32) || (b =? 127)
         then "\x" +:+ String (hex_digit (b / 16)) (String (hex_digit (b mod 16)) "")
         else String c ""
  end%N.
Definition dquote : string := String (ascii_of_N 34) "".
Fixpoint quote_body (s : string) : string :=
  match s with "" => dquote | String c s' => quote_byte c +:+ quote_body s' end.
Definition Quote `{UnicodeTables} (s : string) : string :=
  if is_ascii s
  then dquote +:+ quote_body s
  else unicode_Quote s.

(** ** Prefixes, suffixes, substrings *)

Fixpoint HasPrefix (s p : string) {struct p} : bool :=
  match p, s with
  | "", _ => true
  | String c p', String d s' => Ascii.eqb c d && HasPrefix s' p'
  | _, "" => false
  end.

Fixpoint drop (n : nat) (s : string) : string :=
  match n, s with
  | O, _ => s
  | _, "" => ""
  | S n', String _ s' => drop n' s'
  end.

Fixpoint take (n : nat) (s : string) : string :=
  match n, s with
  | O, _ => ""
  | _, "" => ""
  | S n', String c s' => String c (take n' s')
  end.

(** [strings.CutSuffix]. *)
Definition CutSuffix (s suf : string) : option string :=
  let n := (String.length s - String.length suf)%nat in
  if (String.length suf <=? String.length s)%nat && String.eqb (drop n s) suf
  then Some (take n s) else None.

Fixpoint Contains (s sub : string) : bool :=
  HasPrefix s sub || match s with "" => false | String _ s' => Contains s' sub end.

(** [strings.Index] of a one-byte separator. *)
Fixpoint IndexByte (s : string) (c : ascii) : option nat :=
  match s with
  | "" => None
  | String d s' => if Ascii.eqb c d then Some 0%nat else S <$> IndexByte s' c
  end.

(** [strings.SplitN(s, sep, 2)] for a one-byte separator, as a pair when the
    separator occurs. *)
Definition SplitN2 (s : string) (c : ascii) : option (string * string) :=
  match IndexByte s c with Some i => Some (take i s, drop (S i) s) | None => None end.

(** [strings.ReplaceAll] for a non-empty [old]; [skip] counts the bytes of a
    match still to be passed over. *)
Fixpoint ReplaceAll_from (old new : string) (skip : nat) (s : string) : string :=
  match s with
  | "" => ""
  | String c s' =>
      match skip with
      | S k => ReplaceAll_from old new k s'
      | O => if HasPrefix s old
             then new +:+ ReplaceAll_from old new (String.length old - 1) s'
             else String c (ReplaceAll_from old new 0 s')
      end
  end.
Definition ReplaceAll (s old new : string) : string := ReplaceAll_from old new 0 s.

(** ** White space *)

Definition bytes (l : list N) : string := foldr (fun b s => String (ascii_of_N b) s) "" l.

(** UTF-8 encodings of the characters for which [unicode.IsSpace] holds. *)
Definition space_seqs : list string := Eval vm_compute in
  map bytes
    ([ [9]; [10]; [11]; [12]; [13]; [32]; [194; 133]; [194; 160];
       [225; 154; 128]; [226; 128; 168]; [226; 128; 169]; [226; 128; 175];
       [226; 129; 159]; [227; 128; 128] ]%N
     ++ map (fun b => [226; 128; b]%N) [128;129;130;131;132;133;134;135;136;137;138]%N).

Definition space_prefix (s : string) : option string :=
  match list_find (fun p => HasPrefix s p = true) space_seqs with
  | Some (_, p) => Some (drop (String.length p) s)
  | None => None
  end.

Fixpoint TrimLeft_fuel (n : nat) (s : string) : string :=
  match n with
  | O => s
  | S n' => match space_prefix s with Some s' => TrimLeft_fuel n' s' | None => s end
  end.
Definition TrimLeft (s : string) : string := TrimLeft_fuel (String.length s) s.

Definition space_suffix (s : string) : option string :=
  match list_find (fun p => bool_decide (is_Some (CutSuffix s p)) = true) space_seqs with
  | Some (_, p) => CutSuffix s p
  | None => None
  end.

Fixpoint TrimRight_fuel (n : nat) (s : string) : string :=
  match n with
  | O => s
  | S n' => match space_suffix s with Some s' => TrimRight_fuel n' s' | None => s end
  end.
Definition TrimRight (s : string) : string := TrimRight_fuel (String.length s) s.

Definition TrimSpace (s : string) : string := TrimRight (TrimLeft s).

(** [strings.EqualFold(s, t)] for an ASCII [t]: besides the two ASCII cases,
    U+212A folds to [k] and U+017F to [s]. *)
Definition EqualFold (s t : string) : bool :=
  let s1 := ReplaceAll s (bytes [226; 132; 170]%N) "k" in
  let s2 := ReplaceAll s1 (bytes [197; 191]%N) "s" in
  String.eqb (map_chars ascii_lower s2) (map_chars ascii_lower t).

(** ** Numbers *)

Definition digit (d : Z) : ascii := ascii_of_N (48 + Z.to_N d).
Definition is_digit (c : ascii) : bool := ((48 <=? byte_of c) && (byte_of c <=? 57))%N.
Definition digit_val (c : ascii) : Z := Z.of_N (byte_of c) - 48.

(** Decimal digits of a non-negative number; 20 digits are enough for 64 bits,
    the fuel below is the number of binary digits. *)
Fixpoint dec_fuel (fuel : nat) (z : Z) (acc : string) : string :=
  match fuel with
  | O => acc
  | S f =>
      let acc' := String (digit (z mod 10)) acc in
      if (z / 10 =? 0)%Z then acc' else dec_fuel f (z / 10) acc'
  end.
Definition dec (z : Z) : string := dec_fuel (S (Z.to_nat (Z.log2 z))) z "".

(** [%d]. *)
Definition Itoa (z : Z) : string := if (z <? 0)%Z then "-" +:+ dec (- z) else dec z.

Fixpoint zeros (n : nat) : string := match n with O => "" | S n' => String "0" (zeros n') end.
Definition zpad (w : Z) (s : string) : string :=
  zeros (Z.to_nat (w - Z.of_nat (String.length s))) +:+ s.

(** [%0<w>d]: the sign counts toward the width.  [fmt] gives up on a width
    whose value without its last digit exceeds one million. *)
Definition fmt_0wd (w : Z) (v : Z) : string :=
  if (1000000 <? w / 10)%Z then "%!(NOVERB)%!(EXTRA int64=" +:+ Itoa v +:+ ")"
  else if (v <? 0)%Z then "-" +:+ zpad (w - 1) (dec (- v)) else zpad w (dec v).

(** Value of a string of digits. *)
Fixpoint digits_val (acc : Z) (s : string) : Z :=
  match s with "" => acc | String c s' => digits_val (acc * 10 + digit_val c) s' end.

(** [strconv.Atoi] of a non-empty string of digits: an error out of range. *)
Definition Atoi_digits (s : string) : option Z :=
  let n := digits_val 0 s in if (n <? 2 ^ 63)%Z then Some n else None.

(** ** Lemmas on strings *)

Lemma length_append s t : String.length (s +:+ t) = (String.length s + String.length t)%nat.
Proof. induction s; simpl; congruence. Qed.

Lemma append_assoc s t u : (s +:+ t) +:+ u = s +:+ (t +:+ u).
Proof. induction s; simpl; congruence. Qed.

Lemma append_nil_r s : s +:+ "" = s.
Proof. induction s; simpl; congruence. Qed.

Lemma append_inj_l s t u : s +:+ t = s +:+ u -> t = u.
Proof. induction s; simpl; intros E; [done | apply IHs; congruence]. Qed.

Lemma all_chars_append p s t : all_chars p (s +:+ t) = all_chars p s && all_chars p t.
Proof. induction s; simpl; [done |]. by rewrite IHs, andb_assoc. Qed.

Lemma all_chars_impl (p q : ascii -> bool) s :
  (forall c, p c = true -> q c = true) -> all_chars p s = true -> all_chars q s = true.
Proof.
  intros Hpq. induction s as [|c s IH]; simpl; [done |].
  rewrite !andb_true_iff. intros [? ?]. auto.
Qed.

Lemma take_drop n s : take n s +:+ drop n s = s.
Proof. revert n. induction s; destruct n; simpl; try done. by rewrite IHs. Qed.

Lemma length_drop n s : String.length (drop n s) = (String.length s - n)%nat.
Proof. revert n. induction s; destruct n; simpl; try done. Qed.

Lemma length_take n s : String.length (take n s) = Nat.min n (String.length s).
Proof. revert n. induction s; destruct n; simpl; try done. by rewrite IHs. Qed.

Lemma drop_append s t : drop (String.length s) (s +:+ t) = t.
Proof. induction s; simpl; done. Qed.

Lemma HasPrefix_spec s p : HasPrefix s p = true <-> exists t, s = p +:+ t.
Proof.
  revert s. induction p as [|c p IH]; intros s; simpl.
  - split; [by exists s | done].
  - destruct s as [|d s].
    + split; [done | by intros [t ?]].
    + destruct (Ascii.eqb_spec c d) as [->|Hne]; simpl.
      * rewrite IH. split; intros [t Ht]; exists t; congruence.
      * split; [done | intros [t ?]; congruence].
Qed.

Lemma CutSuffix_spec s suf t : CutSuffix s suf = Some t <-> s = t +:+ suf.
Proof.
  unfold CutSuffix. split.
  - case_match eqn:E; [| done]. apply andb_true_iff in E as [_ E].
    apply String.eqb_eq in E. intros [= <-]. by rewrite <- E at 2; rewrite take_drop.
  - intros ->. rewrite length_append.
    replace (String.length t + String.length suf - String.length suf)%nat
      with (String.length t) by lia.
    rewrite drop_append, String.eqb_refl, andb_true_r.
    rewrite (proj2 (Nat.leb_le _ _)) by lia. f_equal.
    induction t; simpl; [by destruct suf | congruence].
Qed.

(** [c] does not occur in [s]. *)
Definition no_char (c : ascii) (s : string) : bool := all_chars (fun d => negb (Ascii.eqb c d)) s.

Lemma no_char_append c s t : no_char c (s +:+ t) = no_char c s && no_char c t.
Proof. apply all_chars_append. Qed.

(** Text that does not contain the first byte of a pattern is copied. *)
Lemma ReplaceAll_skip_text c old new p t :
  no_char c p = true ->
  ReplaceAll (p +:+ t) (String c old) new = p +:+ ReplaceAll t (String c old) new.
Proof.
  unfold ReplaceAll, no_char. induction p as [|d p IH]; simpl; [done |].
  rewrite andb_true_iff. intros [Hd Hp].
  destruct (Ascii.eqb c d); simpl; [done |]. by rewrite IH.
Qed.

Lemma ReplaceAll_absent c old new p :
  no_char c p = true -> ReplaceAll p (String c old) new = p.
Proof.
  intros Hp. rewrite <- (append_nil_r p) at 1. rewrite ReplaceAll_skip_text by done.
  simpl. apply append_nil_r.
Qed.

Lemma ReplaceAll_match_aux old new t k :
  ReplaceAll_from old new (String.length k) (k +:+ t) = ReplaceAll_from old new 0 t.
Proof. induction k; simpl; [done |]. exact IHk. Qed.

(** A leading occurrence of the pattern is replaced. *)
Lemma ReplaceAll_match c old new t :
  ReplaceAll (String c old +:+ t) (String c old) new =
  new +:+ ReplaceAll t (String c old) new.
Proof.
  unfold ReplaceAll. simpl. rewrite Ascii.eqb_refl.
  assert (HasPrefix (old +:+ t) old = true) as ->.
  { apply HasPrefix_spec. by exists t. }
  simpl. replace (String.length old - 0)%nat with (String.length old) by lia.
  by rewrite ReplaceAll_match_aux.
Qed.

(** ** Decimal numbers: printing and reading *)

Lemma digit_val_digit d : 0 <= d < 10 -> digit_val (digit d) = d /\ is_digit (digit d) = true.
Proof.
  intros Hd. assert (d = 0 \/ d = 1 \/ d = 2 \/ d = 3 \/ d = 4 \/ d = 5 \/ d = 6 \/ d = 7
                     \/ d = 8 \/ d = 9)%Z as C by lia.
  repeat destruct C as [->|C]; try (subst d); by vm_compute.
Qed.

Lemma digits_val_shift acc s :
  digits_val acc s = (acc * 10 ^ Z.of_nat (String.length s) + digits_val 0 s)%Z.
Proof.
  revert acc. induction s as [|c s IH]; intros acc; simpl digits_val; simpl String.length.
  - simpl. lia.
  - rewrite IH, (IH (0 * 10 + digit_val c)%Z).
    rewrite Nat2Z.inj_succ, Z.pow_succ_r by lia. lia.
Qed.

Lemma dec_fuel_spec fuel z acc :
  0 <= z < 10 ^ Z.of_nat fuel ->
  digits_val 0 (dec_fuel fuel z acc) = (z * 10 ^ Z.of_nat (String.length acc) + digits_val 0 acc)%Z
  /\ (all_chars is_digit acc = true -> all_chars is_digit (dec_fuel fuel z acc) = true).
Proof.
  revert z acc. induction fuel as [|fuel IH]; intros z acc Hz.
  - simpl in Hz. assert (z = 0) as -> by lia. simpl. split; [lia | done].
  - rewrite Nat2Z.inj_succ, Z.pow_succ_r in Hz by lia.
    cbn [dec_fuel].
    pose proof (Z.div_mod z 10 ltac:(lia)) as Hdm.
    pose proof (Z.mod_pos_bound z 10 ltac:(lia)) as Hmod.
    destruct (digit_val_digit (z mod 10) Hmod) as [Hv Hd].
    assert (digits_val 0 (String (digit (z mod 10)) acc)
            = (z mod 10 * 10 ^ Z.of_nat (String.length acc) + digits_val 0 acc)%Z) as Hstep.
    { simpl digits_val. rewrite Hv, digits_val_shift. lia. }
    destruct (Z.eqb_spec (z / 10) 0) as [E|E].
    + split; [rewrite Hstep; f_equal; f_equal; lia |].
      intros Ha. simpl. by rewrite Hd, Ha.
    + assert (0 <= z / 10 < 10 ^ Z.of_nat fuel) as Hq.
      { split; [apply Z.div_pos; lia | apply Z.div_lt_upper_bound; lia]. }
      destruct (IH (z / 10) (String (digit (z mod 10)) acc) Hq) as [IHv IHd].
      split.
      * rewrite IHv, Hstep. simpl String.length.
        rewrite Nat2Z.inj_succ, Z.pow_succ_r by lia. nia.
      * intros Ha. apply IHd. simpl. by rewrite Hd, Ha.
Qed.

Lemma dec_fuel_enough z : 0 <= z -> z < 10 ^ Z.of_nat (S (Z.to_nat (Z.log2 z))).
Proof.
  intros Hz. destruct (Z.eq_dec z 0) as [->|Hne]; [done |].
  pose proof (Z.log2_spec z ltac:(lia)) as [_ Hlt].
  pose proof (Z.log2_nonneg z).
  rewrite Nat2Z.inj_succ, Z2Nat.id by lia.
  eapply Z.lt_le_trans; [exact Hlt |]. apply Z.pow_le_mono_l. lia.
Qed.

(** Reading back a printed number gives the number. *)
Lemma digits_val_dec z : 0 <= z -> digits_val 0 (dec z) = z.
Proof.
  intros Hz. unfold dec.
  destruct (dec_fuel_spec (S (Z.to_nat (Z.log2 z))) z "") as [E _].
  - split; [done | by apply dec_fuel_enough].
  - rewrite E. simpl. lia.
Qed.

Lemma dec_digits z : 0 <= z -> all_chars is_digit (dec z) = true.
Proof.
  intros Hz. unfold dec.
  destruct (dec_fuel_spec (S (Z.to_nat (Z.log2 z))) z "") as [_ E].
  - split; [done | by apply dec_fuel_enough].
  - by apply E.
Qed.

Lemma digits_val_zeros n s : digits_val 0 (zeros n +:+ s) = digits_val 0 s.
Proof. induction n; simpl; done. Qed.

Lemma zpad_digits w s : all_chars is_digit s = true -> all_chars is_digit (zpad w s) = true.
Proof.
  intros Hs. unfold zpad. rewrite all_chars_append, Hs, andb_true_r.
  by induction (Z.to_nat _).
Qed.

Lemma fmt_0wd_digits w v :
  w <= 1000000 -> 0 <= v -> all_chars is_digit (fmt_0wd w v) = true.
Proof.
  intros Hw Hv. unfold fmt_0wd.
  rewrite (proj2 (Z.ltb_ge _ _)) by (apply Z.div_le_upper_bound; lia).
  rewrite (proj2 (Z.ltb_ge _ _)) by lia. by apply zpad_digits, dec_digits.
Qed.

(** The zero-padded form determines the number. *)
Lemma fmt_0wd_val w v :
  w <= 1000000 -> 0 <= v -> digits_val 0 (fmt_0wd w v) = v.
Proof.
  intros Hw Hv. unfold fmt_0wd.
  rewrite (proj2 (Z.ltb_ge _ _)) by (apply Z.div_le_upper_bound; lia).
  rewrite (proj2 (Z.ltb_ge _ _)) by lia.
  unfold zpad. by rewrite digits_val_zeros, digits_val_dec.
Qed.

Lemma fmt_0wd_inj w v1 v2 :
  w <= 1000000 -> 0 <= v1 -> 0 <= v2 -> fmt_0wd w v1 = fmt_0wd w v2 -> v1 = v2.
Proof.
  intros Hw H1 H2 E. apply (f_equal (digits_val 0)) in E. by rewrite !fmt_0wd_val in E.
Qed.

(** A digit string contains no other character. *)
Lemma digits_no_char c s : is_digit c = false -> all_chars is_digit s = true -> no_char c s = true.
Proof.
  intros Hc. apply all_chars_impl. intros d Hd.
  destruct (Ascii.eqb_spec c d) as [->|]; [congruence | done].
Qed.

(** ** Trimming *)

Lemma space_seqs_nonempty p : p ∈ space_seqs -> (0 < String.length p)%nat.
Proof.
  intros Hp. assert (Forall (fun q => 0 < String.length q)%nat space_seqs) as F.
  { repeat constructor. }
  by apply (proj1 (Forall_forall _ _) F).
Qed.

Lemma space_prefix_Some s t :
  space_prefix s = Some t -> exists p, (0 < String.length p)%nat /\ s = p +:+ t.
Proof.
  unfold space_prefix. case_match eqn:E; [| done]. destruct p as [i p].
  apply list_find_Some in E as (Hi & Hp & _). intros [= <-].
  apply HasPrefix_spec in Hp as [u ->]. exists p. rewrite drop_append. split; [| done].
  by apply space_seqs_nonempty, list_elem_of_lookup_2 with i.
Qed.

Lemma space_prefix_None s :
  space_prefix s = None <-> forall p, p ∈ space_seqs -> HasPrefix s p = false.
Proof.
  unfold space_prefix. destruct (list_find _ _) as [[i p]|] eqn:E.
  - apply list_find_Some in E as (Hi & Hp & _). split; [done |]. intros H.
    rewrite H in Hp; [done | by apply list_elem_of_lookup_2 with i].
  - apply list_find_None in E. split; [| done]. intros _ p Hp.
    apply not_true_is_false. by apply (proj1 (Forall_forall _ _) E).
Qed.

Lemma space_suffix_Some s t :
  space_suffix s = Some t -> exists p, (0 < String.length p)%nat /\ s = t +:+ p.
Proof.
  unfold space_suffix. case_match eqn:E; [| done]. destruct p as [i p].
  apply list_find_Some in E as (Hi & Hp & _). intros Ht. exists p.
  split; [| by apply CutSuffix_spec].
  by apply space_seqs_nonempty, list_elem_of_lookup_2 with i.
Qed.

Lemma TrimLeft_fuel_None n s :
  (String.length s <= n)%nat -> space_prefix (TrimLeft_fuel n s) = None.
Proof.
  revert s. induction n as [|n IH]; intros s Hn; simpl.
  - destruct s; [by vm_compute | simpl in Hn; lia].
  - destruct (space_prefix s) as [t|] eqn:E; [| done].
    apply space_prefix_Some in E as (p & Hp & ->). apply IH.
    rewrite length_append in Hn. lia.
Qed.

Lemma TrimRight_fuel_None n s :
  (String.length s <= n)%nat -> space_suffix (TrimRight_fuel n s) = None.
Proof.
  revert s. induction n as [|n IH]; intros s Hn; simpl.
  - destruct s; [by vm_compute | simpl in Hn; lia].
  - destruct (space_suffix s) as [t|] eqn:E; [| done].
    apply space_suffix_Some in E as (p & Hp & ->). apply IH.
    rewrite length_append in Hn. lia.
Qed.

Lemma TrimRight_fuel_prefix n s : exists t, s = TrimRight_fuel n s +:+ t.
Proof.
  revert s. induction n as [|n IH]; intros s; simpl.
  - exists "". by rewrite append_nil_r.
  - destruct (space_suffix s) as [u|] eqn:E; [| exists ""; by rewrite append_nil_r].
    apply space_suffix_Some in E as (p & _ & ->). destruct (IH u) as [t Ht].
    exists (t +:+ p). rewrite <- append_assoc. congruence.
Qed.

Lemma TrimLeft_fuel_id n s : space_prefix s = None -> TrimLeft_fuel n s = s.
Proof. intros E. destruct n; simpl; [done |]. by rewrite E. Qed.

Lemma TrimRight_fuel_id n s : space_suffix s = None -> TrimRight_fuel n s = s.
Proof. intros E. destruct n; simpl; [done |]. by rewrite E. Qed.

(** A trimmed string starts and ends with no white space. *)
Lemma TrimSpace_trimmed s :
  space_prefix (TrimSpace s) = None /\ space_suffix (TrimSpace s) = None.
Proof.
  unfold TrimSpace. split; [| by apply TrimRight_fuel_None].
  pose proof (TrimLeft_fuel_None (String.length s) s (le_n _)) as HL.
  fold (TrimLeft s) in HL. unfold TrimRight.
  destruct (TrimRight_fuel_prefix (String.length (TrimLeft s)) (TrimLeft s)) as [t Ht].
  apply space_prefix_None. intros p Hp. apply not_true_is_false. intros Hpre.
  apply HasPrefix_spec in Hpre as [u Hu].
  assert (HasPrefix (TrimLeft s) p = true) as C.
  { apply HasPrefix_spec. exists (u +:+ t). rewrite Ht at 1. by rewrite Hu, append_assoc. }
  rewrite (proj1 (space_prefix_None _) HL p Hp) in C. done.
Qed.

Lemma TrimSpace_idemp s : TrimSpace (TrimSpace s) = TrimSpace s.
Proof.
  destruct (TrimSpace_trimmed s) as [HL HR].
  unfold TrimSpace at 1, TrimLeft, TrimRight. by rewrite TrimLeft_fuel_id, TrimRight_fuel_id.
Qed.

(** Trimming keeps a substring. *)
Lemma TrimLeft_fuel_suffix n s : exists t, s = t +:+ TrimLeft_fuel n s.
Proof.
  revert s. induction n as [|n IH]; intros s; simpl; [by exists "" |].
  destruct (space_prefix s) as [u|] eqn:E; [| by exists ""].
  apply space_prefix_Some in E as (p & _ & ->). destruct (IH u) as [t Ht].
  exists (p +:+ t). rewrite append_assoc. congruence.
Qed.

Lemma TrimSpace_substring s : exists a b, s = a +:+ TrimSpace s +:+ b.
Proof.
  unfold TrimSpace, TrimLeft, TrimRight.
  destruct (TrimLeft_fuel_suffix (String.length s) s) as [a Ha].
  set (l := TrimLeft_fuel (String.length s) s) in *. clearbody l.
  destruct (TrimRight_fuel_prefix (String.length l) l) as [b Hb].
  exists a, b. congruence.
Qed.

Lemma TrimSpace_all_chars p s : all_chars p s = true -> all_chars p (TrimSpace s) = true.
Proof.
  destruct (TrimSpace_substring s) as (a & b & E). rewrite E at 1.
  rewrite !all_chars_append, !andb_true_iff. tauto.
Qed.

(** ** Case mapping on ASCII *)

Definition upper_fixed (c : ascii) : bool := Ascii.eqb (ascii_upper c) c.

Lemma ascii_upper_props c : is_ascii_byte c = true ->
  is_ascii_byte (ascii_upper c) = true /\ upper_fixed (ascii_upper c) = true.
Proof. destruct c as [[] [] [] [] [] [] [] []]; vm_compute; auto. Qed.

Lemma map_upper_props s : is_ascii s = true ->
  is_ascii (map_chars ascii_upper s) = true
  /\ all_chars upper_fixed (map_chars ascii_upper s) = true.
Proof.
  unfold is_ascii. induction s as [|c s IH]; cbn [all_chars map_chars]; [done |].
  rewrite !andb_true_iff. intros [Hc Hs].
  destruct (ascii_upper_props c Hc). destruct (IH Hs). done.
Qed.

Lemma map_upper_fixed s : all_chars upper_fixed s = true -> map_chars ascii_upper s = s.
Proof.
  induction s as [|c s IH]; cbn [all_chars map_chars]; [done |].
  rewrite andb_true_iff. intros [Hc Hs]. apply Ascii.eqb_eq in Hc. rewrite IH by done.
  congruence.
Qed.

(** Normalising twice is normalising once. *)
Lemma ToUpper_TrimSpace_idemp `{UnicodeTables} s :
  is_ascii s = true ->
  TrimSpace (ToUpper (TrimSpace (ToUpper s))) = TrimSpace (ToUpper s).
Proof.
  intros Ha. assert (ToUpper s = map_chars ascii_upper s) as E.
  { unfold ToUpper. by rewrite Ha. }
  destruct (map_upper_props s Ha) as [Hu Hf]. rewrite E.
  assert (ToUpper (TrimSpace (map_chars ascii_upper s)) = TrimSpace (map_chars ascii_upper s)) as ->.
  { unfold ToUpper, is_ascii in *. rewrite TrimSpace_all_chars by done.
    by apply map_upper_fixed, TrimSpace_all_chars. }
  apply TrimSpace_idemp.
Qed.

(** Splitting at the first occurrence of a byte. *)
Lemma SplitN2_append c p t :
  no_char c p = true -> SplitN2 (p +:+ String c t) c = Some (p, t).
Proof.
  unfold SplitN2, no_char. induction p as [|d p IH]; simpl.
  - by rewrite Ascii.eqb_refl.
  - rewrite andb_true_iff. intros [Hd Hp]. destruct (Ascii.eqb c d); [done |].
    specialize (IH Hp). destruct (IndexByte (p +:+ String c t) c); simpl in *; [| done].
    injection IH as E1 E2. by rewrite E1, E2.
Qed.
