(* ===== verification/Net.v ===== *)
(** * Network addresses: what the program uses of Go's [net] and [net/netip]

    [net.SplitHostPort], [net.ParseIP], [net.ParseCIDR], [IP.Equal] and
    [IPNet.Contains], byte by byte as the Standard Library computes them, and
    the arithmetic reading of a network: an address is in it exactly when its
    leading bits are those of the network. *)

From S2P Require Import Prelude GoStrings.
#[local] Open Scope string_scope.
#[local] Open Scope list_scope.
#[local] Open Scope Z_scope.

(** [net.IP]: 4 or 16 bytes, the most significant first. *)
Definition IP : Type := list Z.

(** [netip.Addr]: its 16 bytes (an IPv4 address in its mapped form), whether it
    was written as IPv4, and the zone. *)
Record Addr := mkAddr { addr_As16 : IP; addr_Is4 : bool; addr_Zone : string }.

Definition v4InV6Prefix : list Z := repeat 0 10 ++ [255; 255].

(** ** Parsing *)

(** [parseIPv4Fields]: [start] and [dot] say that the previous character is
    missing, or a dot. *)
Fixpoint parseIPv4Fields (s : string) (start dot : bool) (val : Z) (digLen : nat) (fields : list Z) : option (list Z) :=
  match s with
  | EmptyString => if (length fields <? 3)%nat then None else Some (fields ++ [val])
  | String c s' =>
      if is_digit c then
        if (digLen =? 1)%nat && (val =? 0) then None
        else let val := val * 10 + digit_val c in
             if 255 <? val then None else parseIPv4Fields s' false false val (S digLen) fields
      else if Ascii.eqb c "." then
        if start || String.eqb s' "" || dot then None
        else if (length fields =? 3)%nat then None
        else parseIPv4Fields s' false true 0 0 (fields ++ [val])
      else None
  end.

Definition parseIPv4 (s : string) : option Addr :=
  match parseIPv4Fields s true false 0 0 [] with
  | Some fields => Some (mkAddr (v4InV6Prefix ++ fields) true "")
  | None => None
  end.

Definition hex_val (c : ascii) : option Z :=
  let n := Z.of_N (byte_of c) in
  if (48 <=? n) && (n <=? 57) then Some (n - 48)
  else if (97 <=? n) && (n <=? 102) then Some (n - 87)
  else if (65 <=? n) && (n <=? 70) then Some (n - 55)
  else None.

(** The digits of one group, at most four of them, and the text after it. *)
Fixpoint hex_group (off : nat) (acc : Z) (s : string) : option (nat * Z * string) :=
  match s with
  | EmptyString => Some (off, acc, "")
  | String c s' =>
      match hex_val c with
      | None => Some (off, acc, s)
      | Some v =>
          let acc := acc * 16 + v in
          if (3 <? off)%nat then None else if 65535 <? acc then None else hex_group (S off) acc s'
      end
  end.

(** The loop of [parseIPv6] over [i = length ip]; every round that continues
    adds two bytes, so eight rounds are enough. *)
Fixpoint ipv6_groups (fuel : nat) (ip : list Z) (ellipsis : option nat) (s : string) : option (list Z * option nat * string) :=
  match fuel with
  | O => Some (ip, ellipsis, s)
  | S fuel =>
      match hex_group 0 0 s with
      | None => None
      | Some (off, acc, rest) =>
          if (off =? 0)%nat then None
          else if HasPrefix rest "." then
            if match ellipsis with None => negb (length ip =? 12)%nat | Some _ => false end then None
            else if (16 <? length ip + 4)%nat then None
            else match parseIPv4Fields s true false 0 0 [] with
                 | None => None
                 | Some fields => Some (ip ++ fields, ellipsis, "")
                 end
          else
            let ip := ip ++ [acc / 256; acc mod 256] in
            match rest with
            | EmptyString => Some (ip, ellipsis, "")
            | String c s =>
                if negb (Ascii.eqb c ":") then None
                else match s with
                | EmptyString => None
                | String d s' =>
                    if Ascii.eqb d ":" then
                      match ellipsis with
                      | Some _ => None
                      | None => if String.eqb s' "" then Some (ip, Some (length ip), "")
                                else ipv6_groups fuel ip (Some (length ip)) s'
                      end
                    else ipv6_groups fuel ip ellipsis s
                end
            end
      end
  end.

(** Expand the ellipsis. *)
Definition ipv6_expand (ip : list Z) (ellipsis : option nat) : option (list Z) :=
  if (length ip <? 16)%nat then
    match ellipsis with
    | None => None
    | Some e => Some (firstn e ip ++ repeat 0 (16 - length ip) ++ skipn e ip)
    end
  else match ellipsis with Some _ => None | None => Some ip end.

Definition parseIPv6_groups (s : string) : option (list Z) :=
  let '(ellipsis, s) := if HasPrefix s "::" then (Some O, drop 2 s) else (None, s) in
  if bool_decide (ellipsis = Some O) && String.eqb s "" then Some (repeat 0 16)
  else match ipv6_groups 8 [] ellipsis s with
       | None => None
       | Some (ip, ellipsis, s) => if String.eqb s "" then ipv6_expand ip ellipsis else None
       end.

Definition parseIPv6 (s : string) : option Addr :=
  match SplitN2 s "%" with
  | None => (fun ip => mkAddr ip false "") <$> parseIPv6_groups s
  | Some (s, zone) => if String.eqb zone "" then None else (fun ip => mkAddr ip false zone) <$> parseIPv6_groups s
  end.

(** [netip.ParseAddr] looks for the first of '.', ':' and '%'. *)
Fixpoint addr_kind (s : string) : option ascii :=
  match s with
  | EmptyString => None
  | String c s' => if Ascii.eqb c "." || Ascii.eqb c ":" || Ascii.eqb c "%" then Some c else addr_kind s'
  end.

Definition ParseAddr (s : string) : option Addr :=
  match addr_kind s with
  | Some "."%char => parseIPv4 s
  | Some ":"%char => parseIPv6 s
  | _ => None
  end.

(** An address without a zone. *)
Definition ParseAddr_nozone (s : string) : option Addr :=
  a ← ParseAddr s; if String.eqb (addr_Zone a) "" then Some a else None.

Definition ParseIP (s : string) : option IP := addr_As16 <$> ParseAddr_nozone s.

(** ** Networks *)

Definition BitLen (a : Addr) : Z := if addr_Is4 a then 32 else 128.

(** [net.CIDRMask] of [l] bytes. *)
Fixpoint CIDRMask (l : nat) (ones : Z) : list Z :=
  match l with
  | O => []
  | S l => (if 8 <=? ones then 255 else 255 - Z.shiftr 255 ones) :: CIDRMask l (if 8 <=? ones then ones - 8 else 0)
  end.

Definition and_bytes (a b : list Z) : list Z := zip_with Z.land a b.

Definition To4 (ip : IP) : option IP :=
  if (length ip =? 4)%nat then Some ip
  else if (length ip =? 16)%nat && bool_decide (firstn 12 ip = v4InV6Prefix) then Some (skipn 12 ip)
  else None.

(** [IP.Mask] of a 16-byte address. *)
Definition Mask (ip mask : IP) : option IP :=
  let ip := if (length mask =? 4)%nat && (length ip =? 16)%nat && bool_decide (firstn 12 ip = v4InV6Prefix)
            then skipn 12 ip else ip in
  if (length ip =? length mask)%nat then Some (and_bytes ip mask) else None.

Record IPNet := mkIPNet { net_IP : option IP; net_Mask : IP }.

(** [dtoi]: the leading digits, a number below 0xFFFFFF; the mask has nothing
    after them. *)
Fixpoint dtoi_all (n : Z) (s : string) : option Z :=
  match s with
  | EmptyString => Some n
  | String c s' =>
      if is_digit c then
        let n := n * 10 + digit_val c in if 16777215 <=? n then None else dtoi_all n s'
      else None
  end.

Definition prefix_len (s : string) : option Z := if String.eqb s "" then None else dtoi_all 0 s.

(** The address and the prefix length of a CIDR text. *)
Definition cidr_parts (s : string) : option (Addr * Z) :=
  '(addr, mask) ← SplitN2 s "/";
  ipAddr ← ParseAddr_nozone addr;
  n ← prefix_len mask;
  if BitLen ipAddr <? n then None else Some (ipAddr, n).

Definition ParseCIDR (s : string) : option IPNet :=
  '(a, n) ← cidr_parts s;
  let m := CIDRMask (Z.to_nat (BitLen a / 8)) n in
  Some (mkIPNet (Mask (addr_As16 a) m) m).

Definition networkNumberAndMask (n : IPNet) : option (IP * IP) :=
  raw ← net_IP n;
  let ip := match To4 raw with Some x => x | None => raw end in
  let m := net_Mask n in
  if negb ((length ip =? 4)%nat || (length ip =? 16)%nat) then None
  else if (length m =? 4)%nat then if (length ip =? 4)%nat then Some (ip, m) else None
  else if (length m =? 16)%nat then Some (ip, if (length ip =? 4)%nat then skipn 12 m else m)
  else None.

Definition net_Contains (n : IPNet) (ip : IP) : bool :=
  match networkNumberAndMask n with
  | None => false    (* a nil network number has another length than any address *)
  | Some (nn, m) =>
      let ip := match To4 ip with Some x => x | None => ip end in
      (length ip =? length nn)%nat && bool_decide (and_bytes nn m = and_bytes ip m)
  end.

(** [IP.Equal] on the 16-byte addresses [ParseIP] returns. *)
Definition IP_Equal (a b : IP) : bool := bool_decide (a = b).

(** ** [net.SplitHostPort] *)

(** Everything before and after the last occurrence of a byte. *)
Fixpoint cut_last (s : string) (c : ascii) : option (string * string) :=
  match s with
  | EmptyString => None
  | String d s' =>
      match cut_last s' c with
      | Some (a, b) => Some (String d a, b)
      | None => if Ascii.eqb d c then Some (EmptyString, s') else None
      end
  end.

Definition SplitHostPort (hostport : string) : option (string * string) :=
  match cut_last hostport ":" with
  | None => None
  | Some (before, port) =>
      if HasPrefix hostport "[" then
        match IndexByte hostport "]" with
        | None => None
        | Some close =>
            (* the first ']' must be just before the last ':' *)
            if (S close =? String.length before)%nat then
              let host := drop 1 (take close hostport) in
              if negb (no_char "[" (drop 1 hostport)) then None
              else if negb (no_char "]" (drop (S close) hostport)) then None
              else Some (host, port)
            else None
        end
      else if negb (no_char ":" before) then None
      else if negb (no_char "[" hostport) then None
      else if negb (no_char "]" hostport) then None
      else Some (before, port)
  end.

(** ** Bytes and masks *)

Definition byte_ok (b : Z) : Prop := 0 <= b < 256.
Definition IP_ok (ip : IP) : Prop := length ip = 16%nat /\ Forall byte_ok ip.

(** The number an address is. *)
Fixpoint be (l : list Z) : Z :=
  match l with [] => 0 | b :: l' => b * 2 ^ (8 * Z.of_nat (length l')) + be l' end.

Lemma be_bound l : Forall byte_ok l -> 0 <= be l < 2 ^ (8 * Z.of_nat (length l)).
Proof.
  induction 1 as [|b l Hb _ IH]; cbn [be length]; [done |].
  replace (8 * Z.of_nat (S (length l))) with (8 + 8 * Z.of_nat (length l)) by lia.
  rewrite Z.pow_add_r by lia. unfold byte_ok in Hb. change (2 ^ 8) with 256. nia.
Qed.

(** The first byte and the rest of a number are determined by it. *)
Lemma split_base k a a' x x' : 0 <= x < k -> 0 <= x' < k -> a * k + x = a' * k + x' -> a = a' /\ x = x'.
Proof. intros. assert (a = a') by nia. subst. lia. Qed.

(** A shortened prefix keeps the top [k] bits of a byte. *)
Lemma mask_byte k b : 0 <= k < 8 -> byte_ok b -> Z.land b (255 - Z.shiftr 255 k) = b / 2 ^ (8 - k) * 2 ^ (8 - k).
Proof.
  intros Hk Hb. unfold byte_ok in Hb.
  set (p k b := Z.land b (255 - Z.shiftr 255 k) =? b / 2 ^ (8 - k) * 2 ^ (8 - k)).
  assert (forallb (fun k => forallb (fun b => p (Z.of_nat k) (Z.of_nat b)) (seq 0 256)) (seq 0 8) = true) as X by by vm_compute.
  rewrite forallb_forall in X. specialize (X (Z.to_nat k)). rewrite in_seq in X.
  specialize (X ltac:(lia)). rewrite forallb_forall in X. specialize (X (Z.to_nat b)).
  rewrite in_seq in X. specialize (X ltac:(lia)). unfold p in X. rewrite !Z2Nat.id in X by lia. lia.
Qed.

Lemma land_255 b : byte_ok b -> Z.land b 255 = b.
Proof. intros Hb. change 255 with (Z.ones 8). rewrite Z.land_ones by lia. by apply Z.mod_small. Qed.

Lemma mask_eq_byte k a b : 0 <= k < 8 -> byte_ok a -> byte_ok b ->
  Z.land a (255 - Z.shiftr 255 k) = Z.land b (255 - Z.shiftr 255 k) <-> a / 2 ^ (8 - k) = b / 2 ^ (8 - k).
Proof.
  intros Hk Ha Hb. rewrite !mask_byte by done.
  assert (0 < 2 ^ (8 - k)) by (apply Z.pow_pos_nonneg; lia). split; [nia | congruence].
Qed.

Lemma mask_all_zero l x : length x = l -> and_bytes x (CIDRMask l 0) = repeat 0 l.
Proof.
  revert x. induction l as [|l IH]; intros [|b x] E; try done. cbn. injection E as E.
  change (255 - Z.shiftr 255 0) with 0. rewrite Z.land_0_r. f_equal. by apply IH.
Qed.

(** Two addresses agree under a mask of [n] bits exactly when their numbers
    agree in the leading [n] bits. *)
Lemma mask_eq l n x y : length x = l -> length y = l -> Forall byte_ok x -> Forall byte_ok y ->
  0 <= n <= 8 * Z.of_nat l ->
  and_bytes x (CIDRMask l n) = and_bytes y (CIDRMask l n)
  <-> be x / 2 ^ (8 * Z.of_nat l - n) = be y / 2 ^ (8 * Z.of_nat l - n).
Proof.
  revert n x y. induction l as [|l IH]; intros n [|a x] [|b y] Ex Ey Hx Hy Hn; try done.
  injection Ex as Ex. injection Ey as Ey. inversion_clear Hx. inversion_clear Hy.
  cbn [CIDRMask and_bytes zip_with be]. fold (and_bytes x) (and_bytes y). rewrite Ex, Ey.
  pose proof (be_bound x ltac:(done)) as Bx. pose proof (be_bound y ltac:(done)) as By. rewrite Ex in Bx. rewrite Ey in By.
  rewrite Nat2Z.inj_succ in *. set (L := 8 * Z.of_nat l) in *.
  destruct (Z.leb_spec 8 n) as [H8|H8].
  - rewrite !land_255 by done.
    replace (8 * Z.succ (Z.of_nat l) - n) with (L - (n - 8)) by lia.
    assert (forall c v, (c * 2 ^ L + v) / 2 ^ (L - (n - 8)) = c * 2 ^ (n - 8) + v / 2 ^ (L - (n - 8))) as D.
    { intros c v. replace (2 ^ L) with (2 ^ (n - 8) * 2 ^ (L - (n - 8))) by (rewrite <- Z.pow_add_r by lia; f_equal; lia).
      rewrite Z.mul_assoc, Z.div_add_l; [done | apply Z.pow_nonzero; lia]. }
    rewrite !D.
    assert (forall v, 0 <= v < 2 ^ L -> 0 <= v / 2 ^ (L - (n - 8)) < 2 ^ (n - 8)) as R.
    { intros v Hv. split; [apply Z.div_pos; [lia | apply Z.pow_pos_nonneg; lia] |].
      apply Z.div_lt_upper_bound; [apply Z.pow_pos_nonneg; lia |]. rewrite <- Z.pow_add_r by lia.
      replace (L - (n - 8) + (n - 8)) with L by lia. lia. }
    specialize (IH (n - 8) x y Ex Ey ltac:(done) ltac:(done) ltac:(lia)). fold L in IH. split.
    + intros [= -> E]. apply IH in E. unfold and_bytes in E. congruence.
    + intros E. apply split_base in E as [-> E]; [| auto..]. f_equal. by apply IH.
  - rewrite !(mask_all_zero l) by done.
    replace (8 * Z.succ (Z.of_nat l) - n) with (L + (8 - n)) by lia.
    rewrite Z.pow_add_r, <- !Z.div_div by (try apply Z.pow_pos_nonneg; try apply Z.pow_nonzero; lia).
    rewrite !Z.div_add_l by (apply Z.pow_nonzero; lia). rewrite !(Z.div_small (be _)) by done. rewrite !Z.add_0_r.
    rewrite <- mask_eq_byte by (done || lia). split; congruence.
Qed.

Lemma length_CIDRMask l n : length (CIDRMask l n) = l.
Proof. revert n. induction l as [|l IH]; intros n; cbn; [done | by rewrite IH]. Qed.

Lemma CIDRMask_full k l n : 8 * Z.of_nat k <= n -> CIDRMask (k + l) n = repeat 255 k ++ CIDRMask l (n - 8 * Z.of_nat k).
Proof.
  revert n. induction k as [|k IH]; intros n Hn; cbn [Nat.add CIDRMask repeat app].
  - f_equal. lia.
  - destruct (Z.leb_spec 8 n); [| lia]. f_equal. rewrite IH by lia. do 2 f_equal. lia.
Qed.

Lemma CIDRMask_byte_255 l n j : 0 <= n -> CIDRMask l n !! j = Some 255 -> 8 * Z.of_nat (S j) <= n.
Proof.
  revert n j. induction l as [|l IH]; intros n j Hn E; [done |]. cbn [CIDRMask] in E.
  destruct (Z.leb_spec 8 n) as [H8|H8].
  - destruct j as [|j]; [lia |]. cbn in E. apply IH in E; lia.
  - exfalso. destruct j as [|j]; cbn in E.
    + injection E as E. assert (Z.shiftr 255 n = 0) as E0 by lia.
      assert (n = 0 \/ n = 1 \/ n = 2 \/ n = 3 \/ n = 4 \/ n = 5 \/ n = 6 \/ n = 7) as C by lia.
      by repeat destruct C as [->|C]; [..| subst].
    + apply IH in E; lia.
Qed.

Lemma CIDRMask_bytes l n : 0 <= n -> Forall byte_ok (CIDRMask l n).
Proof.
  revert n. induction l as [|l IH]; intros n Hn; cbn; constructor; [| apply IH; destruct (Z.leb_spec 8 n); lia].
  unfold byte_ok. destruct (Z.leb_spec 8 n); [lia |].
  assert (n = 0 \/ n = 1 \/ n = 2 \/ n = 3 \/ n = 4 \/ n = 5 \/ n = 6 \/ n = 7) as C by lia.
  by repeat destruct C as [->|C]; [..| subst].
Qed.

Lemma and_bytes_full x : Forall byte_ok x -> and_bytes x (repeat 255 (length x)) = x.
Proof. induction 1 as [|b x Hb _ IH]; [done |]. cbn. rewrite land_255 by done. f_equal. apply IH. Qed.

Lemma and_bytes_app x1 x2 m1 m2 : length x1 = length m1 ->
  and_bytes (x1 ++ x2) (m1 ++ m2) = and_bytes x1 m1 ++ and_bytes x2 m2.
Proof. intros E. unfold and_bytes. by rewrite zip_with_app. Qed.

Lemma and_bytes_idem x m : and_bytes (and_bytes x m) m = and_bytes x m.
Proof.
  revert m. induction x as [|b x IH]; intros [|c m]; try done. cbn. f_equal; [| apply IH].
  by rewrite <- Z.land_assoc, Z.land_diag.
Qed.

Lemma length_and_bytes x m : length x = length m -> length (and_bytes x m) = length x.
Proof. intros E. unfold and_bytes. rewrite length_zip_with. lia. Qed.

(** Is the address an IPv4 address? *)
Definition is_v4 (ip : IP) : Prop := firstn 12 ip = v4InV6Prefix.

Lemma To4_16 ip : length ip = 16%nat -> To4 ip = if bool_decide (is_v4 ip) then Some (skipn 12 ip) else None.
Proof. intros E. unfold To4. rewrite E. cbn. unfold is_v4. by destruct (bool_decide _). Qed.

Lemma To4_4 ip : length ip = 4%nat -> To4 ip = Some ip.
Proof. intros E. unfold To4. by rewrite E. Qed.

(** The part of a masked address that is masked with whole bytes. *)
Lemma masked_top ip n : IP_ok ip -> 96 <= n ->
  and_bytes ip (CIDRMask 16 n) = firstn 12 ip ++ and_bytes (skipn 12 ip) (CIDRMask 4 (n - 96)).
Proof.
  intros [El Hb] Hn. change (CIDRMask 16 n) with (CIDRMask (12 + 4) n). rewrite CIDRMask_full by lia.
  change (8 * Z.of_nat 12) with 96. rewrite <- (firstn_skipn 12 ip) at 1.
  rewrite and_bytes_app by (rewrite repeat_length, length_firstn; lia). f_equal.
  rewrite <- (and_bytes_full (firstn 12 ip)) at 2 by by apply Forall_take.
  rewrite length_firstn. by replace (12 `min` length ip)%nat with 12%nat by lia.
Qed.

(** With fewer than 96 bits the masked address is no IPv4 address. *)
Lemma masked_not_v4 ip n : IP_ok ip -> 0 <= n < 96 -> ~ is_v4 (and_bytes ip (CIDRMask 16 n)).
Proof.
  intros [El Hb] Hn Hv. unfold is_v4 in Hv.
  assert (and_bytes ip (CIDRMask 16 n) !! 11%nat = Some 255) as E.
  { rewrite <- (lookup_take_lt _ 12) by lia. by rewrite Hv. }
  unfold and_bytes in E. apply lookup_zip_with_Some in E as (b & m & E1 & Eb & Em).
  assert (m = 255) as ->; [| apply CIDRMask_byte_255 in Em; lia].
  assert (byte_ok m) as Hm by (eapply Forall_lookup_1; [by apply CIDRMask_bytes with (n := n); lia | done]).
  rewrite <- (land_255 m), Z.land_comm, E1, <- Z.land_assoc, Z.land_diag by done. done.
Qed.

(** ** Containment *)

#[local] Opaque CIDRMask.

(** The prefix of a CIDR text, counted in the 128 bits of the mapped form. *)
Definition prefix_bits (a : Addr) (n : Z) : Z := if addr_Is4 a then 96 + n else n.

(** The leading bits agree, and an IPv4 address needs a network of IPv4
    addresses only. *)
Definition in_network (a : Addr) (n : Z) (ip : IP) : Prop :=
  let bits := prefix_bits a n in
  be ip / 2 ^ (128 - bits) = be (addr_As16 a) / 2 ^ (128 - bits) /\ (is_v4 ip -> 96 <= bits).

Lemma app_eq_length {A} (x1 x2 y1 y2 : list A) : length x1 = length y1 -> x1 ++ x2 = y1 ++ y2 <-> x1 = y1 /\ x2 = y2.
Proof. intros E. split; [by apply app_inj_1 | by intros [-> ->]]. Qed.

(** Networks written as IPv4: a mask of four bytes. *)
Lemma Contains_v4 a n ip : IP_ok a -> IP_ok ip -> is_v4 a -> 0 <= n ->
  let m := CIDRMask 4 n in
  net_Contains (mkIPNet (Mask a m) m) ip = true
  <-> and_bytes ip (CIDRMask 16 (96 + n)) = and_bytes a (CIDRMask 16 (96 + n)).
Proof.
  intros [La Ba] [Li Bi] Va Hn m. rewrite !masked_top by (done || lia).
  replace (96 + n - 96) with n by lia. fold m.
  assert (length m = 4%nat) as Lm by apply length_CIDRMask.
  assert (length (skipn 12 a) = 4%nat /\ length (skipn 12 ip) = 4%nat) as [Sa Si] by (rewrite !length_skipn; lia).
  unfold net_Contains, networkNumberAndMask, Mask. cbn [net_IP net_Mask].
  rewrite Lm, La, bool_decide_eq_true_2 by done. cbn [Nat.eqb andb]. rewrite Sa. cbn [Nat.eqb mbind option_bind].
  assert (length (and_bytes (skipn 12 a) m) = 4%nat) as Lam by (rewrite length_and_bytes; lia).
  rewrite (To4_4 (and_bytes _ _)), (To4_16 ip), Lam by done. cbn [Nat.eqb orb negb].
  rewrite app_eq_length by (rewrite !length_firstn; lia). unfold is_v4 in *. rewrite Va, and_bytes_idem.
  case_bool_decide as V.
  - rewrite Si, Lam. cbn [Nat.eqb andb]. rewrite bool_decide_eq_true. naive_solver.
  - rewrite Li, Lam. cbn. naive_solver.
Qed.

(** Networks written as IPv6: a mask of sixteen bytes. *)
Lemma Contains_v6 a n ip : IP_ok a -> IP_ok ip -> 0 <= n <= 128 ->
  let m := CIDRMask 16 n in
  net_Contains (mkIPNet (Mask a m) m) ip = true
  <-> and_bytes ip m = and_bytes a m /\ (is_v4 ip -> 96 <= n).
Proof.
  intros Ha Hi Hn m. pose proof Ha as [La Ba]. pose proof Hi as [Li Bi].
  assert (length m = 16%nat) as Lm by apply length_CIDRMask.
  assert (length (and_bytes a m) = 16%nat) as Lam by (rewrite length_and_bytes; lia).
  unfold net_Contains, networkNumberAndMask, Mask. cbn [net_IP net_Mask]. rewrite Lm. cbn [Nat.eqb andb].
  rewrite La. cbn [Nat.eqb mbind option_bind]. rewrite (To4_16 (and_bytes a m)), (To4_16 ip) by done.
  case_bool_decide as Vm.
  - assert (96 <= n) as H96 by (destruct (decide (96 <= n)); [done | exfalso; eapply (masked_not_v4 a n); [done | lia | exact Vm]]).
    assert (length (skipn 12 (and_bytes a m)) = 4%nat) as L4 by (rewrite length_skipn; lia). rewrite L4. cbn [Nat.eqb orb negb].
    assert (skipn 12 m = CIDRMask 4 (n - 96)) as Em.
    { unfold m. change 16%nat with (12 + 4)%nat. rewrite CIDRMask_full by lia. by change (8 * Z.of_nat 12) with 96. }
    pose proof (masked_top a n Ha H96) as Ta. pose proof (masked_top ip n Hi H96) as Ti. fold m in Ta, Ti.
    assert (firstn 12 (and_bytes a m) = firstn 12 a /\ skipn 12 (and_bytes a m) = and_bytes (skipn 12 a) (CIDRMask 4 (n - 96))) as [F S].
    { assert (length (firstn 12 a) = 12%nat) as L12 by (rewrite length_firstn; lia).
      rewrite Ta. split; [by rewrite take_app_length' | by rewrite drop_app_length']. }
    unfold is_v4 in Vm. rewrite F in Vm. rewrite S in *. rewrite Em, and_bytes_idem, Ta, Ti.
    rewrite app_eq_length by (rewrite !length_firstn; lia). rewrite L4. unfold is_v4. rewrite Vm.
    case_bool_decide as V.
    + rewrite length_skipn, Li. cbn [Nat.sub Nat.eqb andb]. rewrite bool_decide_eq_true.
      split; [intros E; split_and!; congruence | intros [[_ E] _]; congruence].
    + rewrite Li. cbn [Nat.eqb andb]. split; [done | intros [[E _] _]; congruence].
  - rewrite Lam. cbn [Nat.eqb orb negb]. rewrite Lam, and_bytes_idem. case_bool_decide as V.
    + rewrite length_skipn, Li. cbn. split; [done |]. intros [E H96]. specialize (H96 V). exfalso. apply Vm.
      rewrite <- E. unfold is_v4 in *. pose proof (masked_top ip n Hi H96) as Ti. fold m in Ti. rewrite Ti, V. done.
    + rewrite Li. cbn [Nat.eqb andb]. rewrite bool_decide_eq_true.
      split; [by intros -> | by intros [-> _]].
Qed.

(** ** What is parsed is an address *)

Lemma is_digit_val c : is_digit c = true -> 0 <= digit_val c <= 9.
Proof. unfold is_digit, digit_val. rewrite andb_true_iff, !N.leb_le. lia. Qed.

Lemma Forall_snoc_2 {A} (P : A -> Prop) l x : Forall P l -> P x -> Forall P (l ++ [x]).
Proof. intros Hl Hx. apply Forall_app_2; [done | by constructor]. Qed.

Lemma byte_ok_0 : byte_ok 0.
Proof. unfold byte_ok. lia. Qed.
#[local] Hint Resolve Forall_snoc_2 byte_ok_0 Forall_nil_2 : core.

Lemma parseIPv4Fields_ok s start dot val digLen fields l :
  parseIPv4Fields s start dot val digLen fields = Some l ->
  byte_ok val -> Forall byte_ok fields -> (length fields <= 3)%nat -> length l = 4%nat /\ Forall byte_ok l.
Proof.
  revert start dot val digLen fields. induction s as [|c s IH]; intros start dot val digLen fields E Hv Hf Hl; cbn [parseIPv4Fields] in E.
  - destruct (Nat.ltb_spec (length fields) 3); [done |]. injection E as <-. rewrite length_app. cbn.
    split; [lia | auto].
  - destruct (is_digit c) eqn:Ed.
    + apply is_digit_val in Ed. destruct (_ && _); [done |]. destruct (Z.ltb_spec 255 (val * 10 + digit_val c)); [done |].
      apply IH in E; auto. unfold byte_ok in *. lia.
    + destruct (Ascii.eqb c "."); [| done]. destruct (_ || _ || _); [done |].
      destruct (Nat.eqb_spec (length fields) 3); [done |]. apply IH in E; auto.
      rewrite length_app. cbn. lia.
Qed.

Lemma hex_val_range c v : hex_val c = Some v -> 0 <= v < 16.
Proof. unfold hex_val. repeat case_match; intros [= <-]; lia. Qed.

Lemma hex_group_range off acc s off' acc' rest :
  hex_group off acc s = Some (off', acc', rest) -> 0 <= acc <= 65535 -> 0 <= acc' <= 65535.
Proof.
  revert off acc. induction s as [|c s IH]; intros off acc E Ha; cbn [hex_group] in E; [by injection E as <- <- <- |].
  destruct (hex_val c) as [v|] eqn:Ev; [| by injection E as <- <- <-]. apply hex_val_range in Ev.
  destruct (Nat.ltb 3 off); [done |]. destruct (Z.ltb_spec 65535 (acc * 16 + v)); [done |]. apply IH in E; lia.
Qed.

Lemma ipv6_groups_ok fuel ip e s ip' e' s' :
  ipv6_groups fuel ip e s = Some (ip', e', s') ->
  Forall byte_ok ip -> (length ip + 2 * fuel <= 16)%nat -> (length ip' <= 16)%nat /\ Forall byte_ok ip'.
Proof.
  revert ip e s. induction fuel as [|fuel IH]; intros ip e s E Hf Hl; cbn [ipv6_groups] in E.
  { injection E as <- <- <-. split; [lia | done]. }
  destruct (hex_group 0 0 s) as [[[off acc] rest]|] eqn:Eg; [| done].
  apply hex_group_range in Eg; [| lia]. destruct (off =? 0)%nat; [done |].
  destruct (HasPrefix rest ".").
  - destruct (match e with None => _ | Some _ => _ end); [done |]. destruct (Nat.ltb_spec 16 (length ip + 4)); [done |].
    destruct (parseIPv4Fields _ _ _ _ _ _) as [l|] eqn:E4; [| done]. injection E as <- <- <-.
    apply parseIPv4Fields_ok in E4 as [L4 F4]; [| done | constructor | cbn; lia].
    rewrite length_app. split; [lia | by apply Forall_app_2].
  - set (ip2 := ip ++ [acc / 256; acc mod 256]) in *.
    assert (Forall byte_ok ip2) as F2.
    { apply Forall_app_2; [done |]. repeat constructor; try apply Z.mod_pos_bound; try lia;
        [apply Z.div_pos; lia | apply Z.div_lt_upper_bound; lia]. }
    assert (length ip2 = length ip + 2)%nat as L2 by (unfold ip2; rewrite length_app; done).
    destruct rest as [|c rest]; [injection E as <- <- <-; split; [lia | done] |].
    destruct (negb _); [done |]. destruct rest as [|d rest]; [done |].
    destruct (Ascii.eqb d ":"); [| apply IH in E; [done | done | lia]].
    destruct e; [done |]. destruct (String.eqb rest ""); [injection E as <- <- <-; split; [lia | done] |].
    apply IH in E; [done | done | lia].
Qed.

Lemma ipv6_expand_ok ip e l :
  ipv6_expand ip e = Some l -> (length ip <= 16)%nat -> Forall byte_ok ip -> IP_ok l.
Proof.
  unfold ipv6_expand. intros E Hl Hf. destruct (Nat.ltb_spec (length ip) 16).
  - destruct e as [e|]; [| done]. injection E as <-. split.
    + rewrite !length_app, repeat_length, length_firstn, length_skipn. lia.
    + apply Forall_app_2; [by apply Forall_take |]. apply Forall_app_2; [| by apply Forall_drop].
      apply Forall_forall. intros x Hx. apply list_elem_of_In, repeat_spec in Hx as ->. unfold byte_ok. lia.
  - destruct e; [done |]. injection E as <-. split; [lia | done].
Qed.

Lemma parseIPv6_groups_ok s l : parseIPv6_groups s = Some l -> IP_ok l.
Proof.
  unfold parseIPv6_groups. destruct (if HasPrefix s "::" then _ else _) as [e0 t]. destruct (_ && _).
  { intros [= <-]. split; [done |]. cbn. repeat (constructor; [unfold byte_ok; lia |]). constructor. }
  destruct (ipv6_groups 8 [] _ _) as [[[ip e] s']|] eqn:E; [| done]. destruct (String.eqb s' ""); [| done].
  apply ipv6_groups_ok in E as [? ?]; [| constructor | cbn; lia]. intros E'. by eapply ipv6_expand_ok.
Qed.

Lemma v4InV6Prefix_ok fields : length fields = 4%nat -> Forall byte_ok fields ->
  IP_ok (v4InV6Prefix ++ fields) /\ is_v4 (v4InV6Prefix ++ fields).
Proof.
  intros L F. split; [split |].
  - rewrite length_app, L. done.
  - apply Forall_app_2; [| done]. cbn. repeat (constructor; [unfold byte_ok; lia |]). constructor.
  - unfold is_v4. by rewrite take_app_length'.
Qed.

Lemma ParseAddr_ok s a : ParseAddr s = Some a -> IP_ok (addr_As16 a) /\ (addr_Is4 a = true -> is_v4 (addr_As16 a)).
Proof.
  unfold ParseAddr. intros E.
  assert (parseIPv4 s = Some a \/ parseIPv6 s = Some a) as [C|C] by (repeat case_match; done || auto); clear E.
  - unfold parseIPv4 in C. destruct (parseIPv4Fields _ _ _ _ _ _) as [l|] eqn:E; [| done]. injection C as <-.
    apply parseIPv4Fields_ok in E as [L F]; [| done | constructor | cbn; lia].
    apply v4InV6Prefix_ok in F as [? ?]; [| done]. cbn. auto.
  - unfold parseIPv6 in C.
    assert (exists l z t, parseIPv6_groups t = Some l /\ a = mkAddr l false z) as (l & z & t & El & ->).
    { destruct (SplitN2 s "%") as [[t z]|]; [destruct (String.eqb z ""); [done |] |];
        apply fmap_Some in C as (l & El & ->); eauto. }
    cbn. split; [by eapply parseIPv6_groups_ok | done].
Qed.

Lemma ParseAddr_nozone_ok s a :
  ParseAddr_nozone s = Some a -> IP_ok (addr_As16 a) /\ (addr_Is4 a = true -> is_v4 (addr_As16 a)).
Proof.
  unfold ParseAddr_nozone. destruct (ParseAddr s) as [b|] eqn:E; [| done]. cbn. destruct (String.eqb _ _); [| done].
  intros [= <-]. by eapply ParseAddr_ok.
Qed.

Lemma ParseIP_ok s ip : ParseIP s = Some ip -> IP_ok ip.
Proof. intros (a & E & ->)%fmap_Some. by apply ParseAddr_nozone_ok in E as [? _]. Qed.

Lemma dtoi_all_nonneg n s m : dtoi_all n s = Some m -> 0 <= n -> 0 <= m.
Proof.
  revert n. induction s as [|c s IH]; intros n E Hn; cbn [dtoi_all] in E; [by injection E as <- |].
  destruct (is_digit c) eqn:Ed; [| done]. apply is_digit_val in Ed. destruct (_ <=? _); [done |]. apply IH in E; lia.
Qed.

Lemma cidr_parts_ok s a n : cidr_parts s = Some (a, n) ->
  IP_ok (addr_As16 a) /\ (addr_Is4 a = true -> is_v4 (addr_As16 a)) /\ 0 <= n <= BitLen a.
Proof.
  unfold cidr_parts. destruct (SplitN2 s "/") as [[t m]|]; [| done]. cbn.
  destruct (ParseAddr_nozone t) as [b|] eqn:Ea; [| done]. cbn.
  destruct (prefix_len m) as [k|] eqn:Ek; [| done]. cbn. destruct (Z.ltb_spec (BitLen b) k); [done |].
  intros [= <- <-]. apply ParseAddr_nozone_ok in Ea as [? ?]. split_and!; try done.
  unfold prefix_len in Ek. destruct (String.eqb m ""); [done |]. by apply dtoi_all_nonneg in Ek.
Qed.

(** [IPNet.Contains] of a parsed CIDR text is the comparison of leading bits. *)
Lemma ParseCIDR_Contains s a n ip : cidr_parts s = Some (a, n) -> IP_ok ip ->
  exists net, ParseCIDR s = Some net /\ (net_Contains net ip = true <-> in_network a n ip).
Proof.
  intros Ec Hi. unfold ParseCIDR. rewrite Ec. cbn [mbind option_bind]. eexists. split; [done |].
  apply cidr_parts_ok in Ec as (Ha & Hv & Hn). pose proof Ha as [La Ba]. pose proof Hi as [Li Bi].
  unfold in_network, prefix_bits, BitLen in *. destruct (addr_Is4 a).
  - change (Z.to_nat (32 / 8)) with 4%nat. rewrite Contains_v4 by (auto; lia).
    rewrite mask_eq by (done || lia). change (8 * Z.of_nat 16) with 128. split; [auto with lia | naive_solver].
  - change (Z.to_nat (128 / 8)) with 16%nat. rewrite Contains_v6 by (auto; lia).
    rewrite mask_eq by (done || lia). by change (8 * Z.of_nat 16) with 128.
Qed.

Lemma ParseCIDR_None s : cidr_parts s = None -> ParseCIDR s = None.
Proof. unfold ParseCIDR. by intros ->. Qed.
