(* ===== verification/Crypto.v ===== *)
(** * Digests: [crypto/sha256], [crypto/hmac], [encoding/hex]

    The digests the program stores and compares (API keys, uploaded files) and
    the signature of webhook deliveries, computed as FIPS 180-4 and RFC 2104
    define them, on words of 32 bits. *)

From S2P Require Import Prelude GoStrings.
#[local] Open Scope string_scope.
#[local] Open Scope list_scope.
#[local] Open Scope Z_scope.

Definition w32 (x : Z) : Z := Z.land x (Z.ones 32).
Definition rotr (n x : Z) : Z := Z.lor (Z.shiftr x n) (w32 (Z.shiftl x (32 - n))).

(** The constants: the first 32 bits of the fractional parts of the cube roots
    of the first 64 primes, and of the square roots of the first 8. *)
Definition primes : list Z := Eval vm_compute in
  List.filter (fun n => forallb (fun d => negb (n mod d =? 0)) (map Z.of_nat (seq 2 (Z.to_nat n - 2))))
    (map Z.of_nat (seq 2 310)).

(** The largest [r] with [r ^ 3 <= n], among those below [2 ^ bits] above [r]. *)
Fixpoint cube_root (bits : nat) (n r : Z) : Z :=
  match bits with
  | O => r
  | S b => let r' := r + 2 ^ Z.of_nat b in cube_root b n (if r' ^ 3 <=? n then r' else r)
  end.

Definition sha_K : list Z := Eval vm_compute in map (fun p => w32 (cube_root 40 (p * 2 ^ 96) 0)) primes.

Definition sha_H0 : list Z := Eval vm_compute in map (fun p => w32 (Z.sqrt (p * 2 ^ 64))) (firstn 8 primes).

(** Message schedule: the last sixteen words, newest first. *)
Fixpoint schedule (n : nat) (recent : list Z) : list Z :=
  match n with
  | O => []
  | S n =>
      let at_ i := nth i recent 0 in
      let s0 x := Z.lxor (Z.lxor (rotr 7 x) (rotr 18 x)) (Z.shiftr x 3) in
      let s1 x := Z.lxor (Z.lxor (rotr 17 x) (rotr 19 x)) (Z.shiftr x 10) in
      let w := w32 (s1 (at_ 1%nat) + at_ 6%nat + s0 (at_ 14%nat) + at_ 15%nat) in
      w :: schedule n (w :: removelast recent)
  end.

Definition round (st : list Z) (kw : Z * Z) : list Z :=
  match st with
  | [a; b; c; d; e; f; g; h] =>
      let S1 := Z.lxor (Z.lxor (rotr 6 e) (rotr 11 e)) (rotr 25 e) in
      let ch := Z.lxor (Z.land e f) (Z.land (Z.lxor e (Z.ones 32)) g) in
      let t1 := h + S1 + ch + kw.1 + kw.2 in
      let S0 := Z.lxor (Z.lxor (rotr 2 a) (rotr 13 a)) (rotr 22 a) in
      let maj := Z.lxor (Z.lxor (Z.land a b) (Z.land a c)) (Z.land b c) in
      [w32 (t1 + S0 + maj); a; b; c; w32 (d + t1); e; f; g]
  | _ => st
  end.

Definition compress (st words : list Z) : list Z :=
  let ws := words ++ schedule 48 (rev words) in
  zip_with (fun x y => w32 (x + y)) st (fold_left round (zip sha_K ws) st).

Definition word_of (bs : list Z) : Z := fold_left (fun acc b => acc * 256 + b) bs 0.

Fixpoint chunks (fuel : nat) (n : nat) (l : list Z) : list (list Z) :=
  match fuel, l with
  | O, _ | _, [] => []
  | S fuel, _ => firstn n l :: chunks fuel n (skipn n l)
  end.

Definition be_bytes (n : nat) (x : Z) : list Z :=
  map (fun i => Z.land (Z.shiftr x (8 * Z.of_nat (n - 1 - i))) 255) (seq 0 n).

Definition sha_pad (msg : list Z) : list Z :=
  let len := Z.of_nat (length msg) in
  msg ++ [128] ++ repeat 0 (Z.to_nat ((55 - len) mod 64)) ++ be_bytes 8 (8 * len).

Definition sha256 (msg : list Z) : list Z :=
  let padded := sha_pad msg in
  let blocks := chunks (length padded) 64 padded in
  let st := fold_left (fun st b => compress st (map word_of (chunks 16 4 b))) blocks sha_H0 in
  mjoin (map (be_bytes 4) st).

(** [hmac.New(sha256.New, key)]. *)
Definition hmac_sha256 (key msg : list Z) : list Z :=
  let key := if (64 <? length key)%nat then sha256 key else key in
  let key := key ++ repeat 0 (64 - length key) in
  sha256 (map (Z.lxor 92) key ++ sha256 (map (Z.lxor 54) key ++ msg)).

(** ** Texts *)

Definition bytes_of (s : string) : list Z := map (fun c => Z.of_N (byte_of c)) (String.list_ascii_of_string s).

Definition hex_byte (b : Z) : string := String (hex_digit (Z.to_N (b / 16))) (String (hex_digit (Z.to_N (b mod 16))) "").

(** [hex.EncodeToString]. *)
Fixpoint EncodeToString (l : list Z) : string :=
  match l with [] => "" | b :: l' => hex_byte b +:+ EncodeToString l' end.

(** The hexadecimal digest of a text. *)
Definition sha256_hex (s : string) : string := EncodeToString (sha256 (bytes_of s)).
Definition hmac_hex (key msg : string) : string := EncodeToString (hmac_sha256 (bytes_of key) (bytes_of msg)).

Arguments sha256_hex : simpl never.
Arguments hmac_hex : simpl never.

(** Test vectors of FIPS 180-4 and RFC 4231. *)
Example sha256_abc : sha256_hex "abc" = "ba7816bf8f01cfea414140de5dae2223b00361a396177a9cb410ff61f20015ad".
Proof. by vm_compute. Qed.
Example sha256_two_blocks : sha256_hex "abcdbcdecdefdefgefghfghighijhijkijkljklmklmnlmnomnopnopq"
  = "248d6a61d20638b8e5c026930c3e6039a33ce45964ff2167f6ecedd419db06c1".
Proof. by vm_compute. Qed.
Example hmac_jefe : hmac_hex "Jefe" "what do ya want for nothing?"
  = "5bdcc146bf60754e6a042426089575c75a003f089d2739839dec58b964ec3843".
Proof. by vm_compute. Qed.

(** ** Hexadecimal texts *)

Definition is_hex (c : ascii) : bool :=
  let b := byte_of c in ((48 <=? b) && (b <=? 57) || (97 <=? b) && (b <=? 102))%N.

Lemma hex_digit_is_hex n : (n < 16)%N -> is_hex (hex_digit n) = true.
Proof.
  intros Hn. assert (forallb (fun n => is_hex (hex_digit (N.of_nat n))) (seq 0 16) = true) as X by by vm_compute.
  rewrite forallb_forall in X. specialize (X (N.to_nat n)). rewrite N2Nat.id in X. apply X, in_seq. lia.
Qed.

Lemma EncodeToString_hex l : Forall (fun b => 0 <= b < 256) l -> all_chars is_hex (EncodeToString l) = true.
Proof.
  induction 1 as [|b l Hb _ IH]; [done |]. cbn [EncodeToString]. rewrite all_chars_append, IH, andb_true_r. cbn [hex_byte all_chars].
  assert (0 <= b / 16 < 16) by (split; [apply Z.div_pos | apply Z.div_lt_upper_bound]; lia).
  pose proof (Z.mod_pos_bound b 16 ltac:(lia)). rewrite !hex_digit_is_hex by lia. done.
Qed.

Lemma length_EncodeToString l : String.length (EncodeToString l) = (2 * length l)%nat.
Proof. induction l as [|b l IH]; [done |]. cbn [EncodeToString]. rewrite length_append, IH. cbn. lia. Qed.

(** Printable ASCII without the space. *)
Definition graphic (c : ascii) : bool := let b := byte_of c in ((33 <=? b) && (b <=? 126))%N.

Lemma is_hex_graphic c : is_hex c = true -> graphic c = true.
Proof. unfold is_hex, graphic. rewrite orb_true_iff, !andb_true_iff, !N.leb_le. lia. Qed.

(** No trimming of a text without white space. *)
Lemma TrimSpace_graphic s : all_chars graphic s = true -> TrimSpace s = s.
Proof.
  intros Hs.
  assert (forall p, p ∈ space_seqs -> all_chars graphic p = false) as Hseq.
  { intros p Hp. assert (forallb (fun p => negb (all_chars graphic p)) space_seqs = true) as X by by vm_compute.
    rewrite forallb_forall in X. apply negb_true_iff, X, list_elem_of_In, Hp. }
  unfold TrimSpace, TrimLeft, TrimRight. rewrite TrimLeft_fuel_id.
  - apply TrimRight_fuel_id. unfold space_suffix. destruct (list_find _ _) as [[i p]|] eqn:E; [| done].
    apply list_find_Some in E as (Hi & Hp & _). destruct (CutSuffix s p) as [t|] eqn:Ec; [| done].
    apply CutSuffix_spec in Ec as ->. apply list_elem_of_lookup_2, Hseq in Hi.
    by rewrite all_chars_append, Hi, andb_false_r in Hs.
  - apply space_prefix_None. intros p Hp. apply not_true_is_false. intros [t ->]%HasPrefix_spec.
    by rewrite all_chars_append, (Hseq p Hp) in Hs.
Qed.
