(* ===== verification/Url.v ===== *)
(** * Parsing of URLs

    [net/url.Parse] as far as callers look at its result: whether it fails, the
    scheme and the host.  What is accepted as a host differs between releases of
    Go, so [parseHost] is a parameter; everything around it is written out. *)

From S2P Require Import Prelude GoStrings Net.
#[local] Open Scope string_scope.
#[local] Open Scope list_scope.

(** The host of an authority without user information, for a scheme. *)
Class NetURL := { parseHost : string -> string -> option string }.

Record URL := mkURL { url_Scheme : string; url_Host : string }.

(** [strings.Cut] at a byte. *)
Definition Cut (s : string) (c : ascii) : string * string := default (s, "") (SplitN2 s c).

Definition ctl_byte (c : ascii) : bool := ((byte_of c <? 32) || (byte_of c =? 127))%N.

Definition is_letter (c : ascii) : bool :=
  let b := byte_of c in ((97 <=? b) && (b <=? 122) || (65 <=? b) && (b <=? 90))%N.
Definition scheme_char (c : ascii) : bool :=
  is_digit c || bool_decide (c ∈ ["+"; "-"; "."]%char).

(** The loop of [getScheme]: [None] is its error, [Some None] no scheme. *)
Fixpoint scan_scheme (first : bool) (s : string) : option (option (string * string)) :=
  match s with
  | "" => Some None
  | String c s' =>
      if is_letter c || scheme_char c && negb first then
        match scan_scheme false s' with
        | Some (Some (a, b)) => Some (Some (String c a, b))
        | r => r
        end
      else if Ascii.eqb c ":" then if first then None else Some (Some ("", s'))
      else Some None
  end.

Definition getScheme (rawURL : string) : option (string * string) :=
  match scan_scheme true rawURL with
  | None => None
  | Some None => Some ("", rawURL)
  | Some (Some p) => Some p
  end.

(** [unescape] fails on a percent sign without two hexadecimal digits. *)
Fixpoint escapes_ok (s : string) : bool :=
  match s with
  | "" => true
  | String c s' =>
      if Ascii.eqb c "%" then
        match s' with
        | String a (String b s'') => bool_decide (is_Some (hex_val a)) && bool_decide (is_Some (hex_val b)) && escapes_ok s''
        | _ => false
        end
      else escapes_ok s'
  end.

Definition userinfo_char (c : ascii) : bool :=
  is_letter c || is_digit c || bool_decide (c ∈ String.list_ascii_of_string "-._:~!$&'()*+,;=%@").

Definition parseAuthority `{NetURL} (scheme authority : string) : option string :=
  match cut_last authority "@" with
  | None => parseHost scheme authority
  | Some (userinfo, h) =>
      host ← parseHost scheme h;
      if all_chars userinfo_char userinfo
         && (if Contains userinfo ":"
             then escapes_ok (Cut userinfo ":").1 && escapes_ok (Cut userinfo ":").2
             else escapes_ok userinfo)
      then Some host else None
  end.

(** The authority and the path after two slashes. *)
Definition split_authority (s : string) : string * string :=
  match IndexByte s "/" with Some i => (take i s, drop i s) | None => (s, "") end.

(** A final [?] and a query are cut off alike. *)
Definition parse `{NetURL} (rawURL : string) : option URL :=
  if negb (all_chars (fun c => negb (ctl_byte c)) rawURL) then None
  else if String.eqb rawURL "*" then Some (mkURL "" "")
  else
    '(scheme, rest) ← getScheme rawURL;
    let scheme := map_chars ascii_lower scheme in
    let rest := (Cut rest "?").1 in
    if negb (HasPrefix rest "/") && negb (String.eqb scheme "") then Some (mkURL scheme "")
    else if negb (HasPrefix rest "/") && Contains (Cut rest "/").1 ":" then None
    else if (negb (String.eqb scheme "") || negb (HasPrefix rest "///")) && HasPrefix rest "//" then
      let '(authority, path) := split_authority (drop 2 rest) in
      host ← parseAuthority scheme authority;
      if escapes_ok path then Some (mkURL scheme host) else None
    else if escapes_ok rest then Some (mkURL scheme "") else None.

Definition Parse `{NetURL} (rawURL : string) : option URL :=
  let '(u, frag) := Cut rawURL "#" in
  url ← parse u;
  if String.eqb frag "" then Some url
  else if escapes_ok frag then Some url else None.

(** ** Reference: the parts of an absolute URL *)

(** A part that is absent or begins with its mark and has none of [stop]. *)
Definition part (mark : ascii) (stop : list ascii) (s : string) : Prop :=
  s = "" \/ exists t, s = String mark t /\ Forall (fun c => no_char c t = true) stop.

Record parts (scheme authority path query fragment : string) : Prop := {
  p_scheme : exists c t, scheme = String c t /\ is_letter c = true
               /\ all_chars (fun c => is_letter c || scheme_char c) t = true;
  p_authority : Forall (fun c => no_char c authority = true) ["/"; "?"; "#"]%char;
  p_path : part "/" ["?"; "#"]%char path /\ escapes_ok path = true;
  p_query : part "?" ["#"]%char query;
  p_fragment : part "#" [] fragment /\ escapes_ok fragment = true;
}.

Definition url_text (scheme authority path query : string) : string :=
  scheme +:+ "://" +:+ authority +:+ path +:+ query.

Lemma Cut_found s c t : no_char c s = true -> Cut (s +:+ String c t) c = (s, t).
Proof. intros Hs. unfold Cut. by rewrite SplitN2_append. Qed.

Lemma SplitN2_absent s c : no_char c s = true -> SplitN2 s c = None.
Proof.
  unfold SplitN2, no_char. induction s as [|d s IH]; [done |]. cbn. rewrite andb_true_iff, negb_true_iff.
  intros [Hd Hs]. rewrite Hd. specialize (IH Hs). by destruct (IndexByte s c).
Qed.

Lemma Cut_absent s c : no_char c s = true -> Cut s c = (s, "").
Proof. intros Hs. unfold Cut. by rewrite SplitN2_absent. Qed.

(** Every string splits at the first occurrence of a byte. *)
Lemma Cut_spec s c : no_char c (Cut s c).1 = true /\
  exists m, s = (Cut s c).1 +:+ m /\ (m = "" /\ (Cut s c).2 = "" \/ m = String c (Cut s c).2).
Proof.
  induction s as [|d s IH]; [split; [done | exists ""; by vm_compute; auto] |].
  destruct (Ascii.eqb_spec c d) as [->|Hd].
  - change (String d s) with ("" +:+ String d s). rewrite Cut_found by done. cbn. eauto.
  - assert (Cut (String d s) c = (String d (Cut s c).1, (Cut s c).2)) as ->.
    { unfold Cut, SplitN2. cbn. apply Ascii.eqb_neq in Hd as ->. by destruct (IndexByte s c). }
    destruct IH as [Hn (m & E & Hm)]. cbn [fst snd]. split.
    + cbn. apply Ascii.eqb_neq in Hd as ->. exact Hn.
    + exists m. split; [cbn; by f_equal | done].
Qed.

Lemma scan_scheme_found s rest :
  all_chars (fun c => is_letter c || scheme_char c) s = true ->
  scan_scheme false (s +:+ String ":" rest) = Some (Some (s, rest)).
Proof.
  induction s as [|c s IH]; [done |]. cbn. rewrite andb_true_iff. intros [Hc Hs].
  by rewrite andb_true_r, Hc, IH.
Qed.

Lemma scan_scheme_inv first s a b : scan_scheme first s = Some (Some (a, b)) ->
  s = a +:+ String ":" b /\ all_chars (fun c => is_letter c || scheme_char c) a = true
  /\ (first = true -> exists c t, a = String c t /\ is_letter c = true).
Proof.
  revert first a b. induction s as [|c s IH]; intros first a b; [done |]. cbn [scan_scheme].
  destruct (is_letter c || scheme_char c && negb first) eqn:Ec.
  - destruct (scan_scheme false s) as [[[a' b']|]|] eqn:Es; [| done | done]. intros [= <- <-].
    apply IH in Es as (-> & Ha & _). split_and!; [done | |].
    + cbn. rewrite Ha, andb_true_r. apply orb_true_iff in Ec as [->|Ec]; [done |].
      apply andb_true_iff in Ec as [-> _]. apply orb_true_r.
    + intros ->. exists c, a'. split; [done |]. by rewrite andb_false_r, orb_false_r in Ec.
  - destruct (Ascii.eqb_spec c ":") as [->|]; [| done]. destruct first; [done |]. intros [= <- <-]. done.
Qed.

Lemma IndexByte_Some s c i : IndexByte s c = Some i -> drop i s = String c (drop (S i) s) /\ no_char c (take i s) = true.
Proof.
  revert i. induction s as [|d s IH]; intros i; [done |]. cbn [IndexByte]. destruct (Ascii.eqb_spec c d) as [->|Hd].
  - by intros [= <-].
  - destruct (IndexByte s c) as [j|]; [| done]. intros [= <-]. destruct (IH j eq_refl) as [E Hn]. split; [exact E |].
    unfold no_char in *. cbn. by apply Ascii.eqb_neq in Hd as ->.
Qed.

Lemma split_authority_spec s : let '(authority, path) := split_authority s in
  s = authority +:+ path /\ no_char "/" authority = true /\ (path = "" \/ exists t, path = String "/" t).
Proof.
  unfold split_authority. destruct (IndexByte s "/") as [i|] eqn:Ei.
  - apply IndexByte_Some in Ei as [E Hn]. split_and!; [by rewrite take_drop | done | eauto].
  - split_and!; [by rewrite append_nil_r | | by left].
    destruct (Cut_spec s "/") as [Hn _]. unfold Cut, SplitN2 in Hn. by rewrite Ei in Hn.
Qed.

Lemma split_authority_found au pa : no_char "/" au = true -> part "/" ["?"; "#"]%char pa ->
  split_authority (au +:+ pa) = (au, pa).
Proof.
  intros Hau Hpa. pose proof (split_authority_spec (au +:+ pa)) as X. unfold split_authority in *.
  assert (IndexByte (au +:+ pa) "/" = match pa with "" => None | _ => Some (String.length au) end) as E.
  { destruct Hpa as [->|(t & -> & _)].
    - rewrite append_nil_r. pose proof (SplitN2_absent _ _ Hau) as Y. unfold SplitN2 in Y. by destruct (IndexByte au "/").
    - clear X. induction au as [|c au IH]; [done |]. unfold no_char in Hau. cbn [all_chars] in Hau. apply andb_true_iff in Hau as [Hc Hau].
      apply negb_true_iff in Hc. cbn [String.append IndexByte String.length]. rewrite Hc. by rewrite (IH Hau). }
  rewrite E in *. destruct pa as [|c pa]; [by rewrite append_nil_r |]. f_equal; [| apply drop_append].
  clear. induction au as [|d au IH]; [done |]. cbn. by rewrite IH.
Qed.

Lemma parts_no_hash sc au pa qu fr : parts sc au pa qu fr -> no_char "#" (url_text sc au pa qu) = true.
Proof.
  intros [(c & t & -> & Hc & Ht) Hau [Hpa _] Hqu _]. unfold url_text. rewrite !no_char_append, !andb_true_iff.
  apply list.Forall_cons in Hau as [_ [_ [Hau _]%list.Forall_cons]%list.Forall_cons]. split_and!; try done.
  - assert (all_chars (fun c => is_letter c || scheme_char c) (String c t) = true) as X by (cbn; by rewrite Hc, Ht).
    revert X. apply all_chars_impl. intros d Hd. destruct (Ascii.eqb_spec "#" d) as [<-|]; [by vm_compute in Hd | done].
  - destruct Hpa as [->|(u & -> & Hu)]; [done |]. by apply list.Forall_cons in Hu as [_ [Hu _]%list.Forall_cons].
  - destruct Hqu as [->|(u & -> & Hu)]; [done |]. by apply list.Forall_cons in Hu as [Hu _].
Qed.

(** Parsing an absolute URL made of its parts. *)
Lemma Parse_parts `{NetURL} sc au pa qu fr : parts sc au pa qu fr ->
  all_chars (fun c => negb (ctl_byte c)) (url_text sc au pa qu) = true ->
  Parse (url_text sc au pa qu +:+ fr)
  = mkURL (map_chars ascii_lower sc) <$> parseAuthority (map_chars ascii_lower sc) au.
Proof.
  intros Hp Hctl. pose proof (parts_no_hash _ _ _ _ _ Hp) as Hh.
  destruct Hp as [(c & t & -> & Hc & Ht) Hau [Hpa Hpe] Hqu [Hfr Hfe]]. unfold Parse.
  assert (exists f, Cut (url_text (String c t) au pa qu +:+ fr) "#" = (url_text (String c t) au pa qu, f) /\ (f = "" \/ escapes_ok f = true)) as (f & -> & Hf).
  { destruct Hfr as [->|(u & -> & _)]; [rewrite append_nil_r, Cut_absent by done | rewrite Cut_found by done]; eauto. }
  assert (forall u : option URL, (url ← u; if String.eqb f "" then Some url else if escapes_ok f then Some url else None) = u) as ->.
  { intros [u|]; [| done]. cbn. destruct Hf as [->| ->]; [done | by destruct (String.eqb f "")]. }
  unfold parse. rewrite Hctl. cbn [negb].
  destruct (String.eqb_spec (url_text (String c t) au pa qu) "*") as [E|_].
  { unfold url_text in E. cbn in E. injection E as -> E. by destruct t. }
  unfold getScheme, url_text. cbn [String.append scan_scheme negb]. rewrite Hc. cbn [orb].
  assert (t +:+ String ":" (String "/" (String "/" (au +:+ pa +:+ qu))) = t +:+ String ":" ("//" +:+ (au +:+ pa) +:+ qu)) as ->.
  { by rewrite !append_assoc. }
  rewrite scan_scheme_found by done. cbn [mbind option_bind].
  apply list.Forall_cons in Hau as [Hs [Hq _]%list.Forall_cons].
  assert ((Cut ("//" +:+ (au +:+ pa) +:+ qu) "?").1 = "//" +:+ au +:+ pa) as ->.
  { assert (no_char "?" ("//" +:+ au +:+ pa) = true).
    { rewrite !no_char_append, Hq. destruct Hpa as [->|(u & -> & Hu)]; [done |]. apply list.Forall_cons in Hu as [Hu _]. exact Hu. }
    destruct Hqu as [->|(u & -> & _)].
    - by rewrite append_nil_r, Cut_absent.
    - by rewrite <- append_assoc, Cut_found. }
  cbn [String.append HasPrefix map_chars Ascii.eqb Bool.eqb andb negb String.eqb orb]. cbn [drop].
  rewrite split_authority_found by done. by destruct (parseAuthority _ au); cbn; rewrite ?Hpe.
Qed.

(** A parsed URL with a scheme and a host has the parts of an absolute one. *)
Lemma parse_inv `{NetURL} raw u : parse raw = Some u -> url_Host u <> "" -> url_Scheme u <> "" -> no_char "#" raw = true ->
  exists sc au pa qu, raw = url_text sc au pa qu /\ parts sc au pa qu ""
    /\ url_Scheme u = map_chars ascii_lower sc /\ parseAuthority (url_Scheme u) au = Some (url_Host u).
Proof.
  unfold parse, getScheme. intros Ep Hho Hsn Hraw. destruct (all_chars _ raw); [| done]. cbn [negb] in Ep.
  destruct (String.eqb raw "*"); [by injection Ep as <- |].
  destruct (scan_scheme true raw) as [[[sc rest]|]|] eqn:Eg; [| | done]; cbn [mbind option_bind map_chars String.eqb] in Ep.
  2: { exfalso. destruct (negb _ && _); [by injection Ep as <- |]. destruct (negb _ && _); [done |]. destruct (_ && HasPrefix _ "//").
       - destruct (split_authority _) as [au pa]. destruct (parseAuthority _ _); [| done]. cbn in Ep.
         destruct (escapes_ok pa); [| done]. by injection Ep as <-.
       - destruct (escapes_ok _); [| done]. by injection Ep as <-. }
  apply scan_scheme_inv in Eg as (-> & Hsch & Hfirst). destruct (Hfirst eq_refl) as (c & t & -> & Hc).
  destruct (Cut_spec rest "?") as [Hr (qu & Er & Hqu)]. destruct (Cut rest "?") as [r q]. cbn [fst snd] in *. subst rest.
  rewrite (proj2 (String.eqb_neq (map_chars ascii_lower (String c t)) "")) in Ep by done. cbn [negb orb] in Ep. rewrite andb_true_r in Ep.
  destruct (HasPrefix r "/"); cbn [negb andb] in Ep; [| by injection Ep as <-].
  destruct (HasPrefix r "//") eqn:Hss; [| destruct (escapes_ok r); [by injection Ep as <- | done]].
  apply HasPrefix_spec in Hss as [r' ->]. cbn [String.append drop] in Ep.
  pose proof (split_authority_spec r') as Hsp. destruct (split_authority r') as [au pa].
  destruct Hsp as (-> & Hau & Hpa). destruct (parseAuthority _ au) as [host|] eqn:Eh; [| done]. cbn [mbind option_bind] in Ep.
  destruct (escapes_ok pa) eqn:Hpe; [| done]. injection Ep as <-. cbn [url_Scheme url_Host] in *.
  exists (String c t), au, pa, qu. split_and!; [unfold url_text; cbn; by rewrite !append_assoc | | done | done].
  change (String ":" (("//" +:+ au +:+ pa) +:+ qu)) with ("://" +:+ (au +:+ pa) +:+ qu) in Hraw.
  repeat rewrite no_char_append, andb_true_iff in Hraw. repeat rewrite no_char_append, andb_true_iff in Hr.
  destruct Hraw as (_ & _ & (Ha & Hp) & Hq), Hr as (_ & Ha' & Hp').
  cbn [all_chars] in Hsch. apply andb_true_iff in Hsch as [_ Hsch]. split; [by eauto | by repeat constructor | | | by split; [left |]].
  - split; [| done]. destruct Hpa as [->|[x ->]]; [by left |]. right. exists x. by repeat constructor.
  - destruct Hqu as [[-> _]| ->]; [by left |]. right. exists q. by repeat constructor.
Qed.

Lemma Parse_inv `{NetURL} s u : Parse s = Some u -> url_Scheme u <> "" -> url_Host u <> "" ->
  exists sc au pa qu fr, s = url_text sc au pa qu +:+ fr /\ parts sc au pa qu fr
    /\ all_chars (fun c => negb (ctl_byte c)) (url_text sc au pa qu) = true
    /\ url_Scheme u = map_chars ascii_lower sc /\ parseAuthority (url_Scheme u) au = Some (url_Host u).
Proof.
  unfold Parse. destruct (Cut_spec s "#") as [Hraw (fr & Es & Hfr)]. destruct (Cut s "#") as [raw f]. cbn [fst snd] in *.
  intros E Hsc Hho. destruct (parse raw) as [u'|] eqn:Ep; [| done]. cbn [mbind option_bind] in E.
  assert (u' = u /\ escapes_ok f = true) as [-> Hf].
  { destruct (String.eqb_spec f "") as [->|]; [by injection E as -> |]. destruct (escapes_ok f); [by injection E as -> | done]. }
  assert (all_chars (fun c => negb (ctl_byte c)) raw = true) as Hctl.
  { unfold parse in Ep. by destruct (all_chars _ raw). }
  apply parse_inv in Ep as (sc & au & pa & qu & -> & [P1 P2 P3 P4 _] & Es1 & Eh); [| done..].
  exists sc, au, pa, qu, fr. split_and!; try done. split; try done.
  destruct Hfr as [[-> _]| ->]; [by split; [left |] |]. split; [right; eauto | done].
Qed.

(** An absolute URL of the web: a scheme [http] or [https] in any case, a host. *)
Definition web_url `{NetURL} (s : string) : Prop :=
  exists sc au pa qu fr host, s = url_text sc au pa qu +:+ fr /\ parts sc au pa qu fr
    /\ all_chars (fun c => negb (ctl_byte c)) (url_text sc au pa qu) = true
    /\ map_chars ascii_lower sc ∈ ["http"; "https"]
    /\ parseAuthority (map_chars ascii_lower sc) au = Some host /\ host <> "".

Lemma web_url_iff `{NetURL} s :
  web_url s <-> exists u, Parse s = Some u /\ url_Scheme u ∈ ["http"; "https"] /\ url_Host u <> "".
Proof.
  split.
  - intros (sc & au & pa & qu & fr & host & -> & Hp & Hctl & Hsc & Eh & Hne). rewrite Parse_parts, Eh by done. cbn. eauto.
  - intros (u & Ep & Hsc & Hho). apply Parse_inv in Ep as (sc & au & pa & qu & fr & -> & Hp & Hctl & E & Eh); 
      [| intros E; rewrite E in Hsc; by apply list_elem_of_In in Hsc as [|[|[]]] | done].
    exists sc, au, pa, qu, fr, (url_Host u). rewrite E in *. done.
Qed.
