(* ===== verification/GoTime.v ===== *)
(** * Go's [time.Time]

    An instant is a number of nanoseconds since the Unix epoch together with
    the offset of its location: [now.UTC()] has offset 0, a timestamp read
    back from PostgreSQL carries the location of the server process.  The
    calendar fields are those of the proleptic Gregorian calendar. *)

From S2P Require Import Prelude GoStrings.
#[local] Open Scope Z_scope.

Record Time := mkTime { t_nanos : Z; t_offset : Z (* seconds east of UTC *) }.

#[global] Instance Time_eq_dec : EqDecision Time.
Proof. solve_decision. Defined.

Definition Second : Z := 1000000000.
Definition Minute : Z := 60 * Second.
Definition Hour : Z := 60 * Minute.

(** [time.Time{}], midnight of 1 January of year 1. *)
Definition zeroTime : Time := mkTime (-62135596800 * Second) 0.

Definition UTC (t : Time) : Time := mkTime (t_nanos t) 0.
Definition Add (t : Time) (d : Z) : Time := mkTime (t_nanos t + d) (t_offset t).
Definition Before (t u : Time) : bool := t_nanos t <? t_nanos u.
Definition After (t u : Time) : bool := t_nanos u <? t_nanos t.
Definition IsZero (t : Time) : bool := t_nanos t =? t_nanos zeroTime.
Definition Unix (t : Time) : Z := t_nanos t / Second.

(** Local day number: days since 1 January 1970 in the location of [t]. *)
Definition day_number (t : Time) : Z := (t_nanos t + t_offset t * Second) / (86400 * Second).

(** Days from 1970-01-01 to day [d] of month [m] of year [y], counting years
    from March so that the leap day comes last. *)
Definition days_from_civil (y m d : Z) : Z :=
  let y' := if m <=? 2 then y - 1 else y in
  let era := y' / 400 in
  let yoe := y' - era * 400 in
  let doy := (153 * (if 2 <? m then m - 3 else m + 9) + 2) / 5 + d - 1 in
  let doe := yoe * 365 + yoe / 4 - yoe / 100 + doy in
  era * 146097 + doe - 719468.

(** Year, month and day of a day number. *)
Definition civil (days : Z) : Z * Z * Z :=
  let z := days + 719468 in
  let era := z / 146097 in
  let doe := z - era * 146097 in
  let yoe := (doe - doe / 1460 + doe / 36524 - doe / 146096) / 365 in
  let y := yoe + era * 400 in
  let doy := doe - (365 * yoe + yoe / 4 - yoe / 100) in
  let mp := (5 * doy + 2) / 153 in
  let d := doy - (153 * mp + 2) / 5 + 1 in
  let m := if mp <? 10 then mp + 3 else mp - 9 in
  ((if m <=? 2 then y + 1 else y), m, d).

Definition Year (t : Time) : Z := (civil (day_number t)).1.1.
Definition Month (t : Time) : Z := (civil (day_number t)).1.2.
Definition Day (t : Time) : Z := (civil (day_number t)).2.
Definition YearDay (t : Time) : Z := day_number t - days_from_civil (Year t) 1 1 + 1.

(** [t.Format] with the layouts the program uses. *)
Definition Format_2006 (t : Time) : string := fmt_0wd (if Year t <? 0 then 5 else 4) (Year t).
Definition Format_06 (t : Time) : string :=
  fmt_0wd 2 ((if Year t <? 0 then 0 else Year t) mod 100).
Definition Format_01 (t : Time) : string := fmt_0wd 2 (Month t).
Definition Format_02 (t : Time) : string := fmt_0wd 2 (Day t).
Definition Format_20060102 (t : Time) : string :=
  (Format_2006 t +:+ Format_01 t +:+ Format_02 t)%string.

(** [t.Format(time.RFC3339)]: seconds of the day, and the offset in minutes. *)
Definition Format_RFC3339 (t : Time) : string :=
  (let s := (((t_nanos t + t_offset t * Second) / Second) mod 86400)%Z in
   let zone := Z.abs (Z.quot (t_offset t) 60) in
   Format_2006 t +:+ "-" +:+ Format_01 t +:+ "-" +:+ Format_02 t +:+ "T" +:+ fmt_0wd 2 (s / 3600)%Z +:+ ":" +:+ fmt_0wd 2 (s / 60 mod 60)%Z
   +:+ ":" +:+ fmt_0wd 2 (s mod 60)%Z
   +:+ (if (t_offset t =? 0)%Z then "Z"
        else (if (Z.quot (t_offset t) 60 <? 0)%Z then "-" else "+") +:+ fmt_0wd 2 (zone / 60)%Z +:+ ":" +:+ fmt_0wd 2 (zone mod 60)%Z))%string.

(** ** Calendar facts *)

Lemma civil_month_range days : 1 <= (civil days).1.2 <= 12.
Proof.
  unfold civil. cbn [fst snd].
  set (z := days + 719468). set (doe := z - z / 146097 * 146097).
  assert (0 <= doe < 146097) as Hdoe by (unfold doe; clearbody z; zdiv_lia).
  clearbody doe.
  set (yoe := (doe - doe / 1460 + doe / 36524 - doe / 146096) / 365).
  assert (0 <= doe - (365 * yoe + yoe / 4 - yoe / 100) <= 365) as Hdoy by (unfold yoe; zdiv_lia).
  set (doy := doe - (365 * yoe + yoe / 4 - yoe / 100)) in *.
  clearbody doy. case_match; zdiv_lia.
Qed.

Lemma Month_range t : 1 <= Month t <= 12.
Proof. apply civil_month_range. Qed.

(** The pair of year and day of the year identifies the day. *)
Lemma same_day_iff t u :
  day_number t = day_number u <-> Year t = Year u /\ YearDay t = YearDay u.
Proof.
  unfold YearDay, Year. split; [intros ->; done |]. intros [E ?]. rewrite E in *. lia.
Qed.

Lemma same_day_same_month t u :
  day_number t = day_number u -> Year t = Year u /\ Month t = Month u.
Proof. unfold Year, Month. by intros ->. Qed.

(** Months counted from year 0.  The calendar is monotone: later days never
    fall into earlier months. *)
Definition month_index (d : Z) : Z := 12 * (civil d).1.1 + (civil d).1.2.

Definition year_of_era (doe : Z) : Z :=
  (doe - doe / 1460 + doe / 36524 - doe / 146096) / 365.
Definition day_of_year (doe : Z) : Z :=
  doe - (365 * year_of_era doe + year_of_era doe / 4 - year_of_era doe / 100).

Lemma day_of_year_range doe : 0 <= doe < 146097 -> 0 <= day_of_year doe <= 365.
Proof. unfold day_of_year, year_of_era. intros. zdiv_lia. Qed.

(** In the calendar whose years start in March there is no case distinction. *)
Lemma month_index_march d :
  let era := (d + 719468) / 146097 in
  let doe := d + 719468 - era * 146097 in
  month_index d = 12 * (year_of_era doe + 400 * era) + (5 * day_of_year doe + 2) / 153 + 3.
Proof.
  intros era doe. unfold month_index, civil. cbv zeta. cbn [fst snd].
  fold era. fold doe. fold (year_of_era doe). fold (day_of_year doe).
  assert (0 <= doe < 146097) as Hdoe by (unfold doe, era; zdiv_lia).
  pose proof (day_of_year_range doe Hdoe) as Hdoy. clearbody doe.
  set (doy := day_of_year doe) in *. set (yoe := year_of_era doe) in *. clearbody doy yoe.
  destruct (Z.ltb_spec ((5 * doy + 2) / 153) 10).
  - rewrite (proj2 (Z.leb_gt _ _)) by zdiv_lia. zdiv_lia.
  - rewrite (proj2 (Z.leb_le _ _)) by zdiv_lia. zdiv_lia.
Qed.

Lemma year_of_era_mono doe :
  0 <= doe < 146096 -> year_of_era doe <= year_of_era (doe + 1).
Proof. intros. unfold year_of_era. apply Z.div_le_mono; [lia |]. zdiv_lia. Qed.

Lemma month_index_step d : month_index d <= month_index (d + 1).
Proof.
  rewrite !month_index_march. cbv zeta.
  replace (d + 1 + 719468) with (d + 719468 + 1) by lia.
  set (z := d + 719468). clearbody z.
  destruct (Z.eq_dec ((z + 1) mod 146097) 0) as [E|E].
  - assert ((z + 1) / 146097 = z / 146097 + 1) as -> by zdiv_lia.
    assert (z - z / 146097 * 146097 = 146096) as -> by zdiv_lia.
    assert (z + 1 - (z / 146097 + 1) * 146097 = 0) as -> by zdiv_lia.
    set (era := z / 146097). clearbody era. unfold day_of_year, year_of_era. zdiv_lia.
  - assert ((z + 1) / 146097 = z / 146097) as -> by zdiv_lia.
    replace (z + 1 - z / 146097 * 146097) with (z - z / 146097 * 146097 + 1) by lia.
    assert (0 <= z - z / 146097 * 146097 < 146096) as Hdoe by zdiv_lia.
    set (doe := z - z / 146097 * 146097) in *. clearbody doe.
    pose proof (day_of_year_range doe ltac:(lia)) as D1.
    pose proof (day_of_year_range (doe + 1) ltac:(lia)) as D2.
    destruct (Z.eq_dec (year_of_era (doe + 1)) (year_of_era doe)) as [Y|Y].
    + assert (day_of_year (doe + 1) = day_of_year doe + 1) as ->
        by (unfold day_of_year; rewrite Y; lia).
      rewrite Y. zdiv_lia.
    + pose proof (year_of_era_mono doe Hdoe). zdiv_lia.
Qed.

Lemma month_index_mono d d' : d <= d' -> month_index d <= month_index d'.
Proof.
  intros Hd. replace d' with (d + Z.of_nat (Z.to_nat (d' - d))) by lia.
  induction (Z.to_nat (d' - d)) as [|n IH]; [rewrite Z.add_0_r; lia |].
  rewrite Nat2Z.inj_succ. etransitivity; [exact IH |].
  replace (d + Z.succ (Z.of_nat n)) with (d + Z.of_nat n + 1) by lia. apply month_index_step.
Qed.

Lemma day_number_mono t u :
  t_nanos t <= t_nanos u -> t_offset t = t_offset u -> day_number t <= day_number u.
Proof. unfold day_number. intros H ->. apply Z.div_le_mono; unfold Second; lia. Qed.

(** Year and month are determined by the month index. *)
Lemma month_index_iff t u :
  month_index (day_number t) = month_index (day_number u) <-> Year t = Year u /\ Month t = Month u.
Proof.
  unfold month_index. fold (Year t) (Month t) (Year u) (Month u).
  pose proof (Month_range t). pose proof (Month_range u). lia.
Qed.
