(* ===== verification/GoFloat.v ===== *)
(** * Go's [float64]

    IEEE 754 binary64 with round-to-nearest-even, through the executable
    specification of the Standard Library ([SpecFloat], 53 bits of
    precision, maximal exponent 1024).  Every operation below is the
    correctly rounded one the language prescribes. *)

From S2P Require Import Prelude.
From Stdlib Require Export SpecFloat.
#[local] Open Scope Z_scope.

Definition float64 : Type := spec_float.

#[global] Instance float64_eq_dec : EqDecision float64.
Proof. intros x y. unfold Decision. repeat decide equality. Defined.

Definition fadd : float64 -> float64 -> float64 := SFadd 53 1024.
Definition fsub : float64 -> float64 -> float64 := SFsub 53 1024.
Definition fmul : float64 -> float64 -> float64 := SFmul 53 1024.
Definition fdiv : float64 -> float64 -> float64 := SFdiv 53 1024.
Definition fabs : float64 -> float64 := SFabs.
Definition flt : float64 -> float64 -> bool := SFltb.
Definition fle : float64 -> float64 -> bool := SFleb.
Definition fgt (x y : float64) : bool := SFltb y x.
Definition fge (x y : float64) : bool := SFleb y x.

(** [float64(n)] of an integer. *)
Definition of_Z (n : Z) : float64 := binary_normalize 53 1024 n 0 false.

Definition f0 : float64 := S754_zero false.
Definition f1 : float64 := Eval vm_compute in of_Z 1.
(** [0.5], exact. *)
Definition f_half : float64 := Eval vm_compute in fdiv (of_Z 1) (of_Z 2).
(** [1e-9] and [-1e-9]: the double nearest to the decimal constant. *)
Definition f_1em9 : float64 := Eval vm_compute in fdiv (of_Z 1) (of_Z 1000000000).
Definition f_m1em9 : float64 := Eval vm_compute in SFopp f_1em9.

(** The conversion [int64(x)] truncates toward zero.  Out of range (and for
    NaN and the infinities) its result depends on the implementation. *)
Class GoPlatform := { int64_out_of_range : float64 -> Z }.

(** The result of the amd64 instruction. *)
Definition amd64 : GoPlatform := {| int64_out_of_range _ := - 2 ^ 63 |}.

Definition trunc_mag (m : positive) (e : Z) : Z :=
  if 0 <=? e then Zpos m * 2 ^ e else Zpos m / 2 ^ (- e).

Definition to_int64 `{GoPlatform} (x : float64) : Z :=
  match x with
  | S754_zero _ => 0
  | S754_finite s m e =>
      let t := if s then - trunc_mag m e else trunc_mag m e in
      if (- 2 ^ 63 <=? t) && (t <? 2 ^ 63) then t else int64_out_of_range x
  | _ => int64_out_of_range x
  end.
