(* ===== verification/Sdk.v ===== *)
(** * The public SDK: identifiers, request context, environment

    [pkg/sdk/id.go], [pkg/sdk/tenant.go], [pkg/sdk/auth_context.go] (re-exported
    unchanged by [internal/core/domain/shared]), [pkg/database/tx.go], and the
    effects every use case has: fresh identifiers, the clock, the database. *)

From S2P Require Import Prelude GoStrings GoTime GoFloat.
#[local] Open Scope Z_scope.

(** ** Identifiers *)

(** [uuid.UUID] is an array of 16 bytes, here its 128-bit value. *)
Definition ID : Type := N.
Definition NilID : ID := 0%N.

#[global] Instance ID_eq_dec : EqDecision ID := N.eq_dec.
#[global] Instance ID_countable : Countable ID := N_countable.

(** [uuid.Parse] and [UUID.String] of github.com/google/uuid. *)
Class UUIDLib := {
  uuid_Parse : string -> option ID;
  uuid_String : ID -> string;
}.

Definition ParseID `{UUIDLib} (s : string) : res ID :=
  match uuid_Parse s with
  | Some id => Ok id
  | None => Err (Errorf ErrInvalidInput "invalid UUID format")
  end.

Definition MustParseID `{UUIDLib} (s : string) : res ID :=
  match ParseID s with Err e => Panic e | r => r end.

(** [pgtype.UUID]. *)
Record pgUUID := mkPgUUID { pg_Bytes : ID; pg_Valid : bool }.

Definition ToPgUUID (id : ID) : pgUUID := mkPgUUID id (bool_decide (id <> NilID)).
Definition FromPgUUID (u : pgUUID) : ID := if pg_Valid u then pg_Bytes u else NilID.

(** ** Dynamic values

    [any] as the program stores it: JSON data and the Go values that are put
    into payloads. *)
Inductive Any :=
  | ANil
  | ABool (b : bool)
  | AString (s : string)
  | AFloat64 (x : float64)
  | AFloat32 (x : float64)    (* a float32 value, which float64 holds exactly *)
  | AInt (n : Z)
  | AInt64 (n : Z)
  | AInt32 (n : Z)
  | AStrings (l : list string)
  | AID (id : ID)
  | AIDs (l : list ID)
  | AList (l : list Any)
  | AMap (l : list (string * Any)).

(** [map[string]any], with [None] for the nil map. *)
Abbreviation AnyMap := (option (gmap string Any)).

(** ** Request context *)

(** [sdk.ActorType]. *)
Definition ActorType : Type := string.
Definition ActorTypeUser : ActorType := "user"%string.
Definition ActorTypeAPIKey : ActorType := "api_key"%string.
Definition ActorTypeSystem : ActorType := "system"%string.

(** [sdk.AuthClaims]. *)
Record AuthClaims := mkAuthClaims {
  ac_UserID : ID;
  ac_TenantID : ID;
  ac_Email : string;
  ac_Name : string;
  ac_Roles : list string;
  ac_Permissions : list string;
  ac_ActorType : ActorType;
  ac_ServiceAccountID : option ID;
  ac_APIKeyID : option ID;
}.

(** [context.Context] restricted to the keys the program reads: the tenant,
    the claims (a possibly nil pointer) and whether a transaction is active. *)
Record Ctx := mkCtx {
  ctx_tenant : option ID;
  ctx_claims : option (option AuthClaims);
  ctx_tx : bool;
}.

Definition Background : Ctx := mkCtx None None false.

Definition WithTenantID (ctx : Ctx) (id : ID) : Ctx :=
  mkCtx (Some id) (ctx_claims ctx) (ctx_tx ctx).

Definition GetTenantID (ctx : Ctx) : ID * bool :=
  match ctx_tenant ctx with
  | None => (NilID, false)
  | Some id => if decide (id = NilID) then (NilID, false) else (id, true)
  end.

Definition RequireTenantID (ctx : Ctx) : res ID :=
  match GetTenantID ctx with
  | (id, true) => Ok id
  | (_, false) => Err (ESentinel ErrTenantRequired)
  end.

Definition WithAuthClaims (ctx : Ctx) (claims : option AuthClaims) : Ctx :=
  mkCtx (ctx_tenant ctx) (Some claims) (ctx_tx ctx).

Definition GetAuthClaims (ctx : Ctx) : option AuthClaims * bool :=
  match ctx_claims ctx with
  | None => (None, false)
  | Some None => (None, false)
  | Some (Some c) => (Some c, true)
  end.

(** The permission ["*"] grants everything. *)
Definition HasPermission (ctx : Ctx) (permissionCode : string) : bool :=
  match GetAuthClaims ctx with
  | (Some claims, true) =>
      existsb (fun p => String.eqb p permissionCode || String.eqb p "*") (ac_Permissions claims)
  | _ => false
  end.

(** ** Environment *)

(** What the outside world answers to the [n]-th question the process asks:
    a fresh identifier or the failure of [uuid.NewV7], the clock, the failure
    of a database round trip. *)
Class Env := {
  env_id : nat -> ID + error;
  env_now : nat -> Time;
  env_fault : nat -> option error;
}.

Definition tick {D} (w : World D) : World D := mkWorld (w_db w) (S (w_tick w)).

Definition NewID `{Env} {D} : M D ID := fun w =>
  (match env_id (w_tick w) with inl id => Ok id | inr e => Err e end, tick w).

(** [id, _ := shared.NewID()]: the zero identifier on failure. *)
Definition NewID_ignore `{Env} {D} : M D ID := fun w =>
  (Ok (match env_id (w_tick w) with inl id => id | inr _ => NilID end), tick w).

(** [time.Now().UTC()]. *)
Definition NowUTC `{Env} {D} : M D Time := fun w => (Ok (UTC (env_now (w_tick w))), tick w).

(** [time.Now()], in the location of the process. *)
Definition Now `{Env} {D} : M D Time := fun w => (Ok (env_now (w_tick w)), tick w).

(** One statement sent to PostgreSQL: the round trip fails, or the statement
    runs and may itself be refused (a constraint), leaving the tables alone. *)
Definition query `{Env} {D A} (f : D -> res (A * D)) : M D A := fun w =>
  match env_fault (w_tick w) with
  | Some e => (Err e, tick w)
  | None =>
      match f (w_db w) with
      | Ok (a, d) => (Ok a, mkWorld d (S (w_tick w)))
      | Err e => (Err e, tick w)
      | Panic e => (Panic e, tick w)
      end
  end.

(** [database.WithTx]: run [fn] directly without a pool or inside an active
    transaction, otherwise begin, run, and commit; the deferred rollback
    restores the tables when [fn] or the commit fails, or [fn] panics. *)
Definition WithTx `{Env} {D A} (pool : bool) (ctx : Ctx) (fn : Ctx -> M D A) : M D A :=
  if negb pool then fn ctx
  else if ctx_tx ctx then fn ctx
  else fun w =>
    match env_fault (w_tick w) with
    | Some e => (Err e, tick w)
    | None =>
        match fn (mkCtx (ctx_tenant ctx) (ctx_claims ctx) true) (tick w) with
        | (Ok a, w') =>
            match env_fault (w_tick w') with
            | Some e => (Err e, mkWorld (w_db w) (S (w_tick w')))
            | None => (Ok a, tick w')
            end
        | (Err e, w') => (Err e, mkWorld (w_db w) (w_tick w'))
        | (Panic e, w') => (Panic e, mkWorld (w_db w) (w_tick w'))
        end
    end.

(** A database of type [D] holds a component of type [E] (a table). *)
Class Lens (D E : Type) := {
  lens_get : D -> E;
  lens_set : E -> D -> D;
  lens_get_set : forall e d, lens_get (lens_set e d) = e;
  lens_set_get : forall d, lens_set (lens_get d) d = d;
  lens_set_set : forall e e' d, lens_set e (lens_set e' d) = lens_set e d;
}.

#[export] Instance Lens_id {D} : Lens D D | 10 :=
  {| lens_get d := d; lens_set e _ := e;
     lens_get_set _ _ := eq_refl; lens_set_get _ := eq_refl; lens_set_set _ _ _ := eq_refl |}.

(** Run a computation on one component of the database. *)
Definition zoom {D E A} `{Lens D E} (m : M E A) : M D A := fun w =>
  match m (mkWorld (lens_get (w_db w)) (w_tick w)) with
  | (r, w') => (r, mkWorld (lens_set (w_db w') (w_db w)) (w_tick w'))
  end.

(** ** Lemmas *)

Lemma FromPgUUID_ToPgUUID id : FromPgUUID (ToPgUUID id) = id.
Proof. unfold FromPgUUID, ToPgUUID. simpl. case_bool_decide; congruence. Qed.

Lemma RequireTenantID_Ok ctx t :
  RequireTenantID ctx = Ok t <-> ctx_tenant ctx = Some t /\ t <> NilID.
Proof.
  unfold RequireTenantID, GetTenantID.
  destruct (ctx_tenant ctx) as [id|]; [| naive_solver].
  case_decide; naive_solver.
Qed.

Lemma RequireTenantID_Err ctx :
  (forall t, ctx_tenant ctx = Some t -> t = NilID) ->
  RequireTenantID ctx = Err (ESentinel ErrTenantRequired).
Proof.
  unfold RequireTenantID, GetTenantID. intros Hn.
  destruct (ctx_tenant ctx) as [id|]; [| done]. rewrite decide_True; [done | auto].
Qed.

Lemma HasPermission_iff ctx code :
  HasPermission ctx code = true <->
  exists c, ctx_claims ctx = Some (Some c) /\
    (code ∈ ac_Permissions c \/ "*"%string ∈ ac_Permissions c).
Proof.
  unfold HasPermission, GetAuthClaims.
  destruct (ctx_claims ctx) as [[c|]|]; [| naive_solver | naive_solver].
  rewrite existsb_exists. setoid_rewrite orb_true_iff. setoid_rewrite String.eqb_eq.
  setoid_rewrite <- list_elem_of_In. naive_solver.
Qed.

Lemma query_Ok `{Env} {D A} (f : D -> res (A * D)) (w : World D) a w' :
  query f w = (Ok a, w') -> exists d, f (w_db w) = Ok (a, d) /\ w' = mkWorld d (S (w_tick w)).
Proof.
  unfold query. destruct (env_fault (w_tick w)); [done |].
  destruct (f (w_db w)) as [[a' d]| |]; naive_solver.
Qed.

(** A statement that fails changes nothing. *)
Lemma query_not_Ok `{Env} {D A} (f : D -> res (A * D)) (w : World D) r w' :
  query f w = (r, w') -> is_Ok r = false -> w_db w' = w_db w.
Proof.
  unfold query. destruct (env_fault (w_tick w)); [naive_solver |].
  destruct (f (w_db w)) as [[a' d]| |]; naive_solver.
Qed.

Lemma NewID_Ok `{Env} {D} (w : World D) id w' :
  NewID w = (Ok id, w') -> env_id (w_tick w) = inl id /\ w' = tick w.
Proof. unfold NewID. destruct (env_id (w_tick w)); naive_solver. Qed.

Lemma NowUTC_Ok `{Env} {D} (w : World D) t w' :
  NowUTC w = (Ok t, w') -> t = UTC (env_now (w_tick w)) /\ w' = tick w.
Proof. unfold NowUTC. naive_solver. Qed.

Lemma Now_Ok `{Env} {D} (w : World D) t w' :
  Now w = (Ok t, w') -> t = env_now (w_tick w) /\ w' = tick w.
Proof. unfold Now. naive_solver. Qed.

Lemma lift_res_Ok {D A} (r : res A) (w : World D) a w' :
  lift_res r w = (Ok a, w') -> r = Ok a /\ w' = w.
Proof. unfold lift_res. naive_solver. Qed.

Lemma ret_Ok {D A} (x : A) (w : World D) a w' : ret x w = (Ok a, w') -> a = x /\ w' = w.
Proof. unfold ret. naive_solver. Qed.

(** Take a successful run apart, statement by statement. *)
Ltac step_inv :=
  repeat match goal with
  | H : bind _ _ _ = (Ok _, _) |- _ =>
      apply bind_Ok in H; let a := fresh "a" in let w := fresh "w" in let H1 := fresh "R" in
      destruct H as (a & w & H1 & H); cbv beta zeta in H
  | H : guard _ _ _ = (Ok _, _) |- _ => apply guard_Ok in H; destruct H as [H ->]
  | H : check_absent _ _ _ = (Ok _, _) |- _ => apply check_absent_Ok in H
  | H : NewID _ = (Ok _, _) |- _ => apply NewID_Ok in H; destruct H as [H ->]
  | H : NowUTC _ = (Ok _, _) |- _ => apply NowUTC_Ok in H; destruct H as [-> ->]
  | H : Now _ = (Ok _, _) |- _ => apply Now_Ok in H; destruct H as [-> ->]
  | H : lift_res _ _ = (Ok _, _) |- _ => apply lift_res_Ok in H; destruct H as [H ->]
  | H : ret _ _ = (Ok _, _) |- _ => apply ret_Ok in H; destruct H as [-> ->]
  | H : query _ _ = (Ok _, _) |- _ =>
      apply query_Ok in H; let d := fresh "d" in destruct H as (d & H & ->)
  end.

(** A failed transaction leaves every table as it was. *)
Lemma WithTx_rollback `{Env} {D A} ctx (fn : Ctx -> M D A) w r w' :
  ctx_tx ctx = false ->
  WithTx true ctx fn w = (r, w') ->
  is_Ok r = false -> w_db w' = w_db w.
Proof.
  unfold WithTx. intros ->. simpl. destruct (env_fault (w_tick w)); [naive_solver |].
  destruct (fn _ (tick w)) as [[a|e|e] w1]; [| naive_solver | naive_solver].
  destruct (env_fault (w_tick w1)); naive_solver.
Qed.

(** A committed transaction is the run of its body. *)
Lemma WithTx_commit `{Env} {D A} ctx (fn : Ctx -> M D A) w a w' :
  ctx_tx ctx = false ->
  WithTx true ctx fn w = (Ok a, w') ->
  exists w1, fn (mkCtx (ctx_tenant ctx) (ctx_claims ctx) true) (tick w) = (Ok a, w1)
             /\ w_db w' = w_db w1.
Proof.
  unfold WithTx. intros ->. simpl. destruct (env_fault (w_tick w)); [naive_solver |].
  destruct (fn _ (tick w)) as [[a1|e|e] w1]; [| naive_solver | naive_solver].
  destruct (env_fault (w_tick w1)); [naive_solver |].
  intros [= <- <-]. eauto.
Qed.

(** ** PostgreSQL through pgx

    What the database and its driver do to a value on the way in and out, and
    which rows they refuse for reasons other than the keys modelled with each
    table (lengths of VARCHAR columns, foreign keys to tables of other
    components). *)
Class Pg := {
  pg_timestamptz : Time -> Time;
  pg_date : Time -> Time;
  pg_numeric : float64 -> float64;
  pg_jsonb : gmap string Any -> gmap string Any;
  pg_unique_violation : error;
}.

(** [column = $n] with a UUID parameter: NULL, and so no row, for the nil
    identifier. *)
Definition sql_eq (column : ID) (p : pgUUID) : bool :=
  pg_Valid p && bool_decide (column = pg_Bytes p).

(** The rows of a table that satisfy a condition, and the first of them
    ([:one] queries fail with [pgx.ErrNoRows] otherwise). *)
Definition select_rows {R} (p : R -> bool) (table : gmap ID R) : list R :=
  List.filter p (map_to_list table).*2.
Definition select_one {R} (p : R -> bool) (table : gmap ID R) : option R :=
  head (select_rows p table).

(** LIMIT and OFFSET. *)
Definition sql_page {A} (limit offset : Z) (l : list A) : list A :=
  firstn (Z.to_nat limit) (skipn (Z.to_nat offset) l).

(** [sqlc.narg] filters: NULL matches everything. *)
Definition narg_eq (p : option string) (column : string) : bool :=
  match p with None => true | Some s => String.eqb column s end.
Definition narg_id (p : option ID) (column : option ID) : bool :=
  match p with
  | None => true
  | Some id => if decide (id = NilID) then true else bool_decide (column = Some id)
  end.

(** [id != nil && *id != NilID()]: what is stored for an optional reference. *)
Definition opt_ref (p : option ID) : option ID :=
  match p with Some id => if decide (id = NilID) then None else Some id | None => None end.

(** NULL for the empty string. *)
Definition text_or_null (s : string) : option string := if String.eqb s "" then None else Some s.

Lemma sql_eq_true column id :
  sql_eq column (ToPgUUID id) = true <-> id <> NilID /\ column = id.
Proof.
  unfold sql_eq, ToPgUUID. cbn [pg_Valid pg_Bytes].
  rewrite andb_true_iff, !bool_decide_eq_true. done.
Qed.

Lemma elem_of_select_rows {R} (p : R -> bool) (t : gmap ID R) r :
  r ∈ select_rows p t <-> p r = true /\ exists k, t !! k = Some r.
Proof.
  unfold select_rows. rewrite list_elem_of_In, filter_In, <- list_elem_of_In, list_elem_of_fmap.
  split.
  - intros [([k r'] & -> & Hin) Hp]. apply elem_of_map_to_list in Hin. eauto.
  - intros [Hp [k Hk]]. split; [| done]. exists (k, r). by rewrite elem_of_map_to_list.
Qed.

Lemma select_one_Some {R} (p : R -> bool) (t : gmap ID R) r :
  select_one p t = Some r -> p r = true /\ exists k, t !! k = Some r.
Proof.
  unfold select_one. intros E. apply elem_of_select_rows.
  destruct (select_rows p t); [done |]. injection E as <-. by left.
Qed.

Lemma select_one_None {R} (p : R -> bool) (t : gmap ID R) :
  select_one p t = None <-> forall k r, t !! k = Some r -> p r = false.
Proof.
  unfold select_one. split.
  - destruct (select_rows p t) as [|x l] eqn:E; [| done]. intros _ k r Hk.
    apply not_true_is_false. intros Hp.
    assert (r ∈ select_rows p t) as X by (apply elem_of_select_rows; eauto).
    rewrite E in X. by apply not_elem_of_nil in X.
  - intros Hn. destruct (select_rows p t) as [|x l] eqn:E; [done |].
    assert (x ∈ select_rows p t) as X by (rewrite E; left).
    apply elem_of_select_rows in X as [Hp [k Hk]]. by rewrite (Hn k x Hk) in Hp.
Qed.

(** Rows stored under their own identifier are listed once. *)
Lemma NoDup_select_rows {R} (idf : R -> ID) (p : R -> bool) (t : gmap ID R) :
  (forall k r, t !! k = Some r -> idf r = k) -> NoDup (map idf (select_rows p t)).
Proof.
  intros Hk. unfold select_rows.
  assert (forall l : list (ID * R), (forall k r, (k, r) ∈ l -> idf r = k) -> NoDup l.*1 ->
            NoDup (map idf (List.filter p l.*2))) as X.
  { induction l as [|[k r] l IH]; intros Hl Hnd; [constructor |].
    cbn [fmap list_fmap fst snd] in *. apply NoDup_cons in Hnd as [Hnk Hnd]. cbn [List.filter].
    assert (NoDup (map idf (List.filter p l.*2))) as IH' by (apply IH; [set_solver | done]).
    destruct (p r); [| done]. cbn [map]. constructor; [| done].
    intros Hin. apply list_elem_of_In, in_map_iff in Hin as (r' & E & Hin).
    apply filter_In in Hin as [Hin _]. apply list_elem_of_In, list_elem_of_fmap in Hin as ([k' r''] & -> & Hin).
    cbn [snd] in *. apply Hnk. apply list_elem_of_fmap. exists (k', r''). split; [| done]. cbn.
    rewrite <- (Hl k' r'') by by right. rewrite E. symmetry. apply Hl. by left. }
  apply X; [| apply NoDup_fst_map_to_list].
  intros k r Hin%elem_of_map_to_list. by apply Hk.
Qed.

(** When at most one row satisfies the condition, that row is selected. *)
Lemma select_one_unique {R} (p : R -> bool) (t : gmap ID R) k r :
  t !! k = Some r -> p r = true ->
  (forall k' r', t !! k' = Some r' -> p r' = true -> r' = r) ->
  select_one p t = Some r.
Proof.
  intros Hk Hp Hu. destruct (select_one p t) as [r'|] eqn:E.
  - apply select_one_Some in E as [Hp' [k' Hk']]. f_equal. eauto.
  - apply select_one_None with (k := k) (r := r) in E; [congruence | done].
Qed.

(** INSERT ... RETURNING *: the columns [required] are NOT NULL, the primary key
    and the unique key (rows that are [same]) must be free, and the server may
    refuse the row for another reason. *)
Definition insert_row `{Pg} {R} (idf : R -> ID) (required : R -> list ID) (same : R -> R -> bool)
    (refused : R -> option error) (row : R) (t : gmap ID R) : res (R * gmap ID R) :=
  if bool_decide (NilID ∈ idf row :: required row) then Err (ENew "null value in column violates not-null constraint")
  else match t !! idf row, select_one (same row) t, refused row with
       | Some _, _, _ => Err pg_unique_violation
       | None, Some _, _ => Err pg_unique_violation
       | None, None, Some e => Err e
       | None, None, None => Ok (row, <[idf row := row]> t)
       end.

Lemma insert_row_Ok `{Pg} {R} idf required (same : R -> R -> bool) refused row t r t' :
  insert_row idf required same refused row t = Ok (r, t') ->
  r = row /\ t' = <[idf row := row]> t /\ t !! idf row = None
  /\ (forall k r', t !! k = Some r' -> same row r' = false)
  /\ NilID ∉ idf row :: required row.
Proof.
  unfold insert_row. case_bool_decide as Hn; [done |].
  destruct (t !! idf row); [done |]. destruct (select_one (same row) t) eqn:E; [done |].
  destruct (refused row); [done |]. intros [= <- <-]. split_and!; try done. by apply select_one_None.
Qed.

(** Rows are stored under their identifier and no two are [same]. *)
Definition keyed {R} (idf : R -> ID) (t : gmap ID R) : Prop := forall k r, t !! k = Some r -> idf r = k.
Definition unique {R} (same : R -> R -> bool) (t : gmap ID R) : Prop :=
  forall k1 r1 k2 r2, t !! k1 = Some r1 -> t !! k2 = Some r2 -> same r1 r2 = true -> k1 = k2.

Lemma keyed_insert {R} idf (t : gmap ID R) row : keyed idf t -> keyed idf (<[idf row := row]> t).
Proof. intros Hk k r [[<- <-]|[_ E]]%lookup_insert_Some; eauto. Qed.

Lemma unique_insert {R} (same : R -> R -> bool) (t : gmap ID R) k row :
  (forall a b, same a b = same b a) -> unique same t ->
  (forall k' r', k' <> k -> t !! k' = Some r' -> same row r' = false) -> unique same (<[k := row]> t).
Proof.
  intros Hs Hu Hn k1 r1 k2 r2 [[<- <-]|[N1 E1]]%lookup_insert_Some [[<- <-]|[N2 E2]]%lookup_insert_Some Hr; eauto.
  - by rewrite (Hn k2 r2) in Hr.
  - rewrite Hs, (Hn k1 r1) in Hr by done. done.
Qed.

(** ** Computations that only read, and computations that write last

    [reads m]: no outcome of [m] changes the tables.  [writes_last m]: when [m]
    does not succeed, the tables are as before. *)
Definition reads {D A} (m : M D A) : Prop := forall w, w_db (m w).2 = w_db w.
Definition writes_last {D A} (m : M D A) : Prop :=
  forall w, is_Ok (m w).1 = false -> w_db (m w).2 = w_db w.

Create HintDb go_frame.

Section Frame.
  Context `{Env} {D : Type}.

Lemma reads_ret {A} (a : A) : reads (D := D) (ret a).
Proof. by intros w. Qed.
Lemma reads_fail {A} e : reads (D := D) (A := A) (fail e).
Proof. by intros w. Qed.
Lemma reads_panic {A} e : reads (D := D) (A := A) (panic e).
Proof. by intros w. Qed.
Lemma reads_guard b e : reads (D := D) (guard b e).
Proof. intros w. by destruct b. Qed.
Lemma reads_lift_res {A} (r : res A) : reads (D := D) (lift_res r).
Proof. by intros w. Qed.
Lemma reads_NewID : reads (D := D) NewID.
Proof. by intros w. Qed.
Lemma reads_NewID_ignore : reads (D := D) NewID_ignore.
Proof. by intros w. Qed.
Lemma reads_NowUTC : reads (D := D) NowUTC.
Proof. by intros w. Qed.
Lemma reads_Now : reads (D := D) Now.
Proof. by intros w. Qed.

Lemma reads_bind {A B} (m : M D A) (k : A -> M D B) :
  reads m -> (forall a, reads (k a)) -> reads (bind m k).
Proof.
  intros Hm Hk w. unfold bind. specialize (Hm w). destruct (m w) as [[a|e|e] w1]; cbn [snd] in *; [| done | done].
  by rewrite Hk.
Qed.

Lemma reads_attempt {A} (m : M D A) : reads m -> reads (attempt m).
Proof. intros Hm w. unfold attempt. specialize (Hm w). by destruct (m w) as [[a|e|e] w1]. Qed.

Lemma reads_check_absent {A} (m : M D A) e : reads m -> reads (check_absent m e).
Proof.
  intros Hm. apply reads_bind; [by apply reads_attempt |]. intros [a|err]; [apply reads_fail |].
  case_match; [apply reads_ret | apply reads_fail].
Qed.

Lemma reads_query {A} (f : D -> res (A * D)) :
  (forall d a d', f d = Ok (a, d') -> d' = d) -> reads (query f).
Proof.
  intros Hf w. unfold query. destruct (env_fault _); [done |].
  destruct (f (w_db w)) as [[a d]| |] eqn:E; [| done | done]. by apply Hf in E as ->.
Qed.

Lemma reads_writes_last {A} (m : M D A) : reads m -> writes_last m.
Proof. intros Hm w _. apply Hm. Qed.

Lemma writes_last_query {A} (f : D -> res (A * D)) : writes_last (query f).
Proof.
  intros w. unfold query. destruct (env_fault _); [done |]. by destruct (f (w_db w)) as [[a d]| |].
Qed.

Lemma writes_last_bind {A B} (m : M D A) (k : A -> M D B) :
  reads m -> (forall a, writes_last (k a)) -> writes_last (bind m k).
Proof.
  intros Hm Hk w. unfold bind. specialize (Hm w). destruct (m w) as [[a|e|e] w1]; cbn [fst snd] in *; [| done | done].
  intros E. by rewrite Hk.
Qed.

Lemma writes_last_map {A B} (m : M D A) (f : A -> B) : writes_last m -> writes_last (a <- m ;; ret (f a)).
Proof. intros Hm w. unfold bind, ret. specialize (Hm w). by destruct (m w) as [[a|e|e] w1]. Qed.

Lemma WithTx_writes_last {A} ctx (fn : Ctx -> M D A) :
  ctx_tx ctx = false -> writes_last (WithTx true ctx fn).
Proof.
  intros Hc w Hf. destruct (WithTx true ctx fn w) as [r w'] eqn:E. cbn [fst snd] in *.
  by eapply WithTx_rollback.
Qed.
End Frame.

#[export] Hint Resolve reads_ret reads_fail reads_panic reads_guard reads_lift_res reads_NewID
  reads_NewID_ignore reads_NowUTC reads_Now reads_bind reads_attempt reads_check_absent
  writes_last_query writes_last_bind writes_last_map : go_frame.

(** Decide by the shape of the computation. *)
Ltac frame := repeat first
  [ done
  | progress auto with go_frame
  | apply reads_bind | apply reads_check_absent | apply reads_attempt
  | match goal with |- writes_last (bind _ (fun _ => ret _)) => apply writes_last_map end
  | apply writes_last_bind
  | match goal with |- forall _, _ => intros ? end | case_match
  | match goal with |- writes_last (ret _) => apply reads_writes_last | |- writes_last (fail _) => apply reads_writes_last end ].

(** ** Components *)

Section Zoom.
  Context {D E : Type} `{Lens D E}.

Lemma zoom_Ok {A} (m : M E A) (w : World D) a w' :
  zoom m w = (Ok a, w') ->
  exists w1, m (mkWorld (lens_get (w_db w)) (w_tick w)) = (Ok a, w1)
    /\ w' = mkWorld (lens_set (w_db w1) (w_db w)) (w_tick w1).
Proof. unfold zoom. destruct (m _) as [r w1]. intros [= -> <-]. eauto. Qed.

Lemma reads_zoom {A} (m : M E A) : reads m -> reads (D := D) (zoom m).
Proof.
  intros Hm w. unfold zoom. specialize (Hm (mkWorld (lens_get (w_db w)) (w_tick w))).
  destruct (m _) as [r w1]. cbn [w_db snd] in *. by rewrite Hm, lens_set_get.
Qed.
End Zoom.

(** A run that fails leaves the table; what holds after a run that succeeds. *)
Lemma writes_last_out {D A} (P : D -> Prop) (m : M D A) w :
  writes_last m -> P (w_db w) -> (forall a w', m w = (Ok a, w') -> P (w_db w')) -> P (w_db (m w).2).
Proof.
  intros Hm Hp Hs. specialize (Hm w). destruct (m w) as [[a|e|e] w'] eqn:E; cbn [fst snd is_Ok] in *; [by eapply Hs | |]; by rewrite Hm.
Qed.

(** [keeps f m]: no outcome of [m] changes what [f] sees of the tables;
    [keeps_err f m]: no failure does. *)
Definition keeps {D X A} (f : D -> X) (m : M D A) : Prop := forall w, f (w_db (m w).2) = f (w_db w).
Definition keeps_err {D X A} (f : D -> X) (m : M D A) : Prop :=
  forall w, is_Ok (m w).1 = false -> f (w_db (m w).2) = f (w_db w).

(** A failure after reads, seen from the start. *)
Lemma bind_reads_err {D A B} (m : M D A) (k : A -> M D B) w d :
  reads m -> w_db w = d -> (forall a w1, w_db w1 = d -> is_Ok (k a w1).1 = false -> w_db (k a w1).2 = d) ->
  is_Ok (bind m k w).1 = false -> w_db (bind m k w).2 = d.
Proof.
  intros Hm <- Hk. unfold bind. specialize (Hm w). destruct (m w) as [[a|e|e] w1]; cbn in *; [by apply Hk | done | done].
Qed.

(** How a run moves a part of the tables. *)
Definition shifts {D X A} (f : D -> X) (R : X -> X -> Prop) (m : M D A) : Prop := forall w, R (f (w_db w)) (f (w_db (m w).2)).

Section Keeps.
  Context {D X : Type} (f : D -> X).

Lemma keeps_reads {A} (m : M D A) : reads m -> keeps f m.
Proof. intros Hm w. by rewrite Hm. Qed.

Lemma keeps_query `{Env} {A} (q : D -> res (A * D)) : (forall d a d', q d = Ok (a, d') -> f d' = f d) -> keeps f (query q).
Proof. intros Hq w. unfold query. destruct (env_fault (w_tick w)); [done |]. destruct (q (w_db w)) as [[a d]|e|e] eqn:E; [by eapply Hq | done | done]. Qed.

Lemma keeps_bind {A B} (m : M D A) (k : A -> M D B) : keeps f m -> (forall a, keeps f (k a)) -> keeps f (bind m k).
Proof.
  intros Hm Hk w. unfold bind. specialize (Hm w). destruct (m w) as [[a|e|e] w1]; cbn [snd] in *; [| done | done].
  by rewrite Hk.
Qed.

Lemma keeps_attempt {A} (m : M D A) : keeps f m -> keeps f (attempt m).
Proof. intros Hm w. unfold attempt. specialize (Hm w). by destruct (m w) as [[a|e|e] w1]. Qed.

Lemma keeps_err_bind {A B} (m : M D A) (k : A -> M D B) :
  keeps f m -> (forall a, keeps_err f (k a)) -> keeps_err f (bind m k).
Proof.
  intros Hm Hk w. unfold bind. specialize (Hm w). destruct (m w) as [[a|e|e] w1]; cbn [fst snd] in *; [| done | done].
  intros E. by rewrite Hk.
Qed.

Lemma keeps_err_writes_last {A} (m : M D A) : writes_last m -> keeps_err f m.
Proof. intros Hm w E. by rewrite Hm. Qed.
Context (R : X -> X -> Prop) `{!Reflexive R}.

Lemma shifts_keeps {A} (m : M D A) : keeps f m -> shifts f R m.
Proof. intros Hm w. by rewrite Hm. Qed.

(** One step moves the part, the others keep it. *)
Lemma shifts_before {A B} (m : M D A) (k : A -> M D B) : keeps f m -> (forall a, shifts f R (k a)) -> shifts f R (bind m k).
Proof.
  intros Hm Hk w. unfold bind. specialize (Hm w). destruct (m w) as [[a|e|e] w1]; cbn [snd] in *; rewrite <- Hm; [apply Hk | done | done].
Qed.

Lemma shifts_after {A B} (m : M D A) (k : A -> M D B) : shifts f R m -> (forall a, keeps f (k a)) -> shifts f R (bind m k).
Proof.
  intros Hm Hk w. unfold bind. specialize (Hm w). destruct (m w) as [[a|e|e] w1]; cbn [snd] in *; [by rewrite Hk | done | done].
Qed.

Lemma shifts_attempt {A} (m : M D A) : shifts f R m -> shifts f R (attempt m).
Proof. intros Hm w. unfold attempt. specialize (Hm w). by destruct (m w) as [[a|e|e] w1]. Qed.
End Keeps.

Lemma keeps_ret {D X A} (f : D -> X) (a : A) : keeps f (ret a).
Proof. by intros w. Qed.

Lemma zoom_keeps {D E X A} `{Lens D E} (f : D -> X) (m : M E A) : (forall e d, f (lens_set e d) = f d) -> keeps f (zoom m).
Proof. intros Hf w. unfold zoom. destruct (m _) as [a w1]. apply Hf. Qed.

Lemma keeps_WithTx `{Env} {D X A} (f : D -> X) ctx (fn : Ctx -> M D A) : (forall c, keeps f (fn c)) -> keeps f (WithTx true ctx fn).
Proof.
  intros Hf w. unfold WithTx. cbn [negb]. destruct (ctx_tx ctx); [apply Hf |]. destruct (env_fault (w_tick w)); [done |].
  specialize (Hf (mkCtx (ctx_tenant ctx) (ctx_claims ctx) true) (tick w)). destruct (fn _ (tick w)) as [[a|e|e] w1]; [| done | done].
  destruct (env_fault (w_tick w1)); [done |]. exact Hf.
Qed.

#[export] Hint Resolve reads_zoom keeps_reads keeps_attempt : go_frame.

(** A server that behaves as documented, seen from a process whose zone is
    [local] seconds east of UTC: timestamps keep microseconds and come back in
    the process's zone, dates come back as midnight UTC. *)
Definition pgx (local : Z) : Pg := {|
  pg_timestamptz t := mkTime (t_nanos t / 1000 * 1000) local;
  pg_date t := mkTime (day_number t * (86400 * Second)) 0;
  pg_numeric x := x;
  pg_jsonb m := m;
  pg_unique_violation := ENew "duplicate key value violates unique constraint" |}.

Lemma pgx_keeps_day t : t_offset t = 0 -> day_number (@pg_timestamptz (pgx 0) t) = day_number t.
Proof. intros E. unfold day_number, Second. cbn [pgx pg_timestamptz t_nanos t_offset]. rewrite E. zdiv_lia. Qed.

(** A quiet environment: identifiers count up from 1, the clock starts at [t0]
    and advances by [step] nanoseconds per question, no round trip fails. *)
Definition calm (t0 : Time) (step : Z) : Env := {|
  env_id n := inl (N.of_nat (S n));
  env_now n := Add t0 (Z.of_nat n * step);
  env_fault _ := None |}.
