(* ===== verification/Tables.v ===== *)
(** * Statements on tables, and a logic for the use cases that run them

    The queries of [internal/core/repository/postgres/queries] fall into a few
    shapes: insert one row, select one or many, update or delete by key.  They
    are written once here for any table of any database, with triples to reason
    about computations that run several of them and may stop after each. *)

From S2P Require Import Prelude GoStrings GoTime GoFloat Sdk.
#[local] Open Scope string_scope.
#[local] Open Scope list_scope.
#[local] Open Scope Z_scope.

Definition fk_violation : error := ENew "insert or update violates foreign key constraint".

(** [fmt.Errorf("<what>: %w", err)] on a failed call. *)
Definition wrap_err {D A} (what : string) (m : M D A) : M D A :=
  r <- attempt m ;;
  match r with inl a => ret a | inr err => fail (EWrap (what +:+ ": ") err "") end.

(** [for _, x := range l { if err := f(x); err != nil { return err } }]. *)
Fixpoint for_each {D A} (l : list A) (f : A -> M D unit) : M D unit :=
  match l with [] => ret tt | x :: l' => f x ;;; for_each l' f end.

(** [_ = f()]: the error is dropped. *)
Definition ignore {D A} (m : M D A) : M D unit := attempt m ;;; ret tt.

(** The elements of a list mapped by a call each. *)
Fixpoint map_each {D A B} (f : A -> M D B) (l : list A) : M D (list B) :=
  match l with [] => ret [] | x :: l' => y <- f x ;; ys <- map_each f l' ;; ret (y :: ys) end.

(** ** ORDER BY a time or a text (here in byte order) *)

Definition oldest {R} (f : R -> Time) (a b : R) : Prop := t_nanos (f a) <= t_nanos (f b).
Definition newest {R} (f : R -> Time) (a b : R) : Prop := t_nanos (f b) <= t_nanos (f a).
Definition by_text {R} (f : R -> string) (a b : R) : Prop := String.le (f a) (f b).

#[global] Instance oldest_dec {R} (f : R -> Time) : RelDecision (oldest f).
Proof. intros a b. unfold oldest. apply _. Defined.
#[global] Instance newest_dec {R} (f : R -> Time) : RelDecision (newest f).
Proof. intros a b. unfold newest. apply _. Defined.
#[global] Instance by_text_dec {R} (f : R -> string) : RelDecision (by_text f).
Proof. intros a b. unfold by_text. apply _. Defined.

(** ORDER BY a flag DESC, then something else. *)
Definition primary_first {R} (flag : R -> bool) (le : R -> R -> Prop) (a b : R) : Prop :=
  flag a = true /\ flag b = false \/ flag a = flag b /\ le a b.
#[global] Instance primary_first_dec {R} (f : R -> bool) (le : R -> R -> Prop) `{!RelDecision le} : RelDecision (primary_first f le).
Proof. intros a b. unfold primary_first. apply _. Defined.

#[global] Instance primary_first_total {R} (f : R -> bool) (le : R -> R -> Prop) `{!Total le} : Total (primary_first f le).
Proof.
  intros a b. unfold primary_first. destruct (f a), (f b); auto; destruct (total le a b); auto.
Qed.
#[global] Instance oldest_total {R} (f : R -> Time) : Total (oldest f).
Proof. intros a b. unfold oldest. lia. Qed.
#[global] Instance newest_total {R} (f : R -> Time) : Total (newest f).
Proof. intros a b. unfold newest. lia. Qed.

(** ** Statements *)

Section Statements.
  Context `{Env, Pg} {D R : Type} `{Lens D (gmap ID R)}.

Definition insert_into (idf : R -> ID) (required : R -> list ID) (same : R -> R -> bool)
    (refused : D -> R -> option error) (row : R) : M D R :=
  query (fun d => match insert_row idf required same (refused d) row (lens_get d) with
                  | Ok (r, t) => Ok (r, lens_set t d)
                  | Err e => Err e
                  | Panic e => Panic e
                  end).

Definition select_from (p : R -> bool) : M D R :=
  query (fun d => match select_one p (lens_get d) with
                  | Some row => Ok (row, d)
                  | None => Err (ESentinel ErrNotFound)
                  end).

(** [QueryRow] with [pgx.ErrNoRows] told apart from other errors. *)
Definition select_opt (p : R -> bool) : M D (option R) := query (fun d => Ok (select_one p (lens_get d), d)).

Definition select_all (p : R -> bool) : M D (list R) := query (fun d => Ok (select_rows p (lens_get d), d)).

(** UPDATE of the row that satisfies [p] (a primary key): the new row must keep
    the unique key, and the server may refuse it. *)
Definition update_one (idf : R -> ID) (same : R -> R -> bool) (refused : D -> R -> option error)
    (p : R -> bool) (f : R -> R) : M D R :=
  query (fun d =>
    match select_one p (lens_get d) with
    | None => Err (ESentinel ErrNotFound)
    | Some old =>
        let row := f old in
        match select_one (fun r => bool_decide (idf r <> idf row) && same row r) (lens_get d), refused d row with
        | Some _, _ => Err pg_unique_violation
        | None, Some e => Err e
        | None, None => Ok (row, lens_set (<[idf row := row]> (lens_get d)) d)
        end
    end).

(** DELETE: the number of rows removed. *)
Definition delete_from (p : R -> bool) : M D nat :=
  query (fun d => Ok (length (select_rows p (lens_get d)),
                      lens_set (filter (fun kv => p kv.2 = false) (lens_get d)) d)).

Lemma insert_into_Ok idf required same refused row w r w' :
  insert_into idf required same refused row w = (Ok r, w') ->
  r = row /\ w' = mkWorld (lens_set (<[idf row := row]> (lens_get (w_db w))) (w_db w)) (S (w_tick w))
  /\ (lens_get (w_db w) : gmap ID R) !! idf row = None
  /\ (forall k r', (lens_get (w_db w) : gmap ID R) !! k = Some r' -> same row r' = false)
  /\ NilID ∉ idf row :: required row /\ refused (w_db w) row = None.
Proof.
  unfold insert_into. intros (d & E & ->)%query_Ok.
  destruct (insert_row _ _ _ _ _ _) as [[r1 t]|e|e] eqn:Er; [| done | done]. injection E as -> <-.
  pose proof Er as Er'. apply insert_row_Ok in Er as (-> & -> & ? & ? & ?). split_and!; try done.
  unfold insert_row in Er'. destruct (bool_decide _); [done |]. destruct (_ !! _); [done |].
  destruct (select_one _ _); [done |]. by destruct (refused (w_db w) row).
Qed.

(** An accepted row is stored. *)
Lemma insert_into_run idf required same refused row w :
  env_fault (w_tick w) = None -> (lens_get (w_db w) : gmap ID R) !! idf row = None ->
  (forall k r', (lens_get (w_db w) : gmap ID R) !! k = Some r' -> same row r' = false) ->
  NilID ∉ idf row :: required row -> refused (w_db w) row = None ->
  insert_into idf required same refused row w
  = (Ok row, mkWorld (lens_set (<[idf row := row]> (lens_get (w_db w))) (w_db w)) (S (w_tick w))).
Proof.
  intros Hf Hk Hs Hn Hr. unfold insert_into, query, insert_row. rewrite Hf, bool_decide_eq_false_2, Hk, Hr by done.
  by rewrite (proj2 (select_one_None _ _) Hs).
Qed.

Lemma select_from_Ok p w r w' : select_from p w = (Ok r, w') ->
  w' = tick w /\ p r = true /\ exists k, (lens_get (w_db w) : gmap ID R) !! k = Some r.
Proof.
  unfold select_from. intros (d & E & ->)%query_Ok. destruct (select_one p _) eqn:Es; [| done].
  injection E as -> <-. apply select_one_Some in Es. done.
Qed.

Lemma select_from_NotFound p w w' : select_from p w = (Err (ESentinel ErrNotFound), w') ->
  env_fault (w_tick w) <> Some (ESentinel ErrNotFound) ->
  w' = tick w /\ forall k r, (lens_get (w_db w) : gmap ID R) !! k = Some r -> p r = false.
Proof.
  unfold select_from, query. intros E Hf. destruct (env_fault (w_tick w)) as [e|]; [congruence |].
  destruct (select_one p _) eqn:Es; [done |]. injection E as <-. split; [done |]. by apply select_one_None.
Qed.

Lemma update_one_Ok idf same refused p f w r w' :
  update_one idf same refused p f w = (Ok r, w') ->
  exists k old, (lens_get (w_db w) : gmap ID R) !! k = Some old /\ p old = true /\ r = f old
  /\ w' = mkWorld (lens_set (<[idf r := r]> (lens_get (w_db w))) (w_db w)) (S (w_tick w))
  /\ (forall k' r', (lens_get (w_db w) : gmap ID R) !! k' = Some r' -> idf r' <> idf r -> same r r' = false)
  /\ refused (w_db w) r = None.
Proof.
  unfold update_one. intros (d & E & ->)%query_Ok. destruct (select_one p _) as [old|] eqn:Es; [| done].
  destruct (select_one (fun _ => _) _) eqn:Eu; [done |]. destruct (refused _ _) eqn:Er; [done |]. injection E as <- <-.
  apply select_one_Some in Es as [Hp [k Hk]]. exists k, old. split_and!; try done.
  intros k' r' Hk' Hn. eapply select_one_None in Eu; [| exact Hk']. cbv beta in Eu.
  by rewrite bool_decide_eq_true_2 in Eu by done.
Qed.

Lemma delete_from_Ok p w n w' : delete_from p w = (Ok n, w') ->
  n = length (select_rows p (lens_get (w_db w)))
  /\ w' = mkWorld (lens_set (filter (fun kv => p kv.2 = false) (lens_get (w_db w))) (w_db w)) (S (w_tick w)).
Proof. unfold delete_from. intros (d & E & ->)%query_Ok. by injection E as <- <-. Qed.

Lemma reads_select_from p : reads (select_from p).
Proof. apply reads_query. intros d a d'. destruct (select_one _ _); naive_solver. Qed.
Lemma select_opt_Ok p w o w' : select_opt p w = (Ok o, w') -> o = select_one p (lens_get (w_db w)) /\ w' = tick w.
Proof. unfold select_opt. intros (d & E & ->)%query_Ok. by injection E as <- <-. Qed.

Lemma reads_select_opt p : reads (select_opt p).
Proof. apply reads_query. naive_solver. Qed.
Lemma reads_select_all p : reads (select_all p).
Proof. apply reads_query. naive_solver. Qed.
Lemma writes_last_insert_into idf required same refused row : writes_last (insert_into idf required same refused row).
Proof. apply writes_last_query. Qed.
Lemma writes_last_update_one idf same refused p f : writes_last (update_one idf same refused p f).
Proof. apply writes_last_query. Qed.
Lemma writes_last_delete_from p : writes_last (delete_from p).
Proof. apply writes_last_query. Qed.
End Statements.

#[export] Hint Resolve reads_select_from reads_select_opt reads_select_all writes_last_insert_into writes_last_update_one
  writes_last_delete_from : go_frame.

(** Keys of a table after a statement. *)
Lemma keyed_filter {R} idf (t : gmap ID R) (P : ID * R -> Prop) `{!forall x, Decision (P x)} :
  keyed idf t -> keyed idf (filter P t).
Proof. intros Hk k r [Hr _]%map_lookup_filter_Some. by apply Hk. Qed.

Lemma unique_filter {R} (same : R -> R -> bool) (t : gmap ID R) (P : ID * R -> Prop) `{!forall x, Decision (P x)} :
  unique same t -> unique same (filter P t).
Proof. intros Hu k1 r1 k2 r2 [E1 _]%map_lookup_filter_Some [E2 _]%map_lookup_filter_Some. by apply Hu. Qed.

Lemma unique_update {R} idf (same : R -> R -> bool) (t : gmap ID R) row :
  (forall a b, same a b = same b a) -> keyed idf t -> unique same t ->
  (forall k' r', t !! k' = Some r' -> idf r' <> idf row -> same row r' = false) ->
  unique same (<[idf row := row]> t).
Proof.
  intros Hs Hk Hu Hn. apply unique_insert; [done | done |]. intros k' r' Hne Hr'.
  apply (Hn k' r' Hr'). intros E. apply Hne. by rewrite <- (Hk k' r' Hr').
Qed.

(** ** Wrapped and repeated calls *)

Section Calls.
  Context {D : Type}.

Lemma wrap_err_Ok {A} what (m : M D A) w a w' : wrap_err what m w = (Ok a, w') <-> m w = (Ok a, w').
Proof.
  unfold wrap_err, bind, attempt, ret, fail. destruct (m w) as [[b|e|e] w1]; naive_solver.
Qed.

Lemma reads_wrap_err {A} what (m : M D A) : reads m -> reads (wrap_err what m).
Proof. intros Hm. unfold wrap_err. apply reads_bind; [by apply reads_attempt |]. intros []; auto with go_frame. Qed.

Lemma writes_last_wrap_err {A} what (m : M D A) : writes_last m -> writes_last (wrap_err what m).
Proof.
  intros Hm w. specialize (Hm w). unfold wrap_err, bind, attempt, ret, fail. by destruct (m w) as [[b|e|e] w1].
Qed.

Lemma reads_Ok {A} (m : M D A) w a w' : m w = (Ok a, w') -> reads m -> w_db w' = w_db w.
Proof. intros E Hm. specialize (Hm w). by rewrite E in Hm. Qed.

Lemma reads_ignore {A} (m : M D A) : reads m -> reads (ignore m).
Proof. intros Hm. unfold ignore. apply reads_bind; [by apply reads_attempt | auto with go_frame]. Qed.

Lemma reads_for_each {A} (l : list A) (f : A -> M D unit) : (forall a, reads (f a)) -> reads (for_each l f).
Proof. intros Hf. induction l as [|x l IH]; cbn; [apply reads_ret | by apply reads_bind]. Qed.

Lemma reads_map_each {A B} (f : A -> M D B) l : (forall a, reads (f a)) -> reads (map_each f l).
Proof. intros Hf. induction l as [|x l IH]; cbn; auto 10 with go_frame. Qed.
End Calls.

#[export] Hint Resolve reads_wrap_err writes_last_wrap_err reads_ignore reads_for_each reads_map_each : go_frame.

(** ** Triples

    [triple I P m Q]: from tables that satisfy [P], a success of [m] ends in [Q]
    and a failure or a panic, wherever it happens, in [I]. *)
Definition triple {D A} (I P : D -> Prop) (m : M D A) (Q : A -> D -> Prop) : Prop :=
  forall w, P (w_db w) -> match m w with (Ok a, w') => Q a (w_db w') | (_, w') => I (w_db w') end.

(** Whatever happens, [I] stays true. *)
Definition preserves {D A} (I : D -> Prop) (m : M D A) : Prop := forall w, I (w_db w) -> I (w_db (m w).2).

Section Triples.
  Context {D : Type} (I : D -> Prop).

Lemma triple_bind {A B} P (m : M D A) Q (k : A -> M D B) S :
  triple I P m Q -> (forall a, triple I (Q a) (k a) S) -> triple I P (bind m k) S.
Proof.
  intros Hm Hk w Hw. unfold bind. specialize (Hm w Hw). destruct (m w) as [[a|e|e] w1]; [| done | done].
  by apply Hk.
Qed.

Lemma triple_weaken {A} (P P' : D -> Prop) (m : M D A) (Q Q' : A -> D -> Prop) :
  triple I P' m Q' -> (forall d, P d -> P' d) -> (forall a d, Q' a d -> Q a d) -> triple I P m Q.
Proof.
  intros Hm HP HQ w Hw. specialize (Hm w (HP _ Hw)). destruct (m w) as [[a|e|e] w1]; auto.
Qed.

Lemma triple_ret {A} (P : D -> Prop) (a : A) (Q : A -> D -> Prop) : (forall d, P d -> Q a d) -> triple I P (ret a) Q.
Proof. intros HQ w Hw. cbn. auto. Qed.

Lemma triple_fail {A} (P : D -> Prop) e (Q : A -> D -> Prop) : (forall d, P d -> I d) -> triple I P (fail e) Q.
Proof. intros HI w Hw. cbn. auto. Qed.

Lemma triple_guard (P : D -> Prop) (b : bool) e :
  (forall d, P d -> I d) -> triple I P (guard b e) (fun _ d => b = false /\ P d).
Proof. intros HI w Hw. unfold guard. destruct b; cbn; auto. Qed.

Lemma triple_lift_res {A} (P : D -> Prop) (r : res A) :
  (forall d, P d -> I d) -> triple I P (lift_res r) (fun a d => r = Ok a /\ P d).
Proof. intros HI w Hw. unfold lift_res. destruct r; cbn; auto. Qed.

Lemma triple_reads {A} (P : D -> Prop) (m : M D A) :
  reads m -> (forall d, P d -> I d) -> triple I P m (fun _ => P).
Proof. intros Hm HI w Hw. specialize (Hm w). destruct (m w) as [[a|e|e] w1]; cbn in *; rewrite Hm; auto. Qed.

Lemma triple_writes_last {A} (P : D -> Prop) (m : M D A) (Q : A -> D -> Prop) :
  writes_last m -> (forall d, P d -> I d) -> (forall w a w', P (w_db w) -> m w = (Ok a, w') -> Q a (w_db w')) -> triple I P m Q.
Proof.
  intros Hm HI Hs w Hw. specialize (Hm w). destruct (m w) as [[a|e|e] w1] eqn:E; cbn [fst snd is_Ok] in Hm; [by eapply Hs | |];
    rewrite Hm by done; by apply HI.
Qed.

(** A failure that is handled: the tables are as before. *)
Lemma triple_attempt {A} (P : D -> Prop) (m : M D A) (Q : D -> Prop) :
  writes_last m -> (forall d, P d -> I d) -> (forall d, P d -> Q d) -> triple I P m (fun _ => Q) -> triple I P (attempt m) (fun _ => Q).
Proof.
  intros Hm HI HQ Ht w Hw. specialize (Hm w). specialize (Ht w Hw). unfold attempt.
  destruct (m w) as [[a|e|e] w1]; cbn [fst snd is_Ok] in Hm; [done | rewrite Hm by done; by apply HQ | done].
Qed.

Lemma triple_preserves {A} (m : M D A) Q : triple I I m Q -> (forall a d, Q a d -> I d) -> preserves I m.
Proof. intros Hm HQ w Hw. specialize (Hm w Hw). destruct (m w) as [[a|e|e] w1]; cbn in *; eauto. Qed.

Lemma preserves_triple {A} (m : M D A) : preserves I m -> triple I I m (fun _ => I).
Proof. intros Hm w Hw. specialize (Hm w Hw). by destruct (m w) as [[a|e|e] w1]. Qed.

Lemma preserves_reads {A} (m : M D A) : reads m -> preserves I m.
Proof. intros Hm w Hw. by rewrite Hm. Qed.

Lemma preserves_bind {A B} (m : M D A) (k : A -> M D B) :
  preserves I m -> (forall a, preserves I (k a)) -> preserves I (bind m k).
Proof.
  intros Hm Hk w Hw. unfold bind. specialize (Hm w Hw). destruct (m w) as [[a|e|e] w1]; cbn in *; [by apply Hk | done | done].
Qed.

(** What follows a guard may rely on it. *)
Lemma preserves_guard {B} (b : bool) e (k : unit -> M D B) :
  (b = false -> preserves I (k tt)) -> preserves I (bind (guard b e) k).
Proof. intros Hk w Hw. unfold bind, guard. destruct b; [done |]. by apply Hk. Qed.

Lemma preserves_attempt {A} (m : M D A) : preserves I m -> preserves I (attempt m).
Proof. intros Hm w Hw. specialize (Hm w Hw). unfold attempt. by destruct (m w) as [[a|e|e] w1]. Qed.

Lemma preserves_wrap_err {A} what (m : M D A) : preserves I m -> preserves I (wrap_err what m).
Proof.
  intros Hm. unfold wrap_err. apply preserves_bind; [by apply preserves_attempt |].
  intros []; apply preserves_reads; auto with go_frame.
Qed.

Lemma preserves_ignore {A} (m : M D A) : preserves I m -> preserves I (ignore m).
Proof.
  intros Hm. unfold ignore. apply preserves_bind; [by apply preserves_attempt |].
  intros _. apply preserves_reads; auto with go_frame.
Qed.

Lemma preserves_for_each {A} (l : list A) (f : A -> M D unit) :
  (forall a, preserves I (f a)) -> preserves I (for_each l f).
Proof.
  intros Hf. induction l as [|x l IH]; cbn; [apply preserves_reads, reads_ret | by apply preserves_bind].
Qed.

(** A computation that writes last, whose successes keep [I]. *)
Lemma preserves_writes_last {A} (m : M D A) :
  writes_last m -> (forall w a w', I (w_db w) -> m w = (Ok a, w') -> I (w_db w')) -> preserves I m.
Proof.
  intros Hm Hs w Hw. specialize (Hm w). destruct (m w) as [[a|e|e] w1] eqn:E; cbn [fst snd] in *.
  - by eapply Hs.
  - by rewrite Hm.
  - by rewrite Hm.
Qed.

Lemma writes_last_inv {A} (m : M D A) w :
  writes_last m -> I (w_db w) -> (forall a w', m w = (Ok a, w') -> I (w_db w')) -> I (w_db (m w).2).
Proof.
  intros Hm Hw Hs. specialize (Hm w). destruct (m w) as [[a|e|e] w1]; cbn [fst snd] in *; [by eapply Hs | by rewrite Hm..].
Qed.
End Triples.

#[export] Hint Resolve preserves_reads preserves_attempt preserves_wrap_err preserves_ignore preserves_for_each : go_frame.

(** What keeps the invariants of tables, with the lemmas each component adds. *)
Create HintDb table_inv.

(** Decide [preserves] by the shape of the computation. *)
Ltac keep := repeat first
  [ done
  | match goal with |- preserves _ _ => solve [auto with go_frame table_inv] end
  | apply preserves_wrap_err | apply preserves_ignore | apply preserves_bind | apply preserves_attempt | apply preserves_for_each
  | match goal with |- forall _, _ => intros ? end | case_match ].

(** ** Rows of a tenant

    What the calls of one tenant leave of the rows of another. *)

Definition rows_in {K R} `{Countable K} (tn : R -> ID) (t : ID) (tbl : gmap K R) : gmap K R := filter (fun kv => tn kv.2 = t) tbl.

Section Rows.
  Context {K R : Type} `{Countable K} (tn : R -> ID) (t : ID).
  Implicit Types tbl : gmap K R.

Lemma rows_in_insert tbl k row : tn row <> t -> (forall old, tbl !! k = Some old -> tn old <> t) ->
  rows_in tn t (<[k := row]> tbl) = rows_in tn t tbl.
Proof.
  intros Hr Ho. unfold rows_in. rewrite map_filter_insert_False by done. apply map_eq. intros i. rewrite !map_lookup_filter.
  destruct (decide (i = k)) as [->|Hn]; [| by rewrite lookup_delete_ne].
  rewrite lookup_delete_eq. cbn. destruct (tbl !! k) as [old|] eqn:E; [| done]. cbn. rewrite option_guard_False; [done |]. by apply Ho.
Qed.

(** A new key. *)
Lemma rows_in_fresh tbl k row : tn row <> t -> tbl !! k = None -> rows_in tn t (<[k := row]> tbl) = rows_in tn t tbl.
Proof. intros Hr Hn. apply rows_in_insert; [done |]. intros old E. by rewrite Hn in E. Qed.

Lemma rows_in_filter tbl (p : R -> bool) : (forall r, p r = true -> tn r <> t) -> rows_in tn t (filter (fun kv => p kv.2 = false) tbl) = rows_in tn t tbl.
Proof.
  intros Hp. unfold rows_in. apply map_eq. intros i. rewrite !map_lookup_filter. destruct (tbl !! i) as [r|]; [| done]. cbn.
  destruct (p r) eqn:E; cbn; [| done]. rewrite (option_guard_False (tn r = t)); [done |]. by apply Hp.
Qed.
End Rows.

(** ** Calls of other tenants *)

Section Conj.
  Context {D : Type}.

Lemma triple_conj {A} (I I' P P' : D -> Prop) (m : M D A) Q Q' :
  triple I P m Q -> triple I' P' m Q' -> triple (fun d => I d /\ I' d) (fun d => P d /\ P' d) m (fun a d => Q a d /\ Q' a d).
Proof. intros H1 H2 w [Hp Hp']. specialize (H1 w Hp). specialize (H2 w Hp'). by destruct (m w) as [[a|e|e] w']. Qed.

(** A fact about the result of a read. *)
Lemma triple_read_fact {A B} (I P : D -> Prop) (m : M D A) (X : A -> Prop) (k : A -> M D B) S :
  reads m -> (forall d, P d -> I d) -> (forall w a w', m w = (Ok a, w') -> X a) -> (forall a, X a -> triple I P (k a) S) -> triple I P (bind m k) S.
Proof.
  intros Hr HI Hx Hk w Hw. unfold bind. specialize (Hr w). destruct (m w) as [[a|e|e] w1] eqn:E; cbn in Hr.
  - apply (Hk a (Hx _ _ _ E)). by rewrite Hr.
  - rewrite Hr. by apply HI.
  - rewrite Hr. by apply HI.
Qed.

(** The context of a call carries another tenant, if any. *)
Lemma preserves_other {B} (I : D -> Prop) t ctx (k : ID -> M D B) : ctx_tenant ctx <> Some t ->
  (forall tn, tn <> t -> preserves I (k tn)) -> preserves I (bind (lift_res (RequireTenantID ctx)) k).
Proof.
  intros Ho Hk w Hw. unfold bind, lift_res. destruct (RequireTenantID ctx) as [tn|e|e] eqn:E; [| done | done].
  apply RequireTenantID_Ok in E as [E _]. apply Hk; [congruence | done].
Qed.

Lemma triple_other {B} (I P : D -> Prop) t ctx (k : ID -> M D B) S : ctx_tenant ctx <> Some t -> (forall d, P d -> I d) ->
  (forall tn, tn <> t -> triple I P (k tn) S) -> triple I P (bind (lift_res (RequireTenantID ctx)) k) S.
Proof.
  intros Ho HI Hk w Hw. unfold bind, lift_res. destruct (RequireTenantID ctx) as [tn|e|e] eqn:E; [| by apply HI | by apply HI].
  apply RequireTenantID_Ok in E as [E _]. apply Hk; [congruence | done].
Qed.
End Conj.

(** ** The environment is asked forward

    [grows m]: no run of [m] takes back a question. *)
Definition grows {D A} (m : M D A) : Prop := forall w, (w_tick w <= w_tick (m w).2)%nat.

Section Grows.
  Context `{Env} {D : Type}.

Lemma grows_ret {A} (a : A) : grows (D := D) (ret a).
Proof. by intros w. Qed.
Lemma grows_fail {A} e : grows (D := D) (A := A) (fail e).
Proof. by intros w. Qed.
Lemma grows_guard b e : grows (D := D) (guard b e).
Proof. intros w. by destruct b. Qed.
Lemma grows_lift_res {A} (r : res A) : grows (D := D) (lift_res r).
Proof. by intros w. Qed.
Lemma grows_NewID : grows (D := D) NewID.
Proof. intros w. cbn. lia. Qed.
Lemma grows_NowUTC : grows (D := D) NowUTC.
Proof. intros w. cbn. lia. Qed.
Lemma grows_Now : grows (D := D) Now.
Proof. intros w. cbn. lia. Qed.
Lemma grows_query {A} (f : D -> res (A * D)) : grows (query f).
Proof. intros w. unfold query. destruct (env_fault _); [cbn; lia |]. destruct (f (w_db w)) as [[a d]| |]; cbn; lia. Qed.
Lemma grows_bind {A B} (m : M D A) (k : A -> M D B) : grows m -> (forall a, grows (k a)) -> grows (bind m k).
Proof.
  intros Hm Hk w. unfold bind. specialize (Hm w). destruct (m w) as [[a|e|e] w1]; cbn in *; [| done | done].
  specialize (Hk a w1). lia.
Qed.
Lemma grows_attempt {A} (m : M D A) : grows m -> grows (attempt m).
Proof. intros Hm w. specialize (Hm w). unfold attempt. by destruct (m w) as [[a|e|e] w1]. Qed.
Lemma grows_wrap_err {A} what (m : M D A) : grows m -> grows (wrap_err what m).
Proof.
  intros Hm. unfold wrap_err. apply grows_bind; [by apply grows_attempt |]. intros []; [apply grows_ret | apply grows_fail].
Qed.
End Grows.

#[export] Hint Resolve grows_ret grows_fail grows_guard grows_lift_res grows_NewID grows_NowUTC grows_Now grows_query
  grows_bind grows_attempt grows_wrap_err : go_frame.

Ltac grow := repeat first
  [ done | progress auto with go_frame | apply grows_bind | apply grows_attempt | apply grows_wrap_err | apply grows_query
  | match goal with |- forall _, _ => intros ? end | case_match ].
