(* ===== verification/Money.v ===== *)
(** * Money

    [pkg/sdk/money.go]: an amount in minor units ([int64], so every operation
    wraps) with a currency code. *)

From S2P Require Import Prelude GoStrings GoFloat Sdk.
#[local] Open Scope Z_scope.

Record Money := mkMoney { m_amount : Z; m_currency : string }.

#[global] Instance Money_eq_dec : EqDecision Money.
Proof. solve_decision. Defined.

(** [Money{}]. *)
Definition noMoney : Money := mkMoney 0 "".

Section Operations.
  Context `{UnicodeTables}.

Definition NewMoney (amount : Z) (currency : string) : res Money :=
  let curr := TrimSpace (ToUpper currency) in
  if decide (String.length curr <> 3%nat)
  then Err (Errorf ErrInvalidCurrency "currency must be a 3-letter ISO code")
  else Ok (mkMoney amount curr).

Definition MustNewMoney (amount : Z) (currency : string) : res Money :=
  match NewMoney amount currency with Err e => Panic e | r => r end.

Definition ZeroMoney (currency : string) : res Money := MustNewMoney 0 currency.
End Operations.

Definition IsZero (m : Money) : bool := m_amount m =? 0.
Definition IsPositive (m : Money) : bool := 0 <? m_amount m.
Definition IsNegative (m : Money) : bool := m_amount m <? 0.

Definition Equals (m other : Money) : bool :=
  (m_amount m =? m_amount other) && String.eqb (m_currency m) (m_currency other).

Definition Add (m other : Money) : res Money :=
  if negb (String.eqb (m_currency m) (m_currency other))
  then Err (Errorf ErrCurrencyMismatch
              ("cannot add " +:+ m_currency m +:+ " and " +:+ m_currency other))
  else Ok (mkMoney (int64 (m_amount m + m_amount other)) (m_currency m)).

Definition Subtract (m other : Money) : res Money :=
  if negb (String.eqb (m_currency m) (m_currency other))
  then Err (Errorf ErrCurrencyMismatch
              ("cannot subtract " +:+ m_currency m +:+ " and " +:+ m_currency other))
  else Ok (mkMoney (int64 (m_amount m - m_amount other)) (m_currency m)).

Definition Multiply (m : Money) (factor : Z) : Money :=
  mkMoney (int64 (m_amount m * factor)) (m_currency m).

(** Rounding by adding half a unit away from zero and truncating. *)
Definition MultiplyFloat `{GoPlatform} (m : Money) (factor : float64) : Money :=
  let val := fmul (of_Z (m_amount m)) factor in
  let rounded := if fge val f0 then to_int64 (fadd val f_half)
                 else to_int64 (fsub val f_half) in
  mkMoney rounded (m_currency m).

(** Go's integer division truncates toward zero; [MinInt64 / -1] wraps. *)
Definition Divide (m : Money) (divisor : Z) : res Money :=
  if divisor =? 0 then Err (ESentinel ErrDivisionByZero)
  else Ok (mkMoney (int64 (Z.quot (m_amount m) divisor)) (m_currency m)).

Definition Money_String (m : Money) : string :=
  (m_currency m +:+ " " +:+ Itoa (m_amount m))%string.

(** [encoding/json] on the two shapes money uses: encoding a map of values,
    decoding the struct with fields [amount] and [currency]. *)
Class JsonMoney := {
  json_Marshal : gmap string Any -> string;
  json_Unmarshal_money : string -> option (Z * string);
}.

Definition MarshalJSON `{JsonMoney} (m : Money) : string :=
  json_Marshal {["amount"%string := AInt64 (m_amount m);
                 "currency"%string := AString (m_currency m)]}.

Definition UnmarshalJSON `{UnicodeTables, JsonMoney} (data : string) : res Money :=
  match json_Unmarshal_money data with
  | None => Err (ENew "json")
  | Some (amount, currency) => NewMoney amount currency
  end.

(** ** Well-formed money *)

(** What [NewMoney] establishes: a 64-bit amount and a code of three bytes. *)
Definition wf (m : Money) : Prop :=
  in_int64 (m_amount m) /\ String.length (m_currency m) = 3%nat.

Lemma NewMoney_Ok `{UnicodeTables} a c m :
  NewMoney a c = Ok m -> m_amount m = a /\ m_currency m = TrimSpace (ToUpper c)
                         /\ String.length (m_currency m) = 3%nat.
Proof. unfold NewMoney. case_decide; [done |]. intros [= <-]. split_and!; [done..| simpl; lia]. Qed.

Lemma NewMoney_wf `{UnicodeTables} a c m : in_int64 a -> NewMoney a c = Ok m -> wf m.
Proof. intros Ha Hm. apply NewMoney_Ok in Hm as (<- & _ & Hl). done. Qed.

Lemma int64_in_range z : in_int64 (int64 z).
Proof. by apply wrap_in_width. Qed.

(** ** Properties *)

(** every operation that succeeds on well-formed money returns well-formed
    money (a 64-bit amount, a three-byte currency code) in the same currency,
    whatever the amounts are; [MultiplyFloat] needs only that the conversion of
    an out-of-range float yields some 64-bit integer. *)
Theorem money_closed `{GoPlatform} (m : Money) :
  (forall x, in_int64 (int64_out_of_range x)) -> wf m ->
  (forall n r, wf n -> Add m n = Ok r -> wf r /\ m_currency r = m_currency m /\ m_currency n = m_currency m)
  /\ (forall n r, wf n -> Subtract m n = Ok r -> wf r /\ m_currency r = m_currency m)
  /\ (forall k, wf (Multiply m k) /\ m_currency (Multiply m k) = m_currency m)
  /\ (forall x, wf (MultiplyFloat m x) /\ m_currency (MultiplyFloat m x) = m_currency m)
  /\ (forall k r, Divide m k = Ok r -> wf r /\ m_currency r = m_currency m).
Proof.
  intros Hp [Ha Hc]. unfold Add, Subtract, Multiply, MultiplyFloat, Divide, wf.
  assert (forall x, in_int64 (to_int64 x)) as Ht.
  { intros x. unfold to_int64. destruct x as [s| | |s p e]; auto; [by vm_compute |].
    case_match eqn:E; auto. apply andb_true_iff in E as [? ?].
    unfold in_width. change (64 - 1) with 63. lia. }
  split_and!; simpl; auto using int64_in_range.
  - intros n r Hn. destruct (String.eqb_spec (m_currency m) (m_currency n)); simpl; [| done].
    intros [= <-]. simpl. auto using int64_in_range.
  - intros n r Hn. destruct (String.eqb _ _); simpl; [| done].
    intros [= <-]. simpl. auto using int64_in_range.
  - intros x. case_match; auto.
  - intros k r. case_match; [done |]. intros [= <-]. simpl. auto using int64_in_range.
Qed.

Lemma money_closed_witness :
  wf (mkMoney 1050 "USD") /\ wf (Multiply (mkMoney 1050 "USD") 3).
Proof.
  split; [by vm_compute |].
  apply (money_closed (H := amd64) (mkMoney 1050 "USD")); [by intros x; vm_compute | by vm_compute].
Defined.

(** Addition is undone by subtraction, also when the sum wrapped around:
    no sequence of additions and subtractions of the same amounts loses money. *)
Theorem Add_Subtract (m n s : Money) :
  in_int64 (m_amount m) -> Add m n = Ok s -> Subtract s n = Ok m.
Proof.
  intros Hm. unfold Add, Subtract.
  destruct (String.eqb_spec (m_currency m) (m_currency n)) as [E|]; simpl; [| done].
  intros [= <-]. simpl. rewrite (proj2 (String.eqb_eq _ _) E). simpl.
  unfold int64. rewrite wrap_sub_l by lia.
  replace (m_amount m + m_amount n - m_amount n) with (m_amount m) by lia.
  rewrite wrap_id by (done || lia). by destruct m.
Qed.

Lemma Add_Subtract_witness :
  Subtract (mkMoney (- 2 ^ 63) "IDR") (mkMoney 1 "IDR") = Ok (mkMoney (2 ^ 63 - 1) "IDR").
Proof.
  apply (Add_Subtract (mkMoney (2 ^ 63 - 1) "IDR") (mkMoney 1 "IDR")); by vm_compute.
Defined.

(** currencies never mix: adding or subtracting different currencies is
    the currency-mismatch error, and equal currencies never fail; the sum is
    exact unless it leaves the 64-bit range. *)
Theorem Add_spec (m n : Money) :
  (m_currency m <> m_currency n ->
     (exists e, Add m n = Err e /\ errors_Is e ErrCurrencyMismatch = true)
     /\ (exists e, Subtract m n = Err e /\ errors_Is e ErrCurrencyMismatch = true))
  /\ (m_currency m = m_currency n ->
     (in_int64 (m_amount m + m_amount n) ->
        Add m n = Ok (mkMoney (m_amount m + m_amount n) (m_currency m)))
     /\ (in_int64 (m_amount m - m_amount n) ->
        Subtract m n = Ok (mkMoney (m_amount m - m_amount n) (m_currency m)))).
Proof.
  unfold Add, Subtract. split.
  - intros Hne. rewrite (proj2 (String.eqb_neq _ _) Hne). simpl.
    split; eexists; split; [done | apply errors_Is_Errorf | done | apply errors_Is_Errorf].
  - intros E. rewrite (proj2 (String.eqb_eq _ _) E). simpl. unfold int64.
    split; intros Hr; by rewrite wrap_id.
Qed.

Lemma Add_spec_witness :
  exists e, Add (mkMoney 1 "IDR") (mkMoney 1 "USD") = Err e
            /\ errors_Is e ErrCurrencyMismatch = true.
Proof. apply (proj1 (Add_spec (mkMoney 1 "IDR") (mkMoney 1 "USD"))). by vm_compute. Defined.

(** splitting money over a non-zero divisor leaves a remainder smaller
    than the divisor and never of the opposite sign; only the smallest amount
    divided by -1 wraps. *)
Theorem Divide_remainder (m : Money) (d : Z) (q : Money) :
  in_int64 (m_amount m) -> d <> 0 -> ~ (m_amount m = - 2 ^ 63 /\ d = -1) ->
  Divide m d = Ok q ->
  exists r, m_amount m = d * m_amount q + r /\ Z.abs r < Z.abs d /\ 0 <= r * m_amount m.
Proof.
  intros Hm Hd Hmin. unfold Divide. rewrite (proj2 (Z.eqb_neq _ _) Hd). intros [= <-]. simpl.
  assert (in_int64 (Z.quot (m_amount m) d)) as Hq.
  { unfold in_width in *. change (64 - 1) with 63 in *.
    Z.to_euclidean_division_equations. nia. }
  unfold int64. rewrite wrap_id by (done || lia).
  exists (Z.rem (m_amount m) d). split_and!.
  - apply Z.quot_rem'.
  - by apply Z.rem_bound_abs.
  - pose proof (Z.rem_sign_mul (m_amount m) d Hd). lia.
Qed.

Lemma Divide_remainder_witness :
  exists r, -7 = 2 * (-3) + r /\ Z.abs r < Z.abs 2 /\ 0 <= r * (-7).
Proof.
  apply (Divide_remainder (mkMoney (-7) "IDR") 2 (mkMoney (-3) "IDR"));
    [by vm_compute | lia | simpl; lia | by vm_compute].
Defined.

(** money survives a JSON round trip: decoding what [MarshalJSON] wrote
    gives back any money that [NewMoney] made from an ASCII code, provided
    [encoding/json] decodes the number and the string it encoded. *)
Theorem json_roundtrip `{UnicodeTables, JsonMoney} (a : Z) (c : string) (m : Money) :
  (forall n s, json_Unmarshal_money
     (json_Marshal {["amount"%string := AInt64 n; "currency"%string := AString s]}) = Some (n, s)) ->
  is_ascii c = true -> NewMoney a c = Ok m -> UnmarshalJSON (MarshalJSON m) = Ok m.
Proof.
  intros Hjson Hc Hm. apply NewMoney_Ok in Hm as (Ha & Hcur & Hlen).
  unfold UnmarshalJSON, MarshalJSON. rewrite Hjson. unfold NewMoney.
  rewrite Hcur, ToUpper_TrimSpace_idemp by done. rewrite <- Hcur.
  rewrite decide_False by lia. by destruct m.
Qed.

(** A codec with the assumed behaviour, on the two fields of money. *)
Definition field_codec : JsonMoney := {|
  json_Marshal p :=
    match p !! "amount"%string, p !! "currency"%string with
    | Some (AInt64 n), Some (AString s) => (Itoa n +:+ " " +:+ s)%string
    | _, _ => ""%string
    end;
  json_Unmarshal_money d :=
    match SplitN2 d " "%char with
    | Some (n, s) =>
        let v := match n with
                 | String "-"%char n' => - digits_val 0 n'
                 | _ => digits_val 0 n
                 end in Some (v, s)
    | None => None
    end |}.

Lemma field_codec_reads n s :
  @json_Unmarshal_money field_codec
    (@json_Marshal field_codec {["amount"%string := AInt64 n; "currency"%string := AString s]})
  = Some (n, s).
Proof.
  unfold json_Marshal, json_Unmarshal_money, field_codec.
  rewrite lookup_insert_eq, lookup_insert_ne, lookup_singleton_eq by done.
  change (" " +:+ s)%string with (String " "%char s).
  assert (forall z, 0 <= z -> no_char " " (dec z) = true) as Hd.
  { intros z Hz. apply digits_no_char; [done | by apply dec_digits]. }
  unfold Itoa. destruct (Z.ltb_spec n 0).
  - rewrite SplitN2_append by (apply (Hd (- n)); lia).
    simpl. rewrite digits_val_dec by lia. do 2 f_equal. lia.
  - rewrite SplitN2_append by auto.
    pose proof (dec_digits n ltac:(lia)) as Hdig.
    pose proof (digits_val_dec n ltac:(lia)) as Hval.
    destruct (dec n) as [|c t] eqn:E; [by rewrite Hval |].
    cbn [all_chars] in Hdig. apply andb_true_iff in Hdig as [Hc _].
    destruct (Ascii.eqb_spec c "-"%char) as [->|Hne]; [by vm_compute in Hc |].
    rewrite <- Hval. clear -Hne.
    destruct c as [[] [] [] [] [] [] [] []]; done.
Qed.

Lemma json_roundtrip_witness :
  @UnmarshalJSON _ field_codec (@MarshalJSON field_codec (mkMoney (-1050) "USD"))
  = Ok (mkMoney (-1050) "USD").
Proof.
  apply (@json_roundtrip _ field_codec (-1050) " usd " (mkMoney (-1050) "USD"));
    [apply field_codec_reads | by vm_compute | by vm_compute].
Defined.

(** rounding by "add half and truncate" is not rounding to the nearest
    minor unit: one minor unit times a factor below one half (the largest
    double below 0.5) yields one unit, and an odd amount above 2^52 is
    changed by a factor of one. *)
Theorem MultiplyFloat_not_nearest `{GoPlatform} :
  let below_half := S754_finite false (2 ^ 53 - 1) (-54) in
  flt below_half f_half = true
  /\ MultiplyFloat (mkMoney 1 "USD") below_half = mkMoney 1 "USD"
  /\ MultiplyFloat (mkMoney (2 ^ 52 + 1) "IDR") f1 = mkMoney (2 ^ 52 + 2) "IDR".
Proof. split_and!; by vm_compute. Qed.
