(* ===== verification/Workflow.v ===== *)
(** * Document workflow

    [internal/core/domain/document/workflow.go]: the transition table of a
    business document and its guards.  A status is an open string type. *)

From S2P Require Import Prelude GoStrings.
From Stdlib Require Import Relations.
#[local] Open Scope string_scope.
#[local] Open Scope list_scope.

Abbreviation Status := string.
Definition StatusDraft : Status := "draft".
Definition StatusSubmitted : Status := "submitted".
Definition StatusApproved : Status := "approved".
Definition StatusPosted : Status := "posted".
Definition StatusCompleted : Status := "completed".
Definition StatusCancelled : Status := "cancelled".
Definition StatusRejected : Status := "rejected".

Definition validTransitions : gmap string (list Status) :=
  list_to_map [
    (StatusDraft, [StatusSubmitted; StatusCancelled]);
    (StatusSubmitted, [StatusApproved; StatusRejected; StatusDraft]);
    (StatusApproved, [StatusPosted; StatusCancelled]);
    (StatusPosted, [StatusCompleted; StatusCancelled]);
    (StatusCompleted, []);
    (StatusCancelled, []);
    (StatusRejected, [])].

Definition IsValidTransition (from to : Status) : bool :=
  match validTransitions !! from with
  | None => false
  | Some allowed => existsb (String.eqb to) allowed
  end.

Definition AllowedTransitions (from : Status) : list Status :=
  default [] (validTransitions !! from).

Definition ValidateTransition (from to : Status) : res unit :=
  if String.eqb from to
  then Err (Errorf ErrInvalidInput ("document is already in status '" +:+ to +:+ "'"))
  else if negb (IsValidTransition from to)
  then Err (Errorf ErrInvalidInput
              ("illegal state transition from '" +:+ from +:+ "' to '" +:+ to +:+ "'"))
  else Ok tt.

(** ** The workflow as a transition system *)

(** One accepted transition. *)
Definition step (s t : Status) : Prop := ValidateTransition s t = Ok tt.

(** A run: the statuses a document has had, oldest first. *)
Inductive run : list Status -> Prop :=
  | run_start : run [StatusDraft]
  | run_step h s t : run (h ++ [s]) -> step s t -> run (h ++ [s; t]).

(** The edges of the table. *)
Definition edges : list (Status * Status) :=
  [(StatusDraft, StatusSubmitted); (StatusDraft, StatusCancelled);
   (StatusSubmitted, StatusApproved); (StatusSubmitted, StatusRejected);
   (StatusSubmitted, StatusDraft);
   (StatusApproved, StatusPosted); (StatusApproved, StatusCancelled);
   (StatusPosted, StatusCompleted); (StatusPosted, StatusCancelled)].

Definition terminal (s : Status) : bool :=
  existsb (String.eqb s) [StatusCompleted; StatusCancelled; StatusRejected].

Lemma validTransitions_lookup s l :
  validTransitions !! s = Some l ->
  (s, l) ∈ [
    (StatusDraft, [StatusSubmitted; StatusCancelled]);
    (StatusSubmitted, [StatusApproved; StatusRejected; StatusDraft]);
    (StatusApproved, [StatusPosted; StatusCancelled]);
    (StatusPosted, [StatusCompleted; StatusCancelled]);
    (StatusCompleted, []); (StatusCancelled, []); (StatusRejected, [])].
Proof. intros E. by apply elem_of_list_to_map_2 in E. Qed.

(** The guard accepts exactly the nine edges of the table. *)
Lemma step_iff s t : step s t <-> (s, t) ∈ edges.
Proof.
  split.
  - unfold step, ValidateTransition, IsValidTransition.
    destruct (String.eqb s t); [done |].
    destruct (validTransitions !! s) as [l|] eqn:E; [| done].
    apply validTransitions_lookup in E.
    destruct (existsb (String.eqb t) l) eqn:X; [| done]. intros _.
    apply existsb_exists in X as (u & Hu & ->%String.eqb_eq).
    apply list_elem_of_In in Hu.
    repeat (apply elem_of_cons in E as [[= -> ->]|E]; [unfold edges; set_solver |]).
    set_solver.
  - unfold edges, step. intros E.
    repeat (apply elem_of_cons in E as [[= -> ->]|E]; [by vm_compute |]). set_solver.
Qed.

(** ** Properties *)

(** C26: [ValidateTransition] accepts exactly the nine transitions of the
    lifecycle table; everything else (staying put, unknown statuses, skipping a
    stage) is refused as invalid input, and it never panics. *)
Theorem ValidateTransition_exact (from to : Status) :
  (ValidateTransition from to = Ok tt <-> (from, to) ∈ edges)
  /\ ((from, to) ∉ edges ->
      exists e, ValidateTransition from to = Err e /\ errors_Is e ErrInvalidInput = true).
Proof.
  split; [apply step_iff |]. rewrite <- step_iff. unfold step, ValidateTransition.
  case_match; [intros _; eexists; split; [done | apply errors_Is_Errorf] |].
  case_match; [intros _; eexists; split; [done | apply errors_Is_Errorf] |]. done.
Qed.

Lemma ValidateTransition_exact_witness :
  exists e, ValidateTransition StatusDraft StatusPosted = Err e
            /\ errors_Is e ErrInvalidInput = true.
Proof.
  apply (proj2 (ValidateTransition_exact StatusDraft StatusPosted)).
  unfold edges. set_solver.
Defined.

Lemma run_nonempty l : run l -> exists h s, l = h ++ [s].
Proof. destruct 1 as [|h s t _ _]; [by exists [], StatusDraft | exists (h ++ [s]), t]. by rewrite <- app_assoc. Qed.

(** The status before the last one. *)
Lemma run_last_step h s t : run (h ++ [s; t]) -> run (h ++ [s]) /\ step s t.
Proof.
  intros R. inversion R as [E|h' s' t' R' Hst E].
  - destruct h as [|x [|y h]]; simpl in E; discriminate.
  - change [s'; t'] with ([s'] ++ [t']) in E. change [s; t] with ([s] ++ [t]) in E.
    rewrite !app_assoc in E. apply app_inj_tail in E as [E ->].
    by apply app_inj_tail in E as [-> ->].
Qed.

(** Walking a run backwards through the only possible predecessor. *)
Lemma run_pred h t : run (h ++ [t]) -> t <> StatusDraft ->
  exists h' s, h = h' ++ [s] /\ run (h' ++ [s]) /\ (s, t) ∈ edges.
Proof.
  intros R Ht. destruct (decide (h = [])) as [->|Hne].
  - remember ([] ++ [t]) as l eqn:E. destruct R as [|h' s' t' _ _].
    + by injection E as <-.
    + destruct h' as [|? [|? ?]]; simpl in E; discriminate.
  - apply exists_last in Hne as (h' & s & ->). rewrite <- app_assoc in R. simpl in R.
    apply run_last_step in R as [R Hst]. exists h', s. by rewrite <- step_iff.
Qed.

Lemma edges_pred s t : (s, t) ∈ edges ->
  (t = StatusCompleted -> s = StatusPosted) /\ (t = StatusPosted -> s = StatusApproved)
  /\ (t = StatusApproved -> s = StatusSubmitted) /\ (t = StatusSubmitted -> s = StatusDraft)
  /\ terminal s = false.
Proof.
  unfold edges. intros E.
  repeat (apply elem_of_cons in E as [[= -> ->]|E]; [by vm_compute |]). set_solver.
Qed.

(** no shortcut through the workflow: whatever transitions were accepted,
    a document that is posted was drafted, submitted and approved immediately
    before, a completed one was moreover posted, and no status ever follows
    completion, cancellation or rejection. *)
Theorem workflow_stages (h : list Status) (t : Status) :
  run (h ++ [t]) ->
  (t = StatusPosted -> exists h', h = h' ++ [StatusDraft; StatusSubmitted; StatusApproved])
  /\ (t = StatusCompleted ->
        exists h', h = h' ++ [StatusDraft; StatusSubmitted; StatusApproved; StatusPosted])
  /\ Forall (fun s => terminal s = false) h.
Proof.
  intros R.
  assert (forall h, run (h ++ [StatusApproved]) -> exists h', h = h' ++ [StatusDraft; StatusSubmitted]) as A.
  { clear. intros h R. destruct (run_pred _ _ R) as (h1 & s1 & -> & R1 & E1); [done |].
    apply edges_pred in E1 as (_ & _ & E1 & _). rewrite E1 in * by done.
    destruct (run_pred _ _ R1) as (h2 & s2 & -> & R2 & E2); [done |].
    apply edges_pred in E2 as (_ & _ & _ & E2 & _). rewrite E2 by done.
    exists h2. by rewrite <- app_assoc. }
  assert (forall h, run (h ++ [StatusPosted]) ->
            exists h', h = h' ++ [StatusDraft; StatusSubmitted; StatusApproved]) as B.
  { clear -A. intros h R. destruct (run_pred _ _ R) as (h1 & s1 & -> & R1 & E1); [done |].
    apply edges_pred in E1 as (_ & E1 & _). rewrite E1 in * by done.
    destruct (A _ R1) as [h' ->]. exists h'. by rewrite <- app_assoc. }
  split_and!.
  - intros ->. by apply B.
  - intros ->. destruct (run_pred _ _ R) as (h1 & s1 & -> & R1 & E1); [done |].
    apply edges_pred in E1 as (E1 & _). rewrite E1 in * by done.
    destruct (B _ R1) as [h' ->]. exists h'. by rewrite <- app_assoc.
  - clear A B. remember (h ++ [t]) as l eqn:El. revert h t El.
    induction R as [|h0 s0 t0 R IH Hst]; intros h t El.
    + destruct h as [|? [|? ?]]; simpl in El; try discriminate. constructor.
    + replace (h0 ++ [s0; t0]) with ((h0 ++ [s0]) ++ [t0]) in El by (by rewrite <- app_assoc).
      apply app_inj_tail in El as [<- <-].
      apply Forall_app. split; [by apply (IH h0 s0) |]. constructor; [| done].
      apply step_iff, edges_pred in Hst. tauto.
Qed.

Lemma workflow_stages_witness :
  exists h', [StatusDraft; StatusSubmitted; StatusApproved]
             = h' ++ [StatusDraft; StatusSubmitted; StatusApproved].
Proof.
  apply (workflow_stages [StatusDraft; StatusSubmitted; StatusApproved] StatusPosted); [| done].
  apply (run_step [StatusDraft; StatusSubmitted]); [| by vm_compute].
  apply (run_step [StatusDraft]); [| by vm_compute].
  apply (run_step []); [apply run_start | by vm_compute].
Defined.

(** [AllowedTransitions] lists, without repetition, exactly the statuses
    that [ValidateTransition] accepts next. *)
Theorem AllowedTransitions_complete (from to : Status) :
  NoDup (AllowedTransitions from)
  /\ (to ∈ AllowedTransitions from <-> ValidateTransition from to = Ok tt).
Proof.
  change (ValidateTransition from to = Ok tt) with (step from to). rewrite step_iff.
  unfold AllowedTransitions. destruct (validTransitions !! from) as [l|] eqn:E; simpl.
  - apply validTransitions_lookup in E.
    repeat (apply elem_of_cons in E as [[= -> ->]|E];
            [split; [apply (bool_decide_unpack _); by vm_compute
                    | unfold edges; rewrite ?elem_of_cons, ?elem_of_nil; naive_solver] |]).
    by apply not_elem_of_nil in E.
  - split; [constructor |]. split; [set_solver |]. intros X%step_iff.
    unfold step, ValidateTransition in X. destruct (String.eqb from to); [done |].
    unfold IsValidTransition in X. by rewrite E in X.
Qed.
