(* ===== verification/Sequence.v ===== *)
(** * Document numbering: the domain rules

    [internal/core/domain/sequence/sequence.go]: counters with a reset policy
    and the template language of document numbers. *)

From S2P Require Import Prelude GoStrings GoTime Sdk.
From Stdlib Require Import Permutation.
#[local] Open Scope string_scope.
#[local] Open Scope list_scope.
#[local] Open Scope Z_scope.

Abbreviation ResetPolicy := string.
Definition ResetNever : ResetPolicy := "never".
Definition ResetYearly : ResetPolicy := "yearly".
Definition ResetMonthly : ResetPolicy := "monthly".
Definition ResetDaily : ResetPolicy := "daily".

Definition IsValid (r : ResetPolicy) : bool :=
  existsb (String.eqb r) [ResetNever; ResetYearly; ResetMonthly; ResetDaily].

Record Sequence := mkSequence {
  seq_ID : ID;
  seq_TenantID : ID;
  seq_Code : string;
  seq_Name : string;
  seq_EntityType : string;
  seq_SubType : string;
  seq_Prefix : string;
  seq_Suffix : string;
  seq_Template : string;
  seq_Padding : Z;
  seq_StartValue : Z;
  seq_IncrementBy : Z;
  seq_CurrentValue : Z;
  seq_ResetPolicy : ResetPolicy;
  seq_LastNumber : string;
  seq_LastResetAt : option Time;
  seq_IsActive : bool;
  seq_CreatedAt : Time;
  seq_UpdatedAt : Time;
}.

Definition ShouldReset (s : Sequence) (now : Time) : bool :=
  if String.eqb (seq_ResetPolicy s) ResetNever || (seq_CurrentValue s =? 0) then false
  else match seq_LastResetAt s with
  | None => false
  | Some last =>
      if String.eqb (seq_ResetPolicy s) ResetYearly then negb (Year now =? Year last)
      else if String.eqb (seq_ResetPolicy s) ResetMonthly then
        negb (Year now =? Year last) || negb (Month now =? Month last)
      else if String.eqb (seq_ResetPolicy s) ResetDaily then
        negb (Year now =? Year last) || negb (YearDay now =? YearDay last)
      else false
  end.

Definition NextValue (s : Sequence) (now : Time) : Z * bool :=
  if ShouldReset s now then (seq_StartValue s, true)
  else if seq_CurrentValue s <? seq_StartValue s then (seq_StartValue s, false)
  else
    let increment := if seq_IncrementBy s <=? 0 then 1 else seq_IncrementBy s in
    (int64 (seq_CurrentValue s + increment), false).

(** ** Templates *)

Definition defaultTemplate : string := "{PREFIX}/{YYYY}/{MM}/{SEQ:4}".

Fixpoint span_digits (s : string) : string * string :=
  match s with
  | String c s' =>
      if is_digit c then let (ds, r) := span_digits s' in (String c ds, r) else ("", s)
  | "" => ("", "")
  end.

(** [\{SEQ(?::(\d+))?\}] at the start of [s]: the captured digits (empty when
    the group did not take part) and what follows the match. *)
Definition match_seq (s : string) : option (string * string) :=
  if HasPrefix s "{SEQ" then
    match drop 4 s with
    | String c r =>
        if Ascii.eqb c "}" then Some ("", r)
        else if Ascii.eqb c ":" then
          match span_digits r with
          | (String d ds, String e r') =>
              if Ascii.eqb e "}" then Some (String d ds, r') else None
          | _ => None
          end
        else None
    | "" => None
    end
  else None.

(** The replacement function given to [ReplaceAllStringFunc]. *)
Definition seq_text (val defaultPadding : Z) (ds : string) : string :=
  let padding := if defaultPadding <=? 0 then 4 else defaultPadding in
  let padding :=
    if String.eqb ds "" then padding
    else match Atoi_digits ds with
         | Some n => if 0 <? n then n else padding
         | None => padding
         end in
  fmt_0wd padding val.

(** [ReplaceAllStringFunc]: every step consumes a byte, so the length of the
    string is enough fuel. *)
Fixpoint replace_seq (fuel : nat) (val defaultPadding : Z) (s : string) : string :=
  match fuel, s with
  | S f, String c s' =>
      match match_seq s with
      | Some (ds, rest) => seq_text val defaultPadding ds +:+ replace_seq f val defaultPadding rest
      | None => String c (replace_seq f val defaultPadding s')
      end
  | _, _ => s
  end.

(** [extraTokens] is the map's entries in the order the loop visits them. *)
Definition FormatNumber (template prefix suffix : string) (val defaultPadding : Z)
    (now : Time) (extraTokens : list (string * string)) : string :=
  let res := if String.eqb template "" then defaultTemplate else template in
  let res := ReplaceAll res "{PREFIX}" prefix in
  let res := ReplaceAll res "{SUFFIX}" suffix in
  let res := ReplaceAll res "{YYYY}" (Format_2006 now) in
  let res := ReplaceAll res "{YY}" (Format_06 now) in
  let res := ReplaceAll res "{MM}" (Format_01 now) in
  let res := ReplaceAll res "{DD}" (Format_02 now) in
  let res := fold_left (fun r kv => ReplaceAll r ("{" +:+ kv.1 +:+ "}") kv.2) extraTokens res in
  replace_seq (String.length res) val defaultPadding res.

(** ** Reference semantics of a template

    A template is literal text and names between braces; each name is looked
    up once. *)
Inductive chunk := Text (t : string) | Brace (name : string).

Definition render1 (c : chunk) : string :=
  match c with Text t => t | Brace n => "{" +:+ n +:+ "}" end.
Definition render (l : list chunk) : string := foldr (fun c s => render1 c +:+ s) "" l.

Definition brace_free (s : string) : bool := no_char "{" s && no_char "}" s.

Definition wf_chunk (c : chunk) : bool :=
  match c with Text t => no_char "{" t | Brace n => brace_free n end.

(** The tokens with a fixed meaning, then the caller's. *)
Definition token_table (prefix suffix : string) (now : Time) (extra : list (string * string)) :
    list (string * string) :=
  [("PREFIX", prefix); ("SUFFIX", suffix); ("YYYY", Format_2006 now); ("YY", Format_06 now);
   ("MM", Format_01 now); ("DD", Format_02 now)] ++ extra.

Fixpoint assoc (k : string) (l : list (string * string)) : option string :=
  match l with
  | [] => None
  | (k', v) :: l' => if String.eqb k k' then Some v else assoc k l'
  end.

(** The digits of a sequence token. *)
Definition seq_name (n : string) : option string :=
  if String.eqb n "SEQ" then Some ""
  else if HasPrefix n "SEQ:" && negb (String.eqb (drop 4 n) "") && all_chars is_digit (drop 4 n)
  then Some (drop 4 n) else None.

Definition expand (table : list (string * string)) (val pad : Z) (c : chunk) : string :=
  match c with
  | Text t => t
  | Brace n =>
      match assoc n table with
      | Some v => v
      | None => match seq_name n with
                | Some ds => seq_text val pad ds
                | None => "{" +:+ n +:+ "}"
                end
      end
  end.

Definition expand_all (table : list (string * string)) (val pad : Z) (l : list chunk) : string :=
  foldr (fun c s => expand table val pad c +:+ s) "" l.

(** ** Template lemmas *)

Lemma no_char_eqb c d s : no_char c (String d s) = true -> Ascii.eqb c d = false /\ no_char c s = true.
Proof.
  unfold no_char. cbn [all_chars]. rewrite andb_true_iff. intros [? ?].
  by destruct (Ascii.eqb c d).
Qed.

(** Only the name itself matches between braces. *)
Lemma HasPrefix_brace k n rest :
  no_char "}" k = true -> no_char "}" n = true ->
  HasPrefix (n +:+ String "}" rest) (k +:+ "}") = String.eqb n k.
Proof.
  revert n. induction k as [|c k IH]; intros n Hk Hn.
  - destruct n as [|d n]; [done |]. cbn [String.append HasPrefix String.eqb].
    apply no_char_eqb in Hn as [Hd _]. by rewrite Hd.
  - apply no_char_eqb in Hk as [Hc Hk]. destruct n as [|d n]; cbn [String.append HasPrefix String.eqb].
    + rewrite Ascii.eqb_sym, Hc. done.
    + apply no_char_eqb in Hn as [_ Hn]. rewrite IH by done.
      rewrite Ascii.eqb_sym. by destruct (Ascii.eqb d c).
Qed.

Lemma brace_free_split n : brace_free n = true -> no_char "{" n = true /\ no_char "}" n = true.
Proof. unfold brace_free. by rewrite andb_true_iff. Qed.

(** [ReplaceAll] of ["{k}"] steps over one chunk. *)
Lemma ReplaceAll_text k v t rest :
  no_char "{" t = true ->
  ReplaceAll (t +:+ rest) (String "{" (k +:+ "}")) v
  = t +:+ ReplaceAll rest (String "{" (k +:+ "}")) v.
Proof. apply ReplaceAll_skip_text. Qed.

Lemma ReplaceAll_brace_eq k v rest :
  ReplaceAll (String "{" (k +:+ String "}" rest)) (String "{" (k +:+ "}")) v
  = v +:+ ReplaceAll rest (String "{" (k +:+ "}")) v.
Proof.
  replace (String "{" (k +:+ String "}" rest)) with (String "{" (k +:+ "}") +:+ rest).
  - apply ReplaceAll_match.
  - cbn [String.append]. f_equal. by rewrite append_assoc.
Qed.

Lemma ReplaceAll_brace_ne k v n rest :
  no_char "}" k = true -> brace_free n = true -> n <> k ->
  ReplaceAll (String "{" (n +:+ String "}" rest)) (String "{" (k +:+ "}")) v
  = String "{" (n +:+ String "}" (ReplaceAll rest (String "{" (k +:+ "}")) v)).
Proof.
  intros Hk Hn Hne. apply brace_free_split in Hn as [Ho Hc].
  replace (n +:+ String "}" rest) with ((n +:+ "}") +:+ rest) by (by rewrite append_assoc).
  unfold ReplaceAll at 1. cbn [ReplaceAll_from HasPrefix].
  rewrite Ascii.eqb_refl, append_assoc. cbn [String.append andb].
  rewrite HasPrefix_brace by done. rewrite (proj2 (String.eqb_neq _ _) Hne).
  f_equal. fold (ReplaceAll (n +:+ String "}" rest) (String "{" (k +:+ "}")) v).
  replace (n +:+ String "}" rest) with ((n +:+ "}") +:+ rest) by (by rewrite append_assoc).
  rewrite ReplaceAll_text by (rewrite no_char_append, Ho; reflexivity).
  by rewrite append_assoc.
Qed.

(** One substitution pass, on chunks. *)
Definition subst_chunk (k v : string) (c : chunk) : chunk :=
  match c with Brace n => if String.eqb n k then Text v else c | _ => c end.

Lemma ReplaceAll_render k v l :
  brace_free k = true -> forallb wf_chunk l = true ->
  ReplaceAll (render l) ("{" +:+ k +:+ "}") v = render (map (subst_chunk k v) l).
Proof.
  intros Hk. induction l as [|c l IH]; [done |].
  cbn [forallb]. rewrite andb_true_iff. intros [Hc Hl]. specialize (IH Hl).
  cbn [render foldr map]. fold (render l). fold (render (map (subst_chunk k v) l)).
  change ("{" +:+ k +:+ "}") with (String "{" (k +:+ "}")) in *. rewrite <- IH.
  destruct c as [t|n]; cbn [render1 subst_chunk wf_chunk] in *.
  - by apply ReplaceAll_text.
  - replace (("{" +:+ n +:+ "}") +:+ render l) with (String "{" (n +:+ String "}" (render l)))
      by (cbn [String.append]; by rewrite append_assoc).
    destruct (String.eqb_spec n k) as [->|Hne].
    + apply ReplaceAll_brace_eq.
    + destruct (brace_free_split k Hk) as [_ Hk2]. rewrite ReplaceAll_brace_ne by done.
      cbn [render1 String.append]. by rewrite append_assoc.
Qed.

Lemma subst_chunk_wf k v c :
  no_char "{" v = true -> wf_chunk c = true -> wf_chunk (subst_chunk k v c) = true.
Proof. intros. destruct c; simpl in *; [done |]. by case_match. Qed.

Lemma subst_chunks_wf k v l :
  no_char "{" v = true -> forallb wf_chunk l = true ->
  forallb wf_chunk (map (subst_chunk k v) l) = true.
Proof.
  intros Hv. induction l; [done |]. cbn [forallb map]. rewrite !andb_true_iff.
  intros [? ?]. auto using subst_chunk_wf.
Qed.

(** Several passes are one look-up, because no value contains a brace. *)
Definition subst_table (table : list (string * string)) (c : chunk) : chunk :=
  match c with
  | Brace n => match assoc n table with Some v => Text v | None => c end
  | _ => c
  end.

Definition wf_table (table : list (string * string)) : bool :=
  forallb (fun kv => brace_free kv.1 && no_char "{" kv.2) table.

Lemma ReplaceAll_table table l :
  wf_table table = true -> forallb wf_chunk l = true ->
  fold_left (fun r kv => ReplaceAll r ("{" +:+ kv.1 +:+ "}") kv.2) table (render l)
  = render (map (subst_table table) l)
  /\ forallb wf_chunk (map (subst_table table) l) = true.
Proof.
  unfold wf_table. revert l. induction table as [|[k v] table IH]; intros l Ht Hl.
  - assert (map (subst_table []) l = l) as ->; [| done].
    clear. induction l as [|[] l IH]; simpl; congruence.
  - cbn [forallb fst snd] in Ht. rewrite !andb_true_iff in Ht. destruct Ht as [[Hk Hv] Ht].
    cbn [fold_left fst snd]. rewrite ReplaceAll_render by done.
    destruct (IH (map (subst_chunk k v) l)) as [E W]; [done | by apply subst_chunks_wf |].
    rewrite E in *. rewrite map_map in *.
    assert (map (fun c => subst_table table (subst_chunk k v c)) l
            = map (subst_table ((k, v) :: table)) l) as Em.
    { apply map_ext. intros [t|n]; [done |]. cbn [subst_chunk subst_table assoc].
      by destruct (String.eqb n k). }
    rewrite Em in *. done.
Qed.

(** ** Sequence tokens *)

Lemma span_digits_app ds c r :
  all_chars is_digit ds = true -> is_digit c = false ->
  span_digits (ds +:+ String c r) = (ds, String c r).
Proof.
  intros Hd Hc. induction ds as [|d ds IH]; cbn [String.append span_digits].
  - by rewrite Hc.
  - cbn [all_chars] in Hd. apply andb_true_iff in Hd as [-> Hd]. by rewrite IH.
Qed.

Lemma span_digits_spec s : let (ds, r) := span_digits s in
  s = ds +:+ r /\ all_chars is_digit ds = true.
Proof.
  induction s as [|c s IH]; cbn [span_digits]; [done |].
  destruct (is_digit c) eqn:E; [| done].
  destruct (span_digits s) as [ds r]. destruct IH as [-> IH]. cbn [String.append all_chars].
  by rewrite E, IH.
Qed.

Lemma HasPrefix_drop s p : HasPrefix s p = true -> s = p +:+ drop (String.length p) s.
Proof. intros [t ->]%HasPrefix_spec. by rewrite drop_append. Qed.

Lemma no_char_app_unique c a b r1 r2 :
  no_char c a = true -> no_char c b = true ->
  a +:+ String c r1 = b +:+ String c r2 -> a = b /\ r1 = r2.
Proof.
  revert b. induction a as [|x a IH]; intros [|y b] Ha Hb E; cbn [String.append] in E.
  - by injection E.
  - injection E as <- _. apply no_char_eqb in Hb as [Hb _]. by rewrite Ascii.eqb_refl in Hb.
  - injection E as -> _. apply no_char_eqb in Ha as [Ha _]. by rewrite Ascii.eqb_refl in Ha.
  - injection E as <- E. apply no_char_eqb in Ha as [_ Ha]. apply no_char_eqb in Hb as [_ Hb].
    destruct (IH b Ha Hb E) as [-> ->]. done.
Qed.

(** At a brace the regular expression matches exactly the sequence tokens. *)
Lemma match_seq_brace n rest :
  brace_free n = true ->
  match_seq (String "{" (n +:+ String "}" rest)) = (fun ds => (ds, rest)) <$> seq_name n.
Proof.
  intros [_ Hn]%brace_free_split. unfold seq_name.
  destruct (String.eqb_spec n "SEQ") as [->|Hne]; [done |].
  destruct (HasPrefix n "SEQ:") eqn:Hp; cbn [andb].
  - apply HasPrefix_drop in Hp. cbn [String.length] in Hp. set (ds := drop 4 n) in *.
    clearbody ds. subst n. unfold no_char in Hn. cbn [String.append all_chars] in Hn.
    rewrite !andb_true_iff in Hn. destruct Hn as (_ & _ & _ & _ & Hn).
    fold (no_char "}" ds) in Hn.
    unfold match_seq. cbn [String.append HasPrefix Ascii.eqb Bool.eqb andb drop].
    destruct (all_chars is_digit ds) eqn:Hd; cbn [andb negb].
    + rewrite span_digits_app by done. destruct ds as [|d ds]; done.
    + rewrite andb_false_r. destruct (span_digits (ds +:+ String "}" rest)) as [es r'] eqn:E.
      pose proof (span_digits_spec (ds +:+ String "}" rest)) as S. rewrite E in S.
      destruct S as [S1 S2]. destruct es as [|e es]; [done |]. destruct r' as [|x r']; [done |].
      destruct (Ascii.eqb_spec x "}") as [->|]; [| done].
      apply no_char_app_unique in S1 as [-> _]; [| done |].
      * by rewrite S2 in Hd.
      * by apply digits_no_char.
  - unfold match_seq. destruct (HasPrefix (String "{" (n +:+ String "}" rest)) "{SEQ") eqn:Hq;
      [| done]. apply HasPrefix_drop in Hq. cbn [String.length] in Hq.
    destruct n as [|a [|b [|c [|d n]]]]; cbn [String.append drop] in Hq |- *;
      try (injection Hq as ?; discriminate).
    + injection Hq as -> -> ->. done.
    + injection Hq as -> -> ->.
      apply no_char_eqb in Hn as [_ Hn]. apply no_char_eqb in Hn as [_ Hn].
      apply no_char_eqb in Hn as [_ Hn]. apply no_char_eqb in Hn as [Hd _].
      rewrite Ascii.eqb_sym, Hd. cbn in Hp.
      destruct (Ascii.eqb_spec d ":") as [->|]; [by vm_compute in Hp | done].
Qed.

Lemma replace_seq_text fuel val pad t rest :
  no_char "{" t = true -> (String.length t <= fuel)%nat ->
  replace_seq fuel val pad (t +:+ rest)
  = t +:+ replace_seq (fuel - String.length t) val pad rest.
Proof.
  revert fuel. induction t as [|c t IH]; intros fuel Ht Hf; cbn [String.append String.length] in *.
  - by rewrite Nat.sub_0_r.
  - apply no_char_eqb in Ht as [Hc Ht]. destruct fuel as [|fuel]; [lia |].
    cbn [replace_seq]. unfold match_seq. cbn [HasPrefix]. rewrite Hc. cbn [andb].
    rewrite IH by (done || lia). done.
Qed.

Lemma replace_seq_render fuel val pad l :
  forallb wf_chunk l = true -> (String.length (render l) <= fuel)%nat ->
  replace_seq fuel val pad (render l) = expand_all [] val pad l.
Proof.
  revert fuel. induction l as [|c l IH]; intros fuel Hl Hf; [by destruct fuel |].
  cbn [forallb] in Hl. apply andb_true_iff in Hl as [Hc Hl].
  cbn [render expand_all foldr] in *. fold (render l) in *. fold (expand_all [] val pad l) in *.
  destruct c as [t|n]; cbn [render1 expand assoc wf_chunk] in *.
  - rewrite length_append in Hf. rewrite replace_seq_text by (done || lia).
    by rewrite IH by (done || lia).
  - replace (("{" +:+ n +:+ "}") +:+ render l) with (String "{" (n +:+ String "}" (render l))) in *
      by (cbn [String.append]; by rewrite append_assoc).
    cbn [String.length] in Hf. rewrite length_append in Hf. cbn [String.length] in Hf.
    destruct fuel as [|fuel]; [lia |]. cbn [replace_seq].
    rewrite match_seq_brace by done. destruct (seq_name n) as [ds|]; cbn [fmap option_fmap option_map].
    + by rewrite IH by (done || lia).
    + replace (n +:+ String "}" (render l)) with ((n +:+ "}") +:+ render l)
        by (by rewrite append_assoc).
      destruct (brace_free_split n Hc) as [Ho _].
      rewrite replace_seq_text, IH;
        rewrite ?no_char_append, ?Ho, ?length_append; cbn [String.length]; done || lia.
Qed.

Lemma fmt_0wd_no_brace w v : w <= 1000000 -> no_char "{" (fmt_0wd w v) = true.
Proof.
  intros Hw. destruct (Z.ltb_spec v 0).
  - unfold fmt_0wd. rewrite (proj2 (Z.ltb_ge _ _)) by (apply Z.div_le_upper_bound; lia).
    rewrite (proj2 (Z.ltb_lt _ _)) by lia.
    change ("-" +:+ zpad (w - 1) (dec (- v))) with (String "-" (zpad (w - 1) (dec (- v)))).
    unfold no_char. cbn [all_chars]. apply digits_no_char; [done |].
    apply zpad_digits, dec_digits. lia.
  - apply digits_no_char; [done |]. by apply fmt_0wd_digits.
Qed.

Lemma token_table_wf prefix suffix now extra :
  no_char "{" prefix = true -> no_char "{" suffix = true -> wf_table extra = true ->
  wf_table (token_table prefix suffix now extra) = true.
Proof.
  intros Hp Hs He. unfold token_table, wf_table in *. rewrite forallb_app, He, andb_true_r.
  cbn [forallb fst snd]. rewrite Hp, Hs. unfold Format_2006, Format_06, Format_01, Format_02.
  rewrite !fmt_0wd_no_brace by (try case_match; lia). done.
Qed.

(** The six fixed passes and the loop over the caller's tokens are one fold. *)
Lemma FormatNumber_fold template prefix suffix val pad now extra :
  FormatNumber template prefix suffix val pad now extra =
  let res := fold_left (fun r kv => ReplaceAll r ("{" +:+ kv.1 +:+ "}") kv.2)
               (token_table prefix suffix now extra)
               (if String.eqb template "" then defaultTemplate else template) in
  replace_seq (String.length res) val pad res.
Proof. unfold FormatNumber, token_table. by rewrite fold_left_app. Qed.

(** ** Properties of numbering *)

Lemma FormatNumber_expand (l : list chunk) (template prefix suffix : string)
    (val pad : Z) (now : Time) (extra : list (string * string)) :
  template = render l -> template <> "" -> forallb wf_chunk l = true ->
  no_char "{" prefix = true -> no_char "{" suffix = true -> wf_table extra = true ->
  FormatNumber template prefix suffix val pad now extra
  = expand_all (token_table prefix suffix now extra) val pad l.
Proof.
  intros -> Hne Hl Hp Hs He. rewrite FormatNumber_fold. rewrite (proj2 (String.eqb_neq _ _) Hne).
  destruct (ReplaceAll_table (token_table prefix suffix now extra) l) as [E W];
    [by apply token_table_wf | done |].
  cbv zeta. rewrite E, replace_seq_render by done. clear.
  induction l as [|c l IH]; [done |]. cbn [map expand_all foldr].
  fold (expand_all [] val pad (map (subst_table (token_table prefix suffix now extra)) l)).
  rewrite IH. f_equal. destruct c as [t|n]; [done |]. cbn [subst_table expand].
  by destruct (assoc n (token_table prefix suffix now extra)).
Qed.

(** What the default template prints. *)
Lemma FormatNumber_default (prefix suffix : string) (val pad : Z) (now : Time) (extra : list (string * string)) :
  no_char "{" prefix = true -> no_char "{" suffix = true -> wf_table extra = true ->
  assoc "SEQ:4" extra = None ->
  FormatNumber defaultTemplate prefix suffix val pad now extra
  = prefix +:+ String "/" (Format_2006 now +:+ String "/" (Format_01 now +:+ String "/" (fmt_0wd 4 val))).
Proof.
  intros Hp Hs He Hq.
  rewrite (FormatNumber_expand
    [Brace "PREFIX"; Text "/"; Brace "YYYY"; Text "/"; Brace "MM"; Text "/"; Brace "SEQ:4"]) by done.
  cbn [expand_all foldr expand token_table app assoc String.eqb Ascii.eqb Bool.eqb]. rewrite Hq.
  cbn. by rewrite append_nil_r.
Qed.

(** C32: the chain of textual replacements is one-pass expansion: for a non-empty
    template made of literal text and names in braces, when the prefix, the suffix
    and the caller's values contain no opening brace and the caller's names no brace
    at all, [FormatNumber] replaces each
    name by its value, each sequence token by the zero-padded counter, and
    leaves unknown names as they are. *)
Theorem FormatNumber_reference (l : list chunk) (template prefix suffix : string)
    (val pad : Z) (now : Time) (extra : list (string * string)) :
  template = render l -> template <> "" -> forallb wf_chunk l = true ->
  no_char "{" prefix = true -> no_char "{" suffix = true -> wf_table extra = true ->
  FormatNumber template prefix suffix val pad now extra
  = expand_all (token_table prefix suffix now extra) val pad l.
Proof. apply FormatNumber_expand. Qed.

Definition jan_2026 : Time := mkTime (1768478400 * Second) 0.

Lemma FormatNumber_reference_witness :
  FormatNumber "INV-{ORG}{YY}-{SEQ:3}{X}" "P" "S" 42 4 jan_2026 [("ORG", "JKT")]
  = "INV-JKT26-042{X}".
Proof.
  apply (FormatNumber_reference [Text "INV-"; Brace "ORG"; Brace "YY"; Text "-"; Brace "SEQ:3"; Brace "X"]);
    by vm_compute.
Defined.

Lemma assoc_Permutation n l l' :
  Permutation l l' -> NoDup l.*1 -> assoc n l = assoc n l'.
Proof.
  intros P. induction P as [|[k v] l l' P IH|[k v] [k' v'] l|l l' l'' P IH P' IH']; intros Hnd.
  - done.
  - cbn [assoc]. rewrite IH; [done |]. by apply NoDup_cons in Hnd as [_ ?].
  - cbn [assoc]. apply NoDup_cons in Hnd as [Hn _]. cbn in Hn.
    destruct (String.eqb_spec n k'), (String.eqb_spec n k); try done. set_solver.
  - rewrite IH by done. apply IH'. by rewrite <- P.
Qed.

(** Go iterates over the caller's tokens in an unspecified order; the
    number does not depend on it when no value contains an opening brace. *)
Theorem FormatNumber_order_independent (l : list chunk) (template prefix suffix : string)
    (val pad : Z) (now : Time) (extra extra' : list (string * string)) :
  Permutation extra extra' -> NoDup extra.*1 ->
  template = render l -> template <> "" -> forallb wf_chunk l = true ->
  no_char "{" prefix = true -> no_char "{" suffix = true -> wf_table extra = true ->
  FormatNumber template prefix suffix val pad now extra
  = FormatNumber template prefix suffix val pad now extra'.
Proof.
  intros P Hnd Ht Hne Hl Hp Hs He.
  assert (wf_table extra' = true) as He'.
  { unfold wf_table in *. rewrite forallb_forall in *. intros x Hx. apply He.
    by rewrite P. }
  rewrite !(FormatNumber_expand l) by done. clear -P Hnd.
  assert (forall n, assoc n (token_table prefix suffix now extra)
                    = assoc n (token_table prefix suffix now extra')) as A.
  { intros n. unfold token_table. cbn [app assoc]. by rewrite (assoc_Permutation n extra extra'). }
  induction l as [|c l IH]; [done |]. cbn [expand_all foldr].
  fold (expand_all (token_table prefix suffix now extra) val pad l).
  fold (expand_all (token_table prefix suffix now extra') val pad l).
  rewrite IH. f_equal. destruct c as [t|n]; [done |]. cbn [expand]. by rewrite A.
Qed.

Lemma FormatNumber_order_independent_witness :
  FormatNumber "{A}{B}" "" "" 1 4 jan_2026 [("A", "x"); ("B", "y")]
  = FormatNumber "{A}{B}" "" "" 1 4 jan_2026 [("B", "y"); ("A", "x")].
Proof.
  apply (FormatNumber_order_independent [Brace "A"; Brace "B"]);
    [constructor | apply (bool_decide_unpack _); by vm_compute | by vm_compute..].
Defined.
