(* ===== verification/SequenceStore.v ===== *)
(** * Document numbering: the store and the use case

    [internal/core/repository/postgres/sequence_repo.go] with the statements of
    [queries/sequences.sql] and the keys of the [number_sequences] table, and
    [internal/core/usecase/sequence/sequence_usecase.go]. *)

From S2P Require Import Prelude GoStrings GoTime Sdk Tables Sequence.
#[local] Open Scope string_scope.
#[local] Open Scope list_scope.
#[local] Open Scope Z_scope.

(** ** The table *)

(** [sqlc.NumberSequence]. *)
Record SeqRow := mkSeqRow {
  sr_id : ID;
  sr_tenant_id : ID;
  sr_code : string;
  sr_name : string;
  sr_entity_type : string;
  sr_sub_type : string;
  sr_prefix : string;
  sr_suffix : string;
  sr_template : string;
  sr_padding : Z;
  sr_start_value : Z;
  sr_increment_by : Z;
  sr_current_value : Z;
  sr_reset_policy : string;
  sr_last_number : option string;
  sr_last_reset_at : option Time;
  sr_is_active : bool;
  sr_created_at : Time;
  sr_updated_at : Time;
}.

Abbreviation SeqTable := (gmap ID SeqRow).

(** The order in which sequences are listed. *)
Definition seq_listed_le (a b : SeqRow) : Prop :=
  sr_entity_type a <> sr_entity_type b /\ String.le (sr_entity_type a) (sr_entity_type b)
  \/ sr_entity_type a = sr_entity_type b
     /\ (sr_sub_type a <> sr_sub_type b /\ String.le (sr_sub_type a) (sr_sub_type b)
         \/ sr_sub_type a = sr_sub_type b /\ String.le (sr_code a) (sr_code b)).
#[export] Instance seq_listed_le_dec : RelDecision seq_listed_le.
Proof. intros a b. unfold seq_listed_le. apply _. Defined.

Section Store.
  Context `{Env, Pg}.
  (** Rows the server refuses (lengths, foreign keys). *)
  Variable refused : SeqRow -> option error.

Definition toDomainSequence (row : SeqRow) : Sequence := {|
  seq_ID := sr_id row;
  seq_TenantID := sr_tenant_id row;
  seq_Code := sr_code row;
  seq_Name := sr_name row;
  seq_EntityType := sr_entity_type row;
  seq_SubType := sr_sub_type row;
  seq_Prefix := sr_prefix row;
  seq_Suffix := sr_suffix row;
  seq_Template := sr_template row;
  seq_Padding := sr_padding row;
  seq_StartValue := sr_start_value row;
  seq_IncrementBy := sr_increment_by row;
  seq_CurrentValue := sr_current_value row;
  seq_ResetPolicy := sr_reset_policy row;
  seq_LastNumber := default "" (sr_last_number row);
  seq_LastResetAt := sr_last_reset_at row;
  seq_IsActive := sr_is_active row;
  seq_CreatedAt := sr_created_at row;
  seq_UpdatedAt := sr_updated_at row |}.

(** The row [Create] writes; [int] columns are 32 bits wide. *)
Definition sequence_row (seq : Sequence) : SeqRow := {|
  sr_id := seq_ID seq;
  sr_tenant_id := seq_TenantID seq;
  sr_code := seq_Code seq;
  sr_name := seq_Name seq;
  sr_entity_type := seq_EntityType seq;
  sr_sub_type := seq_SubType seq;
  sr_prefix := seq_Prefix seq;
  sr_suffix := seq_Suffix seq;
  sr_template := seq_Template seq;
  sr_padding := int32 (seq_Padding seq);
  sr_start_value := seq_StartValue seq;
  sr_increment_by := int32 (seq_IncrementBy seq);
  sr_current_value := seq_CurrentValue seq;
  sr_reset_policy := seq_ResetPolicy seq;
  sr_last_number := if String.eqb (seq_LastNumber seq) "" then None else Some (seq_LastNumber seq);
  sr_last_reset_at := pg_timestamptz <$> seq_LastResetAt seq;
  sr_is_active := seq_IsActive seq;
  sr_created_at := pg_timestamptz (seq_CreatedAt seq);
  sr_updated_at := pg_timestamptz (seq_UpdatedAt seq) |}.

(** uq_number_sequences_tenant_code and uq_number_sequences_tenant_entity_subtype. *)
Definition keys_clash (a b : SeqRow) : bool :=
  bool_decide (sr_tenant_id a = sr_tenant_id b)
  && (String.eqb (sr_code a) (sr_code b)
      || (String.eqb (sr_entity_type a) (sr_entity_type b)
          && String.eqb (sr_sub_type a) (sr_sub_type b))).

Definition insert_row (row : SeqRow) (t : SeqTable) : res (SeqRow * SeqTable) :=
  if bool_decide (sr_id row = NilID) then Err pg_unique_violation (* NOT NULL *)
  else match t !! sr_id row with
  | Some _ => Err pg_unique_violation
  | None =>
      match select_one (keys_clash row) t, refused row with
      | Some _, _ => Err pg_unique_violation
      | None, Some e => Err e
      | None, None => Ok (row, <[sr_id row := row]> t)
      end
  end.

(** [Create] returns the identifier and times as the server stored them. *)
Definition Create (seq : Sequence) : M SeqTable Sequence :=
  row <- query (insert_row (sequence_row seq)) ;;
  ret {| seq_ID := sr_id row; seq_TenantID := seq_TenantID seq; seq_Code := seq_Code seq;
         seq_Name := seq_Name seq; seq_EntityType := seq_EntityType seq;
         seq_SubType := seq_SubType seq; seq_Prefix := seq_Prefix seq;
         seq_Suffix := seq_Suffix seq; seq_Template := seq_Template seq;
         seq_Padding := seq_Padding seq; seq_StartValue := seq_StartValue seq;
         seq_IncrementBy := seq_IncrementBy seq; seq_CurrentValue := seq_CurrentValue seq;
         seq_ResetPolicy := seq_ResetPolicy seq; seq_LastNumber := seq_LastNumber seq;
         seq_LastResetAt := seq_LastResetAt seq; seq_IsActive := seq_IsActive seq;
         seq_CreatedAt := sr_created_at row; seq_UpdatedAt := sr_updated_at row |}.

(** A [:one] query: [pgx.ErrNoRows] becomes [ErrNotFound]. *)
Definition get_one (p : SeqRow -> bool) : M SeqTable SeqRow :=
  query (fun t => match select_one p t with
                  | Some row => Ok (row, t)
                  | None => Err (ESentinel ErrNotFound)
                  end).

Definition by_id (tenantID id : ID) (r : SeqRow) : bool :=
  sql_eq (sr_tenant_id r) (ToPgUUID tenantID) && sql_eq (sr_id r) (ToPgUUID id).

Definition by_entity (tenantID : ID) (entityType subType : string) (r : SeqRow) : bool :=
  sql_eq (sr_tenant_id r) (ToPgUUID tenantID) && String.eqb (sr_entity_type r) entityType
  && String.eqb (sr_sub_type r) subType && sr_is_active r.

Definition GetByID (tenantID id : ID) : M SeqTable Sequence :=
  row <- get_one (by_id tenantID id) ;; ret (toDomainSequence row).

Definition by_code (tenantID : ID) (code : string) (r : SeqRow) : bool :=
  sql_eq (sr_tenant_id r) (ToPgUUID tenantID) && String.eqb (sr_code r) code.

Definition GetByCode (tenantID : ID) (code : string) : M SeqTable Sequence :=
  row <- get_one (by_code tenantID code) ;;
  ret (toDomainSequence row).

Definition GetByEntity (tenantID : ID) (entityType subType : string) : M SeqTable Sequence :=
  row <- get_one (by_entity tenantID entityType subType) ;; ret (toDomainSequence row).

(** ORDER BY entity_type ASC, sub_type ASC, code ASC, here in byte order. *)
Definition list_sequences (tenantID : ID) (t : SeqTable) : list SeqRow :=
  merge_sort seq_listed_le (select_rows (fun r => sql_eq (sr_tenant_id r) (ToPgUUID tenantID)) t).

Definition List (tenantID : ID) : M SeqTable (list Sequence) :=
  query (fun t => Ok (map toDomainSequence (list_sequences tenantID t), t)).

Definition update_row (old : SeqRow) (seq : Sequence) : SeqRow := {|
  sr_id := sr_id old; sr_tenant_id := sr_tenant_id old; sr_code := sr_code old;
  sr_name := seq_Name seq;
  sr_entity_type := sr_entity_type old; sr_sub_type := sr_sub_type old;
  sr_prefix := seq_Prefix seq;
  sr_suffix := seq_Suffix seq;
  sr_template := seq_Template seq;
  sr_padding := int32 (seq_Padding seq);
  sr_start_value := sr_start_value old; sr_increment_by := sr_increment_by old;
  sr_current_value := sr_current_value old;
  sr_reset_policy := seq_ResetPolicy seq;
  sr_last_number := sr_last_number old; sr_last_reset_at := sr_last_reset_at old;
  sr_is_active := seq_IsActive seq;
  sr_created_at := sr_created_at old;
  sr_updated_at := pg_timestamptz (seq_UpdatedAt seq) |}.

(** An UPDATE of the row a condition selects. *)
Definition write_row (row : SeqRow) (t : SeqTable) : res (SeqRow * SeqTable) :=
  match refused row with
  | Some e => Err e
  | None => Ok (row, <[sr_id row := row]> t)
  end.

Definition Update (seq : Sequence) : M SeqTable Sequence :=
  row <- query (fun t =>
    match select_one (by_id (seq_TenantID seq) (seq_ID seq)) t with
    | None => Err (ESentinel ErrNotFound)
    | Some old => write_row (update_row old seq) t
    end) ;;
  ret {| seq_ID := seq_ID seq; seq_TenantID := seq_TenantID seq; seq_Code := seq_Code seq;
         seq_Name := seq_Name seq; seq_EntityType := seq_EntityType seq;
         seq_SubType := seq_SubType seq; seq_Prefix := seq_Prefix seq;
         seq_Suffix := seq_Suffix seq; seq_Template := seq_Template seq;
         seq_Padding := seq_Padding seq; seq_StartValue := seq_StartValue seq;
         seq_IncrementBy := seq_IncrementBy seq; seq_CurrentValue := seq_CurrentValue seq;
         seq_ResetPolicy := seq_ResetPolicy seq; seq_LastNumber := seq_LastNumber seq;
         seq_LastResetAt := seq_LastResetAt seq; seq_IsActive := seq_IsActive seq;
         seq_CreatedAt := seq_CreatedAt seq; seq_UpdatedAt := sr_updated_at row |}.

Definition delete_sequence (tenantID id : ID) (t : SeqTable) : SeqTable := filter (fun kr => by_id tenantID id kr.2 = false) t.

Definition Delete (tenantID id : ID) : M SeqTable unit := query (fun t => Ok (tt, delete_sequence tenantID id t)).

(** The number a row yields at a time, and the row afterwards. *)
Definition next_number (row : SeqRow) (now : Time) (extraTokens : list (string * string)) :
    string * SeqRow :=
  let seq := toDomainSequence row in
  let (nextVal, wasReset) := NextValue seq now in
  let formatted := FormatNumber (seq_Template seq) (seq_Prefix seq) (seq_Suffix seq) nextVal
                     (seq_Padding seq) now extraTokens in
  let lastReset := if wasReset || bool_decide (seq_LastResetAt seq = None)
                   then Some (pg_timestamptz now) else sr_last_reset_at row in
  (formatted, {|
     sr_id := sr_id row; sr_tenant_id := sr_tenant_id row; sr_code := sr_code row;
     sr_name := sr_name row; sr_entity_type := sr_entity_type row;
     sr_sub_type := sr_sub_type row; sr_prefix := sr_prefix row; sr_suffix := sr_suffix row;
     sr_template := sr_template row; sr_padding := sr_padding row;
     sr_start_value := sr_start_value row; sr_increment_by := sr_increment_by row;
     sr_current_value := nextVal;
     sr_reset_policy := sr_reset_policy row;
     sr_last_number := Some formatted;
     sr_last_reset_at := lastReset;
     sr_is_active := sr_is_active row; sr_created_at := sr_created_at row;
     sr_updated_at := pg_timestamptz now |}).

(** [AcquireNextNumber]: SELECT ... FOR UPDATE, compute, UPDATE, COMMIT.  The
    row lock makes the transaction atomic with respect to other acquisitions
    of the same row, which is why it is one step here. *)
Definition AcquireNextNumber (tenantID : ID) (entityType subType : string)
    (extraTokens : list (string * string)) : M SeqTable string :=
  WithTx true Background (fun _ =>
    row <- get_one (by_entity tenantID entityType subType) ;;
    now <- NowUTC ;;
    let (formatted, row') := next_number row now extraTokens in
    query (write_row row') ;;;
    ret formatted).
End Store.

(** ** The use case *)

Record CreateSequenceCommand := mkCreateSequenceCommand {
  cs_TenantID : ID; cs_Code : string; cs_Name : string; cs_EntityType : string;
  cs_SubType : string; cs_Prefix : string; cs_Suffix : string; cs_Template : string;
  cs_Padding : Z; cs_StartValue : Z; cs_IncrementBy : Z; cs_ResetPolicy : ResetPolicy;
}.

Record UpdateSequenceCommand := mkUpdateSequenceCommand {
  us_TenantID : ID; us_ID : ID; us_Name : string; us_Prefix : string; us_Suffix : string;
  us_Template : string; us_Padding : Z; us_ResetPolicy : ResetPolicy; us_IsActive : bool;
}.

Section Usecase.
  Context `{UnicodeTables, Env, Pg}.
  Variable refused : SeqRow -> option error.

Definition normal (s : string) : string := ToLower (TrimSpace s).

Definition CreateSequence (cmd : CreateSequenceCommand) : M SeqTable Sequence :=
  guard (bool_decide (cs_TenantID cmd = NilID)) (ESentinel ErrTenantRequired) ;;;
  let code := normal (cs_Code cmd) in
  let name := TrimSpace (cs_Name cmd) in
  let entityType := normal (cs_EntityType cmd) in
  let subType := normal (cs_SubType cmd) in
  guard (String.eqb code "" || String.eqb name "" || String.eqb entityType "" || String.eqb subType "")
    (Errorf ErrInvalidInput "code, name, entity_type, and sub_type are required") ;;;
  guard (negb (String.eqb (cs_ResetPolicy cmd) "") && negb (IsValid (cs_ResetPolicy cmd)))
    (Errorf ErrInvalidInput ("invalid reset_policy '" +:+ cs_ResetPolicy cmd +:+ "'")) ;;;
  let policy := if String.eqb (cs_ResetPolicy cmd) "" then ResetNever else cs_ResetPolicy cmd in
  let padding := if cs_Padding cmd <=? 0 then 4 else cs_Padding cmd in
  let startValue := if cs_StartValue cmd <=? 0 then 1 else cs_StartValue cmd in
  let incrementBy := if cs_IncrementBy cmd <=? 0 then 1 else cs_IncrementBy cmd in
  let template := if String.eqb (cs_Template cmd) "" then defaultTemplate else cs_Template cmd in
  check_absent (GetByCode (cs_TenantID cmd) code)
    (Errorf ErrAlreadyExists ("sequence with code '" +:+ code +:+ "' already exists")) ;;;
  check_absent (GetByEntity (cs_TenantID cmd) entityType subType)
    (Errorf ErrAlreadyExists
       ("active sequence for " +:+ entityType +:+ "/" +:+ subType +:+ " already exists")) ;;;
  id <- NewID ;;
  now <- NowUTC ;;
  Create refused {|
    seq_ID := id; seq_TenantID := cs_TenantID cmd; seq_Code := code; seq_Name := name;
    seq_EntityType := entityType; seq_SubType := subType; seq_Prefix := cs_Prefix cmd;
    seq_Suffix := cs_Suffix cmd; seq_Template := template; seq_Padding := padding;
    seq_StartValue := startValue; seq_IncrementBy := incrementBy; seq_CurrentValue := 0;
    seq_ResetPolicy := policy; seq_LastNumber := ""; seq_LastResetAt := None;
    seq_IsActive := true; seq_CreatedAt := now; seq_UpdatedAt := now |}.

Definition GetSequence (tenantID id : ID) : M SeqTable Sequence :=
  guard (bool_decide (tenantID = NilID)) (ESentinel ErrTenantRequired) ;;; GetByID tenantID id.

Definition GetSequenceByEntity (tenantID : ID) (entityType subType : string) : M SeqTable Sequence :=
  guard (bool_decide (tenantID = NilID)) (ESentinel ErrTenantRequired) ;;;
  GetByEntity tenantID (ToLower entityType) (ToLower subType).

Definition ListSequences (tenantID : ID) : M SeqTable (list Sequence) :=
  guard (bool_decide (tenantID = NilID)) (ESentinel ErrTenantRequired) ;;; List tenantID.

Definition UpdateSequence (cmd : UpdateSequenceCommand) : M SeqTable Sequence :=
  guard (bool_decide (us_TenantID cmd = NilID)) (ESentinel ErrTenantRequired) ;;;
  seq <- GetByID (us_TenantID cmd) (us_ID cmd) ;;
  guard (negb (String.eqb (us_ResetPolicy cmd) "") && negb (IsValid (us_ResetPolicy cmd)))
    (Errorf ErrInvalidInput ("invalid reset_policy '" +:+ us_ResetPolicy cmd +:+ "'")) ;;;
  now <- NowUTC ;;
  Update refused {|
    seq_ID := seq_ID seq; seq_TenantID := seq_TenantID seq; seq_Code := seq_Code seq;
    seq_Name := if String.eqb (us_Name cmd) "" then seq_Name seq else TrimSpace (us_Name cmd);
    seq_EntityType := seq_EntityType seq; seq_SubType := seq_SubType seq;
    seq_Prefix := us_Prefix cmd; seq_Suffix := us_Suffix cmd;
    seq_Template := if String.eqb (us_Template cmd) "" then seq_Template seq else us_Template cmd;
    seq_Padding := if 0 <? us_Padding cmd then us_Padding cmd else seq_Padding seq;
    seq_StartValue := seq_StartValue seq; seq_IncrementBy := seq_IncrementBy seq;
    seq_CurrentValue := seq_CurrentValue seq;
    seq_ResetPolicy := if String.eqb (us_ResetPolicy cmd) "" then seq_ResetPolicy seq
                       else us_ResetPolicy cmd;
    seq_LastNumber := seq_LastNumber seq; seq_LastResetAt := seq_LastResetAt seq;
    seq_IsActive := us_IsActive cmd; seq_CreatedAt := seq_CreatedAt seq;
    seq_UpdatedAt := now |}.

Definition DeleteSequence (tenantID id : ID) : M SeqTable unit :=
  guard (bool_decide (tenantID = NilID)) (ESentinel ErrTenantRequired) ;;; Delete tenantID id.

Definition uc_AcquireNextNumber (tenantID : ID) (entityType subType : string)
    (extraTokens : list (string * string)) : M SeqTable string :=
  guard (bool_decide (tenantID = NilID)) (ESentinel ErrTenantRequired) ;;;
  AcquireNextNumber refused tenantID (normal entityType) (normal subType) extraTokens.

Definition PreviewNextNumber (tenantID : ID) (entityType subType : string)
    (extraTokens : list (string * string)) : M SeqTable string :=
  guard (bool_decide (tenantID = NilID)) (ESentinel ErrTenantRequired) ;;;
  seq <- GetByEntity tenantID (normal entityType) (normal subType) ;;
  now <- NowUTC ;;
  let (nextVal, _) := NextValue seq now in
  ret (FormatNumber (seq_Template seq) (seq_Prefix seq) (seq_Suffix seq) nextVal
         (seq_Padding seq) now extraTokens).
End Usecase.

(** ** Histories of one counter *)

Section History.
  Context `{Pg}.

(** The period inside which a policy does not reset the counter. *)
Definition period (policy : ResetPolicy) (t : Time) : Z :=
  if String.eqb policy ResetYearly then Year t
  else if String.eqb policy ResetMonthly then month_index (day_number t)
  else if String.eqb policy ResetDaily then day_number t
  else 0.

(** The numbers a row hands out to a list of calls: time, counter, text. *)
Fixpoint acquire_all (row : SeqRow) (calls : list (Time * list (string * string))) :
    list (Time * Z * string) :=
  match calls with
  | [] => []
  | (t, extra) :: calls' =>
      let (formatted, row') := next_number row t extra in
      (t, sr_current_value row', formatted) :: acquire_all row' calls'
  end.

Definition increment (row : SeqRow) : Z :=
  if sr_increment_by row <=? 0 then 1 else sr_increment_by row.

(** [x] was handed out before [y]: its period is not later, and inside one
    period its counter is smaller. *)
Definition earlier (policy : ResetPolicy) (x y : Time * Z * string) : Prop :=
  period policy x.1.1 <= period policy y.1.1
  /\ (period policy x.1.1 = period policy y.1.1 -> x.1.2 < y.1.2).

(** Clock readings in UTC that never go back. *)
Definition clock_ok (ts : list Time) : Prop :=
  Forall (fun t => t_offset t = 0) ts
  /\ Sorted (fun t u => t_nanos t <= t_nanos u) ts.

Lemma period_mono policy t u :
  t_offset t = 0 -> t_offset u = 0 -> t_nanos t <= t_nanos u ->
  period policy t <= period policy u.
Proof.
  intros Ht Hu Hle. pose proof (day_number_mono t u Hle ltac:(congruence)) as Hd.
  pose proof (month_index_mono _ _ Hd) as Hm. unfold period.
  repeat case_match; try lia.
  unfold month_index in Hm. fold (Year t) (Month t) (Year u) (Month u) in Hm.
  pose proof (Month_range t). pose proof (Month_range u). lia.
Qed.

Lemma IsValid_cases policy : IsValid policy = true ->
  policy = ResetNever \/ policy = ResetYearly \/ policy = ResetMonthly \/ policy = ResetDaily.
Proof.
  unfold IsValid. rewrite existsb_exists. intros (p & Hp & ->%String.eqb_eq).
  simpl in Hp. naive_solver.
Qed.

(** Once a counter is running, it resets exactly when the period changes. *)
Lemma ShouldReset_period s now last :
  IsValid (seq_ResetPolicy s) = true -> seq_CurrentValue s <> 0 ->
  seq_LastResetAt s = Some last ->
  ShouldReset s now = negb (period (seq_ResetPolicy s) now =? period (seq_ResetPolicy s) last).
Proof.
  intros Hv Hc Hl. unfold ShouldReset. rewrite Hl, (proj2 (Z.eqb_neq _ _) Hc).
  destruct (IsValid_cases _ Hv) as [->|[->|[->| ->]]]; cbn -[Year Month YearDay month_index day_number].
  - done.
  - done.
  - rewrite <- negb_andb. f_equal. apply eq_true_iff_eq.
    by rewrite andb_true_iff, !Z.eqb_eq, month_index_iff.
  - rewrite <- negb_andb. f_equal. apply eq_true_iff_eq.
    by rewrite andb_true_iff, !Z.eqb_eq, same_day_iff.
Qed.

Lemma earlier_trans policy : Transitive (earlier policy).
Proof. intros x y z [H1 H2] [H3 H4]. split; [lia |]. intros E. specialize (H2 ltac:(lia)). specialize (H4 ltac:(lia)). lia. Qed.

(** What never changes in a row, and how one call moves the counter. *)
Lemma next_number_row row t extra :
  let row' := (next_number row t extra).2 in
  sr_reset_policy row' = sr_reset_policy row /\ sr_start_value row' = sr_start_value row
  /\ sr_increment_by row' = sr_increment_by row /\ sr_template row' = sr_template row
  /\ sr_prefix row' = sr_prefix row /\ sr_suffix row' = sr_suffix row
  /\ sr_padding row' = sr_padding row.
Proof. unfold next_number. by destruct (NextValue _ _). Qed.

(** The counter of a running row. *)
Lemma next_number_running row t extra r :
  IsValid (sr_reset_policy row) = true -> 1 <= sr_start_value row <= sr_current_value row ->
  sr_last_reset_at row = Some r -> sr_current_value row + increment row < 2 ^ 63 ->
  let row' := (next_number row t extra).2 in
  (period (sr_reset_policy row) t <> period (sr_reset_policy row) r
   /\ sr_current_value row' = sr_start_value row /\ sr_last_reset_at row' = Some (pg_timestamptz t))
  \/ (period (sr_reset_policy row) t = period (sr_reset_policy row) r
   /\ sr_current_value row' = sr_current_value row + increment row
   /\ sr_last_reset_at row' = Some r).
Proof.
  intros Hv Hs Hr Hb. unfold next_number, NextValue.
  rewrite (ShouldReset_period (toDomainSequence row) t r) by (cbn; auto; lia).
  cbn [toDomainSequence seq_ResetPolicy seq_StartValue seq_CurrentValue seq_IncrementBy seq_LastResetAt].
  destruct (Z.eqb_spec (period (sr_reset_policy row) t) (period (sr_reset_policy row) r)) as [E|E];
    cbn [negb].
  - right. rewrite (proj2 (Z.ltb_ge _ _)) by lia. rewrite Hr. cbn. split_and!; [done | | done].
    fold (increment row). unfold int64. apply wrap_id; [lia |].
    unfold in_width, increment in *. change (64 - 1) with 63. case_match; lia.
  - left. by rewrite orb_true_l.
Qed.

Hypothesis pg_keeps_day : forall t, t_offset t = 0 -> period ResetDaily (pg_timestamptz t) = period ResetDaily t.

Lemma pg_keeps_period policy t :
  t_offset t = 0 -> period policy (pg_timestamptz t) = period policy t.
Proof.
  intros Ht. pose proof (pg_keeps_day t Ht) as Hd. cbn in Hd.
  unfold period, Year. by rewrite !Hd.
Qed.

Lemma history_from calls row t0 f0 r :
  IsValid (sr_reset_policy row) = true -> 1 <= sr_start_value row <= sr_current_value row ->
  sr_last_reset_at row = Some r ->
  period (sr_reset_policy row) r = period (sr_reset_policy row) t0 ->
  clock_ok (t0 :: calls.*1) ->
  sr_current_value row + Z.of_nat (length calls) * increment row < 2 ^ 63 ->
  Sorted (earlier (sr_reset_policy row)) ((t0, sr_current_value row, f0) :: acquire_all row calls).
Proof.
  revert row t0 f0 r. induction calls as [|[t extra] calls IH]; intros row t0 f0 r Hv Hs Hr Hp Hc Hb.
  - repeat constructor.
  - cbn [fmap list_fmap fst] in Hc. destruct Hc as [Ho Hso].
    apply Forall_cons in Ho as [Ho0 Ho]. pose proof Ho as Ho'. apply Forall_cons in Ho' as [Hot _].
    apply Sorted_inv in Hso as [Hso Hhd]. apply HdRel_inv in Hhd.
    pose proof (period_mono (sr_reset_policy row) t0 t Ho0 Hot Hhd) as Hmono.
    assert (1 <= increment row) as Hi by (unfold increment; case_match; lia).
    cbn [length] in Hb. rewrite Nat2Z.inj_succ in Hb.
    pose proof (next_number_row row t extra) as Hsame.
    pose proof (next_number_running row t extra r Hv Hs Hr ltac:(nia)) as Hstep.
    cbn [acquire_all]. destruct (next_number row t extra) as [fm row'] eqn:En. cbn [snd] in *.
    destruct Hsame as (Hpol & Hst & Hinc & _).
    assert (increment row' = increment row) as Hinc' by (unfold increment; by rewrite Hinc).
    constructor.
    + rewrite <- Hpol. destruct Hstep as [(Hne & Hcur & Hlr)|(Heq & Hcur & Hlr)].
      * apply (IH row' t fm (pg_timestamptz t)); rewrite ?Hpol, ?Hst, ?Hinc', ?Hcur; try done; try lia; try nia.
        by apply pg_keeps_period.
      * apply (IH row' t fm r); rewrite ?Hpol, ?Hst, ?Hinc', ?Hcur; try done; try lia.
    + constructor. unfold earlier. cbn [fst snd]. split; [done |]. intros E.
      destruct Hstep as [(Hne & _)|(_ & Hcur & _)]; [congruence | lia].
Qed.

Lemma history_fresh calls row :
  IsValid (sr_reset_policy row) = true -> 1 <= sr_start_value row ->
  sr_current_value row = 0 -> sr_last_reset_at row = None ->
  clock_ok calls.*1 ->
  sr_start_value row + Z.of_nat (length calls) * increment row < 2 ^ 63 ->
  StronglySorted (earlier (sr_reset_policy row)) (acquire_all row calls).
Proof.
  intros Hv Hs Hc Hr Hclk Hb. apply Sorted_StronglySorted; [apply earlier_trans |].
  destruct calls as [|[t extra] calls]; [constructor |]. cbn [acquire_all].
  assert (1 <= increment row) as Hi by (unfold increment; case_match; lia).
  assert (NextValue (toDomainSequence row) t = (sr_start_value row, false)) as En.
  { unfold NextValue, ShouldReset. cbn. rewrite Hc, orb_true_r. by rewrite (proj2 (Z.ltb_lt _ _)) by lia. }
  pose proof (next_number_row row t extra) as Hsame.
  assert (sr_current_value (next_number row t extra).2 = sr_start_value row
          /\ sr_last_reset_at (next_number row t extra).2 = Some (pg_timestamptz t)) as [E1 E2].
  { unfold next_number. rewrite En. cbn. by rewrite Hr. }
  destruct (next_number row t extra) as [fm row']. cbn [snd] in *.
  destruct Hsame as (Hpol & Hst & Hinc & _). rewrite <- Hpol.
  apply (history_from calls row' t fm (pg_timestamptz t)); rewrite ?Hpol, ?Hst, ?E1; try done; try lia.
  - destruct Hclk as [Ho _]. apply Forall_cons in Ho as [Ho _]. by apply pg_keeps_period.
  - unfold increment in *. rewrite Hinc. cbn [length] in Hb. lia.
Qed.

(** Every number handed out is the template at the time of its call and a
    counter that did not overflow. *)
Lemma acquire_all_entries calls row :
  1 <= sr_start_value row ->
  Z.max (sr_current_value row) (sr_start_value row) + Z.of_nat (length calls) * increment row < 2 ^ 63 ->
  Forall (fun x => exists extra, (x.1.1, extra) ∈ calls /\ 1 <= x.1.2
    /\ x.2 = FormatNumber (sr_template row) (sr_prefix row) (sr_suffix row) x.1.2
               (sr_padding row) x.1.1 extra) (acquire_all row calls).
Proof.
  revert row. induction calls as [|[t extra] calls IH]; intros row Hs Hb; [constructor |].
  assert (1 <= increment row) as Hi by (unfold increment; case_match; lia).
  cbn [length] in Hb. rewrite Nat2Z.inj_succ in Hb.
  pose proof (next_number_row row t extra) as (_ & Est & Einc & Etm & Epr & Esu & Epa).
  cbn [acquire_all]. unfold next_number in *.
  assert (1 <= (NextValue (toDomainSequence row) t).1
          <= Z.max (sr_current_value row + increment row) (sr_start_value row)) as Hv.
  { unfold NextValue. cbn [toDomainSequence seq_StartValue seq_CurrentValue seq_IncrementBy].
    change (if sr_increment_by row <=? 0 then 1 else sr_increment_by row) with (increment row).
    unfold int64. destruct (ShouldReset _ _); [cbn [fst]; lia |].
    destruct (Z.ltb_spec (sr_current_value row) (sr_start_value row)); cbn [fst]; [lia |].
    rewrite wrap_id; unfold in_width; change (64 - 1) with 63; nia. }
  destruct (NextValue (toDomainSequence row) t) as [v b]. cbn [fst snd] in *. constructor.
  - exists extra. cbn. split_and!; [by left | lia | done].
  - match goal with |- Forall _ (acquire_all ?r _) => set (row' := r) in * end.
    assert (increment row' = increment row) as Ei by (unfold increment; by rewrite Einc).
    eapply Forall_impl; [apply (IH row'); [by rewrite Est |] |].
    + rewrite Ei, Est. change (sr_current_value row') with v. nia.
    + intros x (ex & Hin & Hx & ->). exists ex. split_and!; [by right | done |].
      by rewrite Etm, Epr, Esu, Epa.
Qed.

(** A period of the default template: year and month. *)
Lemma Format_period_inj t u : 0 <= Year t -> 0 <= Year u ->
  Format_2006 t = Format_2006 u -> Format_01 t = Format_01 u -> Year t = Year u /\ Month t = Month u.
Proof.
  intros Ht Hu. unfold Format_2006, Format_01.
  rewrite !(proj2 (Z.ltb_ge _ _)) by lia. intros E1 E2.
  pose proof (Month_range t). pose proof (Month_range u).
  split; eapply fmt_0wd_inj; eauto; lia.
Qed.

Lemma default_number_inj prefix t u v v' :
  0 <= Year t -> 0 <= Year u -> 0 <= v -> 0 <= v' ->
  prefix +:+ String "/" (Format_2006 t +:+ String "/" (Format_01 t +:+ String "/" (fmt_0wd 4 v)))
  = prefix +:+ String "/" (Format_2006 u +:+ String "/" (Format_01 u +:+ String "/" (fmt_0wd 4 v'))) ->
  Year t = Year u /\ Month t = Month u /\ v = v'.
Proof.
  intros Ht Hu Hv Hv' E%append_inj_l. injection E as E.
  pose proof (Month_range t). pose proof (Month_range u).
  assert (forall x, 0 <= Year x -> no_char "/" (Format_2006 x) = true) as N1.
  { intros x Hx. apply digits_no_char; [done |]. apply fmt_0wd_digits; [by case_match | done]. }
  assert (forall x, no_char "/" (Format_01 x) = true) as N2.
  { intros x. apply digits_no_char; [done |]. pose proof (Month_range x). apply fmt_0wd_digits; lia. }
  apply no_char_app_unique in E as [E1 E]; [| by apply N1..].
  apply no_char_app_unique in E as [E2 E]; [| by apply N2..].
  apply fmt_0wd_inj in E; [| lia..]. destruct (Format_period_inj t u); auto.
Qed.

(** The policies whose periods the default template prints. *)
Definition printed_period (policy : ResetPolicy) : bool :=
  existsb (String.eqb policy) [ResetNever; ResetYearly; ResetMonthly].

Lemma printed_period_spec policy t u :
  printed_period policy = true -> Year t = Year u -> Month t = Month u ->
  period policy t = period policy u.
Proof.
  unfold printed_period. rewrite existsb_exists. intros (p & Hp & ->%String.eqb_eq) Hy Hm.
  assert (month_index (day_number t) = month_index (day_number u)) as E
    by (unfold month_index; fold (Year t) (Year u) (Month t) (Month u); congruence).
  simpl in Hp. destruct Hp as [<-|[<-|[<-|[]]]]; cbn -[Year month_index]; congruence.
Qed.

(** The row prints with the default template and its tokens are harmless. *)
Definition default_row (row : SeqRow) : Prop :=
  sr_template row = defaultTemplate
  /\ no_char "{" (sr_prefix row) = true /\ no_char "{" (sr_suffix row) = true.
Definition plain_call (c : Time * list (string * string)) : Prop :=
  0 <= Year c.1 /\ wf_table c.2 = true /\ assoc "SEQ:4" c.2 = None.

Lemma history_unique calls row :
  printed_period (sr_reset_policy row) = true -> default_row row -> Forall plain_call calls ->
  1 <= sr_start_value row -> sr_current_value row = 0 -> sr_last_reset_at row = None ->
  clock_ok calls.*1 ->
  sr_start_value row + Z.of_nat (length calls) * increment row < 2 ^ 63 ->
  NoDup (acquire_all row calls).*2.
Proof.
  intros Hpp (Htm & Hpr & Hsu) Hcalls Hs Hc Hr Hclk Hb.
  assert (IsValid (sr_reset_policy row) = true) as Hv.
  { unfold printed_period in Hpp. unfold IsValid. rewrite existsb_exists in *.
    destruct Hpp as (p & Hp & E). exists p. split; [| done]. simpl in *. naive_solver. }
  pose proof (history_fresh calls row Hv Hs Hc Hr Hclk Hb) as Hsort.
  pose proof (acquire_all_entries calls row Hs ltac:(lia)) as Hent.
  rewrite Htm in Hent. revert Hsort Hent. generalize (acquire_all row calls) as l.
  induction l as [|x l IH]; intros Hsort Hent; [constructor |].
  apply StronglySorted_inv in Hsort as [Hsort Hx]. apply Forall_cons in Hent as [He Hent].
  cbn. constructor; [| by apply IH].
  intros (y & Exy & Hy)%list_elem_of_fmap.
  rewrite Forall_forall in Hx. rewrite Forall_forall in Hent. rewrite Forall_forall in Hcalls.
  destruct (Hx y Hy) as [_ Hlt].
  destruct He as (ex & Hinx & Hvx & Ex). destruct (Hent y Hy) as (ey & Hiny & Hvy & Ey).
  destruct (Hcalls _ Hinx) as (Hyx & Hwx & Hqx), (Hcalls _ Hiny) as (Hyy & Hwy & Hqy). cbn [fst snd] in *.
  rewrite Ex, Ey, !FormatNumber_default in Exy by done.
  apply default_number_inj in Exy as (E1 & E2 & E3); [| lia..].
  specialize (Hlt (printed_period_spec _ _ _ Hpp E1 E2)). lia.
Qed.
End History.

(** ** Acquisitions against the table *)

Section Runs.
  Context `{Env, Pg}.
  Variable refused : SeqRow -> option error.

(** Rows are stored under their identifier and respect the unique keys. *)
Definition keys_ok (t : SeqTable) : Prop :=
  forall k r, t !! k = Some r -> sr_id r = k /\
    forall k' r', t !! k' = Some r' -> k' <> k -> keys_clash r r' = false.

Lemma by_entity_clash tn e s r r' :
  by_entity tn e s r = true -> by_entity tn e s r' = true -> keys_clash r r' = true.
Proof.
  unfold by_entity, keys_clash. rewrite !andb_true_iff, !sql_eq_true, !String.eqb_eq.
  intros [[[[_ ->] ->] ->] _] [[[[_ ->] ->] ->] _].
  rewrite !String.eqb_refl, bool_decide_eq_true_2 by done. by rewrite orb_true_r.
Qed.

Lemma by_entity_selects t tn e s row :
  keys_ok t -> t !! sr_id row = Some row -> by_entity tn e s row = true ->
  select_one (by_entity tn e s) t = Some row.
Proof.
  intros Hk Hr Hb. eapply select_one_unique; [done | done |].
  intros k' r' Hr' Hb'. destruct (decide (k' = sr_id row)) as [->|Hne]; [congruence |].
  destruct (Hk _ _ Hr) as [_ Hc]. specialize (Hc _ _ Hr' Hne).
  rewrite (by_entity_clash tn e s) in Hc; done.
Qed.

(** The columns a key depends on. *)
Definition same_keys (r r' : SeqRow) : Prop :=
  sr_id r' = sr_id r /\ sr_tenant_id r' = sr_tenant_id r /\ sr_code r' = sr_code r
  /\ sr_entity_type r' = sr_entity_type r /\ sr_sub_type r' = sr_sub_type r.

Lemma keys_clash_sym a b : keys_clash a b = keys_clash b a.
Proof.
  unfold keys_clash. rewrite (String.eqb_sym (sr_code a)), (String.eqb_sym (sr_entity_type a)),
    (String.eqb_sym (sr_sub_type a)). f_equal. apply bool_decide_ext. split; congruence.
Qed.

Lemma keys_clash_same a a' b : same_keys a a' -> keys_clash a' b = keys_clash a b.
Proof. intros (_ & E1 & E2 & E3 & E4). unfold keys_clash. by rewrite E1, E2, E3, E4. Qed.

Lemma keys_ok_rewrite t r r' :
  keys_ok t -> t !! sr_id r = Some r -> same_keys r r' -> keys_ok (<[sr_id r' := r']> t).
Proof.
  intros Hk Hr Hs k x. pose proof Hs as [Eid _]. rewrite Eid. destruct (Hk _ _ Hr) as [_ Hc].
  rewrite lookup_insert_Some. intros [[<- <-]|[Hne Hx]].
  - split; [done |]. intros k' y. rewrite lookup_insert_Some. intros [[<- _]|[_ Hy]] Hk'; [done |].
    rewrite (keys_clash_same r) by done. eauto.
  - destruct (Hk _ _ Hx) as [Ek Hcx]. split; [done |]. intros k' y.
    rewrite lookup_insert_Some. intros [[<- <-]|[Hne' Hy]] Hk'; [| eauto].
    rewrite keys_clash_sym, (keys_clash_same r), keys_clash_sym by done. eauto.
Qed.

Lemma next_number_keys row t extra : same_keys row (next_number row t extra).2.
Proof. unfold next_number, same_keys. by destruct (NextValue _ _). Qed.

(** What an acquisition does to the table: nothing, or the selected row moves on. *)
Definition advanced (tn : ID) (e s : string) (x : list (string * string)) (t t' : SeqTable) : Prop :=
  t' = t \/ exists k row now, t !! k = Some row /\ by_entity tn e s row = true /\ t' = <[sr_id row := (next_number row now x).2]> t.

Lemma by_entity_tenant tn e s row : by_entity tn e s row = true -> sr_tenant_id row = tn.
Proof. unfold by_entity. rewrite !andb_true_iff, sql_eq_true. naive_solver. Qed.

Lemma AcquireNextNumber_advanced tn e s x w : advanced tn e s x (w_db w) (w_db (AcquireNextNumber refused tn e s x w).2).
Proof.
  apply writes_last_out; [by apply WithTx_writes_last | by left |]. intros a w' E. apply WithTx_commit in E as (w1 & E & ->); [| done].
  unfold get_one in E. step_inv. destruct (select_one _ _) as [row|] eqn:Es; [| done].
  match goal with X : Ok _ = Ok _ |- _ => injection X as <- <- end.
  apply select_one_Some in Es as [Hp [k Hk]].
  cbn [w_db tick] in *. set (now := UTC _) in E. pose proof (next_number_keys row now x) as Hn.
  destruct (next_number row now x) as [n row'] eqn:En. step_inv. unfold write_row in *. destruct (refused row'); [done |]. simplify_eq.
  right. exists k, row, now. rewrite En. cbn [snd] in *. destruct Hn as [<- _]. by split_and!.
Qed.

Lemma uc_Acquire_advanced `{UnicodeTables} tn e s x w :
  advanced tn (normal e) (normal s) x (w_db w) (w_db (uc_AcquireNextNumber refused tn e s x w).2).
Proof. unfold uc_AcquireNextNumber, bind, guard. destruct (bool_decide (tn = NilID)); [by left | apply AcquireNextNumber_advanced]. Qed.

(** The keys stay, and so do the rows of other tenants. *)
Lemma advanced_kept tn e s x t t' : advanced tn e s x t t' -> keys_ok t ->
  keys_ok t' /\ forall tn', tn <> tn' -> rows_in sr_tenant_id tn' t' = rows_in sr_tenant_id tn' t.
Proof.
  intros [->|(k & row & now & Hk & Hp & ->)] Hok; [done |]. destruct (Hok _ _ Hk) as [<- _].
  pose proof (next_number_keys row now x) as Hs. pose proof Hs as (Eid & Et & _). split.
  - rewrite <- Eid. by apply (keys_ok_rewrite _ row).
  - intros tn' Hne. apply by_entity_tenant in Hp. apply rows_in_insert; [congruence |]. intros old Ho. congruence.
Qed.

(** One acquisition: it fails and changes nothing, or it hands out the number
    of the selected row at the clock reading and moves only that row. *)
Lemma acquire_step tn e s extra row w r w' :
  keys_ok (w_db w) -> w_db w !! sr_id row = Some row -> by_entity tn e s row = true ->
  AcquireNextNumber refused tn e s extra w = (r, w') ->
  (w_tick w < w_tick w')%nat /\
  ((is_Ok r = false /\ w_db w' = w_db w)
   \/ exists k, (w_tick w <= k < w_tick w')%nat
       /\ r = Ok (next_number row (UTC (env_now k)) extra).1
       /\ w_db w' = <[sr_id row := (next_number row (UTC (env_now k)) extra).2]> (w_db w)).
Proof.
  intros Hk Hr Hb. unfold AcquireNextNumber, WithTx, get_one, query, bind, NowUTC, ret.
  cbn -[next_number select_one by_entity].
  destruct (env_fault (w_tick w)); [intros [= <- <-]; cbn; auto |].
  destruct (env_fault (S (w_tick w))); [intros [= <- <-]; cbn; auto with lia |].
  rewrite (by_entity_selects (w_db w) tn e s row) by done. cbn -[next_number].
  destruct (next_number row _ extra) as [fm row'] eqn:En.
  pose proof (next_number_keys row (UTC (env_now (S (S (w_tick w))))) extra) as (Eid & _).
  rewrite En in Eid. cbn [snd] in Eid. unfold write_row. cbn -[next_number].
  destruct (env_fault (S (S (S (w_tick w))))); [intros [= <- <-]; cbn; auto with lia |].
  destruct (refused row'); [intros [= <- <-]; cbn; auto with lia |]. cbn -[next_number].
  destruct (env_fault _); intros [= <- <-]; cbn -[next_number]; split; try lia; [by left | right].
  exists (S (S (w_tick w))). rewrite En, Eid. cbn. split_and!; [lia.. | done | done].
Qed.

(** A list of calls with the caller's tokens; the outcome of each. *)
Fixpoint acquire_many (tn : ID) (e s : string) (calls : list (list (string * string)))
    (w : World SeqTable) : list (res string) * World SeqTable :=
  match calls with
  | [] => ([], w)
  | extra :: calls' =>
      let (r, w1) := AcquireNextNumber refused tn e s extra w in
      let (rs, w2) := acquire_many tn e s calls' w1 in
      (r :: rs, w2)
  end.

Definition oks {A} (rs : list (res A)) : list A :=
  omap (fun r => match r with Ok a => Some a | _ => None end) rs.

Hypothesis clock_mono : forall i j, (i <= j)%nat -> t_nanos (env_now i) <= t_nanos (env_now j).

(** The numbers that were returned are those of one history of the counter. *)
Lemma acquire_many_history tn e s calls row w :
  keys_ok (w_db w) -> w_db w !! sr_id row = Some row -> by_entity tn e s row = true ->
  exists hist, oks (acquire_many tn e s calls w).1 = (acquire_all row hist).*2
    /\ sublist hist.*2 calls /\ clock_ok hist.*1
    /\ Forall (fun t => exists k, (w_tick w <= k)%nat /\ t = UTC (env_now k)) hist.*1.
Proof.
  revert row w. induction calls as [|extra calls IH]; intros row w Hk Hr Hb.
  - exists []. repeat split; constructor.
  - cbn [acquire_many]. destruct (AcquireNextNumber refused tn e s extra w) as [r w1] eqn:Ea.
    destruct (acquire_step tn e s extra row w r w1 Hk Hr Hb Ea) as [Ht [[Hf Hdb]|(k & Hkt & -> & Hdb)]].
    + destruct (IH row w1) as (h & Eh & Hsub & Hclk & Hts); [by rewrite Hdb.. | done |].
      exists h. destruct (acquire_many tn e s calls w1). cbn [fst] in *.
      split_and!; [destruct r; by cbn | by apply sublist_cons | done |].
      eapply Forall_impl; [done |]. intros t (j & ? & ->). exists j. split; [lia | done].
    + set (row' := (next_number row (UTC (env_now k)) extra).2) in *.
      pose proof (next_number_keys row (UTC (env_now k)) extra) as Hsk. fold row' in Hsk.
      pose proof Hsk as (Eid & Etn & _ & Een & Est).
      destruct (IH row' w1) as (h & Eh & Hsub & [Ho Hso] & Hts).
      { rewrite Hdb, <- Eid. by apply (keys_ok_rewrite _ row). }
      { by rewrite Hdb, Eid, lookup_insert_eq. }
      { unfold by_entity in *. rewrite Etn, Een, Est. unfold row', next_number. by destruct (NextValue _ _). }
      exists ((UTC (env_now k), extra) :: h). destruct (acquire_many tn e s calls w1). cbn [fst] in *.
      cbn [acquire_all fmap list_fmap fst snd oks omap list_omap].
      fold row'. destruct (next_number row (UTC (env_now k)) extra) as [fm rw] eqn:En. cbn [fst snd] in *.
      split_and!.
      * cbn. f_equal. exact Eh.
      * by apply sublist_skip.
      * split; [by constructor |]. constructor; [done |].
        destruct h as [|[t2 e2] h]; constructor. cbn in Hts. apply Forall_cons in Hts as [(j & ? & ->) _].
        cbn. apply clock_mono. lia.
      * constructor; [exists k; split; [lia | done] |].
        eapply Forall_impl; [done |]. intros t (j & ? & ->). exists j. split; [lia | done].
Qed.
End Runs.

(** ** Properties of the numbering store *)

(** A row that satisfies the hypotheses, for the witnesses. *)
Definition fresh_row (policy : ResetPolicy) (template : string) : SeqRow := {|
  sr_id := 7%N; sr_tenant_id := 3%N; sr_code := "inv"; sr_name := "Invoice";
  sr_entity_type := "document"; sr_sub_type := "invoice"; sr_prefix := "INV"; sr_suffix := "";
  sr_template := template; sr_padding := 4; sr_start_value := 1; sr_increment_by := 1;
  sr_current_value := 0; sr_reset_policy := policy; sr_last_number := None;
  sr_last_reset_at := None; sr_is_active := true; sr_created_at := jan_2026; sr_updated_at := jan_2026 |}.

Lemma keys_ok_singleton row : keys_ok {[sr_id row := row]}.
Proof.
  intros k r Hr. apply lookup_singleton_Some in Hr as [<- <-]. split; [done |].
  intros k' r' [<- _]%lookup_singleton_Some. done.
Qed.

(** C31: no document number is handed out twice.  Take a process whose time zone is
    UTC, in which the driver returns timestamps with offset zero ([pgx 0]), a clock
    that does not run backwards, and a table that respects its keys.  For a fresh
    sequence (no number handed out yet) with the default template, a prefix without
    braces and a yearly, monthly or no reset, the numbers any list of acquisitions
    returns are distinct, whatever round trips to the database fail in between, as
    long as the caller's tokens have no braces and do not redefine SEQ:4 and the
    counter stays below 2^63. *)
Theorem acquired_numbers_distinct `{Env} (refused : SeqRow -> option error)
    (tn : ID) (e s : string) (calls : list (list (string * string))) (row : SeqRow)
    (w : World SeqTable) :
  let Hpg := pgx 0 in
  (forall i j, (i <= j)%nat -> t_nanos (env_now i) <= t_nanos (env_now j)) ->
  (forall k, 0 <= Year (UTC (env_now k))) ->
  keys_ok (w_db w) -> w_db w !! sr_id row = Some row -> by_entity tn e s row = true ->
  default_row row -> printed_period (sr_reset_policy row) = true ->
  1 <= sr_start_value row -> sr_current_value row = 0 -> sr_last_reset_at row = None ->
  Forall (fun extra => wf_table extra = true /\ assoc "SEQ:4" extra = None) calls ->
  sr_start_value row + Z.of_nat (length calls) * increment row < 2 ^ 63 ->
  NoDup (oks (acquire_many refused tn e s calls w).1).
Proof.
  intros Hpg Hclock Hyear Hk Hr Hb Hdef Hpp Hs Hc Hl Hcalls Hbound.
  assert (forall t, t_offset t = 0 -> period ResetDaily (pg_timestamptz t) = period ResetDaily t) as Hday by exact pgx_keeps_day.
  destruct (acquire_many_history refused Hclock tn e s calls row w Hk Hr Hb)
    as (h & -> & Hsub & Hclk & Hts).
  pose proof (sublist_length _ _ Hsub) as Hlen. rewrite length_fmap in Hlen.
  assert (1 <= increment row) as Hi by (unfold increment; case_match; lia).
  apply history_unique; try done; [| nia].
  rewrite Forall_fmap in Hts. rewrite Forall_forall in Hts. rewrite Forall_forall in Hcalls. apply Forall_forall.
  intros [t ex] Hin. destruct (Hts _ Hin) as (k & _ & Et). cbn in Et. subst t.
  split; [apply Hyear |]. apply Hcalls. eapply elem_of_sublist; [| done].
  apply list_elem_of_fmap. by exists (UTC (env_now k), ex).
Qed.

Lemma acquired_numbers_distinct_witness :
  let row := fresh_row ResetMonthly defaultTemplate in
  let Hpg := pgx 0 in let Henv := calm jan_2026 (3 * 86400 * Second) in
  let out := oks (acquire_many (fun _ => None) 3%N "document" "invoice" [[]; [("X", "y")]; []; []]
                    (mkWorld {[7%N := row]} 0%nat)).1 in
  out = ["INV/2026/01/0001"; "INV/2026/02/0001"; "INV/2026/02/0002"; "INV/2026/03/0001"] /\ NoDup out.
Proof.
  intros row Hpg Henv. split; [by vm_compute |].
  apply (acquired_numbers_distinct (fun _ => None) 3%N "document" "invoice" _ row);
    [| | | by vm_compute | by vm_compute | by vm_compute | by vm_compute | by vm_compute
     | by vm_compute | by vm_compute | | by vm_compute].
  - intros i j Hij. cbn. unfold Second. lia.
  - intros k. assert (month_index 0 <= month_index (day_number (UTC (env_now k)))) as Hm.
    { apply month_index_mono. unfold day_number. cbn. unfold Second. apply Z.div_pos; lia. }
    unfold month_index in Hm. fold (Year (UTC (env_now k))) (Month (UTC (env_now k))) in Hm.
    pose proof (Month_range (UTC (env_now k))).
    assert (12 * (civil 0).1.1 + (civil 0).1.2 = 23641) as E by by vm_compute. lia.
  - apply (keys_ok_singleton row).
  - repeat constructor.
Defined.

(** a counter never repeats inside its period.  For every valid reset
    policy, the calls on a fresh sequence get counters that increase strictly
    inside one period (year, month, day, or for ever), and the periods
    themselves never go back. *)
Theorem counters_increase `{Pg} (calls : list (Time * list (string * string))) (row : SeqRow) :
  (forall t, t_offset t = 0 -> period ResetDaily (pg_timestamptz t) = period ResetDaily t) ->
  IsValid (sr_reset_policy row) = true -> 1 <= sr_start_value row ->
  sr_current_value row = 0 -> sr_last_reset_at row = None -> clock_ok calls.*1 ->
  sr_start_value row + Z.of_nat (length calls) * increment row < 2 ^ 63 ->
  StronglySorted (earlier (sr_reset_policy row)) (acquire_all row calls).
Proof. intros Hday. by apply history_fresh. Qed.

Lemma counters_increase_witness :
  let row := fresh_row ResetDaily "{SEQ}" in let Hpg := pgx 0 in
  let calls := [(jan_2026, []); (jan_2026, []); (Add jan_2026 (86400 * Second), [])] in
  (acquire_all row calls).*2 = ["0001"; "0002"; "0001"]
  /\ StronglySorted (earlier ResetDaily) (acquire_all row calls).
Proof.
  intros row Hpg calls. split; [by vm_compute |].
  apply (counters_increase calls row);
    [| by vm_compute | by vm_compute | by vm_compute | by vm_compute | | by vm_compute].
  - intros t Ht. cbn. by apply pgx_keeps_day.
  - split; [repeat constructor | repeat (constructor; [| by vm_compute])]; repeat constructor; by vm_compute.
Defined.

(** acquiring a number is all or nothing.  For every pattern of database
    failures, a call that fails leaves the table as it was; a call that
    succeeds returns the formatted number of the one active row for the tenant
    and entity, stores its new counter in that row, and leaves every other row
    alone. *)
Theorem AcquireNextNumber_atomic `{Env, Pg} (refused : SeqRow -> option error)
    (tn : ID) (e s : string) (extra : list (string * string)) (w : World SeqTable) :
  keys_ok (w_db w) ->
  match AcquireNextNumber refused tn e s extra w with
  | (Ok number, w') =>
      exists row k, w_db w !! sr_id row = Some row /\ by_entity tn e s row = true
        /\ number = (next_number row (UTC (env_now k)) extra).1
        /\ w_db w' = <[sr_id row := (next_number row (UTC (env_now k)) extra).2]> (w_db w)
        /\ sr_last_number (next_number row (UTC (env_now k)) extra).2 = Some number
        /\ keys_ok (w_db w')
  | (_, w') => w_db w' = w_db w
  end.
Proof.
  intros Hk. destruct (AcquireNextNumber refused tn e s extra w) as [r w'] eqn:Ea.
  destruct (select_one (by_entity tn e s) (w_db w)) as [row|] eqn:Es.
  - apply select_one_Some in Es as [Hb [k Hr]].
    assert (sr_id row = k) as <- by (by destruct (Hk _ _ Hr)).
    destruct (acquire_step refused tn e s extra row w r w' Hk Hr Hb Ea)
      as [_ [[Hf Hdb]|(j & _ & -> & Hdb)]]; [by destruct r |].
    exists row, j. split_and!; try done.
    + unfold next_number. by destruct (NextValue _ _).
    + pose proof (next_number_keys row (UTC (env_now j)) extra) as Hsk. rewrite Hdb.
      destruct Hsk as [Eid Hsk]. rewrite <- Eid. by apply (keys_ok_rewrite _ row).
  - assert (is_Ok r = false) as Hf.
    { revert Ea. unfold AcquireNextNumber, WithTx, bind, get_one, query. cbn -[select_one by_entity].
      rewrite Es. repeat case_match; naive_solver. }
    enough (w_db w' = w_db w) by (by destruct r).
    by eapply (WithTx_rollback Background).
Qed.

Lemma AcquireNextNumber_atomic_witness :
  let row := fresh_row ResetNever defaultTemplate in
  let Hpg := pgx 0 in let Henv := calm jan_2026 Second in
  match AcquireNextNumber (fun _ => None) 3%N "document" "invoice" [] (mkWorld {[7%N := row]} 0%nat) with
  | (Ok number, w') => number = "INV/2026/01/0001" /\ keys_ok (w_db w')
  | _ => False
  end.
Proof.
  intros row Hpg Henv.
  pose proof (AcquireNextNumber_atomic (fun _ => None) 3%N "document" "invoice" []
                (mkWorld {[7%N := row]} 0%nat) (keys_ok_singleton row)) as T.
  destruct (AcquireNextNumber _ _ _ _ _ _) as [[number|?|?] w'] eqn:E; [| by vm_compute in E..].
  split; [| naive_solver]. apply (f_equal (fun x => x.1)) in E. vm_compute in E. congruence.
Defined.

(** a preview is what the next acquisition returns.  When the same row is
    read at the same instant, [PreviewNextNumber] returns exactly the number
    [AcquireNextNumber] hands out, and changes nothing. *)
Theorem Preview_is_next `{UnicodeTables, Env, Pg} (refused : SeqRow -> option error)
    (tn : ID) (e s : string) (extra : list (string * string)) (w wp : World SeqTable) (p : string) :
  keys_ok (w_db w) ->
  PreviewNextNumber tn e s extra w = (Ok p, wp) ->
  w_db wp = w_db w /\
  forall wa wa' n, w_db wa = w_db w -> env_now (S (S (w_tick wa))) = env_now (S (w_tick w)) ->
    uc_AcquireNextNumber refused tn e s extra wa = (Ok n, wa') -> n = p.
Proof.
  intros Hk. unfold PreviewNextNumber, GetByEntity, get_one, query, bind, guard, NowUTC, fail, ret.
  destruct (bool_decide (tn = NilID)) eqn:Etn; [done |].
  destruct (env_fault (w_tick w)); [done |].
  destruct (select_one _ (w_db w)) as [row|] eqn:Es; [| done].
  cbn -[NextValue FormatNumber normal]. destruct (NextValue _ _) as [v b] eqn:Env1.
  intros [= <- <-]. split; [done |]. intros wa wa' n Hdb Hnow.
  unfold uc_AcquireNextNumber, bind, guard, ret. rewrite Etn.
  unfold AcquireNextNumber, WithTx, get_one, query, bind, NowUTC, ret.
  cbn -[next_number select_one by_entity normal].
  destruct (env_fault (w_tick wa)); [done |]. destruct (env_fault (S (w_tick wa))); [done |].
  rewrite Hdb, Es. cbn -[next_number select_one by_entity normal]. rewrite Hnow.
  unfold next_number. rewrite Env1. cbn -[FormatNumber normal]. unfold write_row.
  repeat case_match; naive_solver.
Qed.

Lemma Preview_is_next_witness :
  let row := fresh_row ResetNever defaultTemplate in
  let Hpg := pgx 0 in let Henv := calm jan_2026 0 in let Huni := ascii_tables in
  (uc_AcquireNextNumber (fun _ => None) 3%N " Document" "INVOICE" [] (mkWorld {[7%N := row]} 0%nat)).1
  = Ok "INV/2026/01/0001".
Proof.
  intros row Hpg Henv Huni. set (w := mkWorld {[7%N := row]} 0%nat).
  destruct (uc_AcquireNextNumber (fun _ => None) 3%N " Document" "INVOICE" [] w) as [r wa] eqn:Ea.
  assert (exists n, r = Ok n) as [n ->]
    by (apply (f_equal (fun x => x.1)) in Ea; vm_compute in Ea; eauto).
  destruct (PreviewNextNumber 3%N " Document" "INVOICE" [] w) as [rp wp] eqn:Ep.
  assert (rp = Ok "INV/2026/01/0001") as ->
    by (apply (f_equal (fun x => x.1)) in Ep; vm_compute in Ep; congruence).
  cbn [fst]. f_equal.
  by apply (proj2 (Preview_is_next (fun _ => None) 3%N " Document" "INVOICE" [] w wp _ (keys_ok_singleton row) Ep) w wa n).
Defined.

(** two settings that repeat numbers.  With the daily reset the default
    template prints no day, so the first numbers of two days of a month
    coincide.  And because timestamps come back in the zone of the process
    while the clock is read in UTC, a process seven hours east of UTC resets a
    daily counter twice in the same UTC day, even with the day printed. *)
Theorem daily_numbers_repeat :
  ((@acquire_all (pgx 0) (fresh_row ResetDaily defaultTemplate)
      [(jan_2026, []); (Add jan_2026 (86400 * Second), [])]).*2
   = ["INV/2026/01/0001"; "INV/2026/01/0001"])
  /\ let t := Add jan_2026 (8 * Hour) in
     (@acquire_all (pgx (7 * 3600)) (fresh_row ResetDaily "{YYYY}{MM}{DD}-{SEQ}")
        [(t, []); (Add t Minute, [])]).*2
     = ["20260115-0001"; "20260115-0001"].
Proof. split; by vm_compute. Qed.
