(* ===== verification/EventBus.v ===== *)
(** * The in-memory event bus

    [internal/core/domain/event] (events, the [Bus] and [Handler] contracts)
    and [pkg/eventbus/eventbus.go].  Handlers are code of other components:
    arbitrary computations that may fail or panic. *)

From S2P Require Import Prelude GoStrings GoTime Sdk.
From Stdlib Require Import Permutation.
#[local] Open Scope string_scope.
#[local] Open Scope list_scope.
#[local] Open Scope Z_scope.

(** [event.BaseEvent], the only implementation of [event.Event]. *)
Record BaseEvent := mkBaseEvent {
  be_ID : ID;
  be_Tenant : ID;
  be_Type : string;
  be_AggType : string;
  be_AggID : ID;
  be_Data : AnyMap;
  be_Timestamp : Time;
}.

Definition NewBaseEvent `{Env} {D} (tenantID : ID) (eventType aggregateType : string)
    (aggregateID : ID) (payload : AnyMap) : M D BaseEvent :=
  id <- NewID_ignore ;;
  now <- NowUTC ;;
  ret (mkBaseEvent id tenantID eventType aggregateType aggregateID payload now).

(** [event.Handler]. *)
Definition Handler (D : Type) : Type := Ctx -> BaseEvent -> M D unit.

(** ** The contract

    What the users of a bus rely on: publishing never panics, whatever the
    handlers do. *)
Class Bus (D : Type) := {
  bus_Publish : Ctx -> BaseEvent -> M D unit;
  bus_no_panic : forall ctx evt w e, (bus_Publish ctx evt w).1 <> Panic e;
}.

(** ** The implementation *)

Abbreviation inMemoryBus D := (gmap string (list (Handler D))).

Section InMemory.
  Context {D : Type}.

Definition NewInMemoryBus : inMemoryBus D := ∅.

Definition Subscribe (b : inMemoryBus D) (eventType : string) (handler : Handler D) : inMemoryBus D :=
  <[eventType := default [] (b !! eventType) ++ [handler]]> b.

(** The test of the wildcard loop on one pattern. *)
Definition wildcard_matches (pattern eventType : string) : bool :=
  if String.eqb pattern "*" then true
  else match CutSuffix pattern ".*" with
       | Some prefix => HasPrefix eventType (prefix +:+ ".")
       | None => false
       end.

(** The handlers to call; [iter] is the order in which Go iterates over the
    keys of the map. *)
Definition targets (b : inMemoryBus D) (iter : list string) (eventType : string) : list (Handler D) :=
  default [] (b !! eventType)
  ++ concat (map (fun pattern => if wildcard_matches pattern eventType
                                 then default [] (b !! pattern) else []) iter).

(** The deferred [recover] turns a panic into an error. *)
Definition executeHandlerSafely (ctx : Ctx) (h : Handler D) (evt : BaseEvent) : M D unit := fun w =>
  match h ctx evt w with
  | (Panic e, w') => (Err (ENew ("handler panic: " +:+ Error e)), w')
  | r => r
  end.

(** The loop over the targets; the number of failures. *)
Fixpoint run_handlers (ctx : Ctx) (hs : list (Handler D)) (evt : BaseEvent) : M D Z :=
  match hs with
  | [] => ret 0
  | h :: hs' =>
      r <- attempt (executeHandlerSafely ctx h evt) ;;
      n <- run_handlers ctx hs' evt ;;
      ret (match r with inl _ => n | inr _ => n + 1 end)
  end.

Definition Publish (b : inMemoryBus D) (iter : list string) (ctx : Ctx) (evt : BaseEvent) : M D unit :=
  failed <- run_handlers ctx (targets b iter (be_Type evt)) evt ;;
  if 0 <? failed then fail (ENew ("event handling errors: " +:+ Itoa failed +:+ " handler(s) failed"))
  else ret tt.

(** ** Reference: the subscriptions in order *)

(** A bus as the list of its subscriptions. *)
Definition of_subs (subs : list (string * Handler D)) : inMemoryBus D :=
  fold_left (fun b s => Subscribe b s.1 s.2) subs NewInMemoryBus.

(** Which subscriptions receive an event: those of its type, those of everything,
    and those of a prefix that a dot follows in the type. *)
Inductive receives : string -> string -> Prop :=
  | receives_type t : receives t t
  | receives_all t : receives "*" t
  | receives_prefix p rest : receives (p +:+ ".*") (p +:+ "." +:+ rest).

(** An event type that is not a pattern.  (One that is would be delivered to its own
    subscribers twice.) *)
Definition plain_type (eventType : string) : Prop := eventType <> "*" /\ forall p, eventType <> p +:+ ".*".

Lemma wildcard_matches_spec p t :
  wildcard_matches p t = true <-> p = "*" \/ exists q rest, p = q +:+ ".*" /\ t = q +:+ "." +:+ rest.
Proof.
  unfold wildcard_matches. destruct (String.eqb_spec p "*") as [->|Hp]; [split; auto |]. destruct (CutSuffix p ".*") as [q|] eqn:Ec.
  - apply CutSuffix_spec in Ec as ->. rewrite HasPrefix_spec. setoid_rewrite append_assoc. split.
    + intros [rest ->]. right. by exists q, rest.
    + intros [?|(q' & rest & Eq & ->)]; [done |]. assert (CutSuffix (q +:+ ".*") ".*" = Some q') as E by by apply CutSuffix_spec.
      rewrite (proj2 (CutSuffix_spec _ _ q) eq_refl) in E. injection E as ->. by exists rest.
  - split; [done |]. intros [?|(q & rest & -> & _)]; [done |]. by rewrite (proj2 (CutSuffix_spec _ _ q) eq_refl) in Ec.
Qed.

Lemma receives_spec p t : receives p t <-> String.eqb p t || wildcard_matches p t = true.
Proof.
  rewrite orb_true_iff, String.eqb_eq, wildcard_matches_spec. split.
  - intros [t'|t'|q rest]; [by left | right; by left | right; right; by exists q, rest].
  - intros [->|[->|(q & rest & -> & ->)]]; constructor.
Qed.

#[export] Instance receives_dec p t : Decision (receives p t).
Proof. refine (cast_if (decide (String.eqb p t || wildcard_matches p t = true))); by rewrite receives_spec. Defined.

Lemma of_subs_app subs p h : of_subs (subs ++ [(p, h)]) = Subscribe (of_subs subs) p h.
Proof. unfold of_subs. by rewrite fold_left_app. Qed.

Lemma of_subs_lookup subs p :
  default [] (of_subs subs !! p) = (filter (fun s => s.1 = p) subs).*2.
Proof.
  induction subs as [|[q h] subs IH] using rev_ind; [done |].
  rewrite of_subs_app, filter_app, fmap_app, <- IH. unfold Subscribe. rewrite filter_cons. cbn [fst].
  destruct (decide (q = p)) as [->|Hne].
  - by rewrite lookup_insert_eq.
  - rewrite lookup_insert_ne by done. by rewrite filter_nil, app_nil_r.
Qed.

Lemma of_subs_dom subs p : is_Some (of_subs subs !! p) <-> p ∈ subs.*1.
Proof.
  induction subs as [|[q h] subs IH] using rev_ind.
  - split; [intros [x Hx]; change (of_subs []) with (∅ : inMemoryBus D) in Hx; by rewrite lookup_empty in Hx | by intros ?%elem_of_nil].
  - rewrite of_subs_app. unfold Subscribe.
    rewrite lookup_insert_is_Some, fmap_app, elem_of_app, IH. cbn. rewrite list_elem_of_singleton.
    destruct (decide (q = p)) as [->|]; naive_solver.
Qed.

Lemma wildcard_not_exact p t : plain_type t -> wildcard_matches p t = true -> p <> t.
Proof. intros [Ha Hp] [->|(q & rest & -> & _)]%wildcard_matches_spec <-; [done | by apply (Hp q)]. Qed.

(** Collecting by key is collecting by subscription. *)
Lemma concat_by_key (q : string -> bool) (keys : list string) (subs : list (string * Handler D)) :
  NoDup keys -> (forall s, s ∈ subs -> q s.1 = true -> s.1 ∈ keys) ->
  Permutation (concat (map (fun p => if q p then (filter (fun s => s.1 = p) subs).*2 else []) keys))
              (filter (fun s => q s.1 = true) subs).*2.
Proof.
  revert keys. induction subs as [|[p h] subs IH]; intros keys Hnd Hin.
  - clear Hin. rewrite !filter_nil. induction keys as [|k keys IHk]; [done |]. cbn.
    apply NoDup_cons in Hnd as [_ Hnd]. destruct (q k); by apply IHk.
  - specialize (IH keys Hnd ltac:(intros; apply Hin; [by right | done])).
    rewrite filter_cons. cbn [fst]. destruct (decide (q p = true)) as [Hq|Hq].
    + assert (p ∈ keys) as Hp by (apply (Hin (p, h)); [by left | done]).
      cbn [fmap list_fmap snd]. rewrite <- IH. clear IH Hin.
      induction keys as [|k keys IHk]; [by apply not_elem_of_nil in Hp |].
      apply NoDup_cons in Hnd as [Hk Hnd]. cbn [map concat]. rewrite filter_cons. cbn [fst].
      destruct (decide (p = k)) as [->|Hne].
      * rewrite Hq. cbn [fmap list_fmap snd app]. apply perm_skip, Permutation_app_head. clear -Hk.
        induction keys as [|k' keys IHk']; [done |]. apply not_elem_of_cons in Hk as [Hne Hk].
        cbn [map concat]. rewrite filter_cons. cbn [fst]. rewrite decide_False by done.
        by apply Permutation_app_head, IHk'.
      * apply elem_of_cons in Hp as [?|Hp]; [done |]. rewrite IHk by done.
        by rewrite Permutation_middle.
    + rewrite <- IH. clear IH Hin. induction keys as [|k keys IHk]; [done |].
      apply NoDup_cons in Hnd as [Hk Hnd]. cbn [map concat]. rewrite filter_cons. cbn [fst].
      rewrite IHk by done. destruct (decide (p = k)) as [->|]; [| done].
      destruct (q k); [done |]. done.
Qed.

Lemma filter_split_or (A : Type) (P Q : A -> bool) (l : list A) :
  (forall x, P x = true -> Q x = true -> False) ->
  Permutation (filter (fun x => P x = true) l ++ filter (fun x => Q x = true) l)
              (filter (fun x => P x || Q x = true) l).
Proof.
  intros Hd. induction l as [|x l IH]; [done |]. rewrite !filter_cons. specialize (Hd x).
  repeat case_decide; try (by destruct (P x), (Q x)); cbn [app].
  - exfalso. auto.
  - by apply perm_skip.
  - rewrite <- Permutation_middle. by apply perm_skip.
Qed.

(** The keys of the map, in some iteration order. *)
Definition iterates (b : inMemoryBus D) (iter : list string) : Prop :=
  NoDup iter /\ forall k, k ∈ iter <-> is_Some (b !! k).

Lemma targets_Permutation subs iter t :
  iterates (of_subs subs) iter -> plain_type t ->
  Permutation (targets (of_subs subs) iter t) (filter (fun s => receives s.1 t) subs).*2.
Proof.
  intros [Hnd Hdom] Hpl. unfold targets. rewrite of_subs_lookup.
  rewrite (map_ext _ (fun p => if wildcard_matches p t
             then (filter (fun s => s.1 = p) subs).*2 else []))
    by (intros p; by rewrite of_subs_lookup).
  rewrite (concat_by_key (fun p => wildcard_matches p t)); [| done |].
  - rewrite <- fmap_app. apply fmap_Permutation.
    rewrite (list_filter_iff (fun s => receives s.1 t) (fun s => String.eqb s.1 t || wildcard_matches s.1 t = true)) by (intros s; apply receives_spec).
    rewrite <- (filter_split_or _ (fun s => String.eqb s.1 t) (fun s => wildcard_matches s.1 t)).
    + apply Permutation_app_tail. apply reflexive_eq, list_filter_iff.
      intros s. by rewrite String.eqb_eq.
    + intros s E Hw. apply String.eqb_eq in E. by eapply wildcard_not_exact.
  - intros s Hs Hq. apply Hdom, of_subs_dom, list_elem_of_fmap. eauto.
Qed.

(** The outcome of each handler when all of them run one after the other, and
    the world at the end. *)
Fixpoint replay (ctx : Ctx) (evt : BaseEvent) (hs : list (Handler D)) (w : World D) :
    list bool * World D :=
  match hs with
  | [] => ([], w)
  | h :: hs' =>
      let (r, w1) := h ctx evt w in
      let (oks, w2) := replay ctx evt hs' w1 in
      (is_Ok r :: oks, w2)
  end.

Definition failures (outcomes : list bool) : Z :=
  Z.of_nat (length (filter (fun b => b = false) outcomes)).

Lemma run_handlers_replay ctx evt hs w :
  run_handlers ctx hs evt w
  = (Ok (failures (replay ctx evt hs w).1), (replay ctx evt hs w).2).
Proof.
  revert w. induction hs as [|h hs IH]; intros w; [done |].
  cbn [run_handlers replay]. unfold bind, attempt, executeHandlerSafely, ret.
  destruct (h ctx evt w) as [[u|e|e] w1]; rewrite IH; destruct (replay ctx evt hs w1) as [oks w2];
    unfold failures; cbn [fst snd is_Ok]; rewrite filter_cons.
  - by rewrite decide_False by done.
  - rewrite decide_True by done. cbn [length]. do 2 f_equal. lia.
  - rewrite decide_True by done. cbn [length]. do 2 f_equal. lia.
Qed.

Lemma failures_zero outcomes : (0 <? failures outcomes) = negb (forallb id outcomes).
Proof.
  unfold failures. induction outcomes as [|[] l IH]; [done | |]; rewrite filter_cons.
  - by rewrite decide_False by done.
  - rewrite decide_True by done. cbn [forallb id andb negb length]. by apply Z.ltb_lt.
Qed.

Lemma Publish_no_panic b iter ctx evt w e : (Publish b iter ctx evt w).1 <> Panic e.
Proof.
  unfold Publish, bind. rewrite run_handlers_replay. unfold fail, ret. by destruct (0 <? _).
Qed.

(** What every handler keeps, publishing keeps. *)
Lemma Publish_keeps (R : relation (World D)) `{!PreOrder R} (subs : list (string * Handler D)) iter ctx evt w :
  (forall s, s ∈ subs -> forall w, R w (s.2 ctx evt w).2) ->
  R w (Publish (of_subs subs) iter ctx evt w).2.
Proof.
  intros Hs. unfold Publish, bind. rewrite run_handlers_replay.
  assert (forall hs w, (forall h, h ∈ hs -> forall w, R w (h ctx evt w).2) ->
            R w (replay ctx evt hs w).2) as X.
  { induction hs as [|h hs IH]; intros v Hh; [done |]. cbn [replay].
    pose proof (Hh h ltac:(by left) v) as H1. destruct (h ctx evt v) as [r v1]. cbn [snd] in H1.
    specialize (IH v1 ltac:(intros; apply Hh; by right)).
    destruct (replay ctx evt hs v1) as [o v2]. cbn [snd] in *. by transitivity v1. }
  assert (R w (replay ctx evt (targets (of_subs subs) iter (be_Type evt)) w).2) as Y.
  { apply X. intros h Hh. unfold targets in Hh.
    assert (forall p h, h ∈ default [] (of_subs subs !! p) -> exists s, s ∈ subs /\ h = s.2) as Z.
    { intros p h'. rewrite of_subs_lookup, list_elem_of_fmap. intros (s & -> & Hin).
      apply list_elem_of_filter in Hin as [_ ?]. eauto. }
    apply elem_of_app in Hh as [Hh|Hh]; [destruct (Z _ _ Hh) as (s & ? & ->); auto |].
    apply list_elem_of_In, in_concat in Hh as (l & Hl & Hh). apply in_map_iff in Hl as (p & <- & _).
    apply list_elem_of_In in Hh. destruct (wildcard_matches p (be_Type evt)); [| by apply not_elem_of_nil in Hh].
    destruct (Z _ _ Hh) as (s & ? & ->); auto. }
  unfold fail, ret. by destruct (0 <? _).
Qed.
End InMemory.

(** The in-memory bus keeps the contract. *)
Definition InMemoryBus {D} (b : inMemoryBus D) (iter : list string) : Bus D :=
  {| bus_Publish := Publish b iter; bus_no_panic := Publish_no_panic b iter |}.

(** ** Properties *)

(** C35: every subscriber hears every matching event, once, and no handler can
    stop the others.  For an event type that is not itself a pattern (not
    ["*"] and not ending in [".*"]) and any iteration order of the map, publishing
    runs exactly the handlers subscribed to the type, to ["*"], or to [p.*] where the
    type starts with [p] and a dot, each once per subscription; all of them run even when some fail or panic, publishing
    itself never panics, and it fails exactly when one of them did, reporting
    how many. *)
Theorem Publish_delivers {D} (subs : list (string * Handler D)) (iter : list string)
    (ctx : Ctx) (evt : BaseEvent) (w : World D) :
  iterates (of_subs subs) iter -> plain_type (be_Type evt) ->
  exists hs, Permutation hs (filter (fun s => receives s.1 (be_Type evt)) subs).*2
    /\ Publish (of_subs subs) iter ctx evt w
       = ((let outcomes := (replay ctx evt hs w).1 in
           if forallb id outcomes then Ok tt
           else Err (ENew ("event handling errors: " +:+ Itoa (failures outcomes)
                           +:+ " handler(s) failed"))),
          (replay ctx evt hs w).2).
Proof.
  intros Hi Hp. exists (targets (of_subs subs) iter (be_Type evt)).
  split; [by apply targets_Permutation |].
  unfold Publish, bind. rewrite run_handlers_replay, failures_zero. by destruct (forallb id _).
Qed.

(** A handler that records a tag, and one that panics. *)
Definition tag_handler (n : nat) : Handler (list nat) := fun _ _ w =>
  (Ok tt, mkWorld (w_db w ++ [n]) (w_tick w)).
Definition crash_handler : Handler (list nat) := fun _ _ => panic (ENew "crash").

Lemma Publish_delivers_witness :
  let subs := [("document.created", crash_handler); ("document.*", tag_handler 1);
               ("doc.*", tag_handler 2); ("*", tag_handler 3)] in
  let evt := mkBaseEvent 1%N 2%N "document.created" "document" 4%N None zeroTime in
  exists hs, Permutation hs [crash_handler; tag_handler 1; tag_handler 3]
    /\ Publish (of_subs subs) (map_to_list (of_subs subs)).*1 Background evt (mkWorld [] 0%nat)
       = (Err (ENew "event handling errors: 1 handler(s) failed"),
          (replay Background evt hs (mkWorld [] 0%nat)).2).
Proof.
  intros subs evt.
  destruct (Publish_delivers subs (map_to_list (of_subs subs)).*1 Background evt (mkWorld [] 0%nat))
    as (hs & Hp & E).
  - split; [apply NoDup_fst_map_to_list |]. intros k. rewrite list_elem_of_fmap. split.
    + intros ([k' x] & -> & Hin). apply elem_of_map_to_list in Hin. eauto.
    + intros [x Hx]. exists (k, x). by rewrite elem_of_map_to_list.
  - split; [done |]. intros p E. apply (f_equal (fun s => CutSuffix s ".*")) in E. by rewrite (proj2 (CutSuffix_spec _ _ p) eq_refl) in E.
  - exists hs. split; [exact Hp |]. apply (f_equal (fun r => r.2)) in E as E2.
    cbn [snd] in E2. rewrite <- E2. apply injective_projections; [by vm_compute | done].
Defined.
