(* ===== verification/Outbox.v ===== *)
(** * The transactional outbox

    [internal/core/domain/event/outbox.go], the repository
    [internal/core/repository/postgres/outbox_repo.go] with the statements of
    [queries/outbox.sql], and the worker
    [internal/core/worker/outbox_worker.go] that publishes pending events. *)

From S2P Require Import Prelude GoStrings GoTime Sdk EventBus.
From Stdlib Require Import Permutation.
#[local] Open Scope string_scope.
#[local] Open Scope list_scope.
#[local] Open Scope Z_scope.

Abbreviation OutboxStatus := string.
Definition OutboxStatusPending : OutboxStatus := "pending".
Definition OutboxStatusProcessing : OutboxStatus := "processing".
Definition OutboxStatusPublished : OutboxStatus := "published".
Definition OutboxStatusFailed : OutboxStatus := "failed".

Record OutboxEvent := mkOutboxEvent {
  oe_ID : ID;
  oe_TenantID : ID;
  oe_EventType : string;
  oe_AggregateType : string;
  oe_AggregateID : ID;
  oe_Payload : AnyMap;
  oe_Status : OutboxStatus;
  oe_RetryCount : Z;
  oe_ErrorMessage : string;
  oe_CreatedAt : Time;
  oe_PublishedAt : option Time;
}.

Definition ToEvent (o : OutboxEvent) : BaseEvent :=
  mkBaseEvent (oe_ID o) (oe_TenantID o) (oe_EventType o) (oe_AggregateType o)
    (oe_AggregateID o) (oe_Payload o) (oe_CreatedAt o).

(** ** The table *)

(** A row of [outbox_events]. *)
Record OutboxRow := mkOutboxRow {
  ob_id : ID;
  ob_tenant_id : ID;
  ob_event_type : string;
  ob_aggregate_type : string;
  ob_aggregate_id : ID;
  ob_payload : AnyMap;   (* JSONB; [None] is the JSON null of a nil map *)
  ob_status : string;
  ob_retry_count : Z;
  ob_error_message : option string;
  ob_created_at : Time;
  ob_published_at : option Time;
}.

Abbreviation OutboxTable := (gmap ID OutboxRow).

Section Repo.
  Context `{Env, Pg}.
  (** Rows the server refuses: lengths, unknown tenants, a payload that could
      not be encoded. *)
  Variable refused : OutboxRow -> option error.

Definition outbox_row (evt : OutboxEvent) : OutboxRow := {|
  ob_id := oe_ID evt;
  ob_tenant_id := oe_TenantID evt;
  ob_event_type := oe_EventType evt;
  ob_aggregate_type := oe_AggregateType evt;
  ob_aggregate_id := oe_AggregateID evt;
  ob_payload := pg_jsonb <$> oe_Payload evt;
  ob_status := if String.eqb (oe_Status evt) "" then OutboxStatusPending else oe_Status evt;
  ob_retry_count := oe_RetryCount evt;
  ob_error_message := None;
  ob_created_at := pg_timestamptz (oe_CreatedAt evt);
  ob_published_at := None |}.

(** A nil identifier is sent as NULL, which the columns refuse. *)
Definition insert_outbox (row : OutboxRow) (t : OutboxTable) : res (OutboxRow * OutboxTable) :=
  if bool_decide (ob_id row = NilID \/ ob_tenant_id row = NilID \/ ob_aggregate_id row = NilID)
  then Err pg_unique_violation
  else match t !! ob_id row, refused row with
       | Some _, _ => Err pg_unique_violation
       | None, Some e => Err e
       | None, None => Ok (row, <[ob_id row := row]> t)
       end.

(** The event with the identifier and time the server stored. *)
Definition Create (evt : OutboxEvent) : M OutboxTable OutboxEvent :=
  row <- query (insert_outbox (outbox_row evt)) ;;
  ret (mkOutboxEvent (ob_id row) (oe_TenantID evt) (oe_EventType evt) (oe_AggregateType evt)
         (oe_AggregateID evt) (oe_Payload evt) (oe_Status evt) (oe_RetryCount evt)
         (oe_ErrorMessage evt) (ob_created_at row) (oe_PublishedAt evt)).

Lemma outbox_Create_Ok evt w e w' : Create evt w = (Ok e, w') ->
  w_db w !! oe_ID evt = None /\ w_db w' = <[oe_ID evt := outbox_row evt]> (w_db w).
Proof.
  unfold Create. intros E. step_inv. subst. match goal with X : insert_outbox _ _ = _ |- _ => rename X into RI end.
  unfold insert_outbox in RI. case_bool_decide; [done |]. destruct (w_db w !! _) eqn:El; [done |].
  destruct (refused _); [done |]. injection RI as <- <-. done.
Qed.

(** WHERE status IN ('pending', 'failed') AND retry_count < $1. *)
Definition due (maxRetries : Z) (row : OutboxRow) : bool :=
  (String.eqb (ob_status row) "pending" || String.eqb (ob_status row) "failed")
  && (ob_retry_count row <? maxRetries).

Definition created_le (a b : OutboxRow) : Prop := t_nanos (ob_created_at a) <= t_nanos (ob_created_at b).

#[export] Instance created_le_dec : RelDecision created_le.
Proof. intros a b. unfold created_le. apply _. Defined.

(** ORDER BY created_at LIMIT $2; rows created at the same instant come in the
    order of the table. *)
Definition fetch (maxRetries limit : Z) (t : OutboxTable) : list OutboxRow :=
  firstn (Z.to_nat limit) (merge_sort created_le (select_rows (due maxRetries) t)).

Definition toOutboxEvent (row : OutboxRow) : OutboxEvent := {|
  oe_ID := ob_id row;
  oe_TenantID := ob_tenant_id row;
  oe_EventType := ob_event_type row;
  oe_AggregateType := ob_aggregate_type row;
  oe_AggregateID := ob_aggregate_id row;
  oe_Payload := ob_payload row;
  oe_Status := ob_status row;
  oe_RetryCount := ob_retry_count row;
  oe_ErrorMessage := default "" (ob_error_message row);
  oe_CreatedAt := ob_created_at row;
  oe_PublishedAt := ob_published_at row |}.

Definition FetchPending (maxRetries limit : Z) : M OutboxTable (list OutboxEvent) :=
  let limit := if limit <=? 0 then 50 else limit in
  let maxRetries := if maxRetries <=? 0 then 5 else maxRetries in
  query (fun t => Ok (map toOutboxEvent (fetch maxRetries limit t), t)).

Definition published_row (at_ : Time) (r : OutboxRow) : OutboxRow := {|
  ob_id := ob_id r; ob_tenant_id := ob_tenant_id r; ob_event_type := ob_event_type r;
  ob_aggregate_type := ob_aggregate_type r; ob_aggregate_id := ob_aggregate_id r;
  ob_payload := ob_payload r;
  ob_status := "published";
  ob_retry_count := ob_retry_count r;
  ob_error_message := None;
  ob_created_at := ob_created_at r;
  ob_published_at := Some at_ |}.

Definition failed_row (msg : option string) (r : OutboxRow) : OutboxRow := {|
  ob_id := ob_id r; ob_tenant_id := ob_tenant_id r; ob_event_type := ob_event_type r;
  ob_aggregate_type := ob_aggregate_type r; ob_aggregate_id := ob_aggregate_id r;
  ob_payload := ob_payload r;
  ob_status := "failed";
  ob_retry_count := ob_retry_count r + 1;
  ob_error_message := msg;
  ob_created_at := ob_created_at r;
  ob_published_at := ob_published_at r |}.

(** UPDATE ... WHERE id = $1: no row for the NULL identifier. *)
Definition update_by_id (id : ID) (f : OutboxRow -> OutboxRow) (t : OutboxTable) :
    res (unit * OutboxTable) :=
  Ok (tt, if bool_decide (id = NilID) then t else alter f id t).

Definition MarkPublished (id : ID) (publishedAt : Time) : M OutboxTable unit :=
  query (update_by_id id (published_row (pg_timestamptz publishedAt))).

Definition MarkFailed (id : ID) (errMsg : string) : M OutboxTable unit :=
  query (update_by_id id (failed_row (if String.eqb errMsg "" then None else Some errMsg))).
End Repo.

(** ** The worker *)

Record Config := mkConfig { PollInterval : Z; BatchSize : Z; MaxRetries : Z }.

Definition DefaultConfig : Config := mkConfig (1 * Second) 50 5.

(** The configuration [NewOutboxWorker] keeps. *)
Definition NewOutboxWorker (cfg : Config) : Config :=
  mkConfig (if PollInterval cfg <=? 0 then 1 * Second else PollInterval cfg)
           (if BatchSize cfg <=? 0 then 50 else BatchSize cfg)
           (if MaxRetries cfg <=? 0 then 5 else MaxRetries cfg).

(** The buffered channel of [Trigger] holds at most 100 wake-ups. *)
Definition Trigger (queued : nat) : nat := if (queued <? 100)%nat then S queued else queued.

Section Worker.
  Context `{Env, Pg} {D : Type} `{Lens D OutboxTable} `{Bus D}.

(** The body of the loop: 1 when the event counts as processed. *)
Definition process_event (ctx : Ctx) (oEvt : OutboxEvent) : M D Z :=
  pubErr <- attempt (bus_Publish ctx (ToEvent oEvt)) ;;
  now <- NowUTC ;;
  match pubErr with
  | inr err => attempt (zoom (MarkFailed (oe_ID oEvt) (Error err))) ;;; ret 0
  | inl _ =>
      r <- attempt (zoom (MarkPublished (oe_ID oEvt) now)) ;;
      ret (match r with inr _ => 0 | inl _ => 1 end)
  end.

Fixpoint process_events (ctx : Ctx) (events : list OutboxEvent) : M D Z :=
  match events with
  | [] => ret 0
  | oEvt :: events' =>
      n <- process_event ctx oEvt ;;
      m <- process_events ctx events' ;;
      ret (n + m)
  end.

Definition ProcessBatch (cfg : Config) (ctx : Ctx) : M D Z :=
  events <- zoom (FetchPending (MaxRetries cfg) (BatchSize cfg)) ;;
  process_events ctx events.

(** What [Start] does with a sequence of ticks: one batch after the other,
    errors logged. *)
Fixpoint run_batches (n : nat) (cfg : Config) (ctx : Ctx) : M D unit :=
  match n with
  | O => ret tt
  | S n' => attempt (ProcessBatch cfg ctx) ;;; run_batches n' cfg ctx
  end.
End Worker.

(** ** Lemmas on the table *)

Definition outbox_keyed (t : OutboxTable) : Prop := forall k r, t !! k = Some r -> ob_id r = k /\ k <> NilID.

Lemma elem_of_fetch n limit t r : r ∈ fetch n limit t -> due n r = true /\ exists k, t !! k = Some r.
Proof.
  unfold fetch. intros Hr.
  assert (r ∈ merge_sort created_le (select_rows (due n) t)) as Hr'.
  { rewrite <- (firstn_skipn (Z.to_nat limit)). apply elem_of_app. by left. }
  rewrite merge_sort_Permutation in Hr'. by apply elem_of_select_rows.
Qed.

Lemma NoDup_fetch n limit t : outbox_keyed t -> NoDup (map ob_id (fetch n limit t)).
Proof.
  intros Hk'. unfold fetch.
  assert (NoDup (map ob_id (select_rows (due n) t))) as Hk
    by (apply NoDup_select_rows; intros k r Hr; by apply Hk').
  rewrite <- (merge_sort_Permutation created_le) in Hk.
  rewrite <- (firstn_skipn (Z.to_nat limit) (merge_sort created_le _)), map_app in Hk. by apply NoDup_app in Hk as [? _].
Qed.

(** What publishing does to a row: it is published, or failed once more. *)
Definition settles (r r' : OutboxRow) : Prop :=
  (exists t, r' = published_row t r) \/ (exists msg, r' = failed_row msg r).

Lemma settles_id r r' : settles r r' -> ob_id r' = ob_id r.
Proof. by intros [[? ->]|[? ->]]. Qed.

Section WorkerProofs.
  Context `{Henv : Env, Hpg : Pg} {D : Type} `{Hlens : Lens D OutboxTable} `{Hbus : Bus D}.

Definition outbox (w : World D) : OutboxTable := lens_get (w_db w).

(** Handlers may add events of their own but do not touch existing ones. *)
Definition handlers_append : Prop := forall ctx evt w k r,
  outbox w !! k = Some r -> outbox (bus_Publish ctx evt w).2 !! k = Some r.

Definition calm_env : Prop := forall n, env_fault n = None.

Lemma update_row_run (id : ID) (f : OutboxRow -> OutboxRow) (w : World D) r w' :
  id <> NilID ->
  attempt (zoom (query (update_by_id id f))) w = (r, w') ->
  (exists x, r = Ok x) /\
  ((outbox w' = outbox w /\ exists n, env_fault n <> None)
   \/ (outbox w' = alter f id (outbox w) /\ r = Ok (inl tt))).
Proof.
  intros Hid. unfold attempt, zoom, query, update_by_id, outbox. cbn [w_db w_tick].
  destruct (env_fault (w_tick w)) eqn:Ef; cbn -[lens_get lens_set].
  - intros [= <- <-]. split; [eauto |]. left. cbn [w_db]. rewrite lens_set_get. split; [done |].
    exists (w_tick w). congruence.
  - rewrite bool_decide_eq_false_2 by done. intros [= <- <-]. split; [eauto |]. right. split; [| done].
    cbn [w_db]. by rewrite lens_get_set.
Qed.

Lemma process_event_step ctx row (w : World D) r w' :
  handlers_append -> outbox w !! ob_id row = Some row -> ob_id row <> NilID ->
  process_event ctx (toOutboxEvent row) w = (r, w') ->
  (exists n, r = Ok n) /\
  (forall k x, outbox w !! k = Some x -> k <> ob_id row -> outbox w' !! k = Some x) /\
  ((outbox w' !! ob_id row = Some row /\ exists n, env_fault n <> None)
   \/ exists row', outbox w' !! ob_id row = Some row' /\ settles row row').
Proof.
  intros Happ Hrow Hid. unfold process_event, bind at 1, attempt at 1.
  pose proof (bus_no_panic ctx (ToEvent (toOutboxEvent row)) w) as Hnp.
  pose proof (Happ ctx (ToEvent (toOutboxEvent row)) w) as Hkeep.
  destruct (bus_Publish ctx (ToEvent (toOutboxEvent row)) w) as [[u|e|e] w1];
    [| | by destruct (Hnp e)]; cbn [fst snd] in *; unfold bind, NowUTC.
  - destruct (attempt _ (tick w1)) as [rr w2] eqn:Eu.
    destruct (update_row_run _ _ _ _ _ Hid Eu) as [[x ->] Hcase].
    change (outbox (tick w1)) with (outbox w1) in Hcase. intros [= <- <-]. split; [eauto |].
    destruct Hcase as [[-> Hf]|[-> _]].
    + split; [intros; by apply Hkeep |]. left. auto.
    + split; [intros k y Hk Hne; rewrite lookup_alter_ne by done; by apply Hkeep |]. right.
      rewrite lookup_alter_eq, (Hkeep _ _ Hrow). eexists. split; [done |]. left. eauto.
  - destruct (attempt _ (tick w1)) as [rr w2] eqn:Eu.
    destruct (update_row_run _ _ _ _ _ Hid Eu) as [[x ->] Hcase].
    change (outbox (tick w1)) with (outbox w1) in Hcase. intros [= <- <-]. split; [eauto |].
    destruct Hcase as [[-> Hf]|[-> _]].
    + split; [intros; by apply Hkeep |]. left. auto.
    + split; [intros k y Hk Hne; rewrite lookup_alter_ne by done; by apply Hkeep |]. right.
      rewrite lookup_alter_eq, (Hkeep _ _ Hrow). eexists. split; [done |]. right. eauto.
Qed.

(** The loop over a batch of distinct rows. *)
Lemma process_events_rows ctx rows (w : World D) r w' :
  handlers_append -> NoDup (map ob_id rows) ->
  (forall x, x ∈ rows -> outbox w !! ob_id x = Some x /\ ob_id x <> NilID) ->
  process_events ctx (map toOutboxEvent rows) w = (r, w') ->
  (exists n, r = Ok n) /\
  forall k x, outbox w !! k = Some x ->
    exists x', outbox w' !! k = Some x' /\
      ((x' = x /\ ((forall y, y ∈ rows -> ob_id y <> k) \/ exists n, env_fault n <> None))
       \/ (x ∈ rows /\ settles x x')).
Proof.
  intros Happ. revert w r w'. induction rows as [|row rows IH]; intros w r w' Hnd Hrows.
  - intros [= <- <-]. split; [eauto |]. intros k x Hk. exists x. split; [done |]. left. split; [done |].
    left. by intros y ?%elem_of_nil.
  - cbn [map process_events] in *. apply NoDup_cons in Hnd as [Hni Hnd]. unfold bind at 1.
    destruct (Hrows row) as [Hrow Hid]; [by left |].
    destruct (process_event ctx (toOutboxEvent row) w) as [r1 w1] eqn:E1.
    destruct (process_event_step ctx row w r1 w1 Happ Hrow Hid E1) as ([n ->] & Hother & Hself).
    assert (forall y, y ∈ rows -> ob_id y <> ob_id row) as Hdist.
    { intros y Hy E. apply Hni. rewrite <- E. apply list_elem_of_In, in_map, list_elem_of_In, Hy. }
    unfold bind. destruct (process_events ctx (map toOutboxEvent rows) w1) as [r2 w2] eqn:E2.
    destruct (IH w1 r2 w2 Hnd) as [[m ->] Hrest]; [| done |].
    { intros y Hy. destruct (Hrows y) as [Hly Hny]; [by right |]. split; [| done]. apply Hother; auto. }
    intros [= <- <-]. split; [eauto |]. intros k x Hk.
    destruct (decide (k = ob_id row)) as [->|Hne].
    + assert (x = row) as -> by congruence. destruct Hself as [[Hs Hf]|(row' & Hs & Hst)].
      * destruct (Hrest _ _ Hs) as (x' & Hx' & [[-> _]|[Hin _]]).
        -- exists row. split; [done |]. left. auto.
        -- by destruct (Hdist row Hin).
      * destruct (Hrest _ _ Hs) as (x' & Hx' & [[-> _]|[Hin _]]).
        -- exists row'. split; [done |]. right. split; [by left | done].
        -- by destruct (Hdist row' Hin), (settles_id _ _ Hst).
    + destruct (Hrest k x (Hother _ _ Hk Hne)) as (x' & Hx' & [[-> Hc]|[Hin Hst]]).
      * exists x. split; [done |]. left. split; [done |]. destruct Hc as [Hc|Hc]; [left | by right].
        intros y [->|Hy]%elem_of_cons; auto.
      * exists x'. split; [done |]. right. split; [by right | done].
Qed.

(** One batch, for any pattern of database failures. *)
Lemma ProcessBatch_run cfg ctx (w : World D) r w' :
  handlers_append -> outbox_keyed (outbox w) -> 0 < MaxRetries cfg -> 0 < BatchSize cfg ->
  ProcessBatch cfg ctx w = (r, w') ->
  (forall e, r <> Panic e) /\
  let rows := fetch (MaxRetries cfg) (BatchSize cfg) (outbox w) in
  forall k x, outbox w !! k = Some x ->
    exists x', outbox w' !! k = Some x' /\
      ((x' = x /\ (x ∉ rows \/ exists n, env_fault n <> None)) \/ (x ∈ rows /\ settles x x')).
Proof.
  intros Happ Hk Hm Hb. unfold ProcessBatch, bind at 1, zoom at 1, FetchPending, query. cbn [w_db w_tick].
  rewrite !(proj2 (Z.leb_gt _ _)) by lia. fold (outbox w).
  destruct (env_fault (w_tick w)) eqn:Ef; cbn -[lens_get lens_set outbox fetch].
  - intros [= <- <-]. split; [done |]. intros k x Hx. exists x.
    unfold outbox in *. cbn [w_db]. rewrite lens_set_get. split; [done |]. left.
    split; [done |]. right. exists (w_tick w). congruence.
  - set (w1 := mkWorld _ _). assert (outbox w1 = outbox w) as Ew
      by (unfold w1, outbox; cbn [w_db]; by rewrite lens_set_get).
    intros Hp. apply process_events_rows in Hp as [[n ->] Hrows]; [| done | by apply NoDup_fetch |].
    + split; [done |]. intros k x Hx. rewrite <- Ew in Hx. destruct (Hrows k x Hx) as (x' & Hx' & Hc).
      exists x'. split; [done |]. destruct Hc as [[-> [Hn|Hf]]|Hc]; [| by left; auto | by right].
      left. split; [done |]. left. intros Hin. apply (Hn _ Hin). rewrite Ew in Hx. by apply Hk.
    + intros x Hx. rewrite Ew. apply elem_of_fetch in Hx as [_ [k Hx]].
      destruct (Hk _ _ Hx) as [-> ?]. done.
Qed.

(** Attempts an event has left. *)
Definition remaining (maxRetries : Z) (r : OutboxRow) : nat :=
  if due maxRetries r then Z.to_nat (maxRetries - ob_retry_count r) else 0%nat.

Lemma settles_remaining n r r' :
  due n r = true -> settles r r' -> (remaining n r' < remaining n r)%nat.
Proof.
  intros Hd Hs. unfold remaining at 2. rewrite Hd. unfold due in Hd.
  apply andb_true_iff in Hd as [_ Hlt%Z.ltb_lt].
  destruct Hs as [[t ->]|[msg ->]]; unfold remaining, due;
    cbn [published_row failed_row ob_status ob_retry_count]; cbn -[Z.to_nat Z.sub Z.ltb Z.add]; [lia |].
  destruct (Z.ltb_spec (ob_retry_count r + 1) n); lia.
Qed.

Definition total (maxRetries : Z) (keys : list ID) (t : OutboxTable) : nat :=
  foldr (fun k s => (from_option (remaining maxRetries) 0%nat (t !! k) + s)%nat) 0%nat keys.

Lemma total_le n keys t t' :
  (forall k, (from_option (remaining n) 0 (t' !! k) <= from_option (remaining n) 0 (t !! k))%nat) ->
  (total n keys t' <= total n keys t)%nat.
Proof.
  intros Hle. induction keys as [|k keys IH]; cbn; [lia |].
  specialize (Hle k). unfold total in IH. lia.
Qed.

Lemma total_lt n keys t t' k0 :
  (forall k, (from_option (remaining n) 0 (t' !! k) <= from_option (remaining n) 0 (t !! k))%nat) ->
  k0 ∈ keys ->
  (from_option (remaining n) 0 (t' !! k0) < from_option (remaining n) 0 (t !! k0))%nat ->
  (total n keys t' < total n keys t)%nat.
Proof.
  intros Hle Hin Hlt. induction keys as [|k keys IH]; [by apply not_elem_of_nil in Hin |].
  cbn. apply elem_of_cons in Hin as [<-|Hin].
  - pose proof (total_le n keys t t' Hle). unfold total in *. lia.
  - specialize (IH Hin). specialize (Hle k). unfold total in *. lia.
Qed.

Lemma total_bound n keys t :
  0 <= n -> (forall k r, t !! k = Some r -> 0 <= ob_retry_count r) ->
  (total n keys t <= Z.to_nat n * length keys)%nat.
Proof.
  intros Hn Hr. induction keys as [|k keys IH]; cbn; [lia |]. unfold total in IH.
  assert (from_option (remaining n) 0%nat (t !! k) <= Z.to_nat n)%nat; [| lia].
  destruct (t !! k) as [r|] eqn:E; cbn; [| lia]. specialize (Hr _ _ E). unfold remaining. case_match; lia.
Qed.

(** Some row is due exactly when a batch finds one. *)
Lemma fetch_nonempty n limit t k r :
  0 < limit -> t !! k = Some r -> due n r = true -> exists x, x ∈ fetch n limit t.
Proof.
  intros Hl Hk Hd. unfold fetch.
  assert (r ∈ merge_sort created_le (select_rows (due n) t)) as Hin.
  { rewrite merge_sort_Permutation. apply elem_of_select_rows. eauto. }
  destruct (merge_sort created_le (select_rows (due n) t)) as [|x l]; [by apply not_elem_of_nil in Hin |].
  exists x. destruct (Z.to_nat limit) eqn:E; [lia |]. cbn. by left.
Qed.

(** Handlers leave the outbox alone. *)
Definition handlers_quiet : Prop := forall ctx evt w, outbox (bus_Publish ctx evt w).2 = outbox w.

(** With quiet handlers no row appears. *)
Lemma process_events_dom ctx events (w : World D) k :
  handlers_quiet -> outbox w !! k = None -> outbox (process_events ctx events w).2 !! k = None.
Proof.
  intros Hq. revert w. induction events as [|e events IH]; intros w Hk; [done |].
  cbn [process_events]. unfold bind at 1.
  assert (outbox (process_event ctx e w).2 !! k = None) as H1.
  { unfold process_event, bind at 1, attempt at 1. specialize (Hq ctx (ToEvent e) w).
    destruct (bus_Publish ctx (ToEvent e) w) as [r1 w1]. cbn [snd] in Hq. rewrite <- Hq in Hk.
    destruct r1; [| | done]; unfold bind, NowUTC, attempt, zoom, MarkPublished, MarkFailed, query, update_by_id, ret;
      cbn -[lens_get lens_set outbox]; unfold outbox in *;
      destruct (env_fault _); cbn -[lens_get lens_set]; rewrite lens_get_set; try done;
      case_bool_decide; try done; by rewrite lookup_alter_None. }
  destruct (process_event ctx e w) as [[n|er|er] w1]; [| done | done]. cbn [snd] in H1.
  specialize (IH w1 H1). unfold bind. destruct (process_events ctx events w1) as [[m|er|er] w2]; done.
Qed.

Lemma ProcessBatch_dom cfg ctx (w : World D) k :
  handlers_quiet -> outbox w !! k = None -> outbox (ProcessBatch cfg ctx w).2 !! k = None.
Proof.
  intros Hq Hk. unfold ProcessBatch, bind, zoom, FetchPending, query. cbn [w_db w_tick].
  destruct (env_fault _); cbn -[lens_get lens_set outbox fetch].
  - unfold outbox in *. cbn [w_db]. by rewrite lens_set_get.
  - apply process_events_dom; [done |]. unfold outbox in *. cbn [w_db]. by rewrite lens_set_get.
Qed.

Lemma ProcessBatch_measure cfg ctx (w : World D) keys :
  handlers_quiet -> calm_env -> outbox_keyed (outbox w) -> 0 < MaxRetries cfg -> 0 < BatchSize cfg ->
  (forall k, is_Some (outbox w !! k) -> k ∈ keys) ->
  let w' := (ProcessBatch cfg ctx w).2 in
  outbox_keyed (outbox w') /\ (forall k, is_Some (outbox w' !! k) -> k ∈ keys)
  /\ (total (MaxRetries cfg) keys (outbox w') <= total (MaxRetries cfg) keys (outbox w))%nat
  /\ ((exists k r, outbox w !! k = Some r /\ due (MaxRetries cfg) r = true) ->
      (total (MaxRetries cfg) keys (outbox w') < total (MaxRetries cfg) keys (outbox w))%nat).
Proof.
  intros Hq Hcalm Hk Hm Hb Hkeys w'.
  assert (handlers_append) as Happ by (intros c e v k r E; by rewrite Hq).
  destruct (ProcessBatch cfg ctx w) as [r w1] eqn:E.
  assert (forall k, outbox w !! k = None -> outbox w1 !! k = None) as Hnone.
  { intros k Hn. pose proof (ProcessBatch_dom cfg ctx w k Hq Hn) as X. by rewrite E in X. }
  subst w'. cbn [snd] in *. destruct (ProcessBatch_run cfg ctx w r w1 Happ Hk Hm Hb E) as [_ Hrows].
  assert (forall k x', outbox w1 !! k = Some x' -> exists x, outbox w !! k = Some x
            /\ (x' = x \/ (due (MaxRetries cfg) x = true /\ settles x x'))) as Hback.
  { intros k x' Hx'. destruct (outbox w !! k) as [x|] eqn:Ex; [| rewrite (Hnone k Ex) in Hx'; done].
    exists x. split; [done |]. destruct (Hrows k x Ex) as (y & Hy & Hc).
    assert (y = x') as -> by congruence. destruct Hc as [[-> _]|[Hin Hs]]; [by left | right].
    split; [| done]. by apply elem_of_fetch in Hin as [? _]. }
  assert (forall k, (from_option (remaining (MaxRetries cfg)) 0 (outbox w1 !! k)
                     <= from_option (remaining (MaxRetries cfg)) 0 (outbox w !! k))%nat) as Hle.
  { intros k. destruct (outbox w1 !! k) as [x'|] eqn:Ex'; cbn; [| lia].
    destruct (Hback k x' Ex') as (x & -> & [->|[Hd Hs]]); cbn; [lia |].
    pose proof (settles_remaining _ _ _ Hd Hs). lia. }
  split_and!.
  - intros k x' Hx'. destruct (Hback k x' Hx') as (x & Hx & Hc). destruct (Hk _ _ Hx) as [<- ?].
    split; [| done]. destruct Hc as [->|[_ Hs]]; [done | by apply settles_id].
  - intros k [x' Hx']. destruct (Hback k x' Hx') as (x & Hx & _). eauto.
  - by apply total_le.
  - intros (k & x & Hx & Hd). destruct (fetch_nonempty _ (BatchSize cfg) _ _ _ Hb Hx Hd) as [y Hy].
    pose proof (elem_of_fetch _ _ _ _ Hy) as [Hdy [ky Hky]].
    apply (total_lt _ keys _ _ ky); [done | by apply Hkeys; eauto |].
    destruct (Hrows ky y Hky) as (y' & Hy' & [[_ [Hn|[n Hn]]]|[_ Hs]]); [done | by rewrite Hcalm in Hn |].
    rewrite Hy', Hky. by apply settles_remaining.
Qed.

Lemma run_batches_drain n cfg ctx (w : World D) keys :
  handlers_quiet -> calm_env -> outbox_keyed (outbox w) -> 0 < MaxRetries cfg -> 0 < BatchSize cfg ->
  (forall k, is_Some (outbox w !! k) -> k ∈ keys) ->
  (total (MaxRetries cfg) keys (outbox w) <= n)%nat ->
  exists w', run_batches n cfg ctx w = (Ok tt, w') /\
    forall k r, outbox w' !! k = Some r -> due (MaxRetries cfg) r = false.
Proof.
  intros Hq Hcalm. revert w. induction n as [|n IH]; intros w Hk Hm Hb Hkeys Ht.
  - exists w. split; [done |]. intros k r Hr. apply not_true_is_false. intros Hd.
    pose proof (ProcessBatch_measure cfg ctx w keys Hq Hcalm Hk Hm Hb Hkeys) as (_ & _ & _ & Hlt).
    specialize (Hlt ltac:(eauto)). lia.
  - pose proof (ProcessBatch_measure cfg ctx w keys Hq Hcalm Hk Hm Hb Hkeys) as (Hk' & Hkeys' & Hle & Hlt).
    cbn [run_batches]. unfold bind at 1, attempt.
    assert (handlers_append) as Happ by (intros c e v k r E; by rewrite Hq).
    destruct (ProcessBatch cfg ctx w) as [r w1] eqn:E.
    destruct (ProcessBatch_run cfg ctx w r w1 Happ Hk Hm Hb E) as [Hnp Hrows]. cbn [snd] in *.
    destruct (decide (total (MaxRetries cfg) keys (outbox w1) <= n)%nat) as [Hn|Hn].
    + destruct r as [z|e|e]; [by apply IH | by apply IH | by destruct (Hnp e)].
    + assert (total (MaxRetries cfg) keys (outbox w) <= total (MaxRetries cfg) keys (outbox w1))%nat as Hge by lia.
      exfalso. assert (exists k r, outbox w !! k = Some r /\ due (MaxRetries cfg) r = true) as Hex.
      { destruct (decide (Exists (fun k => from_option (due (MaxRetries cfg)) false (outbox w !! k) = true) keys))
          as [Hx|Hx].
        - apply Exists_exists in Hx as (k & _ & Hd). destruct (outbox w !! k) eqn:E2; [eauto | done].
        - exfalso. assert (total (MaxRetries cfg) keys (outbox w) = 0%nat) as Hz; [| lia].
          clear -Hx. induction keys as [|k keys IHk]; [done |].
          rewrite Exists_cons in Hx. cbn. unfold total in IHk. rewrite IHk by tauto.
          destruct (outbox w !! k) as [x|] eqn:E2; [| done]. cbn in *. unfold remaining.
          destruct (due (MaxRetries cfg) x); [tauto | done]. }
      specialize (Hlt Hex). lia.
Qed.
End WorkerProofs.

(** ** Properties of the outbox *)

(** A bus for the witnesses: one module accepts every event, another refuses
    the type "bad"; neither writes to the database. *)
Definition picky_handler : Handler OutboxTable := fun _ evt =>
  if String.eqb (be_Type evt) "bad" then fail (ENew "refused") else ret tt.
Definition picky_subs : list (string * Handler OutboxTable) :=
  [("*", fun _ _ => ret tt); ("bad", picky_handler)].
Definition picky_bus : Bus OutboxTable := InMemoryBus (of_subs picky_subs) ["bad"; "*"].

Lemma picky_quiet : @handlers_quiet OutboxTable Lens_id picky_bus.
Proof.
  intros ctx evt w. symmetry. apply (f_equal w_db).
  apply (Publish_keeps eq). intros s Hs v.
  apply elem_of_cons in Hs as [->|Hs]; [done |]. apply list_elem_of_singleton in Hs as ->.
  cbn. unfold picky_handler. by case_match.
Qed.

Definition pending_row (id : ID) (type : string) (at_ : Z) : OutboxRow := {|
  ob_id := id; ob_tenant_id := 3%N; ob_event_type := type; ob_aggregate_type := "document";
  ob_aggregate_id := 9%N; ob_payload := None; ob_status := "pending"; ob_retry_count := 0;
  ob_error_message := None; ob_created_at := mkTime at_ 0; ob_published_at := None |}.

Definition sample_outbox : OutboxTable :=
  {[1%N := pending_row 1%N "document.created" 20; 2%N := pending_row 2%N "bad" 10]}.

Lemma sample_outbox_keyed : outbox_keyed sample_outbox.
Proof.
  intros k r. unfold sample_outbox. rewrite lookup_insert_Some, lookup_singleton_Some.
  intros [[<- <-]|[_ [<- <-]]]; done.
Qed.

(** what a poll returns.  Only events that are pending or failed with
    attempts left are fetched, each at most once, oldest first, at most the
    limit of them; when there are more, those left behind are not older than
    any that was taken; when there are not, all of them are taken. *)
Theorem fetch_spec (maxRetries limit : Z) (t : OutboxTable) :
  outbox_keyed t ->
  let rows := fetch maxRetries limit t in
  Sorted created_le rows /\ NoDup (map ob_id rows)
  /\ (length rows <= Z.to_nat limit)%nat
  /\ (forall r, r ∈ rows -> due maxRetries r = true /\ t !! ob_id r = Some r)
  /\ (forall k r, t !! k = Some r -> due maxRetries r = true ->
        r ∈ rows \/ (length rows = Z.to_nat limit /\ forall x, x ∈ rows -> created_le x r)).
Proof.
  intros Hk rows. unfold rows.
  assert (StronglySorted created_le (merge_sort created_le (select_rows (due maxRetries) t))) as Hs.
  { apply Sorted_StronglySorted; [intros a b c; unfold created_le; lia |].
    assert (Total created_le) by (intros a b; unfold created_le; lia).
    apply (Sorted_merge_sort _). }
  split_and!.
  - unfold fetch. apply StronglySorted_Sorted. rewrite <- (firstn_skipn (Z.to_nat limit)) in Hs.
    by apply StronglySorted_app in Hs as (_ & ? & _).
  - by apply NoDup_fetch.
  - unfold fetch. rewrite length_firstn. lia.
  - intros r Hr. apply elem_of_fetch in Hr as [Hd [k Hr]]. split; [done |].
    destruct (Hk _ _ Hr) as [-> _]. done.
  - intros k r Hr Hd.
    assert (r ∈ merge_sort created_le (select_rows (due maxRetries) t)) as Hin.
    { rewrite merge_sort_Permutation. apply elem_of_select_rows. eauto. }
    unfold fetch. rewrite <- (firstn_skipn (Z.to_nat limit)) in Hs, Hin.
    apply StronglySorted_app in Hs as (Hcross & _ & _).
    apply elem_of_app in Hin as [Hin|Hin]; [by left | right]. split.
    + rewrite length_firstn. apply Nat.min_l.
      destruct (decide (Z.to_nat limit <= length (merge_sort created_le (select_rows (due maxRetries) t)))%nat)
        as [?|Hgt]; [done |].
      rewrite skipn_all2 in Hin by lia. by apply not_elem_of_nil in Hin.
    + intros x Hx. by apply Hcross.
Qed.

Lemma fetch_spec_witness :
  map ob_id (fetch 5 1 sample_outbox) = [2%N] /\
  (length (fetch 5 1 sample_outbox) <= 1)%nat.
Proof.
  split; [by vm_compute |].
  destruct (fetch_spec 5 1 sample_outbox sample_outbox_keyed) as (_ & _ & Hl & _). exact Hl.
Defined.

(** C33: a batch is safe under every pattern of database failures.  Each event
    keeps its row; a row changes only if it was due, and then it becomes
    published or has failed once more.  So published events and events whose
    attempts are used up are never touched again, the retry counter never
    exceeds the limit, and without failures every fetched event is settled. *)
Theorem ProcessBatch_safe `{Env, Pg} {D} `{Lens D OutboxTable} `{Bus D}
    (cfg0 : Config) (ctx : Ctx) (w : World D) :
  handlers_append -> outbox_keyed (outbox w) ->
  let cfg := NewOutboxWorker cfg0 in
  let w' := (ProcessBatch cfg ctx w).2 in
  (forall e, (ProcessBatch cfg ctx w).1 <> Panic e) /\
  forall k x, outbox w !! k = Some x ->
    exists x', outbox w' !! k = Some x'
      /\ (x' = x \/ (due (MaxRetries cfg) x = true /\ settles x x'))
      /\ (due (MaxRetries cfg) x = false -> x' = x)
      /\ (ob_retry_count x <= MaxRetries cfg -> ob_retry_count x' <= MaxRetries cfg)
      /\ (calm_env -> x ∈ fetch (MaxRetries cfg) (BatchSize cfg) (outbox w) -> settles x x').
Proof.
  intros Happ Hk cfg w'.
  assert (0 < MaxRetries cfg /\ 0 < BatchSize cfg) as [Hm Hb].
  { unfold cfg, NewOutboxWorker. cbn. split; case_match; lia. }
  destruct (ProcessBatch cfg ctx w) as [r w1] eqn:E.
  destruct (ProcessBatch_run cfg ctx w r w1 Happ Hk Hm Hb E) as [Hnp Hrows]. subst w'. cbn [fst snd].
  split; [exact Hnp |]. intros k x Hx. destruct (Hrows k x Hx) as (x' & Hx' & Hc).
  assert (x' = x \/ (due (MaxRetries cfg) x = true /\ settles x x')) as Hc'.
  { destruct Hc as [[-> _]|[Hin Hs]]; [by left |]. right. by apply elem_of_fetch in Hin as [? _]. }
  exists x'. split_and!; [done | done | | |].
  - intros Hd. destruct Hc' as [?|[Hd' _]]; [done | congruence].
  - intros Hle. destruct Hc' as [->|[Hd Hs]]; [done |].
    unfold due in Hd. apply andb_true_iff in Hd as [_ Hlt%Z.ltb_lt].
    destruct Hs as [[? ->]|[? ->]]; cbn [published_row failed_row ob_retry_count]; lia.
  - intros Hcalm Hin. destruct Hc as [[_ [Hn|[n Hn]]]|[_ Hs]]; [done | by rewrite Hcalm in Hn | done].
Qed.

Lemma ProcessBatch_safe_witness :
  let Hpg := pgx 0 in let Henv := calm zeroTime 1 in let Hbus := picky_bus in
  let w := mkWorld sample_outbox 0%nat in
  exists x', outbox (ProcessBatch (NewOutboxWorker (mkConfig 0 0 0)) Background w).2 !! 2%N = Some x'
    /\ ob_status x' = "failed" /\ ob_retry_count x' <= 5.
Proof.
  intros Hpg Henv Hbus w.
  destruct (ProcessBatch_safe (mkConfig 0 0 0) Background w) as [_ Hrows].
  - intros c e v k r E. by rewrite picky_quiet.
  - apply sample_outbox_keyed.
  - destruct (Hrows 2%N (pending_row 2%N "bad" 10)) as (x' & Hx' & _ & _ & Hle & _); [by vm_compute |].
    exists x'. split; [exact Hx' |]. split; [| apply Hle; by vm_compute].
    vm_compute in Hx'. injection Hx' as <-. done.
Defined.

(** C34: the outbox drains.  When the database answers and handlers add no
    events, as many polls as there are events times attempts leave no event
    due: every event is published, or has used all its attempts (or was never
    pending); handlers that always fail cannot keep the worker busy for ever. *)
Theorem outbox_drains `{Env, Pg} {D} `{Lens D OutboxTable} `{Bus D}
    (cfg0 : Config) (ctx : Ctx) (w : World D) (n : nat) :
  handlers_quiet -> calm_env -> outbox_keyed (outbox w) ->
  (forall k r, outbox w !! k = Some r -> 0 <= ob_retry_count r) ->
  let cfg := NewOutboxWorker cfg0 in
  (Z.to_nat (MaxRetries cfg) * size (outbox w) <= n)%nat ->
  exists w', run_batches n cfg ctx w = (Ok tt, w') /\
    forall k r, outbox w' !! k = Some r ->
      ob_status r = "pending" \/ ob_status r = "failed" -> MaxRetries cfg <= ob_retry_count r.
Proof.
  intros Hq Hcalm Hk Hr cfg Hn.
  assert (0 < MaxRetries cfg /\ 0 < BatchSize cfg) as [Hm Hb].
  { unfold cfg, NewOutboxWorker. cbn. split; case_match; lia. }
  destruct (run_batches_drain n cfg ctx w (map_to_list (outbox w)).*1 Hq Hcalm Hk Hm Hb) as (w' & E & Hdue).
  - intros k [x Hx]. apply list_elem_of_fmap. exists (k, x). by rewrite elem_of_map_to_list.
  - etransitivity; [apply total_bound; [lia | done] |].
    by rewrite length_fmap, length_map_to_list.
  - exists w'. split; [done |]. intros k r Hkr Hs. specialize (Hdue k r Hkr). unfold due in Hdue.
    destruct Hs as [Hs|Hs]; rewrite Hs in Hdue; cbn in Hdue; by apply Z.ltb_ge in Hdue.
Qed.

Lemma outbox_drains_witness :
  let Hpg := pgx 0 in let Henv := calm zeroTime 1 in let Hbus := picky_bus in
  exists w', run_batches 10 (NewOutboxWorker (mkConfig 0 1 0)) Background (mkWorld sample_outbox 0%nat) = (Ok tt, w')
    /\ forall k r, outbox w' !! k = Some r ->
         ob_status r = "pending" \/ ob_status r = "failed" -> 5 <= ob_retry_count r.
Proof.
  intros Hpg Henv Hbus.
  apply (outbox_drains (mkConfig 0 1 0) Background (mkWorld sample_outbox 0%nat) 10).
  - apply picky_quiet.
  - done.
  - apply sample_outbox_keyed.
  - intros k r. cbn. unfold sample_outbox. rewrite lookup_insert_Some, lookup_singleton_Some.
    intros [[<- <-]|[_ [<- <-]]]; done.
  - by vm_compute.
Defined.

