(* ===== verification/Registry.v ===== *)
(** * The module registry

    [pkg/module/module.go] and [pkg/module/registry.go]: registration of
    business modules, the dependency order (Kahn's algorithm), and the
    lifecycle calls.  What a module does is its own code: arbitrary
    computations on the host state [D]. *)

From S2P Require Import Prelude GoStrings GoTime Sdk EventBus.
#[local] Open Scope string_scope.
#[local] Open Scope list_scope.
#[local] Open Scope Z_scope.

Record Manifest := mkManifest {
  mf_Name : string;
  mf_Version : string;
  mf_Title : string;
  mf_Description : string;
  mf_Author : string;
  mf_Website : string;
  mf_DependsOn : list string;
}.

Record PermissionDefinition := mkPermissionDefinition {
  pd_Code : string; pd_Name : string; pd_Category : string; pd_Description : string;
}.

(** The [Module] interface: a static manifest and the module's code. *)
Record Module (D : Type) := mkModule {
  m_Manifest : Manifest;
  m_Init : Ctx -> M D unit;
  m_Permissions : list PermissionDefinition;
  m_Subscriptions : list (string * Handler D);
  m_Shutdown : Ctx -> M D unit;
}.
Arguments mkModule {D} _ _ _ _ _.
Arguments m_Manifest {D} _.
Arguments m_Init {D} _.
Arguments m_Permissions {D} _.
Arguments m_Subscriptions {D} _.
Arguments m_Shutdown {D} _.

Record Registry (D : Type) := mkRegistry {
  r_modules : gmap string (Module D);
  r_order : list (Module D);
}.
Arguments mkRegistry {D} _ _.
Arguments r_modules {D} _.
Arguments r_order {D} _.

(** ** Operations *)

Section Ops.
  Context {D : Type} `{UnicodeTables}.
  Implicit Types (r : Registry D) (m : Module D).

Definition m_name m : string := mf_Name (m_Manifest m).
Definition m_deps m : list string := mf_DependsOn (m_Manifest m).

Definition NewRegistry : Registry D := mkRegistry ∅ [].

(** [None] is the nil module. *)
Definition Register (mo : option (Module D)) r : res (Registry D) :=
  match mo with
  | None => Err (Errorf ErrInvalidManifest "module cannot be nil")
  | Some m =>
      if String.eqb (m_name m) "" then Err (Errorf ErrInvalidManifest "module name cannot be empty")
      else match r_modules r !! m_name m with
           | Some _ => Err (Errorf ErrDuplicateModule (Quote (m_name m)))
           | None => Ok (mkRegistry (<[m_name m := m]> (r_modules r)) (r_order r))
           end
  end.

Definition Get (name : string) r : option (Module D) := r_modules r !! name.
Definition Count r : Z := Z.of_nat (size (r_modules r)).

(** [sort.Strings]: byte order. *)
Definition sort_Strings (l : list string) : list string := merge_sort String.le l.

Definition List r : list Manifest :=
  if 0 <? Z.of_nat (length (r_order r)) then map m_Manifest (r_order r)
  else omap (fun k => m_Manifest <$> r_modules r !! k)
         (sort_Strings (map_to_list (r_modules r)).*1).

(** *** The dependency order

    [iter] is the order in which Go iterates over the module map while it
    builds the graph, [iter'] the order over the in-degrees. *)

Abbreviation Degrees := (gmap string Z).
Abbreviation Edges := (gmap string (list string)).

(** One dependency of [name]. *)
Definition add_edge (name dep : string) (g : Degrees * Edges) : Degrees * Edges :=
  (<[name := default 0 (g.1 !! name) + 1]> g.1,
   <[dep := default [] (g.2 !! dep) ++ [name]]> g.2).

Fixpoint add_deps (mods : gmap string (Module D)) (name : string) (deps : list string)
    (g : Degrees * Edges) : res (Degrees * Edges) :=
  match deps with
  | [] => Ok g
  | dep :: deps' =>
      match mods !! dep with
      | None => Err (Errorf ErrModuleNotFound
                  ("module " +:+ Quote name +:+ " depends on missing module " +:+ Quote dep))
      | Some _ => add_deps mods name deps' (add_edge name dep g)
      end
  end.

Fixpoint build_graph (mods : gmap string (Module D)) (iter : list string)
    (g : Degrees * Edges) : res (Degrees * Edges) :=
  match iter with
  | [] => Ok g
  | name :: iter' =>
      match mods !! name with
      | None => build_graph mods iter' g
      | Some m => let? g' := add_deps mods name (m_deps m) g in build_graph mods iter' g'
      end
  end.

(** The inner loop: each dependent loses one prerequisite, and joins the
    sorted queue when none is left. *)
Fixpoint release (names : list string) (st : Degrees * list string) : Degrees * list string :=
  match names with
  | [] => st
  | n :: names' =>
      let d := default 0 (st.1 !! n) - 1 in
      release names' (<[n := d]> st.1, if d =? 0 then sort_Strings (st.2 ++ [n]) else st.2)
  end.

(** The main loop.  Every iteration resolves one name, so the number of
    modules is enough fuel. *)
Fixpoint kahn (fuel : nat) (edges : Edges) (deg : Degrees) (queue resolved : list string) : list string :=
  match fuel, queue with
  | S f, curr :: queue' =>
      let (deg', queue'') := release (default [] (edges !! curr)) (deg, queue') in
      kahn f edges deg' queue'' (resolved ++ [curr])
  | _, _ => resolved
  end.

Definition resolveOrderLocked (iter iter' : list string) r : res (list (Module D)) :=
  let mods := r_modules r in
  let? g := build_graph mods iter (gset_to_gmap 0 (dom mods), ∅) in
  let queue := sort_Strings (filter (fun name => default 0 (g.1 !! name) = 0) iter') in
  let resolved := omap (fun name => mods !! name) (kahn (size mods) g.2 g.1 queue []) in
  if negb (Nat.eqb (length resolved) (size mods))
  then Err (Errorf ErrCircularDependency
         ("resolved " +:+ Itoa (Z.of_nat (length resolved)) +:+ " of "
          +:+ Itoa (Z.of_nat (size mods)) +:+ " modules"))
  else Ok resolved.

Definition ResolveOrder (iter iter' : list string) r : res (list (Module D) * Registry D) :=
  let? order := resolveOrderLocked iter iter' r in
  Ok (order, mkRegistry (r_modules r) order).

(** *** Lifecycle *)

Fixpoint init_all (ctx : Ctx) (ms : list (Module D)) : M D unit :=
  match ms with
  | [] => ret tt
  | m :: ms' =>
      res <- attempt (m_Init m ctx) ;;
      match res with
      | inr err => fail (EWrap ("failed to initialize module " +:+ Quote (m_name m) +:+ ": ") err "")
      | inl _ => init_all ctx ms'
      end
  end.

(** The registry afterwards: the order is kept even when a module fails. *)
Definition InitAll (iter iter' : list string) (ctx : Ctx) r : M D unit * Registry D :=
  match resolveOrderLocked iter iter' r with
  | Ok order => (init_all ctx order, mkRegistry (r_modules r) order)
  | Err e => (fail e, r)
  | Panic e => (panic e, r)
  end.

(** [ShutdownAll] calls every module, last first, and joins the errors. *)
Fixpoint shutdown_all (ctx : Ctx) (ms : list (Module D)) : M D (list error) :=
  match ms with
  | [] => ret []
  | m :: ms' =>
      res <- attempt (m_Shutdown m ctx) ;;
      errs <- shutdown_all ctx ms' ;;
      ret (match res with
           | inr err => EWrap ("module " +:+ m_name m +:+ ": ") err "" :: errs
           | inl _ => errs
           end)
  end.

Definition ShutdownAll (ctx : Ctx) r : M D (list error) := shutdown_all ctx (rev (r_order r)).

(** [BindSubscriptions], for a host that has a bus. *)
Definition BindSubscriptions r (bus : inMemoryBus D) : inMemoryBus D :=
  fold_left (fun b m => fold_left (fun b s => Subscribe b s.1 s.2) (m_Subscriptions m) b) (r_order r) bus.
End Ops.

(** *** Permissions *)

(** A row of the [permissions] catalog, keyed by its code. *)
Record PermRow := mkPermRow { pr_id : ID; pr_code : string; pr_name : string; pr_category : string; pr_description : string }.

Section Permissions.
  Context {D : Type} `{UnicodeTables, Env}.

(** INSERT ... ON CONFLICT (code) DO UPDATE: an existing row keeps its
    identifier. *)
Definition upsert_permission (permID : ID) (p : PermissionDefinition) (t : gmap string PermRow) :
    res (unit * gmap string PermRow) :=
  let id := match t !! pd_Code p with Some old => pr_id old | None => permID end in
  Ok (tt, <[pd_Code p := mkPermRow id (pd_Code p) (pd_Name p) (pd_Category p) (pd_Description p)]> t).

Fixpoint register_permissions (module_name : string) (ps : list PermissionDefinition) :
    M (gmap string PermRow) unit :=
  match ps with
  | [] => ret tt
  | p :: ps' =>
      permID <- NewID ;;
      res <- attempt (query (upsert_permission permID p)) ;;
      match res with
      | inr err => fail (EWrap ("failed to register permission " +:+ Quote (pd_Code p)
                                +:+ " for module " +:+ Quote module_name +:+ ": ") err "")
      | inl _ => register_permissions module_name ps'
      end
  end.

(** Nothing happens for a host without a database. *)
Definition RegisterPermissions (db : bool) (r : Registry D) : M (gmap string PermRow) unit :=
  if negb db then ret tt
  else fold_right (fun m k => register_permissions (m_name m) (m_Permissions m) ;;; k) (ret tt) (r_order r).
End Permissions.

(** ** What the order must be *)

Section Order.
  Context {D : Type}.
  Implicit Types (mods : gmap string (Module D)).

(** The dependencies of a registered name. *)
Definition deps mods (n : string) : list string := from_option m_deps [] (mods !! n).

(** Every dependency is registered. *)
Definition closed mods : Prop := forall n m d, mods !! n = Some m -> d ∈ m_deps m -> is_Some (mods !! d).

(** The dependencies have no cycle: names can be ranked. *)
Definition acyclic mods : Prop :=
  exists rank : string -> nat, forall n m d, mods !! n = Some m -> d ∈ m_deps m -> (rank d < rank n)%nat.

(** [y] may come after the names [l]. *)
Definition available mods (l : list string) (y : string) : Prop :=
  is_Some (mods !! y) /\ y ∉ l /\ forall d, d ∈ deps mods y -> d ∈ l.

(** Each name comes after its dependencies, and is the least in byte order of
    the names that could have come. *)
Definition greedy mods (l : list string) : Prop :=
  forall l1 x l2, l = l1 ++ x :: l2 ->
    available mods l1 x /\ forall y, available mods l1 y -> String.le x y.

Definition init_order mods (l : list string) : Prop :=
  (forall n, n ∈ l <-> is_Some (mods !! n)) /\ NoDup l /\ greedy mods l.

Lemma greedy_unique mods l l' : init_order mods l -> init_order mods l' -> l = l'.
Proof.
  intros (Hin & Hnd & Hg) (Hin' & Hnd' & Hg').
  assert (length l = length l') as Hlen.
  { apply Permutation_length, NoDup_Permutation; [done | done |]. intros x. by rewrite Hin, Hin'. }
  assert (forall s s' p, l = p ++ s -> l' = p ++ s' -> s = s') as X.
  { induction s as [|x s IH]; intros [|x' s'] p E E'; try done.
    - rewrite E, E', !length_app in Hlen. cbn in Hlen. lia.
    - rewrite E, E', !length_app in Hlen. cbn in Hlen. lia.
    - destruct (Hg p x s E) as [Ha Hm], (Hg' p x' s' E') as [Ha' Hm'].
      assert (x = x') as <- by (apply (anti_symm String.le); auto).
      f_equal. apply (IH s' (p ++ [x])); rewrite <- app_assoc; assumption. }
  by apply (X l l' []).
Qed.

Lemma greedy_snoc mods l x :
  greedy mods l -> available mods l x -> (forall y, available mods l y -> String.le x y) ->
  greedy mods (l ++ [x]).
Proof.
  intros Hg Ha Hm l1 y l2 E. destruct l2 as [|z l2 _] using rev_ind.
  - apply app_inj_tail in E as [<- <-]. done.
  - rewrite app_comm_cons, app_assoc in E. apply app_inj_tail in E as [-> _]. by eapply Hg.
Qed.

(** An order respects the dependencies, so it ranks them. *)
Lemma init_order_acyclic mods l : init_order mods l -> acyclic mods.
Proof.
  intros (Hin & Hnd & Hg).
  exists (fun n => from_option fst 0%nat (list_find (eq n) l)). intros n m d Hn Hd.
  assert (n ∈ l) as Hnl by (apply Hin; eauto).
  apply list_elem_of_split in Hnl as (l1 & l2 & ->).
  destruct (Hg l1 n l2 eq_refl) as [(_ & Hn1 & Hdeps) _].
  assert (d ∈ l1) as Hd1 by (apply Hdeps; unfold deps; by rewrite Hn).
  rewrite (list_find_app_r (eq n) l1) by (apply list_find_None, Forall_forall; by intros x Hx ->).
  cbn. rewrite decide_True by done. cbn.
  apply list_elem_of_split in Hd1 as (a & b & ->).
  destruct (list_find (eq d) ((a ++ d :: b) ++ n :: l2)) as [[i y]|] eqn:E; cbn; [| rewrite length_app; cbn; lia].
  apply list_find_Some in E as (_ & _ & Hfirst).
  destruct (decide (i < length (a ++ d :: b))%nat); [lia |].
  exfalso. apply (Hfirst (length a) d); [| rewrite length_app in *; cbn in *; lia | done].
  rewrite <- app_assoc, lookup_app_r by lia. by rewrite Nat.sub_diag.
Qed.
End Order.

(** ** Kahn's algorithm computes it *)

Section Kahn.
  Context {D : Type} `{UnicodeTables}.
  Implicit Types (mods : gmap string (Module D)) (deg : gmap string Z) (edges : gmap string (list string)).

Definition dg deg (n : string) : Z := default 0 (deg !! n).
Definition cnt (n : string) (l : list string) : Z := Z.of_nat (count_occ String.string_dec l n).
Definition dependents edges (p : string) : list string := default [] (edges !! p).

Lemma cnt_nil n : cnt n [] = 0.
Proof. done. Qed.

Lemma cnt_cons n x l : cnt n (x :: l) = (if decide (n = x) then 1 else 0) + cnt n l.
Proof.
  unfold cnt. cbn. destruct (String.string_dec x n), (decide (n = x)); try congruence; lia.
Qed.

Lemma cnt_app n l l' : cnt n (l ++ l') = cnt n l + cnt n l'.
Proof. unfold cnt. rewrite count_occ_app. lia. Qed.

Lemma cnt_nonneg n l : 0 <= cnt n l.
Proof. unfold cnt. lia. Qed.

Lemma cnt_pos n l : 0 < cnt n l <-> n ∈ l.
Proof. unfold cnt. rewrite list_elem_of_In, (count_occ_In String.string_dec). lia. Qed.

Lemma cnt_zero n l : cnt n l = 0 <-> n ∉ l.
Proof. rewrite <- cnt_pos. pose proof (cnt_nonneg n l). lia. Qed.

Lemma dg_insert deg n v x : dg (<[n := v]> deg) x = if decide (x = n) then v else dg deg x.
Proof.
  unfold dg. destruct (decide (x = n)) as [->|]; [by rewrite lookup_insert_eq | by rewrite lookup_insert_ne].
Qed.

Lemma dependents_add edges p n x :
  dependents (<[p := default [] (edges !! p) ++ [n]]> edges) x
  = if decide (x = p) then dependents edges p ++ [n] else dependents edges x.
Proof.
  unfold dependents. destruct (decide (x = p)) as [->|]; [by rewrite lookup_insert_eq | by rewrite lookup_insert_ne].
Qed.

(** *** The graph *)

Lemma add_deps_ok mods name ds g :
  (forall d, d ∈ ds -> is_Some (mods !! d)) ->
  exists g', add_deps mods name ds g = Ok g'
    /\ (forall n, dg g'.1 n = dg g.1 n + if decide (n = name) then Z.of_nat (length ds) else 0)
    /\ (forall p n, cnt n (dependents g'.2 p)
                    = cnt n (dependents g.2 p) + if decide (n = name) then cnt p ds else 0).
Proof.
  revert g. induction ds as [|d ds IH]; intros g Hd.
  - exists g. split_and!; [done | |]; intros; case_decide; rewrite ?cnt_nil; cbn; lia.
  - cbn [add_deps]. destruct (Hd d ltac:(by left)) as [m ->].
    destruct (IH (add_edge name d g) ltac:(intros; apply Hd; by right)) as (g' & -> & Hdeg & Hedge).
    exists g'. split_and!; [done | |].
    + intros n. rewrite Hdeg. unfold add_edge. cbn [fst]. rewrite dg_insert. fold (dg g.1 name).
      case_decide; subst; cbn [length]; lia.
    + intros p n. rewrite Hedge. unfold add_edge. cbn [snd]. rewrite dependents_add, cnt_cons.
      destruct (decide (p = d)) as [->|]; rewrite ?cnt_app, ?cnt_cons, ?cnt_nil; repeat case_decide; lia.
Qed.

Lemma add_deps_err mods name ds g :
  (exists d, d ∈ ds /\ mods !! d = None) ->
  exists msg, add_deps mods name ds g = Err (Errorf ErrModuleNotFound msg).
Proof.
  revert g. induction ds as [|d ds IH]; intros g (x & Hx & Hn); [by apply not_elem_of_nil in Hx |].
  cbn [add_deps]. destruct (mods !! d) eqn:E; [| eauto].
  apply IH. exists x. apply elem_of_cons in Hx as [->|Hx]; [congruence | done].
Qed.

Lemma build_graph_ok mods iter g :
  closed mods -> NoDup iter ->
  exists g', build_graph mods iter g = Ok g'
    /\ (forall n, dg g'.1 n = dg g.1 n + if decide (n ∈ iter) then Z.of_nat (length (deps mods n)) else 0)
    /\ (forall p n, cnt n (dependents g'.2 p)
                    = cnt n (dependents g.2 p) + if decide (n ∈ iter) then cnt p (deps mods n) else 0).
Proof.
  intros Hc. revert g. induction iter as [|name iter IH]; intros g Hnd.
  - exists g. split_and!; [done | |]; intros; rewrite decide_False by apply not_elem_of_nil; lia.
  - apply NoDup_cons in Hnd as [Hni Hnd]. cbn [build_graph].
    assert (forall n (a : Z), (if decide (n ∈ name :: iter) then a else 0)
              = (if decide (n = name) then a else 0) + (if decide (n ∈ iter) then a else 0)) as Hsplit.
    { intros n a. destruct (decide (n = name)) as [->|Hne].
      - rewrite decide_True by by left. rewrite decide_False by done. lia.
      - destruct (decide (n ∈ iter)) as [Hi|Hi]; [rewrite decide_True by by right | rewrite decide_False by (rewrite elem_of_cons; tauto)]; lia. }
    destruct (mods !! name) as [m|] eqn:Em.
    + destruct (add_deps_ok mods name (m_deps m) g) as (g1 & -> & Hd1 & He1); [by intros; eapply Hc |].
      cbn [res_bind]. destruct (IH g1 Hnd) as (g' & -> & Hd & He). exists g'. split_and!; [done | |].
      * intros n. rewrite Hd, Hd1, Hsplit. destruct (decide (n = name)) as [->|]; [| lia].
        unfold deps at 2. rewrite Em. cbn. lia.
      * intros p n. rewrite He, He1, Hsplit. destruct (decide (n = name)) as [->|]; [| lia].
        unfold deps at 2. rewrite Em. cbn. lia.
    + destruct (IH g Hnd) as (g' & -> & Hd & He). exists g'.
      assert (deps mods name = []) as E0 by (unfold deps; by rewrite Em).
      split_and!; [done | |].
      * intros n. rewrite Hd, Hsplit. destruct (decide (n = name)) as [->|]; rewrite ?E0; cbn; repeat case_decide; lia.
      * intros p n. rewrite He, Hsplit. destruct (decide (n = name)) as [->|]; rewrite ?E0, ?cnt_nil; cbn; repeat case_decide; lia.
Qed.

Lemma build_graph_err mods iter g :
  (exists n m d, n ∈ iter /\ mods !! n = Some m /\ d ∈ m_deps m /\ mods !! d = None) ->
  exists msg, build_graph mods iter g = Err (Errorf ErrModuleNotFound msg).
Proof.
  revert g. induction iter as [|name iter IH]; intros g (n & m & d & Hn & Hm & Hd & Hnone);
    [by apply not_elem_of_nil in Hn |].
  cbn [build_graph]. destruct (mods !! name) as [m'|] eqn:Em.
  - destruct (decide (Exists (fun d => mods !! d = None) (m_deps m'))) as [Hx|Hx].
    + apply Exists_exists in Hx. destruct (add_deps_err mods name (m_deps m') g) as [msg ->]; [naive_solver |].
      eauto.
    + destruct (add_deps_ok mods name (m_deps m') g) as (g1 & -> & _).
      { intros x Hxin. destruct (mods !! x) eqn:E; [eauto |]. exfalso. apply Hx, Exists_exists. eauto. }
      apply IH. exists n, m, d. split_and!; try done. apply elem_of_cons in Hn as [->|Hn]; [| done].
      exfalso. apply Hx, Exists_exists. exists d. split; [congruence | done].
  - apply IH. exists n, m, d. split_and!; try done. apply elem_of_cons in Hn as [->|Hn]; [congruence | done].
Qed.

(** *** The loops *)

Lemma sort_Strings_Permutation l : Permutation (sort_Strings l) l.
Proof. apply merge_sort_Permutation. Qed.

Lemma sort_Strings_sorted l : StronglySorted String.le (sort_Strings l).
Proof. apply Sorted_StronglySorted; [apply _ |]. apply (Sorted_merge_sort _). Qed.

Lemma release_spec names deg queue :
  (forall n, cnt n names <= dg deg n) -> StronglySorted String.le queue ->
  exists deg' freed, let queue' := (release names (deg, queue)).2 in
    release names (deg, queue) = (deg', queue') /\ StronglySorted String.le queue'
    /\ Permutation queue' (queue ++ freed) /\ NoDup freed
    /\ (forall n, n ∈ freed <-> n ∈ names /\ dg deg n = cnt n names)
    /\ (forall n, dg deg' n = dg deg n - cnt n names).
Proof.
  revert deg queue. induction names as [|x names IH]; intros deg queue Hle Hs.
  - exists deg, []. cbn. split_and!; [done | done | by rewrite app_nil_r | constructor | |].
    + intros n. rewrite elem_of_nil. naive_solver.
    + intros n. rewrite cnt_nil. lia.
  - cbn [release]. cbn [fst snd]. fold (dg deg x).
    set (deg1 := <[x := dg deg x - 1]> deg).
    set (q1 := if dg deg x - 1 =? 0 then sort_Strings (queue ++ [x]) else queue).
    assert (forall n, dg deg1 n = dg deg n - if decide (n = x) then 1 else 0) as Hd1.
    { intros n. unfold deg1. rewrite dg_insert. case_decide; subst; lia. }
    assert (forall n, cnt n names <= dg deg1 n) as Hle1.
    { intros n. specialize (Hle n). rewrite Hd1, cnt_cons in *. case_decide; lia. }
    assert (StronglySorted String.le q1) as Hs1.
    { unfold q1. case_match; [apply sort_Strings_sorted | done]. }
    destruct (IH deg1 q1 Hle1 Hs1) as (deg' & freed & E & Hs' & Hp & Hnd & Hf & Hd).
    pose proof (Hle1 x) as Hx1. rewrite Hd1, decide_True in Hx1 by done.
    pose proof (cnt_nonneg x names) as Hxn.
    destruct (Z.eqb_spec (dg deg x - 1) 0) as [E0|E0].
    + assert (x ∉ freed) as Hxf.
      { intros Hin. apply Hf in Hin as [Hin%cnt_pos _]. lia. }
      exists deg', (x :: freed). rewrite E. cbn [snd]. split_and!; [done | done | | by constructor | |].
      * rewrite Hp. unfold q1. rewrite sort_Strings_Permutation, <- app_assoc. done.
      * intros n. rewrite elem_of_cons, Hf, Hd1, elem_of_cons, cnt_cons.
        destruct (decide (n = x)) as [->|]; [| naive_solver lia]. split; [intros _ | by left].
        split; [by left |]. lia.
      * intros n. rewrite Hd, Hd1, cnt_cons. lia.
    + exists deg', freed. rewrite E. cbn [snd]. split_and!; [done | done | done | done | |].
      * intros n. rewrite Hf, Hd1, elem_of_cons, cnt_cons.
        destruct (decide (n = x)) as [->|]; [| naive_solver lia]. split; [intros [? ?]; split; [by left | lia] |].
        intros [_ Ed]. split; [| lia]. apply cnt_pos. lia.
      * intros n. rewrite Hd, Hd1, cnt_cons. lia.
Qed.

(** Prerequisites that are not resolved yet. *)
Definition todo (resolved ds : list string) : Z := Z.of_nat (length (filter (fun d => d ∉ resolved) ds)).

Lemma todo_snoc resolved c ds : c ∉ resolved -> todo (resolved ++ [c]) ds = todo resolved ds - cnt c ds.
Proof.
  intros Hc. unfold todo. induction ds as [|d ds IH]; [done |].
  rewrite !filter_cons, cnt_cons.
  destruct (decide (c = d)) as [->|Hne].
  - rewrite decide_False by set_solver. rewrite decide_True by done. cbn [length]. lia.
  - destruct (decide (d ∉ resolved)).
    + rewrite decide_True by set_solver. cbn [length]. lia.
    + rewrite decide_False by set_solver. lia.
Qed.

Lemma todo_zero resolved ds : todo resolved ds = 0 <-> forall d, d ∈ ds -> d ∈ resolved.
Proof.
  unfold todo. induction ds as [|d ds IH].
  - split; [intros _ d Hd; by apply not_elem_of_nil in Hd | done].
  - rewrite filter_cons. destruct (decide (d ∉ resolved)) as [Hn|Hn]; cbn [length].
    + split; [lia |]. intros Hall. exfalso. apply Hn, Hall. by left.
    + rewrite IH. split; [| intros Hall x Hx; apply Hall; by right].
      intros Hall x [->|Hx]%elem_of_cons; [by apply dec_stable | auto].
Qed.

Lemma todo_nil ds : todo [] ds = Z.of_nat (length ds).
Proof.
  unfold todo. f_equal. induction ds as [|d ds IH]; [done |].
  rewrite filter_cons_True by apply not_elem_of_nil. cbn. by rewrite IH.
Qed.

Record kinv mods edges deg (queue resolved : list string) : Prop := {
  k_edges : forall p n, cnt n (dependents edges p) = if decide (is_Some (mods !! n)) then cnt p (deps mods n) else 0;
  k_nodup : NoDup (resolved ++ queue);
  k_sub : forall n, n ∈ resolved ++ queue -> is_Some (mods !! n);
  k_deg : forall n, is_Some (mods !! n) -> dg deg n = todo resolved (deps mods n);
  k_deg_out : forall n, mods !! n = None -> dg deg n = 0;
  k_ready : forall n, is_Some (mods !! n) -> dg deg n = 0 <-> n ∈ resolved ++ queue;
  k_sorted : StronglySorted String.le queue;
  k_greedy : greedy mods resolved;
}.

(** The names freed by a step are new. *)
Lemma NoDup_freed resolved c queue queue' (freed : list string) :
  NoDup (resolved ++ c :: queue) -> queue' ≡ₚ queue ++ freed -> NoDup freed ->
  (forall n, n ∈ freed -> n ∉ resolved ++ c :: queue) -> NoDup ((resolved ++ [c]) ++ queue').
Proof.
  intros Hnd Hp Hf Hnew. rewrite Hp, <- app_assoc. cbn [app].
  change (resolved ++ c :: queue ++ freed) with (resolved ++ (c :: queue) ++ freed). rewrite app_assoc.
  apply NoDup_app. split_and!; [done | | done]. intros n Hn Hfr. by apply (Hnew n Hfr).
Qed.

(** The head of the queue is the least name that could come next. *)
Lemma kinv_greedy mods edges deg c queue resolved :
  kinv mods edges deg (c :: queue) resolved -> greedy mods (resolved ++ [c]).
Proof.
  intros [_ Hnd Hsub Hdeg _ Hready Hsorted Hgreedy].
  apply NoDup_app in Hnd as (_ & Hdisj & _). apply StronglySorted_inv in Hsorted as [_ Hmin].
  assert (is_Some (mods !! c)) as Hcm by (apply Hsub; set_solver).
  apply greedy_snoc; [done | |].
  - split_and!; [done | intros Hc; apply (Hdisj c Hc); by left |].
    apply todo_zero. rewrite <- Hdeg by done. apply Hready; [done | set_solver].
  - intros y (Hy & Hyr & Hyd). apply todo_zero in Hyd. rewrite <- Hdeg in Hyd by done.
    apply Hready in Hyd; [| done]. rewrite elem_of_app, elem_of_cons in Hyd.
    destruct Hyd as [?|[->|Hq]]; [done | reflexivity |]. rewrite Forall_forall in Hmin. auto.
Qed.

Lemma kinv_step mods edges deg c queue resolved :
  kinv mods edges deg (c :: queue) resolved ->
  let st := release (dependents edges c) (deg, queue) in
  kinv mods edges st.1 st.2 (resolved ++ [c]).
Proof.
  intros K. pose proof (kinv_greedy _ _ _ _ _ _ K) as Hgreedy.
  destruct K as [Hedges Hnd Hsub Hdeg Hout Hready Hsorted _].
  assert (c ∉ resolved) as Hcr
    by (apply NoDup_app in Hnd as (_ & Hdisj & _); intros Hc; apply (Hdisj c Hc); by left).
  apply StronglySorted_inv in Hsorted as [Hsorted _].
  assert (forall n, cnt n (dependents edges c) <= dg deg n) as Hle.
  { intros n. rewrite Hedges. case_decide as Hn.
    - rewrite Hdeg by done. pose proof (todo_snoc resolved c (deps mods n) Hcr).
      unfold todo in *. lia.
    - destruct (mods !! n) eqn:E; [exfalso; eauto |]. by rewrite (Hout n E). }
  destruct (release_spec _ deg queue Hle Hsorted) as (deg' & freed & E & Hs' & Hp & Hndf & Hf & Hd).
  cbv zeta. rewrite E. set (queue' := (release (dependents edges c) (deg, queue)).2) in *. cbn [fst snd].
  assert (forall n, n ∈ freed -> is_Some (mods !! n) /\ dg deg n <> 0) as Hfree.
  { intros n Hn. apply Hf in Hn as [Hn Edn]. apply cnt_pos in Hn. split; [| lia].
    rewrite Hedges in Hn. case_decide; [done | lia]. }
  assert (forall n, is_Some (mods !! n) -> dg deg n = 0 <-> n ∈ resolved \/ n = c \/ n ∈ queue) as Hready'.
  { intros n Hn. rewrite Hready, elem_of_app, elem_of_cons by done. done. }
  assert (forall n, n ∈ (resolved ++ [c]) ++ queue' <-> (n ∈ resolved \/ n = c \/ n ∈ queue) \/ n ∈ freed) as Hmem.
  { intros n. rewrite Hp, !elem_of_app, list_elem_of_singleton. tauto. }
  assert (forall n, is_Some (mods !! n) -> dg deg' n = todo (resolved ++ [c]) (deps mods n)) as Hdeg'.
  { intros n Hn. rewrite Hd, Hedges, decide_True, Hdeg by done. by rewrite todo_snoc. }
  constructor; [done | | | done | | | done | done].
  - eapply NoDup_freed; [done | done | done |]. intros n Hfr Hn. destruct (Hfree n Hfr) as [Hs Hne].
    by apply Hne, Hready.
  - intros n Hn. apply Hmem in Hn as [Hn|Hn]; [| by apply Hfree].
    apply Hsub. rewrite elem_of_app, elem_of_cons. done.
  - intros n Hn. rewrite Hd, Hedges, decide_False by (rewrite Hn; apply is_Some_None). rewrite Hout by done. lia.
  - intros n Hn. rewrite Hmem. split.
    + intros Hz. rewrite Hd in Hz. destruct (decide (dg deg n = 0)) as [Hz0|Hz0].
      * left. by apply Hready'.
      * right. apply Hf. pose proof (cnt_nonneg n (dependents edges c)). split; [apply cnt_pos; lia | lia].
    + rewrite Hd. intros [Hold|Hfr].
      * apply Hready' in Hold; [| done]. specialize (Hle n). pose proof (cnt_nonneg n (dependents edges c)). lia.
      * apply Hf in Hfr as [_ ->]. lia.
Qed.

(** The resolved and queued names are distinct keys. *)
Lemma kinv_length mods edges deg queue resolved :
  kinv mods edges deg queue resolved -> (length resolved + length queue <= size mods)%nat.
Proof.
  intros K. rewrite <- length_app, <- size_dom, <- (size_list_to_set (C := gset string) (resolved ++ queue)) by apply K.
  apply subseteq_size. intros n Hn%elem_of_list_to_set. apply elem_of_dom. by eapply k_sub.
Qed.

Lemma kahn_spec fuel mods edges deg queue resolved :
  kinv mods edges deg queue resolved -> (size mods <= fuel + length resolved)%nat ->
  exists deg', kinv mods edges deg' [] (kahn fuel edges deg queue resolved).
Proof.
  revert deg queue resolved. induction fuel as [|fuel IH]; intros deg queue resolved K Hf.
  - pose proof (kinv_length _ _ _ _ _ K). destruct queue; cbn in *; [| lia]. eauto.
  - destruct queue as [|c queue]; [eauto |]. cbn [kahn].
    pose proof (kinv_step _ _ _ _ _ _ K) as K'. unfold dependents in K'. cbv zeta in K'.
    destruct (release (default [] (edges !! c)) (deg, queue)) as [deg1 queue1].
    apply IH; [done |]. rewrite length_app. cbn. lia.
Qed.

(** Without cycles nothing is left over. *)
Lemma kinv_complete mods edges deg resolved :
  closed mods -> acyclic mods -> kinv mods edges deg [] resolved ->
  forall n, is_Some (mods !! n) -> n ∈ resolved.
Proof.
  intros Hc [rank Hr] K.
  assert (forall k n, (rank n < k)%nat -> is_Some (mods !! n) -> n ∈ resolved) as X; [| eauto].
  induction k as [|k IH]; intros n Hk Hn; [lia |].
  rewrite <- (app_nil_r resolved). apply (k_ready _ _ _ _ _ K n Hn).
  rewrite (k_deg _ _ _ _ _ K n Hn). apply todo_zero. destruct Hn as [m Hn]. unfold deps. rewrite Hn. cbn.
  intros d Hd. apply IH; [| by eapply Hc]. specialize (Hr _ _ _ Hn Hd). lia.
Qed.

(** The initial graph. *)
Definition keys_of mods (iter : list string) : Prop := NoDup iter /\ forall n, n ∈ iter <-> is_Some (mods !! n).

Lemma kinv_init mods iter iter' g :
  closed mods -> keys_of mods iter -> keys_of mods iter' ->
  build_graph mods iter (gset_to_gmap 0 (dom mods), ∅) = Ok g ->
  kinv mods g.2 g.1 (sort_Strings (filter (fun name => default 0 (g.1 !! name) = 0) iter')) [].
Proof.
  intros Hc [Hnd Hk] [Hnd' Hk'] Eg.
  destruct (build_graph_ok mods iter (gset_to_gmap 0 (dom mods), ∅) Hc Hnd) as (g' & Eg' & Hd & He).
  rewrite Eg in Eg'. injection Eg' as <-.
  assert (forall n, dg (gset_to_gmap 0 (dom mods)) n = 0) as Hz.
  { intros n. unfold dg. destruct (gset_to_gmap 0 (dom mods) !! n) eqn:E; [| done].
    by apply lookup_gset_to_gmap_Some in E as [_ <-]. }
  assert (forall n, is_Some (mods !! n) -> dg g.1 n = todo [] (deps mods n)) as Hdeg.
  { intros n Hn. rewrite Hd. cbn [fst]. rewrite Hz, decide_True by by apply Hk. rewrite todo_nil. lia. }
  constructor; cbn [app].
  - intros p n. rewrite He. cbn [snd]. unfold dependents at 1. rewrite lookup_empty. cbn [default]. rewrite cnt_nil.
    destruct (decide (n ∈ iter)) as [Hi|Hi]; rewrite Hk in Hi; [by rewrite decide_True | by rewrite decide_False].
  - rewrite sort_Strings_Permutation. by apply NoDup_filter.
  - intros n. rewrite sort_Strings_Permutation. intros [_ Hn]%list_elem_of_filter. by apply Hk'.
  - done.
  - intros n Hn. rewrite Hd. cbn [fst]. rewrite Hz, decide_False; [done |]. rewrite Hk, Hn. apply is_Some_None.
  - intros n Hn. rewrite sort_Strings_Permutation, list_elem_of_filter, Hk'. unfold dg. naive_solver.
  - apply sort_Strings_sorted.
  - intros l1 x l2 E. by destruct l1.
Qed.

(** Modules are stored under the name of their manifest. *)
Definition named mods : Prop := forall n m, mods !! n = Some m -> m_name m = n.

Lemma omap_lookup_names mods (l : list string) :
  named mods -> (forall n, n ∈ l -> is_Some (mods !! n)) ->
  map m_name (omap (fun n => mods !! n) l) = l.
Proof.
  intros Hn. induction l as [|x l IH]; intros Hl; [done |]. cbn.
  destruct (Hl x ltac:(by left)) as [m Hm]. rewrite Hm. cbn.
  rewrite (Hn _ _ Hm), IH; [done |]. intros; apply Hl; by right.
Qed.

(** The three outcomes. *)
Lemma resolve_cases iter iter' (r : Registry D) :
  let mods := r_modules r in
  named mods -> keys_of mods iter -> keys_of mods iter' ->
  (~ closed mods /\ exists msg, resolveOrderLocked iter iter' r = Err (Errorf ErrModuleNotFound msg))
  \/ (closed mods /\ ~ acyclic mods
      /\ exists msg, resolveOrderLocked iter iter' r = Err (Errorf ErrCircularDependency msg))
  \/ (closed mods /\ acyclic mods /\ exists order,
        resolveOrderLocked iter iter' r = Ok order /\ init_order mods (map m_name order)).
Proof.
  intros mods Hnamed Hk Hk'. unfold resolveOrderLocked. fold mods.
  destruct (decide (Exists (fun n => Exists (fun d => mods !! d = None) (deps mods n)) iter)) as [Hx|Hx].
  - left. apply Exists_exists in Hx as (n & Hn & Hx). apply Exists_exists in Hx as (d & Hd & Hnone).
    unfold deps in Hd. destruct (mods !! n) as [m|] eqn:Em; [| by apply not_elem_of_nil in Hd]. cbn in Hd.
    split; [intros Hc; destruct (Hc _ _ _ Em Hd); congruence |].
    destruct (build_graph_err mods iter (gset_to_gmap 0 (dom mods), ∅)) as [msg ->]; [naive_solver |]. eauto.
  - right.
    assert (closed mods) as Hc.
    { intros n m d Hn Hd. destruct (mods !! d) eqn:Ed; [eauto |]. exfalso. apply Hx, Exists_exists. exists n.
      split; [apply Hk; eauto |]. apply Exists_exists. exists d. split; [| done]. unfold deps. by rewrite Hn. }
    destruct (build_graph_ok mods iter (gset_to_gmap 0 (dom mods), ∅) Hc (proj1 Hk)) as (g & Eg & _).
    rewrite Eg. cbn [res_bind]. pose proof (kinv_init mods iter iter' g Hc Hk Hk' Eg) as K0.
    destruct (kahn_spec (size mods) _ _ _ _ _ K0) as [deg' K]; [cbn; lia |].
    set (l := kahn _ _ _ _ _) in *.
    assert (map m_name (omap (fun n => mods !! n) l) = l) as El.
    { apply omap_lookup_names; [done |]. intros n Hn. apply (k_sub _ _ _ _ _ K). rewrite app_nil_r. done. }
    assert (length (omap (fun n => mods !! n) l) = length l) as Elen by (rewrite <- El at 2; by rewrite length_map).
    pose proof (k_nodup _ _ _ _ _ K) as Hnd. rewrite app_nil_r in Hnd.
    rewrite Elen. destruct (Nat.eqb_spec (length l) (size mods)) as [E|E]; cbn [negb].
    + assert (init_order mods l) as Ho.
      { split_and!; [| done | apply K]. intros n. split; [intros; apply (k_sub _ _ _ _ _ K); by rewrite app_nil_r |].
        intros Hn. apply elem_of_dom in Hn. rewrite <- (elem_of_list_to_set (C := gset string)).
        enough (list_to_set l = dom mods) as -> by done. apply set_eq.
        apply (set_subseteq_size_equiv (list_to_set l : gset string) (dom mods)).
        - intros x Hx'%elem_of_list_to_set. apply elem_of_dom, (k_sub _ _ _ _ _ K). by rewrite app_nil_r.
        - rewrite size_list_to_set, size_dom by done. lia. }
      right. split; [done |]. split; [by eapply init_order_acyclic |]. eexists. split; [done |]. by rewrite El.
    + left. split; [done |]. split; [| eauto]. intros Hac. apply E.
      pose proof (kinv_complete _ _ _ _ Hc Hac K) as Hall.
      rewrite <- (size_list_to_set (C := gset string) l), <- size_dom by done. f_equal.
      apply set_eq. intros n. rewrite elem_of_list_to_set, elem_of_dom.
      split; [intros; apply (k_sub _ _ _ _ _ K); by rewrite app_nil_r | auto].
Qed.

(** Registration keeps names and keys in step. *)
Lemma Register_named mo (r r' : Registry D) :
  named (r_modules r) -> Register mo r = Ok r' -> named (r_modules r').
Proof.
  intros Hn. unfold Register. destruct mo as [m|]; [| done].
  destruct (String.eqb (m_name m) ""); [done |]. destruct (r_modules r !! m_name m); [done |].
  intros [= <-]. cbn. intros n m'. rewrite lookup_insert_Some. intros [[<- <-]|[_ Hm]]; [done | auto].
Qed.

Fixpoint register_all (ms : list (Module D)) (r : Registry D) : res (Registry D) :=
  match ms with
  | [] => Ok r
  | m :: ms' => let? r' := Register (Some m) r in register_all ms' r'
  end.

Lemma register_all_named ms (r r' : Registry D) :
  named (r_modules r) -> register_all ms r = Ok r' -> named (r_modules r').
Proof.
  revert r. induction ms as [|m ms IH]; intros r Hn; cbn [register_all]; [by intros [= <-] |].
  destruct (Register (Some m) r) eqn:E; cbn [res_bind]; [| done | done].
  apply IH. by eapply Register_named.
Qed.
End Kahn.

(** ** Properties of the registry *)

Definition sample_module (name : string) (ds : list string) : Module (list string) :=
  mkModule (mkManifest name "1.0.0" "" "" "" "" ds)
    (fun _ w => (Ok tt, mkWorld (w_db w ++ ["init " +:+ name]) (w_tick w))) [] []
    (fun _ w => (Ok tt, mkWorld (w_db w ++ ["stop " +:+ name]) (w_tick w))).

Definition sample_modules : list (Module (list string)) :=
  [sample_module "sales" ["inventory"; "party"]; sample_module "inventory" ["party"];
   sample_module "party" []; sample_module "audit" []].

Definition sample_registry : Registry (list string) :=
  match register_all sample_modules NewRegistry with Ok r => r | _ => NewRegistry end.

Definition sample_iter : list string := (map_to_list (r_modules sample_registry)).*1.

Lemma sample_named : named (r_modules sample_registry).
Proof.
  apply (register_all_named sample_modules NewRegistry); [| by vm_compute].
  intros n m Hm. cbn in Hm. by rewrite lookup_empty in Hm.
Qed.

Lemma map_keys_of {D} (mods : gmap string (Module D)) : keys_of mods (map_to_list mods).*1.
Proof.
  split; [apply NoDup_fst_map_to_list |]. intros n. rewrite list_elem_of_fmap. split.
  - intros ([k m] & -> & Hm%elem_of_map_to_list). eauto.
  - intros [m Hm]. exists (n, m). by rewrite elem_of_map_to_list.
Qed.

(** C36: the dependency order is found exactly when there is one.  For every
    iteration order of Go's map, resolving succeeds if and only if every
    dependency is registered and there is no cycle, and then each module comes
    after its dependencies and is the least by name among those that could
    come next; a missing dependency gives [ErrModuleNotFound], a cycle
    [ErrCircularDependency]. *)
Theorem resolveOrder_exact {D} `{UnicodeTables} (r : Registry D) (iter iter' : list string) :
  named (r_modules r) -> keys_of (r_modules r) iter -> keys_of (r_modules r) iter' ->
  match resolveOrderLocked iter iter' r with
  | Ok order => closed (r_modules r) /\ acyclic (r_modules r) /\ init_order (r_modules r) (map m_name order)
  | Err e => (~ closed (r_modules r) /\ errors_Is e ErrModuleNotFound = true)
             \/ (closed (r_modules r) /\ ~ acyclic (r_modules r) /\ errors_Is e ErrCircularDependency = true)
  | Panic _ => False
  end.
Proof.
  intros Hn Hk Hk'. destruct (resolve_cases iter iter' r Hn Hk Hk')
    as [(Hc & msg & ->)|[(Hc & Ha & msg & ->)|(Hc & Ha & order & -> & Ho)]]; [left | right |];
    auto using errors_Is_Errorf.
Qed.

Lemma resolveOrder_exact_witness :
  match resolveOrderLocked sample_iter sample_iter sample_registry with
  | Ok order => map m_name order = ["audit"; "party"; "inventory"; "sales"] /\ acyclic (r_modules sample_registry)
  | _ => False
  end.
Proof.
  pose proof (resolveOrder_exact sample_registry sample_iter sample_iter sample_named
                (map_keys_of _) (map_keys_of _)) as T.
  assert (map m_name <$> (match resolveOrderLocked sample_iter sample_iter sample_registry with
            | Ok order => Some order | _ => None end)
          = Some ["audit"; "party"; "inventory"; "sales"]) as E by by vm_compute.
  destruct (resolveOrderLocked sample_iter sample_iter sample_registry); [| done | done].
  split; [by injection E | apply T].
Defined.

(** the order is the same on every start.  Go iterates over maps in a
    random order; two runs of the resolution on the same modules give the same
    order, or both fail. *)
Theorem resolveOrder_deterministic {D} `{UnicodeTables} (r : Registry D)
    (iter1 iter1' iter2 iter2' : list string) :
  named (r_modules r) ->
  keys_of (r_modules r) iter1 -> keys_of (r_modules r) iter1' ->
  keys_of (r_modules r) iter2 -> keys_of (r_modules r) iter2' ->
  match resolveOrderLocked iter1 iter1' r, resolveOrderLocked iter2 iter2' r with
  | Ok order1, Ok order2 => map m_name order1 = map m_name order2
  | Err e1, Err e2 => errors_Is e1 ErrModuleNotFound = errors_Is e2 ErrModuleNotFound
  | _, _ => False
  end.
Proof.
  intros Hn H1 H1' H2 H2'.
  destruct (resolve_cases iter1 iter1' r Hn H1 H1')
    as [(Hc & msg & ->)|[(Hc & Ha & msg & ->)|(Hc & Ha & order & -> & Ho)]];
  destruct (resolve_cases iter2 iter2' r Hn H2 H2')
    as [(Hc2 & msg2 & ->)|[(Hc2 & Ha2 & msg2 & ->)|(Hc2 & Ha2 & order2 & -> & Ho2)]]; try done.
  by eapply greedy_unique.
Qed.

Lemma resolveOrder_deterministic_witness :
  match resolveOrderLocked sample_iter sample_iter sample_registry,
        resolveOrderLocked (rev sample_iter) (rev sample_iter) sample_registry with
  | Ok order1, Ok order2 => map m_name order1 = map m_name order2
  | _, _ => False
  end.
Proof.
  assert (keys_of (r_modules sample_registry) (rev sample_iter)) as Hr.
  { destruct (map_keys_of (r_modules sample_registry)) as [Hnd Hk]. unfold sample_iter.
    split; [by rewrite <- Permutation_rev |]. intros n. by rewrite <- Permutation_rev. }
  pose proof (resolveOrder_deterministic sample_registry sample_iter sample_iter
    (rev sample_iter) (rev sample_iter) sample_named (map_keys_of _) (map_keys_of _) Hr Hr) as T.
  destruct (resolveOrderLocked sample_iter sample_iter sample_registry) eqn:E1;
    [| by vm_compute in E1 | done].
  by destruct (resolveOrderLocked (rev sample_iter) (rev sample_iter) sample_registry).
Defined.

Lemma init_all_app {D} `{UnicodeTables} ctx (l1 l2 : list (Module D)) w :
  init_all ctx (l1 ++ l2) w = (init_all ctx l1 ;;; init_all ctx l2) w.
Proof.
  revert w. induction l1 as [|m l1 IH]; intros w; [done |].
  cbn [app init_all]. unfold bind, attempt, fail in *.
  destruct (m_Init m ctx w) as [[u|e|e] w1]; [apply IH | done | done].
Qed.

Lemma shutdown_all_app {D} ctx (l1 l2 : list (Module D)) w :
  shutdown_all ctx (l1 ++ l2) w
  = (e1 <- shutdown_all ctx l1 ;; e2 <- shutdown_all ctx l2 ;; ret (e1 ++ e2)) w.
Proof.
  revert w. induction l1 as [|m l1 IH]; intros w.
  - cbn [app shutdown_all]. unfold bind, ret. by destruct (shutdown_all ctx l2 w) as [[e|e|e] w2].
  - cbn [app shutdown_all]. unfold bind, attempt, ret in *.
    destruct (m_Shutdown m ctx w) as [[u|e|e] w1]; [| | done]; rewrite IH;
      destruct (shutdown_all ctx l1 w1) as [[e1|e1|e1] w2]; try done;
      by destruct (shutdown_all ctx l2 w2) as [[e2|e2|e2] w3].
Qed.

(** modules start after what they need and stop before it.  When the order
    resolves, take any module of it: all its dependencies are among the
    modules before it; [InitAll] runs its [Init] only after the [Init] of
    every module before it has succeeded; and [ShutdownAll] runs its
    [Shutdown] after those of the modules behind it and before those of the
    modules in front of it. *)
Theorem lifecycle_order {D} `{UnicodeTables} (r : Registry D) (iter iter' : list string) (ctx : Ctx)
    (before after : list (Module D)) (m : Module D) :
  named (r_modules r) -> keys_of (r_modules r) iter -> keys_of (r_modules r) iter' ->
  resolveOrderLocked iter iter' r = Ok (before ++ m :: after) ->
  let (init, r') := InitAll iter iter' ctx r in
  (forall d, d ∈ m_deps m -> d ∈ map m_name before)
  /\ (forall w, init w = (init_all ctx before ;;; init_all ctx (m :: after)) w)
  /\ (forall w, ShutdownAll ctx r' w
        = (e1 <- shutdown_all ctx (rev after) ;;
           e2 <- shutdown_all ctx (m :: rev before) ;; ret (e1 ++ e2)) w).
Proof.
  intros Hn Hk Hk' E. unfold InitAll. rewrite E. split_and!.
  - destruct (resolve_cases iter iter' r Hn Hk Hk')
      as [(_ & msg & E')|[(_ & _ & msg & E')|(_ & _ & order & E' & Hin & Hnd & Hg)]];
      rewrite E in E'; [done | done |]. injection E' as <-. rewrite map_app in Hg, Hin.
    destruct (Hg (map m_name before) (m_name m) (map m_name after) eq_refl) as [(Hs & _ & Hd) _].
    unfold deps in Hd. destruct Hs as [m' Hm'].
    assert (m' = m) as ->; [| by rewrite Hm' in Hd].
    revert E. unfold resolveOrderLocked. destruct (build_graph _ _ _) as [g| |]; cbn [res_bind]; [| done | done].
    set (l := kahn _ _ _ _ _). case_match; [done |]. intros [= E].
    assert (m ∈ omap (fun name => r_modules r !! name) l) as Hml by (rewrite E; set_solver).
    apply list_elem_of_omap in Hml as (n & _ & Hnm). rewrite (Hn _ _ Hnm) in Hm'. congruence.
  - intros w. apply init_all_app.
  - intros w. unfold ShutdownAll. cbn [r_order]. rewrite rev_app_distr. cbn [rev].
    rewrite <- app_assoc. apply shutdown_all_app.
Qed.

Lemma lifecycle_order_witness :
  let '(init, r') := InitAll sample_iter sample_iter Background sample_registry in
  forall w, init w
    = (init_all Background [sample_module "audit" []; sample_module "party" []] ;;;
       init_all Background [sample_module "inventory" ["party"]; sample_module "sales" ["inventory"; "party"]]) w.
Proof.
  pose proof (lifecycle_order sample_registry sample_iter sample_iter Background
    [sample_module "audit" []; sample_module "party" []]
    [sample_module "sales" ["inventory"; "party"]] (sample_module "inventory" ["party"])
    sample_named (map_keys_of _) (map_keys_of _)) as T.
  destruct (InitAll sample_iter sample_iter Background sample_registry) as [init r'].
  apply T. by vm_compute.
Defined.
