(* ===== verification/Organization.v ===== *)
(** * Organizations and their hierarchy

    [internal/core/domain/organization/organization.go], the repository
    [internal/core/repository/postgres/organization_repo.go] with
    [queries/organizations.sql], and
    [internal/core/usecase/organization/organization_usecase.go]. *)

From S2P Require Import Prelude GoStrings GoTime Sdk.
#[local] Open Scope string_scope.
#[local] Open Scope list_scope.
#[local] Open Scope Z_scope.

(** ** Domain *)

Abbreviation Type_ := string.
Definition TypeCompany : Type_ := "company".
Abbreviation Status := string.
Definition StatusActive : Status := "active".
Definition StatusInactive : Status := "inactive".
Definition StatusArchived : Status := "archived".

Inductive Organization := mkOrganization {
  org_ID : ID;
  org_TenantID : ID;
  org_ParentID : option ID;
  org_Code : string;
  org_Name : string;
  org_LegalName : string;
  org_Type : Type_;
  org_Status : Status;
  org_Settings : AnyMap;
  org_Children : list Organization;
  org_CreatedAt : Time;
  org_UpdatedAt : Time;
}.

(** The value [orgMap[id]] has for an absent key. *)
Definition zeroOrganization : Organization :=
  mkOrganization NilID NilID None "" "" "" "" "" None [] zeroTime zeroTime.

Definition with_children (o : Organization) (cs : list Organization) : Organization :=
  mkOrganization (org_ID o) (org_TenantID o) (org_ParentID o) (org_Code o) (org_Name o)
    (org_LegalName o) (org_Type o) (org_Status o) (org_Settings o) cs (org_CreatedAt o) (org_UpdatedAt o).

(** [p == nil || *p == NilID()] is "no parent". *)
Definition parent_of (p : option ID) : option ID :=
  match p with Some id => if decide (id = NilID) then None else Some id | None => None end.

Abbreviation ParentMap := (gmap ID (option ID)).

(** Later entries of the slice overwrite earlier ones. *)
Definition build_parentMap (orgs : list Organization) : ParentMap :=
  fold_left (fun pm o => <[org_ID o := org_ParentID o]> pm) orgs ∅.

(** The walk upwards.  Each iteration visits a new key of the map or ends, so
    the number of organizations plus two is enough fuel. *)
Fixpoint walk_up (fuel : nat) (pm : ParentMap) (targetID : ID) (current : option ID)
    (visited : gset ID) : res unit :=
  match fuel with
  | O => Panic (ENew "out of fuel")
  | S f =>
      match parent_of current with
      | None => Ok tt
      | Some c =>
          if decide (c = targetID) then
            Err (Errorf ErrInvalidInput "circular hierarchy detected (target is an ancestor of new parent)")
          else if decide (c ∈ visited) then
            Err (Errorf ErrInvalidInput "circular reference detected in existing hierarchy")
          else walk_up f pm targetID (mjoin (pm !! c)) ({[c]} ∪ visited)
      end
  end.

Definition CheckCircularReference (orgs : list Organization) (targetID : ID) (newParentID : option ID) :
    res unit :=
  match parent_of newParentID with
  | None => Ok tt
  | Some p =>
      if decide (p = targetID) then Err (Errorf ErrInvalidInput "organization cannot be its own parent")
      else walk_up (length orgs + 2) (build_parentMap orgs) targetID newParentID ∅
  end.

(** ** The tree *)

Definition orgMap (orgs : list Organization) : gmap ID Organization :=
  fold_left (fun m o => <[org_ID o := o]> m) orgs ∅.
Definition rootIDs (orgs : list Organization) : list ID :=
  omap (fun o => match parent_of (org_ParentID o) with None => Some (org_ID o) | Some _ => None end) orgs.
Definition childrenOf (orgs : list Organization) (id : ID) : list Organization :=
  filter (fun o => parent_of (org_ParentID o) = Some id) orgs.

(** The recursion descends one level of the hierarchy; [fuel] bounds its
    depth. *)
Fixpoint buildNode (fuel : nat) (orgs : list Organization) (id : ID) : Organization :=
  with_children (default zeroOrganization (orgMap orgs !! id))
    (match fuel with
     | O => []
     | S f => map (fun c => buildNode f orgs (org_ID c)) (childrenOf orgs id)
     end).

(** A branch of the hierarchy is at most as long as the slice. *)
Definition BuildTree (orgs : list Organization) : list Organization :=
  map (buildNode (length orgs) orgs) (rootIDs orgs).

(** ** The table *)

Record OrgRow := mkOrgRow {
  or_id : ID;
  or_tenant_id : ID;
  or_parent_id : option ID;
  or_code : string;
  or_name : string;
  or_legal_name : option string;
  or_type : string;
  or_status : string;
  or_settings : gmap string Any;
  or_created_at : Time;
  or_updated_at : Time;
}.

Abbreviation OrgTable := (gmap ID OrgRow).

Section Repo.
  Context `{Env, Pg}.
  (** Rows the server refuses for other reasons (lengths, unknown tenants). *)
  Variable refused : OrgRow -> option error.

Definition toDomainOrganization (row : OrgRow) : Organization := {|
  org_ID := or_id row;
  org_TenantID := or_tenant_id row;
  org_ParentID := or_parent_id row;
  org_Code := or_code row;
  org_Name := or_name row;
  org_LegalName := default "" (or_legal_name row);
  org_Type := or_type row;
  org_Status := or_status row;
  org_Settings := Some (or_settings row);
  org_Children := [];
  org_CreatedAt := or_created_at row;
  org_UpdatedAt := or_updated_at row |}.

Definition opt_text (s : string) : option string := if String.eqb s "" then None else Some s.

Definition org_row (o : Organization) : OrgRow := {|
  or_id := org_ID o;
  or_tenant_id := org_TenantID o;
  or_parent_id := parent_of (org_ParentID o);
  or_code := org_Code o;
  or_name := org_Name o;
  or_legal_name := opt_text (org_LegalName o);
  or_type := org_Type o;
  or_status := org_Status o;
  or_settings := pg_jsonb (default ∅ (org_Settings o));
  or_created_at := pg_timestamptz (org_CreatedAt o);
  or_updated_at := pg_timestamptz (org_UpdatedAt o) |}.

(** REFERENCES organizations(id). *)
Definition parent_exists (row : OrgRow) (t : OrgTable) : bool :=
  match or_parent_id row with
  | None => true
  | Some p => bool_decide (is_Some (t !! p)) || bool_decide (p = or_id row)
  end.

(** UNIQUE (tenant_id, code). *)
Definition same_code (a b : OrgRow) : bool :=
  bool_decide (or_tenant_id a = or_tenant_id b) && String.eqb (or_code a) (or_code b).

Definition insert_org (row : OrgRow) (t : OrgTable) : res (OrgRow * OrgTable) :=
  if bool_decide (or_id row = NilID) then Err pg_unique_violation
  else match t !! or_id row with
  | Some _ => Err pg_unique_violation
  | None =>
      match select_one (same_code row) t with
      | Some _ => Err pg_unique_violation
      | None =>
          if negb (parent_exists row t) then Err (ENew "foreign key violation")
          else match refused row with Some e => Err e | None => Ok (row, <[or_id row := row]> t) end
      end
  end.

Definition Create (o : Organization) : M OrgTable Organization :=
  row <- query (insert_org (org_row o)) ;; ret (toDomainOrganization row).

Definition org_get (p : OrgRow -> bool) : M OrgTable Organization :=
  query (fun t => match select_one p t with
                  | Some row => Ok (toDomainOrganization row, t)
                  | None => Err (ESentinel ErrNotFound)
                  end).

Definition by_id (tenantID id : ID) (r : OrgRow) : bool :=
  sql_eq (or_tenant_id r) (ToPgUUID tenantID) && sql_eq (or_id r) (ToPgUUID id).
Definition of_tenant (tenantID : ID) (r : OrgRow) : bool := sql_eq (or_tenant_id r) (ToPgUUID tenantID).

Definition GetByID (tenantID id : ID) : M OrgTable Organization := org_get (by_id tenantID id).

Definition by_code (tenantID : ID) (code : string) (r : OrgRow) : bool := of_tenant tenantID r && String.eqb (or_code r) code.

Definition GetByCode (tenantID : ID) (code : string) : M OrgTable Organization := org_get (by_code tenantID code).

Definition org_created_le (a b : OrgRow) : Prop :=
  t_nanos (or_created_at a) <= t_nanos (or_created_at b).
#[export] Instance org_created_le_dec : RelDecision org_created_le.
Proof. intros a b. unfold org_created_le. apply _. Defined.

(** ORDER BY created_at ASC. *)
Definition ListByTenant (tenantID : ID) : M OrgTable (list Organization) :=
  query (fun t => Ok (map toDomainOrganization (merge_sort org_created_le (select_rows (of_tenant tenantID) t)), t)).

Definition org_name_le (a b : OrgRow) : Prop := String.le (or_name a) (or_name b).
#[export] Instance org_name_le_dec : RelDecision org_name_le.
Proof. intros a b. unfold org_name_le. apply _. Defined.

(** ORDER BY name ASC, here in byte order. *)
Definition list_children (tenantID parentID : ID) (t : OrgTable) : list OrgRow :=
  merge_sort org_name_le (select_rows (fun r => of_tenant tenantID r
    && match or_parent_id r with Some p => sql_eq p (ToPgUUID parentID) | None => false end) t).

Definition ListChildren (tenantID parentID : ID) : M OrgTable (list Organization) :=
  query (fun t => Ok (map toDomainOrganization (list_children tenantID parentID t), t)).

(** SET column = COALESCE($n, column): a NULL parameter keeps the column. *)
Definition updated_org (old : OrgRow) (o : Organization) (now : Time) : OrgRow := {|
  or_id := or_id old;
  or_tenant_id := or_tenant_id old;
  or_parent_id := match parent_of (org_ParentID o) with Some p => Some p | None => or_parent_id old end;
  or_code := or_code old;
  or_name := org_Name o;
  or_legal_name := match opt_text (org_LegalName o) with Some l => Some l | None => or_legal_name old end;
  or_type := org_Type o;
  or_status := org_Status o;
  or_settings := match org_Settings o with Some s => pg_jsonb s | None => or_settings old end;
  or_created_at := or_created_at old;
  or_updated_at := pg_timestamptz now |}.

(** [now] is the server's NOW(). *)
Definition update_org (o : Organization) (now : Time) (t : OrgTable) : res (OrgRow * OrgTable) :=
  match select_one (by_id (org_TenantID o) (org_ID o)) t with
  | None => Err (ESentinel ErrNotFound)
  | Some old =>
      let row := updated_org old o now in
      if negb (parent_exists row t) then Err (ENew "foreign key violation")
      else match refused row with Some e => Err e | None => Ok (row, <[or_id row := row]> t) end
  end.

Definition Update (o : Organization) : M OrgTable Organization :=
  now <- Now ;;
  row <- query (update_org o now) ;; ret (toDomainOrganization row).
End Repo.

(** ** The use case *)

Record CreateCommand := mkCreateCommand {
  cc_ParentID : option ID; cc_Code : string; cc_Name : string; cc_LegalName : string;
  cc_Type : Type_; cc_Settings : AnyMap;
}.
Record UpdateCommand := mkUpdateCommand {
  uc_ID : ID; uc_ParentID : option ID; uc_Name : string; uc_LegalName : string;
  uc_Type : Type_; uc_Status : Status; uc_Settings : AnyMap;
}.

Section Usecase.
  Context `{UnicodeTables, Env, Pg}.
  Variable refused : OrgRow -> option error.

Definition CreateOrganization (ctx : Ctx) (cmd : CreateCommand) : M OrgTable Organization :=
  tenantID <- lift_res (RequireTenantID ctx) ;;
  let code := ToLower (TrimSpace (cc_Code cmd)) in
  let name := TrimSpace (cc_Name cmd) in
  guard (String.eqb code "" || String.eqb name "")
    (Errorf ErrInvalidInput "code and name are required") ;;;
  let orgType := if String.eqb (cc_Type cmd) "" then TypeCompany else cc_Type cmd in
  check_absent (GetByCode tenantID code)
    (Errorf ErrAlreadyExists ("organization code '" +:+ code +:+ "' already exists for this tenant")) ;;;
  match parent_of (cc_ParentID cmd) with
  | None => ret tt
  | Some p =>
      r <- attempt (GetByID tenantID p) ;;
      match r with
      | inr err => fail (EWrap "parent organization: " err "")
      | inl parent => guard (negb (String.eqb (org_Status parent) StatusActive))
                        (Errorf ErrInvalidInput "parent organization is not active")
      end
  end ;;;
  id <- NewID ;;
  now <- NowUTC ;;
  let settings := match cc_Settings cmd with Some s => Some s | None => Some ∅ end in
  Create refused (mkOrganization id tenantID (cc_ParentID cmd) code name (TrimSpace (cc_LegalName cmd))
    orgType StatusActive settings [] now now).

Definition GetOrganizationByID (ctx : Ctx) (id : ID) : M OrgTable Organization :=
  tenantID <- lift_res (RequireTenantID ctx) ;; GetByID tenantID id.

Definition GetOrganizationByCode (ctx : Ctx) (code : string) : M OrgTable Organization :=
  tenantID <- lift_res (RequireTenantID ctx) ;; GetByCode tenantID (ToLower (TrimSpace code)).

Definition ListOrganizations (ctx : Ctx) : M OrgTable (list Organization) :=
  tenantID <- lift_res (RequireTenantID ctx) ;; ListByTenant tenantID.

Definition GetTree (ctx : Ctx) : M OrgTable (list Organization) :=
  orgs <- ListOrganizations ctx ;; ret (BuildTree orgs).

(** The hierarchy changes when a parent is given that differs from the
    current one. *)
Definition parent_changes (cmd : UpdateCommand) (org : Organization) : bool :=
  match uc_ParentID cmd, org_ParentID org with
  | None, _ => false
  | Some _, None => true
  | Some p, Some q => bool_decide (p <> q)
  end.

Definition UpdateOrganization (ctx : Ctx) (cmd : UpdateCommand) : M OrgTable Organization :=
  tenantID <- lift_res (RequireTenantID ctx) ;;
  org <- GetByID tenantID (uc_ID cmd) ;;
  parent <- (if parent_changes cmd org then
               allOrgs <- ListByTenant tenantID ;;
               lift_res (CheckCircularReference allOrgs (org_ID org) (uc_ParentID cmd)) ;;;
               ret (uc_ParentID cmd)
             else ret (org_ParentID org)) ;;
  now <- NowUTC ;;
  Update refused (mkOrganization (org_ID org) (org_TenantID org) parent (org_Code org)
    (if String.eqb (uc_Name cmd) "" then org_Name org else TrimSpace (uc_Name cmd))
    (if String.eqb (uc_LegalName cmd) "" then org_LegalName org else TrimSpace (uc_LegalName cmd))
    (if String.eqb (uc_Type cmd) "" then org_Type org else uc_Type cmd)
    (if String.eqb (uc_Status cmd) "" then org_Status org else uc_Status cmd)
    (match uc_Settings cmd with Some s => Some s | None => org_Settings org end)
    (org_Children org) (org_CreatedAt org) now).
End Usecase.

(** ** Hierarchies *)

(** The parent of an organization in a parent map. *)
Definition par (pm : ParentMap) (x : ID) : option ID := parent_of (mjoin (pm !! x)).

(** [x] is [k] levels below a top organization. *)
Inductive depth (pm : ParentMap) : nat -> ID -> Prop :=
  | depth_top x : par pm x = None -> depth pm 0 x
  | depth_below x p k : par pm x = Some p -> depth pm k p -> depth pm (S k) x.

(** [a] is [x] or above it. *)
Inductive above (pm : ParentMap) (a : ID) : ID -> Prop :=
  | above_refl : above pm a a
  | above_step x p : par pm x = Some p -> above pm a p -> above pm a x.

(** Every organization is under a top one: no cycles. *)
Definition forest (pm : ParentMap) : Prop := forall x, is_Some (pm !! x) -> exists k, depth pm k x.

Lemma depth_unique pm k k' x : depth pm k x -> depth pm k' x -> k = k'.
Proof.
  intros H1. revert k'. induction H1 as [x E|x p k E _ IH]; intros k' H2; inversion H2; subst; try congruence.
  f_equal. apply IH. congruence.
Qed.

Lemma above_depth pm a x k : above pm a x -> depth pm k x -> exists j, depth pm j a /\ (j <= k)%nat.
Proof.
  intros Ha. revert k. induction Ha as [|x p E Ha IH]; intros k Hk; [eauto |].
  inversion Hk; subst; [congruence |]. assert (p0 = p) as -> by congruence.
  destruct (IH _ ltac:(done)) as (j & Hj & ?). exists j. split; [done | lia].
Qed.

Lemma above_trans pm a b x : above pm a b -> above pm b x -> above pm a x.
Proof. intros Hab Hbx. induction Hbx; [done |]. by econstructor. Qed.

(** A walk that succeeds met neither the target nor itself. *)
Lemma walk_up_Ok fuel pm target cur visited :
  walk_up fuel pm target cur visited = Ok tt ->
  match parent_of cur with
  | None => True
  | Some c => (exists k, depth pm k c) /\ ~ above pm target c
  end.
Proof.
  revert cur visited. induction fuel as [|fuel IH]; intros cur visited; [done |]. cbn [walk_up].
  destruct (parent_of cur) as [c|]; [| done].
  destruct (decide (c = target)) as [->|Hne]; [done |]. destruct (decide (c ∈ visited)); [done |].
  intros E. apply IH in E. fold (par pm c) in E. destruct (par pm c) as [p|] eqn:Ep.
  - destruct E as [[k Hk] Hn]. split; [exists (S k); by econstructor |].
    intros Ha. inversion Ha; subst; congruence.
  - split; [exists 0%nat; by constructor |]. intros Ha. inversion Ha; subst; congruence.
Qed.

(** A walk that fails met the target, or went round a cycle. *)
Lemma walk_up_Err fuel pm target cur visited e :
  (forall v c, v ∈ visited -> parent_of cur = Some c -> exists p, par pm v = Some p /\ above pm c p) ->
  walk_up fuel pm target cur visited = Err e ->
  errors_Is e ErrInvalidInput = true /\
  exists c, parent_of cur = Some c /\ (above pm target c \/ forall k, ~ depth pm k c).
Proof.
  revert cur visited. induction fuel as [|fuel IH]; intros cur visited Hv; [done |]. cbn [walk_up].
  destruct (parent_of cur) as [c|] eqn:Ec; [| done].
  destruct (decide (c = target)) as [->|Hne].
  { intros [= <-]. split; [apply errors_Is_Errorf |]. exists target. split; [done |]. left. constructor. }
  destruct (decide (c ∈ visited)) as [Hin|Hin].
  { intros [= <-]. split; [apply errors_Is_Errorf |]. exists c. split; [done |]. right. intros k Hk.
    destruct (Hv c c Hin eq_refl) as (p & Ep & Hp). inversion Hk; subst; [congruence |].
    assert (p0 = p) as -> by congruence.
    destruct (above_depth _ _ _ _ Hp ltac:(done)) as (j & Hj & ?).
    pose proof (depth_unique _ _ _ _ Hj Hk). lia. }
  intros E. apply IH in E as (He & c' & Ec' & Hc').
  - split; [done |]. exists c. split; [done |]. destruct Hc' as [Ha|Hn].
    + left. by econstructor.
    + right. intros k Hk. inversion Hk; subst; unfold par in *; [congruence |]. eapply Hn.
      assert (p = c') as -> by congruence. done.
  - intros v c' Hv' Ec'. apply elem_of_union in Hv' as [->%elem_of_singleton|Hv'].
    + exists c'. split; [done | constructor].
    + destruct (Hv v c Hv' eq_refl) as (p & Ep & Hp). exists p. split; [done |].
      apply (above_trans _ _ c); [| done]. econstructor; [done | constructor].
Qed.

(** The fuel is enough. *)
Lemma walk_up_total fuel pm target cur visited e :
  visited ⊆ dom pm -> (size (dom pm) - size visited + 2 <= fuel)%nat ->
  walk_up fuel pm target cur visited <> Panic e.
Proof.
  revert cur visited. induction fuel as [|fuel IH]; intros cur visited Hs Hf; [lia |]. cbn [walk_up].
  destruct (parent_of cur) as [c|]; [| done].
  destruct (decide (c = target)); [done |]. destruct (decide (c ∈ visited)) as [|Hc]; [done |].
  destruct (decide (c ∈ dom pm)) as [Hd|Hd].
  - assert ({[c]} ∪ visited ⊆ dom pm) as Hs' by set_solver.
    pose proof (subseteq_size _ _ Hs') as Hle. rewrite size_union, size_singleton in Hle by set_solver.
    apply IH; [done |]. rewrite size_union, size_singleton by set_solver. lia.
  - apply not_elem_of_dom in Hd. rewrite Hd. cbn. destruct fuel; [lia | done].
Qed.

Lemma build_parentMap_size orgs : (size (dom (build_parentMap orgs)) <= length orgs)%nat.
Proof.
  unfold build_parentMap. rewrite <- fold_left_rev_right, <- length_rev.
  induction (rev orgs) as [|o l IH]; [done |]. cbn [fold_right length].
  rewrite dom_insert_L, size_union_alt, size_singleton. cbn. apply le_n_S.
  etransitivity; [| apply IH]. apply subseteq_size. set_solver.
Qed.

Lemma CheckCircular_cases orgs target new :
  match CheckCircularReference orgs target new with
  | Ok _ => match parent_of new with
            | None => True
            | Some p => (exists k, depth (build_parentMap orgs) k p) /\ ~ above (build_parentMap orgs) target p
            end
  | Err e => errors_Is e ErrInvalidInput = true /\ exists p, parent_of new = Some p /\
      (above (build_parentMap orgs) target p \/ forall k, ~ depth (build_parentMap orgs) k p)
  | Panic _ => False
  end.
Proof.
  unfold CheckCircularReference. destruct (parent_of new) as [p|] eqn:Ep; [| done].
  destruct (decide (p = target)) as [->|Hne].
  - split; [apply errors_Is_Errorf |]. exists target. split; [done |]. left. constructor.
  - destruct (walk_up _ _ _ _ _) as [[]|e|e] eqn:E.
    + apply walk_up_Ok in E. by rewrite Ep in E.
    + apply walk_up_Err in E as (He & c & Ec & Hc); [| set_solver].
      split; [done |]. exists c. split; [congruence | done].
    + eapply walk_up_total; [| | exact E]; [set_solver |].
      pose proof (build_parentMap_size orgs). rewrite size_empty. lia.
Qed.

(** Hanging a node under one that is not below it keeps the forest. *)
Lemma forest_insert pm target p :
  forest pm -> (exists k, depth pm k p) -> ~ above pm target p ->
  parent_of (Some p) = Some p -> forest (<[target := Some p]> pm).
Proof.
  intros Hf [kp Hkp] Hna Hp.
  assert (forall x, par (<[target := Some p]> pm) x = if decide (x = target) then Some p else par pm x) as Epar.
  { intros x. unfold par. destruct (decide (x = target)) as [->|].
    - by rewrite lookup_insert_eq.
    - by rewrite lookup_insert_ne. }
  assert (forall k x, depth pm k x -> ~ above pm target x -> depth (<[target := Some p]> pm) k x) as Hkeep.
  { induction 1 as [x E|x q k E Hq IH]; intros Hn.
    - constructor. rewrite Epar, decide_False; [done |]. intros ->. apply Hn. constructor.
    - econstructor; [rewrite Epar, decide_False; [done |]; intros ->; apply Hn; constructor |].
      apply IH. intros Ha. apply Hn. by econstructor. }
  assert (depth (<[target := Some p]> pm) (S kp) target) as Ht.
  { econstructor; [by rewrite Epar, decide_True by done | auto]. }
  assert (forall k x, depth pm k x -> exists k', depth (<[target := Some p]> pm) k' x) as Hall.
  { induction 1 as [x E|x q k E Hq [k' IH]].
    - destruct (decide (x = target)) as [->|]; [eauto |]. exists 0%nat. constructor. by rewrite Epar, decide_False.
    - destruct (decide (x = target)) as [->|]; [eauto |]. exists (S k'). econstructor; [by rewrite Epar, decide_False | done]. }
  intros x. rewrite lookup_insert_is_Some. intros [->|[_ Hx]]; [eauto |].
  destruct (Hf x Hx) as [k Hk]. eauto.
Qed.

(** A new leaf keeps the forest. *)
Lemma forest_leaf pm x v : forest pm -> pm !! x = None -> (forall y, par pm y <> Some x) ->
  parent_of v <> Some x -> forest (<[x := v]> pm).
Proof.
  intros Hf Hx Hnp Hv.
  assert (forall k y, depth pm k y -> y <> x -> depth (<[x := v]> pm) k y) as Hkeep.
  { induction 1 as [y E|y q k E Hq IH]; intros Hne.
    - constructor. unfold par in *. by rewrite lookup_insert_ne.
    - econstructor; [unfold par in *; by rewrite lookup_insert_ne |].
      apply IH. intros ->. by eapply Hnp. }
  intros y. rewrite lookup_insert_is_Some. intros [->|[Hne Hy]].
  - destruct (parent_of v) as [p|] eqn:Ev.
    + destruct (decide (is_Some (pm !! p))) as [Hp|Hp].
      * destruct (Hf p Hp) as [k Hk]. exists (S k).
        econstructor; [unfold par; rewrite lookup_insert_eq; exact Ev |]. apply Hkeep; [done | congruence].
      * exists 1%nat. econstructor; [unfold par; rewrite lookup_insert_eq; exact Ev |].
        constructor. unfold par. rewrite lookup_insert_ne by congruence.
        destruct (pm !! p); [exfalso; eauto | done].
    + exists 0%nat. constructor. unfold par. by rewrite lookup_insert_eq.
  - destruct (Hf y Hy) as [k Hk]. exists k. auto.
Qed.

(** ** The table as a hierarchy *)

(** The hierarchy a tenant sees. *)
Definition tenant_parents (tn : ID) (t : OrgTable) : ParentMap :=
  or_parent_id <$> filter (fun kr => or_tenant_id kr.2 = tn) t.

Definition org_table_ok (t : OrgTable) : Prop := forall k r, t !! k = Some r ->
  or_id r = k /\ k <> NilID /\ forall p, or_parent_id r = Some p -> is_Some (t !! p).

Definition hierarchy_ok (t : OrgTable) : Prop := forall tn, forest (tenant_parents tn t).

Lemma tenant_parents_lookup tn t x v :
  tenant_parents tn t !! x = Some v <-> exists r, t !! x = Some r /\ or_tenant_id r = tn /\ or_parent_id r = v.
Proof.
  unfold tenant_parents. rewrite lookup_fmap_Some. setoid_rewrite map_lookup_filter_Some. cbn. naive_solver.
Qed.

Lemma build_parentMap_lookup orgs x v :
  NoDup (map org_ID orgs) ->
  build_parentMap orgs !! x = Some v <-> exists o, o ∈ orgs /\ org_ID o = x /\ org_ParentID o = v.
Proof.
  unfold build_parentMap. induction orgs as [|o orgs IH] using rev_ind; intros Hnd.
  - cbn. rewrite lookup_empty. split; [done |]. intros (o & Ho & _). by apply not_elem_of_nil in Ho.
  - rewrite fold_left_app. cbn [fold_left]. rewrite map_app in Hnd.
    apply NoDup_app in Hnd as (Hnd & Hdis & _). rewrite lookup_insert_Some, IH by done.
    setoid_rewrite elem_of_app. setoid_rewrite list_elem_of_singleton. split.
    + intros [[<- <-]|[Hne (o' & Ho & E)]]; [eauto | exists o'; naive_solver].
    + intros (o' & [Ho| ->] & <- & <-); [right | by left]. split; [| eauto].
      intros E. apply (Hdis (org_ID o')); [| cbn; rewrite E; by left].
      apply list_elem_of_In, in_map, list_elem_of_In, Ho.
Qed.

(** What the use case checks is the hierarchy the tenant sees. *)
Lemma build_parentMap_table tn t :
  org_table_ok t -> tn <> NilID ->
  build_parentMap (map toDomainOrganization (merge_sort org_created_le (select_rows (of_tenant tn) t)))
  = tenant_parents tn t.
Proof.
  intros Hok Htn.
  assert (NoDup (map org_ID (map toDomainOrganization (merge_sort org_created_le (select_rows (of_tenant tn) t))))) as Hnd.
  { rewrite map_map. cbn [toDomainOrganization org_ID]. rewrite merge_sort_Permutation.
    apply NoDup_select_rows. intros k r Hr. by apply Hok. }
  apply map_eq. intros x. apply option_eq. intros v.
  rewrite build_parentMap_lookup, tenant_parents_lookup by done. split.
  - intros (o & Ho & <- & <-). apply list_elem_of_In, in_map_iff in Ho as (r & <- & Hr).
    apply list_elem_of_In in Hr. rewrite merge_sort_Permutation in Hr.
    apply elem_of_select_rows in Hr as [Hp [k Hr]]. unfold of_tenant in Hp. apply sql_eq_true in Hp as [_ Hp].
    exists r. cbn. destruct (Hok _ _ Hr) as [-> _]. done.
  - intros (r & Hr & Et & <-). exists (toDomainOrganization r). split; [| split; [by apply Hok | done]].
    apply list_elem_of_In, in_map, list_elem_of_In. rewrite merge_sort_Permutation.
    apply elem_of_select_rows. split; [by apply sql_eq_true | eauto].
Qed.

Lemma tenant_parents_insert tn t r old :
  org_table_ok t -> t !! or_id r = Some old -> or_tenant_id r = or_tenant_id old ->
  tenant_parents tn (<[or_id r := r]> t)
  = if decide (or_tenant_id r = tn) then <[or_id r := or_parent_id r]> (tenant_parents tn t)
    else tenant_parents tn t.
Proof.
  intros Hok Hold Et. apply map_eq. intros x. apply option_eq. intros v.
  rewrite tenant_parents_lookup. setoid_rewrite lookup_insert_Some.
  destruct (decide (or_tenant_id r = tn)) as [E|E]; [rewrite lookup_insert_Some |];
    rewrite tenant_parents_lookup; [naive_solver |].
  split; [naive_solver |]. intros (r' & Hr' & Er' & <-). exists r'. split; [right | done].
  split; [| done]. intros <-. congruence.
Qed.

Lemma by_id_row t tn id r :
  org_table_ok t -> select_one (by_id tn id) t = Some r ->
  t !! or_id r = Some r /\ or_tenant_id r = tn /\ or_id r = id /\ tn <> NilID.
Proof.
  intros Hok Hs. apply select_one_Some in Hs as [Hb [k Hk]]. unfold by_id in Hb.
  apply andb_true_iff in Hb as [H1%sql_eq_true H2%sql_eq_true].
  destruct (Hok _ _ Hk) as (E & _). rewrite E. naive_solver.
Qed.

Lemma org_get_Ok `{Env} p w o w' :
  org_get p w = (Ok o, w') ->
  exists row, select_one p (w_db w) = Some row /\ o = toDomainOrganization row /\ w_db w' = w_db w.
Proof.
  unfold org_get. intros E. step_inv. destruct (select_one p (w_db w)) as [row|]; [| done].
  exists row. naive_solver.
Qed.

Lemma org_get_db `{Env} p w r w' : org_get p w = (r, w') -> w_db w' = w_db w.
Proof.
  intros E. destruct (is_Ok r) eqn:Er.
  - destruct r as [o| |]; [| done | done]. apply org_get_Ok in E. naive_solver.
  - by eapply query_not_Ok in E.
Qed.

(** Writing a row back with a parent that the check accepted, or the one it
    had. *)
Lemma hierarchy_write t r old :
  org_table_ok t -> hierarchy_ok t -> t !! or_id r = Some old -> or_tenant_id r = or_tenant_id old ->
  parent_exists r t = true ->
  (or_parent_id r = or_parent_id old \/
   exists p, or_parent_id r = Some p /\ parent_of (Some p) = Some p
     /\ (exists k, depth (tenant_parents (or_tenant_id r) t) k p)
     /\ ~ above (tenant_parents (or_tenant_id r) t) (or_id r) p) ->
  org_table_ok (<[or_id r := r]> t) /\ hierarchy_ok (<[or_id r := r]> t).
Proof.
  intros Hok Hh Hold Et Hpe Hc. split.
  - assert (forall p, is_Some (t !! p) -> is_Some (<[or_id r := r]> t !! p)) as Hmono
      by (intros p Hp; apply lookup_insert_is_Some'; tauto).
    intros k r'. rewrite lookup_insert_Some. destruct (Hok _ _ Hold) as (Eid & Hnil & Hfk).
    intros [[<- <-]|[Hne Hr']].
    + split_and!; [done | done |]. intros p Ep. unfold parent_exists in Hpe. rewrite Ep in Hpe.
      apply orb_true_iff in Hpe as [Hp|Hp]; apply bool_decide_eq_true in Hp; [auto |].
      subst. apply lookup_insert_is_Some. by left.
    + destruct (Hok _ _ Hr') as (? & ? & Hp). split_and!; try done. intros p Ep. auto.
  - intros tn. rewrite (tenant_parents_insert tn t r old) by done.
    destruct (decide (or_tenant_id r = tn)) as [<-|]; [| apply Hh].
    assert (tenant_parents (or_tenant_id r) t !! or_id r = Some (or_parent_id old)) as Hl
      by (apply tenant_parents_lookup; eauto).
    destruct Hc as [E|(p & Ep & Hp & Hk & Hna)].
    + rewrite E, insert_id by done. apply Hh.
    + rewrite Ep. by apply forest_insert.
Qed.

Section Runs.
  Context `{UnicodeTables, Env, Pg}.
  Variable refused : OrgRow -> option error.

Lemma reads_org_get p : reads (org_get p).
Proof. apply reads_query. intros t a t'. destruct (select_one p t); naive_solver. Qed.

Lemma reads_ListByTenant tn : reads (ListByTenant tn).
Proof. apply reads_query. naive_solver. Qed.

#[local] Hint Resolve reads_org_get reads_ListByTenant : go_frame.

Lemma UpdateOrganization_writes_last ctx cmd : writes_last (UpdateOrganization refused ctx cmd).
Proof. unfold UpdateOrganization, Update, GetByID. frame. Qed.

Lemma CreateOrganization_writes_last ctx cmd : writes_last (CreateOrganization refused ctx cmd).
Proof. unfold CreateOrganization, Create, GetByID, GetByCode. frame. Qed.

Lemma parent_of_idem p q : parent_of p = Some q -> parent_of (Some q) = Some q.
Proof. unfold parent_of. destruct p as [x|]; [| done]. case_decide; [done |]. intros [= <-]. by rewrite decide_False. Qed.

(** What the check of the use case establishes about the parent it keeps. *)
Lemma update_parent_ok ctx_tn t org_r (cmd : UpdateCommand) parent :
  org_table_ok t -> ctx_tn <> NilID -> or_tenant_id org_r = ctx_tn ->
  (if parent_changes cmd (toDomainOrganization org_r)
   then CheckCircularReference (map toDomainOrganization (merge_sort org_created_le (select_rows (of_tenant ctx_tn) t)))
          (or_id org_r) (uc_ParentID cmd) = Ok tt /\ parent = uc_ParentID cmd
   else parent = or_parent_id org_r) ->
  let new := match parent_of parent with Some p => Some p | None => or_parent_id org_r end in
  (forall p, or_parent_id org_r = Some p -> p <> NilID) ->
  new = or_parent_id org_r \/
  exists p, new = Some p /\ parent_of (Some p) = Some p
    /\ (exists k, depth (tenant_parents ctx_tn t) k p) /\ ~ above (tenant_parents ctx_tn t) (or_id org_r) p.
Proof.
  intros Hok Htn Et Hc new Hnn. unfold new. destruct (parent_changes cmd (toDomainOrganization org_r)).
  - destruct Hc as [Hc ->].
    pose proof (CheckCircular_cases (map toDomainOrganization (merge_sort org_created_le
      (select_rows (of_tenant ctx_tn) t))) (or_id org_r) (uc_ParentID cmd)) as X.
    rewrite Hc, build_parentMap_table in X by done.
    destruct (parent_of (uc_ParentID cmd)) as [p|] eqn:Ep; [right | by left].
    exists p. split_and!; [done | by eapply parent_of_idem | apply X | apply X].
  - left. subst parent. unfold parent_of. destruct (or_parent_id org_r) as [p|] eqn:Ep; [| done].
    by rewrite decide_False by (by apply Hnn).
Qed.

Lemma org_parent_not_nil t r p k :
  org_table_ok t -> t !! k = Some r -> or_parent_id r = Some p -> p <> NilID.
Proof.
  intros Hok Hk Hp ->. destruct (Hok _ _ Hk) as (_ & _ & Hfk). destruct (Hfk _ Hp) as [r' Hr'].
  by destruct (Hok _ _ Hr') as (_ & ? & _).
Qed.

Lemma ListByTenant_Ok tn (w : World OrgTable) l w' :
  ListByTenant tn w = (Ok l, w') ->
  l = map toDomainOrganization (merge_sort org_created_le (select_rows (of_tenant tn) (w_db w)))
  /\ w_db w' = w_db w.
Proof. unfold ListByTenant. intros E. step_inv. by injection E as <- <-. Qed.

Lemma UpdateOrganization_hierarchy ctx cmd w o w' :
  org_table_ok (w_db w) -> hierarchy_ok (w_db w) ->
  UpdateOrganization refused ctx cmd w = (Ok o, w') ->
  org_table_ok (w_db w') /\ hierarchy_ok (w_db w').
Proof.
  intros Hok Hh. unfold UpdateOrganization, GetByID, Update. intros E. step_inv. subst.
  match goal with X : RequireTenantID _ = Ok ?t |- _ => apply RequireTenantID_Ok in X as [_ Htn] end.
  match goal with X : org_get _ _ = (Ok _, _) |- _ => apply org_get_Ok in X as (row & Hrow & -> & Hdb) end.
  destruct (by_id_row _ _ _ _ Hok Hrow) as (Hlk & Etn & Eid & _).
  match goal with X : (if parent_changes _ _ then _ else _) _ = (Ok ?p, ?w1) |- _ =>
    assert (w_db w1 = w_db w /\
      (if parent_changes cmd (toDomainOrganization row)
       then CheckCircularReference (map toDomainOrganization (merge_sort org_created_le
              (select_rows (of_tenant a) (w_db w)))) (or_id row) (uc_ParentID cmd) = Ok tt /\ p = uc_ParentID cmd
       else p = or_parent_id row)) as [Hdb1 Hp]; [| clear X] end.
  { destruct (parent_changes cmd (toDomainOrganization row)); step_inv; [| done].
    match goal with X : ListByTenant _ _ = _ |- _ => apply ListByTenant_Ok in X as [-> Hl] end.
    rewrite Hdb in *. match goal with X : CheckCircularReference _ _ _ = Ok ?u |- _ => by destruct u end. }
  match goal with X : update_org _ _ _ _ = _ |- _ => rename X into R end.
  cbn [w_db tick] in *. rewrite Hdb1 in *. unfold update_org in R.
  cbn [org_TenantID org_ID toDomainOrganization] in R. rewrite Etn, Eid, Hrow in R.
  set (new := updated_org row _ _) in R.
  destruct (parent_exists new (w_db w)) eqn:Hpe; [| done]. cbn [negb] in R.
  destruct (refused new); [done |]. injection R as <- <-.
  pose proof (update_parent_ok a (w_db w) row cmd _ Hok Htn Etn Hp
    (fun p Ep => org_parent_not_nil _ _ _ _ Hok Hlk Ep)) as Hnew.
  apply (hierarchy_write (w_db w) new row); try done. cbn [new updated_org or_tenant_id]. rewrite Etn. exact Hnew.
Qed.

Lemma hierarchy_insert t r :
  org_table_ok t -> hierarchy_ok t -> t !! or_id r = None -> or_id r <> NilID ->
  (forall p, or_parent_id r = Some p -> is_Some (t !! p)) ->
  org_table_ok (<[or_id r := r]> t) /\ hierarchy_ok (<[or_id r := r]> t).
Proof.
  intros Hok Hh Hnew Hnil Hp. split.
  - intros k r'. rewrite lookup_insert_Some. intros [[<- <-]|[Hne Hr']].
    + split_and!; [done | done |]. intros p Ep. apply lookup_insert_is_Some'. right. auto.
    + destruct (Hok _ _ Hr') as (? & ? & Hfk). split_and!; try done.
      intros p Ep. apply lookup_insert_is_Some'. right. auto.
  - intros tn.
    assert (tenant_parents tn (<[or_id r := r]> t)
            = if decide (or_tenant_id r = tn) then <[or_id r := or_parent_id r]> (tenant_parents tn t)
              else tenant_parents tn t) as ->.
    { apply map_eq. intros x. apply option_eq. intros v.
      rewrite tenant_parents_lookup. setoid_rewrite lookup_insert_Some.
      destruct (decide (or_tenant_id r = tn)); [rewrite lookup_insert_Some |]; rewrite tenant_parents_lookup; [naive_solver |].
      split; [naive_solver |]. intros (r' & Hr' & Er' & <-). exists r'. split; [right | done].
      split; [| done]. intros <-. congruence. }
    destruct (decide (or_tenant_id r = tn)); [| apply Hh].
    apply forest_leaf; [apply Hh | | |].
    + destruct (tenant_parents tn t !! or_id r) eqn:E; [| done]. apply tenant_parents_lookup in E as (r' & Hr' & _). congruence.
    + intros y Ey. unfold par in Ey. destruct (tenant_parents tn t !! y) as [v|] eqn:E; [| done].
      apply tenant_parents_lookup in E as (r' & Hr' & _ & <-). cbn in Ey.
      destruct (or_parent_id r') as [p|] eqn:Ep; [| done]. cbn in Ey.
      unfold parent_of in Ey. case_decide; [done |]. injection Ey as ->.
      destruct (Hok _ _ Hr') as (_ & _ & Hfk). destruct (Hfk _ Ep). congruence.
    + intros E. unfold parent_of in E. destruct (or_parent_id r) as [p|] eqn:Ep; [| done].
      case_decide; [done |]. injection E as ->. destruct (Hp _ eq_refl). congruence.
Qed.

Lemma CreateOrganization_hierarchy ctx cmd w o w' :
  org_table_ok (w_db w) -> hierarchy_ok (w_db w) ->
  CreateOrganization refused ctx cmd w = (Ok o, w') ->
  org_table_ok (w_db w') /\ hierarchy_ok (w_db w').
Proof.
  intros Hok Hh. unfold CreateOrganization, GetByCode, GetByID, Create. intros E. step_inv. subst.
  match goal with X : org_get _ _ = (Err _, _) |- _ => apply org_get_db in X as Hdb end.
  match goal with X : (match parent_of _ with Some _ => _ | None => _ end) _ = (Ok _, ?w1) |- _ =>
    assert (w_db w1 = w_db w /\ forall p, parent_of (cc_ParentID cmd) = Some p -> is_Some (w_db w !! p))
      as [Hdb1 Hpar]; [| clear X] end.
  { destruct (parent_of (cc_ParentID cmd)) as [p|]; step_inv; [| done].
    match goal with X : attempt _ _ = _ |- _ => apply attempt_Ok in X as [(a' & Hg & ->)|(e & Hg & ->)] end; [| done].
    step_inv. apply org_get_Ok in Hg as (row & Hrow & -> & Hdb2). rewrite Hdb in *.
    destruct (by_id_row _ _ _ _ Hok Hrow) as (Hlk & _ & <- & _).
    split; [done |]. intros p' [= <-]. eauto. }
  match goal with X : insert_org _ _ _ = _ |- _ => rename X into RI end.
  cbn [w_db tick] in *. rewrite Hdb1 in *. unfold insert_org in RI.
  set (new := org_row _) in RI. destruct (bool_decide (or_id new = NilID)) eqn:En; [done |].
  apply bool_decide_eq_false in En. destruct (w_db w !! or_id new) eqn:El; [done |].
  destruct (select_one (same_code new) (w_db w)); [done |].
  destruct (parent_exists new (w_db w)); [| done]. cbn [negb] in RI.
  destruct (refused new); [done |]. injection RI as <- <-.
  apply hierarchy_insert; try done.
Qed.
End Runs.

(** ** The tree *)

(** The identifiers of a tree, in preorder. *)
Fixpoint tree_ids (o : Organization) : list ID :=
  org_ID o :: concat (map tree_ids (org_Children o)).

(** [x] is [j] levels below [a], through listed organizations. *)
Inductive below (orgs : list Organization) (a : ID) : nat -> ID -> Prop :=
  | below_0 : below orgs a 0 a
  | below_S j o p : o ∈ orgs -> parent_of (org_ParentID o) = Some p -> below orgs a j p ->
      below orgs a (S j) (org_ID o).

Lemma orgMap_lookup orgs o :
  NoDup (map org_ID orgs) -> o ∈ orgs -> orgMap orgs !! org_ID o = Some o.
Proof.
  unfold orgMap. induction orgs as [|o' orgs IH] using rev_ind; intros Hnd Hin; [by apply not_elem_of_nil in Hin |].
  rewrite fold_left_app. cbn [fold_left]. rewrite map_app in Hnd. apply NoDup_app in Hnd as (Hnd & Hdis & _).
  apply elem_of_app in Hin as [Hin|Hin%list_elem_of_singleton].
  - rewrite lookup_insert_ne; [by apply IH |]. intros E. apply (Hdis (org_ID o)).
    + apply list_elem_of_In, in_map, list_elem_of_In, Hin.
    + cbn. rewrite <- E. by left.
  - subst. by rewrite lookup_insert_eq.
Qed.

Lemma buildNode_ids f orgs id :
  tree_ids (buildNode f orgs id)
  = org_ID (default zeroOrganization (orgMap orgs !! id))
    :: match f with
       | O => []
       | S f' => concat (map (fun c => tree_ids (buildNode f' orgs (org_ID c))) (childrenOf orgs id))
       end.
Proof. destruct f as [|f]; [done |]. cbn [buildNode tree_ids with_children org_ID org_Children]. by rewrite map_map. Qed.

Lemma below_top orgs a j x :
  below orgs a (S j) x <->
  exists c, c ∈ orgs /\ parent_of (org_ParentID c) = Some a /\ below orgs (org_ID c) j x.
Proof.
  split.
  - revert x. induction j as [|j IH]; intros x Hb; inversion Hb as [|? o p Ho Hp Hb' E]; subst.
    + inversion Hb'; subst. exists o. split_and!; [done | done | constructor].
    + apply IH in Hb' as (c & Hc & Hpc & Hb''). exists c. split_and!; [done | done |]. by econstructor.
  - intros (c & Hc & Hpc & Hb). revert x Hb. induction j as [|j IH]; intros x Hb.
    + inversion Hb; subst. econstructor; [done | done | constructor].
    + inversion Hb as [|? o p Ho Hp Hb' E]; subst. econstructor; [done | done | auto].
Qed.

Lemma NoDup_concat_map {A B} (g : A -> list B) (l : list A) :
  NoDup l -> (forall c, c ∈ l -> NoDup (g c)) ->
  (forall c1 c2 x, c1 ∈ l -> c2 ∈ l -> x ∈ g c1 -> x ∈ g c2 -> c1 = c2) ->
  NoDup (concat (map g l)).
Proof.
  induction l as [|c l IH]; intros Hnd Hg Hdis; [constructor |]. apply NoDup_cons in Hnd as [Hc Hnd].
  cbn. apply NoDup_app. split_and!; [apply Hg; by left | | apply IH; [done | |]].
  - intros x Hx Hin. apply list_elem_of_In, in_concat in Hin as (lx & Hl & Hin).
    apply in_map_iff in Hl as (c' & <- & Hc'). apply list_elem_of_In in Hc'. apply list_elem_of_In in Hin.
    assert (c = c') as -> by (eapply Hdis; [by left | by right | done | done]). done.
  - intros; apply Hg; by right.
  - intros; eapply Hdis; eauto; by right.
Qed.

Lemma elem_of_concat_map {A B} (g : A -> list B) (l : list A) x :
  x ∈ concat (map g l) <-> exists c, c ∈ l /\ x ∈ g c.
Proof.
  rewrite list_elem_of_In, in_concat. setoid_rewrite in_map_iff. setoid_rewrite <- list_elem_of_In. naive_solver.
Qed.

Section Tree.
  Variable orgs : list Organization.
  Hypothesis ids_distinct : NoDup (map org_ID orgs).
  Hypothesis parents_listed : forall o p, o ∈ orgs -> parent_of (org_ParentID o) = Some p -> p ∈ map org_ID orgs.
  Hypothesis no_cycle : forest (build_parentMap orgs).
Let pm := build_parentMap orgs.

Lemma par_listed o : o ∈ orgs -> par pm (org_ID o) = parent_of (org_ParentID o).
Proof.
  intros Ho. unfold par, pm.
  assert (build_parentMap orgs !! org_ID o = Some (org_ParentID o)) as -> by (apply build_parentMap_lookup; eauto).
  done.
Qed.

Lemma below_depth a j x d : below orgs a j x -> depth pm d a -> depth pm (d + j) x.
Proof.
  induction 1 as [|j o p Ho Hp Hb IH]; intros Hd; [by rewrite Nat.add_0_r |].
  rewrite Nat.add_succ_r. econstructor; [by rewrite par_listed | auto].
Qed.

Lemma elem_of_ids x : x ∈ map org_ID orgs <-> exists o, o ∈ orgs /\ org_ID o = x.
Proof. rewrite list_elem_of_In, in_map_iff. setoid_rewrite <- list_elem_of_In. naive_solver. Qed.

Lemma buildNode_members f id x :
  id ∈ map org_ID orgs ->
  x ∈ tree_ids (buildNode f orgs id) <-> exists j, (j <= f)%nat /\ below orgs id j x.
Proof.
  revert id. induction f as [|f IH]; intros id (o & Ho & <-)%elem_of_ids; rewrite buildNode_ids, orgMap_lookup by done;
    cbn [default].
  - change (default zeroOrganization (Some o)) with o. rewrite list_elem_of_singleton. split.
    + intros ->. exists 0%nat. split; [lia | constructor].
    + intros (j & Hj & Hb). assert (j = 0%nat) as -> by lia. by inversion Hb.
  - change (default zeroOrganization (Some o)) with o. rewrite elem_of_cons, elem_of_concat_map. split.
    + intros [->|(c & Hc & Hx)]; [exists 0%nat; split; [lia | constructor] |].
      unfold childrenOf in Hc. apply list_elem_of_filter in Hc as [Hp Hc].
      apply IH in Hx as (j & Hj & Hb); [| apply elem_of_ids; eauto].
      exists (S j). split; [lia |]. apply below_top. eauto.
    + intros ([|j] & Hj & Hb); [inversion Hb; subst; by left |]. right.
      apply below_top in Hb as (c & Hc & Hp & Hb). exists c. split; [by apply list_elem_of_filter |].
      apply IH; [apply elem_of_ids; eauto |]. exists j. split; [lia | done].
Qed.

Lemma listed_depth x : x ∈ map org_ID orgs -> exists k, depth pm k x.
Proof.
  intros (o & Ho & <-)%elem_of_ids. apply no_cycle. exists (org_ParentID o). apply build_parentMap_lookup; eauto.
Qed.

Lemma NoDup_orgs l : sublist l orgs -> NoDup l.
Proof.
  intros Hs. apply (NoDup_fmap_1 org_ID). eapply sublist_NoDup; [exact ids_distinct |].
  change (map org_ID orgs) with (org_ID <$> orgs). by apply fmap_sublist.
Qed.

Lemma org_ID_inj o1 o2 : o1 ∈ orgs -> o2 ∈ orgs -> org_ID o1 = org_ID o2 -> o1 = o2.
Proof.
  intros H1 H2 E. apply (orgMap_lookup orgs) in H1, H2; [| done | done]. rewrite E in H1. congruence.
Qed.

(** There is one organization a given number of levels up. *)
Lemma below_unique a b j x : below orgs a j x -> below orgs b j x -> a = b.
Proof.
  revert x. induction j as [|j IH]; intros x Ha Hb.
  - inversion Ha; inversion Hb; congruence.
  - inversion Ha as [|? o1 p1 Ho1 Hp1 Ha' E1]; subst. inversion Hb as [|? o2 p2 Ho2 Hp2 Hb' E2]; subst.
    assert (o2 = o1) as -> by (by apply org_ID_inj). assert (p2 = p1) as -> by congruence. eauto.
Qed.

Lemma buildNode_NoDup f id : id ∈ map org_ID orgs -> NoDup (tree_ids (buildNode f orgs id)).
Proof.
  revert id. induction f as [|f IH]; intros id Hid; pose proof Hid as (o & Ho & <-)%elem_of_ids;
    rewrite buildNode_ids, orgMap_lookup by done; cbn [default].
  - apply NoDup_singleton.
  - change (default zeroOrganization (Some o)) with o. destruct (listed_depth _ Hid) as [d Hd].
    assert (forall c x, c ∈ childrenOf orgs (org_ID o) -> x ∈ tree_ids (buildNode f orgs (org_ID c)) ->
              exists j, below orgs (org_ID c) j x /\ depth pm (S d + j) x) as Hx.
    { intros c x Hc Hin. apply list_elem_of_filter in Hc as [Hp Hc].
      apply buildNode_members in Hin as (j & _ & Hb); [| apply elem_of_ids; eauto]. exists j. split; [done |].
      eapply below_depth; [done |]. econstructor; [by rewrite par_listed | done]. }
    constructor.
    + rewrite elem_of_concat_map. intros (c & Hc & Hin). destruct (Hx c _ Hc Hin) as (j & _ & Hdj).
      pose proof (depth_unique _ _ _ _ Hd Hdj). lia.
    + apply NoDup_concat_map.
      * apply NoDup_orgs, sublist_filter.
      * intros c Hc. apply list_elem_of_filter in Hc as [_ Hc]. apply IH, elem_of_ids. eauto.
      * intros c1 c2 x Hc1 Hc2 H1 H2. destruct (Hx c1 x Hc1 H1) as (j1 & Hb1 & Hd1), (Hx c2 x Hc2 H2) as (j2 & Hb2 & Hd2).
        assert (j1 = j2) as <- by (pose proof (depth_unique _ _ _ _ Hd1 Hd2); lia).
        apply list_elem_of_filter in Hc1 as [_ Hc1], Hc2 as [_ Hc2]. apply org_ID_inj; [done | done |].
        by apply (below_unique _ _ j1 x).
Qed.

(** A branch has no more levels than there are organizations. *)
Lemma depth_bound x k : x ∈ map org_ID orgs -> depth pm k x -> (k < length orgs)%nat.
Proof.
  intros Hx Hk.
  assert (exists l, length l = S k /\ NoDup l /\ (forall y, y ∈ l -> y ∈ map org_ID orgs /\ exists j, (j <= k)%nat /\ depth pm j y))
    as (l & El & Hnd & Hl).
  { revert x Hx Hk. induction k as [|k IH]; intros x Hx Hk.
    - exists [x]. split_and!; [done | apply NoDup_singleton |]. intros y ->%list_elem_of_singleton. eauto.
    - inversion Hk as [|? p ? Ep Hp]; subst. pose proof Hx as (o & Ho & <-)%elem_of_ids.
      rewrite par_listed in Ep by done.
      destruct (IH p (parents_listed _ _ Ho Ep) Hp) as (l & El & Hnd & Hl).
      exists (org_ID o :: l). split_and!; [cbn; lia | constructor; [| done] |].
      + intros Hin. destruct (Hl _ Hin) as (_ & j & Hj & Hdj). pose proof (depth_unique _ _ _ _ Hk Hdj). lia.
      + intros y [->|Hy]%elem_of_cons; [eauto |]. destruct (Hl y Hy) as (? & j & ? & ?). split; [done |]. exists j. split; [lia | done]. }
  assert (length l <= length (map org_ID orgs))%nat as Hle.
  { apply submseteq_length, NoDup_submseteq; [done |]. intros y Hy. by apply Hl. }
  rewrite length_map in Hle. lia.
Qed.

Lemma below_root x k : x ∈ map org_ID orgs -> depth pm k x -> exists r, r ∈ rootIDs orgs /\ below orgs r k x.
Proof.
  revert x. induction k as [|k IH]; intros x (o & Ho & <-)%elem_of_ids Hk.
  - exists (org_ID o). split; [| constructor]. inversion Hk as [? E|]; subst. rewrite par_listed in E by done.
    apply list_elem_of_omap. exists o. by rewrite E.
  - inversion Hk as [|? p ? Ep Hp]; subst. rewrite par_listed in Ep by done.
    destruct (IH p (parents_listed _ _ Ho Ep) Hp) as (r & Hr & Hb). exists r. split; [done |]. by econstructor.
Qed.

Lemma rootIDs_listed r : r ∈ rootIDs orgs -> r ∈ map org_ID orgs /\ depth pm 0 r.
Proof.
  unfold rootIDs. intros (o & Ho & E)%list_elem_of_omap.
  destruct (parent_of (org_ParentID o)) eqn:Ep; [done |]. injection E as <-.
  split; [apply elem_of_ids; eauto |]. constructor. by rewrite par_listed.
Qed.

Lemma rootIDs_NoDup : NoDup (rootIDs orgs).
Proof.
  clear -ids_distinct. unfold rootIDs. induction orgs as [|o l IH]; [constructor |]. cbn in *.
  apply NoDup_cons in ids_distinct as [Hn Hnd]. specialize (IH Hnd).
  destruct (parent_of (org_ParentID o)); [done |]. constructor; [| done].
  intros (o' & Ho' & E)%list_elem_of_omap. destruct (parent_of (org_ParentID o')); [done |]. injection E as E.
  apply Hn. rewrite <- E. apply list_elem_of_In, in_map, list_elem_of_In, Ho'.
Qed.

Lemma BuildTree_ids : Permutation (concat (map tree_ids (BuildTree orgs))) (map org_ID orgs).
Proof.
  unfold BuildTree. rewrite map_map. apply NoDup_Permutation; [| done |].
  - apply NoDup_concat_map; [apply rootIDs_NoDup | |].
    + intros r [Hr _]%rootIDs_listed. by apply buildNode_NoDup.
    + intros r1 r2 x [Hr1 Hd1]%rootIDs_listed [Hr2 Hd2]%rootIDs_listed H1 H2.
      apply buildNode_members in H1 as (j1 & _ & Hb1), H2 as (j2 & _ & Hb2); [| done | done].
      pose proof (below_depth _ _ _ _ Hb1 Hd1) as E1. pose proof (below_depth _ _ _ _ Hb2 Hd2) as E2.
      pose proof (depth_unique _ _ _ _ E1 E2) as E. cbn in E. subst j2.
      by apply (below_unique _ _ j1 x).
  - intros x. rewrite elem_of_concat_map. split.
    + intros (r & [Hr _]%rootIDs_listed & Hx). apply buildNode_members in Hx as (j & _ & Hb); [| done].
      inversion Hb; subst; [done |]. apply elem_of_ids. eauto.
    + intros Hx. destruct (listed_depth x Hx) as [k Hk]. destruct (below_root x k Hx Hk) as (r & Hr & Hb).
      exists r. split; [done |]. apply buildNode_members; [by apply rootIDs_listed |].
      exists k. split; [| done]. pose proof (depth_bound x k Hx Hk). lia.
Qed.
End Tree.

(** ** Properties of organizations *)

Definition sample_row (id tn : ID) (parent : option ID) : OrgRow :=
  mkOrgRow id tn parent (Itoa (Z.of_N id)) "Org" None "company" "active" ∅ zeroTime zeroTime.

Definition sample_orgs : OrgTable :=
  {[1%N := sample_row 1%N 9%N None; 2%N := sample_row 2%N 9%N (Some 1%N);
    3%N := sample_row 3%N 9%N (Some 2%N); 4%N := sample_row 4%N 8%N None]}.

Lemma sample_orgs_lookup k r : sample_orgs !! k = Some r ->
  (k, r) ∈ [(1%N, sample_row 1%N 9%N None); (2%N, sample_row 2%N 9%N (Some 1%N));
            (3%N, sample_row 3%N 9%N (Some 2%N)); (4%N, sample_row 4%N 8%N None)].
Proof. unfold sample_orgs. rewrite !lookup_insert_Some, lookup_singleton_Some. set_solver. Qed.

Lemma sample_orgs_ok : org_table_ok sample_orgs.
Proof.
  intros k r Hk%sample_orgs_lookup.
  repeat (apply elem_of_cons in Hk as [[= -> ->]|Hk]; [split_and!; [done | done | intros p [= <-] || (intros p Ep; done); eexists; by vm_compute] |]).
  by apply not_elem_of_nil in Hk.
Qed.

Lemma sample_orgs_hierarchy : hierarchy_ok sample_orgs.
Proof.
  intros tn x [v Hv]. apply tenant_parents_lookup in Hv as (r & Hr & <- & _).
  apply sample_orgs_lookup in Hr.
  repeat (apply elem_of_cons in Hr as [[= -> ->]|Hr]; [cbn |]); [| | | | by apply not_elem_of_nil in Hr].
  - exists 0%nat. constructor. by vm_compute.
  - exists 1%nat. econstructor; [by vm_compute |]. constructor. by vm_compute.
  - exists 2%nat. econstructor; [by vm_compute |]. econstructor; [by vm_compute |]. constructor. by vm_compute.
  - exists 0%nat. constructor. by vm_compute.
Qed.

Lemma sample_orgs_same_tenant k r p :
  sample_orgs !! k = Some r -> or_parent_id r = Some p ->
  exists r', sample_orgs !! p = Some r' /\ or_tenant_id r' = or_tenant_id r.
Proof.
  intros Hk Hp. apply sample_orgs_lookup in Hk.
  repeat (apply elem_of_cons in Hk as [[= -> ->]|Hk]); cbn [sample_row or_parent_id or_tenant_id] in *.
  - done.
  - injection Hp as <-. exists (sample_row 1%N 9%N None). split; by vm_compute.
  - injection Hp as <-. exists (sample_row 2%N 9%N (Some 1%N)). split; by vm_compute.
  - done.
  - by apply not_elem_of_nil in Hk.
Qed.

(** C38: the check for circular references is exact and always answers.  For
    any list of organizations, even one that already has a cycle, it accepts a
    new parent exactly when the way up from that parent ends at a top
    organization and does not meet the target; otherwise it is an
    invalid-input error; it never loops. *)
Theorem CheckCircularReference_exact (orgs : list Organization) (targetID : ID) (newParentID : option ID) :
  (CheckCircularReference orgs targetID newParentID = Ok tt <->
   forall p, parent_of newParentID = Some p ->
     (exists k, depth (build_parentMap orgs) k p) /\ ~ above (build_parentMap orgs) targetID p)
  /\ (CheckCircularReference orgs targetID newParentID <> Ok tt ->
      exists e, CheckCircularReference orgs targetID newParentID = Err e /\ errors_Is e ErrInvalidInput = true).
Proof.
  pose proof (CheckCircular_cases orgs targetID newParentID) as X.
  destruct (CheckCircularReference orgs targetID newParentID) as [[]|e|e]; [| | done].
  - split; [| done]. split; [| done]. intros _ p Ep. by rewrite Ep in X.
  - destruct X as (He & p & Ep & Hc). split; [| eauto]. split; [done |]. intros Hall.
    destruct (Hall p Ep) as [[k Hk] Hn]. exfalso. destruct Hc as [Ha|Hd]; [done | by apply (Hd k)].
Qed.

(** C37: the hierarchy of every tenant stays a forest.  If the table has no
    cycle, it has none after creating or updating an organization, whatever
    the command, the tenant and the failures of the database; and a call that
    fails leaves the table as it was. *)
Theorem hierarchy_invariant `{UnicodeTables, Env, Pg} (refused : OrgRow -> option error)
    (ctx : Ctx) (cmd : CreateCommand + UpdateCommand) (w : World OrgTable) :
  org_table_ok (w_db w) -> hierarchy_ok (w_db w) ->
  let (r, w') := match cmd with
                 | inl c => CreateOrganization refused ctx c w
                 | inr u => UpdateOrganization refused ctx u w
                 end in
  org_table_ok (w_db w') /\ hierarchy_ok (w_db w') /\ (is_Ok r = false -> w_db w' = w_db w).
Proof.
  intros Hok Hh. destruct cmd as [c|u].
  - pose proof (CreateOrganization_writes_last refused ctx c w) as Hw.
    destruct (CreateOrganization refused ctx c w) as [[o|e|e] w'] eqn:E; cbn [fst snd is_Ok] in *.
    + destruct (CreateOrganization_hierarchy refused ctx c w o w' Hok Hh E). done.
    + rewrite Hw; done.
    + rewrite Hw; done.
  - pose proof (UpdateOrganization_writes_last refused ctx u w) as Hw.
    destruct (UpdateOrganization refused ctx u w) as [[o|e|e] w'] eqn:E; cbn [fst snd is_Ok] in *.
    + destruct (UpdateOrganization_hierarchy refused ctx u w o w' Hok Hh E). done.
    + rewrite Hw; done.
    + rewrite Hw; done.
Qed.

Definition tenant_ctx (tn : ID) : Ctx := WithTenantID Background tn.

Lemma hierarchy_invariant_witness :
  let Hpg := pgx 0 in let Henv := calm zeroTime 1 in
  let cmd := mkUpdateCommand 3%N (Some 1%N) "" "" "" "" None in
  let w' := (UpdateOrganization (fun _ => None) (tenant_ctx 9%N) cmd (mkWorld sample_orgs 0%nat)).2 in
  (or_parent_id <$> w_db w' !! 3%N) = Some (Some 1%N) /\ hierarchy_ok (w_db w').
Proof.
  intros Hpg Henv cmd w'. split; [by vm_compute |].
  pose proof (hierarchy_invariant (fun _ => None) (tenant_ctx 9%N) (inr cmd) (mkWorld sample_orgs 0%nat)
    sample_orgs_ok sample_orgs_hierarchy) as T.
  cbv iota beta in T. unfold w'. destruct (UpdateOrganization _ _ _ _) as [r w1]. cbn [snd]. apply T.
Defined.

(** the tree shows every organization once.  When the parents of a
    tenant's organizations belong to the tenant, [GetTree] ends and returns
    each of its organizations exactly once. *)
Theorem GetTree_complete `{Env, Pg} (ctx : Ctx) (w w' : World OrgTable) (tree : list Organization) :
  org_table_ok (w_db w) -> hierarchy_ok (w_db w) ->
  (forall k r p, w_db w !! k = Some r -> or_parent_id r = Some p ->
     exists r', w_db w !! p = Some r' /\ or_tenant_id r' = or_tenant_id r) ->
  GetTree ctx w = (Ok tree, w') ->
  exists tn, ctx_tenant ctx = Some tn /\ w_db w' = w_db w /\
    NoDup (concat (map tree_ids tree)) /\
    forall id, id ∈ concat (map tree_ids tree) <-> exists r, w_db w !! id = Some r /\ or_tenant_id r = tn.
Proof.
  intros Hok Hh Hsame. unfold GetTree, ListOrganizations. intros E. step_inv. subst.
  match goal with X : RequireTenantID _ = Ok ?t |- _ => apply RequireTenantID_Ok in X as [Hctx Htn]; rename t into tn end.
  match goal with X : ListByTenant _ _ = _ |- _ => apply ListByTenant_Ok in X as [-> Hdb] end.
  set (orgs := map toDomainOrganization _).
  assert (forall o, o ∈ orgs <-> exists r, w_db w !! org_ID o = Some r /\ or_tenant_id r = tn /\ o = toDomainOrganization r) as Hin.
  { intros o. unfold orgs. rewrite list_elem_of_In, in_map_iff. setoid_rewrite <- list_elem_of_In.
    setoid_rewrite merge_sort_Permutation. setoid_rewrite elem_of_select_rows.
    unfold of_tenant. setoid_rewrite sql_eq_true. split.
    - intros (r & <- & [_ Ht] & k & Hk). exists r. cbn. destruct (Hok _ _ Hk) as [-> _]. done.
    - intros (r & Hr & Ht & ->). exists r. cbn in *. eauto. }
  assert (Permutation (concat (map tree_ids (BuildTree orgs))) (map org_ID orgs)) as Hp.
  { apply BuildTree_ids.
    - unfold orgs. rewrite map_map. cbn [toDomainOrganization org_ID]. rewrite merge_sort_Permutation.
      apply NoDup_select_rows. intros k r Hr. by apply Hok.
    - intros o p Ho Ep. apply Hin in Ho as (r & Hr & Ht & ->). cbn in *.
      assert (or_parent_id r = Some p) as Ep' by (unfold parent_of in Ep; repeat case_match; congruence).
      destruct (Hsame _ _ _ Hr Ep') as (r' & Hr' & Et').
      apply elem_of_ids. exists (toDomainOrganization r').
      assert (or_id r' = p) by (by apply Hok). split; [| done]. apply Hin. cbn. exists r'. naive_solver congruence.
    - unfold orgs. rewrite build_parentMap_table by done. apply Hh. }
  exists tn. split_and!; [done | done | |].
  - rewrite Hp. unfold orgs. rewrite map_map. cbn [toDomainOrganization org_ID]. rewrite merge_sort_Permutation.
    apply NoDup_select_rows. intros k r Hr. by apply Hok.
  - intros id. rewrite Hp, elem_of_ids. split.
    + intros (o & (r & Hr & Ht & _)%Hin & <-). eauto.
    + intros (r & Hr & Ht). exists (toDomainOrganization r). assert (or_id r = id) as <- by (by apply Hok).
      split; [| done]. apply Hin. exists r. done.
Qed.

Lemma GetTree_complete_witness :
  let Hpg := pgx 0 in let Henv := calm zeroTime 1 in
  let out := GetTree (tenant_ctx 9%N) (mkWorld sample_orgs 0%nat) in
  match out.1 with
  | Ok tree => map tree_ids tree = [[1%N; 2%N; 3%N]] /\ NoDup (concat (map tree_ids tree))
  | _ => False
  end.
Proof.
  intros Hpg Henv out. destruct out as [[tree|e|e] w'] eqn:E; [| by vm_compute in E..].
  cbn [fst]. split; [apply (f_equal fst) in E; vm_compute in E; injection E as <-; by vm_compute |].
  destruct (GetTree_complete (tenant_ctx 9%N) (mkWorld sample_orgs 0%nat) w' tree) as (tn & _ & _ & Hnd & _);
    [apply sample_orgs_ok | apply sample_orgs_hierarchy | | exact E | exact Hnd].
  exact sample_orgs_same_tenant.
Defined.

(** two gaps in [Update].  It accepts a parent that belongs to another
    tenant (the foreign key is not per tenant and only [Create] looks the
    parent up), after which the organization is missing from its own tenant's
    tree; and it cannot move an organization to the top, because the nil
    parent becomes NULL and COALESCE keeps the old one. *)
Theorem Update_parent_gaps :
  let Hpg := pgx 0 in let Henv := calm zeroTime 1 in let w := mkWorld sample_orgs 0%nat in
  let foreign := UpdateOrganization (fun _ => None) (tenant_ctx 9%N)
                   (mkUpdateCommand 3%N (Some 4%N) "" "" "" "" None) w in
  let top := UpdateOrganization (fun _ => None) (tenant_ctx 9%N)
               (mkUpdateCommand 3%N (Some NilID) "" "" "" "" None) w in
  is_Ok foreign.1 = true
  /\ (match (GetTree (tenant_ctx 9%N) foreign.2).1 with
      | Ok tree => map tree_ids tree = [[1%N; 2%N]] | _ => False end)
  /\ (match top.1 with Ok o => org_ParentID o = Some 2%N | _ => False end).
Proof. by vm_compute. Qed.
