(* ===== verification/AuditTrail.v ===== *)
(** * The audit trail

    [internal/core/domain/audit], the repository
    [internal/core/repository/postgres/audit_repo.go] with
    [queries/audit_logs.sql], and [internal/core/usecase/audit/audit_usecase.go]. *)

From S2P Require Import Prelude GoStrings GoTime Sdk.
#[local] Open Scope string_scope.
#[local] Open Scope list_scope.
#[local] Open Scope Z_scope.

Abbreviation Action := string.
Definition ActionCreate : Action := "create".
Definition ActionUpdate : Action := "update".
Definition ActionDelete : Action := "delete".
Definition ActionTransition : Action := "transition".
Definition ActorTypeUser : string := "user".

Record AuditLog := mkAuditLog {
  al_ID : ID;
  al_TenantID : ID;
  al_ActorID : option ID;
  al_ActorType : string;
  al_Action : Action;
  al_EntityType : string;
  al_EntityID : ID;
  al_Changes : AnyMap;
  al_Metadata : AnyMap;
  al_CreatedAt : Time;
}.

Record Filter := mkFilter {
  f_EntityType : option string;
  f_EntityID : option ID;
  f_ActorID : option ID;
  f_Action : option Action;
  f_Limit : Z;
  f_Offset : Z;
}.

(** Rows of [audit_logs] have the fields of the record; an absent actor is
    NULL. *)
Abbreviation AuditTable := (gmap ID AuditLog).

Section Repo.
  Context `{Env, Pg}.
  Variable refused : AuditLog -> option error.

Definition audit_row (a : AuditLog) : AuditLog := {|
  al_ID := al_ID a;
  al_TenantID := al_TenantID a;
  al_ActorID := opt_ref (al_ActorID a);
  al_ActorType := al_ActorType a;
  al_Action := al_Action a;
  al_EntityType := al_EntityType a;
  al_EntityID := al_EntityID a;
  al_Changes := pg_jsonb <$> al_Changes a;
  al_Metadata := pg_jsonb <$> al_Metadata a;
  al_CreatedAt := pg_timestamptz (al_CreatedAt a) |}.

Definition insert_audit (row : AuditLog) (t : AuditTable) : res (AuditLog * AuditTable) :=
  if bool_decide (al_ID row = NilID \/ al_TenantID row = NilID \/ al_EntityID row = NilID)
  then Err pg_unique_violation
  else match t !! al_ID row, refused row with
       | Some _, _ => Err pg_unique_violation
       | None, Some e => Err e
       | None, None => Ok (row, <[al_ID row := row]> t)
       end.

(** The entry with the identifier and time the server stored. *)
Definition Create (a : AuditLog) : M AuditTable AuditLog :=
  row <- query (insert_audit (audit_row a)) ;;
  ret {| al_ID := al_ID row; al_TenantID := al_TenantID a; al_ActorID := al_ActorID a;
         al_ActorType := al_ActorType a; al_Action := al_Action a; al_EntityType := al_EntityType a;
         al_EntityID := al_EntityID a; al_Changes := al_Changes a; al_Metadata := al_Metadata a;
         al_CreatedAt := al_CreatedAt row |}.

Definition audit_matches (tenantID : ID) (f : Filter) (r : AuditLog) : bool :=
  sql_eq (al_TenantID r) (ToPgUUID tenantID)
  && narg_eq (f_EntityType f) (al_EntityType r)
  && narg_id (f_EntityID f) (Some (al_EntityID r))
  && narg_id (f_ActorID f) (al_ActorID r)
  && narg_eq (f_Action f) (al_Action r).

Definition audit_newest (a b : AuditLog) : Prop := t_nanos (al_CreatedAt b) <= t_nanos (al_CreatedAt a).
#[export] Instance audit_newest_dec : RelDecision audit_newest.
Proof. intros a b. unfold audit_newest. apply _. Defined.

Definition count_audit (tenantID : ID) (filter : Filter) (t : AuditTable) : Z :=
  Z.of_nat (length (select_rows (audit_matches tenantID filter) t)).

(** COUNT, then ORDER BY created_at DESC LIMIT OFFSET: two statements. *)
Definition List (tenantID : ID) (filter : Filter) : M AuditTable (list AuditLog * Z) :=
  let limit := if f_Limit filter <=? 0 then 20 else f_Limit filter in
  let offset := Z.max (f_Offset filter) 0 in
  total <- query (fun t => Ok (count_audit tenantID filter t, t)) ;;
  rows <- query (fun t => Ok (sql_page limit offset
            (merge_sort audit_newest (select_rows (audit_matches tenantID filter) t)), t)) ;;
  ret (rows, total).
End Repo.

(** ** The use case *)

Record RecordAuditCommand := mkRecordAuditCommand {
  ra_ActorID : option ID; ra_ActorType : string; ra_Action : Action; ra_EntityType : string;
  ra_EntityID : ID; ra_Changes : AnyMap; ra_Metadata : AnyMap;
}.

Record AuditListResult := mkAuditListResult {
  alr_Items : list AuditLog; alr_Total : Z; alr_Page : Z; alr_PageSize : Z;
}.

Section Usecase.
  Context `{Env, Pg}.
  Variable refused : AuditLog -> option error.

Definition RecordAudit (ctx : Ctx) (cmd : RecordAuditCommand) : M AuditTable AuditLog :=
  tenantID <- lift_res (RequireTenantID ctx) ;;
  id <- NewID ;;
  let actorType := if String.eqb (ra_ActorType cmd) "" then ActorTypeUser else ra_ActorType cmd in
  now <- NowUTC ;;
  Create refused (mkAuditLog id tenantID (ra_ActorID cmd) actorType (ra_Action cmd) (ra_EntityType cmd)
    (ra_EntityID cmd) (ra_Changes cmd) (ra_Metadata cmd) now).

(** Pages are 32-bit integers; the product wraps. *)
Definition ListAudit (ctx : Ctx) (page pageSize : Z) (entityType : option string)
    (entityID actorID : option ID) (action : option Action) : M AuditTable AuditListResult :=
  tenantID <- lift_res (RequireTenantID ctx) ;;
  let page := if page <? 1 then 1 else page in
  let pageSize := if (pageSize <? 1) || (100 <? pageSize) then 20 else pageSize in
  let offset := int32 ((page - 1) * pageSize) in
  r <- List tenantID (mkFilter entityType entityID actorID action pageSize offset) ;;
  ret (mkAuditListResult r.1 r.2 page pageSize).
End Usecase.

(** The trail is append-only: an insertion keeps every row. *)
Lemma insert_audit_append `{Pg} refused row t r t' :
  insert_audit refused row t = Ok (r, t') ->
  r = row /\ t' = <[al_ID row := row]> t /\ t !! al_ID row = None.
Proof.
  unfold insert_audit. case_bool_decide; [done |].
  destruct (t !! al_ID row); [done |]. destruct (refused row); naive_solver.
Qed.

Lemma audit_Create_Ok `{Env, Pg} refused entry w e w' : Create refused entry w = (Ok e, w') ->
  w_db w !! al_ID entry = None /\ w_db w' = <[al_ID entry := audit_row entry]> (w_db w).
Proof.
  unfold Create. intros E. step_inv. subst.
  match goal with X : insert_audit _ _ _ = _ |- _ => apply insert_audit_append in X as (-> & -> & Hf) end. done.
Qed.
