(* ===== verification/Documents.v ===== *)
(** * Business documents

    [internal/core/domain/document/document.go], the repository
    [internal/core/repository/postgres/document_repo.go] with
    [queries/documents.sql], and
    [internal/core/usecase/document/document_usecase.go], which writes the
    document, its outbox event and its audit entry in one transaction. *)

From S2P Require Import Prelude GoStrings GoTime GoFloat Sdk Tables Money Workflow SequenceStore EventBus Outbox AuditTrail.
#[local] Open Scope string_scope.
#[local] Open Scope list_scope.
#[local] Open Scope Z_scope.

(** ** Domain *)

Abbreviation DocumentType := string.

Record DocumentLine := mkDocumentLine {
  dl_ID : ID;
  dl_TenantID : ID;
  dl_DocumentID : ID;
  dl_LineNumber : Z;
  dl_ProductID : option ID;
  dl_ProductName : string;
  dl_Description : string;
  dl_Quantity : float64;
  dl_UnitID : ID;
  dl_UnitCode : string;
  dl_UnitPrice : Money;
  dl_Subtotal : Money;
  dl_Metadata : AnyMap;
  dl_CreatedAt : Time;
  dl_UpdatedAt : Time;
}.

Record DocumentTransition := mkDocumentTransition {
  dt_ID : ID;
  dt_TenantID : ID;
  dt_DocumentID : ID;
  dt_FromStatus : Workflow.Status;
  dt_ToStatus : Workflow.Status;
  dt_Reason : string;
  dt_ActorID : option ID;
  dt_CreatedAt : Time;
}.

Record Document := mkDocument {
  doc_ID : ID;
  doc_TenantID : ID;
  doc_OrganizationID : ID;
  doc_OrganizationName : string;
  doc_DocumentType : DocumentType;
  doc_DocumentNumber : string;
  doc_DocumentDate : Time;
  doc_PartyID : option ID;
  doc_PartyName : string;
  doc_Status : Workflow.Status;
  doc_TotalAmount : Money;
  doc_Notes : string;
  doc_Metadata : AnyMap;
  doc_CreatedBy : option ID;
  doc_Lines : list DocumentLine;
  doc_Transitions : list DocumentTransition;
  doc_CreatedAt : Time;
  doc_UpdatedAt : Time;
}.

Definition with_parts (d : Document) (lines : list DocumentLine) (trans : list DocumentTransition) : Document :=
  mkDocument (doc_ID d) (doc_TenantID d) (doc_OrganizationID d) (doc_OrganizationName d)
    (doc_DocumentType d) (doc_DocumentNumber d) (doc_DocumentDate d) (doc_PartyID d) (doc_PartyName d)
    (doc_Status d) (doc_TotalAmount d) (doc_Notes d) (doc_Metadata d) (doc_CreatedBy d)
    lines trans (doc_CreatedAt d) (doc_UpdatedAt d).

Record DocumentFilter := mkDocumentFilter {
  df_OrganizationID : option ID;
  df_DocumentType : option DocumentType;
  df_Status : option Workflow.Status;
  df_Limit : Z;
  df_Offset : Z;
}.

(** ** Tables *)

Record DocRow := mkDocRow {
  dr_id : ID;
  dr_tenant_id : ID;
  dr_organization_id : ID;
  dr_document_type : string;
  dr_document_number : string;
  dr_document_date : Time;
  dr_party_id : option ID;
  dr_status : string;
  dr_total_amount : Z;
  dr_currency : string;
  dr_notes : option string;
  dr_metadata : AnyMap;
  dr_created_by : option ID;
  dr_created_at : Time;
  dr_updated_at : Time;
}.

Record LineRow := mkLineRow {
  lr_id : ID;
  lr_tenant_id : ID;
  lr_document_id : ID;
  lr_line_number : Z;
  lr_product_id : option ID;
  lr_description : string;
  lr_quantity : float64;
  lr_unit_id : ID;
  lr_unit_price : Z;
  lr_subtotal : Z;
  lr_metadata : AnyMap;
  lr_created_at : Time;
  lr_updated_at : Time;
}.

Record TransRow := mkTransRow {
  tr_id : ID;
  tr_tenant_id : ID;
  tr_document_id : ID;
  tr_from_status : string;
  tr_to_status : string;
  tr_reason : option string;
  tr_actor_id : option ID;
  tr_created_at : Time;
}.

Record DocTables := mkDocTables {
  t_documents : gmap ID DocRow;
  t_lines : gmap ID LineRow;
  t_transitions : gmap ID TransRow;
}.

(** The tables the document use case writes. *)
Record DocDB := mkDocDB {
  db_doc : DocTables;
  db_outbox : OutboxTable;
  db_audit : AuditTable;
  db_seq : SeqTable;
}.

#[export] Instance lens_doc : Lens DocDB DocTables.
Proof.
  refine {| lens_get := db_doc;
            lens_set e d := mkDocDB e (db_outbox d) (db_audit d) (db_seq d) |}; by intros; try destruct d.
Defined.
#[export] Instance lens_outbox : Lens DocDB OutboxTable.
Proof.
  refine {| lens_get := db_outbox;
            lens_set e d := mkDocDB (db_doc d) e (db_audit d) (db_seq d) |}; by intros; try destruct d.
Defined.
#[export] Instance lens_audit : Lens DocDB AuditTable.
Proof.
  refine {| lens_get := db_audit;
            lens_set e d := mkDocDB (db_doc d) (db_outbox d) e (db_seq d) |}; by intros; try destruct d.
Defined.
#[export] Instance lens_seq : Lens DocDB SeqTable.
Proof.
  refine {| lens_get := db_seq;
            lens_set e d := mkDocDB (db_doc d) (db_outbox d) (db_audit d) e |}; by intros; try destruct d.
Defined.

(** What the queries join from tables of other components, and the rows the
    server refuses (lengths, foreign keys, values that are not JSON). *)
Class Catalog := {
  cat_organization : ID -> option string;
  cat_party : ID -> option string;
  cat_unit : ID -> option string;
  cat_product : ID -> option string;
  doc_refused : DocRow -> option error;
  line_refused : LineRow -> option error;
  trans_refused : TransRow -> option error;
  outbox_refused : OutboxRow -> option error;
  audit_refused : AuditLog -> option error;
  seq_refused : SeqRow -> option error;
}.

(** [pgx.ErrNoRows], which some methods return as it is. *)
Definition errNoRows : error := ENew "no rows in result set".

(** ** Repository *)

Section Repo.
  Context `{UnicodeTables, Env, Pg, Catalog}.

Definition doc_row (doc : Document) : DocRow := {|
  dr_id := doc_ID doc;
  dr_tenant_id := doc_TenantID doc;
  dr_organization_id := doc_OrganizationID doc;
  dr_document_type := doc_DocumentType doc;
  dr_document_number := doc_DocumentNumber doc;
  dr_document_date := pg_date (doc_DocumentDate doc);
  dr_party_id := opt_ref (doc_PartyID doc);
  dr_status := doc_Status doc;
  dr_total_amount := m_amount (doc_TotalAmount doc);
  dr_currency := m_currency (doc_TotalAmount doc);
  dr_notes := text_or_null (doc_Notes doc);
  dr_metadata := pg_jsonb <$> doc_Metadata doc;
  dr_created_by := opt_ref (doc_CreatedBy doc);
  dr_created_at := pg_timestamptz (doc_CreatedAt doc);
  dr_updated_at := pg_timestamptz (doc_UpdatedAt doc) |}.

(** uq_documents_tenant_type_number. *)
Definition same_number (a b : DocRow) : bool :=
  bool_decide (dr_tenant_id a = dr_tenant_id b)
  && String.eqb (dr_document_type a) (dr_document_type b)
  && String.eqb (dr_document_number a) (dr_document_number b).

Definition insert_document (row : DocRow) (t : DocTables) : res (DocRow * DocTables) :=
  if bool_decide (dr_id row = NilID \/ dr_tenant_id row = NilID \/ dr_organization_id row = NilID)
  then Err pg_unique_violation
  else match t_documents t !! dr_id row, select_one (same_number row) (t_documents t), doc_refused row with
       | Some _, _, _ => Err pg_unique_violation
       | None, Some _, _ => Err pg_unique_violation
       | None, None, Some e => Err e
       | None, None, None =>
           Ok (row, mkDocTables (<[dr_id row := row]> (t_documents t)) (t_lines t) (t_transitions t))
       end.

(** The document with the identifier and times the server stored. *)
Definition repo_CreateDocument (doc : Document) : M DocTables Document :=
  row <- query (insert_document (doc_row doc)) ;;
  ret (mkDocument (dr_id row) (doc_TenantID doc) (doc_OrganizationID doc) (doc_OrganizationName doc)
    (doc_DocumentType doc) (doc_DocumentNumber doc) (doc_DocumentDate doc) (doc_PartyID doc)
    (doc_PartyName doc) (doc_Status doc) (doc_TotalAmount doc) (doc_Notes doc) (doc_Metadata doc)
    (doc_CreatedBy doc) (doc_Lines doc) (doc_Transitions doc) (dr_created_at row) (dr_updated_at row)).

(** [JOIN organizations]: a row without its organization is not returned.
    [MustNewMoney] panics on a stored currency that is not three bytes. *)
Definition toDomainDocument (row : DocRow) : res Document :=
  match MustNewMoney (dr_total_amount row) (dr_currency row) with
  | Ok total =>
      Ok {| doc_ID := dr_id row;
            doc_TenantID := dr_tenant_id row;
            doc_OrganizationID := dr_organization_id row;
            doc_OrganizationName := default "" (cat_organization (dr_organization_id row));
            doc_DocumentType := dr_document_type row;
            doc_DocumentNumber := dr_document_number row;
            doc_DocumentDate := dr_document_date row;
            doc_PartyID := dr_party_id row;
            doc_PartyName := default "" (p ← dr_party_id row; cat_party p);
            doc_Status := dr_status row;
            doc_TotalAmount := total;
            doc_Notes := default "" (dr_notes row);
            doc_Metadata := dr_metadata row;
            doc_CreatedBy := dr_created_by row;
            doc_Lines := [];
            doc_Transitions := [];
            doc_CreatedAt := dr_created_at row;
            doc_UpdatedAt := dr_updated_at row |}
  | Err e => Err e
  | Panic e => Panic e
  end.

Definition joined (row : DocRow) : bool := bool_decide (is_Some (cat_organization (dr_organization_id row))).

Definition line_le (a b : LineRow) : Prop := lr_line_number a <= lr_line_number b.
#[export] Instance line_le_dec : RelDecision line_le.
Proof. intros a b. unfold line_le. apply _. Defined.

(** The currency of a line is not stored; the code writes "IDR". *)
Definition toDomainLine (row : LineRow) : res DocumentLine :=
  let? price := MustNewMoney (lr_unit_price row) "IDR" in
  let? subtotal := MustNewMoney (lr_subtotal row) "IDR" in
  Ok {| dl_ID := lr_id row;
        dl_TenantID := lr_tenant_id row;
        dl_DocumentID := lr_document_id row;
        dl_LineNumber := lr_line_number row;
        dl_ProductID := lr_product_id row;
        dl_ProductName := default "" (p ← lr_product_id row; cat_product p);
        dl_Description := lr_description row;
        dl_Quantity := lr_quantity row;
        dl_UnitID := lr_unit_id row;
        dl_UnitCode := default "" (cat_unit (lr_unit_id row));
        dl_UnitPrice := price;
        dl_Subtotal := subtotal;
        dl_Metadata := lr_metadata row;
        dl_CreatedAt := lr_created_at row;
        dl_UpdatedAt := lr_updated_at row |}.

Fixpoint map_res {A B} (f : A -> res B) (l : list A) : res (list B) :=
  match l with
  | [] => Ok []
  | x :: l' => let? y := f x in let? ys := map_res f l' in Ok (y :: ys)
  end.

Definition line_of (tenantID documentID : ID) (r : LineRow) : bool :=
  sql_eq (lr_tenant_id r) (ToPgUUID tenantID) && sql_eq (lr_document_id r) (ToPgUUID documentID)
  && bool_decide (is_Some (cat_unit (lr_unit_id r))).

Definition ListLines (tenantID documentID : ID) : M DocTables (list DocumentLine) :=
  rows <- query (fun t => Ok (merge_sort line_le (select_rows (line_of tenantID documentID) (t_lines t)), t)) ;;
  lift_res (map_res toDomainLine rows).

Definition trans_le (a b : TransRow) : Prop := t_nanos (tr_created_at a) <= t_nanos (tr_created_at b).
#[export] Instance trans_le_dec : RelDecision trans_le.
Proof. intros a b. unfold trans_le. apply _. Defined.

Definition toDomainTransition (row : TransRow) : DocumentTransition :=
  mkDocumentTransition (tr_id row) (tr_tenant_id row) (tr_document_id row) (tr_from_status row)
    (tr_to_status row) (default "" (tr_reason row)) (tr_actor_id row) (tr_created_at row).

Definition trans_of (tenantID documentID : ID) (r : TransRow) : bool :=
  sql_eq (tr_tenant_id r) (ToPgUUID tenantID) && sql_eq (tr_document_id r) (ToPgUUID documentID).

Definition ListTransitions (tenantID documentID : ID) : M DocTables (list DocumentTransition) :=
  query (fun t => Ok (map toDomainTransition
    (merge_sort trans_le (select_rows (trans_of tenantID documentID) (t_transitions t))), t)).

Definition get_document (p : DocRow -> bool) : M DocTables DocRow :=
  query (fun t => match select_one (fun r => p r && joined r) (t_documents t) with
                  | Some row => Ok (row, t)
                  | None => Err (ESentinel ErrNotFound)
                  end).

Definition doc_by_id (tenantID id : ID) (r : DocRow) : bool :=
  sql_eq (dr_tenant_id r) (ToPgUUID tenantID) && sql_eq (dr_id r) (ToPgUUID id).

Definition doc_by_number (tenantID : ID) (docType : DocumentType) (number : string) (r : DocRow) : bool :=
  sql_eq (dr_tenant_id r) (ToPgUUID tenantID) && String.eqb (dr_document_type r) docType
  && String.eqb (dr_document_number r) number.

Definition repo_GetDocumentByID (tenantID id : ID) : M DocTables Document :=
  row <- get_document (doc_by_id tenantID id) ;;
  doc <- lift_res (toDomainDocument row) ;;
  lines <- ListLines tenantID id ;;
  transitions <- ListTransitions tenantID id ;;
  ret (with_parts doc lines transitions).

Definition repo_GetDocumentByNumber (tenantID : ID) (docType : DocumentType) (number : string) :
    M DocTables Document :=
  row <- get_document (doc_by_number tenantID docType number) ;;
  doc <- lift_res (toDomainDocument row) ;;
  lines <- ListLines tenantID (doc_ID doc) ;;
  transitions <- ListTransitions tenantID (doc_ID doc) ;;
  ret (with_parts doc lines transitions).

Definition doc_matches (tenantID : ID) (f : DocumentFilter) (r : DocRow) : bool :=
  sql_eq (dr_tenant_id r) (ToPgUUID tenantID)
  && narg_id (df_OrganizationID f) (Some (dr_organization_id r))
  && narg_eq (df_DocumentType f) (dr_document_type r)
  && narg_eq (df_Status f) (dr_status r).

(** ORDER BY document_date DESC, created_at DESC. *)
Definition doc_newest (a b : DocRow) : Prop :=
  t_nanos (dr_document_date b) < t_nanos (dr_document_date a)
  \/ (t_nanos (dr_document_date b) = t_nanos (dr_document_date a)
      /\ t_nanos (dr_created_at b) <= t_nanos (dr_created_at a)).
#[export] Instance doc_newest_dec : RelDecision doc_newest.
Proof. intros a b. unfold doc_newest. apply _. Defined.

Definition count_documents (tenantID : ID) (filter : DocumentFilter) (t : DocTables) : Z :=
  Z.of_nat (length (select_rows (doc_matches tenantID filter) (t_documents t))).

Definition repo_ListDocuments (tenantID : ID) (filter : DocumentFilter) :
    M DocTables (list Document * Z) :=
  let limit := Z.max (df_Limit filter) 20 in
  let offset := Z.max (df_Offset filter) 0 in
  total <- query (fun t => Ok (count_documents tenantID filter t, t)) ;;
  rows <- query (fun t => Ok (sql_page limit offset (merge_sort doc_newest
            (select_rows (fun r => doc_matches tenantID filter r && joined r) (t_documents t))), t)) ;;
  docs <- lift_res (map_res toDomainDocument rows) ;;
  ret (docs, total).

(** UPDATE documents SET ... WHERE tenant_id = $1 AND id = $2 RETURNING *. *)
Definition update_document (tenantID id : ID) (f : DocRow -> DocRow) (t : DocTables) :
    res (DocRow * DocTables) :=
  match select_one (doc_by_id tenantID id) (t_documents t) with
  | None => Err errNoRows
  | Some row =>
      match doc_refused (f row) with
      | Some e => Err e
      | None => Ok (f row, mkDocTables (<[dr_id row := f row]> (t_documents t)) (t_lines t) (t_transitions t))
      end
  end.

Definition set_status (status : string) (now : Time) (r : DocRow) : DocRow :=
  mkDocRow (dr_id r) (dr_tenant_id r) (dr_organization_id r) (dr_document_type r) (dr_document_number r)
    (dr_document_date r) (dr_party_id r) status (dr_total_amount r) (dr_currency r) (dr_notes r)
    (dr_metadata r) (dr_created_by r) (dr_created_at r) (pg_timestamptz now).

Definition set_total (total : Money) (now : Time) (r : DocRow) : DocRow :=
  mkDocRow (dr_id r) (dr_tenant_id r) (dr_organization_id r) (dr_document_type r) (dr_document_number r)
    (dr_document_date r) (dr_party_id r) (dr_status r) (m_amount total) (m_currency total) (dr_notes r)
    (dr_metadata r) (dr_created_by r) (dr_created_at r) (pg_timestamptz now).

(** [now] is the server's NOW(). *)
Definition UpdateDocumentStatus (tenantID id : ID) (newStatus : Workflow.Status) : M DocTables unit :=
  now <- Now ;; query (update_document tenantID id (set_status newStatus now)) ;;; ret tt.

Definition UpdateDocumentTotal (tenantID id : ID) (total : Money) : M DocTables unit :=
  now <- Now ;; query (update_document tenantID id (set_total total now)) ;;; ret tt.

Definition line_row (line : DocumentLine) : LineRow := {|
  lr_id := dl_ID line;
  lr_tenant_id := dl_TenantID line;
  lr_document_id := dl_DocumentID line;
  lr_line_number := dl_LineNumber line;
  lr_product_id := opt_ref (dl_ProductID line);
  lr_description := dl_Description line;
  lr_quantity := pg_numeric (dl_Quantity line);
  lr_unit_id := dl_UnitID line;
  lr_unit_price := m_amount (dl_UnitPrice line);
  lr_subtotal := m_amount (dl_Subtotal line);
  lr_metadata := pg_jsonb <$> dl_Metadata line;
  lr_created_at := pg_timestamptz (dl_CreatedAt line);
  lr_updated_at := pg_timestamptz (dl_UpdatedAt line) |}.

(** REFERENCES documents(id), and uq_document_lines_doc_line. *)
Definition insert_line (row : LineRow) (t : DocTables) : res (LineRow * DocTables) :=
  if bool_decide (lr_id row = NilID \/ lr_tenant_id row = NilID \/ lr_document_id row = NilID \/ lr_unit_id row = NilID)
  then Err pg_unique_violation
  else match t_documents t !! lr_document_id row, t_lines t !! lr_id row,
             select_one (fun r => bool_decide (lr_document_id r = lr_document_id row)
                                  && (lr_line_number r =? lr_line_number row)) (t_lines t),
             line_refused row with
       | None, _, _, _ => Err (ENew "foreign key violation")
       | Some _, Some _, _, _ => Err pg_unique_violation
       | Some _, None, Some _, _ => Err pg_unique_violation
       | Some _, None, None, Some e => Err e
       | Some _, None, None, None =>
           Ok (row, mkDocTables (t_documents t) (<[lr_id row := row]> (t_lines t)) (t_transitions t))
       end.

Fixpoint CreateLines (lines : list DocumentLine) : M DocTables (list DocumentLine) :=
  match lines with
  | [] => ret []
  | line :: lines' =>
      row <- query (insert_line (line_row line)) ;;
      rest <- CreateLines lines' ;;
      ret (mkDocumentLine (lr_id row) (dl_TenantID line) (dl_DocumentID line) (dl_LineNumber line)
             (dl_ProductID line) (dl_ProductName line) (dl_Description line) (dl_Quantity line)
             (dl_UnitID line) (dl_UnitCode line) (dl_UnitPrice line) (dl_Subtotal line)
             (dl_Metadata line) (lr_created_at row) (lr_updated_at row) :: rest)
  end.

Definition trans_row (trans : DocumentTransition) : TransRow :=
  mkTransRow (dt_ID trans) (dt_TenantID trans) (dt_DocumentID trans) (dt_FromStatus trans)
    (dt_ToStatus trans) (text_or_null (dt_Reason trans)) (opt_ref (dt_ActorID trans))
    (pg_timestamptz (dt_CreatedAt trans)).

Definition insert_transition (row : TransRow) (t : DocTables) : res (TransRow * DocTables) :=
  if bool_decide (tr_id row = NilID \/ tr_tenant_id row = NilID \/ tr_document_id row = NilID)
  then Err pg_unique_violation
  else match t_documents t !! tr_document_id row, t_transitions t !! tr_id row, trans_refused row with
       | None, _, _ => Err (ENew "foreign key violation")
       | Some _, Some _, _ => Err pg_unique_violation
       | Some _, None, Some e => Err e
       | Some _, None, None =>
           Ok (row, mkDocTables (t_documents t) (t_lines t) (<[tr_id row := row]> (t_transitions t)))
       end.

Definition RecordTransition (trans : DocumentTransition) : M DocTables DocumentTransition :=
  row <- query (insert_transition (trans_row trans)) ;;
  ret (mkDocumentTransition (tr_id row) (dt_TenantID trans) (dt_DocumentID trans) (dt_FromStatus trans)
         (dt_ToStatus trans) (dt_Reason trans) (dt_ActorID trans) (tr_created_at row)).
End Repo.

(** ** The use case *)

Record CreateDocumentLineInput := mkLineInput {
  li_ProductID : option ID;
  li_Description : string;
  li_Quantity : float64;
  li_UnitID : ID;
  li_UnitPrice : Money;
  li_Metadata : AnyMap;
}.

Record CreateDocumentCommand := mkCreateDocumentCommand {
  cd_OrganizationID : ID;
  cd_DocumentType : DocumentType;
  cd_DocumentNumber : string;
  cd_DocumentDate : option Time;
  cd_PartyID : option ID;
  cd_Currency : string;
  cd_Notes : string;
  cd_Metadata : AnyMap;
  cd_Lines : list CreateDocumentLineInput;
  cd_CreatedBy : option ID;
}.

Record TransitionDocumentCommand := mkTransitionDocumentCommand {
  td_DocumentID : ID;
  td_TargetStatus : Workflow.Status;
  td_Reason : string;
  td_ActorID : option ID;
}.

Record DocumentListResult := mkDocumentListResult {
  dlr_Items : list Document; dlr_Total : Z; dlr_Page : Z; dlr_PageSize : Z;
}.

(** Which of the optional collaborators the use case was built with. *)
Record usecase := mkUsecase { has_audit : bool; has_outbox : bool; has_seq : bool }.

Section Usecase.
  Context `{UnicodeTables, Env, Pg, Catalog, UUIDLib, GoPlatform}.
  Variable u : usecase.

(** The loop over the lines: the running total and the lines built so far. *)
Fixpoint build_lines (tenantID docID : ID) (currency : string) (now : Time) (i : Z) (total : Money)
    (inputs : list CreateDocumentLineInput) : M DocDB (Money * list DocumentLine) :=
  match inputs with
  | [] => ret (total, [])
  | l :: inputs' =>
      let line := "line " +:+ Itoa (i + 1) in
      guard (fle (li_Quantity l) f0)
        (Errorf ErrInvalidInput (line +:+ " quantity must be greater than zero")) ;;;
      guard (bool_decide (li_UnitID l = NilID)) (Errorf ErrInvalidInput (line +:+ " unit_id is required")) ;;;
      unitPrice <- (if String.eqb (m_currency (li_UnitPrice l)) ""
                    then lift_res (MustNewMoney (m_amount (li_UnitPrice l)) currency)
                    else guard (negb (String.eqb (m_currency (li_UnitPrice l)) currency))
                           (Errorf ErrInvalidInput (line +:+ " currency '" +:+ m_currency (li_UnitPrice l)
                              +:+ "' does not match document currency '" +:+ currency +:+ "'")) ;;;
                         ret (li_UnitPrice l)) ;;
      let subtotal := MultiplyFloat unitPrice (li_Quantity l) in
      newTotal <- (match Money.Add total subtotal with
                   | Err e => fail (EWrap (line +:+ ": ") e "")
                   | r => lift_res r
                   end) ;;
      lineID <- NewID ;;
      rest <- build_lines tenantID docID currency now (i + 1) newTotal inputs' ;;
      ret (rest.1,
           mkDocumentLine lineID tenantID docID (int32 (i + 1)) (li_ProductID l) ""
             (TrimSpace (li_Description l)) (li_Quantity l) (li_UnitID l) "" unitPrice subtotal
             (match li_Metadata l with Some m => Some m | None => Some ∅ end) now now :: rest.2)
  end.

(** The number: the caller's, the sequence engine's, or a default made of the
    date and the identifier. *)
Definition document_number (tenantID docID : ID) (cmd : CreateDocumentCommand) : M DocDB string :=
  let docNum := TrimSpace (cd_DocumentNumber cmd) in
  if negb (String.eqb docNum "") then ret docNum
  else
    generated <- (if has_seq u
                  then r <- attempt (zoom (uc_AcquireNextNumber seq_refused tenantID "document"
                                             (cd_DocumentType cmd) [])) ;;
                       ret (match r with inl n => n | inr _ => "" end)
                  else ret "") ;;
    if negb (String.eqb generated "") then ret generated
    else
      now <- Now ;;
      ret (ToUpper (cd_DocumentType cmd) +:+ "-" +:+ Format_20060102 now +:+ "-"
           +:+ take 8 (uuid_String docID)).

Definition document_currency (cmd : CreateDocumentCommand) : string :=
  let currency := TrimSpace (cd_Currency cmd) in
  if negb (String.eqb currency "") then currency
  else match cd_Lines cmd with
       | l :: _ => if negb (String.eqb (m_currency (li_UnitPrice l)) "") then m_currency (li_UnitPrice l) else "IDR"
       | [] => "IDR"
       end.

(** [if err := write(); err != nil { return fmt.Errorf("<what> write: %w", err) }]. *)
Definition write_or {A} (what : string) (m : M DocDB A) : M DocDB unit :=
  r <- attempt m ;;
  match r with
  | inr err => fail (EWrap (what +:+ " write: ") err "")
  | inl _ => ret tt
  end.

(** One outbox event and one audit entry, inside the transaction. *)
Definition record_event (tenantID docID : ID) (eventType : string) (payload : gmap string Any)
    (now : Time) : M DocDB unit :=
  if has_outbox u then
    outboxID <- NewID ;;
    write_or "outbox" (zoom (Outbox.Create outbox_refused
      (mkOutboxEvent outboxID tenantID eventType "document" docID (Some payload)
         OutboxStatusPending 0 "" now None)))
  else ret tt.

Definition record_audit (tenantID docID : ID) (actor : option ID) (action : Action)
    (changes : gmap string Any) (now : Time) : M DocDB unit :=
  if has_audit u then
    auditID <- NewID ;;
    write_or "audit" (zoom (AuditTrail.Create audit_refused
      (mkAuditLog auditID tenantID actor AuditTrail.ActorTypeUser action "document" docID (Some changes) None now)))
  else ret tt.

Definition created_changes (doc : Document) : gmap string Any :=
  {["document_number" := AString (doc_DocumentNumber doc);
    "document_type" := AString (doc_DocumentType doc);
    "status" := AString (doc_Status doc);
    "total_amount" := AInt64 (m_amount (doc_TotalAmount doc));
    "currency" := AString (m_currency (doc_TotalAmount doc))]}.

(** The body of the transaction. *)
Definition store_document (doc : Document) : M DocDB Document :=
  doc' <- zoom (repo_CreateDocument doc) ;;
  lines' <- (match doc_Lines doc with [] => ret [] | lines => zoom (CreateLines lines) end) ;;
  record_event (doc_TenantID doc) (doc_ID doc) "document.created"
    (<["document_id" := AString (uuid_String (doc_ID doc))]> (created_changes doc)) (doc_CreatedAt doc) ;;;
  record_audit (doc_TenantID doc) (doc_ID doc) (doc_CreatedBy doc) ActionCreate
    (created_changes doc) (doc_CreatedAt doc) ;;;
  ret (with_parts doc' lines' []).

Definition CreateDocument (ctx : Ctx) (cmd : CreateDocumentCommand) : M DocDB Document :=
  tenantID <- lift_res (RequireTenantID ctx) ;;
  guard (bool_decide (cd_OrganizationID cmd = NilID))
    (Errorf ErrInvalidInput "organization_id is required") ;;;
  guard (String.eqb (cd_DocumentType cmd) "") (Errorf ErrInvalidInput "document_type is required") ;;;
  docID <- NewID ;;
  docNum <- document_number tenantID docID cmd ;;
  check_absent (zoom (repo_GetDocumentByNumber tenantID (cd_DocumentType cmd) docNum))
    (Errorf ErrAlreadyExists ("document with number '" +:+ docNum +:+ "' already exists for type '"
                              +:+ cd_DocumentType cmd +:+ "'")) ;;;
  now <- NowUTC ;;
  let docDate := match cd_DocumentDate cmd with
                 | Some d => if GoTime.IsZero d then now else UTC d
                 | None => now
                 end in
  let currency := document_currency cmd in
  zero <- lift_res (ZeroMoney currency) ;;
  r <- build_lines tenantID docID currency now 0 zero (cd_Lines cmd) ;;
  WithTx true ctx (fun _ => store_document
    (mkDocument docID tenantID (cd_OrganizationID cmd) "" (cd_DocumentType cmd) docNum docDate
       (cd_PartyID cmd) "" StatusDraft r.1 (TrimSpace (cd_Notes cmd))
       (match cd_Metadata cmd with Some m => Some m | None => Some ∅ end) (cd_CreatedBy cmd)
       r.2 [] now now)).

Definition GetDocumentByID (ctx : Ctx) (id : ID) : M DocDB Document :=
  tenantID <- lift_res (RequireTenantID ctx) ;; zoom (repo_GetDocumentByID tenantID id).

Definition GetDocumentByNumber (ctx : Ctx) (docType : DocumentType) (number : string) : M DocDB Document :=
  tenantID <- lift_res (RequireTenantID ctx) ;;
  zoom (repo_GetDocumentByNumber tenantID docType (TrimSpace number)).

(** Pages are 32-bit integers; the product wraps. *)
Definition ListDocuments (ctx : Ctx) (page pageSize : Z) (orgID : option ID)
    (docType : option DocumentType) (status : option Workflow.Status) : M DocDB DocumentListResult :=
  tenantID <- lift_res (RequireTenantID ctx) ;;
  let page := if page <? 1 then 1 else page in
  let pageSize := if (pageSize <? 1) || (100 <? pageSize) then 20 else pageSize in
  let offset := int32 ((page - 1) * pageSize) in
  r <- zoom (repo_ListDocuments tenantID (mkDocumentFilter orgID docType status pageSize offset)) ;;
  ret (mkDocumentListResult r.1 r.2 page pageSize).

Definition transition_changes (doc : Document) (cmd : TransitionDocumentCommand) : gmap string Any :=
  {["from_status" := AString (doc_Status doc);
    "to_status" := AString (td_TargetStatus cmd);
    "reason" := AString (td_Reason cmd)]}.

(** The body of the transaction. *)
Definition store_transition (tenantID : ID) (doc : Document) (cmd : TransitionDocumentCommand)
    (transID : ID) (now : Time) : M DocDB unit :=
  zoom (UpdateDocumentStatus tenantID (td_DocumentID cmd) (td_TargetStatus cmd)) ;;;
  zoom (RecordTransition (mkDocumentTransition transID tenantID (td_DocumentID cmd) (doc_Status doc)
          (td_TargetStatus cmd) (TrimSpace (td_Reason cmd)) (td_ActorID cmd) now)) ;;;
  record_event tenantID (td_DocumentID cmd) "document.transitioned"
    (<["document_id" := AString (uuid_String (td_DocumentID cmd))]>
     (<["document_number" := AString (doc_DocumentNumber doc)]>
      (<["document_type" := AString (doc_DocumentType doc)]> (transition_changes doc cmd)))) now ;;;
  record_audit tenantID (td_DocumentID cmd) (td_ActorID cmd) ActionTransition
    (transition_changes doc cmd) now.

Definition TransitionDocument (ctx : Ctx) (cmd : TransitionDocumentCommand) : M DocDB Document :=
  tenantID <- lift_res (RequireTenantID ctx) ;;
  doc <- zoom (repo_GetDocumentByID tenantID (td_DocumentID cmd)) ;;
  lift_res (ValidateTransition (doc_Status doc) (td_TargetStatus cmd)) ;;;
  transID <- NewID ;;
  now <- NowUTC ;;
  WithTx true ctx (fun _ => store_transition tenantID doc cmd transID now) ;;;
  zoom (repo_GetDocumentByID tenantID (td_DocumentID cmd)).
End Usecase.

(** ** What a call changes *)

(** Exactly one pending event was added. *)
Definition event_recorded (tenant agg : ID) (eventType : string) (t t' : OutboxTable) : Prop :=
  exists row, t !! ob_id row = None /\ t' = <[ob_id row := row]> t
    /\ ob_tenant_id row = tenant /\ ob_aggregate_id row = agg /\ ob_event_type row = eventType
    /\ ob_status row = OutboxStatusPending /\ ob_retry_count row = 0.

(** Exactly one audit entry was added. *)
Definition audit_recorded (tenant entity : ID) (action : Action) (t t' : AuditTable) : Prop :=
  exists row, t !! al_ID row = None /\ t' = <[al_ID row := row]> t
    /\ al_TenantID row = tenant /\ al_EntityID row = entity /\ al_EntityType row = "document"
    /\ al_Action row = action.

Section Runs.
  Context `{UnicodeTables, Env, Pg, Catalog, UUIDLib, GoPlatform}.
  Variable u : usecase.

Definition insert_lines (lines : list DocumentLine) (t : gmap ID LineRow) : gmap ID LineRow :=
  fold_left (fun t l => <[dl_ID l := line_row l]> t) lines t.

Lemma insert_document_Ok row t r t' :
  insert_document row t = Ok (r, t') ->
  r = row /\ t' = mkDocTables (<[dr_id row := row]> (t_documents t)) (t_lines t) (t_transitions t)
  /\ t_documents t !! dr_id row = None /\ dr_id row <> NilID
  /\ select_one (same_number row) (t_documents t) = None.
Proof.
  unfold insert_document. case_bool_decide as Hn; [done |].
  destruct (t_documents t !! dr_id row); [done |]. destruct (select_one _ _) eqn:Es; [done |].
  destruct (doc_refused row); [done |]. intros [= <- <-]. tauto.
Qed.

Lemma insert_line_Ok row t r t' :
  insert_line row t = Ok (r, t') ->
  r = row /\ t' = mkDocTables (t_documents t) (<[lr_id row := row]> (t_lines t)) (t_transitions t)
  /\ t_lines t !! lr_id row = None.
Proof.
  unfold insert_line. case_bool_decide as Hn; [done |].
  destruct (t_documents t !! _); [| done]. destruct (t_lines t !! lr_id row); [done |].
  destruct (select_one _ _); [done |]. destruct (line_refused row); [done |]. by intros [= <- <-].
Qed.

Lemma insert_transition_Ok row t r t' :
  insert_transition row t = Ok (r, t') ->
  r = row /\ t' = mkDocTables (t_documents t) (t_lines t) (<[tr_id row := row]> (t_transitions t))
  /\ t_transitions t !! tr_id row = None.
Proof.
  unfold insert_transition. case_bool_decide as Hn; [done |].
  destruct (t_documents t !! _); [| done]. destruct (t_transitions t !! tr_id row); [done |].
  destruct (trans_refused row); [done |]. by intros [= <- <-].
Qed.

(** The line as the caller gets it back: only its times are those of the server. *)
Definition line_returned (l l' : DocumentLine) : Prop :=
  dl_ID l' = dl_ID l /\ dl_LineNumber l' = dl_LineNumber l
  /\ dl_UnitPrice l' = dl_UnitPrice l /\ dl_Quantity l' = dl_Quantity l /\ dl_Subtotal l' = dl_Subtotal l.

(** The lines are new rows, each stored as it is. *)
Definition lines_added (lines : list DocumentLine) (t : gmap ID LineRow) : Prop :=
  Forall (fun l => t !! dl_ID l = None /\ insert_lines lines t !! dl_ID l = Some (line_row l)) lines.

Lemma insert_lines_kept lines t k r : t !! k = Some r -> Forall (fun l => dl_ID l <> k) lines -> insert_lines lines t !! k = Some r.
Proof.
  unfold insert_lines. intros Hr Hn. revert t Hr. induction Hn as [|l lines Hl Hn IH]; intros t Hr; [done |].
  cbn [fold_left]. apply IH. by rewrite lookup_insert_ne.
Qed.

Lemma CreateLines_Ok lines w ls w' :
  CreateLines lines w = (Ok ls, w') ->
  w_db w' = mkDocTables (t_documents (w_db w)) (insert_lines lines (t_lines (w_db w))) (t_transitions (w_db w))
  /\ t_lines (w_db w) ⊆ insert_lines lines (t_lines (w_db w))
  /\ lines_added lines (t_lines (w_db w)) /\ Forall2 line_returned lines ls.
Proof.
  revert w ls w'. induction lines as [|l lines IH]; intros w ls w' E; cbn [CreateLines] in E; step_inv; subst.
  - split_and!; [by destruct (w_db w) | done | constructor | constructor].
  - apply insert_line_Ok in R as (-> & -> & Hf). apply IH in R0 as (Hdb & Hsub & Hadd & Hall).
    cbn [w_db t_lines t_documents t_transitions] in *. cbn [lr_id line_row] in *. split_and!; [done | | | by constructor].
    + etransitivity; [| exact Hsub]. by apply insert_subseteq.
    + assert (Forall (fun l' => dl_ID l' <> dl_ID l) lines) as Hne.
      { eapply Forall_impl; [exact Hadd |]. intros l' [Hl' _] E. rewrite E, lookup_insert_eq in Hl'. done. }
      constructor; [split; [done | exact (insert_lines_kept lines _ _ _ (lookup_insert_eq _ _ _) Hne)] |].
      eapply Forall_impl; [exact Hadd |]. intros l' [Hl' Hr']. split; [| done]. by apply lookup_insert_None in Hl' as [? _].
Qed.

Lemma write_or_Ok {A} what (m : M DocDB A) w x w' :
  write_or what m w = (Ok x, w') -> exists a, m w = (Ok a, w').
Proof.
  unfold write_or. intros E. step_inv. apply attempt_Ok in R as [(a' & E' & ->)|(e & E' & ->)]; [| done].
  step_inv. subst. eauto.
Qed.

Lemma record_event_Ok tn agg etype payload now w x w' :
  record_event u tn agg etype payload now w = (Ok x, w') ->
  exists ob, w_db w' = lens_set ob (w_db w) /\
    (if has_outbox u then event_recorded tn agg etype (db_outbox (w_db w)) ob else ob = db_outbox (w_db w)).
Proof.
  unfold record_event. destruct (has_outbox u); intros E; step_inv; subst.
  - apply write_or_Ok in E as [a1 E]. apply zoom_Ok in E as (w1 & E & ->). unfold Outbox.Create in E. step_inv. subst.
    match goal with X : insert_outbox _ _ _ = _ |- _ => rename X into RI end.
    exists d. split; [done |]. unfold insert_outbox in RI. case_bool_decide; [done |].
    cbn [w_db tick] in *. destruct (lens_get (w_db w) !! _) eqn:El; [done |]. destruct (outbox_refused _); [done |].
    injection RI as <- <-. eexists. split_and!; [exact El | done..].
  - exists (db_outbox (w_db w)). split; [by destruct (w_db w) | done].
Qed.

Lemma record_audit_Ok tn entity actor action changes now w x w' :
  record_audit u tn entity actor action changes now w = (Ok x, w') ->
  exists au, w_db w' = lens_set au (w_db w) /\
    (if has_audit u then audit_recorded tn entity action (db_audit (w_db w)) au else au = db_audit (w_db w)).
Proof.
  unfold record_audit. destruct (has_audit u); intros E; step_inv; subst.
  - apply write_or_Ok in E as [a1 E]. apply zoom_Ok in E as (w1 & E & ->). unfold AuditTrail.Create in E. step_inv. subst.
    match goal with X : insert_audit _ _ _ = _ |- _ => apply insert_audit_append in X as (-> & -> & Hf) end.
    eexists. split; [done |].
    eexists. split_and!; [exact Hf | done..].
  - exists (db_audit (w_db w)). split; [by destruct (w_db w) | done].
Qed.

(** The document, its lines, its event and its audit entry, and nothing else. *)
Definition document_stored (doc : Document) (d d' : DocDB) : Prop :=
  t_documents (db_doc d) !! doc_ID doc = None /\ doc_ID doc <> NilID
  /\ select_one (same_number (doc_row doc)) (t_documents (db_doc d)) = None
  /\ db_doc d' = mkDocTables (<[doc_ID doc := doc_row doc]> (t_documents (db_doc d)))
                   (insert_lines (doc_Lines doc) (t_lines (db_doc d))) (t_transitions (db_doc d))
  /\ t_lines (db_doc d) ⊆ insert_lines (doc_Lines doc) (t_lines (db_doc d))
  /\ lines_added (doc_Lines doc) (t_lines (db_doc d))
  /\ (if has_outbox u then event_recorded (doc_TenantID doc) (doc_ID doc) "document.created" (db_outbox d) (db_outbox d')
      else db_outbox d' = db_outbox d)
  /\ (if has_audit u then audit_recorded (doc_TenantID doc) (doc_ID doc) ActionCreate (db_audit d) (db_audit d')
      else db_audit d' = db_audit d).

Lemma store_document_Ok doc w r w' :
  store_document u doc w = (Ok r, w') ->
  document_stored doc (w_db w) (w_db w')
  /\ doc_ID r = doc_ID doc /\ doc_TotalAmount r = doc_TotalAmount doc /\ doc_Status r = doc_Status doc
  /\ doc_DocumentNumber r = doc_DocumentNumber doc /\ doc_TenantID r = doc_TenantID doc
  /\ Forall2 line_returned (doc_Lines doc) (doc_Lines r).
Proof.
  unfold store_document. intros E. step_inv. subst.
  apply zoom_Ok in R as (wz & Rz & ->). unfold repo_CreateDocument in Rz. step_inv. subst. cbn [w_db w_tick] in *.
  match goal with X : insert_document _ _ = _ |- _ => apply insert_document_Ok in X as (-> & -> & Hf & Hn & Hu) end.
  match goal with X : (match doc_Lines doc with [] => _ | _ => _ end) _ = (Ok ?ls, ?w2) |- _ =>
    assert (db_doc (w_db w2) = mkDocTables (<[doc_ID doc := doc_row doc]> (t_documents (db_doc (w_db w))))
              (insert_lines (doc_Lines doc) (t_lines (db_doc (w_db w)))) (t_transitions (db_doc (w_db w)))
            /\ db_outbox (w_db w2) = db_outbox (w_db w) /\ db_audit (w_db w2) = db_audit (w_db w)
            /\ t_lines (db_doc (w_db w)) ⊆ insert_lines (doc_Lines doc) (t_lines (db_doc (w_db w)))
            /\ lines_added (doc_Lines doc) (t_lines (db_doc (w_db w)))
            /\ Forall2 line_returned (doc_Lines doc) ls) as (Hdoc & Hob & Hau & Hsub & Hadd & Hls);
    [| clear X] end.
  { destruct (doc_Lines doc) as [|l ls]; step_inv; [subst; split_and!; try done; constructor |].
    match goal with X : zoom _ _ = _ |- _ => apply zoom_Ok in X as (wz2 & X & ->);
      apply CreateLines_Ok in X as (Hdb & Hsub & Hadd & Hall) end.
    cbn [w_db w_tick lens_get lens_set lens_doc db_doc db_outbox db_audit db_seq t_lines t_documents t_transitions] in *.
    split_and!; try done. }
  match goal with X : record_event _ _ _ _ _ _ _ = _ |- _ => apply record_event_Ok in X as (ob & Eob & Hev) end.
  match goal with X : record_audit _ _ _ _ _ _ _ _ = _ |- _ => apply record_audit_Ok in X as (au & Eau & Had) end.
  rewrite Eob in *. rewrite Eau.
  cbn [lens_set lens_get lens_outbox lens_audit db_doc db_outbox db_audit db_seq with_parts doc_ID doc_TotalAmount
       doc_Status doc_DocumentNumber doc_TenantID doc_Lines] in *.
  rewrite Hob in Hev. rewrite Hau in Had.
  split; [| split_and!; done]. unfold document_stored. cbn [db_doc db_outbox db_audit db_seq].
  split_and!; try done.
Qed.

(** The lines are numbered from [i + 1], priced in the currency of the total,
    and the total grows by their subtotals. *)
Definition sum_subtotals (lines : list DocumentLine) : Z :=
  foldr (fun l s => m_amount (dl_Subtotal l) + s) 0 lines.

Lemma sum_subtotals_cons l ls : sum_subtotals (l :: ls) = m_amount (dl_Subtotal l) + sum_subtotals ls.
Proof. done. Qed.

Lemma build_lines_Ok tn id cur now i total inputs w r w' :
  build_lines tn id cur now i total inputs w = (Ok r, w') ->
  in_int64 (m_amount total) -> 0 <= i -> i + Z.of_nat (length inputs) < 2 ^ 31 ->
  m_currency r.1 = m_currency total
  /\ m_amount r.1 = int64 (m_amount total + sum_subtotals r.2)
  /\ map dl_LineNumber r.2 = map (fun k => i + 1 + Z.of_nat k) (seq 0 (length inputs))
  /\ Forall2 (fun inp l => dl_Subtotal l = MultiplyFloat (dl_UnitPrice l) (dl_Quantity l)
        /\ dl_Quantity l = li_Quantity inp /\ m_amount (dl_UnitPrice l) = m_amount (li_UnitPrice inp)
        /\ m_currency (dl_Subtotal l) = m_currency total) inputs r.2.
Proof.
  revert i total w r w'. induction inputs as [|inp inputs IH]; intros i total w r w' E Hin Hi Hlen;
    cbn [build_lines] in E; step_inv; subst.
  - cbn. rewrite Z.add_0_r. unfold int64. rewrite wrap_id by done. split_and!; done.
  - match goal with X : (match Money.Add total ?sb with _ => _ end) _ = (Ok ?nt, ?w1) |- _ =>
      assert (Money.Add total sb = Ok nt) as Hadd by
        (destruct (Money.Add total sb); [by apply lift_res_Ok in X as [[= ->] _] | done | done]) end.
    unfold Money.Add in Hadd.
    destruct (String.eqb_spec (m_currency total) (m_currency (MultiplyFloat a1 (li_Quantity inp)))) as [Ec|]; [| done].
    cbn [negb] in Hadd. injection Hadd as Ent.
    match goal with X : build_lines _ _ _ _ _ ?nt _ _ = (Ok ?rest, _) |- _ =>
      apply IH in X as (Hcur & Hamt & Hnum & Hall) end;
      [| rewrite <- Ent; apply int64_in_range | lia | cbn [length] in Hlen; lia].
    rewrite <- Ent in Hcur, Hamt, Hall. cbn [m_currency m_amount fst snd] in *.
    split_and!.
    + done.
    + rewrite Hamt, sum_subtotals_cons. cbn [dl_Subtotal]. unfold int64. rewrite wrap_add_l by lia. f_equal.
      unfold MultiplyFloat. cbn [m_amount]. lia.
    + cbn [map length seq dl_LineNumber]. rewrite Hnum. f_equal.
      * unfold int32. rewrite wrap_id; [lia | lia |]. unfold in_width. change (32 - 1) with 31. cbn [length] in Hlen. lia.
      * rewrite <- seq_shift, map_map. apply map_ext. intros k. lia.
    + constructor; [| done]. cbn. split_and!; try done.
      destruct (String.eqb (m_currency (li_UnitPrice inp)) "").
      * match goal with X : lift_res (MustNewMoney _ _) _ = _ |- _ => apply lift_res_Ok in X as [X _];
          unfold MustNewMoney in X; destruct (NewMoney _ _) as [m| |] eqn:En; [| done | done];
          injection X as <-; by apply NewMoney_Ok in En as (-> & _) end.
      * step_inv. by subst.
Qed.

(** The [k]-th line of a document (from 0) was built from its input. *)
Record line_built (tn id : ID) (k : Z) (inp : CreateDocumentLineInput) (l : DocumentLine) : Prop := {
  lb_tenant : dl_TenantID l = tn;
  lb_document : dl_DocumentID l = id;
  lb_number : dl_LineNumber l = int32 (k + 1);
  lb_product : dl_ProductID l = li_ProductID inp;
  lb_description : dl_Description l = TrimSpace (li_Description inp);
  lb_quantity : dl_Quantity l = li_Quantity inp;
  lb_unit : dl_UnitID l = li_UnitID inp;
  lb_price : m_amount (dl_UnitPrice l) = m_amount (li_UnitPrice inp);
  lb_subtotal : dl_Subtotal l = MultiplyFloat (dl_UnitPrice l) (li_Quantity inp);
  lb_metadata : dl_Metadata l = Some (default ∅ (li_Metadata inp));
}.

Lemma build_lines_built tn id cur now i total inputs w r w' :
  build_lines tn id cur now i total inputs w = (Ok r, w') ->
  length r.2 = length inputs
  /\ forall k inp l, inputs !! k = Some inp -> r.2 !! k = Some l -> line_built tn id (i + Z.of_nat k) inp l.
Proof.
  revert i total w r w'. induction inputs as [|inp inputs IH]; intros i total w r w' E; cbn [build_lines] in E; step_inv; subst; [done |].
  match goal with X : build_lines _ _ _ _ _ _ _ _ = _ |- _ => apply IH in X as [Hlen Hall] end.
  split; [cbn; by rewrite Hlen |]. intros [|k] inp' l; cbn [lookup list_lookup snd]; [| intros Hi Hl; replace (i + Z.of_nat (Datatypes.S k)) with (i + 1 + Z.of_nat k) by lia; by apply Hall].
  intros [= <-] [= <-]. rewrite Z.add_0_r. split; cbn; try done; [| by destruct (li_Metadata inp)].
  destruct (String.eqb (m_currency (li_UnitPrice inp)) ""); [| step_inv; by subst].
  match goal with X : lift_res (MustNewMoney _ _) _ = _ |- _ => apply lift_res_Ok in X as [X _];
    unfold MustNewMoney in X; destruct (NewMoney _ _) as [m| |] eqn:En; [| done | done];
    injection X as <-; by apply NewMoney_Ok in En as (-> & _) end.
Qed.

(** The draft that a command asks for. *)
Record draft_of (ctx : Ctx) (cmd : CreateDocumentCommand) (doc : Document) : Prop := {
  df_tenant : ctx_tenant ctx = Some (doc_TenantID doc) /\ doc_TenantID doc <> NilID;
  df_organization : doc_OrganizationID doc = cd_OrganizationID cmd;
  df_type : doc_DocumentType doc = cd_DocumentType cmd;
  df_number : TrimSpace (cd_DocumentNumber cmd) <> "" -> doc_DocumentNumber doc = TrimSpace (cd_DocumentNumber cmd);
  df_party : doc_PartyID doc = cd_PartyID cmd;
  df_status : doc_Status doc = StatusDraft;
  df_notes : doc_Notes doc = TrimSpace (cd_Notes cmd);
  df_author : doc_CreatedBy doc = cd_CreatedBy cmd;
  df_length : length (doc_Lines doc) = length (cd_Lines cmd);
  df_lines : forall k inp l, cd_Lines cmd !! k = Some inp -> doc_Lines doc !! k = Some l ->
    line_built (doc_TenantID doc) (doc_ID doc) (Z.of_nat k) inp l;
}.

(** Everything but the counters. *)
Definition core (d : DocDB) : DocTables * OutboxTable * AuditTable := (db_doc d, db_outbox d, db_audit d).

Lemma keeps_core_seq {A} (m : M SeqTable A) : keeps core (zoom (D := DocDB) m).
Proof. intros w. unfold zoom. by destruct (m _). Qed.

Lemma reads_get_document p : reads (get_document p).
Proof. apply reads_query. intros t a t'. destruct (select_one _ _); naive_solver. Qed.
Lemma reads_ListLines tn id : reads (ListLines tn id).
Proof. unfold ListLines. frame. apply reads_query. naive_solver. Qed.
Lemma reads_ListTransitions tn id : reads (ListTransitions tn id).
Proof. apply reads_query. naive_solver. Qed.
#[local] Hint Resolve reads_get_document reads_ListLines reads_ListTransitions : go_frame.
Lemma reads_repo_GetDocumentByID tn id : reads (repo_GetDocumentByID tn id).
Proof. unfold repo_GetDocumentByID. frame. Qed.
Lemma reads_repo_GetDocumentByNumber tn ty n : reads (repo_GetDocumentByNumber tn ty n).
Proof. unfold repo_GetDocumentByNumber. frame. Qed.

Lemma reads_build_lines tn id cur now i total inputs : reads (build_lines tn id cur now i total inputs).
Proof.
  revert i total. induction inputs as [|inp inputs IH]; intros i total; cbn [build_lines]; [apply reads_ret |].
  apply reads_bind; [apply reads_guard | intros _]. apply reads_bind; [apply reads_guard | intros _].
  apply reads_bind; [case_match; frame | intros price]. apply reads_bind; [case_match; frame | intros nt].
  apply reads_bind; [apply reads_NewID | intros lid]. apply reads_bind; [apply IH | intros r]. apply reads_ret.
Qed.

Lemma keeps_core_number tn id cmd : keeps core (document_number u tn id cmd).
Proof.
  unfold document_number. case_match; [apply keeps_reads, reads_ret |].
  apply keeps_bind.
  - case_match; [| apply keeps_reads, reads_ret]. apply keeps_bind; [apply keeps_attempt, keeps_core_seq |].
    intros r. apply keeps_reads, reads_ret.
  - intros g. case_match; [apply keeps_reads, reads_ret |]. apply keeps_reads. frame.
Qed.

(** Only the acquisition of a number touches the sequences. *)
Ltac keep_seq := repeat first
  [ apply keeps_ret | apply keeps_WithTx; intros ? | apply keeps_attempt | solve [apply keeps_reads; auto with go_frame]
  | apply zoom_keeps; intros ? ?; reflexivity | apply keeps_bind; [| intros ?] | case_match ].

Lemma store_document_keeps doc : keeps db_seq (store_document u doc).
Proof. unfold store_document, record_event, record_audit, write_or. keep_seq. Qed.

Lemma TransitionDocument_keeps ctx cmd : keeps db_seq (TransitionDocument u ctx cmd).
Proof. unfold TransitionDocument, store_transition, record_event, record_audit, write_or. keep_seq. Qed.

(** What creating a document does to the sequences: nothing if the command has a
    number or there is no sequence engine; else at most one number is taken. *)
Definition number_taken (ctx : Ctx) (cmd : CreateDocumentCommand) (t t' : SeqTable) : Prop :=
  t' = t \/ TrimSpace (cd_DocumentNumber cmd) = "" /\ has_seq u = true
    /\ exists tn, ctx_tenant ctx = Some tn /\ advanced tn (normal "document") (normal (cd_DocumentType cmd)) [] t t'.

#[local] Instance number_taken_refl ctx cmd : Reflexive (number_taken ctx cmd).
Proof. intros t. by left. Qed.

Lemma document_number_taken ctx cmd tn id :
  ctx_tenant ctx = Some tn -> shifts db_seq (number_taken ctx cmd) (document_number u tn id cmd).
Proof.
  intros Htn. unfold document_number. destruct (String.eqb_spec (TrimSpace (cd_DocumentNumber cmd)) "") as [En|]; cbn [negb]; [| apply shifts_keeps; [apply _ | apply keeps_ret]].
  apply shifts_after; [| intros g; keep_seq]. destruct (has_seq u) eqn:Es; [| apply shifts_keeps; [apply _ | apply keeps_ret]].
  apply shifts_after; [| intros r; keep_seq]. apply shifts_attempt. intros w. right. split_and!; [done | done |]. exists tn. split; [done |].
  unfold zoom. pose proof (uc_Acquire_advanced seq_refused tn "document" (cd_DocumentType cmd) [] (mkWorld (lens_get (w_db w)) (w_tick w))) as Ha.
  by destruct (uc_AcquireNextNumber _ _ _ _ _ _) as [res w1].
Qed.

Lemma CreateDocument_number_taken ctx cmd : shifts db_seq (number_taken ctx cmd) (CreateDocument u ctx cmd).
Proof.
  intros w. unfold CreateDocument, bind at 1, lift_res at 1. destruct (RequireTenantID ctx) as [tn|e|e] eqn:E; [| by left | by left].
  apply RequireTenantID_Ok in E as [Htn _]. revert w.
  do 3 (apply shifts_before; [apply _ | keep_seq | intros ?]). apply shifts_after; [by apply document_number_taken |].
  intros n. do 3 (apply keeps_bind; [keep_seq | intros ?]). apply keeps_bind; [apply keeps_reads, reads_build_lines | intros r].
  apply keeps_WithTx. intros c. apply store_document_keeps.
Qed.

Lemma CreateDocument_keeps_err ctx cmd : ctx_tx ctx = false -> keeps_err core (CreateDocument u ctx cmd).
Proof.
  intros Htx. unfold CreateDocument. repeat (apply keeps_err_bind; [| intros ?]).
  - apply keeps_reads, reads_lift_res.
  - apply keeps_reads, reads_guard.
  - apply keeps_reads, reads_guard.
  - apply keeps_reads, reads_NewID.
  - apply keeps_core_number.
  - apply keeps_reads, reads_check_absent, reads_zoom, reads_repo_GetDocumentByNumber.
  - apply keeps_reads, reads_NowUTC.
  - apply keeps_reads, reads_lift_res.
  - apply keeps_reads, reads_build_lines.
  - by apply keeps_err_writes_last, WithTx_writes_last.
Qed.

Lemma document_stored_core doc d1 d d' : core d1 = core d -> document_stored doc d1 d' -> document_stored doc d d'.
Proof. unfold core, document_stored. intros [= -> -> ->]. done. Qed.

(** What a successful call did, from the tables it started with. *)
Lemma CreateDocument_Ok ctx cmd w r w' :
  ctx_tx ctx = false -> CreateDocument u ctx cmd w = (Ok r, w') ->
  exists doc zero lw lw',
    draft_of ctx cmd doc /\ ZeroMoney (document_currency cmd) = Ok zero
    /\ build_lines (doc_TenantID doc) (doc_ID doc) (document_currency cmd) (doc_CreatedAt doc) 0 zero (cd_Lines cmd) lw
       = (Ok (doc_TotalAmount doc, doc_Lines doc), lw')
    /\ document_stored doc (w_db w) (w_db w')
    /\ doc_ID r = doc_ID doc /\ doc_TotalAmount r = doc_TotalAmount doc /\ doc_Status r = doc_Status doc
    /\ doc_DocumentNumber r = doc_DocumentNumber doc /\ doc_TenantID r = doc_TenantID doc
    /\ Forall2 line_returned (doc_Lines doc) (doc_Lines r).
Proof.
  intros Htx E. unfold CreateDocument in E. step_inv. subst.
  match goal with X : RequireTenantID _ = Ok _ |- _ => apply RequireTenantID_Ok in X as [Htn Hnil] end.
  apply WithTx_commit in E as (w1 & E & Hdb); [| done]. apply store_document_Ok in E as (Hst & Hrest).
  match goal with X : build_lines _ _ _ _ _ _ _ _ = (Ok ?p, _) |- _ => destruct p as [total lines]; rename X into RB end.
  match type of Hst with document_stored ?doc _ _ => exists doc end. eexists _, _, _.
  pose proof (build_lines_built _ _ _ _ _ _ _ _ _ _ RB) as [Hlen Hlines].
  split_and!; [| eassumption | exact RB | | apply Hrest..].
  { split; cbn; try done. intros Hne. match goal with X : document_number _ _ _ _ _ = _ |- _ => unfold document_number in X end.
    apply String.eqb_neq in Hne. rewrite Hne in *. cbn [negb] in *. step_inv. by subst. }
  eapply document_stored_core; [| by rewrite Hdb; exact Hst]. cbn [w_db tick].
  repeat match goal with
  | X : build_lines ?a ?b ?c ?d ?e ?f ?g ?w0 = (_, ?w1) |- _ =>
      let Y := fresh in pose proof (reads_build_lines a b c d e f g w0) as Y; rewrite X in Y; cbn [snd] in Y; rewrite Y; clear X Y
  end. cbn [w_db tick].
  match goal with X : zoom (repo_GetDocumentByNumber ?a ?b ?c) ?w0 = (_, ?w1) |- _ =>
      let Y := fresh in pose proof (reads_zoom (D := DocDB) _ (reads_repo_GetDocumentByNumber a b c) w0) as Y;
      rewrite X in Y; cbn [snd] in Y; rewrite Y; clear X Y end.
  match goal with X : document_number _ ?a ?b ?c ?w0 = (_, ?w1) |- _ =>
      let Y := fresh in pose proof (keeps_core_number a b c w0) as Y;
      rewrite X in Y; cbn [snd] in Y; rewrite Y; clear X Y end. done.
Qed.

Definition docs_keyed (t : gmap ID DocRow) : Prop := forall k r, t !! k = Some r -> dr_id r = k.

Lemma doc_by_id_selects t tn id k row :
  docs_keyed t -> t !! k = Some row -> doc_by_id tn id row = true ->
  select_one (doc_by_id tn id) t = Some row.
Proof.
  intros Hk Hr Hb. eapply select_one_unique; [done | done |]. intros k' r' Hr' Hb'.
  unfold doc_by_id in *. apply andb_true_iff in Hb as [_ Hb], Hb' as [_ Hb'].
  apply sql_eq_true in Hb as [_ Hb], Hb' as [_ Hb'].
  assert (k = id) by (rewrite <- (Hk _ _ Hr); done). assert (k' = id) by (rewrite <- (Hk _ _ Hr'); done). congruence.
Qed.

Lemma GetDocumentByID_Ok tn id w doc w' :
  zoom (D := DocDB) (repo_GetDocumentByID tn id) w = (Ok doc, w') ->
  w_db w' = w_db w /\
  exists k row, t_documents (db_doc (w_db w)) !! k = Some row /\ doc_by_id tn id row = true
    /\ doc_Status doc = dr_status row /\ doc_ID doc = dr_id row /\ doc_TenantID doc = dr_tenant_id row.
Proof.
  intros E. pose proof (reads_zoom (D := DocDB) _ (reads_repo_GetDocumentByID tn id) w) as Hr. rewrite E in Hr.
  split; [done |]. apply zoom_Ok in E as (w1 & E & _). unfold repo_GetDocumentByID, get_document in E. step_inv. subst.
  cbn [w_db] in *.
  match goal with X : (match select_one ?p ?t with _ => _ end) = Ok (?row, _) |- _ =>
    destruct (select_one p t) as [row'|] eqn:Es; [| done]; injection X as -> _ end.
  apply select_one_Some in Es as [Hp [k Hk]]. apply andb_true_iff in Hp as [Hp _].
  exists k. eexists. split; [exact Hk |]. split; [exact Hp |].
  match goal with X : toDomainDocument _ = Ok _ |- _ => unfold toDomainDocument in X;
    destruct (MustNewMoney _ _); [| done | done]; injection X as <- end. done.
Qed.

(** The status of one document, its transition, event and audit entry, and
    nothing else. *)
Definition transition_stored (tn id : ID) (row : DocRow) (target : string) (d d' : DocDB) : Prop :=
  t_documents (db_doc d) !! dr_id row = Some row /\ dr_id row = id /\ dr_tenant_id row = tn
  /\ (exists now tr, t_transitions (db_doc d) !! tr_id tr = None
        /\ tr_tenant_id tr = tn /\ tr_document_id tr = id
        /\ tr_from_status tr = dr_status row /\ tr_to_status tr = target
        /\ db_doc d' = mkDocTables (<[dr_id row := set_status target now row]> (t_documents (db_doc d)))
                         (t_lines (db_doc d)) (<[tr_id tr := tr]> (t_transitions (db_doc d))))
  /\ (if has_outbox u then event_recorded tn id "document.transitioned" (db_outbox d) (db_outbox d')
      else db_outbox d' = db_outbox d)
  /\ (if has_audit u then audit_recorded tn id ActionTransition (db_audit d) (db_audit d')
      else db_audit d' = db_audit d)
  /\ db_seq d' = db_seq d.

Lemma store_transition_Ok tn doc cmd transID now k row w x w' :
  docs_keyed (t_documents (db_doc (w_db w))) ->
  t_documents (db_doc (w_db w)) !! k = Some row -> doc_by_id tn (td_DocumentID cmd) row = true ->
  doc_Status doc = dr_status row ->
  store_transition u tn doc cmd transID now w = (Ok x, w') ->
  transition_stored tn (td_DocumentID cmd) row (td_TargetStatus cmd) (w_db w) (w_db w').
Proof.
  intros Hkey Hk Hb Hst E. unfold store_transition in E. step_inv. subst.
  apply zoom_Ok in R as (wz & Rz & ->). unfold UpdateDocumentStatus in Rz. step_inv. subst. cbn [w_db w_tick tick] in *.
  match goal with X : update_document _ _ _ _ = _ |- _ => unfold update_document in X;
    cbn [lens_get lens_doc] in X; rewrite (doc_by_id_selects _ _ _ _ _ Hkey Hk Hb) in X;
    destruct (doc_refused _); [done |]; injection X as <- <- end.
  apply zoom_Ok in R0 as (wt & Rt & ->). unfold RecordTransition in Rt. step_inv. subst. cbn [w_db w_tick tick] in *.
  match goal with X : insert_transition _ _ = _ |- _ => apply insert_transition_Ok in X as (-> & -> & Hft) end.
  match goal with X : record_event _ _ _ _ _ _ _ = _ |- _ => apply record_event_Ok in X as (ob & Eob & Hev) end.
  match goal with X : record_audit _ _ _ _ _ _ _ _ = _ |- _ => apply record_audit_Ok in X as (au & Eau & Had) end.
  rewrite Eob in *. rewrite Eau. clear Eob Eau.
  cbn [lens_set lens_get lens_outbox lens_audit lens_doc db_doc db_outbox db_audit db_seq
       t_documents t_lines t_transitions] in *.
  pose proof Hb as Hb'. unfold doc_by_id in Hb'. apply andb_true_iff in Hb' as [B1 B2].
  apply sql_eq_true in B1 as [_ B1], B2 as [_ B2].
  unfold transition_stored. cbn [db_doc db_outbox db_audit db_seq]. split_and!; try done.
  - rewrite (Hkey _ _ Hk). done.
  - eexists _, _. split_and!; [exact Hft | done | done | exact Hst | done | done].
Qed.

Lemma TransitionDocument_cases ctx cmd w r w' :
  ctx_tx ctx = false -> docs_keyed (t_documents (db_doc (w_db w))) ->
  TransitionDocument u ctx cmd w = (r, w') ->
  (is_Ok r = false /\ w_db w' = w_db w)
  \/ exists tn row, ctx_tenant ctx = Some tn
      /\ ValidateTransition (dr_status row) (td_TargetStatus cmd) = Ok tt
      /\ transition_stored tn (td_DocumentID cmd) row (td_TargetStatus cmd) (w_db w) (w_db w').
Proof.
  intros Htx Hkey. unfold TransitionDocument, bind at 1, lift_res at 1.
  destruct (RequireTenantID ctx) as [tn|e|e] eqn:Et; [| by intros [= <- <-]; left | by intros [= <- <-]; left].
  apply RequireTenantID_Ok in Et as [Htn _]. unfold bind at 1.
  destruct (zoom (repo_GetDocumentByID tn (td_DocumentID cmd)) w) as [rg wg] eqn:Eg.
  pose proof (reads_zoom (D := DocDB) _ (reads_repo_GetDocumentByID tn (td_DocumentID cmd)) w) as Hg. rewrite Eg in Hg.
  cbn [snd] in Hg. destruct rg as [doc|e|e]; [| by intros [= <- <-]; left | by intros [= <- <-]; left].
  apply GetDocumentByID_Ok in Eg as (_ & k & row & Hk & Hb & Hst & _). unfold bind at 1, lift_res at 1.
  destruct (ValidateTransition (doc_Status doc) (td_TargetStatus cmd)) as [[]|e|e] eqn:Ev;
    [| by intros [= <- <-]; left | by intros [= <- <-]; left].
  unfold bind at 1, NewID. destruct (env_id (w_tick wg)) as [tid|e]; [| by intros [= <- <-]; left].
  unfold bind at 1, NowUTC. unfold bind at 1.
  destruct (WithTx true ctx _ _) as [rt wt] eqn:Ewt.
  destruct rt as [x|e|e];
    [| intros [= <- <-]; left; split; [done |]; eapply WithTx_rollback in Ewt; [by rewrite Ewt | done | done]..].
  apply WithTx_commit in Ewt as (w1 & Ewt & Hdb); [| done].
  assert (transition_stored tn (td_DocumentID cmd) row (td_TargetStatus cmd) (w_db w) (w_db w1)) as Hts.
  { rewrite <- Hg. change (w_db wg) with (w_db (tick (tick (tick wg)))).
    eapply (store_transition_Ok tn doc cmd tid _ k row _ x w1); [| | exact Hb | exact Hst | exact Ewt];
      cbn [w_db tick]; by rewrite Hg. }
  rewrite <- Hdb in Hts. intros Elast. right.
  pose proof (reads_zoom (D := DocDB) _ (reads_repo_GetDocumentByID tn (td_DocumentID cmd)) wt) as Hl.
  rewrite Elast in Hl. cbn [snd] in Hl. exists tn, row. rewrite Hl, <- Hst. done.
Qed.

(** ** The invariant of the document tables *)

(** Rows are stored under their identifier, no two documents of a tenant and
    type share a number, every status is the end of a run of the workflow, and
    every recorded transition is a step of it. *)
Record docs_inv (t : DocTables) : Prop := {
  inv_keyed : docs_keyed (t_documents t);
  inv_number : forall k k' r r', t_documents t !! k = Some r -> t_documents t !! k' = Some r' -> k <> k' ->
    same_number r r' = false;
  inv_status : forall k r, t_documents t !! k = Some r -> exists h, Workflow.run (h ++ [dr_status r]);
  inv_steps : forall k r, t_transitions t !! k = Some r -> Workflow.step (tr_from_status r) (tr_to_status r);
}.

Lemma same_number_sym a b : same_number a b = same_number b a.
Proof.
  unfold same_number. rewrite (String.eqb_sym (dr_document_type a)), (String.eqb_sym (dr_document_number a)).
  do 2 f_equal. apply bool_decide_ext. split; congruence.
Qed.

Lemma document_stored_inv doc d d' :
  doc_Status doc = StatusDraft -> docs_inv (db_doc d) -> document_stored doc d d' -> docs_inv (db_doc d').
Proof.
  intros Hdraft [Hkey Hnum Hstat Hsteps] (Hnew & Hnil & Huniq & -> & _).
  rewrite select_one_None in Huniq. constructor; cbn [t_documents t_transitions].
  - intros k r. rewrite lookup_insert_Some. intros [[<- <-]|[_ Hr]]; [done | auto].
  - intros k k' r r'. rewrite !lookup_insert_Some.
    intros [[<- <-]|[Hne Hr]] [[<- <-]|[Hne' Hr']] Hkk; [done | eauto | | eauto].
    rewrite same_number_sym. eauto.
  - intros k r. rewrite lookup_insert_Some. intros [[<- <-]|[_ Hr]]; [| eauto].
    exists []. cbn. rewrite Hdraft. constructor.
  - done.
Qed.

Lemma transition_stored_inv tn id row target d d' :
  ValidateTransition (dr_status row) target = Ok tt -> docs_inv (db_doc d) ->
  transition_stored tn id row target d d' -> docs_inv (db_doc d').
Proof.
  intros Hv [Hkey Hnum Hstat Hsteps] (Hrow & _ & _ & (now & tr & Hf & _ & _ & Efrom & Eto & ->) & _).
  constructor; cbn [t_documents t_transitions].
  - intros k r. rewrite lookup_insert_Some. intros [[<- <-]|[_ Hr]]; [done | auto].
  - intros k k' r r'. rewrite !lookup_insert_Some.
    intros [[<- <-]|[Hne Hr]] [[<- <-]|[Hne' Hr']] Hkk; [done | | | eauto].
    + apply (Hnum _ _ _ _ Hrow Hr' Hkk).
    + apply (Hnum _ _ _ _ Hr Hrow Hkk).
  - intros k r. rewrite lookup_insert_Some. intros [[<- <-]|[_ Hr]]; [| eauto].
    destruct (Hstat _ _ Hrow) as [h Hh]. exists (h ++ [dr_status row]). rewrite <- app_assoc. cbn.
    by apply Workflow.run_step.
  - intros k r. rewrite lookup_insert_Some. intros [[<- <-]|[_ Hr]]; [| eauto]. rewrite Efrom, Eto. exact Hv.
Qed.

(** A client session: any calls, by any tenants, with any outcome. *)
Inductive doc_call :=
  | CallCreate (ctx : Ctx) (cmd : CreateDocumentCommand)
  | CallTransition (ctx : Ctx) (cmd : TransitionDocumentCommand).

Definition call_ctx (c : doc_call) : Ctx := match c with CallCreate ctx _ | CallTransition ctx _ => ctx end.

Definition run_call (c : doc_call) (w : World DocDB) : res Document * World DocDB :=
  match c with
  | CallCreate ctx cmd => CreateDocument u ctx cmd w
  | CallTransition ctx cmd => TransitionDocument u ctx cmd w
  end.

Definition run_calls (cs : list doc_call) (w : World DocDB) : World DocDB :=
  fold_left (fun w c => (run_call c w).2) cs w.

Lemma run_call_inv c w :
  ctx_tx (call_ctx c) = false -> docs_inv (db_doc (w_db w)) -> docs_inv (db_doc (w_db (run_call c w).2)).
Proof.
  destruct c as [ctx cmd|ctx cmd]; cbn [call_ctx run_call]; intros Htx Hinv.
  - pose proof (CreateDocument_keeps_err ctx cmd Htx w) as Hk.
    destruct (CreateDocument u ctx cmd w) as [[r|e|e] w'] eqn:E; cbn [fst snd is_Ok] in *.
    + apply CreateDocument_Ok in E as (doc & zero & lw & lw' & Hd & _ & _ & Hst & _); [| done].
      pose proof (df_status _ _ _ Hd). by eapply document_stored_inv.
    + specialize (Hk eq_refl). unfold core in Hk. injection Hk as -> _ _. done.
    + specialize (Hk eq_refl). unfold core in Hk. injection Hk as -> _ _. done.
  - destruct (TransitionDocument u ctx cmd w) as [r w'] eqn:E. cbn [snd].
    apply TransitionDocument_cases in E as [[_ ->]|(tn & row & _ & Hv & Hst)]; [done | | done | apply Hinv].
    by eapply transition_stored_inv.
Qed.

(** ** Tenants *)

Lemma insert_lines_lookup lines t k r :
  insert_lines lines t !! k = Some r -> t !! k = Some r \/ exists l, l ∈ lines /\ r = line_row l.
Proof.
  unfold insert_lines. revert t. induction lines as [|l lines IH]; intros t Hl; [by left |]. cbn in Hl.
  apply IH in Hl as [Hl|(l' & Hl' & ->)]; [| right; exists l'; split; [by right | done]].
  apply lookup_insert_Some in Hl as [[_ <-]|[_ Hl]]; [right; exists l; split; [by left | done] | by left].
Qed.

Lemma build_lines_tenant tn id cur now i total inputs w r w' :
  build_lines tn id cur now i total inputs w = (Ok r, w') ->
  Forall (fun l => dl_TenantID l = tn /\ dl_DocumentID l = id) r.2.
Proof.
  revert i total w r w'. induction inputs as [|inp inputs IH]; intros i total w r w' E;
    cbn [build_lines] in E; step_inv; subst; [constructor |].
  match goal with X : build_lines _ _ _ _ _ _ _ _ = _ |- _ => apply IH in X end. by constructor.
Qed.

(** What the rows of a tenant are, in every table. *)
Definition core_rows (tn : ID) (d : DocDB) :
    gmap ID DocRow * gmap ID LineRow * gmap ID TransRow * OutboxTable * AuditTable :=
  (filter (fun kr => dr_tenant_id kr.2 = tn) (t_documents (db_doc d)),
   filter (fun kr => lr_tenant_id kr.2 = tn) (t_lines (db_doc d)),
   filter (fun kr => tr_tenant_id kr.2 = tn) (t_transitions (db_doc d)),
   filter (fun kr => ob_tenant_id kr.2 = tn) (db_outbox d),
   filter (fun kr => al_TenantID kr.2 = tn) (db_audit d)).

Definition tenant_rows (tn : ID) (d : DocDB) := (core_rows tn d, rows_in sr_tenant_id tn (db_seq d)).

Lemma filter_insert_other {R} (P : ID * R -> Prop) `{!forall x, Decision (P x)} k (r : R) (t : gmap ID R) :
  ~ P (k, r) -> (forall r0, t !! k = Some r0 -> ~ P (k, r0)) -> filter P (<[k := r]> t) = filter P t.
Proof.
  intros Hn Ho. apply map_eq. intros i. apply option_eq. intros x.
  rewrite !map_lookup_filter_Some, lookup_insert_Some. split; [naive_solver |].
  intros [Hx Hp]. split; [| done]. right. split; [| done]. intros <-. by eapply Ho.
Qed.

Lemma recorded_event_other tn tn' agg ty t t' :
  tn' <> tn -> event_recorded tn agg ty t t' ->
  filter (fun kr => ob_tenant_id kr.2 = tn') t' = filter (fun kr => ob_tenant_id kr.2 = tn') t.
Proof.
  intros Hne (row & Hf & -> & Et & _). apply filter_insert_other; cbn; [congruence |]. intros r0 Hr0. congruence.
Qed.

Lemma recorded_audit_other tn tn' e ac t t' :
  tn' <> tn -> audit_recorded tn e ac t t' ->
  filter (fun kr => al_TenantID kr.2 = tn') t' = filter (fun kr => al_TenantID kr.2 = tn') t.
Proof.
  intros Hne (row & Hf & -> & Et & _). apply filter_insert_other; cbn; [congruence |]. intros r0 Hr0. congruence.
Qed.

Lemma document_stored_isolated doc d d' tn' :
  tn' <> doc_TenantID doc -> Forall (fun l => dl_TenantID l = doc_TenantID doc) (doc_Lines doc) ->
  document_stored doc d d' -> core_rows tn' d' = core_rows tn' d.
Proof.
  intros Hne Hl (Hnew & _ & _ & Hdoc & Hsub & _ & Hev & Hau). unfold core_rows. rewrite Hdoc. cbn [t_documents t_lines t_transitions].
  rewrite (filter_insert_other _ (doc_ID doc)); [| cbn; congruence | intros r0 Hr0; congruence].
  f_equal; [f_equal; [f_equal; f_equal |] |].
  - apply map_eq. intros i. apply option_eq. intros x. rewrite !map_lookup_filter_Some. cbn. split.
    + intros [Hx Ht]. split; [| done]. apply insert_lines_lookup in Hx as [Hx|(l & Hin & ->)]; [done |].
      rewrite Forall_forall in Hl. cbn in Ht. rewrite (Hl l Hin) in Ht. congruence.
    + intros [Hx Ht]. split; [| done]. by eapply lookup_weaken.
  - destruct (has_outbox u); [by eapply recorded_event_other | by rewrite Hev].
  - destruct (has_audit u); [by eapply recorded_audit_other | by rewrite Hau].
Qed.

Lemma transition_stored_isolated tn id row target d d' tn' :
  tn' <> tn -> transition_stored tn id row target d d' -> core_rows tn' d' = core_rows tn' d.
Proof.
  intros Hne (Hrow & _ & Et & (now & tr & Hf & Ett & _ & _ & _ & Hdoc) & Hev & Hau & _).
  unfold core_rows. rewrite Hdoc. cbn [t_documents t_lines t_transitions].
  rewrite (filter_insert_other _ (dr_id row)); [| cbn; congruence | intros r0 Hr0; cbn; congruence].
  rewrite (filter_insert_other _ (tr_id tr)); [| cbn; congruence | intros r0 Hr0; congruence].
  f_equal; [f_equal |].
  - destruct (has_outbox u); [by eapply recorded_event_other | by rewrite Hev].
  - destruct (has_audit u); [by eapply recorded_audit_other | by rewrite Hau].
Qed.

Lemma run_call_core c w tn' :
  ctx_tx (call_ctx c) = false -> docs_inv (db_doc (w_db w)) -> ctx_tenant (call_ctx c) <> Some tn' ->
  core_rows tn' (w_db (run_call c w).2) = core_rows tn' (w_db w).
Proof.
  destruct c as [ctx cmd|ctx cmd]; cbn [call_ctx run_call]; intros Htx Hinv Htn.
  - pose proof (CreateDocument_keeps_err ctx cmd Htx w) as Hk.
    assert (core (w_db (CreateDocument u ctx cmd w).2) = core (w_db w) ->
            core_rows tn' (w_db (CreateDocument u ctx cmd w).2) = core_rows tn' (w_db w)) as Hsame.
    { unfold core, core_rows. by intros [= -> -> ->]. }
    destruct (CreateDocument u ctx cmd w) as [[r|e|e] w'] eqn:E; cbn [fst snd is_Ok] in *; [| auto | auto].
    apply CreateDocument_Ok in E as (doc & zero & lw & lw' & [[Hctx _]] & _ & Hbl & Hst & _); [| done].
    eapply document_stored_isolated; [| | done]; [congruence |].
    apply build_lines_tenant in Hbl. eapply Forall_impl; [exact Hbl |]. by intros l [? _].
  - destruct (TransitionDocument u ctx cmd w) as [r w'] eqn:E. cbn [snd].
    apply TransitionDocument_cases in E as [[_ ->]|(tn & row & Hctx & _ & Hst)]; [done | | done | apply Hinv].
    eapply transition_stored_isolated; [| done]. congruence.
Qed.

Lemma number_taken_kept ctx cmd t t' : number_taken ctx cmd t t' -> keys_ok t ->
  keys_ok t' /\ forall tn, ctx_tenant ctx <> Some tn -> rows_in sr_tenant_id tn t' = rows_in sr_tenant_id tn t.
Proof.
  intros [->|(_ & _ & tn & Htn & Ha)] Hok; [done |]. eapply advanced_kept in Ha as [Hk Hr]; [| done]. split; [done |].
  intros tn' Hne. apply Hr. congruence.
Qed.

Lemma run_call_sequences c w : keys_ok (db_seq (w_db w)) ->
  keys_ok (db_seq (w_db (run_call c w).2))
  /\ forall tn, ctx_tenant (call_ctx c) <> Some tn -> rows_in sr_tenant_id tn (db_seq (w_db (run_call c w).2)) = rows_in sr_tenant_id tn (db_seq (w_db w)).
Proof.
  destruct c as [ctx cmd|ctx cmd]; cbn [run_call call_ctx].
  - apply (number_taken_kept _ _ _ _ (CreateDocument_number_taken ctx cmd w)).
  - by rewrite (TransitionDocument_keeps ctx cmd w).
Qed.

Lemma run_call_isolated c w tn' :
  ctx_tx (call_ctx c) = false -> docs_inv (db_doc (w_db w)) -> keys_ok (db_seq (w_db w)) -> ctx_tenant (call_ctx c) <> Some tn' ->
  tenant_rows tn' (w_db (run_call c w).2) = tenant_rows tn' (w_db w).
Proof.
  intros Htx Hinv Hk Hne. unfold tenant_rows. rewrite run_call_core by done. destruct (run_call_sequences c w Hk) as [_ Hr]. by rewrite Hr.
Qed.

(** *** Reads *)

(** A document of the tenant, with lines and transitions of the tenant. *)
Definition owned (tn : ID) (doc : Document) : Prop :=
  doc_TenantID doc = tn /\ Forall (fun l => dl_TenantID l = tn) (doc_Lines doc) /\ Forall (fun t => dt_TenantID t = tn) (doc_Transitions doc).

Lemma map_res_Ok {A B} (g : A -> res B) l ys : map_res g l = Ok ys -> Forall2 (fun x y => g x = Ok y) l ys.
Proof.
  revert ys. induction l as [|x l IH]; intros ys; cbn [map_res]; [by intros [= <-] |].
  destruct (g x) as [y|e|e] eqn:Ex; cbn; [| done | done]. destruct (map_res g l) as [ys'|e|e]; cbn; [| done | done].
  intros [= <-]. constructor; [done | by apply IH].
Qed.

Lemma map_res_all {A B} (g : A -> res B) (P : A -> Prop) (Q : B -> Prop) l ys :
  map_res g l = Ok ys -> (forall x y, g x = Ok y -> P x -> Q y) -> Forall P l -> Forall Q ys.
Proof.
  intros E%map_res_Ok Hg Hp. induction E as [|x y l ys Exy E IH]; [constructor |].
  inversion Hp; subst. constructor; [by eapply Hg | by apply IH].
Qed.

Lemma toDomainDocument_Ok row doc : toDomainDocument row = Ok doc ->
  doc_TenantID doc = dr_tenant_id row /\ doc_ID doc = dr_id row /\ doc_DocumentType doc = dr_document_type row
  /\ doc_DocumentNumber doc = dr_document_number row /\ doc_Lines doc = [] /\ doc_Transitions doc = [].
Proof. unfold toDomainDocument. destruct (MustNewMoney _ _); [| done | done]. by intros [= <-]. Qed.

Lemma toDomainLine_Ok row l : toDomainLine row = Ok l -> dl_TenantID l = lr_tenant_id row.
Proof. unfold toDomainLine. destruct (MustNewMoney (lr_unit_price row) _); cbn; [| done | done]. destruct (MustNewMoney _ _); cbn; [| done | done]. by intros [= <-]. Qed.

Lemma sorted_rows_all {R} (le : R -> R -> Prop) `{!RelDecision le} (p : R -> bool) (P : R -> Prop) (t : gmap ID R) :
  (forall r, p r = true -> P r) -> Forall P (merge_sort le (select_rows p t)).
Proof.
  intros Hp. apply Forall_forall. intros r Hr. rewrite merge_sort_Permutation in Hr. apply Hp.
  unfold select_rows in Hr. by apply list_elem_of_In, filter_In in Hr as [_ ?].
Qed.

Lemma ListLines_owned tn id w ls w' : ListLines tn id w = (Ok ls, w') -> Forall (fun l => dl_TenantID l = tn) ls.
Proof.
  unfold ListLines. intros E. step_inv. subst. match goal with X : Ok _ = Ok _ |- _ => injection X as <- _ end.
  eapply (map_res_all _ (fun row => lr_tenant_id row = tn)); [eassumption | by intros row l ->%toDomainLine_Ok |].
  apply sorted_rows_all. intros r [[[_ Hr]%sql_eq_true _]%andb_true_iff _]%andb_true_iff. done.
Qed.

Lemma ListTransitions_owned tn id w ts w' : ListTransitions tn id w = (Ok ts, w') -> Forall (fun t => dt_TenantID t = tn) ts.
Proof.
  unfold ListTransitions. intros E. step_inv. subst. match goal with X : Ok _ = Ok _ |- _ => injection X as <- _ end.
  apply Forall_fmap. apply sorted_rows_all. intros r [[_ Hr]%sql_eq_true _]%andb_true_iff. done.
Qed.

Lemma get_document_Ok p w row w' : get_document p w = (Ok row, w') -> p row = true.
Proof.
  unfold get_document. intros E. step_inv. destruct (select_one _ _) as [x|] eqn:Es; [| done].
  apply select_one_Some in Es as [[Hp _]%andb_true_iff _]. by simplify_eq.
Qed.

Ltac owned_parts :=
  repeat match goal with
  | X : toDomainDocument _ = Ok _ |- _ => apply toDomainDocument_Ok in X as (? & ? & ? & ? & _ & _)
  | X : ListLines _ _ _ = _ |- _ => apply ListLines_owned in X
  | X : ListTransitions _ _ _ = _ |- _ => apply ListTransitions_owned in X
  end; unfold owned; cbn; split_and!; try assumption; congruence.

Lemma reads_owned ctx w :
  (forall id doc w', GetDocumentByID ctx id w = (Ok doc, w') -> exists tn, ctx_tenant ctx = Some tn /\ owned tn doc /\ doc_ID doc = id)
  /\ (forall ty number doc w', GetDocumentByNumber ctx ty number w = (Ok doc, w') ->
        exists tn, ctx_tenant ctx = Some tn /\ owned tn doc /\ doc_DocumentType doc = ty /\ doc_DocumentNumber doc = TrimSpace number)
  /\ (forall page size org ty st r w', ListDocuments ctx page size org ty st w = (Ok r, w') ->
        exists tn, ctx_tenant ctx = Some tn /\ Forall (owned tn) (dlr_Items r)).
Proof.
  split_and!.
  - intros id doc w' E. unfold GetDocumentByID in E. step_inv. subst. apply zoom_Ok in E as (w1 & E & _).
    unfold repo_GetDocumentByID in E. step_inv. subst. match goal with X : RequireTenantID _ = Ok ?t |- _ => exists t; apply RequireTenantID_Ok in X as [Hctx _] end.
    match goal with X : get_document _ _ = _ |- _ => apply get_document_Ok in X; unfold doc_by_id in X;
      apply andb_true_iff in X as [[_ X1]%sql_eq_true [_ X2]%sql_eq_true] end. owned_parts.
  - intros ty number doc w' E. unfold GetDocumentByNumber in E. step_inv. subst. apply zoom_Ok in E as (w1 & E & _).
    unfold repo_GetDocumentByNumber in E. step_inv. subst. match goal with X : RequireTenantID _ = Ok ?t |- _ => exists t; apply RequireTenantID_Ok in X as [Hctx _] end.
    match goal with X : get_document _ _ = _ |- _ => apply get_document_Ok in X; unfold doc_by_number in X;
      apply andb_true_iff in X as [[[_ X1]%sql_eq_true X2%String.eqb_eq]%andb_true_iff X3%String.eqb_eq] end. owned_parts.
  - intros page size org ty st r w' E. unfold ListDocuments in E. step_inv. subst. apply zoom_Ok in R0 as (wz & Rz & _).
    unfold repo_ListDocuments in Rz. step_inv. subst. match goal with X : RequireTenantID _ = Ok ?t |- _ => exists t; apply RequireTenantID_Ok in X as [Hctx _] end.
    split; [done |]. cbn [dlr_Items fst]. match goal with X : Ok _ = Ok (?rows, _), Y : map_res _ ?rows = Ok _ |- _ =>
      injection X as <- _; eapply (map_res_all _ (fun row => dr_tenant_id row = a)); [exact Y | |] end.
    + intros row doc (E1 & _ & _ & _ & E5 & E6)%toDomainDocument_Ok Ha. unfold owned. rewrite E1, E5, E6. by split_and!.
    + unfold sql_page. apply Forall_take, Forall_drop, sorted_rows_all.
      intros r Hr. unfold doc_matches in Hr. rewrite !andb_true_iff, sql_eq_true in Hr. naive_solver.
Qed.
End Runs.

(** ** Properties of documents *)

(** A server for the witnesses: every organization, unit, party and product
    exists and nothing else is refused. *)
Definition open_catalog : Catalog := {|
  cat_organization _ := Some "Org"; cat_party _ := Some "Party"; cat_unit _ := Some "pcs"; cat_product _ := Some "Product";
  doc_refused _ := None; line_refused _ := None; trans_refused _ := None;
  outbox_refused _ := None; audit_refused _ := None; seq_refused _ := None |}.

Definition hex_uuid : UUIDLib := {| uuid_Parse _ := None; uuid_String n := fmt_0wd 32 (Z.of_N n) |}.

Definition empty_db : DocDB := mkDocDB (mkDocTables ∅ ∅ ∅) ∅ ∅ ∅.
Definition full_usecase : usecase := mkUsecase true true true.

Definition sample_line (qty price : Z) : CreateDocumentLineInput :=
  mkLineInput None " widget " (of_Z qty) 40%N (mkMoney price "USD") None.
Definition sample_create : CreateDocumentCommand :=
  mkCreateDocumentCommand 30%N "invoice" "INV-1" None None "" "" None [sample_line 3 1050; sample_line 2 99] None.
Definition sample_submit (id : ID) : TransitionDocumentCommand :=
  mkTransitionDocumentCommand id StatusSubmitted "" None.
Definition jan_1 : Time := mkTime (1767225600 * Second) 0.
Definition caller (tn : ID) : Ctx := WithTenantID Background tn.

Lemma empty_inv : docs_inv (db_doc empty_db).
Proof. constructor; cbn; [intros k r | intros k k' r r' | intros k r | intros k r]; by rewrite ?lookup_empty. Qed.

(** The row of the [k]-th line (from 0), from its input. *)
Record line_stored `{UnicodeTables, Pg, GoPlatform} (tn id : ID) (k : nat) (inp : CreateDocumentLineInput) (row : LineRow) : Prop := {
  ls_tenant : lr_tenant_id row = tn;
  ls_document : lr_document_id row = id;
  ls_number : lr_line_number row = int32 (Z.of_nat k + 1);
  ls_product : lr_product_id row = opt_ref (li_ProductID inp);
  ls_description : lr_description row = TrimSpace (li_Description inp);
  ls_quantity : lr_quantity row = pg_numeric (li_Quantity inp);
  ls_unit : lr_unit_id row = li_UnitID inp;
  ls_price : lr_unit_price row = m_amount (li_UnitPrice inp);
  ls_subtotal : lr_subtotal row = m_amount (MultiplyFloat (li_UnitPrice inp) (li_Quantity inp));
}.

Lemma draft_line_stored `{UnicodeTables, Env, Pg, Catalog, UUIDLib, GoPlatform} (u : usecase) ctx cmd doc r d d' k inp :
  draft_of ctx cmd doc -> document_stored u doc d d' -> Forall2 line_returned (doc_Lines doc) (doc_Lines r) ->
  cd_Lines cmd !! k = Some inp ->
  exists l row, doc_Lines r !! k = Some l /\ t_lines (db_doc d) !! dl_ID l = None /\ t_lines (db_doc d') !! dl_ID l = Some row
    /\ line_stored (doc_TenantID doc) (doc_ID doc) k inp row.
Proof.
  intros Hd (_ & _ & _ & Hdoc & _ & Hadd & _) Hret Hinp.
  destruct (lookup_lt_is_Some_2 (doc_Lines doc) k) as [l Hl]; [rewrite (df_length _ _ _ Hd); by apply lookup_lt_Some in Hinp |].
  destruct (Forall2_lookup_l _ _ _ _ _ Hret Hl) as (l' & Hl' & Eid & _).
  pose proof (df_lines _ _ _ Hd k inp l Hinp Hl) as []. unfold lines_added in Hadd. rewrite Forall_lookup in Hadd. destruct (Hadd k l Hl) as [Hnew Hrow].
  exists l', (line_row l). rewrite Eid, Hdoc. split_and!; [done | done | done |]. split; cbn; try congruence.
  rewrite lb_subtotal0. unfold MultiplyFloat. cbn. by rewrite lb_price0.
Qed.

(** C1: creating a document is all or nothing.  For every command and every pattern
    of database failures, a call that succeeds has stored exactly the draft that the
    command asks for, under a fresh identifier and an unused number, for the tenant
    of the caller; one new row per line of the command, numbered from 1, with its
    product, trimmed description, quantity, unit, price and rounded subtotal, whose
    identifier is that of the line of the result; one pending event and one audit
    entry (where the use case has an outbox and an audit trail); and nothing else in
    these tables.  A call that fails leaves documents, lines, transitions, events and
    audit entries as they were.  In both cases the sequences are as they were, or, if
    the command has no number, the sequence of the tenant and the document type has
    handed out one number. *)
Theorem CreateDocument_atomic `{UnicodeTables, Env, Pg, Catalog, UUIDLib, GoPlatform}
    (u : usecase) (ctx : Ctx) (cmd : CreateDocumentCommand) (w : World DocDB) :
  ctx_tx ctx = false ->
  let (out, w') := CreateDocument u ctx cmd w in let d := w_db w in let d' := w_db w' in
  number_taken u ctx cmd (db_seq d) (db_seq d')
  /\ match out with
     | Ok r => exists doc, draft_of ctx cmd doc /\ document_stored u doc d d'
         /\ doc_ID r = doc_ID doc /\ doc_TenantID r = doc_TenantID doc /\ doc_Status r = StatusDraft
         /\ doc_DocumentNumber r = doc_DocumentNumber doc /\ doc_TotalAmount r = doc_TotalAmount doc
         /\ length (doc_Lines r) = length (cd_Lines cmd)
         /\ forall k inp, cd_Lines cmd !! k = Some inp ->
              exists l row, doc_Lines r !! k = Some l /\ t_lines (db_doc d) !! dl_ID l = None
                /\ t_lines (db_doc d') !! dl_ID l = Some row /\ line_stored (doc_TenantID r) (doc_ID r) k inp row
     | _ => core d' = core d
     end.
Proof.
  intros Htx. pose proof (CreateDocument_keeps_err u ctx cmd Htx w) as Hk. pose proof (CreateDocument_number_taken u ctx cmd w) as Hn.
  destruct (CreateDocument u ctx cmd w) as [[r|e|e] w'] eqn:E; (split; [exact Hn |]); [| by apply Hk..].
  apply CreateDocument_Ok in E as (doc & zero & lw & lw' & Hd & _ & _ & Hst & E1 & E2 & E3 & E4 & E5 & Hret); [| done].
  exists doc. pose proof (df_status _ _ _ Hd). split_and!; try congruence.
  - rewrite <- (df_length _ _ _ Hd). symmetry. by eapply Forall2_length.
  - rewrite E1, E5. intros k inp. by apply (draft_line_stored u ctx cmd).
Qed.

Lemma CreateDocument_atomic_witness :
  let H1 := calm jan_1 Second in let H2 := pgx 0 in let H3 := open_catalog in let H4 := hex_uuid in let H5 := amd64 in
  match CreateDocument full_usecase (caller 9%N) sample_create (mkWorld empty_db 0%nat) with
  | (Ok r, w') => doc_TotalAmount r = mkMoney 3348 "USD" /\ size (t_lines (db_doc (w_db w'))) = 2%nat
      /\ exists l row, doc_Lines r !! 1%nat = Some l /\ t_lines (db_doc (w_db w')) !! dl_ID l = Some row
           /\ line_stored 9%N (doc_ID r) 1 (sample_line 2 99) row
  | _ => False
  end.
Proof.
  intros H1 H2 H3 H4 H5.
  pose proof (CreateDocument_atomic full_usecase (caller 9%N) sample_create (mkWorld empty_db 0%nat) eq_refl) as T.
  destruct (CreateDocument _ _ _ _) as [[r|e|e] w'] eqn:E; [| by vm_compute in E..].
  assert ((match CreateDocument full_usecase (caller 9%N) sample_create (mkWorld empty_db 0%nat) with
           | (Ok r, w') => Some (doc_TotalAmount r, size (t_lines (db_doc (w_db w')))) | _ => None end)
          = Some (mkMoney 3348 "USD", 2%nat)) as C by by vm_compute.
  rewrite E in C. injection C as C1 C2. destruct T as (_ & doc & [[Etn _]] & _ & _ & E2 & _ & _ & _ & _ & Hl). injection Etn as Etn.
  destruct (Hl 1%nat (sample_line 2 99) eq_refl) as (l & row & Hl1 & _ & Hr & Hs). rewrite E2, <- Etn in Hs. eauto 10.
Defined.

(** C8: the total of a new document is the sum of its lines.  The lines are
    numbered 1, 2, 3, ... in the order given; each subtotal is the rounded
    product of price and quantity; the total is their sum (modulo 2^64) and
    all are in one currency. *)
Theorem CreateDocument_total `{UnicodeTables, Env, Pg, Catalog, UUIDLib, GoPlatform}
    (u : usecase) (ctx : Ctx) (cmd : CreateDocumentCommand) (w w' : World DocDB) (r : Document) :
  ctx_tx ctx = false -> Z.of_nat (length (cd_Lines cmd)) < 2 ^ 31 ->
  CreateDocument u ctx cmd w = (Ok r, w') ->
  m_amount (doc_TotalAmount r) = int64 (sum_subtotals (doc_Lines r))
  /\ map dl_LineNumber (doc_Lines r) = map (fun k => 1 + Z.of_nat k) (seq 0 (length (cd_Lines cmd)))
  /\ Forall2 (fun inp l => dl_Subtotal l = MultiplyFloat (dl_UnitPrice l) (li_Quantity inp)
        /\ m_amount (dl_UnitPrice l) = m_amount (li_UnitPrice inp)
        /\ m_currency (dl_Subtotal l) = m_currency (doc_TotalAmount r)) (cd_Lines cmd) (doc_Lines r).
Proof.
  intros Htx Hlen E.
  apply CreateDocument_Ok in E as (doc & zero & lw & lw' & _ & Hz & Hbl & _ & _ & Et & _ & _ & _ & Hl); [| done].
  assert (m_amount zero = 0) as Hz0.
  { unfold ZeroMoney, MustNewMoney in Hz. destruct (NewMoney _ _) as [z| |] eqn:En; [| done | done].
    injection Hz as <-. by apply NewMoney_Ok in En as (-> & _). }
  apply build_lines_Ok in Hbl as (Hcur & Hamt & Hnum & Hall); cbn [fst snd] in *; [| rewrite Hz0; by vm_compute | lia | lia].
  assert (sum_subtotals (doc_Lines r) = sum_subtotals (doc_Lines doc)
          /\ map dl_LineNumber (doc_Lines r) = map dl_LineNumber (doc_Lines doc)) as [Es En].
  { clear -Hl. induction Hl as [|l l' ls ls' (E1 & E2 & E3 & E4 & E5) Hl [IH1 IH2]]; [done |].
    rewrite !sum_subtotals_cons, IH1, E5. cbn. by rewrite E2, IH2. }
  rewrite Et, Es, En, Hamt, Hz0, Hcur. split_and!; [done | exact Hnum |].
  clear -Hl Hall. revert Hl. generalize (doc_Lines r) as ls'.
  induction Hall as [|inp l inps ls (A1 & A2 & A3 & A4) Hall IH]; intros ls' Hl; inversion Hl as [|? l' ? ls2 (E1 & E2 & E3 & E4 & E5) Hl']; subst; constructor; [| by apply IH].
  split_and!; [by rewrite E5, E3, A1, A2 | by rewrite E3 | by rewrite E5].
Qed.

Lemma CreateDocument_total_witness :
  let H1 := calm jan_1 Second in let H2 := pgx 0 in let H3 := open_catalog in let H4 := hex_uuid in let H5 := amd64 in
  match CreateDocument full_usecase (caller 9%N) sample_create (mkWorld empty_db 0%nat) with
  | (Ok r, w') => m_amount (doc_TotalAmount r) = int64 (sum_subtotals (doc_Lines r))
  | _ => False
  end.
Proof.
  intros H1 H2 H3 H4 H5.
  destruct (CreateDocument full_usecase (caller 9%N) sample_create (mkWorld empty_db 0%nat)) as [[r|e|e] w'] eqn:E;
    [| by vm_compute in E..].
  by apply (CreateDocument_total full_usecase (caller 9%N) sample_create (mkWorld empty_db 0%nat) w' r).
Defined.

(** C2: a transition is validated and all or nothing.  Either nothing changed
    and the call failed, or the document of the caller's tenant had a status
    from which the workflow allows the target, and exactly its status, one
    transition record from the old status to the new, one event and one audit
    entry were written.  Success implies the second. *)
Theorem TransitionDocument_atomic `{UnicodeTables, Env, Pg, Catalog, UUIDLib, GoPlatform}
    (u : usecase) (ctx : Ctx) (cmd : TransitionDocumentCommand) (w : World DocDB) :
  ctx_tx ctx = false -> docs_keyed (t_documents (db_doc (w_db w))) ->
  let (r, w') := TransitionDocument u ctx cmd w in
  (is_Ok r = false /\ w_db w' = w_db w)
  \/ exists tn row, ctx_tenant ctx = Some tn
      /\ ValidateTransition (dr_status row) (td_TargetStatus cmd) = Ok tt
      /\ transition_stored u tn (td_DocumentID cmd) row (td_TargetStatus cmd) (w_db w) (w_db w').
Proof.
  intros Htx Hk. destruct (TransitionDocument u ctx cmd w) as [r w'] eqn:E.
  by apply (TransitionDocument_cases u ctx cmd w r w').
Qed.

(** A database with one draft document. *)
Definition one_document : World DocDB :=
  (@CreateDocument _ (calm jan_1 Second) (pgx 0) open_catalog hex_uuid amd64
     full_usecase (caller 9%N) sample_create (mkWorld empty_db 0%nat)).2.

Lemma one_document_inv : docs_inv (db_doc (w_db one_document)).
Proof.
  pose proof (@run_call_inv _ (calm jan_1 Second) (pgx 0) open_catalog hex_uuid amd64 full_usecase
    (CallCreate (caller 9%N) sample_create) (mkWorld empty_db 0%nat) eq_refl empty_inv) as T.
  cbn [run_call] in T. unfold one_document. exact T.
Qed.

Lemma TransitionDocument_atomic_witness :
  let H1 := calm jan_1 Second in let H2 := pgx 0 in let H3 := open_catalog in let H4 := hex_uuid in let H5 := amd64 in
  let out := TransitionDocument full_usecase (caller 9%N) (sample_submit 1%N) one_document in
  is_Ok out.1 = true /\ exists tn row,
    transition_stored full_usecase tn 1%N row StatusSubmitted (w_db one_document) (w_db out.2).
Proof.
  intros H1 H2 H3 H4 H5 out. assert (is_Ok out.1 = true) as Hok by by vm_compute. split; [done |].
  pose proof (TransitionDocument_atomic full_usecase (caller 9%N) (sample_submit 1%N) one_document eq_refl
    (inv_keyed _ one_document_inv)) as T.
  unfold out in *. destruct (TransitionDocument _ _ _ _) as [r w']. cbn [fst snd] in *.
  destruct T as [[Hf _]|(tn & row & _ & _ & Hst)]; [congruence | eauto].
Defined.

(** C3: the documents of every tenant stay consistent through any session.
    Whatever creations and transitions clients send, in any order, with any
    failures, every document's status is the end of a run of the workflow from
    draft, every recorded transition is a step the workflow allows, and no two
    documents of a tenant and type share a number. *)
Theorem documents_invariant `{UnicodeTables, Env, Pg, Catalog, UUIDLib, GoPlatform}
    (u : usecase) (calls : list doc_call) (w : World DocDB) :
  Forall (fun c => ctx_tx (call_ctx c) = false) calls ->
  docs_inv (db_doc (w_db w)) -> docs_inv (db_doc (w_db (run_calls u calls w))).
Proof.
  intros Hc. revert w. induction Hc as [|c calls Htx Hc IH]; intros w Hw; [done |].
  unfold run_calls. cbn [fold_left]. apply IH. by apply run_call_inv.
Qed.

Lemma documents_invariant_witness :
  let H1 := calm jan_1 Second in let H2 := pgx 0 in let H3 := open_catalog in let H4 := hex_uuid in let H5 := amd64 in
  let w := run_calls full_usecase
    [CallCreate (caller 9%N) sample_create; CallTransition (caller 9%N) (sample_submit 1%N);
     CallTransition (caller 9%N) (sample_submit 1%N)] (mkWorld empty_db 0%nat) in
  (dr_status <$> t_documents (db_doc (w_db w)) !! 1%N) = Some StatusSubmitted /\ docs_inv (db_doc (w_db w)).
Proof.
  intros H1 H2 H3 H4 H5 w. split; [by vm_compute |].
  apply (documents_invariant full_usecase); [repeat constructor | apply empty_inv].
Defined.

(** C4: tenants cannot touch each other's documents.  Through any session of
    creations and transitions, a tenant that makes no call keeps exactly its rows in
    every table these calls write: documents, lines, transitions, events, audit
    entries and number sequences, whose keys stay unique.  And whatever is read, by
    identifier, by number or in a listing, belongs to the tenant of the reader, with
    its lines and transitions. *)
Theorem tenant_isolation `{UnicodeTables, Env, Pg, Catalog, UUIDLib, GoPlatform}
    (u : usecase) (calls : list doc_call) (w : World DocDB) (tn : ID) :
  Forall (fun c => ctx_tx (call_ctx c) = false /\ ctx_tenant (call_ctx c) <> Some tn) calls ->
  docs_inv (db_doc (w_db w)) -> keys_ok (db_seq (w_db w)) ->
  tenant_rows tn (w_db (run_calls u calls w)) = tenant_rows tn (w_db w)
  /\ keys_ok (db_seq (w_db (run_calls u calls w)))
  /\ forall ctx,
     (forall id doc w', GetDocumentByID ctx id w = (Ok doc, w') -> exists t, ctx_tenant ctx = Some t /\ owned t doc /\ doc_ID doc = id)
     /\ (forall ty number doc w', GetDocumentByNumber ctx ty number w = (Ok doc, w') ->
           exists t, ctx_tenant ctx = Some t /\ owned t doc /\ doc_DocumentType doc = ty /\ doc_DocumentNumber doc = TrimSpace number)
     /\ (forall page size org ty st r w', ListDocuments ctx page size org ty st w = (Ok r, w') ->
           exists t, ctx_tenant ctx = Some t /\ Forall (owned t) (dlr_Items r)).
Proof.
  intros Hc Hw Hk. assert (tenant_rows tn (w_db (run_calls u calls w)) = tenant_rows tn (w_db w) /\ keys_ok (db_seq (w_db (run_calls u calls w)))) as [? ?];
    [| split_and!; [done | done |]; intros ctx; apply reads_owned].
  revert w Hw Hk. induction Hc as [|c calls [Htx Htn] Hc IH]; intros w Hw Hk; [done |].
  unfold run_calls. cbn [fold_left]. fold (run_calls u calls (run_call u c w).2).
  destruct (IH (run_call u c w).2) as [E Hk']; [by apply run_call_inv | by apply run_call_sequences |].
  split; [| done]. rewrite E. by apply run_call_isolated.
Qed.

Lemma tenant_isolation_witness :
  let H1 := calm jan_1 Second in let H2 := pgx 0 in let H3 := open_catalog in let H4 := hex_uuid in let H5 := amd64 in
  let w := run_calls full_usecase
    [CallTransition (caller 8%N) (sample_submit 1%N); CallCreate (caller 8%N) sample_create] one_document in
  size (t_documents (db_doc (w_db w))) = 2%nat /\ tenant_rows 9%N (w_db w) = tenant_rows 9%N (w_db one_document).
Proof.
  intros H1 H2 H3 H4 H5 w. split; [by vm_compute |].
  apply (tenant_isolation full_usecase); [by repeat constructor | apply one_document_inv |].
  assert (db_seq (w_db one_document) = ∅) as -> by by vm_compute. intros k r. by rewrite lookup_empty.
Defined.

(** three gaps.  A page size below 20 returns 20 rows while the offset
    counts in pages, so with 25 documents and page size 10 the first page has
    20 documents and shares ten of them with the second; a currency in lower case does not match lines
    in upper case; and a currency that is not three letters panics instead of
    being refused. *)
Theorem document_gaps :
  let H1 := calm jan_1 Second in let H2 := pgx 0 in let H3 := open_catalog in let H4 := hex_uuid in let H5 := amd64 in
  let numbered (n : Z) := mkCreateDocumentCommand 30%N "invoice" (Itoa n) None None "" "" None [] None in
  let w := run_calls (mkUsecase false false false)
             (map (fun n => CallCreate (caller 9%N) (numbered (Z.of_nat n))) (seq 0 25)) (mkWorld empty_db 0%nat) in
  let page n := match (ListDocuments (caller 9%N) n 10 None None None w).1 with
                | Ok r => map doc_DocumentNumber (dlr_Items r) | _ => [] end in
  let with_currency c := mkCreateDocumentCommand 30%N "invoice" "X" None None c "" None [sample_line 1 5] None in
  (length (page 1) = 20%nat /\ length (filter (fun n => n ∈ page 2) (page 1)) = 10%nat)
  /\ (match (CreateDocument full_usecase (caller 9%N) (with_currency "usd") (mkWorld empty_db 0%nat)).1 with
      | Err e => errors_Is e ErrInvalidInput = true | _ => False end)
  /\ (match (CreateDocument full_usecase (caller 9%N) (with_currency "US") (mkWorld empty_db 0%nat)).1 with
      | Panic _ => True | _ => False end).
Proof. by vm_compute. Qed.
