(* ===== verification/RateLimit.v ===== *)
(** * The rate limiter

    [pkg/ratelimit/ratelimit.go]: the [Limiter] contract, [NoopLimiter] and the
    in-memory sliding window.  Buckets are heap objects that the map [buckets]
    (a [sync.Map]) points to; [Allow] and the purge of stale buckets are given
    twice: as whole calls, and cut at the points where other goroutines can
    run. *)

From stdpp Require Import relations.
From S2P Require Import Prelude GoStrings GoTime Sdk.
#[local] Open Scope string_scope.
#[local] Open Scope list_scope.
#[local] Open Scope Z_scope.

Record Result := mkResult {
  r_Allowed : bool;
  r_Remaining : Z;
  r_Limit : Z;
  r_ResetAt : Time;
}.

#[global] Instance Result_eq_dec : EqDecision Result.
Proof. solve_decision. Defined.

(** ** The contract

    A limiter keeps a state [S]; a call gives the clock reading of the call.
    In a state that is [lim_ok] a call does not panic ([None]), and a refusal
    comes from a limiter with a limit, and leaves nothing. *)
Class Limiter (S : Type) := {
  lim_Allow : string -> Time -> S -> option Result * S;
  lim_ok : S -> Prop;
  lim_ok_Allow : forall key now s, lim_ok s -> lim_ok (lim_Allow key now s).2;
  lim_answers : forall key now s, lim_ok s -> exists r, (lim_Allow key now s).1 = Some r
    /\ (r_Allowed r = false -> 0 < r_Limit r /\ r_Remaining r = 0);
}.

(** [NoopLimiter]. *)
Definition NoopAllow : Result := mkResult true (-1) (-1) zeroTime.

#[export] Instance NoopLimiter : Limiter unit.
Proof. refine {| lim_Allow _ _ s := (Some NoopAllow, s); lim_ok _ := True |}; [done | by eexists]. Defined.

(** ** The in-memory limiter *)

Record InMemoryConfig := mkInMemoryConfig {
  RequestsPerWindow : Z;
  Window : Z;   (* time.Duration *)
}.

Definition DefaultInMemoryConfig : InMemoryConfig := mkInMemoryConfig 300 Minute.

(** Each [*bucket] is a location of [heap], which holds its timestamps. *)
Record inMemoryLimiter := mkLimiter {
  cfg : InMemoryConfig;
  buckets : gmap string nat;
  heap : list (list Time);
  stopped : bool;   (* stopCh is closed *)
}.

Definition NewInMemory (c : InMemoryConfig) : inMemoryLimiter :=
  let limit := if RequestsPerWindow c <=? 0 then 300 else RequestsPerWindow c in
  let window := if Window c <=? 0 then Minute else Window c in
  mkLimiter (mkInMemoryConfig limit window) ∅ [] false.

(** [l.buckets.LoadOrStore(key, &bucket{})]. *)
Definition LoadOrStore (key : string) (l : inMemoryLimiter) : nat * inMemoryLimiter :=
  match buckets l !! key with
  | Some p => (p, l)
  | None =>
      let p := length (heap l) in
      (p, mkLimiter (cfg l) (<[key := p]> (buckets l)) (heap l ++ [[]]) (stopped l))
  end.

(** The loop that moves [cutoff] past the timestamps before [windowStart], and
    the reslice. *)
Fixpoint evict (windowStart : Time) (ts : list Time) : list Time :=
  match ts with
  | t :: ts' => if Before t windowStart then evict windowStart ts' else ts
  | [] => []
  end.

(** The section of [Allow] under the lock of the bucket: the new timestamps and
    the result.  [None] is the index out of range of [bkt.timestamps[0]]. *)
Definition bucket_allow (c : InMemoryConfig) (now : Time) (ts : list Time) : option (Result * list Time) :=
  let kept := evict (Add now (- Window c)) ts in
  if RequestsPerWindow c <=? Z.of_nat (length kept) then
    match kept with
    | t0 :: _ => Some (mkResult false 0 (RequestsPerWindow c) (Add t0 (Window c)), kept)
    | [] => None
    end
  else
    let ts' := kept ++ [now] in
    let remaining := RequestsPerWindow c - Z.of_nat (length ts') in
    let resetAt := match ts' with t0 :: _ => Add t0 (Window c) | [] => Add now (Window c) end in
    Some (mkResult true remaining (RequestsPerWindow c) resetAt, ts').

Definition set_bucket (p : nat) (ts : list Time) (l : inMemoryLimiter) : inMemoryLimiter :=
  mkLimiter (cfg l) (buckets l) (<[p := ts]> (heap l)) (stopped l).

Definition bucket_at (p : nat) (l : inMemoryLimiter) : list Time := default [] (heap l !! p).

(** [Allow]; the panic leaves the state alone. *)
Definition Allow (key : string) (now : Time) (l : inMemoryLimiter) : option Result * inMemoryLimiter :=
  let '(p, l1) := LoadOrStore key l in
  match bucket_allow (cfg l1) (UTC now) (bucket_at p l1) with
  | Some (r, ts) => (Some r, set_bucket p ts l1)
  | None => (None, l1)
  end.

Definition Close (l : inMemoryLimiter) : inMemoryLimiter :=
  mkLimiter (cfg l) (buckets l) (heap l) true.

(** The test of the purge on one bucket. *)
Definition allStale (cutoff : Time) (ts : list Time) : bool :=
  match last ts with None => true | Some t => Before t cutoff end.

Definition Delete (key : string) (l : inMemoryLimiter) : inMemoryLimiter :=
  mkLimiter (cfg l) (delete key (buckets l)) (heap l) (stopped l).

Definition purge_visit (cutoff : Time) (l : inMemoryLimiter) (key : string) : inMemoryLimiter :=
  match buckets l !! key with
  | Some p => if allStale cutoff (bucket_at p l) then Delete key l else l
  | None => l
  end.

(** [purgeStale]; [keys] is the order in which [Range] finds the keys. *)
Definition purgeStale (keys : list string) (now : Time) (l : inMemoryLimiter) : inMemoryLimiter :=
  fold_left (purge_visit (Add (UTC now) (- Window (cfg l)))) keys l.

(** One event of [cleanupLoop]: a tick purges unless the limiter is closed. *)
Definition cleanup_tick (keys : list string) (now : Time) (l : inMemoryLimiter) : inMemoryLimiter :=
  if stopped l then l else purgeStale keys now l.

(** ** Reference: the log of granted requests *)

(** A request is refused exactly when the limit is used up by the requests
    granted to its key in the window that ends now. *)
Definition recent (c : InMemoryConfig) (key : string) (now : Time) (log : list (string * Time)) : list Time :=
  map snd (List.filter (fun g => String.eqb g.1 key && negb (Before g.2 (Add now (- Window c)))) log).

Definition spec_Allow (c : InMemoryConfig) (key : string) (now : Time) (log : list (string * Time)) :
    Result * list (string * Time) :=
  let used := recent c key now log in
  let first := match used with t0 :: _ => t0 | [] => now end in
  if RequestsPerWindow c <=? Z.of_nat (length used)
  then (mkResult false 0 (RequestsPerWindow c) (Add first (Window c)), log)
  else (mkResult true (RequestsPerWindow c - Z.of_nat (length used) - 1) (RequestsPerWindow c)
          (Add first (Window c)), log ++ [(key, now)]).

(** What happens to a limiter, one call at a time. *)
Inductive call :=
  | CAllow (key : string)
  | CTick (keys : list string)
  | CClose.

Fixpoint run (calls : list (Time * call)) (l : inMemoryLimiter) : list (option Result) * inMemoryLimiter :=
  match calls with
  | [] => ([], l)
  | (now, CAllow key) :: cs =>
      let (r, l1) := Allow key now l in let (rs, l2) := run cs l1 in (r :: rs, l2)
  | (now, CTick keys) :: cs => run cs (cleanup_tick keys now l)
  | (now, CClose) :: cs => run cs (Close l)
  end.

Fixpoint spec_run (c : InMemoryConfig) (calls : list (Time * call)) (log : list (string * Time)) :
    list (option Result) * list (string * Time) :=
  match calls with
  | [] => ([], log)
  | (now, CAllow key) :: cs =>
      let (r, log1) := spec_Allow c key (UTC now) log in
      let (rs, log2) := spec_run c cs log1 in (Some r :: rs, log2)
  | _ :: cs => spec_run c cs log
  end.

(** The clock does not go back. *)
Definition clock_monotone (calls : list (Time * call)) : Prop :=
  Sorted (fun t u => t_nanos t <= t_nanos u) calls.*1.

(** ** The refinement *)

Definition t_le (t u : Time) : Prop := t_nanos t <= t_nanos u.

#[global] Instance t_le_trans : Transitive t_le.
Proof. intros t u v. unfold t_le. lia. Qed.

Lemma Before_lt t u : Before t u = true <-> t_nanos t < t_nanos u.
Proof. apply Z.ltb_lt. Qed.

(** On sorted timestamps eviction is selection. *)
Lemma evict_filter ws ts :
  StronglySorted t_le ts -> evict ws ts = List.filter (fun t => negb (Before t ws)) ts.
Proof.
  induction 1 as [|t ts Hs IH Hall]; [done |]. cbn.
  destruct (Before t ws) eqn:E; [done |]. cbn. f_equal.
  rewrite Forall_forall in Hall. clear IH Hs.
  induction ts as [|u ts IH]; [done |]. cbn.
  assert (Before u ws = false) as ->.
  { specialize (Hall u ltac:(by left)). unfold t_le, Before in *. rewrite Z.ltb_ge in *. lia. }
  cbn. rewrite <- IH; [done |]. intros v Hv. apply Hall. by right.
Qed.

Lemma evict_split ws ts :
  exists gone, ts = gone ++ evict ws ts /\ Forall (fun t => Before t ws = true) gone.
Proof.
  induction ts as [|t ts IH]; [by exists [] |]. cbn. destruct (Before t ws) eqn:E; [| by exists []].
  destruct IH as (gone & Hts & Hg). exists (t :: gone). split; [by rewrite Hts at 1 | by constructor].
Qed.

(** The grants of one key, in order. *)
Definition key_log (key : string) (log : list (string * Time)) : list Time :=
  map snd (List.filter (fun g => String.eqb g.1 key) log).

Lemma key_log_app key l1 l2 : key_log key (l1 ++ l2) = key_log key l1 ++ key_log key l2.
Proof. unfold key_log. by rewrite List.filter_app, map_app. Qed.

Lemma key_log_snoc key k t log :
  key_log key (log ++ [(k, t)]) = key_log key log ++ (if String.eqb k key then [t] else []).
Proof. rewrite key_log_app. unfold key_log. cbn. by destruct (String.eqb k key). Qed.

Lemma recent_key_log c key now log :
  recent c key now log = List.filter (fun t => negb (Before t (Add now (- Window c)))) (key_log key log).
Proof.
  unfold recent, key_log. induction log as [|[k t] log IH]; [done |]. cbn.
  destruct (String.eqb k key); cbn; [| done]. destruct (Before t _); cbn; by rewrite IH.
Qed.

Definition bucket_of (key : string) (l : inMemoryLimiter) : list Time :=
  match buckets l !! key with Some p => bucket_at p l | None => [] end.

(** What a bucket has dropped of the grants of its key is out of the window of
    every call from time [T] on. *)
Record Rep (c : InMemoryConfig) (T : Z) (log : list (string * Time)) (l : inMemoryLimiter) : Prop := {
  rep_cfg : cfg l = c;
  rep_alloc : forall k p, buckets l !! k = Some p -> (p < length (heap l))%nat;
  rep_inj : forall k1 k2 p, buckets l !! k1 = Some p -> buckets l !! k2 = Some p -> k1 = k2;
  rep_sorted : forall key, StronglySorted t_le (key_log key log);
  rep_past : forall key t, t ∈ key_log key log -> t_nanos t <= T;
  rep_kept : forall key, exists gone, key_log key log = gone ++ bucket_of key l
      /\ Forall (fun t => t_nanos t < T - Window c) gone;
}.

Lemma Rep_later c T T' log l : T <= T' -> Rep c T log l -> Rep c T' log l.
Proof.
  intros HT [H1 H2 H3 H4 H5 H6]. split; try done.
  - intros key t Ht. specialize (H5 key t Ht). lia.
  - intros key. destruct (H6 key) as (gone & E & Hg). exists gone. split; [done |].
    eapply Forall_impl; [exact Hg |]. cbn. intros t Ht. lia.
Qed.

Lemma LoadOrStore_Rep c T log l key p l1 :
  Rep c T log l -> LoadOrStore key l = (p, l1) ->
  Rep c T log l1 /\ buckets l1 !! key = Some p /\ bucket_of key l1 = bucket_of key l.
Proof.
  intros R. unfold LoadOrStore. destruct (buckets l !! key) as [q|] eqn:E.
  - intros [= <- <-]. done.
  - intros [= <- <-].
    assert (forall k, bucket_of k (mkLimiter (cfg l) (<[key := length (heap l)]> (buckets l))
              (heap l ++ [[]]) (stopped l)) = bucket_of k l) as Hb.
    { intros k. unfold bucket_of. cbn. destruct (decide (key = k)) as [<-|Hne].
      - rewrite lookup_insert_eq, E. unfold bucket_at. cbn. by rewrite list_lookup_middle.
      - rewrite lookup_insert_ne by done. destruct (buckets l !! k) as [q|] eqn:Ek; [| done].
        unfold bucket_at. cbn. by rewrite lookup_app_l by by eapply rep_alloc. }
    split; [| split; [cbn; by rewrite lookup_insert_eq | apply Hb]].
    destruct R as [H1 H2 H3 H4 H5 H6]. split; try done; cbn.
    + intros k q. rewrite length_app. cbn. intros [[-> <-]|[Hne Hk]]%lookup_insert_Some; [lia |].
      specialize (H2 k q Hk). lia.
    + intros k1 k2 q [[-> <-]|[N1 K1]]%lookup_insert_Some [[-> E2]|[N2 K2]]%lookup_insert_Some; try done.
      * specialize (H2 _ _ K2). lia.
      * specialize (H2 _ _ K1). lia.
      * eauto.
    + intros k. rewrite Hb. apply H6.
Qed.

Lemma Rep_recent c T log l key now :
  Rep c T log l -> T <= t_nanos now ->
  recent c key now log = evict (Add now (- Window c)) (bucket_of key l).
Proof.
  intros R HT. destruct (rep_kept _ _ _ _ R key) as (gone & E & Hg).
  pose proof (rep_sorted _ _ _ _ R key) as Hs. rewrite recent_key_log, E in *.
  rewrite List.filter_app, evict_filter by by eapply StronglySorted_app_1_r.
  clear E Hs. induction Hg as [|t gone Ht Hg IH]; [done |]. cbn.
  rewrite (proj2 (Before_lt _ _)) by (cbn; lia). done.
Qed.

(** Replacing the timestamps of one bucket. *)
Lemma bucket_of_set key k p ts l T c log :
  Rep c T log l -> buckets l !! key = Some p ->
  bucket_of k (set_bucket p ts l) = if String.eqb key k then ts else bucket_of k l.
Proof.
  intros R Hp. unfold bucket_of, bucket_at. cbn.
  destruct (String.eqb_spec key k) as [<-|Hne].
  - rewrite Hp, list_lookup_insert_eq by by eapply rep_alloc. done.
  - destruct (buckets l !! k) as [q|] eqn:Ek; [| done].
    rewrite list_lookup_insert_ne; [done |]. intros ->. by apply Hne; eapply rep_inj.
Qed.

(** A bucket that forgets only what is out of the window, and the log that
    gains the same grants. *)
Lemma set_bucket_Rep c T log l key p now (grant : bool) :
  let ts := evict (Add now (- Window c)) (bucket_of key l) ++ (if grant then [now] else []) in
  Rep c T log l -> buckets l !! key = Some p -> T <= t_nanos now ->
  Rep c (t_nanos now) (log ++ (if grant then [(key, now)] else [])) (set_bucket p ts l).
Proof.
  intros ts R Hp HT. pose proof (bucket_of_set key) as Hb.
  destruct (Rep_later _ _ _ _ _ HT R) as [H1 H2 H3 H4 H5 H6].
  assert (forall k, key_log k (log ++ (if grant then [(key, now)] else []))
            = key_log k log ++ (if String.eqb key k then if grant then [now] else [] else [])) as Hk.
  { intros k. destruct grant; [apply key_log_snoc | by rewrite app_nil_r; destruct (String.eqb key k); rewrite app_nil_r]. }
  split; try done; cbn.
  - intros k q Hq. rewrite length_insert. eauto.
  - intros k. rewrite Hk. apply StronglySorted_app_2; [| apply H4 |].
    + intros x y Hx Hy. unfold t_le. specialize (H5 k x Hx).
      destruct (String.eqb key k), grant; set_solver.
    + destruct (String.eqb key k), grant; repeat constructor.
  - intros k t. rewrite Hk, elem_of_app. intros [Ht|Ht]; [by eapply H5 |].
    destruct (String.eqb key k), grant; set_solver.
  - intros k. rewrite Hk, (Hb k p ts l T c log R Hp). destruct (H6 k) as (gone & E & Hg).
    destruct (String.eqb_spec key k) as [<-|Hne]; [| exists gone; by rewrite app_nil_r].
    destruct (evict_split (Add now (- Window c)) (bucket_of key l)) as (g2 & E2 & Hg2).
    exists (gone ++ g2). split.
    + rewrite E, E2 at 1. unfold ts. by rewrite <- !app_assoc.
    + apply Forall_app. split; [done |]. eapply Forall_impl; [exact Hg2 |].
      intros t Ht%Before_lt. cbn in Ht. lia.
Qed.

(** One call of [Allow] is one call of the reference. *)
Lemma Allow_Rep c T log l key now :
  0 < RequestsPerWindow c -> Rep c T log l -> T <= t_nanos now ->
  let '(r, l') := Allow key now l in
  let '(rs, log') := spec_Allow c key (UTC now) log in
  r = Some rs /\ Rep c (t_nanos now) log' l'.
Proof.
  intros Hl R HT. unfold Allow. destruct (LoadOrStore key l) as [p l1] eqn:E.
  destruct (LoadOrStore_Rep _ _ _ _ _ _ _ R E) as (R1 & Hp & Hb). rewrite (rep_cfg _ _ _ _ R1).
  assert (bucket_at p l1 = bucket_of key l1) as -> by (unfold bucket_of; by rewrite Hp).
  unfold spec_Allow, bucket_allow. rewrite (Rep_recent c T log l1 key (UTC now)) by done.
  set (kept := evict _ _).
  assert (forall g, Rep c (t_nanos now) (log ++ (if g : bool then [(key, UTC now)] else []))
            (set_bucket p (kept ++ (if g then [UTC now] else [])) l1)) as RS
    by (intros g; by apply (set_bucket_Rep c T log l1 key p (UTC now) g)).
  destruct (Z.leb_spec (RequestsPerWindow c) (Z.of_nat (length kept))) as [Hf|Hf].
  - specialize (RS false). rewrite !app_nil_r in RS.
    destruct kept as [|t0 kept]; [cbn in Hf; lia | done].
  - split; [| apply (RS true)]. rewrite length_app. cbn.
    destruct kept as [|t0 kept]; cbn in *; do 2 f_equal; lia.
Qed.

Lemma StronglySorted_last_all (ts : list Time) t x :
  StronglySorted t_le ts -> last ts = Some t -> x ∈ ts -> t_nanos x <= t_nanos t.
Proof.
  intros Hs (l1 & ->)%last_Some Hx.
  apply elem_of_app in Hx as [Hx|Hx%list_elem_of_singleton]; [| by subst].
  exact (StronglySorted_app_1_elem_of _ _ _ _ t Hs Hx ltac:(by left)).
Qed.

(** Dropping a stale bucket forgets nothing that a later call would count. *)
Lemma purge_visit_Rep c T log l key :
  Rep c T log l ->
  Rep c T log (purge_visit (mkTime (T - Window c) 0) l key).
Proof.
  intros R. unfold purge_visit. destruct (buckets l !! key) as [p|] eqn:Hp; [| done].
  destruct (allStale _ _) eqn:Hst; [| done].
  destruct R as [H1 H2 H3 H4 H5 H6]. split; try done; cbn.
  - intros k q [_ Hk]%lookup_delete_Some. eauto.
  - intros k1 k2 q [_ K1]%lookup_delete_Some [_ K2]%lookup_delete_Some. eauto.
  - intros k. destruct (H6 k) as (gone & E & Hg). unfold bucket_of in *. cbn.
    destruct (decide (key = k)) as [<-|Hne]; [| rewrite lookup_delete_ne by done; eauto].
    rewrite lookup_delete_eq, Hp in *. exists (gone ++ bucket_at p l). rewrite app_nil_r. split; [done |].
    apply Forall_app. split; [done |]. unfold allStale in Hst. apply Forall_forall. intros t Ht.
    destruct (last (bucket_at p l)) as [u|] eqn:Hu.
    + apply Before_lt in Hst. cbn in Hst.
      pose proof (StronglySorted_last_all (bucket_at p l) u t
        (StronglySorted_app_1_r _ gone _ ltac:(rewrite <- E; apply H4)) Hu Ht). lia.
    + apply last_None in Hu. rewrite Hu in Ht. by apply not_elem_of_nil in Ht.
Qed.

Lemma purgeStale_Rep c T log l keys now :
  Rep c T log l -> T <= t_nanos now -> Rep c (t_nanos now) log (purgeStale keys now l).
Proof.
  intros R HT. apply (Rep_later _ _ _ _ _ HT) in R. unfold purgeStale. rewrite (rep_cfg _ _ _ _ R).
  change (Add (UTC now) (- Window c)) with (mkTime (t_nanos now - Window c) 0).
  revert l R. induction keys as [|k keys IH]; intros l R; [done |]. cbn. by apply IH, purge_visit_Rep.
Qed.

Lemma clock_monotone_cons now cl calls :
  clock_monotone ((now, cl) :: calls) ->
  clock_monotone calls /\ forall x, x ∈ calls -> t_nanos now <= t_nanos x.1.
Proof.
  unfold clock_monotone. cbn [fmap list_fmap fst]. intros Hs.
  apply (Sorted_StronglySorted t_le) in Hs. inversion Hs as [|? ? Hs' Hall]; subst. split.
  - by apply StronglySorted_Sorted.
  - intros x Hx. rewrite Forall_forall in Hall. apply Hall. apply list_elem_of_fmap. eauto.
Qed.

Lemma run_Rep c T log l calls :
  0 < RequestsPerWindow c -> Rep c T log l -> clock_monotone calls ->
  (forall x, x ∈ calls -> T <= t_nanos x.1) ->
  (run calls l).1 = (spec_run c calls log).1
  /\ exists T', Rep c T' (spec_run c calls log).2 (run calls l).2.
Proof.
  intros Hl. revert T log l. induction calls as [|[now cl] calls IH]; intros T log l R Hm HT; [eauto |].
  destruct (clock_monotone_cons _ _ _ Hm) as [Hm' HT'].
  specialize (HT (now, cl) ltac:(by left)) as Hn. cbn [fst] in Hn.
  destruct cl as [key|keys|]; cbn [run spec_run].
  - pose proof (Allow_Rep c T log l key now Hl R Hn) as A.
    destruct (Allow key now l) as [r l1], (spec_Allow c key (UTC now) log) as [rs log1].
    destruct A as [-> R1]. destruct (IH _ _ _ R1 Hm' HT') as [IH1 IH2].
    destruct (run calls l1), (spec_run c calls log1). cbn [fst snd] in *. by subst.
  - apply (IH (t_nanos now)); [| done | done]. unfold cleanup_tick.
    destruct (stopped l); [by eapply Rep_later | by eapply purgeStale_Rep].
  - apply (IH (t_nanos now)); [| done | done]. eapply Rep_later; [exact Hn |].
    destruct R as [H1 H2 H3 H4 H5 H6]. by split.
Qed.

Lemma NewInMemory_Rep c T : Rep (cfg (NewInMemory c)) T [] (NewInMemory c).
Proof. split; try done; [intros; constructor | set_solver | by exists []]. Qed.

Lemma NewInMemory_limit c : 0 < RequestsPerWindow (cfg (NewInMemory c)).
Proof. cbn. case_match; lia. Qed.

Lemma run_exact c calls :
  clock_monotone calls ->
  (run calls (NewInMemory c)).1 = (spec_run (cfg (NewInMemory c)) calls []).1.
Proof.
  intros Hm. destruct calls as [|[now cl] calls]; [done |].
  apply (run_Rep _ (t_nanos now)); [apply NewInMemory_limit | apply NewInMemory_Rep | done |].
  destruct (clock_monotone_cons _ _ _ Hm) as [_ HT]. intros x [->|Hx]%elem_of_cons; [done | by apply HT].
Qed.

(** *** The bound *)

(** The requests a run granted. *)
Fixpoint granted (calls : list (Time * call)) (rs : list (option Result)) : list (string * Time) :=
  match calls, rs with
  | (now, CAllow key) :: cs, r :: rs' =>
      (match r with Some r => if r_Allowed r then [(key, now)] else [] | None => [] end) ++ granted cs rs'
  | (_, CAllow _) :: _, [] => []
  | _ :: cs, _ => granted cs rs
  | [], _ => []
  end.

(** How many of them fall between [t] and [t + window], both included. *)
Definition in_window (key : string) (t window : Z) (g : string * Time) : bool :=
  String.eqb g.1 key && (t <=? t_nanos g.2) && (t_nanos g.2 <=? t + window).
Definition count_window (key : string) (t window : Z) (log : list (string * Time)) : Z :=
  Z.of_nat (length (List.filter (in_window key t window) log)).

Lemma count_window_app key t w l1 l2 :
  count_window key t w (l1 ++ l2) = count_window key t w l1 + count_window key t w l2.
Proof. unfold count_window. rewrite List.filter_app, length_app. lia. Qed.

Lemma filter_length_le {A} (p q : A -> bool) (l : list A) :
  (forall x, p x = true -> q x = true) -> (length (List.filter p l) <= length (List.filter q l))%nat.
Proof.
  intros Hpq. induction l as [|x l IH]; [done |]. cbn. specialize (Hpq x).
  destruct (p x); [rewrite Hpq by done; cbn; lia |]. destruct (q x); cbn; lia.
Qed.

Lemma spec_Allow_window c key now log k t :
  (forall k t, count_window k t (Window c) log <= RequestsPerWindow c) ->
  count_window k t (Window c) (spec_Allow c key now log).2 <= RequestsPerWindow c.
Proof.
  intros Hb. unfold spec_Allow. case_match eqn:Hf; [apply Hb |]. cbn [snd].
  apply Z.leb_gt in Hf. rewrite count_window_app.
  destruct (in_window k t (Window c) (key, now)) eqn:Hw.
  - assert (count_window k t (Window c) log <= Z.of_nat (length (recent c key now log))) as Hle.
    { unfold count_window, recent. rewrite length_map. apply Nat2Z.inj_le, filter_length_le.
      unfold in_window, Before in *. intros [gk gt]. cbn [fst snd Add t_nanos] in *. intros Hg.
      destruct (String.eqb_spec key k) as [->|]; [| done].
      destruct (String.eqb_spec gk k) as [->|]; [| done]. cbn [andb] in *.
      apply andb_prop in Hg as [G1 G2], Hw as [W1 W2]. apply negb_true_iff, Z.ltb_ge. lia. }
    unfold count_window at 2. cbn [List.filter]. rewrite Hw. cbn. lia.
  - unfold count_window at 2. cbn [List.filter]. rewrite Hw. cbn. specialize (Hb k t). lia.
Qed.

Lemma granted_spec c calls log :
  map (fun g => (g.1, UTC g.2)) (granted calls (spec_run c calls log).1)
  = skipn (length log) (spec_run c calls log).2
  /\ firstn (length log) (spec_run c calls log).2 = log.
Proof.
  revert log. induction calls as [|[now cl] calls IH]; intros log.
  - cbn. by rewrite skipn_all, firstn_all.
  - destruct cl as [key| |]; cbn [spec_run]; [| apply IH | apply IH].
    unfold spec_Allow. destruct (RequestsPerWindow c <=? Z.of_nat (length (recent c key (UTC now) log))).
    + specialize (IH log). destruct (spec_run c calls log) as [rs log2]. cbn in *. exact IH.
    + specialize (IH (log ++ [(key, UTC now)])).
      destruct (spec_run c calls (log ++ [(key, UTC now)])) as [rs log2]. cbn [fst snd granted r_Allowed] in *.
      rewrite length_app in IH. cbn [length] in IH. destruct IH as [IH1 IH2].
      cbn [app map fst snd]. rewrite IH1.
      assert (log2 = (log ++ [(key, UTC now)]) ++ skipn (length log + 1) log2) as E
        by (rewrite <- IH2 at 1; symmetry; apply firstn_skipn).
      split.
      * rewrite E at 2. rewrite <- app_assoc, skipn_app, skipn_all, Nat.sub_diag. done.
      * rewrite E, <- app_assoc, firstn_app, firstn_all, Nat.sub_diag. cbn. by rewrite app_nil_r.
Qed.

Lemma spec_run_window c calls log k t :
  (forall k t, count_window k t (Window c) log <= RequestsPerWindow c) ->
  count_window k t (Window c) (spec_run c calls log).2 <= RequestsPerWindow c.
Proof.
  revert log. induction calls as [|[now cl] calls IH]; intros log Hb; [apply Hb |].
  destruct cl as [key| |]; cbn [spec_run]; [| by apply IH | by apply IH].
  pose proof (fun k t => spec_Allow_window c key (UTC now) log k t Hb) as Hb'.
  destruct (spec_Allow c key (UTC now) log) as [r log1]. cbn [snd] in Hb'.
  specialize (IH log1 Hb'). by destruct (spec_run c calls log1).
Qed.

Lemma count_window_UTC k t w log :
  count_window k t w (map (fun g => (g.1, UTC g.2)) log) = count_window k t w log.
Proof.
  unfold count_window. f_equal. induction log as [|g log IH]; [done |]. cbn [map List.filter].
  change (in_window k t w (g.1, UTC g.2)) with (in_window k t w g).
  destruct (in_window k t w g); cbn [length]; by rewrite IH.
Qed.

(** ** Goroutines

    The same code cut where other goroutines can run: an [Allow] reads the
    clock, loads its bucket, and enters the critical section; the purge tests
    one bucket at a time under its lock and deletes the key afterwards. *)

Inductive pc :=
  | AtLoad (key : string) (now : Time)
  | AtLock (key : string) (now : Time) (p : nat)
  | Done (key : string) (now : Time) (r : option Result)
  | InRange (cutoff : Time)
  | AtDelete (cutoff : Time) (key : string).

Record sys := mkSys {
  s_lim : inMemoryLimiter;
  s_clock : Time;
  s_threads : list pc;
}.

(** A new goroutine, a goroutine that moves on, or time that passes.  A purge
    finds the keys of the map in any order. *)
Inductive action :=
  | GoAllow (key : string)
  | GoPurge
  | Go (i : nat)
  | GoVisit (i : nat) (key : string)
  | Pass (d : N).

Definition step (a : action) (s : sys) : option sys :=
  let spawn t := Some (mkSys (s_lim s) (s_clock s) (s_threads s ++ [t])) in
  let go i l t := Some (mkSys l (s_clock s) (<[i := t]> (s_threads s))) in
  match a with
  | GoAllow key => spawn (AtLoad key (UTC (s_clock s)))
  | GoPurge => if stopped (s_lim s) then None
               else spawn (InRange (Add (UTC (s_clock s)) (- Window (cfg (s_lim s)))))
  | Pass d => Some (mkSys (s_lim s) (Add (s_clock s) (Z.of_N d)) (s_threads s))
  | Go i =>
      match s_threads s !! i with
      | Some (AtLoad key now) => let (p, l) := LoadOrStore key (s_lim s) in go i l (AtLock key now p)
      | Some (AtLock key now p) =>
          match bucket_allow (cfg (s_lim s)) now (bucket_at p (s_lim s)) with
          | Some (r, ts) => go i (set_bucket p ts (s_lim s)) (Done key now (Some r))
          | None => go i (s_lim s) (Done key now None)
          end
      | Some (AtDelete cutoff key) => go i (Delete key (s_lim s)) (InRange cutoff)
      | _ => None
      end
  | GoVisit i key =>
      match s_threads s !! i, buckets (s_lim s) !! key with
      | Some (InRange cutoff), Some p =>
          go i (s_lim s) (if allStale cutoff (bucket_at p (s_lim s)) then AtDelete cutoff key else InRange cutoff)
      | _, _ => None
      end
  end.

Inductive reachable (s0 : sys) : sys -> Prop :=
  | reach_refl : reachable s0 s0
  | reach_step a s s' : reachable s0 s -> step a s = Some s' -> reachable s0 s'.

Fixpoint exec (acts : list action) (s : sys) : option sys :=
  match acts with [] => Some s | a :: acts' => s' ← step a s; exec acts' s' end.

Lemma exec_reachable acts s0 s s' : reachable s0 s -> exec acts s = Some s' -> reachable s0 s'.
Proof.
  revert s. induction acts as [|a acts IH]; intros s Hr E; cbn in E; [by simplify_eq |].
  destruct (step a s) as [s1|] eqn:E1; [| done]. eapply IH; [| exact E]. by eapply reach_step.
Qed.

(** A result that the middleware can use. *)
Definition good_result (c : InMemoryConfig) (r : Result) : Prop :=
  r_Limit r = RequestsPerWindow c /\ 0 <= r_Remaining r < RequestsPerWindow c
  /\ (r_Allowed r = false -> r_Remaining r = 0).

Definition good_pc (c : InMemoryConfig) (l : inMemoryLimiter) (t : pc) : Prop :=
  match t with
  | AtLock _ _ p => (p < length (heap l))%nat
  | Done _ _ r => exists r', r = Some r' /\ good_result c r'
  | _ => True
  end.

Record Good (c : InMemoryConfig) (l : inMemoryLimiter) : Prop := {
  good_cfg : cfg l = c;
  good_limit : 0 < RequestsPerWindow c;
  good_alloc : forall k p, buckets l !! k = Some p -> (p < length (heap l))%nat;
  good_bound : Forall (fun ts => Z.of_nat (length ts) <= RequestsPerWindow c) (heap l);
}.

Lemma evict_length ws ts : (length (evict ws ts) <= length ts)%nat.
Proof. induction ts as [|t ts IH]; [done |]. cbn. case_match; cbn; lia. Qed.

Lemma bucket_allow_good c now ts :
  0 < RequestsPerWindow c -> Z.of_nat (length ts) <= RequestsPerWindow c ->
  exists r ts', bucket_allow c now ts = Some (r, ts') /\ good_result c r
    /\ Z.of_nat (length ts') <= RequestsPerWindow c.
Proof.
  intros Hl Hb. unfold bucket_allow. set (kept := evict _ ts).
  pose proof (evict_length (Add now (- Window c)) ts) as He. fold kept in He.
  destruct (Z.leb_spec (RequestsPerWindow c) (Z.of_nat (length kept))) as [Hf|Hf].
  - destruct kept as [|t0 kept]; [cbn in Hf; lia |]. eexists _, _. split; [done |]. split; [split; cbn; lia | lia].
  - eexists _, _. split; [done |]. unfold good_result. cbn [r_Limit r_Remaining r_Allowed].
    rewrite length_app. cbn [length]. split; [split; [done | split; [lia | done]] | lia].
Qed.

Lemma bucket_at_bound c l p : Good c l -> Z.of_nat (length (bucket_at p l)) <= RequestsPerWindow c.
Proof.
  intros G. unfold bucket_at. destruct (heap l !! p) as [ts|] eqn:E; cbn.
  - exact (Forall_lookup_1 _ _ _ _ (good_bound _ _ G) E).
  - pose proof (good_limit _ _ G). lia.
Qed.

Lemma LoadOrStore_Good c l key p l' :
  Good c l -> LoadOrStore key l = (p, l') ->
  Good c l' /\ (p < length (heap l'))%nat /\ (length (heap l) <= length (heap l'))%nat.
Proof.
  intros [H1 H2 H3 H4]. unfold LoadOrStore. destruct (buckets l !! key) as [q|] eqn:E; intros [= <- <-].
  - repeat split; eauto.
  - cbn. rewrite length_app. cbn. repeat split; cbn; try done; [| | lia | lia].
    + intros k q. rewrite length_app. cbn. intros [[-> <-]|[_ Hk]]%lookup_insert_Some; [lia |].
      specialize (H3 k q Hk). lia.
    + apply Forall_app. split; [done |]. repeat constructor. cbn. lia.
Qed.

Lemma set_bucket_Good c l p ts :
  Good c l -> Z.of_nat (length ts) <= RequestsPerWindow c -> Good c (set_bucket p ts l).
Proof.
  intros [H1 H2 H3 H4] Hb. split; try done; cbn.
  - intros k q Hk. rewrite length_insert. eauto.
  - by apply Forall_insert.
Qed.

Lemma Delete_Good c l key : Good c l -> Good c (Delete key l).
Proof. intros [H1 H2 H3 H4]. split; try done; cbn. intros k q [_ Hk]%lookup_delete_Some. eauto. Qed.

Lemma Allow_Good c l key now :
  Good c l -> exists r, (Allow key now l).1 = Some r /\ good_result c r /\ Good c (Allow key now l).2.
Proof.
  intros G. unfold Allow. destruct (LoadOrStore key l) as [p l1] eqn:E.
  destruct (LoadOrStore_Good _ _ _ _ _ G E) as (G1 & Hp & _). rewrite (good_cfg _ _ G1).
  destruct (bucket_allow_good c (UTC now) (bucket_at p l1) (good_limit _ _ G) (bucket_at_bound _ _ p G1))
    as (r & ts & -> & Hr & Hts). exists r. split; [done |]. split; [done |]. by apply set_bucket_Good.
Qed.

(** The in-memory limiter keeps the contract. *)
#[export] Instance InMemoryLimiter : Limiter inMemoryLimiter.
Proof.
  refine {| lim_Allow := Allow; lim_ok l := Good (cfg l) l |}.
  - intros key now l G. destruct (Allow_Good _ _ key now G) as (r & _ & _ & G').
    by rewrite (good_cfg _ _ G').
  - intros key now l G. destruct (Allow_Good _ _ key now G) as (r & E & (Hl & Hr & Hf) & _).
    exists r. split; [done |]. intros Ha. pose proof (good_limit _ _ G). rewrite Hl. auto.
Defined.

Definition Good_sys (c : InMemoryConfig) (s : sys) : Prop :=
  Good c (s_lim s) /\ Forall (good_pc c (s_lim s)) (s_threads s).

Lemma good_pc_grow c l l' t : (length (heap l) <= length (heap l'))%nat -> good_pc c l t -> good_pc c l' t.
Proof. destruct t; cbn; [done | lia | done | done | done]. Qed.

(** A goroutine that moves keeps the others good when the heap only grows. *)
Lemma Good_sys_go c s l i t :
  Good_sys c s -> Good c l -> (length (heap (s_lim s)) <= length (heap l))%nat -> good_pc c l t ->
  Good_sys c (mkSys l (s_clock s) (<[i := t]> (s_threads s))).
Proof.
  intros [_ Ht] G Hh Hp. split; [done |]. apply Forall_insert; [| done].
  eapply Forall_impl; [exact Ht |]. intros t'. by apply good_pc_grow.
Qed.

Lemma Good_sys_spawn c s t :
  Good_sys c s -> good_pc c (s_lim s) t -> Good_sys c (mkSys (s_lim s) (s_clock s) (s_threads s ++ [t])).
Proof. intros [G Ht] Hp. split; [done |]. apply Forall_app. by repeat constructor. Qed.

Lemma step_Good c a s s' : Good_sys c s -> step a s = Some s' -> Good_sys c s'.
Proof.
  intros G E. destruct G as [Gl Gt] eqn:EG. clear EG. destruct a as [key| |i|i key|d]; cbn in E.
  - simplify_eq. by apply Good_sys_spawn.
  - case_match; simplify_eq. by apply Good_sys_spawn.
  - destruct (s_threads s !! i) as [[key now|key now p| | |cutoff key]|] eqn:Hi; try done.
    + destruct (LoadOrStore key (s_lim s)) as [p l] eqn:El. simplify_eq.
      destruct (LoadOrStore_Good _ _ _ _ _ Gl El) as (G1 & Hp & Hh). by apply Good_sys_go.
    + rewrite (good_cfg _ _ Gl) in E.
      destruct (bucket_allow_good c now _ (good_limit _ _ Gl) (bucket_at_bound _ _ p Gl)) as (r & ts & Eb & Hr & Hts).
      rewrite Eb in E. simplify_eq. apply Good_sys_go; [done | by apply set_bucket_Good | | by eexists].
      cbn. by rewrite length_insert.
    + simplify_eq. apply Good_sys_go; [done | by apply Delete_Good | done | done].
  - repeat case_match; simplify_eq; by apply Good_sys_go.
  - simplify_eq. by split.
Qed.

Lemma NewInMemory_Good c : Good (cfg (NewInMemory c)) (NewInMemory c).
Proof. split; try done; apply NewInMemory_limit. Qed.

(** The grants of the finished goroutines. *)
Definition sys_granted (s : sys) : list (string * Time) :=
  omap (fun t => match t with
                 | Done key now (Some r) => if r_Allowed r then Some (key, now) else None
                 | _ => None
                 end) (s_threads s).

(** C39: Called one at a time with a clock that does not go back, the in-memory
    limiter answers like the log of everything it ever granted: a request is
    refused exactly when its own key was granted the full limit of requests in
    the window that ends now, and the remaining count and the reset time are
    those of that window.  Evicting old timestamps, purging stale buckets in any
    order and closing the limiter change no answer, and no call panics. *)
Theorem limiter_exact c calls :
  clock_monotone calls ->
  (run calls (NewInMemory c)).1 = (spec_run (cfg (NewInMemory c)) calls []).1.
Proof. apply run_exact. Qed.

(** Two requests a minute: the third is refused, the purge and the other key
    change nothing, and after the window it is granted again. *)
Lemma limiter_exact_witness :
  let at_ s := mkTime (s * Second) 0 in
  let calls := [(at_ 0, CAllow "a"); (at_ 10, CAllow "a"); (at_ 20, CAllow "a"); (at_ 20, CTick ["a"; "b"]);
                (at_ 20, CAllow "b"); (at_ 61, CAllow "a")] in
  clock_monotone calls
  /\ (run calls (NewInMemory (mkInMemoryConfig 2 0))).1
     = (spec_run (mkInMemoryConfig 2 Minute) calls []).1
  /\ map (option_map r_Allowed) (run calls (NewInMemory (mkInMemoryConfig 2 0))).1
     = [Some true; Some true; Some false; Some true; Some true].
Proof.
  intros at_ calls.
  assert (clock_monotone calls) as Hm by (repeat constructor; vm_compute; congruence).
  split; [exact Hm |]. split; [exact (limiter_exact (mkInMemoryConfig 2 0) calls Hm) | by vm_compute].
Defined.

(** In such a run no key is granted more than the limit of requests in any
    interval of the length of the window, wherever the interval starts. *)
Theorem limiter_window c calls key t :
  clock_monotone calls ->
  let conf := cfg (NewInMemory c) in
  count_window key t (Window conf) (granted calls (run calls (NewInMemory c)).1)
  <= RequestsPerWindow conf.
Proof.
  intros Hm conf. rewrite (run_exact c calls Hm), <- count_window_UTC.
  rewrite (proj1 (granted_spec (cfg (NewInMemory c)) calls [])). cbn [length skipn].
  apply spec_run_window. intros k u. apply Z.lt_le_incl, NewInMemory_limit.
Qed.

Lemma limiter_window_witness :
  let at_ s := mkTime (s * Second) 0 in
  let calls := [(at_ 0, CAllow "a"); (at_ 0, CAllow "a"); (at_ 60, CAllow "a"); (at_ 61, CAllow "a")] in
  clock_monotone calls
  /\ count_window "a" 0 Minute (granted calls (run calls (NewInMemory (mkInMemoryConfig 2 0))).1) <= 2.
Proof.
  intros at_ calls.
  assert (clock_monotone calls) as Hm by (repeat constructor; vm_compute; congruence).
  split; [exact Hm | exact (limiter_window (mkInMemoryConfig 2 0) calls "a" 0 Hm)].
Defined.

(** However the goroutines interleave, no [Allow] panics, no bucket ever
    holds more timestamps than the limit, and every answer has the limit and a
    remaining count below it.  The bound on the window itself needs calls that
    do not overlap with the purge: the purge tests a bucket and deletes its key
    later, so a request recorded in between is forgotten, and with a limit of
    one two requests at the same instant are granted. *)
Theorem limiter_interleaved :
  (forall c t0 s, reachable (mkSys (NewInMemory c) t0 []) s ->
    Forall (fun ts => Z.of_nat (length ts) <= RequestsPerWindow (cfg (NewInMemory c))) (heap (s_lim s))
    /\ forall key now r, Done key now r ∈ s_threads s ->
         exists r', r = Some r' /\ good_result (cfg (NewInMemory c)) r')
  /\ (exists t0 s, reachable (mkSys (NewInMemory (mkInMemoryConfig 1 Minute)) t0 []) s
       /\ sys_granted s = [("k", t0); ("k", Add t0 (2 * Minute)); ("k", Add t0 (2 * Minute))]).
Proof.
  split.
  - intros c t0 s Hr.
    assert (Good_sys (cfg (NewInMemory c)) s) as [G Ht].
    { induction Hr as [|a s s' Hr IH E]; [split; [apply NewInMemory_Good | constructor] |].
      by eapply step_Good. }
    split; [by eapply good_bound |]. intros key now r Hin.
    by apply (proj1 (Forall_forall _ _) Ht) in Hin.
  - set (t0 := mkTime 0 0).
    set (acts := [GoAllow "k"; Go 0; Go 0; Pass (Z.to_N (2 * Minute)); GoPurge; GoVisit 1 "k";
                  GoAllow "k"; Go 2; Go 2; Go 1; GoAllow "k"; Go 3; Go 3]).
    set (o := exec acts (mkSys (NewInMemory (mkInMemoryConfig 1 Minute)) t0 [])).
    destruct o as [s|] eqn:E; [| by vm_compute in E].
    exists t0, s. split; [exact (exec_reachable acts _ _ s (reach_refl _) E) |].
    vm_compute in E. injection E as <-. by vm_compute.
Qed.
