(* ===== verification/Quantity.v ===== *)
(** * Quantities

    [pkg/sdk/quantity.go] (re-exported by [domain/shared/quantity.go]): an
    amount with the code of its unit. *)

From S2P Require Import Prelude GoStrings GoFloat.
#[local] Open Scope string_scope.
#[local] Open Scope list_scope.
#[local] Open Scope Z_scope.

Record Quantity := mkQuantity { value : float64; unitCode : string }.

Section Ops.
  Context `{UnicodeTables}.

Definition NewQuantity (v : float64) (unit : string) : res Quantity :=
  let code := TrimSpace (ToUpper unit) in
  if String.eqb code "" then Err (Errorf ErrInvalidInput "unit code cannot be empty")
  else Ok (mkQuantity v code).

Definition MustNewQuantity (v : float64) (unit : string) : res Quantity :=
  match NewQuantity v unit with Err e => Panic e | r => r end.
End Ops.

Definition IsZero (q : Quantity) : bool := flt (fabs (value q)) f_1em9.
Definition IsPositive (q : Quantity) : bool := fgt (value q) f_1em9.
Definition IsNegative (q : Quantity) : bool := flt (value q) f_m1em9.

Definition Equals (q other : Quantity) : bool :=
  if negb (String.eqb (unitCode q) (unitCode other)) then false
  else flt (fabs (fsub (value q) (value other))) f_1em9.

Definition Add (q other : Quantity) : res Quantity :=
  if negb (String.eqb (unitCode q) (unitCode other))
  then Err (Errorf ErrUnitMismatch ("cannot add " +:+ unitCode q +:+ " and " +:+ unitCode other))
  else Ok (mkQuantity (fadd (value q) (value other)) (unitCode q)).

Definition Subtract (q other : Quantity) : res Quantity :=
  if negb (String.eqb (unitCode q) (unitCode other))
  then Err (Errorf ErrUnitMismatch ("cannot subtract " +:+ unitCode q +:+ " and " +:+ unitCode other))
  else Ok (mkQuantity (fsub (value q) (value other)) (unitCode q)).

Definition Multiply (q : Quantity) (factor : float64) : Quantity :=
  mkQuantity (fmul (value q) factor) (unitCode q).

Definition Divide (q : Quantity) (divisor : float64) : res Quantity :=
  if flt (fabs divisor) f_1em9 then Err (ESentinel ErrDivisionByZero)
  else Ok (mkQuantity (fdiv (value q) divisor) (unitCode q)).

(** Sums are only defined within a unit, and then keep it. *)
Lemma Add_unit q other r :
  Add q other = Ok r -> unitCode q = unitCode other /\ unitCode r = unitCode q.
Proof.
  unfold Add. destruct (String.eqb_spec (unitCode q) (unitCode other)); [| done]. by intros [= <-].
Qed.

Lemma Subtract_unit q other r :
  Subtract q other = Ok r -> unitCode q = unitCode other /\ unitCode r = unitCode q.
Proof.
  unfold Subtract. destruct (String.eqb_spec (unitCode q) (unitCode other)); [| done]. by intros [= <-].
Qed.

(** ** JSON *)

(** [encoding/json] on the two fields of a quantity; infinities and NaN cannot be
    encoded. *)
Class JsonQuantity := {
  json_Marshal_quantity : float64 -> string -> res string;
  json_Unmarshal_quantity : string -> res (float64 * string);
}.

Section Json.
  Context `{UnicodeTables, JsonQuantity}.

Definition Quantity_MarshalJSON (q : Quantity) : res string := json_Marshal_quantity (value q) (unitCode q).

Definition Quantity_UnmarshalJSON (data : string) : res Quantity :=
  match json_Unmarshal_quantity data with
  | Ok (v, code) => NewQuantity v code
  | Err e => Err e
  | Panic e => Panic e
  end.

(** What was encoded decodes to the same quantity, if it was made from an ASCII code
    and the codec reads its own fields; and nothing decodes to a quantity without a
    unit, whatever the codec does. *)
Lemma quantity_json v code q data :
  (forall v' c' d, json_Marshal_quantity v' c' = Ok d -> json_Unmarshal_quantity d = Ok (v', c')) ->
  is_ascii code = true -> NewQuantity v code = Ok q -> Quantity_MarshalJSON q = Ok data -> Quantity_UnmarshalJSON data = Ok q.
Proof.
  intros Hj Hc Hq Hd. unfold NewQuantity in Hq. destruct (String.eqb_spec (TrimSpace (ToUpper code)) "") as [|Hne]; [done |]. injection Hq as <-.
  unfold Quantity_UnmarshalJSON. rewrite (Hj _ _ _ Hd). unfold NewQuantity. cbn [value unitCode].
  rewrite ToUpper_TrimSpace_idemp by done. by rewrite (proj2 (String.eqb_neq _ _) Hne).
Qed.

Lemma unmarshalled_unit data q : Quantity_UnmarshalJSON data = Ok q -> unitCode q <> "".
Proof.
  unfold Quantity_UnmarshalJSON, NewQuantity. destruct (json_Unmarshal_quantity data) as [[v c]|e|e]; [| done | done].
  destruct (String.eqb_spec (TrimSpace (ToUpper c)) ""); [done |]. by intros [= <-].
Qed.
End Json.
