(* ===== verification/Units.v ===== *)
(** * Unit conversion

    [domain/product/unit.go]: the breadth-first search of [Convert] over the
    graph of conversions, with its loop bounded by fuel that the theorems show
    to be enough. *)

From S2P Require Import Prelude GoStrings GoTime GoFloat Sdk.
#[local] Open Scope string_scope.
#[local] Open Scope list_scope.
#[local] Open Scope Z_scope.

(** ** Units of measure *)

(** [product.Unit]. *)
Record Unit := mkUnit {
  unit_ID : ID;
  unit_TenantID : ID;
  unit_Code : string;
  unit_Name : string;
  unit_Symbol : string;
  unit_Category : string;
  unit_Precision : Z;
  unit_Status : string;
  unit_CreatedAt : Time;
  unit_UpdatedAt : Time;
}.

Definition UnitStatusActive : string := "active".
Definition UnitStatusInactive : string := "inactive".

Record UnitConversion := mkUnitConversion {
  uc_ID : ID;
  uc_TenantID : ID;
  FromUnitID : ID;
  ToUnitID : ID;
  Factor : float64;
  FromCode : string;
  ToCode : string;
  uc_CreatedAt : Time;
  uc_UpdatedAt : Time;
}.

Definition NormalizeCode `{UnicodeTables} (code : string) : string := ToUpper (TrimSpace code).

(** ** [Convert] *)

Record edge := mkEdge { e_to : ID; e_factor : float64 }.

(** [math.Abs(c.Factor) < 1e-9]: skipped. *)
Definition negligible (c : UnitConversion) : bool := flt (fabs (Factor c)) f_1em9.

Definition append_edge (from : ID) (e : edge) (adj : gmap ID (list edge)) : gmap ID (list edge) :=
  <[from := default [] (adj !! from) ++ [e]]> adj.

Definition add_conversion (adj : gmap ID (list edge)) (c : UnitConversion) : gmap ID (list edge) :=
  if negligible c then adj
  else append_edge (ToUnitID c) (mkEdge (FromUnitID c) (fdiv f1 (Factor c)))
         (append_edge (FromUnitID c) (mkEdge (ToUnitID c) (Factor c)) adj).

Definition build_adj (conversions : list UnitConversion) : gmap ID (list edge) :=
  fold_left add_conversion conversions ∅.

(** The queue items and the set of visited units. *)
Abbreviation queue := (list (ID * float64)).

Definition visit (factor : float64) (qv : queue * gset ID) (e : edge) : queue * gset ID :=
  let '(q, visited) := qv in
  if decide (e_to e ∈ visited) then qv
  else (q ++ [(e_to e, fmul factor (e_factor e))], {[e_to e]} ∪ visited).

(** The loop: [Some (Some f)] when the target is found with factor [f],
    [Some None] when the queue is empty, [None] when the fuel is used up. *)
Fixpoint search (fuel : nat) (adj : gmap ID (list edge)) (toID : ID) (q : queue) (visited : gset ID) :
    option (option float64) :=
  match fuel with
  | O => None
  | S fuel' =>
      match q with
      | [] => Some None
      | (node, factor) :: q' =>
          if decide (node = toID) then Some (Some factor)
          else let '(q1, visited1) := fold_left (visit factor) (default [] (adj !! node)) (q', visited) in
               search fuel' adj toID q1 visited1
      end
  end.

(** Every unit enters the queue at most once. *)
Definition search_fuel (conversions : list UnitConversion) : nat := 2 * length conversions + 2.

(** [None] would be a loop that does not end; it does not occur. *)
Definition Convert (amount : float64) (fromID toID : ID) (conversions : list UnitConversion) : option (res float64) :=
  if decide (fromID = toID) then Some (Ok amount)
  else match search (search_fuel conversions) (build_adj conversions) toID [(fromID, f1)] {[fromID]} with
       | Some (Some factor) => Some (Ok (fmul amount factor))
       | Some None => Some (Err (Errorf ErrUnitMismatch "no conversion factor found between units"))
       | None => None
       end.

(** ** Reference: chains of conversions *)

(** One use of a conversion, forwards or backwards. *)
Inductive uses (cs : list UnitConversion) : ID -> edge -> Prop :=
  | uses_direct c : c ∈ cs -> negligible c = false -> uses cs (FromUnitID c) (mkEdge (ToUnitID c) (Factor c))
  | uses_inverse c : c ∈ cs -> negligible c = false ->
      uses cs (ToUnitID c) (mkEdge (FromUnitID c) (fdiv f1 (Factor c))).

(** A chain of uses from one unit to another, last use first. *)
Inductive chain (cs : list UnitConversion) (from : ID) : list edge -> ID -> Prop :=
  | chain_nil : chain cs from [] from
  | chain_snoc es n e : chain cs from es n -> uses cs n e -> chain cs from (e :: es) (e_to e).

(** The factor of a chain, multiplied in the order of the chain. *)
Fixpoint chain_factor (es : list edge) : float64 :=
  match es with [] => f1 | e :: es' => fmul (chain_factor es') (e_factor e) end.

(** ** The adjacency lists *)

Lemma elem_of_append_edge from e adj n x :
  x ∈ default [] (append_edge from e adj !! n) <-> x ∈ default [] (adj !! n) \/ n = from /\ x = e.
Proof.
  unfold append_edge. destruct (decide (from = n)) as [->|Hne].
  - rewrite lookup_insert_eq. cbn. rewrite elem_of_app, list_elem_of_singleton. naive_solver.
  - rewrite lookup_insert_ne by done. naive_solver.
Qed.

Lemma uses_snoc cs c n e :
  uses (cs ++ [c]) n e <-> uses cs n e \/ (negligible c = false /\
    (n = FromUnitID c /\ e = mkEdge (ToUnitID c) (Factor c)
     \/ n = ToUnitID c /\ e = mkEdge (FromUnitID c) (fdiv f1 (Factor c)))).
Proof.
  split.
  - destruct 1 as [c' Hc Hn|c' Hc Hn]; apply elem_of_app in Hc as [Hc|Hc%list_elem_of_singleton]; subst;
      eauto using uses_direct, uses_inverse; right; auto.
  - intros [[c' Hc Hn|c' Hc Hn]|[Hn [[-> ->]|[-> ->]]]]; constructor; set_solver.
Qed.

Lemma build_adj_uses cs n e : e ∈ default [] (build_adj cs !! n) <-> uses cs n e.
Proof.
  revert n e. induction cs as [|c cs IH] using rev_ind; intros n e.
  - unfold build_adj. cbn. rewrite lookup_empty. cbn.
    split; [by intros ?%not_elem_of_nil | intros [c Hc|c Hc]; by apply not_elem_of_nil in Hc].
  - unfold build_adj. rewrite fold_left_app. cbn [fold_left]. fold (build_adj cs).
    rewrite uses_snoc, <- IH. unfold add_conversion. destruct (negligible c).
    + naive_solver.
    + rewrite !elem_of_append_edge. naive_solver.
Qed.

(** ** Breadth-first search *)

Section Search.
  Context (cs : list UnitConversion) (from toID : ID).

(** [n] is reached by a chain with factor [f] and [k] uses, and by none
    shorter. *)
Definition at_distance (k : nat) (i : ID * float64) : Prop :=
  (exists es, chain cs from es i.1 /\ length es = k /\ i.2 = chain_factor es)
  /\ forall es, chain cs from es i.1 -> (k <= length es)%nat.

Definition expanded (q : queue) (visited : gset ID) (n : ID) : Prop :=
  n ∈ visited /\ n ∉ q.*1.

(** The queue holds units at distance [k], then units at distance [k + 1]. *)
Record Layer (k : nat) (now next : queue) (visited : gset ID) : Prop := {
  lay_now : Forall (at_distance k) now;
  lay_next : Forall (at_distance (S k)) next;
  lay_near : forall es n, chain cs from es n -> (length es <= k)%nat -> n ∈ visited;
  lay_done : forall n, expanded (now ++ next) visited n ->
    n <> toID /\ forall e, uses cs n e -> e_to e ∈ visited;
  lay_reach : forall n, n ∈ visited -> exists es, chain cs from es n;
}.

Lemma Layer_advance k next visited : Layer k [] next visited -> Layer (S k) next [] visited.
Proof.
  intros [H1 H2 H3 H4 H5]. split; [done | constructor | | rewrite app_nil_r; exact H4 | done].
  intros es n Hc Hl. destruct (decide (length es <= k)%nat) as [|Hgt]; [eauto |].
  destruct Hc as [|es n e Hc Hu]; [cbn in Hgt; lia |]. cbn in *.
  apply (H4 n); [| done]. split; [by apply (H3 es); [| lia] |].
  intros ([m f] & -> & Hin)%list_elem_of_fmap. rewrite Forall_forall in H2.
  destruct (H2 _ Hin) as [_ Hmin]. specialize (Hmin es Hc). lia.
Qed.

(** Visiting one edge of a unit at distance [k]. *)
Lemma visit_spec factor k es n next visited e next' visited' :
  chain cs from es n -> length es = k -> factor = chain_factor es ->
  uses cs n e ->
  (forall es n, chain cs from es n -> (length es <= k)%nat -> n ∈ visited) ->
  Forall (at_distance (S k)) next ->
  visit factor (next, visited) e = (next', visited') ->
  Forall (at_distance (S k)) next' /\ visited ⊆ visited' /\ e_to e ∈ visited'
  /\ (forall m, expanded next' visited' m -> expanded next visited m)
  /\ (forall m, m ∈ visited' -> m ∈ visited \/ exists es, chain cs from es m)
  /\ (length next' + size visited = length next + size visited')%nat.
Proof.
  intros Hc Hk -> Hu Hnear Hnext. cbn. case_decide as Hv; intros [= <- <-]; [by split_and!; auto |].
  split; [| split; [set_solver | split; [set_solver |]]].
  - apply Forall_app. split; [done |]. constructor; [| constructor]. split; cbn.
    + exists (e :: es). split; [by econstructor |]. cbn. by rewrite Hk.
    + intros es' Hc'. destruct (decide (S k <= length es')%nat); [done |].
      destruct Hv. apply (Hnear es'); [done | lia].
  - split.
    + intros m [Hm Hq]. rewrite fmap_app, elem_of_app in Hq. cbn in Hq.
      split; set_solver.
    + split; [intros m [->%elem_of_singleton|]%elem_of_union; [right; exists (e :: es); by econstructor | by left] |].
      rewrite length_app, size_union by set_solver. rewrite size_singleton. cbn. lia.
Qed.

Lemma visit_all k es n edges next visited next' visited' :
  chain cs from es n -> length es = k ->
  (forall e, e ∈ edges -> uses cs n e) ->
  (forall es n, chain cs from es n -> (length es <= k)%nat -> n ∈ visited) ->
  Forall (at_distance (S k)) next ->
  fold_left (visit (chain_factor es)) edges (next, visited) = (next', visited') ->
  Forall (at_distance (S k)) next' /\ visited ⊆ visited'
  /\ (forall e, e ∈ edges -> e_to e ∈ visited')
  /\ (forall m, expanded next' visited' m -> expanded next visited m)
  /\ (forall m, m ∈ visited' -> m ∈ visited \/ exists es, chain cs from es m)
  /\ (length next' + size visited = length next + size visited')%nat.
Proof.
  intros Hc Hk. revert next visited. induction edges as [|e edges IH]; intros next visited Hu Hnear Hnext E.
  - cbn in E. simplify_eq. split; [done |]. split; [done |]. split; [by intros ? ?%not_elem_of_nil | by split_and!; auto].
  - cbn [fold_left] in E. destruct (visit (chain_factor es) (next, visited) e) as [next1 visited1] eqn:E1.
    destruct (visit_spec _ k es n _ _ _ _ _ Hc Hk eq_refl (Hu e ltac:(by left)) Hnear Hnext E1)
      as (A1 & A2 & A3 & A4 & A5 & A6).
    destruct (IH next1 visited1 ltac:(intros; apply Hu; by right) ltac:(set_solver) A1 E)
      as (B1 & B2 & B3 & B4 & B5 & B6).
    split; [done |]. split; [set_solver |]. split; [| split; [by auto | split; [| lia]]].
    + intros e' [->|He']%elem_of_cons; [set_solver | by apply B3].
    + intros m Hm. destruct (B5 m Hm) as [Hm1|]; auto.
Qed.

(** Edges go to the end of the queue. *)
Lemma visit_app factor q0 q v e : visit factor (q0 ++ q, v) e = ((q0 ++ (visit factor (q, v) e).1), (visit factor (q, v) e).2).
Proof. cbn. case_decide; cbn; [done | by rewrite <- app_assoc]. Qed.

Lemma visit_all_app factor edges q0 q v :
  fold_left (visit factor) edges (q0 ++ q, v)
  = (q0 ++ (fold_left (visit factor) edges (q, v)).1, (fold_left (visit factor) edges (q, v)).2).
Proof.
  revert q v. induction edges as [|e edges IH]; intros q v; [done |]. cbn [fold_left].
  rewrite visit_app, IH. by destruct (visit factor (q, v) e).
Qed.

(** Expanding the first unit of the queue. *)
Lemma Layer_pop k n f now next visited next' visited' :
  Layer k ((n, f) :: now) next visited -> n <> toID ->
  fold_left (visit f) (default [] (build_adj cs !! n)) (next, visited) = (next', visited') ->
  Layer k now next' visited' /\ visited ⊆ visited'
  /\ (length next' + size visited = length next + size visited')%nat.
Proof.
  intros [H1 H2 H3 H4 H5] Hn E. inversion H1 as [|? ? [(es & Hc & Hk & Hf) Hmin] H1']; subst. cbn in *. subst f.
  destruct (visit_all (length es) es n _ _ _ _ _ Hc eq_refl (fun e He => proj1 (build_adj_uses cs n e) He) H3 H2 E)
    as (B1 & B2 & B3 & B4 & B5 & B6).
  split; [| done]. split; try done; [| | intros m Hm; destruct (B5 m Hm); auto].
  - intros es' m Hc' Hl. apply B2. by eapply H3.
  - intros m [Hm Hq]. rewrite fmap_app, elem_of_app in Hq.
    destruct (B4 m ltac:(split; [done | tauto])) as [Hm' Hq'].
    destruct (decide (m = n)) as [->|Hne].
    + split; [done |]. intros e He. apply B3. by apply build_adj_uses.
    + destruct (H4 m) as [Ht Hu].
      { split; [done |]. cbn. rewrite fmap_app, elem_of_cons, elem_of_app. tauto. }
      split; [done |]. intros e He. apply B2. by apply Hu.
Qed.

(** The units that can be visited at all. *)
Definition universe : gset ID := {[from]} ∪ list_to_set (map FromUnitID cs) ∪ list_to_set (map ToUnitID cs).

Lemma chain_universe es n : chain cs from es n -> n ∈ universe.
Proof.
  unfold universe. destruct 1 as [|es n e _ Hu]; [set_solver |].
  destruct Hu as [c Hc _|c Hc _]; cbn; rewrite !elem_of_union, !elem_of_list_to_set, !list_elem_of_In, !in_map_iff;
    apply list_elem_of_In in Hc; eauto.
Qed.

Lemma universe_size : (size universe <= 2 * length cs + 1)%nat.
Proof.
  unfold universe.
  assert (forall l : list ID, (size (list_to_set (C := gset ID) l) <= length l)%nat) as X.
  { induction l as [|x l IH]; [done |]. cbn. rewrite size_union_alt, size_singleton.
    pose proof (subseteq_size (list_to_set (C := gset ID) l ∖ {[x]}) (list_to_set l) ltac:(set_solver)). cbn in *. lia. }
  pose proof (X (map FromUnitID cs)). pose proof (X (map ToUnitID cs)). rewrite length_map in *.
  rewrite !size_union_alt, size_singleton.
  pose proof (subseteq_size (list_to_set (C := gset ID) (map FromUnitID cs) ∖ {[from]}) (list_to_set (map FromUnitID cs)) ltac:(set_solver)).
  pose proof (subseteq_size (list_to_set (C := gset ID) (map ToUnitID cs) ∖ ({[from]} ∪ list_to_set (map FromUnitID cs))) (list_to_set (map ToUnitID cs)) ltac:(set_solver)).
  lia.
Qed.

Lemma Layer_closed k visited es n :
  Layer k [] [] visited -> chain cs from es n -> n ∈ visited /\ n <> toID.
Proof.
  intros [_ _ H3 H4 _] Hc.
  assert (forall m, m ∈ visited -> m <> toID /\ forall e, uses cs m e -> e_to e ∈ visited) as Hx.
  { intros m Hm. apply H4. split; [done |]. apply not_elem_of_nil. }
  assert (n ∈ visited) as Hn; [| split; [done | by apply Hx]].
  induction Hc as [|es n e Hc IH Hu]; [by apply (H3 []); [constructor | cbn; lia] |].
  by apply (Hx n IH).
Qed.

(** Before each turn of the loop the layers can be chosen so that the first is
    not empty. *)
Lemma Layer_normal k now next visited :
  Layer k now next visited ->
  exists k' now' next', Layer k' now' next' visited /\ now' ++ next' = now ++ next
    /\ (now' = [] -> next' = []).
Proof.
  intros L. destruct now as [|i now]; [| by exists k, (i :: now), next].
  exists (S k), next, []. split; [by apply Layer_advance |]. by rewrite app_nil_r.
Qed.

Lemma Layer_universe k now next visited : Layer k now next visited -> (size visited <= size universe)%nat.
Proof.
  intros L. apply subseteq_size. intros n [es Hc]%(lay_reach _ _ _ _ L). by eapply chain_universe.
Qed.

Lemma search_exact fuel k now next visited :
  Layer k now next visited ->
  (length (now ++ next) + size universe < fuel + size visited)%nat ->
  match search fuel (build_adj cs) toID (now ++ next) visited with
  | Some (Some f) => exists d, at_distance d (toID, f)
  | Some None => forall es, ~ chain cs from es toID
  | None => False
  end.
Proof.
  revert k now next visited. induction fuel as [|fuel IH]; intros k now next visited L Hf.
  - pose proof (Layer_universe _ _ _ _ L). lia.
  - destruct (Layer_normal _ _ _ _ L) as (k' & now' & next' & L' & E & Hne). rewrite <- E in *. clear L E.
    destruct now' as [|[n f] now']; cbn [app search].
    + rewrite (Hne eq_refl) in *. cbn. intros es Hc. by destruct (Layer_closed _ _ _ _ L' Hc).
    + case_decide as Hn.
      * subst n. exists k'. apply (Forall_inv (lay_now _ _ _ _ L')).
      * rewrite visit_all_app. destruct (fold_left (visit f) (default [] (build_adj cs !! n)) (next', visited)) as [q1 v1] eqn:E.
        destruct (Layer_pop _ _ _ _ _ _ _ _ L' Hn E) as (L1 & Hsub & Hlen). cbn [fst snd].
        apply (IH k'); [done |]. cbn [app length] in Hf. rewrite length_app in *. lia.
Qed.

Lemma Layer_start : from <> toID -> Layer 0 [(from, f1)] [] {[from]}.
Proof.
  intros Hne. split.
  - constructor; [| constructor]. split; cbn; [exists []; by repeat constructor | lia].
  - constructor.
  - intros es n Hc Hl. destruct Hc; [set_solver | cbn in Hl; lia].
  - intros n [Hn%elem_of_singleton Hq]. subst. cbn in Hq. set_solver.
  - intros n ->%elem_of_singleton. exists []. constructor.
Qed.
End Search.

(** C40: Converting an amount always terminates (the queue is empty or the
    target is found within the fuel).  It succeeds exactly when the units are
    connected by a chain of conversions, each used forwards or backwards and
    none with a factor below 1e-9 in magnitude; the result is the amount times
    the factors of such a chain, multiplied in its order, and the chain is one
    with the fewest conversions.  Units that are not connected give
    [ErrUnitMismatch]. *)
Theorem Convert_exact amount fromID toID cs :
  match Convert amount fromID toID cs with
  | Some (Ok v) => exists es, chain cs fromID es toID
      /\ v = (if decide (fromID = toID) then amount else fmul amount (chain_factor es))
      /\ forall es', chain cs fromID es' toID -> (length es <= length es')%nat
  | Some (Err e) => e = Errorf ErrUnitMismatch "no conversion factor found between units"
      /\ forall es, ~ chain cs fromID es toID
  | _ => False
  end.
Proof.
  unfold Convert. case_decide as Hft.
  - exists []. subst. repeat split; [constructor |]. cbn. lia.
  - pose proof (search_exact cs fromID toID (search_fuel cs) 0 [(fromID, f1)] [] {[fromID]} (Layer_start _ _ _ Hft)) as X.
    rewrite app_nil_r in X. pose proof (universe_size cs fromID) as Hu.
    specialize (X ltac:(unfold search_fuel; rewrite size_singleton; cbn [length] in *; lia)).
    destruct (search _ _ _ _ _) as [[f|]|]; [| by split | done].
    destruct X as (d & (es & Hc & Hl & Hf) & Hmin). cbn in *. subst. exists es. repeat split; [done |].
    intros es' Hc'. by apply Hmin.
Qed.

(** A pallet of ten boxes of twelve packs of five pieces, and back. *)
Example Convert_pallet :
  let c n a b k := mkUnitConversion n 1%N a b (of_Z k) "" "" zeroTime zeroTime in
  let cs := [c 1%N 10%N 11%N 10; c 2%N 11%N 12%N 12; c 3%N 12%N 13%N 5; c 4%N 20%N 21%N 1000] in
  Convert (of_Z 1) 10%N 13%N cs = Some (Ok (of_Z 600))
  /\ Convert (of_Z 24) 12%N 11%N cs = Some (Ok (of_Z 2))
  /\ Convert (of_Z 1) 10%N 20%N cs
     = Some (Err (Errorf ErrUnitMismatch "no conversion factor found between units")).
Proof. by vm_compute. Qed.
