(* ===== verification/Products.v ===== *)
(** * The product catalogue

    [internal/core/domain/product/product.go], the repository
    [internal/core/repository/postgres/product_repo.go] with
    [queries/products.sql] and the keys of its four tables, and
    [internal/core/usecase/product/product_usecase.go]. *)

From S2P Require Import Prelude GoStrings GoTime GoFloat Sdk Tables Units.
#[local] Open Scope string_scope.
#[local] Open Scope list_scope.
#[local] Open Scope Z_scope.

(** ** Domain *)

Definition TypeGoods : string := "goods".
Definition TypeService : string := "service".
Definition StatusActive : string := "active".
Definition StatusInactive : string := "inactive".
Definition StatusArchived : string := "archived".

Record ProductVariant := mkProductVariant {
  pv_ID : ID;
  pv_TenantID : ID;
  pv_ProductID : ID;
  pv_SKU : string;
  pv_Name : string;
  pv_Attributes : AnyMap;
  pv_Status : string;
  pv_CreatedAt : Time;
  pv_UpdatedAt : Time;
}.

Record Product := mkProduct {
  p_ID : ID;
  p_TenantID : ID;
  p_Type : string;
  p_SKU : string;
  p_Barcode : string;
  p_Name : string;
  p_Description : string;
  p_UnitID : ID;
  p_UnitCode : string;
  p_UnitSymbol : string;
  p_Status : string;
  p_Metadata : AnyMap;
  p_Variants : list ProductVariant;
  p_CreatedAt : Time;
  p_UpdatedAt : Time;
}.

Record ProductFilter := mkProductFilter {
  pf_Type : option string; pf_Status : option string; pf_Limit : Z; pf_Offset : Z;
}.

(** ** Tables

    Units and variants are stored as they are; a conversion row has no codes
    (the queries join them); a product row has NULL for empty texts. *)

Record ProductRow := mkProductRow {
  pr_id : ID;
  pr_tenant_id : ID;
  pr_type : string;
  pr_sku : option string;
  pr_barcode : option string;
  pr_name : string;
  pr_description : option string;
  pr_unit_id : ID;
  pr_status : string;
  pr_metadata : AnyMap;
  pr_created_at : Time;
  pr_updated_at : Time;
}.

Record ProductDB := mkProductDB {
  t_units : gmap ID Unit;
  t_conversions : gmap ID UnitConversion;
  t_products : gmap ID ProductRow;
  t_variants : gmap ID ProductVariant;
}.

(** Rows the server refuses for reasons other than the keys: lengths of VARCHAR
    columns, unknown tenants, numbers out of range, values that are not JSON. *)
Class ProductServer := {
  unit_refused : Unit -> option error;
  conversion_refused : UnitConversion -> option error;
  product_refused : ProductRow -> option error;
  variant_refused : ProductVariant -> option error;
}.

(** ** Repository *)

Section Repo.
  Context `{Env, Pg, ProductServer}.

(** uq_units_tenant_code. *)
Definition same_unit_code (a b : Unit) : bool :=
  bool_decide (unit_TenantID a = unit_TenantID b) && String.eqb (unit_Code a) (unit_Code b).

Definition unit_row (u : Unit) : Unit :=
  mkUnit (unit_ID u) (unit_TenantID u) (unit_Code u) (unit_Name u) (unit_Symbol u) (unit_Category u)
    (unit_Precision u) (unit_Status u) (pg_timestamptz (unit_CreatedAt u)) (pg_timestamptz (unit_UpdatedAt u)).

Definition repo_CreateUnit (u : Unit) : M ProductDB Unit :=
  query (fun d => match insert_row unit_ID (fun r => [unit_TenantID r]) same_unit_code unit_refused (unit_row u) (t_units d) with
                  | Ok (row, t) => Ok (row, mkProductDB t (t_conversions d) (t_products d) (t_variants d))
                  | Err e => Err e
                  | Panic e => Panic e
                  end).

Definition get_one {R} (table : ProductDB -> gmap ID R) (p : ProductDB -> R -> bool) : M ProductDB R :=
  query (fun d => match select_one (p d) (table d) with
                  | Some row => Ok (row, d)
                  | None => Err (ESentinel ErrNotFound)
                  end).

Definition unit_by_id (tenantID id : ID) (r : Unit) : bool := sql_eq (unit_TenantID r) (ToPgUUID tenantID) && sql_eq (unit_ID r) (ToPgUUID id).

Definition repo_GetUnitByID (tenantID id : ID) : M ProductDB Unit := get_one t_units (fun _ => unit_by_id tenantID id).

Definition unit_by_code (tenantID : ID) (code : string) (r : Unit) : bool :=
  sql_eq (unit_TenantID r) (ToPgUUID tenantID) && String.eqb (unit_Code r) code.

Definition repo_GetUnitByCode (tenantID : ID) (code : string) : M ProductDB Unit := get_one t_units (fun _ => unit_by_code tenantID code).

Definition unit_code_le (a b : Unit) : Prop := String.le (unit_Code a) (unit_Code b).
#[export] Instance unit_code_le_dec : RelDecision unit_code_le.
Proof. intros a b. unfold unit_code_le. apply _. Defined.

(** ORDER BY code ASC, here in byte order. *)
Definition list_units (tenantID : ID) (t : gmap ID Unit) : list Unit :=
  merge_sort unit_code_le (select_rows (fun r => sql_eq (unit_TenantID r) (ToPgUUID tenantID)) t).

Definition repo_ListUnits (tenantID : ID) : M ProductDB (list Unit) := query (fun d => Ok (list_units tenantID (t_units d), d)).

(** uq_unit_conversions_units. *)
Definition same_conversion (a b : UnitConversion) : bool :=
  bool_decide (uc_TenantID a = uc_TenantID b) && bool_decide (FromUnitID a = FromUnitID b)
  && bool_decide (ToUnitID a = ToUnitID b).

(** The factor is written with eight decimals. *)
Definition conversion_row (c : UnitConversion) : UnitConversion :=
  mkUnitConversion (uc_ID c) (uc_TenantID c) (FromUnitID c) (ToUnitID c) (pg_numeric (Factor c)) "" ""
    (pg_timestamptz (uc_CreatedAt c)) (pg_timestamptz (uc_UpdatedAt c)).

Definition repo_CreateConversion (c : UnitConversion) : M ProductDB UnitConversion :=
  row <- query (fun d =>
    let row := conversion_row c in
    match insert_row uc_ID (fun r => [uc_TenantID r; FromUnitID r; ToUnitID r]) same_conversion conversion_refused
            row (t_conversions d) with
    | Ok (row, t) =>
        if bool_decide (is_Some (t_units d !! FromUnitID row)) && bool_decide (is_Some (t_units d !! ToUnitID row))
        then Ok (row, mkProductDB (t_units d) t (t_products d) (t_variants d))
        else Err fk_violation
    | Err e => Err e
    | Panic e => Panic e
    end) ;;
  ret (mkUnitConversion (uc_ID row) (uc_TenantID c) (FromUnitID c) (ToUnitID c) (Factor row)
         (FromCode c) (ToCode c) (uc_CreatedAt row) (uc_UpdatedAt row)).

Definition conversion_between (tenantID fromID toID : ID) (r : UnitConversion) : bool :=
  sql_eq (uc_TenantID r) (ToPgUUID tenantID) && sql_eq (FromUnitID r) (ToPgUUID fromID) && sql_eq (ToUnitID r) (ToPgUUID toID).

Definition GetConversion (tenantID fromID toID : ID) : M ProductDB UnitConversion :=
  get_one t_conversions (fun _ => conversion_between tenantID fromID toID).

Definition conv_created_le (a b : UnitConversion) : Prop := t_nanos (uc_CreatedAt a) <= t_nanos (uc_CreatedAt b).
#[export] Instance conv_created_le_dec : RelDecision conv_created_le.
Proof. intros a b. unfold conv_created_le. apply _. Defined.

(** JOIN units twice, ORDER BY created_at ASC. *)
Definition join_codes (units : gmap ID Unit) (r : UnitConversion) : option UnitConversion :=
  u1 ← units !! FromUnitID r;
  u2 ← units !! ToUnitID r;
  Some (mkUnitConversion (uc_ID r) (uc_TenantID r) (FromUnitID r) (ToUnitID r) (Factor r)
          (unit_Code u1) (unit_Code u2) (uc_CreatedAt r) (uc_UpdatedAt r)).

Definition ListConversions (tenantID : ID) : M ProductDB (list UnitConversion) :=
  query (fun d => Ok (merge_sort conv_created_le (omap (join_codes (t_units d))
    (select_rows (fun r => sql_eq (uc_TenantID r) (ToPgUUID tenantID)) (t_conversions d))), d)).

(** uq_products_tenant_sku, a partial index: NULLs are distinct. *)
Definition same_sku (a b : ProductRow) : bool :=
  bool_decide (pr_tenant_id a = pr_tenant_id b)
  && match pr_sku a, pr_sku b with Some s, Some s' => String.eqb s s' | _, _ => false end.

Definition product_row (p : Product) : ProductRow := {|
  pr_id := p_ID p;
  pr_tenant_id := p_TenantID p;
  pr_type := p_Type p;
  pr_sku := text_or_null (p_SKU p);
  pr_barcode := text_or_null (p_Barcode p);
  pr_name := p_Name p;
  pr_description := text_or_null (p_Description p);
  pr_unit_id := p_UnitID p;
  pr_status := p_Status p;
  pr_metadata := pg_jsonb <$> p_Metadata p;
  pr_created_at := pg_timestamptz (p_CreatedAt p);
  pr_updated_at := pg_timestamptz (p_UpdatedAt p) |}.

Definition with_stored (p : Product) (id : ID) (created updated : Time) : Product :=
  mkProduct id (p_TenantID p) (p_Type p) (p_SKU p) (p_Barcode p) (p_Name p) (p_Description p) (p_UnitID p)
    (p_UnitCode p) (p_UnitSymbol p) (p_Status p) (p_Metadata p) (p_Variants p) created updated.

Definition repo_CreateProduct (p : Product) : M ProductDB Product :=
  row <- query (fun d =>
    match insert_row pr_id (fun r => [pr_tenant_id r; pr_unit_id r]) same_sku product_refused
            (product_row p) (t_products d) with
    | Ok (row, t) =>
        if bool_decide (is_Some (t_units d !! pr_unit_id row))
        then Ok (row, mkProductDB (t_units d) (t_conversions d) t (t_variants d))
        else Err fk_violation
    | Err e => Err e
    | Panic e => Panic e
    end) ;;
  ret (with_stored p (pr_id row) (pr_created_at row) (pr_updated_at row)).

(** The row joined with its unit. *)
Definition toDomainProduct (units : gmap ID Unit) (row : ProductRow) : option Product :=
  u ← units !! pr_unit_id row;
  Some {| p_ID := pr_id row;
          p_TenantID := pr_tenant_id row;
          p_Type := pr_type row;
          p_SKU := default "" (pr_sku row);
          p_Barcode := default "" (pr_barcode row);
          p_Name := pr_name row;
          p_Description := default "" (pr_description row);
          p_UnitID := pr_unit_id row;
          p_UnitCode := unit_Code u;
          p_UnitSymbol := unit_Symbol u;
          p_Status := pr_status row;
          p_Metadata := pr_metadata row;
          p_Variants := [];
          p_CreatedAt := pr_created_at row;
          p_UpdatedAt := pr_updated_at row |}.

Definition variant_sku_le (a b : ProductVariant) : Prop := String.le (pv_SKU a) (pv_SKU b).
#[export] Instance variant_sku_le_dec : RelDecision variant_sku_le.
Proof. intros a b. unfold variant_sku_le. apply _. Defined.

(** ORDER BY sku ASC, here in byte order. *)
Definition list_variants (tenantID productID : ID) (t : gmap ID ProductVariant) : list ProductVariant :=
  merge_sort variant_sku_le
    (select_rows (fun r => sql_eq (pv_TenantID r) (ToPgUUID tenantID) && sql_eq (pv_ProductID r) (ToPgUUID productID)) t).

Definition repo_ListVariants (tenantID productID : ID) : M ProductDB (list ProductVariant) :=
  query (fun d => Ok (list_variants tenantID productID (t_variants d), d)).

Definition with_variants (p : Product) (vs : list ProductVariant) : Product :=
  mkProduct (p_ID p) (p_TenantID p) (p_Type p) (p_SKU p) (p_Barcode p) (p_Name p) (p_Description p) (p_UnitID p)
    (p_UnitCode p) (p_UnitSymbol p) (p_Status p) (p_Metadata p) vs (p_CreatedAt p) (p_UpdatedAt p).

(** The first row that satisfies the condition and has its unit. *)
Definition get_product (p : ProductRow -> bool) : M ProductDB Product :=
  query (fun d => match head (omap (toDomainProduct (t_units d)) (select_rows p (t_products d))) with
                  | Some x => Ok (x, d)
                  | None => Err (ESentinel ErrNotFound)
                  end).

Definition repo_GetProductByID (tenantID id : ID) : M ProductDB Product :=
  p <- get_product (fun r => sql_eq (pr_tenant_id r) (ToPgUUID tenantID) && sql_eq (pr_id r) (ToPgUUID id)) ;;
  variants <- repo_ListVariants tenantID id ;;
  ret (with_variants p variants).

Definition repo_GetProductBySKU (tenantID : ID) (sku : string) : M ProductDB Product :=
  p <- get_product (fun r => sql_eq (pr_tenant_id r) (ToPgUUID tenantID) && bool_decide (pr_sku r = Some sku)) ;;
  variants <- repo_ListVariants tenantID (p_ID p) ;;
  ret (with_variants p variants).

Definition product_matches (tenantID : ID) (f : ProductFilter) (r : ProductRow) : bool :=
  sql_eq (pr_tenant_id r) (ToPgUUID tenantID) && narg_eq (pf_Type f) (pr_type r) && narg_eq (pf_Status f) (pr_status r).

Definition product_newest (a b : ProductRow) : Prop := t_nanos (pr_created_at b) <= t_nanos (pr_created_at a).
#[export] Instance product_newest_dec : RelDecision product_newest.
Proof. intros a b. unfold product_newest. apply _. Defined.

Definition count_products (tenantID : ID) (filter : ProductFilter) (t : gmap ID ProductRow) : Z :=
  Z.of_nat (length (select_rows (product_matches tenantID filter) t)).

(** COUNT, then ORDER BY created_at DESC LIMIT OFFSET: two statements. *)
Definition repo_ListProducts (tenantID : ID) (filter : ProductFilter) : M ProductDB (list Product * Z) :=
  let limit := Z.max (pf_Limit filter) 20 in
  let offset := Z.max (pf_Offset filter) 0 in
  total <- query (fun d => Ok (count_products tenantID filter (t_products d), d)) ;;
  items <- query (fun d => Ok (sql_page limit offset (omap (toDomainProduct (t_units d))
             (merge_sort product_newest (select_rows (product_matches tenantID filter) (t_products d)))), d)) ;;
  ret (items, total).

(** SET column = COALESCE($n, column). *)
Definition updated_product (old : ProductRow) (p : Product) (now : Time) : ProductRow := {|
  pr_id := pr_id old;
  pr_tenant_id := pr_tenant_id old;
  pr_type := pr_type old;
  pr_sku := pr_sku old;
  pr_barcode := match text_or_null (p_Barcode p) with Some b => Some b | None => pr_barcode old end;
  pr_name := p_Name p;
  pr_description := match text_or_null (p_Description p) with Some s => Some s | None => pr_description old end;
  pr_unit_id := pr_unit_id old;
  pr_status := p_Status p;
  pr_metadata := match p_Metadata p with Some m => Some (pg_jsonb m) | None => pr_metadata old end;
  pr_created_at := pr_created_at old;
  pr_updated_at := pg_timestamptz now |}.

Definition product_by_id (tenantID id : ID) (r : ProductRow) : bool :=
  sql_eq (pr_tenant_id r) (ToPgUUID tenantID) && sql_eq (pr_id r) (ToPgUUID id).

(** [now] is the server's NOW(). *)
Definition update_product (p : Product) (now : Time) (d : ProductDB) : res (ProductRow * ProductDB) :=
  match select_one (product_by_id (p_TenantID p) (p_ID p)) (t_products d) with
  | None => Err (ESentinel ErrNotFound)
  | Some old =>
      let row := updated_product old p now in
      match product_refused row with
      | Some e => Err e
      | None => Ok (row, mkProductDB (t_units d) (t_conversions d) (<[pr_id row := row]> (t_products d)) (t_variants d))
      end
  end.

Definition repo_UpdateProduct (p : Product) : M ProductDB Product :=
  now <- Now ;;
  row <- query (update_product p now) ;;
  ret (with_stored p (p_ID p) (p_CreatedAt p) (pr_updated_at row)).

(** uq_product_variants_tenant_sku. *)
Definition same_variant_sku (a b : ProductVariant) : bool :=
  bool_decide (pv_TenantID a = pv_TenantID b) && String.eqb (pv_SKU a) (pv_SKU b).

Definition variant_row (v : ProductVariant) : ProductVariant :=
  mkProductVariant (pv_ID v) (pv_TenantID v) (pv_ProductID v) (pv_SKU v) (pv_Name v) (pg_jsonb <$> pv_Attributes v)
    (pv_Status v) (pg_timestamptz (pv_CreatedAt v)) (pg_timestamptz (pv_UpdatedAt v)).

Definition repo_CreateVariant (v : ProductVariant) : M ProductDB ProductVariant :=
  row <- query (fun d =>
    match insert_row pv_ID (fun r => [pv_TenantID r; pv_ProductID r]) same_variant_sku variant_refused
            (variant_row v) (t_variants d) with
    | Ok (row, t) =>
        if bool_decide (is_Some (t_products d !! pv_ProductID row))
        then Ok (row, mkProductDB (t_units d) (t_conversions d) (t_products d) t)
        else Err fk_violation
    | Err e => Err e
    | Panic e => Panic e
    end) ;;
  ret (mkProductVariant (pv_ID row) (pv_TenantID v) (pv_ProductID v) (pv_SKU v) (pv_Name v) (pv_Attributes v)
         (pv_Status v) (pv_CreatedAt row) (pv_UpdatedAt row)).

Definition delete_variant (tenantID id : ID) (d : ProductDB) : ProductDB :=
  mkProductDB (t_units d) (t_conversions d) (t_products d)
    (filter (fun kv => sql_eq (pv_TenantID kv.2) (ToPgUUID tenantID) && sql_eq (pv_ID kv.2) (ToPgUUID id) = false) (t_variants d)).

Definition repo_DeleteVariant (tenantID id : ID) : M ProductDB unit := query (fun d => Ok (tt, delete_variant tenantID id d)).
End Repo.

(** ** The use case *)

Record CreateUnitCommand := mkCreateUnitCommand {
  cu_Code : string; cu_Name : string; cu_Symbol : string; cu_Category : string; cu_Precision : Z;
}.
Record CreateConversionCommand := mkCreateConversionCommand {
  ccv_FromUnitID : ID; ccv_ToUnitID : ID; ccv_Factor : float64;
}.
Record ConvertQuantityCommand := mkConvertQuantityCommand {
  cq_Amount : float64; cq_FromUnitID : ID; cq_ToUnitID : ID;
}.
Record CreateProductCommand := mkCreateProductCommand {
  cp_Type : string; cp_SKU : string; cp_Barcode : string; cp_Name : string; cp_Description : string;
  cp_UnitID : ID; cp_Metadata : AnyMap;
}.
Record UpdateProductCommand := mkUpdateProductCommand {
  up_ID : ID; up_Name : string; up_Description : string; up_Barcode : string; up_Status : string;
  up_Metadata : AnyMap;
}.
Record CreateVariantCommand := mkCreateVariantCommand {
  cv_ProductID : ID; cv_SKU : string; cv_Name : string; cv_Attributes : AnyMap;
}.
Record ProductListResult := mkProductListResult {
  plr_Items : list Product; plr_Total : Z; plr_Page : Z; plr_PageSize : Z;
}.

Section Usecase.
  Context `{UnicodeTables, Env, Pg, ProductServer}.

Definition CreateUnit (ctx : Ctx) (cmd : CreateUnitCommand) : M ProductDB Unit :=
  tenantID <- lift_res (RequireTenantID ctx) ;;
  let code := NormalizeCode (cu_Code cmd) in
  let name := TrimSpace (cu_Name cmd) in
  let symbol := TrimSpace (cu_Symbol cmd) in
  guard (String.eqb code "" || String.eqb name "")
    (Errorf ErrInvalidInput "unit code and name are required") ;;;
  let symbol := if String.eqb symbol "" then ToLower code else symbol in
  let category := TrimSpace (cu_Category cmd) in
  let category := if String.eqb category "" then "quantity" else category in
  id <- NewID ;;
  now <- NowUTC ;;
  repo_CreateUnit (mkUnit id tenantID code name symbol category (cu_Precision cmd) UnitStatusActive now now).

Definition GetUnitByID (ctx : Ctx) (id : ID) : M ProductDB Unit :=
  tenantID <- lift_res (RequireTenantID ctx) ;; repo_GetUnitByID tenantID id.

Definition GetUnitByCode (ctx : Ctx) (code : string) : M ProductDB Unit :=
  tenantID <- lift_res (RequireTenantID ctx) ;; repo_GetUnitByCode tenantID (NormalizeCode code).

Definition ListUnits (ctx : Ctx) : M ProductDB (list Unit) :=
  tenantID <- lift_res (RequireTenantID ctx) ;; repo_ListUnits tenantID.

Definition CreateConversion (ctx : Ctx) (cmd : CreateConversionCommand) : M ProductDB UnitConversion :=
  tenantID <- lift_res (RequireTenantID ctx) ;;
  guard (bool_decide (ccv_FromUnitID cmd = ccv_ToUnitID cmd))
    (Errorf ErrInvalidInput "from and to units cannot be identical") ;;;
  guard (fle (ccv_Factor cmd) f0) (Errorf ErrInvalidInput "conversion factor must be positive") ;;;
  wrap_err "from unit" (repo_GetUnitByID tenantID (ccv_FromUnitID cmd)) ;;;
  wrap_err "to unit" (repo_GetUnitByID tenantID (ccv_ToUnitID cmd)) ;;;
  id <- NewID ;;
  now <- NowUTC ;;
  repo_CreateConversion (mkUnitConversion id tenantID (ccv_FromUnitID cmd) (ccv_ToUnitID cmd) (ccv_Factor cmd)
    "" "" now now).

(** The search of [Convert] never runs out of fuel ([search_exact]). *)
Definition ConvertQuantity (ctx : Ctx) (cmd : ConvertQuantityCommand) : M ProductDB float64 :=
  tenantID <- lift_res (RequireTenantID ctx) ;;
  conversions <- ListConversions tenantID ;;
  match Convert (cq_Amount cmd) (cq_FromUnitID cmd) (cq_ToUnitID cmd) conversions with
  | Some r => lift_res r
  | None => panic (ENew "out of fuel")
  end.

Definition CreateProduct (ctx : Ctx) (cmd : CreateProductCommand) : M ProductDB Product :=
  tenantID <- lift_res (RequireTenantID ctx) ;;
  let name := TrimSpace (cp_Name cmd) in
  guard (String.eqb name "") (Errorf ErrInvalidInput "product name is required") ;;;
  let sku := TrimSpace (cp_SKU cmd) in
  (if String.eqb sku "" then ret tt
   else check_absent (repo_GetProductBySKU tenantID sku)
          (Errorf ErrAlreadyExists ("product with SKU '" +:+ sku +:+ "' already exists"))) ;;;
  unit <- wrap_err "unit" (repo_GetUnitByID tenantID (cp_UnitID cmd)) ;;
  let prodType := if String.eqb (cp_Type cmd) "" then TypeGoods else cp_Type cmd in
  id <- NewID ;;
  now <- NowUTC ;;
  let metadata := match cp_Metadata cmd with Some m => Some m | None => Some ∅ end in
  repo_CreateProduct (mkProduct id tenantID prodType sku (TrimSpace (cp_Barcode cmd)) name
    (TrimSpace (cp_Description cmd)) (unit_ID unit) (unit_Code unit) (unit_Symbol unit) StatusActive
    metadata [] now now).

Definition GetProductByID (ctx : Ctx) (id : ID) : M ProductDB Product :=
  tenantID <- lift_res (RequireTenantID ctx) ;; repo_GetProductByID tenantID id.

Definition GetProductBySKU (ctx : Ctx) (sku : string) : M ProductDB Product :=
  tenantID <- lift_res (RequireTenantID ctx) ;; repo_GetProductBySKU tenantID (TrimSpace sku).

(** Pages are 32-bit integers; the product wraps. *)
Definition ListProducts (ctx : Ctx) (page pageSize : Z) (productType status : option string) : M ProductDB ProductListResult :=
  tenantID <- lift_res (RequireTenantID ctx) ;;
  let page := if page <? 1 then 1 else page in
  let pageSize := if (pageSize <? 1) || (100 <? pageSize) then 20 else pageSize in
  let offset := int32 ((page - 1) * pageSize) in
  r <- repo_ListProducts tenantID (mkProductFilter productType status pageSize offset) ;;
  ret (mkProductListResult r.1 r.2 page pageSize).

Definition UpdateProduct (ctx : Ctx) (cmd : UpdateProductCommand) : M ProductDB Product :=
  tenantID <- lift_res (RequireTenantID ctx) ;;
  p <- repo_GetProductByID tenantID (up_ID cmd) ;;
  repo_UpdateProduct (mkProduct (p_ID p) (p_TenantID p) (p_Type p) (p_SKU p)
    (if String.eqb (up_Barcode cmd) "" then p_Barcode p else TrimSpace (up_Barcode cmd))
    (if String.eqb (up_Name cmd) "" then p_Name p else TrimSpace (up_Name cmd))
    (if String.eqb (up_Description cmd) "" then p_Description p else TrimSpace (up_Description cmd))
    (p_UnitID p) (p_UnitCode p) (p_UnitSymbol p)
    (if String.eqb (up_Status cmd) "" then p_Status p else up_Status cmd)
    (match up_Metadata cmd with Some m => Some m | None => p_Metadata p end)
    (p_Variants p) (p_CreatedAt p) (p_UpdatedAt p)).

Definition CreateVariant (ctx : Ctx) (cmd : CreateVariantCommand) : M ProductDB ProductVariant :=
  tenantID <- lift_res (RequireTenantID ctx) ;;
  let sku := TrimSpace (cv_SKU cmd) in
  let name := TrimSpace (cv_Name cmd) in
  guard (String.eqb sku "" || String.eqb name "")
    (Errorf ErrInvalidInput "variant sku and name are required") ;;;
  wrap_err "parent product" (repo_GetProductByID tenantID (cv_ProductID cmd)) ;;;
  id <- NewID ;;
  now <- NowUTC ;;
  let attributes := match cv_Attributes cmd with Some m => Some m | None => Some ∅ end in
  repo_CreateVariant (mkProductVariant id tenantID (cv_ProductID cmd) sku name attributes StatusActive now now).

Definition ListVariants (ctx : Ctx) (productID : ID) : M ProductDB (list ProductVariant) :=
  tenantID <- lift_res (RequireTenantID ctx) ;; repo_ListVariants tenantID productID.

Definition DeleteVariant (ctx : Ctx) (id : ID) : M ProductDB unit :=
  tenantID <- lift_res (RequireTenantID ctx) ;; repo_DeleteVariant tenantID id.
End Usecase.

(** ** Consistency of the catalogue *)

Record catalogue_inv (d : ProductDB) : Prop := {
  ci_units : keyed unit_ID (t_units d);
  ci_codes : unique same_unit_code (t_units d);
  ci_convs : keyed uc_ID (t_conversions d);
  ci_pairs : unique same_conversion (t_conversions d);
  ci_prods : keyed pr_id (t_products d);
  ci_skus : unique same_sku (t_products d);
  ci_vars : keyed pv_ID (t_variants d);
  ci_vskus : unique same_variant_sku (t_variants d);
  (** references stay within the tenant *)
  ci_conv_units : forall k c, t_conversions d !! k = Some c ->
    FromUnitID c <> ToUnitID c
    /\ (exists u, t_units d !! FromUnitID c = Some u /\ unit_TenantID u = uc_TenantID c)
    /\ (exists u, t_units d !! ToUnitID c = Some u /\ unit_TenantID u = uc_TenantID c);
  ci_prod_unit : forall k p, t_products d !! k = Some p ->
    exists u, t_units d !! pr_unit_id p = Some u /\ unit_TenantID u = pr_tenant_id p;
  ci_var_prod : forall k v, t_variants d !! k = Some v ->
    exists p, t_products d !! pv_ProductID v = Some p /\ pr_tenant_id p = pv_TenantID v;
}.

Lemma same_unit_code_sym a b : same_unit_code a b = same_unit_code b a.
Proof. unfold same_unit_code. rewrite String.eqb_sym. f_equal. by apply bool_decide_ext. Qed.
Lemma same_conversion_sym a b : same_conversion a b = same_conversion b a.
Proof. unfold same_conversion. repeat f_equal; by apply bool_decide_ext. Qed.
Lemma same_sku_sym a b : same_sku a b = same_sku b a.
Proof.
  unfold same_sku. f_equal; [by apply bool_decide_ext |].
  destruct (pr_sku a), (pr_sku b); [apply String.eqb_sym | done | done | done].
Qed.
Lemma same_variant_sku_sym a b : same_variant_sku a b = same_variant_sku b a.
Proof. unfold same_variant_sku. rewrite String.eqb_sym. f_equal. by apply bool_decide_ext. Qed.

Section Inv.
  Context `{UnicodeTables, Env, Pg, ProductServer}.

Lemma reads_get_one {R} (table : ProductDB -> gmap ID R) p : reads (get_one table p).
Proof. apply reads_query. intros d a d'. case_match; naive_solver. Qed.
Lemma reads_get_product p : reads (get_product p).
Proof. apply reads_query. intros d a d'. case_match; naive_solver. Qed.
Lemma reads_ListVariants tn id : reads (repo_ListVariants tn id).
Proof. apply reads_query. naive_solver. Qed.
#[local] Hint Resolve reads_get_one reads_get_product reads_ListVariants : go_frame.

Lemma reads_GetUnitByID tn id : reads (repo_GetUnitByID tn id).
Proof. apply reads_get_one. Qed.
Lemma reads_GetProductByID tn id : reads (repo_GetProductByID tn id).
Proof. unfold repo_GetProductByID. frame. Qed.
Lemma reads_GetProductBySKU tn sku : reads (repo_GetProductBySKU tn sku).
Proof. unfold repo_GetProductBySKU. frame. Qed.
#[local] Hint Resolve reads_GetUnitByID reads_GetProductByID reads_GetProductBySKU : go_frame.

(** What a lookup found. *)
Lemma GetUnitByID_Ok tn id w u w' :
  keyed unit_ID (t_units (w_db w)) -> repo_GetUnitByID tn id w = (Ok u, w') ->
  w_db w' = w_db w /\ t_units (w_db w) !! id = Some u /\ unit_TenantID u = tn /\ unit_ID u = id.
Proof.
  intros Hk E. unfold repo_GetUnitByID, get_one in E. step_inv.
  case_match eqn:Es; simplify_eq. apply select_one_Some in Es as [Hp [k Hl]].
  apply andb_prop in Hp as [P1 P2]. apply sql_eq_true in P1 as [_ P1], P2 as [_ P2].
  pose proof (Hk _ _ Hl). subst. done.
Qed.

Lemma get_product_Ok p w x w' :
  get_product p w = (Ok x, w') ->
  w_db w' = w_db w /\ exists k row, t_products (w_db w) !! k = Some row /\ p row = true
    /\ p_ID x = pr_id row /\ p_TenantID x = pr_tenant_id row.
Proof.
  intros E. unfold get_product in E. step_inv. case_match eqn:Es; simplify_eq. split; [done |].
  assert (x ∈ omap (toDomainProduct (t_units (w_db w))) (select_rows p (t_products (w_db w)))) as Hx
    by (destruct (omap _ _); [done |]; injection Es as ->; by left).
  apply list_elem_of_omap in Hx as (row & Hrow & Hx). apply elem_of_select_rows in Hrow as [Hp [k Hk]].
  unfold toDomainProduct in Hx. destruct (t_units _ !! _); [| done]. cbn in Hx. simplify_eq. eauto 10.
Qed.

Lemma GetProductByID_Ok tn id w x w' :
  keyed pr_id (t_products (w_db w)) -> repo_GetProductByID tn id w = (Ok x, w') ->
  w_db w' = w_db w /\ p_ID x = id /\ p_TenantID x = tn
  /\ exists row, t_products (w_db w) !! id = Some row /\ pr_tenant_id row = tn.
Proof.
  intros Hk E. pose proof (reads_GetProductByID tn id w) as Hr. rewrite E in Hr. cbn in Hr.
  split; [done |]. unfold repo_GetProductByID in E. step_inv.
  match goal with X : get_product _ _ = _ |- _ => apply get_product_Ok in X as (_ & k & row & Hl & Hp & E1 & E2) end.
  apply andb_prop in Hp as [P1 P2]. apply sql_eq_true in P1 as [_ P1], P2 as [_ P2].
  pose proof (Hk _ _ Hl). cbn. subst. eauto.
Qed.

(** Whatever the tables hold, it is of the tenant that asks. *)
Lemma GetProductByID_tenant tn id w x w' : repo_GetProductByID tn id w = (Ok x, w') -> p_TenantID x = tn.
Proof.
  intros E. unfold repo_GetProductByID in E. step_inv.
  match goal with X : get_product _ _ = _ |- _ => apply get_product_Ok in X as (_ & k & row & Hl & Hp & E1 & E2) end.
  apply andb_prop in Hp as [P1 _]. apply sql_eq_true in P1 as [_ P1]. cbn. congruence.
Qed.

(** Inserting into one table. *)
Lemma insert_unit_inv u d : catalogue_inv d ->
  t_units d !! unit_ID u = None -> (forall k r, t_units d !! k = Some r -> same_unit_code u r = false) ->
  catalogue_inv (mkProductDB (<[unit_ID u := u]> (t_units d)) (t_conversions d) (t_products d) (t_variants d)).
Proof.
  intros [I1 I2 I3 I4 I5 I6 I7 I8 I9 I10 I11] Hf Hu.
  assert (forall i t, (exists x, t_units d !! i = Some x /\ unit_TenantID x = t) ->
            exists x, <[unit_ID u := u]> (t_units d) !! i = Some x /\ unit_TenantID x = t) as Hold.
  { intros i t (x & Hx & Ht). exists x. rewrite lookup_insert_ne by congruence. done. }
  split; cbn; try done.
  - by apply keyed_insert.
  - apply unique_insert; eauto using same_unit_code_sym.
  - intros k c Hc. destruct (I9 k c Hc) as (? & ? & ?). auto.
  - intros k p Hp. apply Hold. eauto.
Qed.

Lemma insert_conversion_inv c d : catalogue_inv d ->
  t_conversions d !! uc_ID c = None -> (forall k r, t_conversions d !! k = Some r -> same_conversion c r = false) ->
  FromUnitID c <> ToUnitID c ->
  (exists u, t_units d !! FromUnitID c = Some u /\ unit_TenantID u = uc_TenantID c) ->
  (exists u, t_units d !! ToUnitID c = Some u /\ unit_TenantID u = uc_TenantID c) ->
  catalogue_inv (mkProductDB (t_units d) (<[uc_ID c := c]> (t_conversions d)) (t_products d) (t_variants d)).
Proof.
  intros [I1 I2 I3 I4 I5 I6 I7 I8 I9 I10 I11] Hf Hu Hne Hx1 Hx2. split; cbn; try done.
  - by apply keyed_insert.
  - apply unique_insert; eauto using same_conversion_sym.
  - intros k c' [[<- <-]|[_ Hc]]%lookup_insert_Some; eauto.
Qed.

Lemma insert_product_inv p d : catalogue_inv d ->
  t_products d !! pr_id p = None -> (forall k r, t_products d !! k = Some r -> same_sku p r = false) ->
  (exists u, t_units d !! pr_unit_id p = Some u /\ unit_TenantID u = pr_tenant_id p) ->
  catalogue_inv (mkProductDB (t_units d) (t_conversions d) (<[pr_id p := p]> (t_products d)) (t_variants d)).
Proof.
  intros [I1 I2 I3 I4 I5 I6 I7 I8 I9 I10 I11] Hf Hu Hx. split; cbn; try done.
  - by apply keyed_insert.
  - apply unique_insert; eauto using same_sku_sym.
  - intros k p' [[<- <-]|[_ Hp]]%lookup_insert_Some; eauto.
  - intros k v Hv. destruct (I11 k v Hv) as (q & Hq & ?). exists q.
    rewrite lookup_insert_ne by congruence. done.
Qed.

Lemma insert_variant_inv v d : catalogue_inv d ->
  t_variants d !! pv_ID v = None -> (forall k r, t_variants d !! k = Some r -> same_variant_sku v r = false) ->
  (exists p, t_products d !! pv_ProductID v = Some p /\ pr_tenant_id p = pv_TenantID v) ->
  catalogue_inv (mkProductDB (t_units d) (t_conversions d) (t_products d) (<[pv_ID v := v]> (t_variants d))).
Proof.
  intros [I1 I2 I3 I4 I5 I6 I7 I8 I9 I10 I11] Hf Hu Hx. split; cbn; try done.
  - by apply keyed_insert.
  - apply unique_insert; eauto using same_variant_sku_sym.
  - intros k v' [[<- <-]|[_ Hv]]%lookup_insert_Some; eauto.
Qed.

(** An update keeps the identity, the tenant, the SKU and the unit of a row. *)
Lemma update_product_inv p now d row d' :
  catalogue_inv d -> update_product p now d = Ok (row, d') -> catalogue_inv d'.
Proof.
  intros [I1 I2 I3 I4 I5 I6 I7 I8 I9 I10 I11] E. unfold update_product in E.
  destruct (select_one _ _) as [old|] eqn:Es; [| done]. destruct (product_refused _); [done |].
  simplify_eq. apply select_one_Some in Es as [_ [k Hk]]. pose proof (I5 k old Hk) as <-.
  split; cbn; try done.
  - intros k' r [[<- <-]|[_ Hr]]%lookup_insert_Some; eauto.
  - apply unique_insert; [apply same_sku_sym | done |]. intros k' r' Hne Hr'.
    apply not_true_is_false. intros Hs. apply Hne. symmetry. exact (I6 _ _ _ _ Hk Hr' Hs).
  - intros k' r [[<- <-]|[_ Hr]]%lookup_insert_Some; [apply (I10 _ _ Hk) | eauto].
  - intros k' v Hv. destruct (I11 k' v Hv) as (q & Hq & Ht).
    destruct (decide (pr_id old = pv_ProductID v)) as [E|Hne].
    + exists (updated_product old p now). rewrite <- E, lookup_insert_eq. split; [done |]. cbn.
      rewrite <- E, Hk in Hq. by simplify_eq.
    + exists q. by rewrite lookup_insert_ne.
Qed.

Lemma filter_variants_inv (P : ID * ProductVariant -> Prop) `{!forall x, Decision (P x)} d :
  catalogue_inv d ->
  catalogue_inv (mkProductDB (t_units d) (t_conversions d) (t_products d) (filter P (t_variants d))).
Proof.
  intros [I1 I2 I3 I4 I5 I6 I7 I8 I9 I10 I11]. split; cbn; try done.
  - intros k r [Hr _]%map_lookup_filter_Some. eauto.
  - intros k1 r1 k2 r2 [E1 _]%map_lookup_filter_Some [E2 _]%map_lookup_filter_Some. eauto.
  - intros k r [Hr _]%map_lookup_filter_Some. eauto.
Qed.

(** A client session: any calls, by any tenants, with any outcome. *)
Inductive product_call :=
  | CallCreateUnit (ctx : Ctx) (cmd : CreateUnitCommand)
  | CallCreateConversion (ctx : Ctx) (cmd : CreateConversionCommand)
  | CallCreateProduct (ctx : Ctx) (cmd : CreateProductCommand)
  | CallUpdateProduct (ctx : Ctx) (cmd : UpdateProductCommand)
  | CallCreateVariant (ctx : Ctx) (cmd : CreateVariantCommand)
  | CallDeleteVariant (ctx : Ctx) (id : ID).

Definition product_call_run (c : product_call) (w : World ProductDB) : World ProductDB :=
  match c with
  | CallCreateUnit ctx cmd => (CreateUnit ctx cmd w).2
  | CallCreateConversion ctx cmd => (CreateConversion ctx cmd w).2
  | CallCreateProduct ctx cmd => (CreateProduct ctx cmd w).2
  | CallUpdateProduct ctx cmd => (UpdateProduct ctx cmd w).2
  | CallCreateVariant ctx cmd => (CreateVariant ctx cmd w).2
  | CallDeleteVariant ctx id => (DeleteVariant ctx id w).2
  end.

Definition product_session (cs : list product_call) (w : World ProductDB) : World ProductDB :=
  fold_left (fun w c => product_call_run c w) cs w.

Lemma CreateUnit_inv ctx cmd w : catalogue_inv (w_db w) -> catalogue_inv (w_db (CreateUnit ctx cmd w).2).
Proof.
  intros Hi. apply writes_last_inv; [unfold CreateUnit, repo_CreateUnit; frame | done |].
  intros u w' E. unfold CreateUnit, repo_CreateUnit in E. step_inv.
  case_match eqn:Er; simplify_eq. case_match; simplify_eq. apply insert_row_Ok in Er as (-> & -> & Hf & Hu & _).
  by apply insert_unit_inv.
Qed.

(** The reads before a write: what they found is still there. *)
Ltac follow_lookups :=
  repeat match goal with
  | X : wrap_err _ _ _ = _ |- _ => apply wrap_err_Ok in X
  | X : repo_GetUnitByID _ _ ?w1 = (Ok _, _), Y : catalogue_inv (w_db ?w1) |- _ =>
      let E := fresh "E" in let L := fresh "L" in let T := fresh "T" in let I := fresh "I" in
      apply (GetUnitByID_Ok _ _ _ _ _ (ci_units _ Y)) in X as (E & L & T & I); rewrite <- E in *
  | X : repo_GetProductByID _ _ ?w1 = (Ok _, _), Y : catalogue_inv (w_db ?w1) |- _ =>
      let E := fresh "E" in let L := fresh "L" in let T := fresh "T" in let r := fresh "r" in
      apply (GetProductByID_Ok _ _ _ _ _ (ci_prods _ Y)) in X as (E & _ & _ & r & L & T); rewrite <- E in *
  end.

Lemma CreateConversion_inv ctx cmd w :
  catalogue_inv (w_db w) -> catalogue_inv (w_db (CreateConversion ctx cmd w).2).
Proof.
  intros Hi. apply writes_last_inv; [unfold CreateConversion, repo_CreateConversion; frame | done |].
  intros c w' E. unfold CreateConversion, repo_CreateConversion in E. step_inv. follow_lookups.
  cbn [w_db tick] in *. case_match eqn:Er; simplify_eq. case_match. case_match; simplify_eq.
  apply insert_row_Ok in Er as (-> & -> & Hf & Hu & _).
  match goal with X : bool_decide (_ = _) = false |- _ => apply bool_decide_eq_false in X end.
  apply insert_conversion_inv; cbn; eauto.
Qed.

Lemma CreateProduct_inv ctx cmd w :
  catalogue_inv (w_db w) -> catalogue_inv (w_db (CreateProduct ctx cmd w).2).
Proof.
  intros Hi. apply writes_last_inv; [unfold CreateProduct, repo_CreateProduct; frame | done |].
  intros c w' E. unfold CreateProduct, repo_CreateProduct in E. step_inv.
  match goal with X : (if _ then _ else _) w = _ |- _ => apply reads_Ok in X as Hw; [| by frame] end.
  rewrite <- Hw in Hi. follow_lookups.
  cbn [w_db tick] in *. case_match eqn:Er; simplify_eq. case_match. case_match; simplify_eq.
  apply insert_row_Ok in Er as (-> & -> & Hf & Hu & _). apply insert_product_inv; cbn; eauto. exists a2. split; [congruence | done].
Qed.

Lemma UpdateProduct_inv ctx cmd w :
  catalogue_inv (w_db w) -> catalogue_inv (w_db (UpdateProduct ctx cmd w).2).
Proof.
  intros Hi. apply writes_last_inv; [unfold UpdateProduct, repo_UpdateProduct; frame | done |].
  intros c w' E. unfold UpdateProduct, repo_UpdateProduct in E. step_inv. follow_lookups.
  by eapply update_product_inv.
Qed.

Lemma CreateVariant_inv ctx cmd w :
  catalogue_inv (w_db w) -> catalogue_inv (w_db (CreateVariant ctx cmd w).2).
Proof.
  intros Hi. apply writes_last_inv; [unfold CreateVariant, repo_CreateVariant; frame | done |].
  intros c w' E. unfold CreateVariant, repo_CreateVariant in E. step_inv. follow_lookups.
  cbn [w_db tick] in *. case_match eqn:Er; simplify_eq. case_match. case_match; simplify_eq.
  apply insert_row_Ok in Er as (-> & -> & Hf & Hu & _). apply insert_variant_inv; cbn; eauto.
Qed.

Lemma DeleteVariant_inv ctx id w :
  catalogue_inv (w_db w) -> catalogue_inv (w_db (DeleteVariant ctx id w).2).
Proof.
  intros Hi. apply writes_last_inv; [unfold DeleteVariant, repo_DeleteVariant; frame | done |].
  intros c w' E. unfold DeleteVariant, repo_DeleteVariant in E. step_inv. simplify_eq.
  by apply (filter_variants_inv _ (w_db w)).
Qed.

Lemma product_session_inv cs w : catalogue_inv (w_db w) -> catalogue_inv (w_db (product_session cs w)).
Proof.
  unfold product_session. revert w. induction cs as [|c cs IH]; intros w Hi; [done |]. cbn [fold_left]. apply IH.
  destruct c; cbn [product_call_run]; auto using CreateUnit_inv, CreateConversion_inv, CreateProduct_inv,
    UpdateProduct_inv, CreateVariant_inv, DeleteVariant_inv.
Qed.

(** In a consistent catalogue the joins lose no conversion. *)
Lemma join_codes_all d r k :
  catalogue_inv d -> t_conversions d !! k = Some r ->
  exists r', join_codes (t_units d) r = Some r' /\ FromUnitID r' = FromUnitID r
    /\ ToUnitID r' = ToUnitID r /\ Factor r' = Factor r.
Proof.
  intros Hi Hk. destruct (ci_conv_units _ Hi k r Hk) as (_ & (u1 & E1 & _) & (u2 & E2 & _)).
  unfold join_codes. rewrite E1, E2. cbn. eauto.
Qed.
End Inv.

(** ** Isolation *)

Section CatalogueRows.
  Context `{UnicodeTables, Env, Pg, ProductServer}.
  Variable t : ID.

(** Everything a tenant has in the catalogue. *)
Definition catalogue_rows (d : ProductDB) :=
  (rows_in unit_TenantID t (t_units d), rows_in uc_TenantID t (t_conversions d),
   rows_in pr_tenant_id t (t_products d), rows_in pv_TenantID t (t_variants d)).

Definition catalogue_kept (F : _) (d : ProductDB) : Prop := catalogue_rows d = F.

#[local] Hint Resolve reads_get_one reads_get_product reads_ListVariants : go_frame.
#[local] Hint Resolve reads_GetUnitByID reads_GetProductByID reads_GetProductBySKU : go_frame.

(** The single insertion of a call, under a fresh key and for another tenant. *)
Ltac kept_insert := apply preserves_writes_last; [frame |]; intros ? ? ? Hi E; step_inv; repeat (case_match; simplify_eq);
  match goal with X : insert_row _ _ _ _ _ _ = _ |- _ => apply insert_row_Ok in X as (-> & -> & Hf & _) end;
  unfold catalogue_kept, catalogue_rows in *; cbn in *; rewrite rows_in_fresh; [exact Hi | done | done].

Lemma repo_CreateUnit_rows F u : unit_TenantID u <> t -> preserves (catalogue_kept F) (repo_CreateUnit u).
Proof. intros Ht. unfold repo_CreateUnit. kept_insert. Qed.
Lemma repo_CreateConversion_rows F c : uc_TenantID c <> t -> preserves (catalogue_kept F) (repo_CreateConversion c).
Proof. intros Ht. unfold repo_CreateConversion. kept_insert. Qed.
Lemma repo_CreateProduct_rows F p : p_TenantID p <> t -> preserves (catalogue_kept F) (repo_CreateProduct p).
Proof. intros Ht. unfold repo_CreateProduct. kept_insert. Qed.
Lemma repo_CreateVariant_rows F v : pv_TenantID v <> t -> preserves (catalogue_kept F) (repo_CreateVariant v).
Proof. intros Ht. unfold repo_CreateVariant. kept_insert. Qed.

Lemma repo_DeleteVariant_rows F tn id : tn <> t -> preserves (catalogue_kept F) (repo_DeleteVariant tn id).
Proof.
  intros Ht. unfold repo_DeleteVariant. apply preserves_writes_last; [frame |]. intros w r w' Hi E. step_inv. simplify_eq.
  unfold catalogue_kept, catalogue_rows in *. cbn.
  rewrite (rows_in_filter _ _ _ (fun x => sql_eq (pv_TenantID x) (ToPgUUID tn) && sql_eq (pv_ID x) (ToPgUUID id))); [exact Hi |].
  intros x [[_ Hx]%sql_eq_true _]%andb_true_iff. by rewrite Hx.
Qed.

(** An update writes under the key of the row it found, which is of the tenant. *)
Lemma repo_UpdateProduct_rows F p : p_TenantID p <> t ->
  triple (catalogue_kept F) (fun d => catalogue_inv d /\ catalogue_kept F d) (repo_UpdateProduct p) (fun _ => catalogue_kept F).
Proof.
  intros Ht. apply triple_writes_last; [unfold repo_UpdateProduct; frame | by intros d [] |]. intros w r w' [Hi Hk] E.
  unfold repo_UpdateProduct, update_product in E. step_inv. cbn [w_db tick] in *. repeat (case_match; simplify_eq).
  match goal with X : select_one _ _ = Some _ |- _ => apply select_one_Some in X as [Hp [k Hold]] end.
  unfold product_by_id in Hp. rewrite andb_true_iff, !sql_eq_true in Hp. pose proof (ci_prods _ Hi _ _ Hold) as Hid.
  unfold catalogue_kept, catalogue_rows in *. cbn in *. rewrite rows_in_insert; [exact Hk | cbn; naive_solver |].
  intros old' Ho. cbn in Ho. rewrite Hid, Hold in Ho. naive_solver.
Qed.

#[local] Hint Resolve repo_CreateUnit_rows repo_CreateConversion_rows repo_CreateProduct_rows repo_CreateVariant_rows repo_DeleteVariant_rows : table_inv.

Definition product_ctx (c : product_call) : Ctx :=
  match c with
  | CallCreateUnit ctx _ | CallCreateConversion ctx _ | CallCreateProduct ctx _ | CallUpdateProduct ctx _ | CallCreateVariant ctx _ | CallDeleteVariant ctx _ => ctx
  end.

Lemma UpdateProduct_rows F ctx cmd : ctx_tenant ctx <> Some t ->
  triple (catalogue_kept F) (fun d => catalogue_inv d /\ catalogue_kept F d) (UpdateProduct ctx cmd) (fun _ => catalogue_kept F).
Proof.
  intros Ho. apply (triple_other _ _ t); [done | by intros d [] |]. intros tn Ht.
  apply triple_read_fact with (X := fun p => p_TenantID p = tn); [apply reads_GetProductByID | by intros d [] | |].
  { intros w p w' E. by apply GetProductByID_tenant in E. }
  intros p Hp. apply repo_UpdateProduct_rows. cbn. congruence.
Qed.

Lemma product_call_rows c w : catalogue_inv (w_db w) -> ctx_tenant (product_ctx c) <> Some t ->
  catalogue_rows (w_db (product_call_run c w)) = catalogue_rows (w_db w).
Proof.
  intros Hi Ho. set (F := catalogue_rows (w_db w)).
  assert (forall A (m : M ProductDB A), preserves (catalogue_kept F) m -> catalogue_rows (w_db (m w).2) = F) as Hm by (intros A m X; by apply X).
  destruct c; cbn [product_call_run product_ctx] in *.
  4: { pose proof (UpdateProduct_rows F ctx cmd Ho w ltac:(done)) as Hu. by destruct (UpdateProduct ctx cmd w) as [[a|e|e] w']. }
  all: apply Hm, (preserves_other _ t); [done |]; intros tn Ht; keep.
Qed.

Lemma product_session_rows cs w : catalogue_inv (w_db w) -> Forall (fun c => ctx_tenant (product_ctx c) <> Some t) cs ->
  catalogue_rows (w_db (product_session cs w)) = catalogue_rows (w_db w).
Proof.
  intros Hi Hc. revert w Hi. induction Hc as [|c cs Ho Hc IH]; intros w Hi; [done |].
  change (product_session (c :: cs) w) with (product_session cs (product_call_run c w)).
  rewrite IH by exact (product_session_inv [c] w Hi). by apply product_call_rows.
Qed.
End CatalogueRows.

(** A server that accepts every row that keeps the keys. *)
Definition open_product_server : ProductServer :=
  {| unit_refused _ := None; conversion_refused _ := None; product_refused _ := None; variant_refused _ := None |}.

Definition empty_catalogue : ProductDB := mkProductDB ∅ ∅ ∅ ∅.

Lemma empty_catalogue_inv : catalogue_inv empty_catalogue.
Proof. split; intros k; intros; set_solver. Qed.

(** C9: Through any session of creations, updates and deletions by any tenants,
    with any identifiers, clock and database failures, the catalogue stays
    consistent: unit codes, product SKUs, variant SKUs and conversion pairs are
    unique per tenant; every product has a unit, every conversion two distinct
    units and every variant a product, all of the same tenant (the foreign keys
    do not compare tenants, the use case does).  So reading the conversions of
    a tenant, which joins both units, loses none of them.  And tenants are
    isolated: one that makes no call keeps exactly its units, conversions,
    products and variants. *)
Theorem catalogue_invariant `{UnicodeTables, Env, Pg, ProductServer} cs w :
  catalogue_inv (w_db w) ->
  let w' := product_session cs w in
  catalogue_inv (w_db w')
  /\ (forall tn l w1 k c, ListConversions tn w' = (Ok l, w1) -> tn <> NilID ->
       t_conversions (w_db w') !! k = Some c -> uc_TenantID c = tn ->
       exists c', c' ∈ l /\ FromUnitID c' = FromUnitID c /\ ToUnitID c' = ToUnitID c /\ Factor c' = Factor c)
  /\ forall t, Forall (fun c => ctx_tenant (product_ctx c) <> Some t) cs ->
       catalogue_rows t (w_db w') = catalogue_rows t (w_db w).
Proof.
  intros Hi w'. pose proof (product_session_inv cs w Hi) as Hi'. fold w' in Hi'.
  split; [done |]. split; [| intros t Ht; by apply product_session_rows].
  intros tn l w1 k c E Hn Hk Ht. unfold ListConversions in E. step_inv. simplify_eq.
  destruct (join_codes_all _ _ _ Hi' Hk) as (c' & Ej & Hc'). exists c'. split; [| done].
  rewrite merge_sort_Permutation. apply list_elem_of_omap. exists c. split; [| done].
  apply elem_of_select_rows. split; [by apply sql_eq_true | eauto].
Qed.

(** Two tenants: the second cannot use the unit of the first, nor change or
    delete its product and its variant. *)
Lemma catalogue_invariant_witness :
  let I0 := ascii_tables in let I1 := calm zeroTime 1 in let I2 := pgx 0 in let I3 := open_product_server in
  let a := WithTenantID Background 7%N in let b := WithTenantID Background 8%N in
  let cs := [CallCreateUnit a (mkCreateUnitCommand "box" "Box" "" "" 0);
             CallCreateUnit a (mkCreateUnitCommand "pcs" "Piece" "" "" 0);
             CallCreateConversion a (mkCreateConversionCommand 1%N 4%N (of_Z 12));
             CallCreateProduct a (mkCreateProductCommand "" "X" "" "Pen" "" 1%N None);
             CallCreateVariant a (mkCreateVariantCommand 14%N "X-R" "Red pen" None)] in
  let rival := [CallCreateProduct b (mkCreateProductCommand "" "X" "" "Pen" "" 1%N None);
                CallUpdateProduct b (mkUpdateProductCommand 14%N "Mine" "" "" "" None);
                CallDeleteVariant b 19%N;
                CallCreateUnit b (mkCreateUnitCommand "box" "Box" "" "" 0)] in
  let w1 := product_session cs (mkWorld empty_catalogue 0) in
  let w2 := product_session rival w1 in
  (catalogue_inv (w_db w2) /\ catalogue_rows 7%N (w_db w2) = catalogue_rows 7%N (w_db w1))
  /\ size (t_units (w_db w2)) = 3%nat /\ size (t_conversions (w_db w2)) = 1%nat
  /\ size (t_products (w_db w2)) = 1%nat /\ size (t_variants (w_db w2)) = 1%nat.
Proof.
  intros I0 I1 I2 I3 a b cs rival w1 w2. split; [| by vm_compute].
  destruct (catalogue_invariant rival w1 (product_session_inv cs (mkWorld empty_catalogue 0) empty_catalogue_inv)) as (Hi & _ & Hr).
  split; [exact Hi |]. apply Hr. repeat constructor; by vm_compute.
Defined.
