(* ===== verification/Middleware.v ===== *)
(** * The HTTP and RPC gates

    [internal/core/delivery/http/middleware] ([auth.go], [tenant.go],
    [ratelimit.go]), the error responses of [pkg/response/response.go], the
    order in which [delivery/http/router.go] stacks the middleware, and
    [delivery/rpc/interceptors/auth.go].  A middleware is a function on
    handlers; a handler is any computation that answers a request, given the
    response headers set so far. *)

From S2P Require Import Prelude GoStrings GoTime GoFloat Sdk RateLimit.
#[local] Open Scope string_scope.
#[local] Open Scope list_scope.
#[local] Open Scope Z_scope.

(** ** Requests and replies *)

Abbreviation Headers := (gmap string string).

(** The router has matched the path; a key of the query has its first value. *)
Record Request := mkRequest {
  req_Header : Headers;   (* by canonical name *)
  req_RemoteAddr : string;
  req_Params : gmap string string;
  req_Query : gmap string string;
  req_Body : string;
  req_ctx : Ctx;
}.

(** [r.Header.Get]. *)
Definition Get (r : Request) (name : string) : string := default "" (req_Header r !! name).
Definition WithContext (r : Request) (ctx : Ctx) : Request :=
  mkRequest (req_Header r) (req_RemoteAddr r) (req_Params r) (req_Query r) (req_Body r) ctx.

(** The body of a reply: a [response.Envelope], with data of any type and its meta
    data or with an error's code and message, or a file's content as it is. *)
Inductive Envelope :=
  | EnvData {T : Type} (data : T) (meta : AnyMap)
  | EnvError (code message : string)
  | RawBody (content : string).

Record Reply := mkReply { rp_Status : Z; rp_Header : Headers; rp_Body : Envelope }.

Definition StatusBadRequest : Z := 400.
Definition StatusUnauthorized : Z := 401.
Definition StatusForbidden : Z := 403.
Definition StatusNotFound : Z := 404.
Definition StatusConflict : Z := 409.
Definition StatusTooManyRequests : Z := 429.
Definition StatusInternalServerError : Z := 500.

Definition RespondErr (h : Headers) (status : Z) (code message : string) : Reply :=
  mkReply status (<["Content-Type" := "application/json"]> h) (EnvError code message).

(** [response.FromDomainError]. *)
Definition FromDomainError (h : Headers) (err : error) : Reply :=
  if errors_Is err ErrNotFound then RespondErr h StatusNotFound "NOT_FOUND" (Error err)
  else if errors_Is err ErrAlreadyExists then RespondErr h StatusConflict "ALREADY_EXISTS" (Error err)
  else if errors_Is err ErrInvalidInput || errors_Is err ErrInvalidCurrency || errors_Is err ErrInvalidAmount
          || errors_Is err ErrUnitMismatch || errors_Is err ErrCurrencyMismatch
  then RespondErr h StatusBadRequest "INVALID_INPUT" (Error err)
  else if errors_Is err ErrTenantRequired
  then RespondErr h StatusBadRequest "TENANT_REQUIRED" "X-Tenant-ID header is missing or invalid"
  else if errors_Is err ErrTenantSuspended
  then RespondErr h StatusForbidden "TENANT_SUSPENDED" "Tenant account is suspended"
  else if errors_Is err ErrUnauthorized then RespondErr h StatusUnauthorized "UNAUTHORIZED" (Error err)
  else if errors_Is err ErrForbidden then RespondErr h StatusForbidden "FORBIDDEN" (Error err)
  else RespondErr h StatusInternalServerError "INTERNAL_ERROR" "An unexpected error occurred".

Definition Handler (D : Type) : Type := Request -> Headers -> M D Reply.

(** ** What authentication relies on *)

(** [auth.TokenClaims] without the registered JWT claims. *)
Record TokenClaims := mkTokenClaims {
  tc_UserID : ID;
  tc_TenantID : ID;
  tc_Email : string;
  tc_Name : string;
  tc_Roles : list string;
  tc_Permissions : list string;
}.

(** [auth.TokenManager], as far as requests use it. *)
Class TokenManager (D : Type) := { ValidateToken : string -> M D TokenClaims }.

(** [identity.APIKeyValidator]: a success carries claims. *)
Record APIKeyValidator (D : Type) := mkValidator {
  ValidateAPIKey : Ctx -> string -> string -> M D AuthClaims;
}.
Arguments ValidateAPIKey {D} _ _ _ _.

Definition APIKeyPrefix : string := "mrg_live_".
Definition HeaderTenantID : string := "X-Tenant-Id".   (* canonical form of X-Tenant-ID *)

(** The claims of a user token. *)
Definition user_claims (c : TokenClaims) : AuthClaims :=
  mkAuthClaims (tc_UserID c) (tc_TenantID c) (tc_Email c) (tc_Name c) (tc_Roles c) (tc_Permissions c)
    ActorTypeUser None None.

(** [WithAuthClaims], and [WithTenantID] when the claims have a tenant. *)
Definition inject (ctx : Ctx) (claims : AuthClaims) : Ctx :=
  let ctx := WithAuthClaims ctx (Some claims) in
  if decide (ac_TenantID claims = NilID) then ctx else WithTenantID ctx (ac_TenantID claims).

(** A call of a procedure: its answer, or the code Unauthenticated. *)
Inductive rpc_result (A : Type) := RpcReply (a : A) | Unauthenticated (err : error).
Arguments RpcReply {A} _.
Arguments Unauthenticated {A} _.

Section Gate.
  Context {D : Type} `{UUIDLib, Env, GoPlatform, TokenManager D}.
  Variable kv : option (APIKeyValidator D).

(** Is the credential an API key given as a bearer token? *)
Definition is_bearer_key (scheme tokenStr : string) : bool :=
  (EqualFold scheme "Bearer" || EqualFold scheme "ApiKey") && HasPrefix tokenStr APIKeyPrefix.

(** ** [AuthRequired] *)

Definition AuthRequired (next : Handler D) : Handler D := fun r h =>
  let by_key v key :=
    res <- attempt (ValidateAPIKey v (req_ctx r) key (req_RemoteAddr r)) ;;
    match res with
    | inr err => ret (RespondErr h StatusUnauthorized "INVALID_API_KEY" (Error err))
    | inl claims => next (WithContext r (inject (req_ctx r) claims)) h
    end in
  let by_header :=
    let authHeader := Get r "Authorization" in
    if String.eqb authHeader "" then ret (RespondErr h StatusUnauthorized "UNAUTHORIZED" "Missing Authorization header")
    else match SplitN2 authHeader " " with
    | None => ret (RespondErr h StatusUnauthorized "UNAUTHORIZED" "Malformed Authorization header")
    | Some (scheme, rest) =>
        let tokenStr := TrimSpace rest in
        let by_token :=
          if EqualFold scheme "Bearer" then
            res <- attempt (ValidateToken tokenStr) ;;
            match res with
            | inr _ => ret (RespondErr h StatusUnauthorized "INVALID_TOKEN" "Authentication token is invalid or expired")
            | inl claims => next (WithContext r (inject (req_ctx r) (user_claims claims))) h
            end
          else ret (RespondErr h StatusUnauthorized "UNAUTHORIZED" "Unsupported authentication scheme") in
        match kv with
        | Some v => if is_bearer_key scheme tokenStr then by_key v tokenStr else by_token
        | None => by_token
        end
    end in
  match kv with
  | Some v => if String.eqb (Get r "X-Api-Key") "" then by_header else by_key v (Get r "X-Api-Key")
  | None => by_header
  end.

(** ** [AuthOptional] *)

Definition AuthOptional (next : Handler D) : Handler D := fun r h =>
  let by_key v key :=
    res <- attempt (ValidateAPIKey v (req_ctx r) key (req_RemoteAddr r)) ;;
    match res with
    | inr _ => next r h
    | inl claims => next (WithContext r (inject (req_ctx r) claims)) h
    end in
  let by_header :=
    let authHeader := Get r "Authorization" in
    if String.eqb authHeader "" then next r h
    else match SplitN2 authHeader " " with
    | None => next r h
    | Some (scheme, rest) =>
        let tokenStr := TrimSpace rest in
        let by_token :=
          if EqualFold scheme "Bearer" then
            res <- attempt (ValidateToken tokenStr) ;;
            match res with
            | inr _ => next r h
            | inl claims => next (WithContext r (inject (req_ctx r) (user_claims claims))) h
            end
          else next r h in
        match kv with
        | Some v => if is_bearer_key scheme tokenStr then by_key v tokenStr else by_token
        | None => by_token
        end
    end in
  match kv with
  | Some v => if String.eqb (Get r "X-Api-Key") "" then by_header else by_key v (Get r "X-Api-Key")
  | None => by_header
  end.

(** ** Permissions *)

Definition RequirePermission (permissionCode : string) (next : Handler D) : Handler D := fun r h =>
  if HasPermission (req_ctx r) permissionCode then next r h
  else ret (RespondErr h StatusForbidden "FORBIDDEN"
              ("Permission '" +:+ permissionCode +:+ "' is required to perform this action")).

Definition RequireAnyPermission (permissions : list string) (next : Handler D) : Handler D := fun r h =>
  if existsb (HasPermission (req_ctx r)) permissions then next r h
  else ret (RespondErr h StatusForbidden "FORBIDDEN" "You do not have sufficient permissions to perform this action").

(** ** Tenants *)

Definition TenantRequired (next : Handler D) : Handler D := fun r h =>
  let '(claimsTenantID, hasClaims) := GetTenantID (req_ctx r) in
  let headerRaw := Get r HeaderTenantID in
  if hasClaims && bool_decide (claimsTenantID <> NilID) then
    let mismatch :=
      if String.eqb headerRaw "" then false
      else match ParseID headerRaw with
           | Ok headerID => bool_decide (headerID <> NilID) && bool_decide (headerID <> claimsTenantID)
           | _ => false
           end in
    if mismatch then ret (RespondErr h StatusForbidden "TENANT_MISMATCH"
                            "X-Tenant-ID header does not match the authenticated tenant")
    else next r h
  else if String.eqb headerRaw "" then ret (RespondErr h StatusBadRequest "TENANT_REQUIRED" "Missing X-Tenant-ID header")
  else match ParseID headerRaw with
  | Ok tenantID =>
      if decide (tenantID = NilID)
      then ret (RespondErr h StatusBadRequest "INVALID_TENANT_ID" "X-Tenant-ID must be a valid UUID")
      else next (WithContext r (WithTenantID (req_ctx r) tenantID)) h
  | _ => ret (RespondErr h StatusBadRequest "INVALID_TENANT_ID" "X-Tenant-ID must be a valid UUID")
  end.

Definition TenantOptional (next : Handler D) : Handler D := fun r h =>
  let rawID := Get r HeaderTenantID in
  if String.eqb rawID "" then next r h
  else match ParseID rawID with
  | Ok tenantID => if decide (tenantID = NilID) then next r h
                   else next (WithContext r (WithTenantID (req_ctx r) tenantID)) h
  | _ => next r h
  end.

(** ** Rate limiting *)

Definition rateLimitKey (r : Request) : string :=
  let fallback := "rl:ip:" +:+ req_RemoteAddr r in
  match GetAuthClaims (req_ctx r) with
  | (Some claims, true) =>
      let by_tenant := if decide (ac_TenantID claims = NilID) then fallback
                       else "rl:tenant:" +:+ uuid_String (ac_TenantID claims) in
      match ac_ServiceAccountID claims with
      | Some sa => if String.eqb (ac_ActorType claims) ActorTypeAPIKey then "rl:sa:" +:+ uuid_String sa else by_tenant
      | None => by_tenant
      end
  | _ => fallback
  end.

Definition setRateLimitHeaders (h : Headers) (res : Result) : Headers :=
  if r_Limit res <? 0 then h
  else
    let h := <["X-Ratelimit-Limit" := Itoa (r_Limit res)]> h in
    let h := <["X-Ratelimit-Remaining" := Itoa (r_Remaining res)]> h in
    if IsZero (r_ResetAt res) then h
    else <["X-Ratelimit-Reset" := Itoa (Unix (r_ResetAt res))]> h.

(** [int(d.Seconds())]: whole seconds and the fraction as floats, truncated. *)
Definition seconds (d : Z) : Z :=
  to_int64 (fadd (of_Z (Z.quot d Second)) (fdiv (of_Z (Z.rem d Second)) (of_Z Second))).

Section Limited.
  Context {S : Type} `{Limiter S, Lens D S}.

(** [limiter.Allow], which reads the clock itself. *)
Definition limiter_Allow (key : string) : M D Result :=
  now <- Now ;;
  fun w => match lim_Allow key now (lens_get (w_db w)) with
           | (Some res, s) => (Ok res, mkWorld (lens_set s (w_db w)) (w_tick w))
           | (None, s) => (Panic (ENew "runtime error: index out of range"), mkWorld (lens_set s (w_db w)) (w_tick w))
           end.

Definition RateLimit (next : Handler D) : Handler D := fun r h =>
  res <- limiter_Allow (rateLimitKey r) ;;
  let h := setRateLimitHeaders h res in
  if r_Allowed res then next r h
  else
    now <- Now ;;
    let retryAfter := Z.max (seconds (t_nanos (r_ResetAt res) - t_nanos now)) 1 in
    let h := <["Retry-After" := Itoa retryAfter]> h in
    ret (RespondErr h StatusTooManyRequests "RATE_LIMIT_EXCEEDED"
           ("Rate limit exceeded. Try again in " +:+ Itoa retryAfter +:+ " seconds.")).

(** The stack of a business route: [NewRouter] puts authentication and rate
    limiting on the group, the handler's [RegisterRoutes] the tenant and the
    permission on the route. *)
Definition business_route (permission : string) (endpoint : Handler D) : Handler D :=
  AuthRequired (RateLimit (TenantRequired (RequirePermission permission endpoint))).
End Limited.

(** ** RPC *)

(** [AuthHandler.Authenticate]. *)
Definition Authenticate (ctx : Ctx) (authVal apiKeyVal : string) : M D Ctx :=
  let by_key v key := claims <- ValidateAPIKey v ctx key "" ;; ret (inject ctx claims) in
  let by_auth :=
    if String.eqb authVal "" then fail (ENew "missing authorization credentials")
    else match SplitN2 authVal " " with
    | None => fail (ENew "malformed authorization token")
    | Some (scheme, rest) =>
        let tokenStr := TrimSpace rest in
        let by_token :=
          if EqualFold scheme "Bearer" then
            claims <- ValidateToken tokenStr ;; ret (inject ctx (user_claims claims))
          else fail (ENew "unsupported authorization scheme") in
        match kv with
        | Some v => if is_bearer_key scheme tokenStr then by_key v tokenStr else by_token
        | None => by_token
        end
    end in
  match kv with
  | Some v => if String.eqb apiKeyVal "" then by_auth else by_key v apiKeyVal
  | None => by_auth
  end.

(** The procedures that need no credentials. *)
Definition publicProcs (extra : list string) : gset string :=
  list_to_set (["/mergiate.v1.PingService/Ping"; "/grpc.health.v1.Health/Check"; "/grpc.health.v1.Health/Watch"] ++ extra).

Definition ConnectInterceptor {A} (public : gset string) (proc : string) (headers : Headers)
    (next : Ctx -> M D A) (ctx : Ctx) : M D (rpc_result A) :=
  if bool_decide (proc ∈ public) then a <- next ctx ;; ret (RpcReply a)
  else
    res <- attempt (Authenticate ctx (default "" (headers !! "Authorization")) (default "" (headers !! "X-Api-Key"))) ;;
    match res with
    | inr err => ret (Unauthenticated err)
    | inl authCtx => a <- next authCtx ;; ret (RpcReply a)
    end.

(** [metadata]: every key with its values; [None] when there is none. *)
Definition GRPCUnaryInterceptor {A} (public : gset string) (proc : string) (md : option (gmap string (list string)))
    (handler : Ctx -> M D A) (ctx : Ctx) : M D (rpc_result A) :=
  if bool_decide (proc ∈ public) then a <- handler ctx ;; ret (RpcReply a)
  else match md with
  | None => ret (Unauthenticated (ENew "missing metadata"))
  | Some md =>
      let first key := default "" (vals ← md !! key; head vals) in
      res <- attempt (Authenticate ctx (first "authorization") (first "x-api-key")) ;;
      match res with
      | inr err => ret (Unauthenticated err)
      | inl authCtx => a <- handler authCtx ;; ret (RpcReply a)
      end
  end.

(** ** Lemmas *)

(** *** The credential a request presents *)

Inductive credential :=
  | CredKey (v : APIKeyValidator D) (key : string)
  | CredToken (token : string)
  | CredMissing
  | CredMalformed
  | CredUnsupported.

Definition presented (authHeader apiKey : string) : credential :=
  let by_header :=
    if String.eqb authHeader "" then CredMissing
    else match SplitN2 authHeader " " with
    | None => CredMalformed
    | Some (scheme, rest) =>
        let by_token := if EqualFold scheme "Bearer" then CredToken (TrimSpace rest) else CredUnsupported in
        match kv with
        | Some v => if is_bearer_key scheme (TrimSpace rest) then CredKey v (TrimSpace rest) else by_token
        | None => by_token
        end
    end in
  match kv with
  | Some v => if String.eqb apiKey "" then by_header else CredKey v apiKey
  | None => by_header
  end.

(** The claims [c] come from the presented credential, which its validator
    accepted. *)
Definition authenticated (ctx : Ctx) (ip authHeader apiKey : string) (w : World D) (c : AuthClaims) (w1 : World D) : Prop :=
  match presented authHeader apiKey with
  | CredKey v key => ValidateAPIKey v ctx key ip w = (Ok c, w1)
  | CredToken token => exists t, ValidateToken token w = (Ok t, w1) /\ c = user_claims t
  | _ => False
  end.

(** The answer of a gate that turns a request away: an error with one of the
    statuses, or the panic of a validator. *)
Definition turned_away (statuses : list Z) (rep : res Reply) : Prop :=
  match rep with
  | Ok x => rp_Status x ∈ statuses /\ (exists code msg, rp_Body x = EnvError code msg)
      /\ (rp_Status x = StatusTooManyRequests -> is_Some (rp_Header x !! "Retry-After"))
  | Err _ => False
  | Panic _ => True
  end.

(** The middleware answers without its handler. *)
Definition blocks (mw : Handler D -> Handler D) (statuses : list Z) (r : Request) (h : Headers) (w : World D) : Prop :=
  exists rep w', (forall next, mw next r h w = (rep, w')) /\ turned_away statuses rep.

Lemma blocks_err mw statuses r h w status code msg w' h' :
  (forall next, mw next r h w = (Ok (RespondErr h' status code msg), w')) ->
  status ∈ statuses -> status <> StatusTooManyRequests -> blocks mw statuses r h w.
Proof. intros E Hs Hn. eexists _, _. split; [exact E |]. split; [done |]. split; [by eexists _, _ | done]. Qed.

(** Running a validator: it accepts, refuses or panics. *)
Lemma validator_cases {A} (m : M D A) (mw : Handler D -> Handler D) r h w (ok : A -> Handler D -> M D Reply) code msg :
  (forall next, mw next r h w =
     bind (attempt m) (fun res => match res with
       | inr err => ret (RespondErr h StatusUnauthorized code (msg err)) | inl a => ok a next end) w) ->
  blocks mw [StatusUnauthorized] r h w
  \/ exists a w1, m w = (Ok a, w1) /\ forall next, mw next r h w = ok a next w1.
Proof.
  intros E. destruct (m w) as [[a|e|e] w1] eqn:Em.
  - right. exists a, w1. split; [done |]. intros next. rewrite E. unfold bind, attempt. by rewrite Em.
  - left. eapply (blocks_err _ _ _ _ _ StatusUnauthorized code (msg e) w1 h); [| by left | done].
    intros next. rewrite E. unfold bind, attempt. by rewrite Em.
  - left. exists (Panic e), w1. split; [| done]. intros next. rewrite E. unfold bind, attempt. by rewrite Em.
Qed.

Lemma AuthRequired_presented next r h :
  AuthRequired next r h =
  match presented (Get r "Authorization") (Get r "X-Api-Key") with
  | CredKey v key => bind (attempt (ValidateAPIKey v (req_ctx r) key (req_RemoteAddr r))) (fun res =>
      match res with
      | inr err => ret (RespondErr h StatusUnauthorized "INVALID_API_KEY" (Error err))
      | inl claims => next (WithContext r (inject (req_ctx r) claims)) h
      end)
  | CredToken token => bind (attempt (ValidateToken token)) (fun res =>
      match res with
      | inr _ => ret (RespondErr h StatusUnauthorized "INVALID_TOKEN" "Authentication token is invalid or expired")
      | inl claims => next (WithContext r (inject (req_ctx r) (user_claims claims))) h
      end)
  | CredMissing => ret (RespondErr h StatusUnauthorized "UNAUTHORIZED" "Missing Authorization header")
  | CredMalformed => ret (RespondErr h StatusUnauthorized "UNAUTHORIZED" "Malformed Authorization header")
  | CredUnsupported => ret (RespondErr h StatusUnauthorized "UNAUTHORIZED" "Unsupported authentication scheme")
  end.
Proof.
  unfold AuthRequired, presented.
  destruct kv as [v|]; [destruct (String.eqb (Get r "X-Api-Key") ""); [| done] |];
    (destruct (String.eqb (Get r "Authorization") ""); [done |];
     destruct (SplitN2 (Get r "Authorization") " ") as [[scheme rest]|]; [| done]; cbv zeta).
  - destruct (is_bearer_key scheme (TrimSpace rest)); [done |]. by destruct (EqualFold scheme "Bearer").
  - by destruct (EqualFold scheme "Bearer").
Qed.

Lemma Authenticate_presented ctx authVal apiKeyVal :
  Authenticate ctx authVal apiKeyVal =
  match presented authVal apiKeyVal with
  | CredKey v key => bind (ValidateAPIKey v ctx key "") (fun claims => ret (inject ctx claims))
  | CredToken token => bind (ValidateToken token) (fun claims => ret (inject ctx (user_claims claims)))
  | CredMissing => fail (ENew "missing authorization credentials")
  | CredMalformed => fail (ENew "malformed authorization token")
  | CredUnsupported => fail (ENew "unsupported authorization scheme")
  end.
Proof.
  unfold Authenticate, presented.
  destruct kv as [v|]; [destruct (String.eqb apiKeyVal ""); [| done] |];
    (destruct (String.eqb authVal ""); [done |];
     destruct (SplitN2 authVal " ") as [[scheme rest]|]; [| done]; cbv zeta).
  - destruct (is_bearer_key scheme (TrimSpace rest)); [done |]. by destruct (EqualFold scheme "Bearer").
  - by destruct (EqualFold scheme "Bearer").
Qed.

Lemma AuthRequired_gate r h w :
  blocks AuthRequired [StatusUnauthorized] r h w
  \/ exists c w1, authenticated (req_ctx r) (req_RemoteAddr r) (Get r "Authorization") (Get r "X-Api-Key") w c w1
       /\ forall next, AuthRequired next r h w = next (WithContext r (inject (req_ctx r) c)) h w1.
Proof.
  unfold authenticated. pose proof (fun next => AuthRequired_presented next r h) as E.
  destruct (presented _ _) as [v key|token| | |];
    try (left; eapply (blocks_err _ _ _ _ _ StatusUnauthorized); [intros next; by rewrite E | by left | done]).
  - destruct (validator_cases _ AuthRequired r h w (fun claims next => next (WithContext r (inject (req_ctx r) claims)) h)
      "INVALID_API_KEY" Error (fun next => f_equal (fun f => f w) (E next))) as [|(c & w1 & Ec & En)]; eauto.
  - destruct (validator_cases _ AuthRequired r h w
      (fun claims next => next (WithContext r (inject (req_ctx r) (user_claims claims))) h)
      "INVALID_TOKEN" (fun _ => "Authentication token is invalid or expired")
      (fun next => f_equal (fun f => f w) (E next))) as [|(c & w1 & Ec & En)]; [by left |].
    right. exists (user_claims c), w1. split; [| done]. eauto.
Qed.

Lemma RequirePermission_gate p r h w :
  blocks (RequirePermission p) [StatusForbidden] r h w
  \/ HasPermission (req_ctx r) p = true /\ forall next, RequirePermission p next r h w = next r h w.
Proof.
  unfold RequirePermission. destruct (HasPermission (req_ctx r) p) eqn:E; [by right |].
  left. eapply (blocks_err _ _ _ _ _ StatusForbidden); [intros; by rewrite E | by left | done].
Qed.

Lemma TenantRequired_gate r h w :
  blocks TenantRequired [StatusBadRequest; StatusForbidden] r h w
  \/ exists tn, tn <> NilID
       /\ (forall t, ctx_tenant (req_ctx r) = Some t -> t <> NilID ->
             t = tn /\ forall t', ParseID (Get r HeaderTenantID) = Ok t' -> Get r HeaderTenantID <> "" -> t' = tn \/ t' = NilID)
       /\ ((forall t, ctx_tenant (req_ctx r) = Some t -> t = NilID) -> ParseID (Get r HeaderTenantID) = Ok tn)
       /\ forall next, TenantRequired next r h w
            = next (WithContext r (mkCtx (Some tn) (ctx_claims (req_ctx r)) (ctx_tx (req_ctx r)))) h w.
Proof.
  assert (forall t, ctx_tenant (req_ctx r) = Some t ->
    WithContext r (mkCtx (Some t) (ctx_claims (req_ctx r)) (ctx_tx (req_ctx r))) = r) as Hsame.
  { intros t Ht. destruct r as [hd ad ps qs bd [tn cl tx]]. cbn in *. by subst. }
  assert ((exists t, ctx_tenant (req_ctx r) = Some t /\ t <> NilID)
          \/ ~ (exists t, ctx_tenant (req_ctx r) = Some t /\ t <> NilID)) as [(t & Ht & Hn)|Hnone].
  { destruct (ctx_tenant (req_ctx r)) as [t|]; [destruct (decide (t = NilID)) |]; naive_solver. }
  - assert (GetTenantID (req_ctx r) = (t, true)) as Eg
      by (unfold GetTenantID; rewrite Ht; by rewrite decide_False).
    unfold TenantRequired. rewrite Eg. cbn [andb]. rewrite bool_decide_eq_true_2 by done. cbn [andb].
    set (mismatch := if String.eqb (Get r HeaderTenantID) "" then false else _).
    destruct mismatch eqn:Em.
    + left. eapply (blocks_err _ _ _ _ _ StatusForbidden); [| by right; left | done].
      intros next. unfold TenantRequired. rewrite Eg. cbn [andb]. rewrite bool_decide_eq_true_2 by done.
      cbn [andb]. fold mismatch. by rewrite Em.
    + right. exists t. split; [done |]. split; [| split].
      * intros t0 E0 _. rewrite Ht in E0. injection E0 as <-. split; [done |]. intros t' Hp Hh.
        unfold mismatch in Em. rewrite (proj2 (String.eqb_neq _ _) Hh), Hp in Em.
        apply andb_false_iff in Em as [Em|Em]; apply bool_decide_eq_false in Em; apply dec_stable in Em; auto.
      * intros Hall. by destruct (Hn (Hall t Ht)).
      * intros next. by rewrite Hsame.
  - assert (GetTenantID (req_ctx r) = (NilID, false)) as Eg.
    { unfold GetTenantID. destruct (ctx_tenant (req_ctx r)) as [t|]; [| done].
      case_decide; [done |]. destruct Hnone; eauto. }
    assert (forall t, ctx_tenant (req_ctx r) = Some t -> t <> NilID -> False) as Hno by (intros; apply Hnone; eauto).
    destruct (String.eqb (Get r HeaderTenantID) "") eqn:Eh.
    { left. eapply (blocks_err _ _ _ _ _ StatusBadRequest); [| by left | done].
      intros next. unfold TenantRequired. by rewrite Eg, Eh. }
    destruct (ParseID (Get r HeaderTenantID)) as [tn|e|e] eqn:Ep;
      [destruct (decide (tn = NilID)) as [Hz|Hz] | |];
      try (left; eapply (blocks_err _ _ _ _ _ StatusBadRequest); [| by left | done];
           intros next; unfold TenantRequired; rewrite Eg, Eh, Ep; cbn [andb]; rewrite ?decide_True by done; done).
    right. exists tn. split; [done |]. split; [naive_solver |]. split; [done |].
    intros next. unfold TenantRequired. rewrite Eg, Eh, Ep. cbn [andb]. by rewrite decide_False.
Qed.

Section LimitedGate.
  Context {S : Type} `{Limiter S, Lens D S}.

Lemma RateLimit_gate r h w :
  blocks RateLimit [StatusTooManyRequests] r h w
  \/ exists h' w', (exists s, w_db w' = lens_set s (w_db w)) /\ forall next, RateLimit next r h w = next r h' w'.
Proof.
  destruct (limiter_Allow (rateLimitKey r) w) as [[res|e|e] w1] eqn:E.
  - destruct (r_Allowed res) eqn:Ea.
    + right. eexists _, w1. split.
      * unfold limiter_Allow, bind, Now in E. destruct (lim_Allow _ _ _) as [[?|] s]; [| done]. injection E as _ <-. by exists s.
      * intros next. unfold RateLimit, bind. rewrite E. by rewrite Ea.
    + left. unfold blocks. eexists (Ok (RespondErr _ StatusTooManyRequests _ _)), _. split.
      * intros next. unfold RateLimit, bind. rewrite E, Ea. unfold Now, ret. reflexivity.
      * split; [by left |]. split; [by eexists _, _ |]. intros _. cbn.
        rewrite lookup_insert_ne by done. by rewrite lookup_insert_eq.
  - unfold limiter_Allow, bind, Now in E. by destruct (lim_Allow _ _ _) as [[?|] ?].
  - left. exists (Panic e), w1. split; [| done]. intros next. unfold RateLimit, bind. by rewrite E.
Qed.

Lemma turned_away_mono l l' rep : (forall x, x ∈ l -> x ∈ l') -> turned_away l rep -> turned_away l' rep.
Proof. intros Hl. destruct rep; [| done | done]. intros (H1' & H2' & H3'). split_and!; auto. Qed.

(** A gate behind gates that let the request through. *)
Lemma blocks_inner (outer inner : Handler D -> Handler D) l l' r h w r1 h1 w1 :
  (forall next, outer next r h w = next r1 h1 w1) -> (forall x, x ∈ l -> x ∈ l') ->
  blocks inner l r1 h1 w1 -> blocks (fun next => outer (inner next)) l' r h w.
Proof.
  intros E Hl (rep & w' & Eb & Ht). exists rep, w'. split; [intros; by rewrite E | by eapply turned_away_mono].
Qed.

Lemma blocks_outer (outer inner : Handler D -> Handler D) l l' r h w :
  (forall x, x ∈ l -> x ∈ l') -> blocks outer l r h w -> blocks (fun next => outer (inner next)) l' r h w.
Proof. intros Hl (rep & w' & Eb & Ht). exists rep, w'. split; [done | by eapply turned_away_mono]. Qed.
End LimitedGate.

Lemma inject_tenant ctx c :
  ctx_tenant (inject ctx c) = (if decide (ac_TenantID c = NilID) then ctx_tenant ctx else Some (ac_TenantID c))
  /\ ctx_claims (inject ctx c) = Some (Some c).
Proof. unfold inject. case_decide; done. Qed.

(** The RPC interceptor lets a call through with the claims of its credential,
    or answers Unauthenticated (or panics with the validator). *)
Definition rpc_blocks {A} (call : (Ctx -> M D A) -> M D (rpc_result A)) (w : World D) : Prop :=
  exists rep w', (forall next, call next w = (rep, w'))
    /\ match rep with Ok (Unauthenticated _) | Panic _ => True | _ => False end.

Lemma Authenticate_cases ctx authVal apiKeyVal w :
  (exists c w1, authenticated ctx "" authVal apiKeyVal w c w1 /\ Authenticate ctx authVal apiKeyVal w = (Ok (inject ctx c), w1))
  \/ exists e w1, Authenticate ctx authVal apiKeyVal w = (Err e, w1) \/ Authenticate ctx authVal apiKeyVal w = (Panic e, w1).
Proof.
  rewrite Authenticate_presented. unfold authenticated.
  destruct (presented authVal apiKeyVal) as [v key|token| | |]; [| | right; unfold fail; eauto ..].
  - unfold bind, ret. destruct (ValidateAPIKey v ctx key "" w) as [[c|e|e] w1] eqn:E; eauto 6.
  - unfold bind, ret. destruct (ValidateToken token w) as [[c|e|e] w1] eqn:E; eauto 6. left.
    exists (user_claims c), w1. eauto.
Qed.

Lemma ConnectInterceptor_gate {A} public proc headers ctx w :
  proc ∉ public ->
  rpc_blocks (A := A) (fun next => ConnectInterceptor public proc headers next ctx) w
  \/ exists c w1, authenticated ctx "" (default "" (headers !! "Authorization")) (default "" (headers !! "X-Api-Key")) w c w1
       /\ forall next : Ctx -> M D A, ConnectInterceptor public proc headers next ctx w
            = bind (next (inject ctx c)) (fun a => ret (RpcReply a)) w1.
Proof.
  intros Hp. unfold ConnectInterceptor, rpc_blocks. rewrite bool_decide_eq_false_2 by done.
  destruct (Authenticate_cases ctx (default "" (headers !! "Authorization")) (default "" (headers !! "X-Api-Key")) w)
    as [(c & w1 & Ha & E)|(e & w1 & [E|E])].
  - right. exists c, w1. split; [done |]. intros next. unfold bind at 1, attempt. by rewrite E.
  - left. exists (Ok (Unauthenticated e)), w1. split; [| done]. intros next. unfold bind at 1, attempt. by rewrite E.
  - left. exists (Panic e), w1. split; [| done]. intros next. unfold bind at 1, attempt. by rewrite E.
Qed.
End Gate.

(** A platform of tests: one user token, one API key, a limiter of one request
    a minute. *)
Definition test_uuid : UUIDLib :=
  {| uuid_Parse s := if String.eqb s "seven" then Some 7%N else if String.eqb s "eight" then Some 8%N else None;
     uuid_String n := Itoa (Z.of_N n) |}.

Definition test_tokens : TokenManager inMemoryLimiter :=
  {| ValidateToken s := if String.eqb s "alice"
       then ret (mkTokenClaims 1%N 7%N "a@x" "Alice" [] ["document:read"]) else fail (ESentinel ErrInvalidToken) |}.

Lemma alice_tenant ctx ip w c w1 :
  @authenticated _ test_tokens None ctx ip "Bearer alice" "" w c w1 -> ac_TenantID c = 7%N.
Proof. intros (t & E & ->). injection E as <- _. done. Qed.


