(* ===== verification/Http.v ===== *)
(** * Routes and handlers

    What the handlers of [internal/core/delivery/http/v1] share: the values of a
    request they read, the replies of [pkg/response/response.go], and the
    middleware that [RegisterRoutes] and [NewRouter] put in front of them, as a
    list of gates.  Decoding a JSON body is a parameter. *)

From S2P Require Import Prelude GoStrings GoTime GoFloat Sdk RateLimit Middleware.
#[local] Open Scope string_scope.
#[local] Open Scope list_scope.
#[local] Open Scope Z_scope.

(** ** Values of a request *)

(** [strconv.Atoi] with its value, which is the nearest one out of range and
    zero otherwise, and whether there was no error. *)
Definition Atoi (s : string) : Z * bool :=
  let '(neg, ds) := match s with
                    | String c s' => if Ascii.eqb c "-" then (true, s') else if Ascii.eqb c "+" then (false, s') else (false, s)
                    | "" => (false, "")
                    end in
  if String.eqb ds "" || negb (all_chars is_digit ds) then (0, false)
  else
    let n := digits_val 0 ds in
    if neg then if n <=? 2 ^ 63 then (- n, true) else (- 2 ^ 63, false)
    else if n <? 2 ^ 63 then (n, true) else (2 ^ 63 - 1, false).

(** [b, _ := strconv.ParseBool(s)]. *)
Definition ParseBool_ignore (s : string) : bool := bool_decide (s ∈ ["1"; "t"; "T"; "TRUE"; "true"; "True"]).

(** [chi.URLParam] and [r.URL.Query().Get]. *)
Definition URLParam (r : Request) (name : string) : string := default "" (req_Params r !! name).
Definition QueryGet (r : Request) (name : string) : string := default "" (req_Query r !! name).

(** [if p, err := strconv.Atoi(q); err == nil && p > 0 { v = int32(p) }]. *)
Definition positive_or (dflt : Z) (q : string) : Z :=
  let '(p, ok) := Atoi q in if ok && (0 <? p) then int32 p else dflt.

(** A query value that is left out when empty. *)
Definition optional (q : string) : option string := if String.eqb q "" then None else Some q.

(** [if q != "" { if id, err := shared.ParseID(q); err == nil { p = &id } }]. *)
Definition optional_id `{UUIDLib} (q : string) : option ID :=
  if String.eqb q "" then None else match ParseID q with Ok id => Some id | _ => None end.

(** [json.NewDecoder(r.Body).Decode(&v)] on a new [v]. *)
Class Decoder (C : Type) := { Decode : string -> option C }.

(** ** Replies *)

Definition StatusOK : Z := 200.
Definition StatusCreated : Z := 201.

(** [response.JSON]. *)
Definition RespondJSON {T} (h : Headers) (status : Z) (data : T) (meta : AnyMap) : Reply :=
  mkReply status (<["Content-Type" := "application/json"]> h) (EnvData data meta).

Section Steps.
  Context {D : Type} `{UUIDLib}.

(** [tenantID, err := shared.RequireTenantID(r.Context())] or the error. *)
Definition with_tenant (r : Request) (h : Headers) (k : ID -> M D Reply) : M D Reply :=
  match RequireTenantID (req_ctx r) with
  | Ok tenantID => k tenantID
  | Err err => ret (FromDomainError h err)
  | Panic e => panic e
  end.

(** [id, err := shared.ParseID(chi.URLParam(r, name))] or a bad request. *)
Definition with_id (r : Request) (h : Headers) (name code message : string) (k : ID -> M D Reply) : M D Reply :=
  match ParseID (URLParam r name) with
  | Ok id => k id
  | _ => ret (RespondErr h StatusBadRequest code message)
  end.

(** A decoded body or a bad request. *)
Definition with_body {C} `{Decoder C} (r : Request) (h : Headers) (code message : string) (k : C -> M D Reply) : M D Reply :=
  match Decode (req_Body r) with
  | Some c => k c
  | None => ret (RespondErr h StatusBadRequest code message)
  end.

(** [res, err := usecase(...)]: the reply of a result, or of the error. *)
Definition respond {A} (h : Headers) (call : M D A) (k : A -> Reply) : M D Reply :=
  r <- attempt call ;;
  match r with
  | inl a => ret (k a)
  | inr err => ret (FromDomainError h err)
  end.
End Steps.

Definition malformed : string := "Malformed request body".

(** ** Gates *)

(** The middleware of a route, from the outside in.  [AuthRequired] is used with
    and without the validator of API keys. *)
Inductive Gate :=
  | GAuth (keys : bool)
  | GRate
  | GTenant
  | GPermission (code : string)
  | GAnyPermission (codes : list string).

Section Serve.
  Context {D S : Type} `{UUIDLib, Env, GoPlatform, TokenManager D, Limiter S, Lens D S}.
  Variable kv : option (APIKeyValidator D).

Definition gate (g : Gate) (next : Handler D) : Handler D :=
  match g with
  | GAuth keys => AuthRequired (if keys then kv else None) next
  | GRate => RateLimit next
  | GTenant => TenantRequired next
  | GPermission code => RequirePermission code next
  | GAnyPermission codes => RequireAnyPermission codes next
  end.

Definition serve (gates : list Gate) (endpoint : Handler D) : Handler D := fold_right gate endpoint gates.

(** A request that gets through a list of gates, with the request and the world
    its endpoint sees. *)
Inductive admitted : list Gate -> Request -> World D -> Request -> World D -> Prop :=
  | admitted_all r w : admitted [] r w r w
  | admitted_auth (keys : bool) gs r w c w1 r' w' :
      authenticated (if keys then kv else None) (req_ctx r) (req_RemoteAddr r) (Get r "Authorization") (Get r "X-Api-Key") w c w1 ->
      admitted gs (WithContext r (inject (req_ctx r) c)) w1 r' w' -> admitted (GAuth keys :: gs) r w r' w'
  | admitted_rate gs r w (s : S) n r' w' : admitted gs r (mkWorld (lens_set s (w_db w)) n) r' w' -> admitted (GRate :: gs) r w r' w'
  | admitted_tenant gs r w tn r' w' :
      tn <> NilID ->
      (forall t, ctx_tenant (req_ctx r) = Some t -> t <> NilID -> t = tn) ->
      ((forall t, ctx_tenant (req_ctx r) = Some t -> t = NilID) -> ParseID (Get r HeaderTenantID) = Ok tn) ->
      admitted gs (WithContext r (mkCtx (Some tn) (ctx_claims (req_ctx r)) (ctx_tx (req_ctx r)))) w r' w' ->
      admitted (GTenant :: gs) r w r' w'
  | admitted_permission code gs r w r' w' :
      HasPermission (req_ctx r) code = true -> admitted gs r w r' w' -> admitted (GPermission code :: gs) r w r' w'
  | admitted_any codes gs r w r' w' code :
      code ∈ codes -> HasPermission (req_ctx r) code = true -> admitted gs r w r' w' -> admitted (GAnyPermission codes :: gs) r w r' w'.

Definition gate_statuses : list Z := [StatusBadRequest; StatusUnauthorized; StatusForbidden; StatusTooManyRequests].

Lemma RequireAnyPermission_gate codes r h (w : World D) :
  blocks (RequireAnyPermission codes) [StatusForbidden] r h w
  \/ (exists code, code ∈ codes /\ HasPermission (req_ctx r) code = true)
     /\ forall next, RequireAnyPermission codes next r h w = next r h w.
Proof.
  unfold RequireAnyPermission. destruct (existsb (HasPermission (req_ctx r)) codes) eqn:E.
  - right. split; [| done]. apply existsb_exists in E as (c & Hc & Hp). exists c. by rewrite list_elem_of_In.
  - left. eapply (blocks_err _ _ _ _ _ StatusForbidden); [intros; by rewrite E | by left | done].
Qed.

(** One gate: it answers itself, or the rest runs on what it passes on. *)
Lemma gate_cases g gs r h w :
  blocks (gate g) gate_statuses r h w
  \/ exists r1 h1 w1, (forall next, gate g next r h w = next r1 h1 w1) /\ forall r' w', admitted gs r1 w1 r' w' -> admitted (g :: gs) r w r' w'.
Proof.
  assert (forall mw l, (forall x, x ∈ l -> x ∈ gate_statuses) -> blocks mw l r h w -> blocks mw gate_statuses r h w) as Hm.
  { intros mw l Hl (rep & w' & E & Ht). exists rep, w'. split; [done |]. by eapply turned_away_mono. }
  destruct g as [keys| | |code|codes]; cbn [gate].
  - destruct (AuthRequired_gate (if keys then kv else None) r h w) as [Hb|(c & w1 & Ha & E)];
      [left; eapply Hm; [| exact Hb]; set_solver | right]. do 3 eexists. split; [exact E |]. intros. by eapply admitted_auth.
  - destruct (RateLimit_gate r h w) as [Hb|(h' & w1 & (s & Hs) & E)]; [left; eapply Hm; [| exact Hb]; set_solver | right].
    do 3 eexists. split; [exact E |]. intros r' w' Ha. apply (admitted_rate _ _ _ s (w_tick w1)). rewrite <- Hs. by destruct w1.
  - destruct (TenantRequired_gate r h w) as [Hb|(tn & Hn & Hc & Hh & E)]; [left; eapply Hm; [| exact Hb]; set_solver | right].
    do 3 eexists. split; [exact E |]. intros r' w' Ha. eapply admitted_tenant; [exact Hn | | exact Hh | exact Ha]. intros t Et Ht. by destruct (Hc t Et Ht).
  - destruct (RequirePermission_gate code r h w) as [Hb|[Hp E]]; [left; eapply Hm; [| exact Hb]; set_solver | right].
    do 3 eexists. split; [exact E |]. intros. by constructor.
  - destruct (RequireAnyPermission_gate codes r h w) as [Hb|[(c & Hc & Hp) E]]; [left; eapply Hm; [| exact Hb]; set_solver | right].
    do 3 eexists. split; [exact E |]. intros. by eapply admitted_any.
Qed.

(** A stack of gates answers itself, the same for every endpoint, or runs the
    endpoint on an admitted request. *)
Lemma serve_cases gates r h w :
  blocks (serve gates) gate_statuses r h w
  \/ exists r' h' w', admitted gates r w r' w' /\ forall endpoint, serve gates endpoint r h w = endpoint r' h' w'.
Proof.
  revert r h w. induction gates as [|g gs IH]; intros r h w.
  { right. exists r, h, w. split; [constructor | done]. }
  destruct (gate_cases g gs r h w) as [Hb|(r1 & h1 & w1 & E & Ha)].
  { left. by apply (blocks_outer (gate g) (serve gs) gate_statuses gate_statuses). }
  destruct (IH r1 h1 w1) as [Hb|(r' & h' & w' & Had & E')].
  { left. by apply (blocks_inner (gate g) (serve gs) gate_statuses gate_statuses r h w r1 h1 w1 E). }
  right. exists r', h', w'. split; [by apply Ha |]. intros endpoint. cbn [serve fold_right]. rewrite E. apply E'.
Qed.
End Serve.

(** ** What a request leaves alone *)

(** A reply to a call on a component: the component as the call leaves it. *)
Lemma respond_zoom {D E A} `{Lens D E} h (m : M E A) k (w : World D) :
  w_db (respond h (zoom m) k w).2 = lens_set (w_db (m (mkWorld (lens_get (w_db w)) (w_tick w))).2) (w_db w).
Proof. unfold respond, bind, attempt, zoom. by destruct (m _) as [[a|e|e] w1]. Qed.

Section Keep.
  Context {D X : Type} `{UUIDLib} (f : D -> X).

Lemma respond_keeps {A} h (call : M D A) k : keeps f call -> keeps f (respond h call k).
Proof. intros Hc. apply keeps_bind; [by apply keeps_attempt |]. intros [a|e]; apply keeps_ret. Qed.

Lemma with_tenant_keeps r h (k : ID -> M D Reply) : (forall t, keeps f (k t)) -> keeps f (with_tenant r h k).
Proof. intros Hk. unfold with_tenant. case_match; [apply Hk | apply keeps_ret | by intros w]. Qed.

Lemma with_id_keeps r h name code msg (k : ID -> M D Reply) : (forall t, keeps f (k t)) -> keeps f (with_id r h name code msg k).
Proof. intros Hk. unfold with_id. case_match; [apply Hk | apply keeps_ret | apply keeps_ret]. Qed.

Lemma with_body_keeps {C} `{Decoder C} r h code msg (k : C -> M D Reply) : (forall c, keeps f (k c)) -> keeps f (with_body r h code msg k).
Proof. intros Hk. unfold with_body. case_match; [apply Hk | apply keeps_ret]. Qed.
End Keep.

Section ServeKeeps.
  Context {D S X : Type} `{UUIDLib, Env, GoPlatform, TokenManager D, Limiter S, Lens D S}.
  Variables (kv : option (APIKeyValidator D)) (f : D -> X).
  Hypothesis limiter_kept : forall s d, f (lens_set (s : S) d) = f d.
  Hypothesis keys_kept : forall v, kv = Some v -> forall ctx key ip, keeps f (ValidateAPIKey v ctx key ip).
  Hypothesis tokens_kept : forall token, keeps f (ValidateToken token).

Lemma presented_validator keys a k v key : presented (if keys : bool then kv else None) a k = CredKey v key -> kv = Some v.
Proof. unfold presented. destruct keys; repeat case_match; congruence. Qed.

Lemma gate_keeps g next : (forall r h, keeps f (next r h)) -> forall r h, keeps f (gate kv g next r h).
Proof.
  intros Hn r h. destruct g as [keys| | |code|codes]; cbn [gate].
  - rewrite AuthRequired_presented. destruct (presented _ _ _) as [v key|token| | |] eqn:Ep; try apply keeps_ret.
    + apply presented_validator in Ep. apply keeps_bind; [apply keeps_attempt; by apply keys_kept |].
      intros [c|e]; [apply Hn | apply keeps_ret].
    + apply keeps_bind; [apply keeps_attempt, tokens_kept |]. intros [c|e]; [apply Hn | apply keeps_ret].
  - apply keeps_bind.
    + apply keeps_bind; [by intros w |]. intros now w. destruct (lim_Allow _ _ _) as [[res|] s]; apply limiter_kept.
    + intros res. case_match; [apply Hn |]. apply keeps_bind; [by intros w | intros; apply keeps_ret].
  - unfold TenantRequired. repeat case_match; try apply keeps_ret; apply Hn.
  - unfold RequirePermission. case_match; [apply Hn | apply keeps_ret].
  - unfold RequireAnyPermission. case_match; [apply Hn | apply keeps_ret].
Qed.

Lemma serve_keeps gates endpoint : (forall r h, keeps f (endpoint r h)) -> forall r h, keeps f (serve kv gates endpoint r h).
Proof. intros He. induction gates as [|g gs IH]; [done |]. by apply gate_keeps. Qed.

(** The world in which the endpoint runs, and the one a refusal leaves. *)
Lemma serve_frame gates endpoint r h w :
  f (w_db (serve kv gates endpoint r h w).2) = f (w_db w)
  \/ exists r' h' w', admitted (S := S) kv gates r w r' w' /\ serve kv gates endpoint r h w = endpoint r' h' w' /\ f (w_db w') = f (w_db w).
Proof.
  set (nop := (fun _ h => ret (RespondErr h 0 "" "")) : Handler D).
  pose proof (serve_keeps gates nop (fun _ _ => keeps_ret f _) r h w) as Hk.
  destruct (serve_cases kv gates r h w) as [(rep & w' & E & _)|(r' & h' & w' & Ha & E)].
  - left. by rewrite E, <- (E nop).
  - right. exists r', h', w'. rewrite E in Hk. by split_and!.
Qed.
End ServeKeeps.
