(* ===== verification/Storage.v ===== *)
(** * Paths and the local storage driver

    Go's [path/filepath] on Unix as far as the program uses it ([Clean],
    [Join], [Base], [Dir], [Ext]), and [pkg/storage/local/local.go] over a file
    system of regular files and directories.  Every system call may fail. *)

From S2P Require Import Prelude GoStrings GoTime Sdk.
#[local] Open Scope string_scope.
#[local] Open Scope list_scope.
#[local] Open Scope Z_scope.

(** ** Paths *)

(** [strings.Split(s, "/")]. *)
Fixpoint split (s : string) : list string :=
  match s with
  | "" => [""]
  | String c s' =>
      if Ascii.eqb c "/" then "" :: split s'
      else match split s' with
           | x :: xs => String c x :: xs
           | [] => [String c ""]
           end
  end.

(** [strings.Join(l, "/")]. *)
Fixpoint join (l : list string) : string :=
  match l with
  | [] => ""
  | [x] => x
  | x :: l' => x +:+ "/" +:+ join l'
  end.

(** One element of a path: empty elements and "." vanish, ".." removes the
    element before it, and at the root nothing.  The elements are kept last
    first. *)
Definition clean_step (rooted : bool) (stack : list string) (x : string) : list string :=
  if String.eqb x "" || String.eqb x "." then stack
  else if String.eqb x ".." then
    match stack with
    | top :: below => if String.eqb top ".." then x :: stack else below
    | [] => if rooted then [] else [x]
    end
  else x :: stack.

Definition clean_elems (rooted : bool) (s : string) : list string :=
  rev (fold_left (clean_step rooted) (split s) []).

Definition Clean (s : string) : string :=
  if String.eqb s "" then "."
  else
    let rooted := HasPrefix s "/" in
    let body := join (clean_elems rooted s) in
    if rooted then "/" +:+ body else if String.eqb body "" then "." else body.

(** [filepath.Join(a, b)] with a non-empty [a]. *)
Definition Join2 (a b : string) : string := Clean (a +:+ "/" +:+ b).

(** [filepath.Base]. *)
Definition Base (s : string) : string :=
  if String.eqb s "" then "."
  else match filter (fun x => x <> "") (rev (split s)) with
       | x :: _ => x
       | [] => "/"
       end.

(** [filepath.Dir]: what is before the last slash, cleaned. *)
Definition Dir (s : string) : string :=
  match rev (split s) with
  | _ :: front => Clean (match rev front with [] => "" | [""] => "/" | l => join l end)
  | [] => "."
  end.

(** [filepath.Ext]: from the last dot of the last element. *)
Fixpoint Ext (s : string) : string :=
  match s with
  | "" => ""
  | String c s' =>
      if Ascii.eqb c "." && no_char "/" s' && String.eqb (Ext s') "" then s else Ext s'
  end.

(** ** The file system *)

Record FS := mkFS {
  fs_files : gmap string string;   (* contents by absolute path *)
  fs_dirs : gset string;
}.

Definition with_files (fs : FS) (f : gmap string string) : FS := mkFS f (fs_dirs fs).

(** The directories above and including a clean absolute path. *)
Fixpoint prefixes (l : list string) : list (list string) :=
  match l with [] => [[]] | x :: l' => [] :: map (cons x) (prefixes l') end.
Definition ancestors (dir : string) : list string :=
  map (fun l => "/" +:+ join l) (prefixes (clean_elems true dir)).

Definition ENOTDIR : error := ENew "not a directory".
Definition ENOENT : error := ENew "no such file or directory".
Definition EEXIST : error := ENew "file exists".
Definition EISDIR : error := ENew "is a directory".
Definition ENOTEMPTY : error := ENew "directory not empty".

(** [os.IsNotExist]. *)
Definition IsNotExist (e : error) : bool := bool_decide (e = ENOENT).

Definition empty_dir (p : string) (fs : FS) : bool :=
  forallb (fun q => negb (HasPrefix q (p +:+ "/"))) ((map_to_list (fs_files fs)).*1 ++ elements (fs_dirs fs)).

Section Calls.
  Context `{Env}.

Definition os_MkdirAll (dir : string) : M FS unit :=
  query (fun fs =>
    if existsb (fun a => bool_decide (is_Some (fs_files fs !! a))) (ancestors dir) then Err ENOTDIR
    else Ok (tt, mkFS (fs_files fs) (list_to_set (ancestors dir) ∪ fs_dirs fs))).

(** [os.CreateTemp(dir, "upload-*.tmp")]: a new file with a random number for
    the star. *)
Definition os_CreateTemp (dir : string) : M FS string :=
  rand <- NewID_ignore ;;
  let name := dir +:+ "/upload-" +:+ Itoa (Z.of_N rand) +:+ ".tmp" in
  query (fun fs =>
    if bool_decide (is_Some (fs_files fs !! name)) || bool_decide (name ∈ fs_dirs fs) then Err EEXIST
    else Ok (name, with_files fs (<[name := ""]> (fs_files fs)))).

(** A reader: its bytes, then the end or an error. *)
Record Reader := mkReader { rd_data : string; rd_err : option error }.

(** [io.Copy] to an open file: the number of bytes. *)
Definition io_Copy (name : string) (r : Reader) : M FS Z :=
  query (fun fs => Ok (tt, with_files fs (<[name := rd_data r]> (fs_files fs)))) ;;;
  match rd_err r with
  | Some e => fail e
  | None => ret (Z.of_nat (String.length (rd_data r)))
  end.

Definition os_Rename (old new : string) : M FS unit :=
  query (fun fs =>
    match fs_files fs !! old with
    | None => Err ENOENT
    | Some data =>
        if bool_decide (new ∈ fs_dirs fs) then Err EISDIR
        else Ok (tt, with_files fs (<[new := data]> (delete old (fs_files fs))))
    end).

Definition os_Remove (p : string) : M FS unit :=
  query (fun fs =>
    if bool_decide (is_Some (fs_files fs !! p)) then Ok (tt, with_files fs (delete p (fs_files fs)))
    else if bool_decide (p ∈ fs_dirs fs) then
      if empty_dir p fs then Ok (tt, mkFS (fs_files fs) (fs_dirs fs ∖ {[p]})) else Err ENOTEMPTY
    else Err ENOENT).

(** [os.Open]: the contents, or a directory. *)
Definition os_Open (p : string) : M FS (option string) :=
  query (fun fs => match fs_files fs !! p with
                   | Some data => Ok (Some data, fs)
                   | None => if bool_decide (p ∈ fs_dirs fs) then Ok (None, fs) else Err ENOENT
                   end).

(** ** The driver *)

Variable baseDir : string.

(** The leading slash or backslash of the clean path is dropped. *)
Definition strip_root (s : string) : string :=
  if HasPrefix s "/" || HasPrefix s "\" then drop 1 s else s.

Definition resolvePath (relPath : string) : res string :=
  let cleanRel := strip_root (Clean relPath) in
  let fullPath := Join2 baseDir cleanRel in
  if negb (HasPrefix fullPath baseDir) then Err (ESentinel ErrPathTraversal) else Ok fullPath.

(** [defer func() { tmpFile.Close(); os.Remove(tmpName) }()]. *)
Definition with_temp {A} (dir : string) (body : string -> M FS A) : M FS A := fun w =>
  match os_CreateTemp dir w with
  | (Ok name, w1) =>
      let (r, w2) := body name w1 in
      match os_Remove name w2 with (_, w3) => (r, w3) end
  | (Err e, w1) => (Err (EWrap "failed to create temp file: " e ""), w1)
  | (Panic e, w1) => (Panic e, w1)
  end.

(** [fmt.Errorf("<what>: %w", err)]. *)
Definition or_wrap {A} (what : string) (m : M FS A) : M FS A :=
  r <- attempt m ;;
  match r with inl a => ret a | inr err => fail (EWrap (what +:+ ": ") err "") end.

Definition Put (relPath : string) (r : Reader) (size : Z) : M FS unit :=
  fullPath <- lift_res (resolvePath relPath) ;;
  let dir := Dir fullPath in
  or_wrap ("failed to create directory " +:+ dir) (os_MkdirAll dir) ;;;
  with_temp dir (fun tmpName =>
    written <- or_wrap "failed to write file content" (io_Copy tmpName r) ;;
    guard ((0 <? size) && negb (written =? size))
      (ENew ("file size mismatch: expected " +:+ Itoa size +:+ ", wrote " +:+ Itoa written)) ;;;
    or_wrap "failed to close temp file" (query (fun fs => Ok (tt, fs))) ;;;
    or_wrap ("failed to commit file to " +:+ fullPath) (os_Rename tmpName fullPath)).

(** Local methods are named with the prefix of the type. *)
Definition local_Get (relPath : string) : M FS (option string) :=
  fullPath <- lift_res (resolvePath relPath) ;;
  r <- attempt (os_Open fullPath) ;;
  match r with
  | inl f => ret f
  | inr err => if IsNotExist err then fail (ESentinel ErrFileNotFound)
               else fail (EWrap ("failed to open file " +:+ fullPath +:+ ": ") err "")
  end.

Definition local_Delete (relPath : string) : M FS unit :=
  fullPath <- lift_res (resolvePath relPath) ;;
  r <- attempt (os_Remove fullPath) ;;
  match r with
  | inl _ => ret tt
  | inr err => if IsNotExist err then ret tt
               else fail (EWrap ("failed to delete file " +:+ fullPath +:+ ": ") err "")
  end.

Definition local_Exists (relPath : string) : M FS bool :=
  fullPath <- lift_res (resolvePath relPath) ;;
  r <- attempt (os_Open fullPath) ;;
  match r with
  | inl f => ret (bool_decide (is_Some f))
  | inr err => if IsNotExist err then ret false else fail err
  end.

Definition GetURL (relPath : string) : string := "/api/v1/files/download?path=" +:+ relPath.
End Calls.

(** [filepath.Abs], with the working directory of the process. *)
Definition Abs (Getwd : res string) (path : string) : res string :=
  if HasPrefix path "/" then Ok (Clean path)
  else match Getwd with Ok wd => Ok (Join2 wd path) | Err e => Err e | Panic e => Panic e end.

(** The constructor: the directory of the driver. *)
Definition NewDriver `{Env} (Getwd : res string) (baseDir : string) : M FS string :=
  absBase <- or_wrap "failed to resolve storage base directory" (lift_res (Abs Getwd baseDir)) ;;
  or_wrap "failed to create storage base directory" (os_MkdirAll absBase) ;;;
  ret absBase.

(** ** Facts about paths *)

(** An element that names something. *)
Definition proper (x : string) : Prop := x <> "" /\ x <> "." /\ x <> ".." /\ no_char "/" x = true.

Lemma no_char_cons c d s : no_char c (String d s) = negb (Ascii.eqb c d) && no_char c s.
Proof. done. Qed.

Lemma split_cons c s : split (String c s) =
  if Ascii.eqb "/" c then "" :: split s
  else match split s with x :: xs => String c x :: xs | [] => [String c ""] end.
Proof. cbn [split]. by rewrite Ascii.eqb_sym. Qed.

Lemma split_nonempty s : split s <> [].
Proof. destruct s as [|c s]; [done |]. rewrite split_cons. case_match; [done |]. by destruct (split s). Qed.

Lemma split_no_slash x : no_char "/" x = true -> split x = [x].
Proof.
  induction x as [|c x IH]; [done |]. rewrite no_char_cons, split_cons. intros [Hc Hx]%andb_prop.
  apply negb_true_iff in Hc. by rewrite Hc, IH.
Qed.

Lemma split_app x s : no_char "/" x = true -> split (x +:+ "/" +:+ s) = x :: split s.
Proof.
  induction x as [|c x IH]; [done |]. rewrite no_char_cons. intros [Hc Hx]%andb_prop.
  apply negb_true_iff in Hc. change (String c x +:+ "/" +:+ s) with (String c (x +:+ "/" +:+ s)).
  by rewrite split_cons, Hc, IH.
Qed.

Lemma split_join l s : Forall (fun x => no_char "/" x = true) l -> l <> [] -> split (join l +:+ "/" +:+ s) = l ++ split s.
Proof.
  induction 1 as [|x l Hx Hl IH]; [done |]. intros _. destruct l as [|y l]; [by apply split_app |].
  change (join (x :: y :: l)) with (x +:+ "/" +:+ join (y :: l)).
  rewrite !append_assoc, split_app by done. cbn [app]. f_equal. by apply IH.
Qed.

Lemma split_join_all l : Forall (fun x => no_char "/" x = true) l -> l <> [] -> split (join l) = l.
Proof.
  induction 1 as [|x l Hx Hl IH]; [done |]. intros _. destruct l as [|y l]; [by apply split_no_slash |].
  change (join (x :: y :: l)) with (x +:+ "/" +:+ join (y :: l)). rewrite split_app by done. f_equal. by apply IH.
Qed.

Lemma split_elems_no_slash s : Forall (fun x => no_char "/" x = true) (split s).
Proof.
  induction s as [|c s IH]; [by repeat constructor |]. rewrite split_cons.
  destruct (Ascii.eqb "/" c) eqn:E; [by constructor |].
  destruct (split s) as [|x xs]; constructor; inversion IH; subst; try done; by rewrite no_char_cons, E.
Qed.

(** Cleaning keeps elements that name something, after the ".." that lead out
    of a relative path. *)
Definition clean_form (rooted : bool) (stack : list string) : Prop :=
  exists names k, stack = names ++ repeat ".." k /\ Forall proper names /\ (rooted = true -> k = 0%nat).

Lemma clean_step_form rooted stack x :
  no_char "/" x = true -> clean_form rooted stack -> clean_form rooted (clean_step rooted stack x).
Proof.
  intros Hx (names & k & -> & Hn & Hk). unfold clean_step.
  destruct (String.eqb_spec x "") as [|N1]; [by exists names, k |].
  destruct (String.eqb_spec x ".") as [|N2]; [by exists names, k |]. cbn [orb].
  destruct (String.eqb_spec x "..") as [->|N3].
  - destruct Hn as [|n names Hp Hn].
    + destruct k as [|k]; cbn [app repeat].
      * destruct rooted; [by exists [], 0%nat | by exists [], 1%nat].
      * rewrite String.eqb_refl. exists [], (S (S k)). split; [done |]. split; [done |]. intros E. by specialize (Hk E).
    + cbn [app]. rewrite (proj2 (String.eqb_neq n "..")) by apply Hp. by exists names, k.
  - exists (x :: names), k. split; [done |]. split; [| done]. constructor; [| done]. done.
Qed.

Lemma clean_fold_form rooted xs stack :
  Forall (fun x => no_char "/" x = true) xs -> clean_form rooted stack ->
  clean_form rooted (fold_left (clean_step rooted) xs stack).
Proof.
  intros Hx. revert stack. induction Hx as [|x xs Hx Hxs IH]; intros stack Hs; [done |].
  cbn [fold_left]. by apply IH, clean_step_form.
Qed.

Lemma clean_elems_form rooted s :
  exists names k, clean_elems rooted s = repeat ".." k ++ names /\ Forall proper names /\ (rooted = true -> k = 0%nat).
Proof.
  destruct (clean_fold_form rooted (split s) [] (split_elems_no_slash s)) as (names & k & E & Hn & Hk);
    [by exists [], 0%nat |].
  exists (rev names), k. unfold clean_elems. rewrite E, rev_app_distr.
  split; [| split; [by apply Forall_rev | done]]. f_equal.
  clear. induction k as [|k IH]; [done |]. cbn. rewrite IH. clear. induction k; cbn; by f_equal.
Qed.

(** Elements that name something are only added. *)
Lemma clean_fold_proper rooted xs stack :
  Forall (fun x => no_char "/" x = true /\ x <> "..") xs ->
  exists names, fold_left (clean_step rooted) xs stack = names ++ stack /\ Forall proper names.
Proof.
  intros Hx. revert stack. induction Hx as [|x xs [Hx N3] Hxs IH]; intros stack; [by exists [] |].
  cbn [fold_left]. unfold clean_step at 2.
  destruct (String.eqb_spec x "") as [|N1]; [apply IH |]. destruct (String.eqb_spec x ".") as [|N2]; [apply IH |].
  cbn [orb]. rewrite (proj2 (String.eqb_neq x "..")) by done.
  destruct (IH (x :: stack)) as (names & E & Hn). exists (names ++ [x]). rewrite E, <- app_assoc. split; [done |].
  apply Forall_app. split; [done |]. by repeat constructor.
Qed.

Lemma clean_fold_names rooted xs stack :
  Forall proper xs -> fold_left (clean_step rooted) xs stack = rev xs ++ stack.
Proof.
  intros Hx. revert stack. induction Hx as [|x xs (N1 & N2 & N3 & _) Hxs IH]; intros stack; [done |].
  cbn [fold_left rev]. unfold clean_step at 2.
  rewrite (proj2 (String.eqb_neq x "")), (proj2 (String.eqb_neq x ".")), (proj2 (String.eqb_neq x "..")) by done.
  cbn [orb]. rewrite IH, <- app_assoc. done.
Qed.

Lemma proper_no_slash l : Forall proper l -> Forall (fun x => no_char "/" x = true) l.
Proof. intros Hl. eapply Forall_impl; [exact Hl |]. by intros x (_ & _ & _ & Hx). Qed.

Lemma proper_plain l : Forall proper l -> Forall (fun x => no_char "/" x = true /\ x <> "..") l.
Proof. intros Hl. eapply Forall_impl; [exact Hl |]. by intros x (_ & _ & N3 & Hx). Qed.

Lemma join_cons_head x l : exists t, join (x :: l) = x +:+ t.
Proof. destruct l; [exists ""; by rewrite append_nil_r | by eexists]. Qed.

Lemma not_rooted_join l : Forall proper l -> HasPrefix (join l) "/" = false.
Proof.
  intros Hl. destruct Hl as [|x l (N1 & _ & _ & Hx) _]; [done |].
  destruct (join_cons_head x l) as [t ->]. destruct x as [|c x]; [done |].
  rewrite no_char_cons in Hx. apply andb_prop in Hx as [Hc _]. apply negb_true_iff in Hc.
  change (HasPrefix (String c x +:+ t) "/") with (Ascii.eqb c "/" && HasPrefix (x +:+ t) "").
  by rewrite Ascii.eqb_sym, Hc.
Qed.

(** Dropping the backslash in front of the first element. *)
Lemma strip_backslash names :
  Forall proper names -> HasPrefix (join names) "\" = true ->
  exists x rest, split (drop 1 (join names)) = x :: rest /\ no_char "/" x = true /\ Forall proper rest.
Proof.
  intros Hn Hb. destruct Hn as [|n names (N1 & _ & _ & Hx) Hn]; [done |].
  destruct n as [|c n]; [done |]. rewrite no_char_cons in Hx. apply andb_prop in Hx as [_ Hx].
  exists n, names. destruct Hn as [|y names Hy Hn].
  - split; [by apply split_no_slash | done].
  - change (drop 1 (join (String c n :: y :: names))) with (n +:+ "/" +:+ join (y :: names)).
    rewrite split_app by done. split; [| split; [done | by constructor]]. f_equal.
    apply split_join_all; [| done]. apply proper_no_slash. by constructor.
Qed.

(** Unless the path leads out of the base at its very beginning, no element
    leads out. *)
Lemma strip_root_elems rel :
  head (split (strip_root (Clean rel))) <> Some ".." ->
  Forall (fun x => no_char "/" x = true /\ x <> "..") (split (strip_root (Clean rel))).
Proof.
  unfold Clean. destruct (String.eqb_spec rel "") as [->|_]; [intros _; repeat constructor; done |].
  destruct (clean_elems_form (HasPrefix rel "/") rel) as (names & k & -> & Hn & Hk).
  destruct (HasPrefix rel "/").
  - rewrite Hk by done. cbn [repeat app]. change (strip_root ("/" +:+ join names)) with (join names). intros _.
    destruct names; [by repeat constructor |]. rewrite split_join_all by (done || by apply proper_no_slash).
    by apply proper_plain.
  - destruct (String.eqb_spec (join (repeat ".." k ++ names)) "") as [_|Hne]; [intros _; repeat constructor; done |].
    destruct k as [|k]; cbn [repeat app] in *.
    + unfold strip_root. rewrite not_rooted_join by done. cbn [orb].
      destruct (HasPrefix (join names) "\") eqn:Hb.
      * destruct (strip_backslash _ Hn Hb) as (x & rest & -> & Hx & Hr). cbn [head]. intros Hh.
        constructor; [split; [done | congruence] | by apply proper_plain].
      * intros _. rewrite split_join_all by (by apply proper_no_slash) || (intros ->; done). by apply proper_plain.
    + intros Hh. destruct Hh. destruct (join_cons_head ".." (repeat ".." k ++ names)) as [t Ht].
      unfold strip_root. rewrite Ht. change (HasPrefix (".." +:+ t) "/" || HasPrefix (".." +:+ t) "\") with false.
      cbn [orb]. rewrite <- Ht. rewrite split_join_all; [done | | done].
      constructor; [done |]. apply Forall_app. split; [| by apply proper_no_slash].
      apply Forall_forall. by intros x ->%list_elem_of_In%repeat_spec.
Qed.

(** A base directory and the paths below it. *)
Definition is_base (base : string) : Prop := exists bs, bs <> [] /\ Forall proper bs /\ base = "/" +:+ join bs.
Definition below (base p : string) : Prop := p = base \/ HasPrefix p (base +:+ "/") = true.

Lemma join_app l1 l2 : l1 <> [] -> l2 <> [] -> join (l1 ++ l2) = join l1 +:+ "/" +:+ join l2.
Proof.
  intros H1 H2. induction l1 as [|x l1 IH]; [done |]. destruct l1 as [|y l1].
  - cbn [app]. destruct l2; [done |]. done.
  - change (join ((x :: y :: l1) ++ l2)) with (x +:+ "/" +:+ join ((y :: l1) ++ l2)).
    rewrite IH by done. change (join (x :: y :: l1)) with (x +:+ "/" +:+ join (y :: l1)).
    by rewrite !append_assoc.
Qed.

Lemma Join2_base bs x :
  bs <> [] -> Forall proper bs ->
  Join2 ("/" +:+ join bs) x = "/" +:+ join (rev (fold_left (clean_step true) (split x) (rev bs))).
Proof.
  intros Hne Hb. unfold Join2, Clean. rewrite append_assoc.
  change (String.eqb ("/" +:+ join bs +:+ "/" +:+ x) "") with false.
  change (HasPrefix ("/" +:+ join bs +:+ "/" +:+ x) "/") with true. cbv beta iota zeta.
  do 2 f_equal. unfold clean_elems. f_equal.
  change ("/" +:+ join bs +:+ "/" +:+ x) with ("" +:+ "/" +:+ (join bs +:+ "/" +:+ x)).
  rewrite split_app by done. rewrite split_join by (done || by apply proper_no_slash).
  cbn [fold_left]. change (clean_step true [] "") with (@nil string).
  by rewrite fold_left_app, (clean_fold_names true bs []), app_nil_r.
Qed.

Lemma HasPrefix_append s t : HasPrefix (s +:+ t) s = true.
Proof. apply HasPrefix_spec. eauto. Qed.

Lemma or_wrap_Ok {A} what (m : M FS A) w a w' : or_wrap what m w = (Ok a, w') -> m w = (Ok a, w').
Proof.
  unfold or_wrap. intros (r & w1 & R & E)%bind_Ok.
  apply attempt_Ok in R as [(a' & R & ->)|(e & R & ->)]; [| done]. apply ret_Ok in E as [-> ->]. done.
Qed.

(** A rooted path is cleaned to the root or a base directory, and [NewDriver], in a
    process whose working directory is absolute, makes such a directory. *)
Lemma Clean_rooted s : HasPrefix s "/" = true -> Clean s = "/" \/ is_base (Clean s).
Proof.
  intros Hs. unfold Clean. rewrite Hs. destruct (String.eqb_spec s "") as [->|_]; [done |].
  destruct (clean_elems_form true s) as (names & k & E & Hn & Hk). rewrite Hk in E by done. cbn in E. cbv zeta. rewrite E.
  destruct names as [|x names]; [by left |]. right. by exists (x :: names).
Qed.

Lemma NewDriver_base `{Env} Getwd baseDir w base w' :
  (forall wd, Getwd = Ok wd -> HasPrefix wd "/" = true) -> NewDriver Getwd baseDir w = (Ok base, w') ->
  (base = "/" \/ is_base base) /\ fs_files (w_db w') = fs_files (w_db w).
Proof.
  intros Hwd E. unfold NewDriver in E. step_inv.
  match goal with X : or_wrap _ (lift_res _) _ = _ |- _ => apply or_wrap_Ok in X; apply lift_res_Ok in X as [Ea ->] end.
  match goal with X : or_wrap _ (os_MkdirAll _) _ = _ |- _ => apply or_wrap_Ok, query_Ok in X as (d & Ed & Hd) end.
  split.
  - unfold Abs in Ea. destruct (HasPrefix baseDir "/") eqn:Hb; [injection Ea as <-; by apply Clean_rooted |].
    destruct Getwd as [wd|e|e]; [| done | done]. injection Ea as <-. apply Clean_rooted.
    specialize (Hwd wd eq_refl). apply HasPrefix_spec in Hwd as [t ->]. rewrite !append_assoc. apply HasPrefix_append.
  - case_match; [done |]. by simplify_eq.
Qed.

Lemma resolvePath_inside base rel :
  is_base base -> head (split (strip_root (Clean rel))) <> Some ".." ->
  exists p, resolvePath base rel = Ok p /\ below base p.
Proof.
  intros (bs & Hne & Hb & ->) Hh. apply strip_root_elems in Hh. unfold resolvePath.
  rewrite Join2_base by done.
  destruct (clean_fold_proper true _ (rev bs) Hh) as (names & -> & Hn). rewrite rev_app_distr, rev_involutive.
  assert (exists t, "/" +:+ join (bs ++ rev names) = ("/" +:+ join bs) +:+ t
            /\ (t = "" \/ exists t', t = "/" +:+ t')) as (t & Et & Ht).
  { destruct (rev names) as [|y l].
    - exists "". rewrite app_nil_r, append_nil_r. auto.
    - exists ("/" +:+ join (y :: l)). rewrite join_app by done. rewrite <- append_assoc. eauto. }
  rewrite Et, HasPrefix_append. cbn [negb]. eexists. split; [done |]. destruct Ht as [->|[t' ->]].
  - left. apply append_nil_r.
  - right. rewrite <- append_assoc. apply HasPrefix_append.
Qed.

(** The local driver keeps paths in its directory, except for siblings that
    extend its name.  A path whose clean form does not begin by leaving the
    directory resolves to the directory or a path below it, wherever its "."
    and ".." are; every other path is refused or resolves to a path whose text
    begins with that of the directory.  The test compares text and not path
    elements, so [../data-backup/x] resolves from [/srv/data] to
    [/srv/data-backup/x]. *)
Theorem resolvePath_contained base :
  is_base base ->
  (forall rel, head (split (strip_root (Clean rel))) <> Some ".." ->
     exists p, resolvePath base rel = Ok p /\ below base p)
  /\ (forall rel, resolvePath base rel = Err (ESentinel ErrPathTraversal)
        \/ exists p, resolvePath base rel = Ok p
             /\ (below base p \/ exists c t, p = base +:+ String c t /\ c <> "/"%char))
  /\ resolvePath "/srv/data" "../data-backup/x" = Ok "/srv/data-backup/x".
Proof.
  intros Hb. split; [intros rel; by apply resolvePath_inside |]. split; [| done].
  intros rel. unfold resolvePath. destruct (HasPrefix _ base) eqn:E; cbn [negb]; [| by left].
  right. eexists. split; [done |]. apply HasPrefix_spec in E as [t E]. rewrite E.
  destruct t as [|c t]; [left; left; apply append_nil_r |].
  destruct (decide (c = "/"%char)) as [->|Hc]; [| right; eauto].
  left. right. change (String "/" t) with ("/" +:+ t). rewrite <- append_assoc. apply HasPrefix_append.
Qed.

Lemma resolvePath_contained_witness :
  is_base "/srv/data"
  /\ (exists p, resolvePath "/srv/data" "/a/../b/./c.txt" = Ok p /\ below "/srv/data" p)
  /\ resolvePath "/srv/data" "a/../../../etc/passwd" = Err (ESentinel ErrPathTraversal).
Proof.
  assert (is_base "/srv/data") as Hb
    by (exists ["srv"; "data"]; split; [done |]; split; [repeat constructor; done | done]).
  split; [exact Hb |].
  split; [exact (proj1 (resolvePath_contained "/srv/data" Hb) "/a/../b/./c.txt" ltac:(vm_compute; congruence)) | by vm_compute].
Defined.

(** ** What the driver touches *)

(** Only the contents of paths in [P] change, whatever the outcome. *)
Definition touches {A} (P : string -> Prop) (m : M FS A) : Prop :=
  forall w p, ~ P p -> fs_files (w_db (m w).2) !! p = fs_files (w_db w) !! p.

Section Touches.
  Context `{Env} (P : string -> Prop).

Lemma touches_reads {A} (m : M FS A) : reads m -> touches P m.
Proof. intros Hm w p _. by rewrite Hm. Qed.

Lemma touches_query {A} (f : FS -> res (A * FS)) :
  (forall fs a fs' p, f fs = Ok (a, fs') -> ~ P p -> fs_files fs' !! p = fs_files fs !! p) -> touches P (query f).
Proof.
  intros Hf w p Hp. unfold query. destruct (env_fault _); [done |].
  destruct (f (w_db w)) as [[a fs]|e|e] eqn:E; [| done | done]. cbn. by eapply Hf.
Qed.

Lemma touches_bind {A B} (m : M FS A) (k : A -> M FS B) :
  touches P m -> (forall a, touches P (k a)) -> touches P (bind m k).
Proof.
  intros Hm Hk w p Hp. unfold bind. specialize (Hm w p Hp). destruct (m w) as [[a|e|e] w1]; cbn [snd] in *; [| done | done].
  by rewrite Hk.
Qed.

Lemma touches_attempt {A} (m : M FS A) : touches P m -> touches P (attempt m).
Proof. intros Hm w p Hp. unfold attempt. specialize (Hm w p Hp). by destruct (m w) as [[a|e|e] w1]. Qed.

Lemma touches_or_wrap {A} what (m : M FS A) : touches P m -> touches P (or_wrap what m).
Proof.
  intros Hm. apply touches_bind; [by apply touches_attempt |]. intros [a|e]; apply touches_reads; frame.
Qed.

Lemma touches_Remove p : P p -> touches P (os_Remove p).
Proof.
  intros Hp. apply touches_query. intros fs a fs' q E Hq. repeat case_match; simplify_eq; [| done].
  cbn. rewrite lookup_delete_ne; [done | congruence].
Qed.

Lemma touches_with_temp {A} dir (body : string -> M FS A) :
  (forall n, P (dir +:+ "/upload-" +:+ Itoa n +:+ ".tmp")) ->
  (forall name, P name -> touches P (body name)) -> touches P (with_temp dir body).
Proof.
  intros Hn Hb w p Hp. unfold with_temp.
  assert (forall name w1, os_CreateTemp dir w = (Ok name, w1) -> P name) as Hname.
  { intros name w1 E. unfold os_CreateTemp in E. apply bind_Ok in E as (rand & w2 & _ & E).
    apply query_Ok in E as (d & E & _). case_match; simplify_eq. apply Hn. }
  assert (touches P (os_CreateTemp dir)) as Hc.
  { apply touches_bind; [apply touches_reads; frame |]. intros rand. apply touches_query.
    intros fs a fs' q E Hq. case_match; simplify_eq. cbn. rewrite lookup_insert_ne; [done |]. intros <-. apply Hq, Hn. }
  specialize (Hc w p Hp). destruct (os_CreateTemp dir w) as [[name|e|e] w1]; cbn [snd] in *; [| done | done].
  specialize (Hname name w1 eq_refl). specialize (Hb name Hname w1 p Hp). destruct (body name w1) as [r w2]. cbn [snd] in *.
  pose proof (touches_Remove name Hname w2 p Hp) as Hr. destruct (os_Remove name w2) as [r3 w3]. cbn [snd] in *. congruence.
Qed.

Lemma touches_Put base rel r size :
  (forall p, resolvePath base rel = Ok p ->
     P p /\ forall n, P (Dir p +:+ "/upload-" +:+ Itoa n +:+ ".tmp")) ->
  touches P (Put base rel r size).
Proof.
  intros HP w q Hq. unfold Put. destruct (resolvePath base rel) as [p|e|e]; [| done | done].
  destruct (HP p eq_refl) as [Hp Htmp]. revert w q Hq.
  match goal with |- forall w q, _ -> fs_files (w_db (bind _ ?k w).2) !! q = _ => change (touches P (k p)) end.
  cbv beta zeta. apply touches_bind; [| intros []; apply touches_with_temp; [done |]; intros name Hname].
  - apply touches_or_wrap, touches_query. intros fs a fs' q E _. case_match; by simplify_eq.
  - apply touches_bind; [apply touches_or_wrap | intros written; apply touches_bind; [| intros ?;
      apply touches_bind; [apply touches_or_wrap | intros ?; apply touches_or_wrap]]].
    + unfold io_Copy. apply touches_bind; [apply touches_query | intros ?; apply touches_reads; frame].
      intros fs a fs' q E Hq. simplify_eq. cbn. rewrite lookup_insert_ne; [done | congruence].
    + apply touches_reads; frame.
    + apply touches_query. intros fs b fs' q E Hq. by simplify_eq.
    + unfold os_Rename. apply touches_query. intros fs b fs' q E Hq. repeat case_match; simplify_eq. cbn.
      rewrite lookup_insert_ne by congruence. rewrite lookup_delete_ne; [done | congruence].
Qed.

Lemma touches_Delete base rel :
  (forall p, resolvePath base rel = Ok p -> P p) -> touches P (local_Delete base rel).
Proof.
  intros HP w q Hq. unfold local_Delete. destruct (resolvePath base rel) as [p|e|e]; [| done | done].
  specialize (HP p eq_refl). revert w q Hq.
  match goal with |- forall w q, _ -> fs_files (w_db (bind _ ?k w).2) !! q = _ => change (touches P (k p)) end.
  cbv beta. apply touches_bind; [by apply touches_attempt, touches_Remove |]. intros ?. apply touches_reads. frame.
Qed.
End Touches.

Section PutOk.
  Context `{Env}.

Lemma Remove_other p q w : q <> p -> fs_files (w_db (os_Remove p w).2) !! q = fs_files (w_db w) !! q.
Proof. intros Hq. exact (touches_Remove (fun x => x = p) p eq_refl w q Hq). Qed.

(** A successful [Put] leaves the bytes of the reader at the path, unless the
    path is itself a temporary name of its directory. *)
Lemma Put_Ok base rel r size w w' p :
  Put base rel r size w = (Ok tt, w') -> resolvePath base rel = Ok p ->
  (forall n, p <> Dir p +:+ "/upload-" +:+ Itoa n +:+ ".tmp") ->
  fs_files (w_db w') !! p = Some (rd_data r).
Proof.
  intros E Hp Hn. unfold Put in E. rewrite Hp in E. step_inv.
  match goal with X : Ok p = Ok _ |- _ => injection X as <- end.
  match goal with X : or_wrap _ (os_MkdirAll _) _ = _ |- _ => clear X end.
  unfold with_temp in E. destruct (os_CreateTemp _ _) as [[name|e|e] wt] eqn:Ec; [| done | done].
  assert (p <> name) as Hne.
  { clear E. unfold os_CreateTemp in Ec. apply bind_Ok in Ec as (rand & wr & _ & Ec).
    apply query_Ok in Ec as (d & Ec & _). case_match; simplify_eq. apply Hn. }
  match type of E with (let (_, _) := ?b wt in _) = _ => destruct (b wt) as [rb wb] eqn:Eb end.
  destruct (os_Remove name wb) as [r3 w3] eqn:Er. injection E as -> <-.
  pose proof (Remove_other name p wb Hne) as Hr. rewrite Er in Hr. cbn [snd] in Hr. rewrite Hr. clear Hr Er Ec.
  step_inv.
  repeat match goal with X : or_wrap _ _ _ = _ |- _ => apply or_wrap_Ok in X end.
  unfold io_Copy, os_Rename in *. step_inv. simplify_eq.
  destruct (rd_err r); [done |]. step_inv. cbn [w_db with_files fs_files] in *.
  rewrite lookup_insert_eq in Eb. case_match; simplify_eq. cbn. by rewrite lookup_insert_eq.
Qed.
End PutOk.

(** ** Paths made of names *)

Lemma join_nonempty l : Forall proper l -> l <> [] -> join l <> "".
Proof.
  intros Hl Hne. destruct Hl as [|x l (N1 & _) _]; [done |]. destruct (join_cons_head x l) as [t ->].
  by destruct x.
Qed.

Lemma Clean_join cs : Forall proper cs -> cs <> [] -> Clean (join cs) = join cs.
Proof.
  intros Hc Hne. pose proof (join_nonempty cs Hc Hne) as Hj. unfold Clean.
  rewrite (proj2 (String.eqb_neq _ _) Hj), not_rooted_join by done. unfold clean_elems.
  rewrite split_join_all by (done || by apply proper_no_slash). rewrite clean_fold_names by done.
  rewrite app_nil_r, rev_involutive. cbv zeta. by rewrite (proj2 (String.eqb_neq _ _) Hj).
Qed.

Lemma Clean_rooted_join cs : Forall proper cs -> cs <> [] -> Clean ("/" +:+ join cs) = "/" +:+ join cs.
Proof.
  intros Hc Hne. unfold Clean. change (String.eqb ("/" +:+ join cs) "") with false.
  change (HasPrefix ("/" +:+ join cs) "/") with true. cbv beta iota zeta. do 2 f_equal. unfold clean_elems.
  change ("/" +:+ join cs) with ("" +:+ "/" +:+ join cs). rewrite split_app by done.
  rewrite split_join_all by (done || by apply proper_no_slash). cbn [fold_left].
  change (clean_step true [] "") with (@nil string). rewrite clean_fold_names by done.
  by rewrite app_nil_r, rev_involutive.
Qed.

Lemma resolvePath_join bs cs :
  bs <> [] -> Forall proper bs -> cs <> [] -> Forall proper cs -> HasPrefix (join cs) "\" = false ->
  resolvePath ("/" +:+ join bs) (join cs) = Ok ("/" +:+ join (bs ++ cs)).
Proof.
  intros Hb Pb Hc Pc Hbs. unfold resolvePath. rewrite Clean_join by done. unfold strip_root.
  rewrite not_rooted_join, Hbs by done. cbn [orb]. rewrite Join2_base by done.
  rewrite split_join_all by (done || by apply proper_no_slash). rewrite clean_fold_names by done.
  rewrite <- rev_app_distr, rev_involutive, join_app by done.
  change ("/" +:+ join bs +:+ "/" +:+ join cs) with (("/" +:+ join bs) +:+ ("/" +:+ join cs)).
  by rewrite HasPrefix_append.
Qed.

Lemma Dir_join l x :
  Forall proper l -> l <> [] -> proper x -> Dir ("/" +:+ join (l ++ [x])) = "/" +:+ join l.
Proof.
  intros Hl Hne Hx. unfold Dir. change ("/" +:+ join (l ++ [x])) with ("" +:+ "/" +:+ join (l ++ [x])).
  rewrite split_app by done. rewrite split_join_all.
  - cbn [rev]. rewrite rev_app_distr. cbn [rev app]. rewrite rev_app_distr, rev_involutive. cbn [rev app].
    destruct l as [|y l]; [done |]. by apply (Clean_rooted_join (y :: l)).
  - apply Forall_app. split; [by apply proper_no_slash |]. repeat constructor. apply Hx.
  - by destruct l.
Qed.
