(* ===== verification/Attachments.v ===== *)
(** * Files and attachments

    [internal/core/domain/attachment/attachment.go], the repository
    [internal/core/repository/postgres/attachment_repo.go] with
    [queries/files.sql], and
    [internal/core/usecase/attachment/attachment_usecase.go] on the local
    storage driver. *)

From S2P Require Import Prelude GoStrings Crypto GoTime Sdk Storage.
#[local] Open Scope string_scope.
#[local] Open Scope list_scope.
#[local] Open Scope Z_scope.

(** ** Domain *)

Definition PurposeAttachment : string := "attachment".
Definition DefaultMaxFileSize : Z := 25 * 1024 * 1024.

Definition AllowedDefaultMIMETypes : list string := [
  "application/pdf"; "image/jpeg"; "image/png"; "image/webp"; "image/gif"; "text/plain"; "text/csv";
  "application/json"; "application/zip"; "application/msword";
  "application/vnd.openxmlformats-officedocument.wordprocessingml.document";
  "application/vnd.ms-excel";
  "application/vnd.openxmlformats-officedocument.spreadsheetml.sheet"].

Record File := mkFile {
  f_ID : ID;
  f_TenantID : ID;
  f_StorageDriver : string;
  f_StoragePath : string;
  f_Filename : string;
  f_MimeType : string;
  f_SizeBytes : Z;
  f_SHA256Hash : string;
  f_UploadedBy : option ID;
  f_IsPublic : bool;
  f_Metadata : AnyMap;
  f_CreatedAt : Time;
  f_UpdatedAt : Time;
}.

Record EntityAttachment := mkEntityAttachment {
  ea_ID : ID;
  ea_TenantID : ID;
  ea_FileID : ID;
  ea_EntityType : string;
  ea_EntityID : ID;
  ea_Purpose : string;
  ea_Title : string;
  ea_SortOrder : Z;
  ea_CreatedAt : Time;
}.

(** An attachment joined with its file; [AttachmentWithFile] lists the fields
    of both. *)
Record AttachmentWithFile := mkAttachmentWithFile { awf_attachment : EntityAttachment; awf_file : File }.

Definition SanitizeFilename (name : string) : string :=
  let base := Base name in
  let base := ReplaceAll base "\" "_" in
  let base := ReplaceAll base "/" "_" in
  let base := ReplaceAll base ".." "_" in
  let base := TrimSpace base in
  if String.eqb base "" || String.eqb base "." then "unnamed-file" else base.

Definition IsAllowedMIME `{UnicodeTables} (mime : string) : bool :=
  let clean := ToLower (TrimSpace mime) in
  let clean := match IndexByte clean ";" with Some idx => TrimSpace (take idx clean) | None => clean end in
  bool_decide (clean ∈ AllowedDefaultMIMETypes).

(** ** Tables *)

Record FileDB := mkFileDB {
  t_files : gmap ID File;
  t_attachments : gmap ID EntityAttachment;
}.

(** The disk and the tables. *)
Record AttachDB := mkAttachDB { a_fs : FS; a_db : FileDB }.

#[export] Instance lens_fs : Lens AttachDB FS.
Proof. refine {| lens_get := a_fs; lens_set e d := mkAttachDB e (a_db d) |}; by intros; try destruct d. Defined.
#[export] Instance lens_filedb : Lens AttachDB FileDB.
Proof. refine {| lens_get := a_db; lens_set e d := mkAttachDB (a_fs d) e |}; by intros; try destruct d. Defined.

(** Rows the server refuses (lengths, unknown tenants and users). *)
Class FileServer := {
  file_refused : File -> option error;
  attachment_refused : EntityAttachment -> option error;
}.

Section Repo.
  Context `{Env, Pg, FileServer}.

(** [now] is the server's NOW(), the default of both columns. *)
Definition file_row (f : File) (now : Time) : File :=
  mkFile (f_ID f) (f_TenantID f) (f_StorageDriver f) (f_StoragePath f) (f_Filename f) (f_MimeType f) (f_SizeBytes f)
    (f_SHA256Hash f) (opt_ref (f_UploadedBy f)) (f_IsPublic f) (pg_jsonb <$> f_Metadata f)
    (pg_timestamptz now) (pg_timestamptz now).

Definition CreateFile (f : File) : M FileDB File :=
  now <- Now ;;
  row <- query (fun d =>
    match insert_row f_ID (fun r => [f_TenantID r]) (fun _ _ => false) file_refused (file_row f now) (t_files d) with
    | Ok (row, t) => Ok (row, mkFileDB t (t_attachments d))
    | Err e => Err e
    | Panic e => Panic e
    end) ;;
  ret (mkFile (f_ID f) (f_TenantID f) (f_StorageDriver f) (f_StoragePath f) (f_Filename f) (f_MimeType f)
    (f_SizeBytes f) (f_SHA256Hash f) (f_UploadedBy f) (f_IsPublic f) (f_Metadata f) (f_CreatedAt row) (f_UpdatedAt row)).

Definition file_by_id (tenantID id : ID) (r : File) : bool :=
  sql_eq (f_TenantID r) (ToPgUUID tenantID) && sql_eq (f_ID r) (ToPgUUID id).

Definition GetFileByID (tenantID id : ID) : M FileDB File :=
  query (fun d => match select_one (file_by_id tenantID id) (t_files d) with
                  | Some row => Ok (row, d)
                  | None => Err (ESentinel ErrNotFound)
                  end).

Definition file_newest (a b : File) : Prop := t_nanos (f_CreatedAt b) <= t_nanos (f_CreatedAt a).
#[export] Instance file_newest_dec : RelDecision file_newest.
Proof. intros a b. unfold file_newest. apply _. Defined.

(** ORDER BY created_at DESC LIMIT 1. *)
Definition files_with_hash (tenantID : ID) (hash : string) (t : gmap ID File) : list File :=
  merge_sort file_newest (select_rows (fun r => sql_eq (f_TenantID r) (ToPgUUID tenantID) && String.eqb (f_SHA256Hash r) hash) t).

Definition GetFileByHash (tenantID : ID) (hash : string) : M FileDB File :=
  query (fun d => match files_with_hash tenantID hash (t_files d) with
                  | row :: _ => Ok (row, d)
                  | [] => Err (ESentinel ErrNotFound)
                  end).

Definition files_of_tenant (tenantID : ID) (limit offset : Z) (t : gmap ID File) : list File :=
  sql_page limit offset (merge_sort file_newest (select_rows (fun r => sql_eq (f_TenantID r) (ToPgUUID tenantID)) t)).

Definition ListFilesByTenant (tenantID : ID) (limit offset : Z) : M FileDB (list File) :=
  query (fun d => Ok (files_of_tenant tenantID limit offset (t_files d), d)).

(** ON DELETE CASCADE: the attachments of a deleted file go with it. *)
Definition delete_file (tenantID id : ID) (d : FileDB) : FileDB :=
  let files := filter (fun kv => file_by_id tenantID id kv.2 = false) (t_files d) in
  mkFileDB files (filter (fun kv => is_Some (files !! ea_FileID kv.2)) (t_attachments d)).

Definition repo_DeleteFile (tenantID id : ID) : M FileDB unit := query (fun d => Ok (tt, delete_file tenantID id d)).

Definition attachment_row (a : EntityAttachment) (now : Time) : EntityAttachment :=
  mkEntityAttachment (ea_ID a) (ea_TenantID a) (ea_FileID a) (ea_EntityType a) (ea_EntityID a) (ea_Purpose a)
    (ea_Title a) (int32 (ea_SortOrder a)) (pg_timestamptz now).

Definition CreateAttachment (a : EntityAttachment) : M FileDB EntityAttachment :=
  now <- Now ;;
  row <- query (fun d =>
    match insert_row ea_ID (fun r => [ea_TenantID r; ea_FileID r; ea_EntityID r]) (fun _ _ => false) attachment_refused
            (attachment_row a now) (t_attachments d) with
    | Ok (row, t) => if bool_decide (is_Some (t_files d !! ea_FileID row)) then Ok (row, mkFileDB (t_files d) t)
                     else Err (ENew "violates foreign key constraint")
    | Err e => Err e
    | Panic e => Panic e
    end) ;;
  ret (mkEntityAttachment (ea_ID a) (ea_TenantID a) (ea_FileID a) (ea_EntityType a) (ea_EntityID a) (ea_Purpose a)
    (ea_Title a) (ea_SortOrder a) (ea_CreatedAt row)).

Definition attachment_by_id (tenantID id : ID) (r : EntityAttachment) : bool :=
  sql_eq (ea_TenantID r) (ToPgUUID tenantID) && sql_eq (ea_ID r) (ToPgUUID id).

Definition GetAttachmentByID (tenantID id : ID) : M FileDB EntityAttachment :=
  query (fun d => match select_one (attachment_by_id tenantID id) (t_attachments d) with
                  | Some row => Ok (row, d)
                  | None => Err (ESentinel ErrNotFound)
                  end).

(** ORDER BY sort_order ASC, created_at ASC. *)
Definition attachment_le (a b : EntityAttachment) : Prop :=
  ea_SortOrder a < ea_SortOrder b
  \/ ea_SortOrder a = ea_SortOrder b /\ t_nanos (ea_CreatedAt a) <= t_nanos (ea_CreatedAt b).
#[export] Instance attachment_le_dec : RelDecision attachment_le.
Proof. intros a b. unfold attachment_le. apply _. Defined.

Definition attachments_of (tenantID : ID) (entityType : string) (entityID : ID) (d : FileDB) : list AttachmentWithFile :=
  omap (fun a => f ← t_files d !! ea_FileID a; Some (mkAttachmentWithFile a f))
    (merge_sort attachment_le (select_rows (fun r => sql_eq (ea_TenantID r) (ToPgUUID tenantID)
        && String.eqb (ea_EntityType r) entityType && sql_eq (ea_EntityID r) (ToPgUUID entityID)) (t_attachments d))).

Definition ListAttachmentsByEntity (tenantID : ID) (entityType : string) (entityID : ID) : M FileDB (list AttachmentWithFile) :=
  query (fun d => Ok (attachments_of tenantID entityType entityID d, d)).

Definition delete_attachment (tenantID id : ID) (d : FileDB) : FileDB :=
  mkFileDB (t_files d) (filter (fun kv => attachment_by_id tenantID id kv.2 = false) (t_attachments d)).

Definition DeleteAttachment (tenantID id : ID) : M FileDB unit := query (fun d => Ok (tt, delete_attachment tenantID id d)).

Definition count_references (tenantID fileID : ID) (t : gmap ID EntityAttachment) : Z :=
  Z.of_nat (length (select_rows (fun r => sql_eq (ea_TenantID r) (ToPgUUID tenantID) && sql_eq (ea_FileID r) (ToPgUUID fileID)) t)).

Definition CountFileReferences (tenantID fileID : ID) : M FileDB Z :=
  query (fun d => Ok (count_references tenantID fileID (t_attachments d), d)).
End Repo.

(** ** The use case *)

Record UploadFileCommand := mkUploadFileCommand {
  uf_TenantID : ID; uf_Filename : string; uf_MimeType : string; uf_Reader : Reader; uf_SizeBytes : Z;
  uf_UploadedBy : option ID; uf_IsPublic : bool; uf_Metadata : AnyMap;
}.
Record AttachFileCommand := mkAttachFileCommand {
  af_TenantID : ID; af_FileID : ID; af_EntityType : string; af_EntityID : ID; af_Purpose : string;
  af_Title : string; af_SortOrder : Z;
}.

Section Usecase.
  Context `{UnicodeTables, Env, Pg, FileServer, UUIDLib}.
  Variables (baseDir : string) (maxFileSize : Z).

(** uploads/<tenant>/<year>/<month>/<file><ext>. *)
Definition storage_path (tenantID fileID : ID) (now : Time) (ext : string) : string :=
  "uploads/" +:+ uuid_String tenantID +:+ "/" +:+ fmt_0wd 4 (Year now) +:+ "/" +:+ fmt_0wd 2 (Month now)
  +:+ "/" +:+ uuid_String fileID +:+ ext.

Definition UploadFile (cmd : UploadFileCommand) : M AttachDB File :=
  guard (bool_decide (uf_TenantID cmd = NilID)) (ESentinel ErrTenantRequired) ;;;
  let sanitizedName := SanitizeFilename (uf_Filename cmd) in
  guard (String.eqb sanitizedName "") (Errorf ErrInvalidInput "filename cannot be empty") ;;;
  guard (maxFileSize <? uf_SizeBytes cmd)
    (Errorf ErrInvalidInput ("file size exceeds maximum limit of " +:+ Itoa maxFileSize +:+ " bytes")) ;;;
  let mime := ToLower (TrimSpace (uf_MimeType cmd)) in
  guard (negb (IsAllowedMIME mime)) (Errorf ErrInvalidInput ("mime type '" +:+ mime +:+ "' is not allowed")) ;;;
  fileID <- NewID ;;
  now <- NowUTC ;;
  let storagePath := storage_path (uf_TenantID cmd) fileID now (Ext sanitizedName) in
  put <- attempt (zoom (Put baseDir storagePath (uf_Reader cmd) (uf_SizeBytes cmd))) ;;
  match put with
  | inr err => fail (EWrap "failed to save file to storage: " err "")
  | inl _ =>
      let hashStr := sha256_hex (rd_data (uf_Reader cmd)) in
      created <- attempt (zoom (CreateFile (mkFile fileID (uf_TenantID cmd) "local" storagePath sanitizedName mime
                   (uf_SizeBytes cmd) hashStr (uf_UploadedBy cmd) (uf_IsPublic cmd) (uf_Metadata cmd) now now))) ;;
      match created with
      | inl file => ret file
      | inr err =>
          attempt (zoom (local_Delete baseDir storagePath)) ;;;
          fail (EWrap "failed to record file metadata: " err "")
      end
  end.

Definition GetFile (tenantID fileID : ID) : M AttachDB (File * option string) :=
  file <- zoom (GetFileByID tenantID fileID) ;;
  rc <- attempt (zoom (local_Get baseDir (f_StoragePath file))) ;;
  match rc with
  | inl data => ret (file, data)
  | inr err => fail (EWrap "failed to retrieve file from storage: " err "")
  end.

Definition GetFileMetadata (tenantID fileID : ID) : M AttachDB File := zoom (GetFileByID tenantID fileID).

Definition DeleteFile (tenantID fileID : ID) : M AttachDB unit :=
  file <- zoom (GetFileByID tenantID fileID) ;;
  attempt (zoom (local_Delete baseDir (f_StoragePath file))) ;;;
  zoom (repo_DeleteFile tenantID fileID).

Definition AttachFile (cmd : AttachFileCommand) : M AttachDB EntityAttachment :=
  guard (bool_decide (af_TenantID cmd = NilID)) (ESentinel ErrTenantRequired) ;;;
  guard (bool_decide (af_FileID cmd = NilID)) (Errorf ErrInvalidInput "file_id is required") ;;;
  guard (String.eqb (af_EntityType cmd) "") (Errorf ErrInvalidInput "entity_type is required") ;;;
  guard (bool_decide (af_EntityID cmd = NilID)) (Errorf ErrInvalidInput "entity_id is required") ;;;
  zoom (GetFileByID (af_TenantID cmd) (af_FileID cmd)) ;;;
  attID <- NewID ;;
  let purpose := TrimSpace (af_Purpose cmd) in
  let purpose := if String.eqb purpose "" then PurposeAttachment else purpose in
  now <- NowUTC ;;
  zoom (CreateAttachment (mkEntityAttachment attID (af_TenantID cmd) (af_FileID cmd) (ToLower (af_EntityType cmd))
    (af_EntityID cmd) purpose (af_Title cmd) (af_SortOrder cmd) now)).

Definition ListEntityAttachments (tenantID : ID) (entityType : string) (entityID : ID) : M AttachDB (list AttachmentWithFile) :=
  guard (bool_decide (tenantID = NilID)) (ESentinel ErrTenantRequired) ;;;
  zoom (ListAttachmentsByEntity tenantID (ToLower entityType) entityID).

Definition DetachFile (tenantID attachmentID : ID) : M AttachDB unit :=
  guard (bool_decide (tenantID = NilID)) (ESentinel ErrTenantRequired) ;;;
  zoom (DeleteAttachment tenantID attachmentID).
End Usecase.

(** ** Names that uploads make *)

Definition is_uuid_char (c : ascii) : bool :=
  is_digit c || Ascii.eqb c "-" || (97 <=? byte_of c)%N && (byte_of c <=? 102)%N.

(** What [UUID.String] is documented to return: lower-case hexadecimal digits
    and dashes. *)
Definition uuid_text `{UUIDLib} : Prop :=
  forall id, uuid_String id <> "" /\ all_chars is_uuid_char (uuid_String id) = true.

Lemma proper_first c x : c <> "."%char -> no_char "/" (String c x) = true -> proper (String c x).
Proof. intros Hc Hx. split; [done |]. split; [congruence |]. split; [congruence | done]. Qed.

Lemma all_chars_no_char p c x : p c = false -> all_chars p x = true -> no_char c x = true.
Proof.
  intros Hc. apply all_chars_impl. intros d Hd. destruct (Ascii.eqb_spec c d) as [->|]; [congruence | done].
Qed.

Lemma uuid_proper `{UUIDLib} id ext :
  uuid_text -> no_char "/" ext = true -> proper (uuid_String id +:+ ext).
Proof.
  intros Hu He. destruct (Hu id) as [Hne Hc]. destruct (uuid_String id) as [|c s] eqn:E; [done |].
  change (String c s +:+ ext) with (String c (s +:+ ext)). apply proper_first.
  - intros ->. by cbn in Hc.
  - change (String c (s +:+ ext)) with (String c s +:+ ext). rewrite no_char_append, He, andb_true_r.
    by apply (all_chars_no_char is_uuid_char).
Qed.

Lemma dec_fuel_nonempty n z acc : dec_fuel (S n) z acc <> "".
Proof.
  revert z acc. induction n as [|n IH]; intros z acc; cbn [dec_fuel]; case_match; try done.
  change (dec_fuel (S n) (z / 10) (String (digit (z mod 10)) acc) <> ""). apply IH.
Qed.

(** Numbers are names. *)
Lemma number_proper w v : w <= 1000000 -> proper (fmt_0wd w v).
Proof.
  intros Hw. unfold fmt_0wd. rewrite (proj2 (Z.ltb_ge _ _)) by (apply Z.div_le_upper_bound; lia).
  assert (forall u z, 0 <= z -> zpad u (dec z) <> "" /\ all_chars is_digit (zpad u (dec z)) = true) as Hz.
  { intros u z Hz. split; [| by apply zpad_digits, dec_digits]. unfold zpad.
    destruct (zeros _); [apply dec_fuel_nonempty | done]. }
  destruct (Z.ltb_spec v 0) as [Hv|Hv].
  - apply (proper_first "-"); [done |]. rewrite no_char_cons. destruct (Hz (w - 1) (- v) ltac:(lia)) as [_ Hd].
    by rewrite (digits_no_char "/" _ eq_refl Hd).
  - destruct (Hz w v Hv) as [Hne Hd]. destruct (zpad w (dec v)) as [|c s]; [done |].
    apply proper_first; [intros ->; by cbn in Hd | by apply digits_no_char].
Qed.

Lemma ReplaceAll_no_char c s old new k :
  no_char c s = true -> no_char c new = true -> no_char c (ReplaceAll_from old new k s) = true.
Proof.
  intros Hs Hn. revert k. induction s as [|d s IH]; intros k; [done |].
  rewrite no_char_cons in Hs. apply andb_prop in Hs as [Hd Hs]. cbn [ReplaceAll_from].
  destruct k; [| by apply IH]. case_match; [by rewrite no_char_append, Hn, IH | by rewrite no_char_cons, Hd, IH].
Qed.

Lemma ReplaceAll_removes c s new : no_char c new = true -> no_char c (ReplaceAll s (String c "") new) = true.
Proof.
  intros Hn. unfold ReplaceAll. induction s as [|d s IH]; [done |]. cbn [ReplaceAll_from String.length Nat.sub].
  change (HasPrefix (String d s) (String c "")) with (Ascii.eqb c d && true). rewrite andb_true_r.
  destruct (Ascii.eqb_spec c d) as [->|Hne]; [by rewrite no_char_append, Hn, IH |].
  rewrite no_char_cons, IH, andb_true_r. apply negb_true_iff, Ascii.eqb_neq. congruence.
Qed.

Lemma SanitizeFilename_no_slash name : no_char "/" (SanitizeFilename name) = true.
Proof.
  unfold SanitizeFilename. case_match; [done |]. unfold no_char. apply TrimSpace_all_chars.
  fold (no_char "/" (ReplaceAll (ReplaceAll (ReplaceAll (Base name) "\" "_") "/" "_") ".." "_")).
  apply ReplaceAll_no_char; [by apply ReplaceAll_removes | done].
Qed.

Lemma Ext_no_char c s : no_char c s = true -> no_char c (Ext s) = true.
Proof.
  induction s as [|d s IH]; [done |]. intros Hs. cbn [Ext]. case_match; [done |]. apply IH.
  rewrite no_char_cons in Hs. by apply andb_prop in Hs as [_ ?].
Qed.

(** The path of an upload and of its temporary file. *)
Definition tenant_dir `{UUIDLib} (base : string) (tenantID : ID) : string :=
  base +:+ "/uploads/" +:+ uuid_String tenantID +:+ "/".

Section UploadPath.
  Context `{UUIDLib} (Hu : uuid_text) (base : string) (Hb : is_base base).
  Context (tn fid : ID) (now : Time) (ext : string) (He : no_char "/" ext = true).

Definition upload_names : list string :=
  ["uploads"; uuid_String tn; fmt_0wd 4 (Year now); fmt_0wd 2 (Month now)].

Lemma upload_names_proper : Forall proper upload_names.
Proof.
  constructor; [done |]. constructor; [rewrite <- (append_nil_r (uuid_String tn)); by apply uuid_proper |].
  constructor; [by apply number_proper |]. constructor; [by apply number_proper | constructor].
Qed.

Lemma storage_path_join : storage_path tn fid now ext = join (upload_names ++ [uuid_String fid +:+ ext]).
Proof. done. Qed.

Lemma upload_resolves :
  exists d, resolvePath base (storage_path tn fid now ext) = Ok (d +:+ "/" +:+ uuid_String fid +:+ ext)
    /\ Dir (d +:+ "/" +:+ uuid_String fid +:+ ext) = d
    /\ HasPrefix d (tenant_dir base tn) = true.
Proof.
  pose proof upload_names_proper as Hn. pose proof (uuid_proper fid ext Hu He) as Hf.
  destruct Hb as (bs & Hne & Pb & ->). exists ("/" +:+ join (bs ++ upload_names)).
  rewrite storage_path_join, resolvePath_join; try done.
  2: { apply Forall_app. split; [done |]. by constructor. }
  rewrite app_assoc. assert (bs ++ upload_names <> []) as Hne2 by by destruct bs.
  rewrite (join_app (bs ++ upload_names)) by done.
  change ("/" +:+ join (bs ++ upload_names) +:+ "/" +:+ join [uuid_String fid +:+ ext])
    with (("/" +:+ join (bs ++ upload_names)) +:+ "/" +:+ uuid_String fid +:+ ext).
  split; [done |]. split.
  - change (("/" +:+ join (bs ++ upload_names)) +:+ "/" +:+ uuid_String fid +:+ ext)
      with ("/" +:+ (join (bs ++ upload_names) +:+ "/" +:+ join [uuid_String fid +:+ ext])).
    rewrite <- join_app by done. apply Dir_join; [by apply Forall_app | done | done].
  - rewrite join_app by done. apply HasPrefix_spec. unfold tenant_dir.
    exists (fmt_0wd 4 (Year now) +:+ "/" +:+ fmt_0wd 2 (Month now)).
    change (join upload_names) with ("uploads" +:+ "/" +:+ uuid_String tn +:+ "/" +:+ fmt_0wd 4 (Year now) +:+ "/" +:+ fmt_0wd 2 (Month now)).
    rewrite !append_assoc. done.
Qed.
End UploadPath.

(** ** Effects of an upload *)

(** The contents of one path. *)
Definition content_at (p : string) (d : AttachDB) : option string := fs_files (a_fs d) !! p.

Section Effects.
  Context `{UnicodeTables, Env, Pg, FileServer, UUIDLib}.

Lemma keeps_zoom_touches {A} P p (m : M FS A) : touches P m -> ~ P p -> keeps (content_at p) (zoom (D := AttachDB) m).
Proof.
  intros Hm Hp w. unfold zoom, content_at. specialize (Hm (mkWorld (lens_get (w_db w)) (w_tick w)) p Hp).
  destruct (m _) as [r w1]. exact Hm.
Qed.

Lemma keeps_zoom_fs {A} (m : M FileDB A) : keeps a_fs (zoom (D := AttachDB) m).
Proof. intros w. unfold zoom. by destruct (m _) as [r w1]. Qed.
Lemma keeps_zoom_db {A} (m : M FS A) : keeps a_db (zoom (D := AttachDB) m).
Proof. intros w. unfold zoom. by destruct (m _) as [r w1]. Qed.

Lemma keeps_content {A} p (m : M AttachDB A) : keeps a_fs m -> keeps (content_at p) m.
Proof. intros Hm w. unfold content_at. by rewrite Hm. Qed.

(** A step whose failure is compensated by code that keeps [f]. *)
Lemma keeps_err_compensate {X A} (f : AttachDB -> X) (m : M AttachDB A) (undo : error -> M AttachDB A) :
  keeps_err f m -> (forall e, keeps f (undo e)) ->
  keeps_err f (r <- attempt m ;; match r with inl a => ret a | inr e => undo e end).
Proof.
  intros Hm Hu w. unfold bind, attempt. specialize (Hm w). destruct (m w) as [[a|e|e] w1]; cbn [fst snd] in *.
  - done.
  - intros _. rewrite Hu. by apply Hm.
  - done.
Qed.

Variables (base : string) (maxSize : Z).

Lemma CreateFile_writes_last f : writes_last (CreateFile f).
Proof. unfold CreateFile. frame. Qed.

Lemma keeps_err_zoom_db {A} (m : M FileDB A) : writes_last m -> keeps_err a_db (zoom (D := AttachDB) m).
Proof.
  intros Hm w E. unfold zoom in *. specialize (Hm (mkWorld (lens_get (w_db w)) (w_tick w))).
  destruct (m _) as [r w1]. cbn [fst snd w_db] in *. exact (Hm E).
Qed.

(** A failed upload records nothing. *)
Lemma UploadFile_keeps_err cmd : keeps_err a_db (UploadFile base maxSize cmd).
Proof.
  unfold UploadFile. do 6 (apply keeps_err_bind; [apply keeps_reads; frame | intros ?]; cbv zeta).
  apply keeps_err_bind; [apply keeps_attempt, keeps_zoom_db |]. intros [x|e]; [| by intros w].
  apply keeps_err_compensate; [by apply keeps_err_zoom_db, CreateFile_writes_last |].
  intros e. apply keeps_bind; [apply keeps_attempt, keeps_zoom_db | intros ?; by intros w].
Qed.

(** Whatever happens, only paths of the tenant change. *)
Lemma UploadFile_contained cmd p :
  uuid_text -> is_base base -> HasPrefix p (tenant_dir base (uf_TenantID cmd)) = false ->
  keeps (content_at p) (UploadFile base maxSize cmd).
Proof.
  intros Hu Hb Hp. unfold UploadFile.
  do 6 (apply keeps_bind; [apply keeps_reads; frame | intros ?]; cbv zeta).
  match goal with |- context [storage_path ?t ?i ?n ?e] =>
    destruct (upload_resolves Hu base Hb t i n e) as (d & Er & Ed & Hd);
    [by apply Ext_no_char, SanitizeFilename_no_slash |]; set (path := storage_path t i n e) in * end.
  set (P := fun q => HasPrefix q (tenant_dir base (uf_TenantID cmd)) = true).
  assert (forall q t, d +:+ t = q -> P q) as HP.
  { intros q t <-. unfold P. apply HasPrefix_spec in Hd as [u Hd]. apply HasPrefix_spec.
    exists (u +:+ t). by rewrite Hd, append_assoc. }
  assert (~ P p) as Hnp by (unfold P; congruence).
  assert (forall q, resolvePath base path = Ok q -> P q) as Hfull.
  { intros q Eq. rewrite Er in Eq. injection Eq as <-. by eapply HP. }
  apply keeps_bind.
  - apply keeps_attempt, (keeps_zoom_touches P); [| done]. apply touches_Put. intros q Eq. split; [by apply Hfull |].
    intros n. assert (q = d +:+ "/" +:+ uuid_String a3 +:+ Ext (SanitizeFilename (uf_Filename cmd))) as -> by congruence.
    rewrite Ed. by eapply HP.
  - intros [x|e]; [| by intros w].
    apply keeps_bind; [apply keeps_attempt, keeps_content, keeps_zoom_fs |]. intros [f|e]; [by intros w |].
    apply keeps_bind; [| intros ?; by intros w]. apply keeps_attempt, (keeps_zoom_touches P); [| done].
    by apply touches_Delete.
Qed.

Lemma CreateFile_Ok f w g w' :
  CreateFile f w = (Ok g, w') ->
  exists now, t_files (w_db w') = <[f_ID f := file_row f now]> (t_files (w_db w))
    /\ t_files (w_db w) !! f_ID f = None /\ f_ID g = f_ID f /\ f_StoragePath g = f_StoragePath f.
Proof.
  intros E. unfold CreateFile in E. step_inv. cbn [tick w_db] in *. case_match eqn:Er; simplify_eq.
  case_match; simplify_eq. apply insert_row_Ok in Er as (-> & -> & Hf & _ & _). eauto.
Qed.

(** The names of temporary files do not begin like identifiers. *)
Lemma upload_not_temp fid ext d n : uuid_text ->
  d +:+ "/" +:+ uuid_String fid +:+ ext <> d +:+ "/upload-" +:+ Itoa n +:+ ".tmp".
Proof.
  intros Hu E. apply append_inj_l in E. destruct (Hu fid) as [Hne Hc].
  destruct (uuid_String fid) as [|c s]; [done |]. injection E as -> _. by cbn in Hc.
Qed.

Lemma UploadFile_Ok cmd w f w' :
  uuid_text -> is_base base -> UploadFile base maxSize cmd w = (Ok f, w') ->
  (exists row, t_files (a_db (w_db w')) = <[f_ID f := row]> (t_files (a_db (w_db w)))
     /\ t_files (a_db (w_db w)) !! f_ID f = None
     /\ f_ID row = f_ID f /\ f_TenantID row = uf_TenantID cmd /\ f_StoragePath row = f_StoragePath f
     /\ f_SHA256Hash row = sha256_hex (rd_data (uf_Reader cmd)))
  /\ exists p, resolvePath base (f_StoragePath f) = Ok p
       /\ content_at p (w_db w') = Some (rd_data (uf_Reader cmd)).
Proof.
  intros Hu Hb E. unfold UploadFile in E. step_inv.
  match goal with X : context [storage_path ?t ?i ?n ?e] |- _ =>
    destruct (upload_resolves Hu base Hb t i n e) as (d & Er & Ed & _);
    [by apply Ext_no_char, SanitizeFilename_no_slash |]; set (path := storage_path t i n e) in * end.
  match goal with X : attempt (zoom (Put _ _ _ _)) _ = _ |- _ =>
    apply attempt_Ok in X as [(x & X & ->)|(e & X & ->)]; [| done]; apply zoom_Ok in X as (wp & EP & ->) end.
  step_inv. destruct x.
  apply (Put_Ok _ _ _ _ _ _ _ EP) in Er as Hc; [| intros n; rewrite Ed; by apply upload_not_temp].
  match goal with X : attempt (zoom (CreateFile _)) _ = _ |- _ =>
    apply attempt_Ok in X as [(y & X & ->)|(e & X & ->)]; [apply zoom_Ok in X as (wc & EC & ->) |] end.
  - apply ret_Ok in E as [-> ->]. apply CreateFile_Ok in EC as (nw & Et & Hn & Ei & Es).
    cbn [f_ID f_StoragePath w_db lens_get lens_set lens_filedb lens_fs a_db a_fs tick] in Et, Hn, Ei, Es.
    split; [| exists (d +:+ "/" +:+ uuid_String a3 +:+ Ext (SanitizeFilename (uf_Filename cmd)))].
    + match type of Et with _ = <[_ := ?row]> _ => exists row end.
      rewrite Ei, Es. split; [exact Et |]. split; [exact Hn | done].
    + rewrite Es. split; [exact Er | exact Hc].
  - step_inv. done.
Qed.
End Effects.

(** Reading a stored row. *)
Lemma GetFileByID_Ok `{Env} tn id w row w' :
  keyed f_ID (t_files (w_db w)) -> GetFileByID tn id w = (Ok row, w') ->
  w_db w' = w_db w /\ t_files (w_db w) !! id = Some row /\ f_TenantID row = tn.
Proof.
  intros Hk E. unfold GetFileByID in E. step_inv.
  case_match eqn:Es; simplify_eq. apply select_one_Some in Es as [Hs [k Hl]].
  unfold file_by_id in Hs. apply andb_prop in Hs as [Ht Hs]. apply sql_eq_true in Hs as [_ Hs], Ht as [_ Ht].
  pose proof (Hk k _ Hl). by subst.
Qed.

Lemma local_Get_Ok `{Env} base rel w data w' p c :
  resolvePath base rel = Ok p -> fs_files (w_db w) !! p = Some c ->
  local_Get base rel w = (Ok data, w') -> data = Some c.
Proof.
  intros Hp Hc E. unfold local_Get in E. rewrite Hp in E. step_inv.
  match goal with X : Ok p = Ok _ |- _ => injection X as <- end.
  match goal with X : attempt (os_Open _) _ = _ |- _ => apply attempt_Ok in X as [(y & X & ->)|(e & X & ->)] end.
  - apply ret_Ok in E as [-> ->]. unfold os_Open in *. step_inv. rewrite Hc in *. by simplify_eq.
  - cbn in E. by case_match.
Qed.

Lemma GetFile_content `{Env} base tn id w g data w2 row p c :
  keyed f_ID (t_files (a_db (w_db w))) -> t_files (a_db (w_db w)) !! id = Some row ->
  resolvePath base (f_StoragePath row) = Ok p -> content_at p (w_db w) = Some c ->
  GetFile base tn id w = (Ok (g, data), w2) -> data = Some c.
Proof.
  intros Hk Hrow Hp Hc E. unfold GetFile in E. apply bind_Ok in E as (file & wf & EF & E).
  apply zoom_Ok in EF as (wg & EF & ->). apply GetFileByID_Ok in EF as (Edb & Hl & _); [| exact Hk].
  cbn in Hl. rewrite Hrow in Hl. injection Hl as <-.
  apply bind_Ok in E as (rc & wr & ER & E).
  apply attempt_Ok in ER as [(x & ER & ->)|(e & ER & ->)]; [| done]. apply zoom_Ok in ER as (wz & EG & ->).
  apply ret_Ok in E as [[= -> ->] _].
  refine (local_Get_Ok _ _ _ _ _ p c Hp _ EG). exact Hc.
Qed.

(** C18: An upload stays in the directory of its tenant, whatever the file name
    is.  With any identifiers, clock, disk and database failures, only files
    below [<base>/uploads/<tenant>/] change, temporary files included.  A failed
    upload records nothing in the database.  A successful one records one new
    file of the tenant with the hash of the uploaded bytes, and reading that
    file back gives these bytes. *)
Theorem upload_contained `{UnicodeTables, Env, Pg, FileServer, UUIDLib} base maxSize cmd w :
  uuid_text -> is_base base -> keyed f_ID (t_files (a_db (w_db w))) ->
  let r := (UploadFile base maxSize cmd w).1 in
  let w' := (UploadFile base maxSize cmd w).2 in
  (forall p, content_at p (w_db w') <> content_at p (w_db w) ->
     HasPrefix p (tenant_dir base (uf_TenantID cmd)) = true)
  /\ (is_Ok r = false -> a_db (w_db w') = a_db (w_db w))
  /\ (forall f, r = Ok f ->
       (exists row, t_files (a_db (w_db w')) = <[f_ID f := row]> (t_files (a_db (w_db w)))
          /\ t_files (a_db (w_db w)) !! f_ID f = None
          /\ f_TenantID row = uf_TenantID cmd
          /\ f_SHA256Hash row = sha256_hex (rd_data (uf_Reader cmd)))
       /\ forall tn g data w2, GetFile base tn (f_ID f) w' = (Ok (g, data), w2) ->
            data = Some (rd_data (uf_Reader cmd))).
Proof.
  intros Hu Hb Hk r w'. split; [| split].
  - intros p Hp. destruct (HasPrefix p _) eqn:E; [done |]. destruct Hp. by apply UploadFile_contained.
  - apply (UploadFile_keeps_err base maxSize cmd w).
  - intros f Hf. assert (UploadFile base maxSize cmd w = (Ok f, w')) as E
      by (unfold r, w' in *; destruct (UploadFile base maxSize cmd w); cbn in *; congruence).
    destruct (UploadFile_Ok _ _ _ _ _ _ Hu Hb E) as ((row & Et & Hn & Hid & Ht & Hs & Hh) & p & Hp & Hc).
    split; [by exists row |]. intros tn g data w2 EG.
    eapply (GetFile_content base tn (f_ID f) w' g data w2 row p); try done.
    + rewrite Et. intros k x [[<- <-]|[_ Hx]]%lookup_insert_Some; [done | by apply Hk].
    + rewrite Et. apply lookup_insert_eq.
    + by rewrite Hs.
Qed.

(** A server that accepts every row, identifiers written in decimal, and a
    stand-in for the hash. *)
Definition open_file_server : FileServer := {| file_refused _ := None; attachment_refused _ := None |}.
Definition decimal_uuid : UUIDLib := {| uuid_Parse _ := None; uuid_String n := dec (Z.of_N n) |}.

Lemma decimal_uuid_text : @uuid_text decimal_uuid.
Proof.
  intros id. split; [apply dec_fuel_nonempty |]. cbn [uuid_String decimal_uuid].
  apply (all_chars_impl is_digit); [| apply dec_digits; lia]. intros c Hc. unfold is_uuid_char. by rewrite Hc.
Qed.

Definition empty_attach : AttachDB := mkAttachDB (mkFS ∅ ∅) (mkFileDB ∅ ∅).

Lemma empty_attach_keyed : keyed f_ID (t_files (a_db empty_attach)).
Proof. intros k r Hr. change (t_files (a_db empty_attach)) with (∅ : gmap ID File) in Hr. by rewrite lookup_empty in Hr. Qed.

(** A file name full of traversal ends up in the directory of tenant 7. *)
Lemma upload_contained_witness :
  let I0 := ascii_tables in let I1 := calm zeroTime 1 in let I2 := pgx 0 in let I3 := open_file_server in
  let I4 := decimal_uuid in
  let cmd := mkUploadFileCommand 7%N "../../etc/passwd.pdf" "application/pdf" (mkReader "hello" None) 5 None false None in
  let w := mkWorld empty_attach 0 in
  let w' := (UploadFile "/srv/data" 100 cmd w).2 in
  (forall p, content_at p (w_db w') <> content_at p (w_db w) -> HasPrefix p (tenant_dir "/srv/data" 7%N) = true)
  /\ is_Ok (UploadFile "/srv/data" 100 cmd w).1 = true
  /\ content_at "/srv/data/uploads/7/0001/01/1.pdf" (w_db w') = Some "hello"
  /\ size (fs_files (a_fs (w_db w'))) = 1%nat.
Proof.
  intros I0 I1 I2 I3 I4 cmd w w'.
  assert (is_base "/srv/data") as Hb
    by (exists ["srv"; "data"]; split; [done |]; split; [repeat constructor; done | done]).
  split; [| by vm_compute].
  exact (proj1 (upload_contained "/srv/data" 100 cmd w decimal_uuid_text Hb empty_attach_keyed)).
Defined.
