(* ===== verification/Tenants.v ===== *)
(** * Tenants

    [internal/core/domain/shared/tenant.go], the repository
    [internal/core/repository/postgres/tenant_repo.go] with
    [queries/tenants.sql], and [internal/core/usecase/tenant/tenant_usecase.go],
    over any database that holds a table of tenants. *)

From S2P Require Import Prelude GoStrings GoTime GoFloat Sdk Tables.
#[local] Open Scope string_scope.
#[local] Open Scope list_scope.
#[local] Open Scope Z_scope.

Definition TenantStatusActive : string := "active".
Definition TenantStatusSuspended : string := "suspended".
Definition TenantStatusArchived : string := "archived".

Record Tenant := mkTenant {
  t_ID : ID;
  t_Code : string;
  t_Name : string;
  t_Status : string;
  t_Settings : AnyMap;
  t_CreatedAt : Time;
  t_UpdatedAt : Time;
}.

Definition tenant_IsActive (t : Tenant) : bool := String.eqb (t_Status t) TenantStatusActive.

(** Rows the server refuses for reasons other than the keys (VARCHAR lengths,
    values that are not JSON). *)
Class TenantServer := { tenant_refused : Tenant -> option error }.

Section Repo.
  Context `{Env, Pg, TenantServer} {D : Type} `{Lens D (gmap ID Tenant)}.

(** UNIQUE (code). *)
Definition same_tenant_code (a b : Tenant) : bool := String.eqb (t_Code a) (t_Code b).

Definition tenant_row (t : Tenant) : Tenant :=
  mkTenant (t_ID t) (t_Code t) (t_Name t) (t_Status t) (pg_jsonb <$> t_Settings t)
    (pg_timestamptz (t_CreatedAt t)) (pg_timestamptz (t_UpdatedAt t)).

(** A row read back has a settings map even when the column is JSON null. *)
Definition toDomainTenant (row : Tenant) : Tenant :=
  mkTenant (t_ID row) (t_Code row) (t_Name row) (t_Status row) (Some (default ∅ (t_Settings row)))
    (t_CreatedAt row) (t_UpdatedAt row).

Definition repo_Create (t : Tenant) : M D Tenant :=
  row <- insert_into t_ID (fun _ => []) same_tenant_code (fun _ => tenant_refused) (tenant_row t) ;;
  ret (toDomainTenant row).

Definition tenant_by_id (id : ID) (r : Tenant) : bool := sql_eq (t_ID r) (ToPgUUID id).

Definition repo_GetByID (id : ID) : M D Tenant :=
  row <- select_from (tenant_by_id id) ;; ret (toDomainTenant row).

Definition tenant_by_code (code : string) (r : Tenant) : bool := String.eqb (t_Code r) code.

Definition repo_GetByCode (code : string) : M D Tenant :=
  row <- select_from (tenant_by_code code) ;; ret (toDomainTenant row).

Definition count_tenants (t : gmap ID Tenant) : Z := Z.of_nat (size t).

(** ORDER BY created_at DESC LIMIT OFFSET. *)
Definition list_tenants (limit offset : Z) (t : gmap ID Tenant) : list Tenant :=
  sql_page limit offset (merge_sort (newest t_CreatedAt) (select_rows (fun _ => true) t)).

(** Two statements. *)
Definition repo_List (limit offset : Z) : M D (list Tenant * Z) :=
  total <- query (fun d => Ok (count_tenants (lens_get d), d)) ;;
  rows <- query (fun d => Ok (list_tenants limit offset (lens_get d), d)) ;;
  ret (map toDomainTenant rows, total).

(** [now] is the server's NOW(); a nil map leaves the settings alone. *)
Definition updated_tenant (t : Tenant) (now : Time) (old : Tenant) : Tenant :=
  mkTenant (t_ID old) (t_Code old) (t_Name t) (t_Status t)
    (match t_Settings t with Some m => Some (pg_jsonb m) | None => t_Settings old end)
    (t_CreatedAt old) (pg_timestamptz now).

Definition repo_Update (t : Tenant) : M D Tenant :=
  now <- Now ;;
  row <- update_one t_ID same_tenant_code (fun _ => tenant_refused)
           (fun r => sql_eq (t_ID r) (ToPgUUID (t_ID t))) (updated_tenant t now) ;;
  ret (toDomainTenant row).
End Repo.

(** ** The use case *)

Record CreateTenantCommand := mkCreateTenantCommand {
  ct_Code : string; ct_Name : string; ct_Settings : AnyMap;
}.
Record UpdateTenantCommand := mkUpdateTenantCommand {
  ut_ID : ID; ut_Name : string; ut_Status : string; ut_Settings : AnyMap;
}.
Record TenantListResult := mkTenantListResult {
  tlr_Items : list Tenant; tlr_Total : Z; tlr_Page : Z; tlr_PageSize : Z;
}.

Section Usecase.
  Context `{UnicodeTables, Env, Pg, TenantServer} {D : Type} `{Lens D (gmap ID Tenant)}.

Definition CreateTenant (cmd : CreateTenantCommand) : M D Tenant :=
  let code := ToLower (TrimSpace (ct_Code cmd)) in
  let name := TrimSpace (ct_Name cmd) in
  guard (String.eqb code "" || String.eqb name "") (Errorf ErrInvalidInput "code and name are required") ;;;
  check_absent (repo_GetByCode code) (Errorf ErrAlreadyExists ("tenant code '" +:+ code +:+ "' already exists")) ;;;
  id <- NewID ;;
  now <- NowUTC ;;
  let settings := match ct_Settings cmd with Some m => Some m | None => Some ∅ end in
  repo_Create (mkTenant id code name TenantStatusActive settings now now).

Definition GetTenant (id : ID) : M D Tenant := repo_GetByID id.

Definition GetTenantByCode (code : string) : M D Tenant :=
  let code := ToLower (TrimSpace code) in
  guard (String.eqb code "") (Errorf ErrInvalidInput "code is required") ;;;
  repo_GetByCode code.

(** Pages are 32-bit integers; the product wraps. *)
Definition ListTenants (page pageSize : Z) : M D TenantListResult :=
  let page := if page <? 1 then 1 else page in
  let pageSize := if (pageSize <? 1) || (100 <? pageSize) then 20 else pageSize in
  let offset := int32 ((page - 1) * pageSize) in
  r <- repo_List pageSize offset ;;
  ret (mkTenantListResult r.1 r.2 page pageSize).

Definition UpdateTenant (cmd : UpdateTenantCommand) : M D Tenant :=
  tenant <- repo_GetByID (ut_ID cmd) ;;
  now <- NowUTC ;;
  repo_Update (mkTenant (t_ID tenant) (t_Code tenant)
    (if String.eqb (ut_Name cmd) "" then t_Name tenant else TrimSpace (ut_Name cmd))
    (if String.eqb (ut_Status cmd) "" then t_Status tenant else ut_Status cmd)
    (match ut_Settings cmd with Some m => Some m | None => t_Settings tenant end)
    (t_CreatedAt tenant) now).
End Usecase.

(** ** The table stays well formed *)

Record tenants_inv (t : gmap ID Tenant) : Prop := {
  ti_keyed : keyed t_ID t;
  ti_codes : unique same_tenant_code t;
}.

Lemma same_tenant_code_sym a b : same_tenant_code a b = same_tenant_code b a.
Proof. apply String.eqb_sym. Qed.

Lemma tenants_insert t row : tenants_inv t ->
  (forall k r, t !! k = Some r -> same_tenant_code row r = false) -> tenants_inv (<[t_ID row := row]> t).
Proof.
  intros [Hk Hu] Hn. split; [by apply keyed_insert | apply unique_insert; eauto using same_tenant_code_sym].
Qed.

Lemma tenants_update t k old row : tenants_inv t -> t !! k = Some old -> t_ID row = t_ID old ->
  (forall k' r', t !! k' = Some r' -> t_ID r' <> t_ID row -> same_tenant_code row r' = false) ->
  tenants_inv (<[t_ID row := row]> t).
Proof.
  intros [Hk Hu] Ho E Hn. split; [by apply keyed_insert | apply unique_update; eauto using same_tenant_code_sym].
Qed.

Section Inv.
  Context `{UnicodeTables, Env, Pg, TenantServer} {D : Type} `{Lens D (gmap ID Tenant)}.

Lemma reads_GetByID id : reads (D := D) (repo_GetByID id).
Proof. unfold repo_GetByID. frame. Qed.
Lemma reads_GetByCode code : reads (D := D) (repo_GetByCode code).
Proof. unfold repo_GetByCode. frame. Qed.
#[local] Hint Resolve reads_GetByID reads_GetByCode : go_frame.

Lemma CreateTenant_Ok cmd (w : World D) t w' :
  CreateTenant cmd w = (Ok t, w') ->
  exists row, t = toDomainTenant row /\ t_Code row = ToLower (TrimSpace (ct_Code cmd)) /\ t_Status row = TenantStatusActive
    /\ t_Code row <> "" /\ (forall k r, (lens_get (w_db w) : gmap ID Tenant) !! k = Some r -> same_tenant_code row r = false)
    /\ (lens_get (w_db w) : gmap ID Tenant) !! t_ID row = None
    /\ w_db w' = lens_set (<[t_ID row := row]> (lens_get (w_db w) : gmap ID Tenant)) (w_db w).
Proof.
  intros E. unfold CreateTenant, repo_Create in E. step_inv.
  match goal with X : repo_GetByCode _ _ = _ |- _ => pose proof (reads_GetByCode (ToLower (TrimSpace (ct_Code cmd))) w) as Hr; rewrite X in Hr end.
  cbn [snd] in Hr. apply orb_false_iff in R as [C _]. apply String.eqb_neq in C.
  match goal with X : insert_into _ _ _ _ _ _ = _ |- _ => apply insert_into_Ok in X as (-> & -> & Hf & Hu & _) end.
  cbn [w_db tick] in *. rewrite Hr in *. eexists. split; [done |]. cbn. auto 10.
Qed.

Lemma CreateTenant_inv cmd (w : World D) :
  tenants_inv (lens_get (w_db w)) -> tenants_inv (lens_get (w_db (CreateTenant cmd w).2)).
Proof.
  intros Hi. apply (writes_last_inv (fun d => tenants_inv (lens_get d))); [unfold CreateTenant, repo_Create; frame | done |].
  intros t w' E. apply CreateTenant_Ok in E as (row & _ & _ & _ & _ & Hu & _ & ->). rewrite lens_get_set.
  by apply tenants_insert.
Qed.

Lemma UpdateTenant_inv cmd (w : World D) :
  tenants_inv (lens_get (w_db w)) -> tenants_inv (lens_get (w_db (UpdateTenant cmd w).2)).
Proof.
  intros Hi. apply (writes_last_inv (fun d => tenants_inv (lens_get d))); [unfold UpdateTenant, repo_Update; frame | done |].
  intros t w' E. unfold UpdateTenant, repo_Update in E. step_inv.
  match goal with X : repo_GetByID _ _ = _ |- _ => apply reads_Ok in X as Hr; [| apply reads_GetByID] end.
  match goal with X : update_one _ _ _ _ _ _ = _ |- _ => apply update_one_Ok in X as (k & old & Hk & _ & -> & -> & Hu & _) end.
  cbn [w_db tick] in *. rewrite Hr in *. rewrite lens_get_set. by eapply tenants_update.
Qed.
End Inv.
