(* ===== verification/Auth.v ===== *)
(** * Tokens and passwords

    [pkg/auth/jwt.go] and [pkg/auth/password.go].  The libraries they call
    (github.com/golang-jwt/jwt/v5, golang.org/x/crypto/bcrypt) are parameters,
    with the documented behaviour the program relies on as laws: a signed token
    parses to its claims until it expires, a hash accepts its own password. *)

From S2P Require Import Prelude GoStrings GoTime GoFloat Sdk Middleware.
#[local] Open Scope string_scope.
#[local] Open Scope list_scope.
#[local] Open Scope Z_scope.

(** ** UTF-8 *)

Definition in_range (lo hi : N) (c : ascii) : bool := (lo <=? byte_of c)%N && (byte_of c <=? hi)%N.
Definition continuation : ascii -> bool := in_range 128 191.

(** [utf8.ValidString], which decides whether a string survives JSON. *)
Fixpoint ValidString (s : string) : bool :=
  match s with
  | EmptyString => true
  | String c s =>
      if is_ascii_byte c then ValidString s
      else match s with
      | String c1 s1 =>
          if in_range 194 223 c then continuation c1 && ValidString s1
          else match s1 with
          | String c2 s2 =>
              let lo := if in_range 224 224 c then 160%N else 128%N in
              let hi := if in_range 237 237 c then 159%N else 191%N in
              if in_range 224 239 c then in_range lo hi c1 && continuation c2 && ValidString s2
              else match s2 with
              | String c3 s3 =>
                  let lo := if in_range 240 240 c then 144%N else 128%N in
                  let hi := if in_range 244 244 c then 143%N else 191%N in
                  in_range 240 244 c && in_range lo hi c1 && continuation c2 && continuation c3 && ValidString s3
              | EmptyString => false
              end
          | EmptyString => false
          end
      | EmptyString => false
      end
  end.

(** ** JSON Web Tokens *)

(** The claims with their registered part: times are NumericDates, whole
    seconds. *)
Record JWTClaims := mkJWTClaims {
  jc_token : TokenClaims;
  jc_Subject : string;
  jc_Issuer : string;
  jc_IssuedAt : Z;
  jc_ExpiresAt : Z;
}.

(** The claims JSON does not change. *)
Definition json_safe (c : TokenClaims) : bool :=
  ValidString (tc_Email c) && ValidString (tc_Name c)
  && forallb ValidString (tc_Roles c) && forallb ValidString (tc_Permissions c).

(** [SignedString] of an HS256 token; [ParseWithClaims] with a key function that
    sees whether the method of the token is HMAC and its header [alg]; it reads
    the clock for the expiry and answers the claims and [Valid]. *)
Class JWTLib := {
  jwt_SignedString : JWTClaims -> string -> res string;
  jwt_ParseWithClaims : string -> (bool -> string -> res string) -> Time -> res (JWTClaims * bool);
}.

Class JWTLaws `{JWTLib} := {
  jwt_parse_signed : forall c key tok kf now,
    jwt_SignedString c key = Ok tok -> kf true "HS256" = Ok key -> json_safe (jc_token c) = true ->
    ValidString (jc_Issuer c) = true ->
    t_nanos now < jc_ExpiresAt c * Second -> jwt_ParseWithClaims tok kf now = Ok (c, true);
  jwt_parse_expired : forall c key tok kf now,
    jwt_SignedString c key = Ok tok -> jc_ExpiresAt c * Second <= t_nanos now ->
    is_Ok (jwt_ParseWithClaims tok kf now) = false;
  (** base64url texts joined by dots, the first of which begins with eyJ *)
  jwt_shape : forall c key tok, jwt_SignedString c key = Ok tok -> TrimSpace tok = tok /\ HasPrefix tok APIKeyPrefix = false;
}.

(** [jwtTokenManager]. *)
Record jwtTokenManager := mkTokenManager { tm_secretKey : string; tm_issuer : string }.

Definition NewTokenManager (secretKey issuer : string) : jwtTokenManager :=
  mkTokenManager
    (if String.eqb secretKey "" then "mergiate-default-insecure-secret-key-change-in-prod" else secretKey)
    (if String.eqb issuer "" then "mergiate-core" else issuer).

Section JWT.
  Context `{UUIDLib, Env, JWTLib} {D : Type}.

(** What is signed at the instant [now]. *)
Definition token_claims (m : jwtTokenManager) (now : Time) (userID tenantID : ID) (email name : string)
    (roles permissions : list string) (ttl : Z) : JWTClaims :=
  let ttl := if ttl =? 0 then 24 * Hour else ttl in
  mkJWTClaims (mkTokenClaims userID tenantID email name roles permissions)
    (uuid_String userID) (tm_issuer m) (Unix now) (Unix (Add now ttl)).

Definition GenerateToken (m : jwtTokenManager) (userID tenantID : ID) (email name : string)
    (roles permissions : list string) (ttl : Z) : M D string :=
  now <- NowUTC ;;
  lift_res (jwt_SignedString (token_claims m now userID tenantID email name roles permissions ttl) (tm_secretKey m)).

(** Only HMAC methods get the key. *)
Definition keyfunc (m : jwtTokenManager) (hmac : bool) (alg : string) : res string :=
  if hmac then Ok (tm_secretKey m) else Err (ENew ("unexpected signing method: " +:+ alg)).

Definition jwt_ValidateToken (m : jwtTokenManager) (tokenStr : string) : M D TokenClaims :=
  now <- Now ;;
  match jwt_ParseWithClaims tokenStr (keyfunc m) now with
  | Ok (c, true) => ret (jc_token c)
  | Ok (_, false) => fail (ESentinel ErrInvalidToken)
  | Err err => fail (EWrap "" (ESentinel ErrInvalidToken) (": " +:+ Error err))
  | Panic e => panic e
  end.

(** The token manager that the middleware uses. *)
Definition jwt_manager (m : jwtTokenManager) : TokenManager D := {| ValidateToken := jwt_ValidateToken m |}.

(** A token is accepted with the claims it was issued for until its expiry, a
    whole second, and by no manager afterwards. *)
Lemma token_accepted `{!JWTLaws} m userID tenantID email name roles permissions ttl (w : World D) tok w1 (w2 : World D) :
  GenerateToken m userID tenantID email name roles permissions ttl w = (Ok tok, w1) ->
  let c := token_claims m (UTC (env_now (w_tick w))) userID tenantID email name roles permissions ttl in
  json_safe (jc_token c) = true -> ValidString (tm_issuer m) = true ->
  t_nanos (env_now (w_tick w2)) < jc_ExpiresAt c * Second ->
  jwt_ValidateToken m tok w2 = (Ok (mkTokenClaims userID tenantID email name roles permissions), tick w2).
Proof.
  intros E c Hs Hi Ht. unfold GenerateToken in E. step_inv.
  unfold jwt_ValidateToken, bind, Now. rewrite (jwt_parse_signed c (tm_secretKey m) tok); done.
Qed.

Lemma token_refused `{!JWTLaws} m m' userID tenantID email name roles permissions ttl (w : World D) tok w1 (w2 : World D) :
  GenerateToken m userID tenantID email name roles permissions ttl w = (Ok tok, w1) ->
  jc_ExpiresAt (token_claims m (UTC (env_now (w_tick w))) userID tenantID email name roles permissions ttl) * Second
    <= t_nanos (env_now (w_tick w2)) ->
  is_Ok (jwt_ValidateToken m' tok w2).1 = false.
Proof.
  intros E Ht. unfold GenerateToken in E. step_inv.
  unfold jwt_ValidateToken, bind, Now.
  pose proof (jwt_parse_expired _ _ _ (keyfunc m') _ E Ht) as Hp.
  by destruct (jwt_ParseWithClaims tok (keyfunc m') _) as [[? ?]|?|?].
Qed.

Lemma reads_GenerateToken m userID tenantID email name roles permissions ttl :
  reads (D := D) (GenerateToken m userID tenantID email name roles permissions ttl).
Proof. unfold GenerateToken. frame. Qed.

Lemma reads_jwt_ValidateToken m tok : reads (D := D) (jwt_ValidateToken m tok).
Proof. unfold jwt_ValidateToken. frame. Qed.
End JWT.

#[export] Hint Resolve reads_GenerateToken reads_jwt_ValidateToken : go_frame.

(** ** Passwords *)

(** [GenerateFromPassword] draws a salt, here from the state of the
    environment; it refuses passwords over 72 bytes. *)
Class Bcrypt := {
  bcrypt_Generate : string -> nat -> res string;
  bcrypt_Compare : string -> string -> bool;   (* hash, password *)
}.

Class BcryptLaws `{Bcrypt} := {
  bcrypt_accepts : forall pw salt h, bcrypt_Generate pw salt = Ok h -> bcrypt_Compare h pw = true;
}.

Definition HashPassword `{Bcrypt} {D} (password : string) : M D string := fun w =>
  (bcrypt_Generate password (w_tick w), tick w).

Definition CheckPasswordHash `{Bcrypt} (password hash : string) : bool := bcrypt_Compare hash password.

Lemma reads_HashPassword `{Bcrypt} {D} pw : reads (D := D) (HashPassword pw).
Proof. by intros w. Qed.

Lemma HashPassword_Ok `{Bcrypt, !BcryptLaws} {D} pw (w : World D) h w' :
  HashPassword pw w = (Ok h, w') -> CheckPasswordHash pw h = true /\ w' = tick w.
Proof. unfold HashPassword. intros [= E <-]. split; [by eapply bcrypt_accepts | done]. Qed.

#[export] Hint Resolve reads_HashPassword : go_frame.

(** ** Libraries for examples

    A hash is the password behind a marker; a token is a fixed text for one set
    of claims. *)
Definition plain_bcrypt : Bcrypt := {|
  bcrypt_Generate pw _ := if (72 <? String.length pw)%nat then Err (ENew "bcrypt: password length exceeds 72 bytes") else Ok ("$2a$10$" +:+ pw);
  bcrypt_Compare h pw := String.eqb h ("$2a$10$" +:+ pw) |}.

#[export] Instance plain_bcrypt_laws : @BcryptLaws plain_bcrypt.
Proof.
  split. intros pw salt h. cbn [plain_bcrypt bcrypt_Generate bcrypt_Compare]. destruct (Nat.ltb 72 _); [done |]. intros [= <-]. apply String.eqb_refl.
Qed.

#[export] Instance TokenClaims_eq_dec : EqDecision TokenClaims.
Proof. solve_decision. Defined.
#[export] Instance JWTClaims_eq_dec : EqDecision JWTClaims.
Proof. solve_decision. Defined.

(** A library that signs one set of claims only: every other signature fails. *)
Definition single_jwt (c : JWTClaims) (key : string) : JWTLib := {|
  jwt_SignedString c' key' :=
    if bool_decide (c' = c) && String.eqb key' key then Ok "signed" else Err (ENew "no signature");
  jwt_ParseWithClaims tok kf now :=
    let? k := kf true "HS256" in
    if String.eqb tok "signed" && String.eqb k key && (t_nanos now <? jc_ExpiresAt c * Second)
    then Ok (c, true) else Err (ENew "token is invalid") |}.

#[export] Instance single_jwt_laws c key : @JWTLaws (single_jwt c key).
Proof.
  split; [| | intros c' key' tok; cbn [single_jwt jwt_SignedString]; destruct (_ && _); [by intros [= <-] | done]];
    intros c' key' tok kf now; cbn [single_jwt jwt_SignedString jwt_ParseWithClaims];
    (case_bool_decide as Ec; [| done]); (destruct (String.eqb_spec key' key) as [Ek|]; [| done]); intros [= <-]; subst; cbn [andb].
  - intros -> _ _ Ht. cbn [res_bind]. rewrite !String.eqb_refl. cbn [andb]. destruct (Z.ltb_spec (t_nanos now) (jc_ExpiresAt c * Second)); [done | lia].
  - intros Ht. destruct (kf true "HS256") as [k|e|e]; [| done | done]. cbn [res_bind].
    destruct (Z.ltb_spec (t_nanos now) (jc_ExpiresAt c * Second)); [lia |]. by rewrite andb_false_r.
Qed.
