(* ===== verification/Identity.v ===== *)
(** * Users, memberships, roles and permissions

    [internal/core/domain/identity/user.go] and [role.go], the repository
    [internal/core/repository/postgres/identity_repo.go] with
    [queries/identity.sql] and the keys of its tables, and
    [internal/core/usecase/identity/identity_usecase.go]. *)

From S2P Require Import Prelude GoStrings GoTime GoFloat Sdk Tables Middleware Tenants Auth.
#[local] Open Scope string_scope.
#[local] Open Scope list_scope.
#[local] Open Scope Z_scope.

(** ** Domain *)

Definition UserStatusActive : string := "active".
Definition UserStatusSuspended : string := "suspended".
Definition UserStatusDeactivated : string := "deactivated".

Record User := mkUser {
  u_ID : ID;
  u_Email : string;
  u_PasswordHash : string;
  u_Name : string;
  u_Status : string;
  u_CreatedAt : Time;
  u_UpdatedAt : Time;
}.

Definition MembershipStatusActive : string := "active".
Definition MembershipStatusInvited : string := "invited".
Definition MembershipStatusSuspended : string := "suspended".

Record TenantUser := mkTenantUser {
  tu_ID : ID;
  tu_TenantID : ID;
  tu_UserID : ID;
  tu_Status : string;
  tu_JoinedAt : Time;
}.

Record TenantMembership := mkTenantMembership {
  tm_TenantID : ID;
  tm_TenantCode : string;
  tm_TenantName : string;
  tm_TenantStatus : string;
  tm_MembershipStatus : string;
  tm_JoinedAt : Time;
}.

Record Permission := mkPermission {
  perm_ID : ID;
  perm_Code : string;
  perm_Name : string;
  perm_Category : string;
  perm_Description : string;
}.

Record Role := mkRole {
  r_ID : ID;
  r_TenantID : ID;
  r_Code : string;
  r_Name : string;
  r_Description : string;
  r_IsSystem : bool;
  r_Permissions : list Permission;
  r_CreatedAt : Time;
  r_UpdatedAt : Time;
}.

Record TenantUserItem := mkTenantUserItem {
  tui_UserID : ID;
  tui_Email : string;
  tui_Name : string;
  tui_UserStatus : string;
  tui_MembershipStatus : string;
  tui_JoinedAt : Time;
  tui_Roles : list Role;
}.

(** ** Tables

    A role row is a role without its permissions; the two pivots are sets of
    keys, and the catalogue of permissions is seeded by the migrations only. *)

Record IamDB := mkIamDB {
  iam_tenants : gmap ID Tenant;
  iam_users : gmap ID User;
  iam_members : gmap ID TenantUser;
  iam_roles : gmap ID Role;
  iam_permissions : gmap ID Permission;
  iam_role_permissions : gset (ID * ID);       (* role, permission *)
  iam_user_roles : gset (ID * ID * ID);        (* tenant, user, role *)
}.

#[export] Instance Lens_iam_tenants : Lens IamDB (gmap ID Tenant).
Proof.
  refine {| lens_get := iam_tenants;
            lens_set t d := mkIamDB t (iam_users d) (iam_members d) (iam_roles d) (iam_permissions d)
                              (iam_role_permissions d) (iam_user_roles d) |}; by intros; repeat match goal with d : IamDB |- _ => destruct d end.
Defined.
#[export] Instance Lens_iam_users : Lens IamDB (gmap ID User).
Proof.
  refine {| lens_get := iam_users;
            lens_set t d := mkIamDB (iam_tenants d) t (iam_members d) (iam_roles d) (iam_permissions d)
                              (iam_role_permissions d) (iam_user_roles d) |}; by intros; repeat match goal with d : IamDB |- _ => destruct d end.
Defined.
#[export] Instance Lens_iam_members : Lens IamDB (gmap ID TenantUser).
Proof.
  refine {| lens_get := iam_members;
            lens_set t d := mkIamDB (iam_tenants d) (iam_users d) t (iam_roles d) (iam_permissions d)
                              (iam_role_permissions d) (iam_user_roles d) |}; by intros; repeat match goal with d : IamDB |- _ => destruct d end.
Defined.
#[export] Instance Lens_iam_roles : Lens IamDB (gmap ID Role).
Proof.
  refine {| lens_get := iam_roles;
            lens_set t d := mkIamDB (iam_tenants d) (iam_users d) (iam_members d) t (iam_permissions d)
                              (iam_role_permissions d) (iam_user_roles d) |}; by intros; repeat match goal with d : IamDB |- _ => destruct d end.
Defined.

Definition set_role_permissions (s : gset (ID * ID)) (d : IamDB) : IamDB :=
  mkIamDB (iam_tenants d) (iam_users d) (iam_members d) (iam_roles d) (iam_permissions d) s (iam_user_roles d).
Definition set_user_roles (s : gset (ID * ID * ID)) (d : IamDB) : IamDB :=
  mkIamDB (iam_tenants d) (iam_users d) (iam_members d) (iam_roles d) (iam_permissions d) (iam_role_permissions d) s.

(** Rows the server refuses for reasons other than the keys. *)
Class IamServer := {
  user_refused : User -> option error;
  member_refused : TenantUser -> option error;
  role_refused : Role -> option error;
}.

Definition has {R} (t : gmap ID R) (id : ID) : bool := bool_decide (is_Some (t !! id)).

Definition not_null : error := ENew "null value in column violates not-null constraint".

(** ** Repository *)

Section Repo.
  Context `{Env, Pg, IamServer}.

(** UNIQUE (email). *)
Definition same_email (a b : User) : bool := String.eqb (u_Email a) (u_Email b).

Definition user_row (u : User) : User :=
  mkUser (u_ID u) (u_Email u) (u_PasswordHash u) (u_Name u) (u_Status u)
    (pg_timestamptz (u_CreatedAt u)) (pg_timestamptz (u_UpdatedAt u)).

Definition CreateUser (u : User) : M IamDB User :=
  row <- insert_into u_ID (fun _ => []) same_email (fun _ => user_refused) (user_row u) ;;
  ret (mkUser (u_ID row) (u_Email u) (u_PasswordHash u) (u_Name u) (u_Status u) (u_CreatedAt row) (u_UpdatedAt row)).

Definition user_by_email (email : string) (r : User) : bool := String.eqb (u_Email r) email.

Definition GetUserByEmail (email : string) : M IamDB User := select_from (user_by_email email).

Definition user_by_id (id : ID) (r : User) : bool := sql_eq (u_ID r) (ToPgUUID id).

Definition GetUserByID (id : ID) : M IamDB User := select_from (user_by_id id).

(** UNIQUE (tenant_id, user_id). *)
Definition same_member (a b : TenantUser) : bool :=
  bool_decide (tu_TenantID a = tu_TenantID b) && bool_decide (tu_UserID a = tu_UserID b).

Definition member_row (m : TenantUser) : TenantUser :=
  mkTenantUser (tu_ID m) (tu_TenantID m) (tu_UserID m) (tu_Status m) (pg_timestamptz (tu_JoinedAt m)).

Definition AddTenantMember (m : TenantUser) : M IamDB TenantUser :=
  row <- insert_into tu_ID (fun r => [tu_TenantID r; tu_UserID r]) same_member
           (fun d r => if has (iam_tenants d) (tu_TenantID r) && has (iam_users d) (tu_UserID r)
                       then member_refused r else Some fk_violation) (member_row m) ;;
  ret (mkTenantUser (tu_ID row) (tu_TenantID m) (tu_UserID m) (tu_Status m) (tu_JoinedAt row)).

Definition member_of (tenantID userID : ID) (r : TenantUser) : bool :=
  sql_eq (tu_TenantID r) (ToPgUUID tenantID) && sql_eq (tu_UserID r) (ToPgUUID userID).

Definition GetTenantMember (tenantID userID : ID) : M IamDB TenantUser := select_from (member_of tenantID userID).

(** JOIN tenants, ORDER BY joined_at ASC. *)
Definition join_tenant (d : IamDB) (r : TenantUser) : option TenantMembership :=
  t ← iam_tenants d !! tu_TenantID r;
  Some (mkTenantMembership (t_ID t) (t_Code t) (t_Name t) (t_Status t) (tu_Status r) (tu_JoinedAt r)).

Definition ListUserTenants (userID : ID) : M IamDB (list TenantMembership) :=
  query (fun d => Ok (omap (join_tenant d) (merge_sort (oldest tu_JoinedAt)
    (select_rows (fun r => sql_eq (tu_UserID r) (ToPgUUID userID)) (iam_members d))), d)).

(** The roles assigned to a user in a tenant, ORDER BY name; the query does not
    compare the tenant of the role, and the result carries the tenant asked for. *)
Definition roles_of (d : IamDB) (tenantID userID : ID) : list Role :=
  select_rows (fun r => bool_decide ((tenantID, userID, r_ID r) ∈ iam_user_roles d)) (iam_roles d).

Definition ListUserRolesInTenant (tenantID userID : ID) : M IamDB (list Role) :=
  query (fun d => Ok (map (fun r => mkRole (r_ID r) tenantID (r_Code r) (r_Name r) (r_Description r) (r_IsSystem r) []
                                      zeroTime zeroTime)
                        (merge_sort (by_text r_Name) (roles_of d tenantID userID)), d)).

(** SELECT DISTINCT code, in no order the program relies on. *)
Definition permissions_of (d : IamDB) (tenantID userID : ID) : list string :=
  remove_dups (map perm_Code (select_rows (fun p =>
    existsb (fun r => bool_decide ((r_ID r, perm_ID p) ∈ iam_role_permissions d)) (roles_of d tenantID userID))
    (iam_permissions d))).

Definition ListUserPermissionsInTenant (tenantID userID : ID) : M IamDB (list string) :=
  query (fun d => Ok (permissions_of d tenantID userID, d)).

(** JOIN users, ORDER BY joined_at ASC; then one query per user, whose errors
    are dropped. *)
Definition join_user (d : IamDB) (r : TenantUser) : option (TenantUser * User) :=
  u ← iam_users d !! tu_UserID r; Some (r, u).

Definition ListTenantUsers (tenantID : ID) : M IamDB (list TenantUserItem) :=
  rows <- query (fun d => Ok (omap (join_user d) (merge_sort (oldest tu_JoinedAt)
    (select_rows (fun r => sql_eq (tu_TenantID r) (ToPgUUID tenantID)) (iam_members d))), d)) ;;
  map_each (fun row =>
    roles <- attempt (ListUserRolesInTenant tenantID (u_ID row.2)) ;;
    ret (mkTenantUserItem (u_ID row.2) (u_Email row.2) (u_Name row.2) (u_Status row.2) (tu_Status row.1)
           (tu_JoinedAt row.1) (match roles with inl l => l | inr _ => [] end))) rows.

(** UNIQUE (tenant_id, code). *)
Definition same_role_code (a b : Role) : bool :=
  bool_decide (r_TenantID a = r_TenantID b) && String.eqb (r_Code a) (r_Code b).

Definition role_row (r : Role) : Role :=
  mkRole (r_ID r) (r_TenantID r) (r_Code r) (r_Name r) (r_Description r) (r_IsSystem r) []
    (pg_timestamptz (r_CreatedAt r)) (pg_timestamptz (r_UpdatedAt r)).

Definition with_permissions (r : Role) (perms : list Permission) : Role :=
  mkRole (r_ID r) (r_TenantID r) (r_Code r) (r_Name r) (r_Description r) (r_IsSystem r) perms (r_CreatedAt r) (r_UpdatedAt r).

Definition repo_CreateRole (r : Role) : M IamDB Role :=
  row <- insert_into r_ID (fun r => [r_TenantID r]) same_role_code
           (fun d r => if has (iam_tenants d) (r_TenantID r) then role_refused r else Some fk_violation) (role_row r) ;;
  ret (mkRole (r_ID row) (r_TenantID r) (r_Code r) (r_Name r) (r_Description r) (r_IsSystem r) (r_Permissions r)
         (r_CreatedAt row) (r_UpdatedAt row)).

(** ORDER BY code ASC. *)
Definition role_permissions (d : IamDB) (roleID : ID) : list Permission :=
  select_rows (fun p => bool_decide ((roleID, perm_ID p) ∈ iam_role_permissions d)) (iam_permissions d).

Definition ListRolePermissions (roleID : ID) : M IamDB (list Permission) :=
  query (fun d => Ok (merge_sort (by_text perm_Code) (role_permissions d roleID), d)).

(** The permissions stay empty when their query fails. *)
Definition fill_permissions (r : Role) : M IamDB Role :=
  perms <- attempt (ListRolePermissions (r_ID r)) ;;
  ret (match perms with inl l => with_permissions r l | inr _ => r end).

Definition role_by_id (tenantID id : ID) (r : Role) : bool :=
  sql_eq (r_TenantID r) (ToPgUUID tenantID) && sql_eq (r_ID r) (ToPgUUID id).

Definition GetRoleByID (tenantID id : ID) : M IamDB Role :=
  r <- select_from (role_by_id tenantID id) ;; fill_permissions r.

Definition role_by_code (tenantID : ID) (code : string) (r : Role) : bool :=
  sql_eq (r_TenantID r) (ToPgUUID tenantID) && String.eqb (r_Code r) code.

Definition GetRoleByCode (tenantID : ID) (code : string) : M IamDB Role :=
  r <- select_from (role_by_code tenantID code) ;; fill_permissions r.

(** ORDER BY name ASC. *)
Definition list_roles (tenantID : ID) (t : gmap ID Role) : list Role :=
  merge_sort (by_text r_Name) (select_rows (fun r => sql_eq (r_TenantID r) (ToPgUUID tenantID)) t).

Definition repo_ListRoles (tenantID : ID) : M IamDB (list Role) :=
  rows <- query (fun d => Ok (list_roles tenantID (iam_roles d), d)) ;;
  map_each fill_permissions rows.

(** ORDER BY category ASC, code ASC. *)
Definition perm_le (a b : Permission) : Prop :=
  String.le (perm_Category a) (perm_Category b)
  /\ (perm_Category a = perm_Category b -> String.le (perm_Code a) (perm_Code b)).
#[export] Instance perm_le_dec : RelDecision perm_le.
Proof. intros a b. unfold perm_le. apply _. Defined.

Definition repo_ListPermissions : M IamDB (list Permission) :=
  query (fun d => Ok (merge_sort perm_le (select_rows (fun _ => true) (iam_permissions d)), d)).

(** ON CONFLICT DO NOTHING. *)
Definition AssignPermissionToRole (roleID permissionID : ID) : M IamDB unit :=
  query (fun d =>
    if bool_decide (roleID = NilID) || bool_decide (permissionID = NilID) then Err not_null
    else if bool_decide ((roleID, permissionID) ∈ iam_role_permissions d) then Ok (tt, d)
    else if has (iam_roles d) roleID && has (iam_permissions d) permissionID
    then Ok (tt, set_role_permissions ({[ (roleID, permissionID) ]} ∪ iam_role_permissions d) d)
    else Err fk_violation).

Definition ClearRolePermissions (roleID : ID) : M IamDB unit :=
  query (fun d => Ok (tt, set_role_permissions
    (filter (fun rp => sql_eq rp.1 (ToPgUUID roleID) = false) (iam_role_permissions d)) d)).

(** The error of the clearing is dropped; there is no transaction. *)
Definition AssignPermissionsToRole (roleID : ID) (permissionIDs : list ID) : M IamDB unit :=
  ignore (ClearRolePermissions roleID) ;;;
  for_each permissionIDs (AssignPermissionToRole roleID).

(** ON CONFLICT DO NOTHING. *)
Definition insert_user_role (tenantID userID roleID : ID) (d : IamDB) : res (unit * IamDB) :=
  if bool_decide (NilID ∈ [tenantID; userID; roleID]) then Err not_null
  else if bool_decide ((tenantID, userID, roleID) ∈ iam_user_roles d) then Ok (tt, d)
  else if has (iam_tenants d) tenantID && has (iam_users d) userID && has (iam_roles d) roleID
  then Ok (tt, set_user_roles ({[ (tenantID, userID, roleID) ]} ∪ iam_user_roles d) d)
  else Err fk_violation.

Definition AssignUserRole (tenantID userID roleID : ID) : M IamDB unit := query (insert_user_role tenantID userID roleID).

Definition delete_user_role (tenantID userID roleID : ID) (d : IamDB) : IamDB :=
  set_user_roles
    (filter (fun k => sql_eq k.1.1 (ToPgUUID tenantID) && sql_eq k.1.2 (ToPgUUID userID) && sql_eq k.2 (ToPgUUID roleID) = false)
       (iam_user_roles d)) d.

Definition RemoveUserRole (tenantID userID roleID : ID) : M IamDB unit :=
  query (fun d => Ok (tt, delete_user_role tenantID userID roleID d)).
End Repo.

(** ** The use case *)

Record RegisterCommand := mkRegisterCommand {
  rc_Email : string; rc_Password : string; rc_Name : string; rc_TenantID : option ID;
}.
Record LoginCommand := mkLoginCommand { lc_Email : string; lc_Password : string; lc_TenantID : option ID }.
Record LoginResult := mkLoginResult {
  lr_User : User;
  lr_Token : string;
  lr_ExpiresIn : Z;
  lr_TenantID : option ID;
  lr_Roles : list string;
  lr_Permissions : list string;
  lr_RequiresTenantSelection : bool;
  lr_AvailableTenants : list TenantMembership;
}.
Record SwitchTenantCommand := mkSwitchTenantCommand { st_UserID : ID; st_TenantID : ID }.
Record UserProfileResult := mkUserProfileResult { upr_User : User; upr_Tenants : list TenantMembership }.
Record AddMemberCommand := mkAddMemberCommand { am_TenantID : ID; am_UserID : ID; am_RoleIDs : list ID }.
Record AssignMemberRolesCommand := mkAssignMemberRolesCommand {
  amr_TenantID : ID; amr_UserID : ID; amr_RoleIDs : list ID;
}.
Record CreateRoleCommand := mkCreateRoleCommand {
  cr_TenantID : ID; cr_Code : string; cr_Name : string; cr_Description : string; cr_PermissionIDs : list ID;
}.
Record AssignRolePermissionsCommand := mkAssignRolePermissionsCommand {
  arp_TenantID : ID; arp_RoleID : ID; arp_PermissionIDs : list ID;
}.

(** The [usecase] struct: is there a tenant repository, the token manager and
    the lifetime of tokens. *)
Record iam_usecase := mkUsecase { uc_tenantRepo : bool; uc_tokenManager : jwtTokenManager; uc_tokenTTL : Z }.

Definition NewUsecase (tenantRepo : bool) (tokenManager : jwtTokenManager) (tokenTTL : Z) : iam_usecase :=
  mkUsecase tenantRepo tokenManager (if tokenTTL <=? 0 then 24 * Hour else tokenTTL).

Section Usecase.
  Context `{UnicodeTables, UUIDLib, Env, Pg, GoPlatform, TenantServer, IamServer, JWTLib, Bcrypt}.
  Variable uc : iam_usecase.

Definition Register (cmd : RegisterCommand) : M IamDB User :=
  let email := ToLower (TrimSpace (rc_Email cmd)) in
  let name := TrimSpace (rc_Name cmd) in
  let password := rc_Password cmd in
  guard (String.eqb email "" || negb (Contains email "@")) (Errorf ErrInvalidInput "valid email is required") ;;;
  guard (String.eqb name "") (Errorf ErrInvalidInput "name is required") ;;;
  guard (String.length password <? 8)%nat (Errorf ErrInvalidInput "password must be at least 8 characters") ;;;
  check_absent (GetUserByEmail email)
    (Errorf ErrAlreadyExists ("user with email '" +:+ email +:+ "' already exists")) ;;;
  hashed <- wrap_err "failed to hash password" (HashPassword password) ;;
  id <- NewID ;;
  created <- NowUTC ;;
  updated <- NowUTC ;;
  user <- CreateUser (mkUser id email hashed name UserStatusActive created updated) ;;
  match opt_ref (rc_TenantID cmd) with
  | None => ret user
  | Some tenantID =>
      (if uc_tenantRepo uc then
         tenant <- wrap_err "invalid tenant" (repo_GetByID tenantID) ;;
         guard (negb (tenant_IsActive tenant)) (ESentinel ErrTenantSuspended)
       else ret tt) ;;;
      memberID <- NewID_ignore ;;
      now <- NowUTC ;;
      ignore (AddTenantMember (mkTenantUser memberID tenantID (u_ID user) MembershipStatusActive now)) ;;;
      ret user
  end.

(** Membership, then the roles and permissions that go into the token. *)
Definition issueLoginResult (user : User) (tenantID : ID) : M IamDB LoginResult :=
  r <- attempt (GetTenantMember tenantID (u_ID user)) ;;
  match r with
  | inr err =>
      if err_eq err ErrNotFound
      then fail (Errorf ErrForbidden ("user is not a member of tenant " +:+ uuid_String tenantID))
      else fail err
  | inl member =>
      guard (negb (String.eqb (tu_Status member) MembershipStatusActive))
        (Errorf ErrForbidden ("tenant membership is " +:+ tu_Status member)) ;;;
      roles <- ListUserRolesInTenant tenantID (u_ID user) ;;
      let roleCodes := map r_Code roles in
      permissions <- ListUserPermissionsInTenant tenantID (u_ID user) ;;
      token <- wrap_err "failed to generate auth token"
        (GenerateToken (uc_tokenManager uc) (u_ID user) tenantID (u_Email user) (u_Name user) roleCodes permissions
           (uc_tokenTTL uc)) ;;
      ret (mkLoginResult user token (seconds (uc_tokenTTL uc)) (Some tenantID) roleCodes permissions false [])
  end.

Definition Login (cmd : LoginCommand) : M IamDB LoginResult :=
  let email := ToLower (TrimSpace (lc_Email cmd)) in
  guard (String.eqb email "" || String.eqb (lc_Password cmd) "")
    (Errorf ErrInvalidInput "email and password are required") ;;;
  r <- attempt (GetUserByEmail email) ;;
  match r with
  | inr err => if err_eq err ErrNotFound then fail (Errorf ErrUnauthorized "invalid credentials") else fail err
  | inl user =>
      guard (negb (String.eqb (u_Status user) UserStatusActive))
        (Errorf ErrUnauthorized ("user account is " +:+ u_Status user)) ;;;
      guard (negb (CheckPasswordHash (lc_Password cmd) (u_PasswordHash user)))
        (Errorf ErrUnauthorized "invalid credentials") ;;;
      match opt_ref (lc_TenantID cmd) with
      | Some tenantID => issueLoginResult user tenantID
      | None =>
          tenants <- ListUserTenants (u_ID user) ;;
          match tenants with
          | [t] => issueLoginResult user (tm_TenantID t)
          | _ => ret (mkLoginResult user "" 0 None [] [] true tenants)
          end
      end
  end.

(** The status of the user is not looked at. *)
Definition SwitchTenant (cmd : SwitchTenantCommand) : M IamDB LoginResult :=
  user <- GetUserByID (st_UserID cmd) ;; issueLoginResult user (st_TenantID cmd).

Definition GetProfile (userID : ID) : M IamDB UserProfileResult :=
  user <- GetUserByID userID ;;
  tenants <- ListUserTenants userID ;;
  ret (mkUserProfileResult user tenants).

Definition is_nil (id : ID) : bool := bool_decide (id = NilID).

Definition AddMember (cmd : AddMemberCommand) : M IamDB TenantUser :=
  guard (is_nil (am_TenantID cmd) || is_nil (am_UserID cmd))
    (Errorf ErrInvalidInput "tenant_id and user_id are required") ;;;
  GetUserByID (am_UserID cmd) ;;;
  check_absent (GetTenantMember (am_TenantID cmd) (am_UserID cmd))
    (Errorf ErrAlreadyExists "user is already a member of this tenant") ;;;
  memberID <- NewID ;;
  now <- NowUTC ;;
  member <- AddTenantMember (mkTenantUser memberID (am_TenantID cmd) (am_UserID cmd) MembershipStatusActive now) ;;
  for_each (am_RoleIDs cmd) (fun roleID => ignore (AssignUserRole (am_TenantID cmd) (am_UserID cmd) roleID)) ;;;
  ret member.

Definition ListMembers (tenantID : ID) : M IamDB (list TenantUserItem) :=
  guard (is_nil tenantID) (ESentinel ErrTenantRequired) ;;; ListTenantUsers tenantID.

(** Neither the membership of the user nor the tenant of the roles is checked. *)
Definition AssignMemberRoles (cmd : AssignMemberRolesCommand) : M IamDB unit :=
  guard (is_nil (amr_TenantID cmd) || is_nil (amr_UserID cmd))
    (Errorf ErrInvalidInput "tenant_id and user_id are required") ;;;
  for_each (amr_RoleIDs cmd) (AssignUserRole (amr_TenantID cmd) (amr_UserID cmd)).

Definition RemoveMemberRole (tenantID userID roleID : ID) : M IamDB unit :=
  guard (is_nil tenantID || is_nil userID || is_nil roleID)
    (Errorf ErrInvalidInput "tenant_id, user_id, and role_id are required") ;;;
  RemoveUserRole tenantID userID roleID.

Definition CreateRole (cmd : CreateRoleCommand) : M IamDB Role :=
  guard (is_nil (cr_TenantID cmd)) (ESentinel ErrTenantRequired) ;;;
  let code := ToLower (TrimSpace (cr_Code cmd)) in
  let name := TrimSpace (cr_Name cmd) in
  guard (String.eqb code "" || String.eqb name "") (Errorf ErrInvalidInput "code and name are required") ;;;
  check_absent (GetRoleByCode (cr_TenantID cmd) code)
    (Errorf ErrAlreadyExists ("role code '" +:+ code +:+ "' already exists in this tenant")) ;;;
  roleID <- NewID ;;
  created <- NowUTC ;;
  updated <- NowUTC ;;
  role <- repo_CreateRole (mkRole roleID (cr_TenantID cmd) code name (cr_Description cmd) false [] created updated) ;;
  match cr_PermissionIDs cmd with
  | [] => ret role
  | ids =>
      AssignPermissionsToRole (r_ID role) ids ;;;
      perms <- attempt (ListRolePermissions (r_ID role)) ;;
      ret (with_permissions role (match perms with inl l => l | inr _ => [] end))
  end.

Definition GetRole (tenantID roleID : ID) : M IamDB Role :=
  guard (is_nil tenantID) (ESentinel ErrTenantRequired) ;;; GetRoleByID tenantID roleID.

Definition ListRoles (tenantID : ID) : M IamDB (list Role) :=
  guard (is_nil tenantID) (ESentinel ErrTenantRequired) ;;; repo_ListRoles tenantID.

Definition AssignRolePermissions (cmd : AssignRolePermissionsCommand) : M IamDB unit :=
  guard (is_nil (arp_TenantID cmd) || is_nil (arp_RoleID cmd))
    (Errorf ErrInvalidInput "tenant_id and role_id are required") ;;;
  GetRoleByID (arp_TenantID cmd) (arp_RoleID cmd) ;;;
  AssignPermissionsToRole (arp_RoleID cmd) (arp_PermissionIDs cmd).

Definition ListPermissions : M IamDB (list Permission) := repo_ListPermissions.
End Usecase.

(** ** Consistency *)

Record iam_inv (d : IamDB) : Prop := {
  ii_tenants : tenants_inv (iam_tenants d);
  ii_users : keyed u_ID (iam_users d);
  ii_user_ids : forall k u, iam_users d !! k = Some u -> u_ID u <> NilID;
  ii_emails : unique same_email (iam_users d);
  ii_members : keyed tu_ID (iam_members d);
  ii_pairs : unique same_member (iam_members d);
  ii_roles : keyed r_ID (iam_roles d);
  ii_codes : unique same_role_code (iam_roles d);
  ii_member_refs : forall k m, iam_members d !! k = Some m ->
    is_Some (iam_tenants d !! tu_TenantID m) /\ is_Some (iam_users d !! tu_UserID m);
  ii_role_tenant : forall k r, iam_roles d !! k = Some r -> is_Some (iam_tenants d !! r_TenantID r);
  ii_role_perms : forall r p, (r, p) ∈ iam_role_permissions d ->
    is_Some (iam_roles d !! r) /\ is_Some (iam_permissions d !! p);
  ii_user_roles : forall t u r, (t, u, r) ∈ iam_user_roles d ->
    is_Some (iam_tenants d !! t) /\ is_Some (iam_users d !! u) /\ is_Some (iam_roles d !! r);
}.

Lemma same_email_sym a b : same_email a b = same_email b a.
Proof. apply String.eqb_sym. Qed.
Lemma same_member_sym a b : same_member a b = same_member b a.
Proof. unfold same_member. f_equal; by apply bool_decide_ext. Qed.
Lemma same_role_code_sym a b : same_role_code a b = same_role_code b a.
Proof. unfold same_role_code. rewrite String.eqb_sym. f_equal. by apply bool_decide_ext. Qed.

Lemma has_true {R} (t : gmap ID R) id : has t id = true <-> is_Some (t !! id).
Proof. apply bool_decide_eq_true. Qed.

Lemma is_Some_insert {R} (t : gmap ID R) k row i : is_Some (t !! i) -> is_Some (<[k := row]> t !! i).
Proof. intros Hi. destruct (decide (k = i)) as [->|]; [by rewrite lookup_insert_eq | by rewrite lookup_insert_ne]. Qed.

#[export] Hint Resolve keyed_insert unique_insert is_Some_insert same_email_sym same_member_sym same_role_code_sym : table_inv.

(** One changed table at a time; the other fields are carried over. *)
Ltac iam_fields :=
  match goal with X : iam_inv _ |- _ => destruct X as [I1 I2 I2' I3 I4 I5 I6 I7 I8 I9 I10 I11] end;
  split; cbn; eauto with table_inv; try done.

Lemma iam_set_tenants d t : iam_inv d -> tenants_inv t ->
  (forall i, is_Some (iam_tenants d !! i) -> is_Some (t !! i)) -> iam_inv (lens_set t d).
Proof. intros Hi Ht Hs. iam_fields; naive_solver. Qed.

Lemma iam_insert_user d (u : User) : iam_inv d ->
  (forall k r, iam_users d !! k = Some r -> same_email u r = false) -> u_ID u <> NilID ->
  iam_inv (lens_set (<[u_ID u := u]> (iam_users d)) d).
Proof.
  intros Hi Hn Hnil. iam_fields.
  - intros k r [[<- <-]|[_ E]]%lookup_insert_Some; eauto.
  - naive_solver eauto with table_inv.
  - naive_solver eauto with table_inv.
Qed.

Lemma iam_insert_member d (m : TenantUser) : iam_inv d ->
  (forall k r, iam_members d !! k = Some r -> same_member m r = false) ->
  is_Some (iam_tenants d !! tu_TenantID m) -> is_Some (iam_users d !! tu_UserID m) ->
  iam_inv (lens_set (<[tu_ID m := m]> (iam_members d)) d).
Proof.
  intros Hi Hn Ht Hu. iam_fields.
  intros k r [[<- <-]|[_ E]]%lookup_insert_Some; eauto.
Qed.

Lemma iam_insert_role d (r : Role) : iam_inv d ->
  (forall k r', iam_roles d !! k = Some r' -> same_role_code r r' = false) ->
  is_Some (iam_tenants d !! r_TenantID r) -> iam_inv (lens_set (<[r_ID r := r]> (iam_roles d)) d).
Proof.
  intros Hi Hn Ht. iam_fields.
  - intros k r' [[<- <-]|[_ E]]%lookup_insert_Some; eauto.
  - intros r' p Hp. destruct (I10 r' p Hp). eauto with table_inv.
  - intros t u r' Hu. destruct (I11 t u r' Hu) as (? & ? & ?). eauto with table_inv.
Qed.

Lemma iam_set_role_permissions d s : iam_inv d ->
  (forall r p, (r, p) ∈ s -> is_Some (iam_roles d !! r) /\ is_Some (iam_permissions d !! p)) ->
  iam_inv (set_role_permissions s d).
Proof. intros Hi Hs. iam_fields. Qed.

Lemma iam_set_user_roles d s : iam_inv d ->
  (forall t u r, (t, u, r) ∈ s ->
     is_Some (iam_tenants d !! t) /\ is_Some (iam_users d !! u) /\ is_Some (iam_roles d !! r)) ->
  iam_inv (set_user_roles s d).
Proof. intros Hi Hs. iam_fields. Qed.

Section Inv.
  Context `{UnicodeTables, UUIDLib, Env, Pg, GoPlatform, TenantServer, IamServer, JWTLib, Bcrypt}.

Lemma CreateUser_inv u : preserves iam_inv (CreateUser u).
Proof.
  apply preserves_writes_last; [unfold CreateUser; frame |]. intros w a w' Hi E. unfold CreateUser in E. step_inv.
  match goal with X : insert_into _ _ _ _ _ _ = _ |- _ => apply insert_into_Ok in X as (-> & -> & _ & Hu & Hn & _) end.
  apply (iam_insert_user (w_db w) (user_row u)); [done | done |]. cbn in *. set_solver.
Qed.

Lemma AddTenantMember_inv m : preserves iam_inv (AddTenantMember m).
Proof.
  apply preserves_writes_last; [unfold AddTenantMember; frame |]. intros w a w' Hi E. unfold AddTenantMember in E. step_inv.
  match goal with X : insert_into _ _ _ _ _ _ = _ |- _ => apply insert_into_Ok in X as (-> & -> & _ & Hu & _ & Hr) end.
  destruct (_ && _) eqn:Hh in Hr; [| done]. apply andb_true_iff in Hh as [H1' H2']. apply has_true in H1', H2'.
  by apply (iam_insert_member (w_db w) (member_row m)).
Qed.

Lemma repo_CreateRole_inv r : preserves iam_inv (repo_CreateRole r).
Proof.
  apply preserves_writes_last; [unfold repo_CreateRole; frame |]. intros w a w' Hi E. unfold repo_CreateRole in E. step_inv.
  match goal with X : insert_into _ _ _ _ _ _ = _ |- _ => apply insert_into_Ok in X as (-> & -> & _ & Hu & _ & Hr) end.
  destruct (has _ _) eqn:Hh in Hr; [| done]. apply has_true in Hh.
  by apply (iam_insert_role (w_db w) (role_row r)).
Qed.

Lemma AssignPermissionToRole_inv r p : preserves iam_inv (AssignPermissionToRole r p).
Proof.
  apply preserves_writes_last; [apply writes_last_query |]. intros w a w' Hi E. unfold AssignPermissionToRole in E. step_inv.
  destruct (_ || _); [done |]. destruct (bool_decide _); [by simplify_eq |].
  destruct (_ && _) eqn:Hh; [| done]. simplify_eq. apply andb_true_iff in Hh as [Hh1%has_true Hh2%has_true].
  apply iam_set_role_permissions; [done |]. intros r' p' [[= -> ->]%elem_of_singleton|Hr]%elem_of_union; [done |].
  by apply (ii_role_perms _ Hi).
Qed.

Lemma ClearRolePermissions_inv r : preserves iam_inv (ClearRolePermissions r).
Proof.
  apply preserves_writes_last; [apply writes_last_query |]. intros w a w' Hi E. unfold ClearRolePermissions in E. step_inv.
  simplify_eq. apply iam_set_role_permissions; [done |]. intros r' p' [_ Hr]%elem_of_filter.
  by apply (ii_role_perms _ Hi).
Qed.

Lemma AssignUserRole_inv t u r : preserves iam_inv (AssignUserRole t u r).
Proof.
  apply preserves_writes_last; [apply writes_last_query |]. intros w a w' Hi E. unfold AssignUserRole, insert_user_role in E. step_inv.
  destruct (bool_decide _); [done |]. destruct (bool_decide _); [by simplify_eq |].
  destruct (_ && _) eqn:Hh; [| done]. simplify_eq. apply andb_true_iff in Hh as [[Hh1%has_true Hh2%has_true]%andb_true_iff Hh3%has_true].
  apply iam_set_user_roles; [done |]. intros t' u' r' [[= -> -> ->]%elem_of_singleton|Hr]%elem_of_union; [naive_solver |].
  by apply (ii_user_roles _ Hi).
Qed.

Lemma RemoveUserRole_inv t u r : preserves iam_inv (RemoveUserRole t u r).
Proof.
  apply preserves_writes_last; [apply writes_last_query |]. intros w a w' Hi E. unfold RemoveUserRole, delete_user_role in E. step_inv.
  simplify_eq. apply iam_set_user_roles; [done |]. intros t' u' r' [_ Hr]%elem_of_filter.
  by apply (ii_user_roles _ Hi).
Qed.

Lemma CreateTenant_iam_inv cmd : preserves iam_inv (CreateTenant cmd).
Proof.
  apply preserves_writes_last; [unfold CreateTenant, repo_Create, repo_GetByCode; frame |]. intros w a w' Hi E.
  apply CreateTenant_Ok in E as (row & _ & _ & _ & _ & Hu & _ & ->). cbn [lens_get Lens_iam_tenants].
  apply iam_set_tenants; [done | apply tenants_insert; [apply Hi | done] | eauto with table_inv].
Qed.

Lemma UpdateTenant_iam_inv cmd : preserves iam_inv (UpdateTenant cmd).
Proof.
  apply preserves_writes_last; [unfold UpdateTenant, repo_Update, repo_GetByID; frame |]. intros w a w' Hi E.
  unfold UpdateTenant, repo_Update in E. step_inv.
  match goal with X : repo_GetByID _ _ = _ |- _ => apply reads_Ok in X as Hr; [| apply reads_GetByID] end.
  match goal with X : update_one _ _ _ _ _ _ = _ |- _ => apply update_one_Ok in X as (k & old & Hk & _ & -> & -> & Hu & _) end.
  cbn [w_db tick] in *. rewrite Hr in *. apply iam_set_tenants; [done | | eauto with table_inv].
  eapply tenants_update; [apply Hi | done | done | done].
Qed.

(** Reads. *)
Lemma reads_GetUserByEmail e : reads (GetUserByEmail e).
Proof. unfold GetUserByEmail. frame. Qed.
Lemma reads_GetUserByID i : reads (GetUserByID i).
Proof. unfold GetUserByID. frame. Qed.
Lemma reads_GetTenantMember t u : reads (GetTenantMember t u).
Proof. unfold GetTenantMember. frame. Qed.
Lemma reads_repo_GetByID i : reads (D := IamDB) (repo_GetByID i).
Proof. unfold repo_GetByID. frame. Qed.
Lemma reads_ListUserTenants u : reads (ListUserTenants u).
Proof. apply reads_query. naive_solver. Qed.
Lemma reads_ListUserRolesInTenant t u : reads (ListUserRolesInTenant t u).
Proof. apply reads_query. naive_solver. Qed.
Lemma reads_ListUserPermissionsInTenant t u : reads (ListUserPermissionsInTenant t u).
Proof. apply reads_query. naive_solver. Qed.
Lemma reads_ListRolePermissions r : reads (ListRolePermissions r).
Proof. apply reads_query. naive_solver. Qed.
#[local] Hint Resolve reads_GetUserByEmail reads_GetUserByID reads_GetTenantMember reads_ListUserTenants reads_repo_GetByID
  reads_ListUserRolesInTenant reads_ListUserPermissionsInTenant reads_ListRolePermissions : go_frame.
Lemma reads_fill_permissions r : reads (fill_permissions r).
Proof. unfold fill_permissions. frame. Qed.
#[local] Hint Resolve reads_fill_permissions : go_frame.
Lemma reads_GetRoleByID t r : reads (GetRoleByID t r).
Proof. unfold GetRoleByID. frame. Qed.
Lemma reads_GetRoleByCode t c : reads (GetRoleByCode t c).
Proof. unfold GetRoleByCode. frame. Qed.
#[local] Hint Resolve reads_GetRoleByID reads_GetRoleByCode : go_frame.
#[local] Hint Resolve CreateUser_inv AddTenantMember_inv repo_CreateRole_inv AssignPermissionToRole_inv
  ClearRolePermissions_inv AssignUserRole_inv RemoveUserRole_inv CreateTenant_iam_inv UpdateTenant_iam_inv : table_inv.

Lemma reads_issueLoginResult uc u t : reads (issueLoginResult uc u t).
Proof. unfold issueLoginResult. frame. Qed.
#[local] Hint Resolve reads_issueLoginResult : go_frame.
Lemma reads_Login uc cmd : reads (Login uc cmd).
Proof. unfold Login. frame. Qed.
Lemma reads_SwitchTenant uc cmd : reads (SwitchTenant uc cmd).
Proof. unfold SwitchTenant. frame. Qed.

Lemma Register_inv uc cmd : preserves iam_inv (Register uc cmd).
Proof. unfold Register. keep. Qed.
Lemma AddMember_inv cmd : preserves iam_inv (AddMember cmd).
Proof. unfold AddMember. keep. Qed.
Lemma AssignMemberRoles_inv cmd : preserves iam_inv (AssignMemberRoles cmd).
Proof. unfold AssignMemberRoles. keep. Qed.
Lemma RemoveMemberRole_inv t u r : preserves iam_inv (RemoveMemberRole t u r).
Proof. unfold RemoveMemberRole. keep. Qed.
Lemma AssignPermissionsToRole_inv r ps : preserves iam_inv (AssignPermissionsToRole r ps).
Proof. unfold AssignPermissionsToRole. keep. Qed.
#[local] Hint Resolve AssignPermissionsToRole_inv : table_inv.
Lemma CreateRole_inv cmd : preserves iam_inv (CreateRole cmd).
Proof. unfold CreateRole. keep. Qed.
Lemma AssignRolePermissions_inv cmd : preserves iam_inv (AssignRolePermissions cmd).
Proof. unfold AssignRolePermissions. keep. Qed.
End Inv.

(** ** Who is granted what *)

(** Some role the user holds in the tenant has the permission. *)
Definition granted (d : IamDB) (tenantID userID : ID) (code : string) : Prop :=
  exists r p k, (tenantID, userID, r) ∈ iam_user_roles d /\ is_Some (iam_roles d !! r)
    /\ (r, perm_ID p) ∈ iam_role_permissions d /\ iam_permissions d !! k = Some p /\ perm_Code p = code.

Lemma elem_of_roles_of d tn u r :
  keyed r_ID (iam_roles d) ->
  r ∈ roles_of d tn u <-> iam_roles d !! r_ID r = Some r /\ (tn, u, r_ID r) ∈ iam_user_roles d.
Proof.
  intros Hk. unfold roles_of. rewrite elem_of_select_rows, bool_decide_eq_true. split.
  - intros [Hu [k Hr]]. split; [by rewrite (Hk k r Hr) | done].
  - intros [Hr Hu]. eauto.
Qed.

Lemma elem_of_permissions_of d tn u code :
  keyed r_ID (iam_roles d) -> code ∈ permissions_of d tn u <-> granted d tn u code.
Proof.
  intros Hk. unfold permissions_of, granted. rewrite elem_of_remove_dups, list_elem_of_In, in_map_iff. split.
  - intros (p & Ec & Hp). apply list_elem_of_In, elem_of_select_rows in Hp as [He [k Hp]].
    apply existsb_exists in He as (r & Hr & He). apply list_elem_of_In, elem_of_roles_of in Hr as [Hr Hu]; [| done].
    apply bool_decide_eq_true in He. exists (r_ID r), p, k. split_and!; eauto.
  - intros (r & p & k & Hu & [row Hr] & Hp & Hk' & Ec). exists p. split; [done |].
    apply list_elem_of_In, elem_of_select_rows. split; [| eauto]. apply existsb_exists. exists row.
    pose proof (Hk r row Hr) as Er. rewrite <- list_elem_of_In, bool_decide_eq_true, elem_of_roles_of, Er by done. done.
Qed.

(** An active membership. *)
Definition active_member (d : IamDB) (tenantID userID : ID) : Prop :=
  exists k m, iam_members d !! k = Some m /\ tu_TenantID m = tenantID /\ tu_UserID m = userID
    /\ tu_Status m = MembershipStatusActive.

Section Login.
  Context `{UnicodeTables, UUIDLib, Env, Pg, GoPlatform, TenantServer, IamServer, JWTLib, Bcrypt}.
  Variable uc : iam_usecase.

(** What a login result for a tenant says, and when its token was signed. *)
Record login_for (d : IamDB) (user : User) (tenantID : ID) (res : LoginResult) (n : nat) : Prop := {
  lf_user : lr_User res = user;
  lf_tenant : lr_TenantID res = Some tenantID;
  lf_member : active_member d tenantID (u_ID user);
  lf_roles : lr_Roles res ≡ₚ map r_Code (roles_of d tenantID (u_ID user));
  lf_permissions : lr_Permissions res = permissions_of d tenantID (u_ID user);
  lf_token : jwt_SignedString
    (token_claims (uc_tokenManager uc) (UTC (env_now n)) (u_ID user) tenantID (u_Email user) (u_Name user)
       (lr_Roles res) (lr_Permissions res) (uc_tokenTTL uc)) (tm_secretKey (uc_tokenManager uc)) = Ok (lr_Token res);
}.

Lemma issueLoginResult_Ok user tn w res w' :
  issueLoginResult uc user tn w = (Ok res, w') ->
  exists n, (w_tick w <= n < w_tick w')%nat /\ login_for (w_db w) user tn res n.
Proof.
  intros E. unfold issueLoginResult in E. apply bind_Ok in E as (r & w1 & R & E).
  apply attempt_Ok in R as [(m & R & ->)|(e & R & ->)]; [| by destruct (err_eq e ErrNotFound)].
  unfold GetTenantMember in R. apply select_from_Ok in R as (-> & Hm & k & Hk).
  unfold ListUserRolesInTenant, ListUserPermissionsInTenant in E. step_inv.
  match goal with X : wrap_err _ _ _ = _ |- _ => apply wrap_err_Ok in X; unfold GenerateToken in X end. step_inv.
  simplify_eq. cbn [w_db w_tick tick] in *. eexists. split; [| split; cbn]; [| done | done | | | done | eassumption].
  - lia.
  - apply andb_true_iff in Hm as [H1' H2']. apply sql_eq_true in H1' as [_ H1'], H2' as [_ H2'].
    apply negb_false_iff, String.eqb_eq in R. exists k, m. done.
  - rewrite map_map. cbn. by rewrite merge_sort_Permutation.
Qed.

(** The credentials a login accepts. *)
Definition credentials_ok (d : IamDB) (cmd : LoginCommand) (user : User) : Prop :=
  (exists k, iam_users d !! k = Some user) /\ u_Email user = ToLower (TrimSpace (lc_Email cmd))
  /\ u_Status user = UserStatusActive /\ CheckPasswordHash (lc_Password cmd) (u_PasswordHash user) = true.

Lemma join_tenant_id d r m : tenants_inv (iam_tenants d) -> join_tenant d r = Some m -> tm_TenantID m = tu_TenantID r.
Proof.
  intros Ht E. unfold join_tenant in E. destruct (_ !! _) as [t|] eqn:El; [| done]. cbn in E. injection E as <-.
  by apply (ti_keyed _ Ht).
Qed.

Lemma Login_Ok cmd w res w' :
  Login uc cmd w = (Ok res, w') ->
  exists user, credentials_ok (w_db w) cmd user /\
    ((lr_User res = user /\ lr_TenantID res = None /\ lr_Token res = "" /\ lr_RequiresTenantSelection res = true
        /\ opt_ref (lc_TenantID cmd) = None /\ length (lr_AvailableTenants res) <> 1%nat)
     \/ exists tn n, (w_tick w <= n < w_tick w')%nat /\ login_for (w_db w) user tn res n
          /\ (forall t, opt_ref (lc_TenantID cmd) = Some t -> tn = t)).
Proof.
  intros E. unfold Login in E. step_inv.
  match goal with X : attempt _ _ = _ |- _ => apply attempt_Ok in X as [(user & Hu & ->)|(e & He & ->)];
    [| destruct (err_eq e ErrNotFound); done] end.
  unfold GetUserByEmail in Hu. apply select_from_Ok in Hu as (-> & Hem & k & Hk). apply String.eqb_eq in Hem.
  step_inv.
  match goal with X : negb (u_Status user =? _)%string = false |- _ => apply negb_false_iff, String.eqb_eq in X end.
  match goal with X : negb (CheckPasswordHash _ _) = false |- _ => apply negb_false_iff in X end.
  cbn [w_db w_tick tick] in *. exists user. split; [unfold credentials_ok; eauto |].
  destruct (opt_ref (lc_TenantID cmd)) as [tn|] eqn:Et.
  { right. apply issueLoginResult_Ok in E as (n & Hn & Hl). exists tn, n. cbn in Hn. split; [lia |]. split; [done |].
    by intros t [= ->]. }
  unfold ListUserTenants in E. step_inv. simplify_eq.
  set (l := omap _ _) in *. destruct l as [|t [|t2 l']] eqn:El.
  - left. step_inv. simplify_eq. cbn. repeat split; auto.
  - right. apply issueLoginResult_Ok in E as (n & Hn & Hl). exists (tm_TenantID t), n. cbn in Hn. split; [lia | done].
  - left. step_inv. simplify_eq. cbn. repeat split; auto.
Qed.
End Login.

Section LoginExact.
  Context `{UnicodeTables, UUIDLib, Env, Pg, GoPlatform, TenantServer, IamServer, JWTLib, Bcrypt}.

(** A lookup that no fault disturbs finds the only row there is. *)
Lemma select_from_found {R} `{Lens IamDB (gmap ID R)} (p : R -> bool) (w : World IamDB) k r :
  env_fault (w_tick w) = None -> (lens_get (w_db w) : gmap ID R) !! k = Some r -> p r = true ->
  (forall k' r', (lens_get (w_db w) : gmap ID R) !! k' = Some r' -> p r' = true -> r' = r) ->
  select_from p w = (Ok r, tick w).
Proof.
  intros Hf Hk Hp Hu. unfold select_from, query. rewrite Hf, (select_one_unique p _ k r) by done. done.
Qed.

Lemma GetUserByEmail_found w user k :
  iam_inv (w_db w) -> env_fault (w_tick w) = None -> iam_users (w_db w) !! k = Some user ->
  GetUserByEmail (u_Email user) w = (Ok user, tick w).
Proof.
  intros Hi Hf Hk. apply (select_from_found _ w k); [done | done | apply String.eqb_refl |].
  intros k' r' Hk' Hr%String.eqb_eq.
  assert (k' = k) as ->; [| cbn in Hk'; congruence].
  apply (ii_emails _ Hi k' r' k user); [done | done |]. apply String.eqb_eq. done.
Qed.

Lemma GetTenantMember_found w m k :
  iam_inv (w_db w) -> env_fault (w_tick w) = None -> iam_members (w_db w) !! k = Some m ->
  tu_TenantID m <> NilID -> tu_UserID m <> NilID ->
  GetTenantMember (tu_TenantID m) (tu_UserID m) w = (Ok m, tick w).
Proof.
  intros Hi Hf Hk Ht Hu. apply (select_from_found _ w k); [done | done | |].
  - unfold member_of. by rewrite andb_true_iff, !sql_eq_true.
  - intros k' r' Hk' Hr. unfold member_of in Hr. rewrite andb_true_iff, !sql_eq_true in Hr.
    assert (k' = k) as ->; [| cbn in Hk'; congruence].
    apply (ii_pairs _ Hi k' r' k m); [done | done |]. unfold same_member. rewrite andb_true_iff, !bool_decide_eq_true. naive_solver.
Qed.

(** Without faults a login with good credentials and an active membership
    returns. *)
Lemma Login_total uc cmd w tn user :
  iam_inv (w_db w) -> (forall n, env_fault n = None) -> (forall c key, is_Ok (jwt_SignedString c key) = true) ->
  opt_ref (lc_TenantID cmd) = Some tn -> ToLower (TrimSpace (lc_Email cmd)) <> "" -> lc_Password cmd <> "" ->
  credentials_ok (w_db w) cmd user -> u_ID user <> NilID -> active_member (w_db w) tn (u_ID user) ->
  is_Ok (Login uc cmd w).1 = true.
Proof.
  intros Hi Hf Hj Ht He Hp ([k Hk] & Eu & Hs & Hc) Hn (km & m & Hkm & <- & Em & Hms).
  assert (tu_TenantID m <> NilID) as Hnt.
  { unfold opt_ref in Ht. destruct (lc_TenantID cmd) as [t|]; [| done]. case_decide; congruence. }
  unfold Login, bind at 1, guard at 1. apply String.eqb_neq in He, Hp. rewrite He, Hp. cbn [orb ret].
  unfold bind at 1, attempt at 1. rewrite <- Eu, (GetUserByEmail_found w user k) by auto.
  rewrite Hs, Hc, Ht. cbn [negb String.eqb]. change (String.eqb UserStatusActive UserStatusActive) with true.
  unfold bind at 1 2, guard at 1 2. cbn [negb ret].
  unfold issueLoginResult, bind at 1, attempt at 1. rewrite <- Em.
  rewrite (GetTenantMember_found (tick w) m km) by (rewrite ?Em; auto).
  unfold bind at 1, guard at 1. rewrite Hms. change (String.eqb MembershipStatusActive MembershipStatusActive) with true. cbn [negb ret].
  unfold bind at 1, ListUserRolesInTenant at 1, query at 1. rewrite Hf.
  unfold bind at 1, ListUserPermissionsInTenant at 1, query at 1. rewrite Hf. cbn [w_db].
  unfold bind at 1, wrap_err at 1, bind at 1, attempt at 1, GenerateToken at 1, bind at 1, NowUTC at 1, lift_res at 1.
  match goal with |- context [jwt_SignedString ?c ?key] => specialize (Hj c key); destruct (jwt_SignedString c key) end; done.
Qed.
End LoginExact.

(** C14: A login for a tenant is exactly the check of the tables.  Whatever the
    environment does, a result means that a user with the normalised email
    exists and is active, that the password matches its hash and that the user
    has an active membership of that tenant; the permissions of the result are
    the codes that some role of the user in the tenant has, and nothing is
    written.  When no round trip fails and tokens can be signed, those
    conditions are also enough: the login returns. *)
Theorem login_exact `{UnicodeTables, UUIDLib, Env, Pg, GoPlatform, TenantServer, IamServer, JWTLib, Bcrypt} uc cmd w tn :
  iam_inv (w_db w) -> opt_ref (lc_TenantID cmd) = Some tn ->
  let d := w_db w in
  (forall res w', Login uc cmd w = (Ok res, w') ->
     w_db w' = d /\ lr_TenantID res = Some tn /\ credentials_ok d cmd (lr_User res)
     /\ active_member d tn (u_ID (lr_User res))
     /\ forall code, code ∈ lr_Permissions res <-> granted d tn (u_ID (lr_User res)) code)
  /\ ((forall n, env_fault n = None) -> (forall c key, is_Ok (jwt_SignedString c key) = true) ->
      is_Ok (Login uc cmd w).1 = true <->
      ToLower (TrimSpace (lc_Email cmd)) <> "" /\ lc_Password cmd <> ""
      /\ exists user, credentials_ok d cmd user /\ active_member d tn (u_ID user)).
Proof.
  intros Hi Ht d.
  assert (forall res w', Login uc cmd w = (Ok res, w') ->
     w_db w' = d /\ lr_TenantID res = Some tn /\ credentials_ok d cmd (lr_User res)
     /\ active_member d tn (u_ID (lr_User res))
     /\ forall code, code ∈ lr_Permissions res <-> granted d tn (u_ID (lr_User res)) code) as Hs.
  { intros res w' E. pose proof (reads_Login uc cmd w) as Hr. rewrite E in Hr. split; [done |].
    apply Login_Ok in E as (user & Hc & [(_ & _ & _ & _ & Ho & _)|(t & n & _ & Hl & Heq)]); [congruence |].
    apply Heq in Ht as ->. destruct Hl as [-> -> Hm _ Hp _]. split_and!; try done.
    intros code. rewrite Hp. apply elem_of_permissions_of, Hi. }
  split; [done |]. intros Hf Hj. split.
  - intros E. destruct (Login uc cmd w) as [[res|e|e] w'] eqn:El; [| done | done].
    destruct (Hs res w' eq_refl) as (_ & _ & Hc & Hm & _).
    unfold Login in El. apply bind_Ok in El as (u & w1 & G & _). apply guard_Ok in G as [G _].
    apply orb_false_iff in G as [G1 G2]. apply String.eqb_neq in G1, G2. eauto.
  - intros (He & Hp & user & Hc & Hm). pose proof (proj1 Hc) as [k Hk]. eapply Login_total; eauto using ii_user_ids.
Qed.

(** ** An example: Ann of tenant 7, who reads documents *)

Definition open_iam_server : IamServer :=
  {| user_refused _ := None; member_refused _ := None; role_refused _ := None |}.
Definition open_tenant_server : TenantServer := {| tenant_refused _ := None |}.

(** Signs everything with the same text. *)
Definition any_jwt : JWTLib :=
  {| jwt_SignedString _ _ := Ok "signed"; jwt_ParseWithClaims _ _ _ := Err (ENew "token is malformed") |}.

Definition demo_tenant : Tenant := mkTenant 7%N "acme" "Acme" TenantStatusActive None zeroTime zeroTime.
Definition demo_user : User := mkUser 1%N "ann@acme.id" "$2a$10$secret-pw" "Ann" UserStatusActive zeroTime zeroTime.
Definition demo_member : TenantUser := mkTenantUser 2%N 7%N 1%N MembershipStatusActive zeroTime.
Definition demo_role : Role := mkRole 3%N 7%N "clerk" "Clerk" "" false [] zeroTime zeroTime.
Definition demo_permissions : gmap ID Permission :=
  {[5%N := mkPermission 5%N "document:read" "Read" "document" ""; 6%N := mkPermission 6%N "document:create" "Create" "document" ""]}.
Definition demo_iam : IamDB :=
  mkIamDB {[7%N := demo_tenant]} {[1%N := demo_user]} {[2%N := demo_member]} {[3%N := demo_role]} demo_permissions
    {[ (3%N, 5%N) ]} {[ (7%N, 1%N, 3%N) ]}.

Lemma keyed_singleton {R} idf (r : R) : keyed idf {[idf r := r]}.
Proof. by intros k r' [<- <-]%lookup_singleton_Some. Qed.
Lemma unique_singleton {R} (same : R -> R -> bool) k (r : R) : unique same {[k := r]}.
Proof. by intros k1 r1 k2 r2 [<- <-]%lookup_singleton_Some [<- <-]%lookup_singleton_Some. Qed.

Lemma demo_iam_inv : iam_inv demo_iam.
Proof.
  split; cbn.
  - split; [exact (keyed_singleton t_ID demo_tenant) | apply unique_singleton].
  - exact (keyed_singleton u_ID demo_user).
  - by intros k u [<- <-]%lookup_singleton_Some.
  - apply unique_singleton.
  - exact (keyed_singleton tu_ID demo_member).
  - apply unique_singleton.
  - exact (keyed_singleton r_ID demo_role).
  - apply unique_singleton.
  - intros k m [<- <-]%lookup_singleton_Some. by split; eexists.
  - intros k r [<- <-]%lookup_singleton_Some. by eexists.
  - intros r p [= -> ->]%elem_of_singleton. by split; eexists.
  - intros t u r [= -> -> ->]%elem_of_singleton. by split_and!; eexists.
Qed.

Definition demo_uc : iam_usecase := NewUsecase true (NewTokenManager "key" "") 0.

Lemma login_exact_witness :
  let I1 := calm zeroTime 1 in let I2 := pgx 0 in let I3 := open_tenant_server in let I4 := open_iam_server in
  let I5 := any_jwt in let I6 := plain_bcrypt in let I7 := test_uuid in let I8 := amd64 in
  let cmd pw := mkLoginCommand " Ann@ACME.id" pw (Some 7%N) in
  let w := mkWorld demo_iam 0 in
  iam_inv demo_iam /\ opt_ref (Some 7%N) = Some 7%N
  /\ is_Ok (Login demo_uc (cmd "secret-pw") w).1 = true
  /\ is_Ok (Login demo_uc (cmd "secret-pW") w).1 = false.
Proof.
  intros I1 I2 I3 I4 I5 I6 I7 I8 cmd w. split; [exact demo_iam_inv |]. split; [done |]. split; [| vm_compute; reflexivity].
  apply (login_exact demo_uc (cmd "secret-pw") w 7%N demo_iam_inv eq_refl); [done | done |].
  split; [done |]. split; [done |]. exists demo_user. split.
  - split; [by exists 1%N | by vm_compute].
  - exists 2%N, demo_member. by vm_compute.
Defined.

(** ** Tokens in requests *)

(** The claims of a login in the context of its request. *)
Definition login_claims (res : LoginResult) (tn : ID) : AuthClaims :=
  user_claims (mkTokenClaims (u_ID (lr_User res)) tn (u_Email (lr_User res)) (u_Name (lr_User res)) (lr_Roles res) (lr_Permissions res)).

(** C15: From the tables to the request.  The token of a login, sent as a bearer
    token before it expires, passes [AuthRequired] of the same token manager
    with the user and the tenant of the login, and [RequirePermission] then
    lets the request through to its endpoint exactly when, at the login, some
    role of the user in that tenant had the permission or the permission "*";
    any other request is answered 403 without the endpoint.  The expiry is
    counted from the instants of the login; the texts in the claims are valid
    UTF-8 (JSON would change others), and nobody sends an API key besides. *)
Theorem login_request `{UnicodeTables, UUIDLib, Env, Pg, GoPlatform, TenantServer, IamServer, JWTLib, !JWTLaws, Bcrypt}
    uc (kv : option (APIKeyValidator IamDB)) cmd w res w' tn p r h w2 :
  iam_inv (w_db w) -> Login uc cmd w = (Ok res, w') -> lr_TenantID res = Some tn ->
  json_safe (mkTokenClaims (u_ID (lr_User res)) tn (u_Email (lr_User res)) (u_Name (lr_User res)) (lr_Roles res) (lr_Permissions res)) = true ->
  ValidString (tm_issuer (uc_tokenManager uc)) = true ->
  Get r "Authorization" = "Bearer " +:+ lr_Token res -> Get r "X-Api-Key" = "" ->
  (forall n, (w_tick w <= n < w_tick w')%nat -> t_nanos (env_now (w_tick w2)) <
     jc_ExpiresAt (token_claims (uc_tokenManager uc) (UTC (env_now n)) NilID NilID "" "" [] [] (uc_tokenTTL uc)) * Second) ->
  let I : TokenManager IamDB := jwt_manager (uc_tokenManager uc) in
  let gate endpoint := AuthRequired kv (RequirePermission p endpoint) r h w2 in
  let has code := granted (w_db w) tn (u_ID (lr_User res)) code in
  (has p \/ has "*" -> forall endpoint,
     gate endpoint = endpoint (WithContext r (inject (req_ctx r) (login_claims res tn))) h (tick w2))
  /\ (~ has p -> ~ has "*" -> blocks (fun e => AuthRequired kv (RequirePermission p e)) [StatusForbidden] r h w2).
Proof.
  intros Hi E Ht Hj Hv Ha Hx Hexp I gate hasp.
  apply Login_Ok in E as (user & _ & [(_ & En & _)|(t & n & Hn & Hl & _)]); [congruence |].
  destruct Hl as [Eu Et _ _ Ep Etok]. rewrite Ht in Et. injection Et as <-. subst user.
  destruct (jwt_shape _ _ _ Etok) as [Htrim Hpre]. specialize (Hexp n Hn).
  assert (presented kv (Get r "Authorization") (Get r "X-Api-Key") = CredToken (lr_Token res)) as Hp.
  { unfold presented. rewrite Ha, Hx. change ("Bearer " +:+ lr_Token res) with ("Bearer" +:+ (String " " (lr_Token res))).
    rewrite SplitN2_append by done. rewrite Htrim. unfold is_bearer_key. rewrite Hpre, andb_false_r. by destruct kv. }
  assert (forall next, AuthRequired kv next r h w2
            = next (WithContext r (inject (req_ctx r) (login_claims res tn))) h (tick w2)) as Hauth.
  { intros next. rewrite AuthRequired_presented, Hp. unfold bind, attempt. cbn [ValidateToken I jwt_manager].
    unfold jwt_ValidateToken, bind, Now. by rewrite (jwt_parse_signed _ _ _ (keyfunc (uc_tokenManager uc)) _ Etok). }
  set (r1 := WithContext r (inject (req_ctx r) (login_claims res tn))) in *.
  destruct (inject_tenant (req_ctx r) (login_claims res tn)) as [_ Ic].
  assert (HasPermission (req_ctx r1) p = true <-> hasp p \/ hasp "*") as Hperm.
  { rewrite HasPermission_iff. cbn [r1 WithContext req_ctx]. rewrite Ic. unfold hasp.
    rewrite <- !elem_of_permissions_of, <- Ep by apply Hi. split; [by intros (c & [= <-] & Hc) | intros Hc; by eexists]. }
  split.
  - intros Hh endpoint. unfold gate. rewrite Hauth. unfold RequirePermission. by rewrite (proj2 Hperm Hh).
  - intros H1' H2'. destruct (RequirePermission_gate p r1 h (tick w2)) as [Hb|[Hb _]]; [| tauto].
    destruct Hb as (rep & w3 & Hb & Hr). exists rep, w3. split; [| done]. intros next. by rewrite Hauth.
Qed.

Lemma login_request_witness :
  let I1 := calm zeroTime 1 in let I2 := pgx 0 in let I3 := open_tenant_server in let I4 := open_iam_server in
  let I6 := plain_bcrypt in let I7 := test_uuid in let I8 := amd64 in
  let tm := uc_tokenManager demo_uc in
  let I5 := single_jwt (token_claims tm (UTC (env_now 4)) 1%N 7%N "ann@acme.id" "Ann" ["clerk"] ["document:read"] (24 * Hour)) "key" in
  let cmd := mkLoginCommand "ann@acme.id" "secret-pw" (Some 7%N) in
  let res := mkLoginResult demo_user "signed" 86400 (Some 7%N) ["clerk"] ["document:read"] false [] in
  let r := mkRequest {["Authorization" := "Bearer signed"]} "10.0.0.1" ∅ ∅ "" Background in
  let w2 := mkWorld demo_iam 99 in
  let I : TokenManager IamDB := jwt_manager tm in
  Login demo_uc cmd (mkWorld demo_iam 0) = (Ok res, mkWorld demo_iam 5)
  /\ forall endpoint : Handler IamDB, AuthRequired None (RequirePermission "document:read" endpoint) r ∅ w2
       = endpoint (WithContext r (inject Background (login_claims res 7%N))) ∅ (tick w2).
Proof.
  intros I1 I2 I3 I4 I6 I7 I8 tm I5 cmd res r w2 I.
  assert (Login demo_uc cmd (mkWorld demo_iam 0) = (Ok res, mkWorld demo_iam 5)) as E by by vm_compute.
  split; [exact E |].
  apply (login_request demo_uc None cmd (mkWorld demo_iam 0) res (mkWorld demo_iam 5) 7%N "document:read" r ∅ w2
           demo_iam_inv E); try done.
  - intros n Hn. assert (n = 0 \/ n = 1 \/ n = 2 \/ n = 3 \/ n = 4)%nat as C by (cbn in Hn; lia).
    by repeat destruct C as [->|C]; [..| subst].
  - left. apply elem_of_permissions_of; [exact (keyed_singleton r_ID demo_role) |]. vm_compute. by left.
Defined.

(** ** Sessions *)

Inductive iam_call :=
  | CallCreateTenant (cmd : CreateTenantCommand)
  | CallUpdateTenant (cmd : UpdateTenantCommand)
  | CallRegister (cmd : RegisterCommand)
  | CallLogin (cmd : LoginCommand)
  | CallSwitchTenant (cmd : SwitchTenantCommand)
  | CallAddMember (cmd : AddMemberCommand)
  | CallAssignMemberRoles (cmd : AssignMemberRolesCommand)
  | CallRemoveMemberRole (tenantID userID roleID : ID)
  | CallCreateRole (cmd : CreateRoleCommand)
  | CallAssignRolePermissions (cmd : AssignRolePermissionsCommand).

Section Session.
  Context `{UnicodeTables, UUIDLib, Env, Pg, GoPlatform, TenantServer, IamServer, JWTLib, Bcrypt}.
  Variable uc : iam_usecase.

Definition iam_run (c : iam_call) (w : World IamDB) : World IamDB :=
  match c with
  | CallCreateTenant cmd => (CreateTenant cmd w).2
  | CallUpdateTenant cmd => (UpdateTenant cmd w).2
  | CallRegister cmd => (Register uc cmd w).2
  | CallLogin cmd => (Login uc cmd w).2
  | CallSwitchTenant cmd => (SwitchTenant uc cmd w).2
  | CallAddMember cmd => (AddMember cmd w).2
  | CallAssignMemberRoles cmd => (AssignMemberRoles cmd w).2
  | CallRemoveMemberRole t u r => (RemoveMemberRole t u r w).2
  | CallCreateRole cmd => (CreateRole cmd w).2
  | CallAssignRolePermissions cmd => (AssignRolePermissions cmd w).2
  end.

Definition iam_session (cs : list iam_call) (w : World IamDB) : World IamDB := fold_left (fun w c => iam_run c w) cs w.

Lemma iam_run_inv c w : iam_inv (w_db w) -> iam_inv (w_db (iam_run c w)).
Proof.
  intros Hi. destruct c; cbn [iam_run].
  - by apply CreateTenant_iam_inv.
  - by apply UpdateTenant_iam_inv.
  - by apply Register_inv.
  - by rewrite reads_Login.
  - by rewrite reads_SwitchTenant.
  - by apply AddMember_inv.
  - by apply AssignMemberRoles_inv.
  - by apply RemoveMemberRole_inv.
  - by apply CreateRole_inv.
  - by apply AssignRolePermissions_inv.
Qed.

Lemma iam_session_inv cs w : iam_inv (w_db w) -> iam_inv (w_db (iam_session cs w)).
Proof. unfold iam_session. revert w. induction cs as [|c cs IH]; intros w Hi; [done | by apply IH, iam_run_inv]. Qed.
End Session.

Definition empty_iam (permissions : gmap ID Permission) : IamDB := mkIamDB ∅ ∅ ∅ ∅ permissions ∅ ∅.

Lemma empty_iam_inv permissions : iam_inv (empty_iam permissions).
Proof. split; [split |..]; intros k; intros; cbn in *; set_solver. Qed.

(** Through any session of registrations, logins, memberships, roles and
    permissions, whatever fails in the middle of a call, the identity tables
    stay consistent: emails, tenant codes, memberships and role codes are
    unique, and every membership, role and assignment refers to rows that
    exist.  So the joins of the read side lose nothing: every membership of a
    user is listed with its tenant. *)
Theorem iam_invariant `{UnicodeTables, UUIDLib, Env, Pg, GoPlatform, TenantServer, IamServer, JWTLib, Bcrypt} uc cs w :
  iam_inv (w_db w) ->
  let w' := iam_session uc cs w in
  iam_inv (w_db w')
  /\ forall u l w1 k m, ListUserTenants u w' = (Ok l, w1) -> u <> NilID ->
       iam_members (w_db w') !! k = Some m -> tu_UserID m = u ->
       exists x, x ∈ l /\ tm_TenantID x = tu_TenantID m /\ tm_MembershipStatus x = tu_Status m.
Proof.
  intros Hi w'. pose proof (iam_session_inv uc cs w Hi) as Hi'. fold w' in Hi'. split; [done |].
  intros u l w1 k m E Hn Hk Hu. unfold ListUserTenants in E. step_inv. simplify_eq.
  destruct (ii_member_refs _ Hi' k m Hk) as [[t Ht] _].
  exists (mkTenantMembership (t_ID t) (t_Code t) (t_Name t) (t_Status t) (tu_Status m) (tu_JoinedAt m)). cbn.
  split; [| split; [by apply (ti_keyed _ (ii_tenants _ Hi')) | done]].
  apply list_elem_of_omap. exists m. split; [| unfold join_tenant; by rewrite Ht].
  rewrite merge_sort_Permutation. apply elem_of_select_rows. split; [by apply sql_eq_true | eauto].
Qed.

(** A tenant, two users and a role; the second registration of an email and the
    second membership are refused. *)
Lemma iam_invariant_witness :
  let I1 := calm zeroTime 1 in let I2 := pgx 0 in let I3 := open_tenant_server in let I4 := open_iam_server in
  let I5 := any_jwt in let I6 := plain_bcrypt in let I7 := test_uuid in let I8 := amd64 in
  let cs := [CallCreateTenant (mkCreateTenantCommand "ACME" "Acme" None);
             CallRegister (mkRegisterCommand "a@x" "password" "Ann" (Some 2%N));
             CallRegister (mkRegisterCommand "A@X " "password" "Ann" None);
             CallRegister (mkRegisterCommand "b@x" "password" "Bob" None);
             CallAddMember (mkAddMemberCommand 2%N 7%N []);
             CallCreateRole (mkCreateRoleCommand 2%N "Clerk" "Clerk" "" [5%N])] in
  let w' := iam_session demo_uc cs (mkWorld (empty_iam demo_permissions) 0) in
  iam_inv (w_db w')
  /\ size (iam_users (w_db w')) = 2%nat /\ size (iam_members (w_db w')) = 1%nat
  /\ size (iam_roles (w_db w')) = 1%nat /\ size (iam_role_permissions (w_db w')) = 1%nat.
Proof.
  intros I1 I2 I3 I4 I5 I6 I7 I8 cs w'. split.
  - exact (proj1 (iam_invariant demo_uc cs (mkWorld (empty_iam demo_permissions) 0) (empty_iam_inv demo_permissions))).
  - by vm_compute.
Defined.

(** ** Replacing the permissions of a role *)

Section RolePermissions.
  Context `{UnicodeTables, UUIDLib, Env, Pg, GoPlatform, TenantServer, IamServer, JWTLib, Bcrypt}.

Definition known (d : IamDB) (p : ID) : Prop := p <> NilID /\ is_Some (iam_permissions d !! p).

(** The pairs of a role with some permissions. *)
Definition pairs (role : ID) (ids : list ID) : gset (ID * ID) := list_to_set (map (pair role) ids).

Lemma set_role_permissions_same s d : s = iam_role_permissions d -> set_role_permissions s d = d.
Proof. intros ->. by destruct d. Qed.

Lemma assign_one role p w : iam_inv (w_db w) -> role <> NilID -> is_Some (iam_roles (w_db w) !! role) ->
  (known (w_db w) p /\ AssignPermissionToRole role p w
    = (Ok tt, mkWorld (set_role_permissions ({[ (role, p) ]} ∪ iam_role_permissions (w_db w)) (w_db w)) (S (w_tick w))))
  \/ (~ known (w_db w) p \/ env_fault (w_tick w) <> None) /\ exists e, AssignPermissionToRole role p w = (Err e, tick w).
Proof.
  intros Hi Hn Hr. unfold AssignPermissionToRole, query. destruct (env_fault (w_tick w)) as [e|]; [right; split; [by right | by exists e] |].
  rewrite (bool_decide_eq_false_2 (role = NilID)) by done. cbn [orb].
  case_bool_decide as Hp; [right; subst p; split; [left; unfold known; naive_solver | eauto] |].
  unfold has. rewrite (bool_decide_eq_true_2 (is_Some (iam_roles (w_db w) !! role))) by done. cbn [andb].
  case_bool_decide as Hin.
  - left. destruct (ii_role_perms _ Hi _ _ Hin) as [_ Hk]. split; [done |]. by rewrite set_role_permissions_same by set_solver.
  - case_bool_decide as Hk; [by left | right; split; [left; unfold known; naive_solver | eauto]].
Qed.

(** The loop stops at the first permission that is unknown or whose round trip fails. *)
Lemma assign_loop role ids w : iam_inv (w_db w) -> role <> NilID -> is_Some (iam_roles (w_db w) !! role) ->
  exists assigned rest, ids = assigned ++ rest /\ Forall (known (w_db w)) assigned
    /\ (forall p rest', rest = p :: rest' -> ~ known (w_db w) p \/ exists n, env_fault n <> None)
    /\ is_Ok (for_each ids (AssignPermissionToRole role) w).1 = bool_decide (rest = [])
    /\ w_db (for_each ids (AssignPermissionToRole role) w).2
       = set_role_permissions (pairs role assigned ∪ iam_role_permissions (w_db w)) (w_db w).
Proof.
  revert w. induction ids as [|p ids IH]; intros w Hi Hn Hr.
  { exists [], []. split_and!; try done. cbn. by rewrite set_role_permissions_same by set_solver. }
  cbn [for_each]. unfold bind. destruct (assign_one role p w Hi Hn Hr) as [[Hk Ha]|[Hk [e ->]]].
  - rewrite Ha. set (w1 := mkWorld _ _) in *.
    assert (iam_inv (w_db w1)) as Hi1.
    { pose proof (AssignPermissionToRole_inv role p w Hi) as X. by rewrite Ha in X. }
    destruct (IH w1 Hi1 Hn Hr) as (assigned & rest & -> & Hf & Hx & Ho & Hd). exists (p :: assigned), rest.
    split_and!; [done | by constructor | done | done |]. rewrite Hd. unfold w1, set_role_permissions. cbn.
    f_equal. unfold pairs. cbn. set_solver.
  - exists [], (p :: ids). split_and!; try done; [naive_solver |]. cbn.
    by rewrite set_role_permissions_same by set_solver.
Qed.

(** The clearing, whose error is dropped: it is the third round trip of the call. *)
Lemma clear_ignored role (w : World IamDB) : exists w1, ignore (ClearRolePermissions role) w = (Ok tt, w1)
  /\ w_db w1 = set_role_permissions (match env_fault (w_tick w) with
       | None => filter (fun rp => sql_eq rp.1 (ToPgUUID role) = false) (iam_role_permissions (w_db w))
       | Some _ => iam_role_permissions (w_db w) end) (w_db w).
Proof.
  unfold ignore, bind, attempt, ClearRolePermissions, query. destruct (env_fault (w_tick w)); cbn; eexists; split; try reflexivity.
  cbn. by rewrite set_role_permissions_same.
Qed.

Lemma GetRoleByID_out tn id w : iam_inv (w_db w) ->
  (exists row, GetRoleByID tn id w = (Ok row, tick (tick w)) /\ is_Some (iam_roles (w_db w) !! id) /\ id <> NilID)
  \/ exists e, GetRoleByID tn id w = (Err e, tick w)
       /\ ((exists row, iam_roles (w_db w) !! id = Some row /\ r_TenantID row = tn) -> tn <> NilID -> id <> NilID -> exists n, env_fault n <> None).
Proof.
  intros Hi. unfold GetRoleByID, bind, select_from, query.
  destruct (env_fault (w_tick w)) as [e|] eqn:Ef; [right; exists e; split; [done |]; intros; exists (w_tick w); by rewrite Ef |].
  destruct (select_one _ _) as [row|] eqn:Es.
  - left. apply select_one_Some in Es as [Hp [k Hk]]. unfold role_by_id in Hp. rewrite andb_true_iff, !sql_eq_true in Hp. destruct Hp as [_ [Hn Hid]].
    pose proof (ii_roles _ Hi _ _ Hk) as Er. cbn in Hk. unfold fill_permissions, bind, attempt, ListRolePermissions, query. cbn [w_tick tick w_db].
    destruct (env_fault (S (w_tick w))); cbn; eexists; (split; [reflexivity |]); (split; [| done]); rewrite <- Hid, Er; by exists row.
  - right. eexists. split; [done |]. intros (row & Hrow & Ht) Hnt Hnr. exfalso.
    assert (role_by_id tn id row = false) as Hf by by eapply select_one_None. unfold role_by_id in Hf.
    pose proof (ii_roles _ Hi _ _ Hrow) as Er. apply andb_false_iff in Hf as [Hf|Hf]; apply not_true_iff_false in Hf; apply Hf; by apply sql_eq_true.
Qed.
End RolePermissions.

(** C17: Replacing the permissions of a role, under every pattern of failures.  Either
    the call fails before it changes anything, and then the tenant or the role is
    missing or a round trip failed; or the role ends with the permissions of the
    command up to the first that is not in the catalogue or whose round trip fails, and
    the call succeeds exactly when there is no such permission.  Its old permissions
    are gone, except when the round trip that clears them, the third of the call,
    failed: the code drops that error, so the call may succeed and the role keeps them.
    The permissions of other roles never change.  In particular, when no round trip
    fails and the role belongs to the tenant, the call succeeds exactly when every
    permission is in the catalogue and then the role has exactly those; and on an
    unknown permission the role has lost its old ones. *)
Theorem role_permissions_exact `{Env, Pg, IamServer} cmd w :
  iam_inv (w_db w) ->
  let d := w_db w in let role := arp_RoleID cmd in let out := AssignRolePermissions cmd w in
  (is_Ok out.1 = false /\ w_db out.2 = d
   /\ (arp_TenantID cmd = NilID \/ role = NilID \/ (~ exists row, iam_roles d !! role = Some row /\ r_TenantID row = arp_TenantID cmd)
       \/ exists n, env_fault n <> None))
  \/ exists assigned rest, arp_PermissionIDs cmd = assigned ++ rest
    /\ Forall (known d) assigned /\ (forall p rest', rest = p :: rest' -> ~ known d p \/ exists n, env_fault n <> None)
    /\ (is_Ok out.1 = true <-> rest = [])
    /\ (forall p, (role, p) ∈ iam_role_permissions (w_db out.2) <->
          p ∈ assigned \/ env_fault (S (S (w_tick w))) <> None /\ (role, p) ∈ iam_role_permissions d)
    /\ (forall r p, r <> role -> (r, p) ∈ iam_role_permissions (w_db out.2) <-> (r, p) ∈ iam_role_permissions d).
Proof.
  intros Hi d role out. unfold out, AssignRolePermissions, AssignPermissionsToRole, bind, guard, is_nil. fold role.
  destruct (decide (arp_TenantID cmd = NilID)) as [Ht|Ht]; [left; rewrite bool_decide_eq_true_2 by done; cbn; auto |].
  destruct (decide (role = NilID)) as [Hr|Hr]; [left; rewrite (bool_decide_eq_true_2 (role = NilID)), orb_true_r by done; cbn; auto |].
  rewrite !bool_decide_eq_false_2 by done. cbn [orb ret].
  destruct (GetRoleByID_out (arp_TenantID cmd) role w Hi) as [(row & -> & Hrow & _)|(e & -> & Hno)].
  2: { left. split_and!; [done | done |]. destruct (iam_roles d !! role) as [row|] eqn:Er; [| right; right; left; naive_solver].
       destruct (decide (r_TenantID row = arp_TenantID cmd)); [do 3 right; apply Hno; eauto | right; right; left; naive_solver]. }
  right. destruct (clear_ignored role (tick (tick w))) as (w1 & -> & Hw1). cbn [w_db w_tick tick] in Hw1.
  assert (iam_inv (w_db w1)) as Hi1.
  { rewrite Hw1. apply iam_set_role_permissions; [done |]. intros r p Hp. apply (ii_role_perms _ Hi). destruct (env_fault _); [done | by apply elem_of_filter in Hp as [_ ?]]. }
  destruct (assign_loop role (arp_PermissionIDs cmd) w1 Hi1 Hr) as (assigned & rest & E & Hk & Hx & Ho & Hd); [by rewrite Hw1 |].
  exists assigned, rest. rewrite Hd, Hw1 in *. cbn. split_and!; try done.
  - rewrite Ho. apply bool_decide_eq_true.
  - intros p. unfold pairs. rewrite elem_of_union, elem_of_list_to_set, list_elem_of_In, in_map_iff. setoid_rewrite <- list_elem_of_In.
    destruct (env_fault _); [naive_solver |]. rewrite elem_of_filter. cbn. split; [| naive_solver].
    intros [(p' & [= <-] & Hp)|[Hs _]]; [by left |]. exfalso. apply not_true_iff_false in Hs. apply Hs. by apply sql_eq_true.
  - intros r p Hne. unfold pairs. rewrite elem_of_union, elem_of_list_to_set, list_elem_of_In, in_map_iff.
    destruct (env_fault _); [naive_solver |]. rewrite elem_of_filter. cbn. split; [intros [(p' & [= <- _] & _)|[_ Hp]]; done |].
    intros Hp. right. split; [| done]. apply not_true_iff_false. intros [_ Hs]%sql_eq_true. done.
Qed.

(** The clerk gets both permissions; with an unknown one in front, none. *)
Lemma role_permissions_exact_witness :
  let I1 := calm zeroTime 1 in let I2 := pgx 0 in let I4 := open_iam_server in
  let cmd ids := mkAssignRolePermissionsCommand 7%N 3%N ids in
  let w := mkWorld demo_iam 0 in
  (exists assigned rest, [9%N; 5%N] = assigned ++ rest
     /\ (is_Ok (AssignRolePermissions (cmd [9%N; 5%N]) w).1 = true <-> rest = [])
     /\ (forall p, (3%N, p) ∈ iam_role_permissions (w_db (AssignRolePermissions (cmd [9%N; 5%N]) w).2) <-> p ∈ assigned))
  /\ iam_role_permissions (w_db (AssignRolePermissions (cmd [9%N; 5%N]) w).2) = ∅
  /\ iam_role_permissions (w_db (AssignRolePermissions (cmd [6%N; 5%N]) w).2) = {[ (3%N, 6%N); (3%N, 5%N) ]}.
Proof.
  intros I1 I2 I4 cmd w. split; [| split; vm_compute; reflexivity].
  destruct (role_permissions_exact (cmd [9%N; 5%N]) w demo_iam_inv) as [(_ & _ & [Hn|[Hn|[Hn|[n Hn]]]])|(assigned & rest & E & _ & _ & Ho & Hp & _)];
    [done | done | exfalso; apply Hn; by exists demo_role | done |].
  exists assigned, rest. split_and!; [done | done |]. intros p. specialize (Hp p). split; [intros [?|[? _]]%Hp; done |]. intros Ha. apply Hp. by left.
Defined.

(** When the third round trip fails, the call succeeds and the clerk keeps the
    permission that the command takes away. *)
Lemma clearing_gap :
  let I1 := {| env_now _ := zeroTime; env_id n := inl (N.of_nat n); env_fault n := if Nat.eqb n 2 then Some (ENew "lost") else None |} in
  let I2 := pgx 0 in let I4 := open_iam_server in
  let out := AssignRolePermissions (mkAssignRolePermissionsCommand 7%N 3%N [6%N]) (mkWorld demo_iam 0) in
  is_Ok out.1 = true /\ iam_role_permissions (w_db out.2) = {[ (3%N, 6%N) ]} ∪ iam_role_permissions demo_iam /\ (3%N, 5%N) ∈ iam_role_permissions (w_db out.2).
Proof. by vm_compute. Qed.

(** ** Members and their roles *)

Section MemberRoles.
  Context `{UnicodeTables, UUIDLib, Env, Pg, GoPlatform, TenantServer, IamServer, JWTLib, Bcrypt}.

(** The server accepts the assignment. *)
Definition grantable (d : IamDB) (tn u r : ID) : Prop :=
  r <> NilID /\ is_Some (iam_tenants d !! tn) /\ is_Some (iam_users d !! u) /\ is_Some (iam_roles d !! r).

(** The table with a user given some roles in a tenant. *)
Definition grants (tn u : ID) (roles : list ID) : gset (ID * ID * ID) := list_to_set (map (pair (tn, u)) roles).
Definition granted_in (tn u : ID) (roles : list ID) (d : IamDB) : IamDB := set_user_roles (grants tn u roles ∪ iam_user_roles d) d.

Lemma granted_nil tn u d : granted_in tn u [] d = d.
Proof. unfold granted_in, grants. cbn. rewrite union_empty_l_L. by destruct d. Qed.

Lemma granted_cons tn u r roles d : granted_in tn u roles (granted_in tn u [r] d) = granted_in tn u (r :: roles) d.
Proof. unfold granted_in, grants, set_user_roles. cbn. f_equal. set_solver. Qed.

Lemma AssignUserRole_out tn u r w : iam_inv (w_db w) -> tn <> NilID -> u <> NilID ->
  (grantable (w_db w) tn u r /\ AssignUserRole tn u r w = (Ok tt, mkWorld (granted_in tn u [r] (w_db w)) (S (w_tick w))))
  \/ (~ grantable (w_db w) tn u r \/ exists n, env_fault n <> None) /\ exists e, AssignUserRole tn u r w = (Err e, tick w).
Proof.
  intros Hi Ht Hu. unfold AssignUserRole, query. destruct (env_fault (w_tick w)) as [e|] eqn:Ef; [right; split; [right; exists (w_tick w); by rewrite Ef | by exists e] |].
  unfold insert_user_role. case_bool_decide as Hn.
  { right. assert (r = NilID) as -> by set_solver. split; [left; unfold grantable; naive_solver | by eexists]. }
  case_bool_decide as Hin.
  { left. pose proof (ii_user_roles _ Hi _ _ _ Hin). split; [unfold grantable; set_solver |]. do 2 f_equal.
    unfold granted_in, grants. cbn. rewrite union_empty_r_L. rewrite subseteq_union_1_L by set_solver. by destruct (w_db w). }
  destruct (has (iam_tenants (w_db w)) tn && has (iam_users (w_db w)) u && has (iam_roles (w_db w)) r) eqn:Eh.
  - left. rewrite !andb_true_iff, !has_true in Eh. split; [unfold grantable; set_solver |]. unfold granted_in, grants. cbn. by rewrite union_empty_r_L.
  - right. split; [| by eexists]. left. intros (_ & H1' & H2' & H3'). apply not_true_iff_false in Eh. apply Eh. by rewrite !andb_true_iff, !has_true.
Qed.

Lemma grantable_granted d tn u roles tn' u' r : grantable (granted_in tn u roles d) tn' u' r <-> grantable d tn' u' r.
Proof. done. Qed.

(** Assigning stops at the first role that is refused. *)
Lemma grant_loop tn u ids w : iam_inv (w_db w) -> tn <> NilID -> u <> NilID ->
  exists assigned rest, ids = assigned ++ rest /\ Forall (grantable (w_db w) tn u) assigned
    /\ (forall r rest', rest = r :: rest' -> ~ grantable (w_db w) tn u r \/ exists n, env_fault n <> None)
    /\ is_Ok (for_each ids (AssignUserRole tn u) w).1 = bool_decide (rest = [])
    /\ w_db (for_each ids (AssignUserRole tn u) w).2 = granted_in tn u assigned (w_db w).
Proof.
  intros Hi Ht Hu. revert w Hi. induction ids as [|r ids IH]; intros w Hi.
  { exists [], []. split_and!; try done. by rewrite granted_nil. }
  cbn [for_each]. unfold bind. pose proof (AssignUserRole_inv tn u r w Hi) as Hi1.
  destruct (AssignUserRole_out tn u r w Hi Ht Hu) as [[Hg E]|[Hg [e E]]]; rewrite E in *; cbn [snd] in Hi1.
  - destruct (IH _ Hi1) as (assigned & rest & -> & Hf & Hx & Ho & Hd). exists (r :: assigned), rest.
    split_and!; [done | by constructor | done | done |]. rewrite Hd. apply granted_cons.
  - exists [], (r :: ids). split_and!; try done; [naive_solver |]. by rewrite granted_nil.
Qed.

(** With the errors ignored every role is tried. *)
Lemma grant_ignored tn u ids w : iam_inv (w_db w) -> tn <> NilID -> u <> NilID ->
  exists assigned w', for_each ids (fun r => ignore (AssignUserRole tn u r)) w = (Ok tt, w')
    /\ w_db w' = granted_in tn u assigned (w_db w)
    /\ (forall r, r ∈ assigned -> r ∈ ids /\ grantable (w_db w) tn u r)
    /\ ((forall n, env_fault n = None) -> forall r, r ∈ ids -> grantable (w_db w) tn u r -> r ∈ assigned).
Proof.
  intros Hi Ht Hu. revert w Hi. induction ids as [|r ids IH]; intros w Hi.
  { exists [], w. split_and!; [done | by rewrite granted_nil | set_solver | set_solver]. }
  pose proof (AssignUserRole_inv tn u r w Hi) as Hi1. cbn [for_each]. unfold bind at 1.
  assert (ignore (AssignUserRole tn u r) w = (Ok tt, (AssignUserRole tn u r w).2)) as ->.
  { unfold ignore, bind, attempt. by destruct (AssignUserRole_out tn u r w Hi Ht Hu) as [[_ ->]|[_ [e ->]]]. }
  destruct (IH _ Hi1) as (assigned & w' & -> & Hd & Hs & Hc).
  destruct (AssignUserRole_out tn u r w Hi Ht Hu) as [[Hg E]|[Hg [e E]]]; rewrite E in *; cbn [snd tick w_db] in *.
  - exists (r :: assigned), w'. split_and!; [done | by rewrite Hd, granted_cons | |].
    { intros r' [->|Hr']%elem_of_cons; [by split; [left |] |]. destruct (Hs r' Hr'). by split; [right |]. }
    intros Hf r' [->|Hr']%elem_of_cons Hg'; [by left | right; by apply Hc].
  - exists assigned, w'. split_and!; [done | done | |].
    { intros r' Hr'. destruct (Hs r' Hr'). by split; [right |]. }
    intros Hf r' [->|Hr']%elem_of_cons Hg'; [| by apply Hc]. destruct Hg as [Hg|[n Hn]]; [done | by rewrite Hf in Hn].
Qed.

(** A membership that a call has added: the row, and the tables around it. *)
Record member_added (cmd : AddMemberCommand) (m : TenantUser) (d d' : IamDB) : Prop := {
  ma_known : is_Some (iam_users d !! am_UserID cmd) /\ is_Some (iam_tenants d !! am_TenantID cmd);
  ma_new : forall k x, iam_members d !! k = Some x -> ~ (tu_TenantID x = am_TenantID cmd /\ tu_UserID x = am_UserID cmd);
  ma_fresh : iam_members d !! tu_ID m = None;
  ma_row : tu_TenantID m = am_TenantID cmd /\ tu_UserID m = am_UserID cmd /\ tu_Status m = MembershipStatusActive;
  ma_roles : exists assigned,
    d' = granted_in (am_TenantID cmd) (am_UserID cmd) assigned (lens_set (<[tu_ID m := m]> (iam_members d)) d)
    /\ (forall r, r ∈ assigned -> r ∈ am_RoleIDs cmd /\ is_Some (iam_roles d !! r))
    /\ ((forall n, env_fault n = None) -> forall r, r ∈ am_RoleIDs cmd -> r <> NilID -> is_Some (iam_roles d !! r) -> r ∈ assigned);
}.

Lemma AddMember_Ok cmd w m w' : iam_inv (w_db w) -> AddMember cmd w = (Ok m, w') -> member_added cmd m (w_db w) (w_db w').
Proof.
  intros Hi E. unfold AddMember, is_nil in E. step_inv. subst.
  match goal with X : _ || _ = false |- _ => apply orb_false_iff in X as [Ht%bool_decide_eq_false Hu%bool_decide_eq_false] end.
  pose proof (reads_GetUserByID (am_UserID cmd) w) as D1. rewrite R0 in D1. cbn [snd] in D1.
  pose proof (reads_GetTenantMember (am_TenantID cmd) (am_UserID cmd) w1) as D2. rewrite R1 in D2. cbn [snd] in D2.
  assert (iam_inv (w_db w5)) as Hi5.
  { apply (f_equal (fun x => x.2)) in R4. cbn [snd] in R4. rewrite <- R4. apply AddTenantMember_inv. cbn. congruence. }
  unfold AddTenantMember in R4. step_inv. subst.
  match goal with X : insert_into _ _ _ _ _ _ = _ |- _ => apply insert_into_Ok in X as (-> & -> & Hf & Hs & _ & Hrf) end.
  match goal with X : for_each _ _ ?v = _ |- _ => destruct (grant_ignored (am_TenantID cmd) (am_UserID cmd) (am_RoleIDs cmd) v Hi5 Ht Hu)
    as (assigned & w'' & E' & Hd & Hin & Hall); assert (w6 = w'') as -> by congruence end.
  cbn [w_db tick] in *. rewrite D2, D1 in *. cbn in Hf, Hs, Hrf.
  destruct (has (iam_tenants (w_db w)) (am_TenantID cmd) && has (iam_users (w_db w)) (am_UserID cmd)) eqn:Eh; [| done].
  rewrite andb_true_iff, !has_true in Eh. split; cbn; [naive_solver | | done | done |].
  - intros k x Hx [Et Eu]. specialize (Hs k x Hx). unfold same_member in Hs. cbn in Hs. rewrite !bool_decide_eq_true_2 in Hs by done. done.
  - exists assigned. split_and!; [by rewrite Hd | |].
    + intros r Hr. destruct (Hin r Hr) as [? (_ & _ & _ & ?)]. done.
    + intros Hc r Hr Hn Hex. apply Hall; [done | done |]. split_and!; [done | | |]; cbn; naive_solver.
Qed.

Lemma AddTenantMember_ids m w x w' : AddTenantMember m w = (Ok x, w') -> tu_TenantID m <> NilID /\ tu_UserID m <> NilID.
Proof.
  unfold AddTenantMember. intros E. step_inv. match goal with X : insert_into _ _ _ _ _ _ = _ |- _ => apply insert_into_Ok in X as (_ & _ & _ & _ & Hn & _) end.
  cbn in Hn. rewrite !not_elem_of_cons in Hn. naive_solver.
Qed.

Lemma AddMember_err cmd w : iam_inv (w_db w) -> is_Ok (AddMember cmd w).1 = false -> w_db (AddMember cmd w).2 = w_db w.
Proof.
  intros Hi. unfold AddMember.
  do 5 (apply bind_reads_err; [first [apply reads_guard | apply reads_GetUserByID | apply reads_check_absent, reads_GetTenantMember | apply reads_NewID | apply reads_NowUTC] | done | intros ? ? ?]).
  set (m := mkTenantUser _ _ _ _ _). pose proof (AddTenantMember_inv m w4) as Hi5. assert (writes_last (AddTenantMember m)) as Hw by (unfold AddTenantMember; frame).
  specialize (Hw w4). unfold bind. destruct (AddTenantMember m w4) as [[x|e|e] w5] eqn:Em; cbn [fst snd] in *; [| intros _; rewrite Hw by done; done ..].
  apply AddTenantMember_ids in Em as [Ht Hu].
  destruct (grant_ignored (am_TenantID cmd) (am_UserID cmd) (am_RoleIDs cmd) w5) as (assigned & w' & -> & _); [apply Hi5; congruence | done ..].
Qed.

(** The reasons for a refusal, told apart. *)
Lemma AddMember_refused cmd w : iam_inv (w_db w) -> (forall n, env_fault n = None) -> am_TenantID cmd <> NilID -> am_UserID cmd <> NilID ->
  (iam_users (w_db w) !! am_UserID cmd = None -> (AddMember cmd w).1 = Err (ESentinel ErrNotFound))
  /\ (forall k x, is_Some (iam_users (w_db w) !! am_UserID cmd) -> iam_members (w_db w) !! k = Some x ->
       tu_TenantID x = am_TenantID cmd -> tu_UserID x = am_UserID cmd -> exists e, (AddMember cmd w).1 = Err e /\ errors_Is e ErrAlreadyExists = true).
Proof.
  intros Hi Hf Ht Hu. unfold AddMember, bind, guard, is_nil. rewrite !bool_decide_eq_false_2 by done. cbn [orb ret]. split.
  - intros Hn. unfold GetUserByID, select_from, query. rewrite Hf, (proj2 (select_one_None _ _)); [done |]. cbn.
    intros k x Hx. apply not_true_iff_false. intros [_ E]%sql_eq_true. pose proof (ii_users _ Hi _ _ Hx). congruence.
  - intros k x [user Huser] Hx Et Eu. pose proof (ii_users _ Hi _ _ Huser) as Ek.
    unfold GetUserByID. rewrite (select_from_found _ w (am_UserID cmd) user); [| apply Hf | done | by apply sql_eq_true |].
    2: { intros k' r' Hr' [_ E]%sql_eq_true. pose proof (ii_users _ Hi _ _ Hr'). cbn in *. congruence. }
    unfold check_absent, bind, attempt, GetTenantMember. rewrite (select_from_found _ (tick w) k x); [by eexists | apply Hf | done | |].
    + unfold member_of. by rewrite andb_true_iff, !sql_eq_true, Et, Eu.
    + intros k' r' Hr' Hp. unfold member_of in Hp. rewrite andb_true_iff, !sql_eq_true in Hp. cbn in Hr'.
      assert (k' = k) as ->; [| congruence]. apply (ii_pairs _ Hi k' r' k x); [done | done |]. unfold same_member. rewrite andb_true_iff, !bool_decide_eq_true. destruct Hp as [[_ Q1] [_ Q2]]. split; congruence.
Qed.
End MemberRoles.

(** C16: Members and their roles, under every pattern of failures.  A call of AddMember
    that succeeds had found the user and the tenant and no membership of the one in the
    other; it adds exactly one membership, active and with a fresh identifier, and
    assigns to the user in that tenant roles of the command that exist, all of them if
    no round trip fails; a call that fails changes nothing, and without failures of the
    database it says that the user does not exist or that the membership already does.
    AssignMemberRoles assigns the roles of the command to that user in that tenant up
    to the first that is refused, succeeds exactly when none is, and RemoveMemberRole
    takes away exactly the assignment it names.  No other row of any table changes.
    (Whether a role belongs to the tenant is not checked.) *)
Theorem member_roles_exact `{Env, Pg, IamServer} (w : World IamDB) :
  iam_inv (w_db w) ->
  let d := w_db w in
  (forall cmd, let (out, w') := AddMember cmd w in
     match out with Ok m => member_added cmd m d (w_db w') | _ => w_db w' = d end
     /\ ((forall n, env_fault n = None) -> am_TenantID cmd <> NilID -> am_UserID cmd <> NilID ->
         (iam_users d !! am_UserID cmd = None -> out = Err (ESentinel ErrNotFound))
         /\ (forall k x, is_Some (iam_users d !! am_UserID cmd) -> iam_members d !! k = Some x ->
               tu_TenantID x = am_TenantID cmd -> tu_UserID x = am_UserID cmd -> exists e, out = Err e /\ errors_Is e ErrAlreadyExists = true)))
  /\ (forall cmd, let (out, w') := AssignMemberRoles cmd w in let tn := amr_TenantID cmd in let u := amr_UserID cmd in
       (tn = NilID \/ u = NilID) /\ is_Ok out = false /\ w_db w' = d
       \/ exists assigned rest, amr_RoleIDs cmd = assigned ++ rest /\ Forall (grantable d tn u) assigned
            /\ (forall r rest', rest = r :: rest' -> ~ grantable d tn u r \/ exists n, env_fault n <> None)
            /\ (is_Ok out = true <-> rest = []) /\ w_db w' = granted_in tn u assigned d)
  /\ (forall tn u r, let (out, w') := RemoveMemberRole tn u r w in
       if is_Ok out then tn <> NilID /\ u <> NilID /\ r <> NilID /\ w_db w' = set_user_roles (iam_user_roles d ∖ {[ (tn, u, r) ]}) d else w_db w' = d).
Proof.
  intros Hi d. split_and!.
  - intros cmd. pose proof (AddMember_err cmd w Hi) as He. pose proof (AddMember_refused cmd w Hi) as Hr.
    destruct (AddMember cmd w) as [[m|e|e] w'] eqn:E; cbn [fst snd is_Ok] in *; (split; [| exact Hr]); [by apply AddMember_Ok | by apply He ..].
  - intros cmd. unfold AssignMemberRoles, bind at 1, guard, is_nil. destruct (decide (amr_TenantID cmd = NilID)) as [Ht|Ht].
    { rewrite bool_decide_eq_true_2 by done. cbn. left. auto. }
    destruct (decide (amr_UserID cmd = NilID)) as [Hu|Hu].
    { rewrite (bool_decide_eq_true_2 (amr_UserID cmd = NilID)), orb_true_r by done. cbn. left. auto. }
    rewrite !bool_decide_eq_false_2 by done. cbn [orb ret].
    destruct (grant_loop (amr_TenantID cmd) (amr_UserID cmd) (amr_RoleIDs cmd) w Hi Ht Hu) as (assigned & rest & E & Hf & Hx & Ho & Hd).
    destruct (for_each _ _ _) as [out w']. right. exists assigned, rest. cbn [fst snd] in *. split_and!; try done. rewrite Ho. apply bool_decide_eq_true.
  - intros tn u r. unfold RemoveMemberRole, bind, guard, is_nil. destruct (bool_decide (tn = NilID) || bool_decide (u = NilID) || bool_decide (r = NilID)) eqn:En; [done |].
    rewrite !orb_false_iff, !bool_decide_eq_false in En. destruct En as [[Ht Hu] Hr]. cbn [ret]. unfold RemoveUserRole, query.
    destruct (env_fault (w_tick w)); [done |]. cbn. split_and!; try done. unfold delete_user_role. f_equal. apply set_eq. intros [[t' u'] r'].
    rewrite elem_of_filter, elem_of_difference, elem_of_singleton. cbn. rewrite <- not_true_iff_false, !andb_true_iff, !sql_eq_true. naive_solver.
Qed.

(** Bob becomes a member with the role of the clerk; the role 99 does not exist. *)
Lemma member_roles_exact_witness :
  let I1 := calm zeroTime 1 in let I2 := pgx 0 in let I3 := open_tenant_server in let I4 := open_iam_server in
  let I5 := any_jwt in let I6 := plain_bcrypt in let I7 := test_uuid in let I8 := amd64 in
  let w := iam_session demo_uc [CallCreateTenant (mkCreateTenantCommand "ACME" "Acme" None); CallRegister (mkRegisterCommand "b@x" "password" "Bob" None);
             CallCreateRole (mkCreateRoleCommand 2%N "Clerk" "Clerk" "" [5%N])] (mkWorld (empty_iam demo_permissions) 0) in
  let cmd := mkAddMemberCommand 2%N 7%N [12%N; 99%N] in
  match AddMember cmd w with
  | (Ok m, w') => member_added cmd m (w_db w) (w_db w') /\ iam_user_roles (w_db w') = {[ (2%N, 7%N, 12%N) ]}
  | _ => False
  end.
Proof.
  intros I1 I2 I3 I4 I5 I6 I7 I8 w cmd.
  destruct (member_roles_exact w (iam_session_inv demo_uc _ (mkWorld (empty_iam demo_permissions) 0) (empty_iam_inv demo_permissions))) as (T & _). specialize (T cmd).
  destruct (AddMember cmd w) as [[m|e|e] w'] eqn:E; [| by vm_compute in E ..]. destruct T as [T _]. split; [exact T |].
  apply (f_equal (fun x => iam_user_roles (w_db x.2))) in E. cbn [snd] in E. rewrite <- E. by vm_compute.
Defined.

(** ** What is not checked

    A role of another tenant can be assigned, and its permissions are then in
    the tokens for this tenant; a suspended user is refused by [Login] and
    served by [SwitchTenant]; a registration for an unknown tenant fails and
    leaves the user behind, so that it cannot be repeated. *)
Theorem identity_gaps :
  let I1 := calm zeroTime 1 in let I2 := pgx 0 in let I3 := open_tenant_server in let I4 := open_iam_server in
  let I5 := any_jwt in let I6 := plain_bcrypt in let I7 := test_uuid in let I8 := amd64 in
  let foreign := mkRole 13%N 8%N "owner" "Owner" "" false [] zeroTime zeroTime in
  let other := mkTenant 8%N "other" "Other" TenantStatusActive None zeroTime zeroTime in
  let suspended := mkUser 1%N "ann@acme.id" "$2a$10$secret-pw" "Ann" UserStatusSuspended zeroTime zeroTime in
  let d := mkIamDB {[7%N := demo_tenant; 8%N := other]} {[1%N := demo_user]} {[2%N := demo_member]}
             {[3%N := demo_role; 13%N := foreign]} demo_permissions {[ (13%N, 6%N) ]} {[ (7%N, 1%N, 3%N) ]} in
  let d' := lens_set ({[1%N := suspended]} : gmap ID User) demo_iam in
  permissions_of (w_db (AssignMemberRoles (mkAssignMemberRolesCommand 7%N 1%N [13%N]) (mkWorld d 0)).2) 7%N 1%N = ["document:create"]
  /\ is_Ok (Login demo_uc (mkLoginCommand "ann@acme.id" "secret-pw" (Some 7%N)) (mkWorld d' 0)).1 = false
  /\ is_Ok (SwitchTenant demo_uc (mkSwitchTenantCommand 1%N 7%N) (mkWorld d' 0)).1 = true
  /\ (let out := Register demo_uc (mkRegisterCommand "bob@acme.id" "password" "Bob" (Some 9%N)) (mkWorld demo_iam 0) in
      is_Ok out.1 = false /\ size (iam_users (w_db out.2)) = 2%nat
      /\ (Register demo_uc (mkRegisterCommand "bob@acme.id" "password" "Bob" (Some 7%N)) out.2).1
         = Err (Errorf ErrAlreadyExists "user with email 'bob@acme.id' already exists")).
Proof. by vm_compute. Qed.
