(* ===== verification/ServiceAccounts.v ===== *)
(** * Service accounts and API keys

    [internal/core/domain/identity/service_account.go], the repository
    [internal/core/repository/postgres/service_account_repo.go] with the keys of
    its two tables, and
    [internal/core/usecase/identity/service_account_usecase.go], which is the
    validator of API keys that authentication uses. *)

From S2P Require Import Prelude GoStrings Net Crypto GoTime GoFloat Sdk Tables Middleware Tenants Identity.
#[local] Open Scope string_scope.
#[local] Open Scope list_scope.
#[local] Open Scope Z_scope.

(** ** Domain *)

Definition ServiceAccountStatusActive : string := "active".
Definition ServiceAccountStatusSuspended : string := "suspended".
Definition ServiceAccountStatusRevoked : string := "revoked".

Record ServiceAccount := mkServiceAccount {
  sa_ID : ID;
  sa_TenantID : ID;
  sa_Name : string;
  sa_Description : string;
  sa_RoleID : option ID;
  sa_RoleCode : string;
  sa_RoleName : string;
  sa_Status : string;
  sa_CreatedAt : Time;
  sa_UpdatedAt : Time;
}.

Definition sa_IsActive (s : ServiceAccount) : bool := String.eqb (sa_Status s) ServiceAccountStatusActive.

Definition APIKeyStatusActive : string := "active".
Definition APIKeyStatusRevoked : string := "revoked".
Definition APIKeyStatusExpired : string := "expired".

Record APIKey := mkAPIKey {
  k_ID : ID;
  k_TenantID : ID;
  k_ServiceAccountID : ID;
  k_Name : string;
  k_KeyPrefix : string;
  k_KeyHash : string;
  k_Scopes : list string;
  k_IPAllowlist : list string;
  k_Status : string;
  k_ExpiresAt : option Time;
  k_LastUsedAt : option Time;
  k_LastUsedIP : option string;
  k_CreatedAt : Time;
  k_RevokedAt : option Time;
}.

Record APIKeyWithSecret := mkAPIKeyWithSecret { ks_APIKey : APIKey; ks_SecretKey : string }.

Definition expired (now : Time) (e : option Time) : bool := match e with Some t => After now t | None => false end.

Definition key_IsActive (k : APIKey) (now : Time) : bool :=
  if negb (String.eqb (k_Status k) APIKeyStatusActive) then false
  else if expired now (k_ExpiresAt k) then false
  else true.

Definition HashAPIKey (rawKey : string) : string := sha256_hex (TrimSpace rawKey).

(** [crypto/rand]: 32 bytes, or its failure. *)
Class Rand := { rand_Read : nat -> list Z + error }.

Definition GenerateAPIKey `{Rand} {D} : M D (string * string * string) := fun w =>
  match rand_Read (w_tick w) with
  | inr err => (Err (EWrap "failed to generate random bytes: " err ""), tick w)
  | inl randomBytes =>
      let rawKey := APIKeyPrefix +:+ EncodeToString randomBytes in
      (Ok (rawKey, take (String.length APIKeyPrefix + 8) rawKey +:+ "...", HashAPIKey rawKey), tick w)
  end.

(** Does one entry of an allow list admit the address? *)
Definition entry_admits (parsedIP : IP) (entry : string) : bool :=
  let entry := TrimSpace entry in
  if String.eqb entry "" then false
  else if Contains entry "/" then
    match ParseCIDR entry with Some ipNet => net_Contains ipNet parsedIP | None => false end
  else match ParseIP entry with Some targetIP => IP_Equal targetIP parsedIP | None => false end.

(** The address of a client, with or without a port. *)
Definition client_host (clientIP : string) : string :=
  match SplitHostPort clientIP with Some (h, _) => h | None => clientIP end.

Definition ValidateIP (clientIP : string) (allowlist : list string) : bool :=
  match allowlist with
  | [] => true
  | _ => match ParseIP (TrimSpace (client_host clientIP)) with
         | None => false
         | Some parsedIP => existsb (entry_admits parsedIP) allowlist
         end
  end.

(** ** Tables

    An account row has no role code and name (the queries join them).  The
    recordings of key usage that have been started with [go] and have not run
    yet are part of the state of the process. *)

Record MachineDB := mkMachineDB {
  m_iam : IamDB;
  m_accounts : gmap ID ServiceAccount;
  m_keys : gmap ID APIKey;
  m_spawned : list (ID * string * Time);
}.

#[export] Instance Lens_m_accounts : Lens MachineDB (gmap ID ServiceAccount).
Proof.
  refine {| lens_get := m_accounts; lens_set t d := mkMachineDB (m_iam d) t (m_keys d) (m_spawned d) |};
    by intros; repeat match goal with d : MachineDB |- _ => destruct d end.
Defined.
#[export] Instance Lens_m_keys : Lens MachineDB (gmap ID APIKey).
Proof.
  refine {| lens_get := m_keys; lens_set t d := mkMachineDB (m_iam d) (m_accounts d) t (m_spawned d) |};
    by intros; repeat match goal with d : MachineDB |- _ => destruct d end.
Defined.

(** Rows the server refuses for reasons other than the keys, and what a JSONB
    array of texts gives back. *)
Class MachineServer := {
  account_refused : ServiceAccount -> option error;
  key_refused : APIKey -> option error;
  json_strings : list string -> list string;
}.

(** ** Repository *)

Section Repo.
  Context `{Env, Pg, MachineServer}.

(** UNIQUE (tenant_id, name). *)
Definition same_account (a b : ServiceAccount) : bool :=
  bool_decide (sa_TenantID a = sa_TenantID b) && String.eqb (sa_Name a) (sa_Name b).

Definition account_row (sa : ServiceAccount) : ServiceAccount :=
  mkServiceAccount (sa_ID sa) (sa_TenantID sa) (sa_Name sa) (sa_Description sa) (opt_ref (sa_RoleID sa)) "" ""
    (sa_Status sa) (pg_timestamptz (sa_CreatedAt sa)) (pg_timestamptz (sa_UpdatedAt sa)).

Definition account_refs (d : MachineDB) (r : ServiceAccount) : option error :=
  if has (iam_tenants (m_iam d)) (sa_TenantID r)
     && match sa_RoleID r with Some role => has (iam_roles (m_iam d)) role | None => true end
  then account_refused r else Some fk_violation.

Definition repo_CreateServiceAccount (sa : ServiceAccount) : M MachineDB unit :=
  wrap_err "failed to insert service account"
    (insert_into sa_ID (fun r => [sa_TenantID r]) same_account account_refs (account_row sa)) ;;;
  ret tt.

Definition account_by_id (tenantID id : ID) (r : ServiceAccount) : bool :=
  sql_eq (sa_TenantID r) (ToPgUUID tenantID) && sql_eq (sa_ID r) (ToPgUUID id).

(** LEFT JOIN roles. *)
Definition join_role (iam : IamDB) (r : ServiceAccount) : ServiceAccount :=
  match sa_RoleID r with
  | None => r
  | Some role =>
      let '(code, name) := match iam_roles iam !! role with Some ro => (r_Code ro, r_Name ro) | None => ("", "") end in
      mkServiceAccount (sa_ID r) (sa_TenantID r) (sa_Name r) (sa_Description r) (sa_RoleID r) code name
        (sa_Status r) (sa_CreatedAt r) (sa_UpdatedAt r)
  end.

Definition GetServiceAccountByID (tenantID id : ID) : M MachineDB ServiceAccount :=
  r <- wrap_err "failed to get service account" (query (fun d =>
         Ok (join_role (m_iam d) <$> select_one (account_by_id tenantID id) (m_accounts d), d))) ;;
  match r with Some sa => ret sa | None => fail (ESentinel ErrNotFound) end.

(** ORDER BY created_at DESC. *)
Definition repo_ListServiceAccounts (tenantID : ID) : M MachineDB (list ServiceAccount) :=
  wrap_err "failed to list service accounts" (query (fun d =>
    Ok (map (join_role (m_iam d)) (merge_sort (newest sa_CreatedAt)
          (select_rows (fun r => sql_eq (sa_TenantID r) (ToPgUUID tenantID)) (m_accounts d))), d))).

Definition updated_account (sa old : ServiceAccount) : ServiceAccount :=
  mkServiceAccount (sa_ID old) (sa_TenantID old) (sa_Name sa) (sa_Description sa) (opt_ref (sa_RoleID sa)) "" ""
    (sa_Status sa) (sa_CreatedAt old) (pg_timestamptz (sa_UpdatedAt sa)).

(** The number of rows is looked at after the error: no row is [ErrNotFound]
    unwrapped. *)
Definition update_account (sa : ServiceAccount) (d : MachineDB) : res (bool * MachineDB) :=
  match select_one (account_by_id (sa_TenantID sa) (sa_ID sa)) (m_accounts d) with
  | None => Ok (false, d)
  | Some old =>
      let row := updated_account sa old in
      match select_one (fun r => bool_decide (sa_ID r <> sa_ID row) && same_account row r) (m_accounts d), account_refs d row with
      | Some _, _ => Err pg_unique_violation
      | None, Some e => Err e
      | None, None => Ok (true, lens_set (<[sa_ID row := row]> (m_accounts d)) d)
      end
  end.

Definition repo_UpdateServiceAccount (sa : ServiceAccount) : M MachineDB unit :=
  found <- wrap_err "failed to update service account" (query (update_account sa)) ;;
  guard (negb found) (ESentinel ErrNotFound).

(** ON DELETE CASCADE removes the keys of the account. *)
Definition delete_account (tenantID id : ID) (d : MachineDB) : bool * MachineDB :=
  match select_rows (account_by_id tenantID id) (m_accounts d) with
  | [] => (false, d)
  | gone => (true, mkMachineDB (m_iam d) (filter (fun kv => account_by_id tenantID id kv.2 = false) (m_accounts d))
                     (filter (fun kv => k_ServiceAccountID kv.2 ∉ map sa_ID gone) (m_keys d)) (m_spawned d))
  end.

Definition repo_DeleteServiceAccount (tenantID id : ID) : M MachineDB unit :=
  found <- wrap_err "failed to delete service account" (query (fun d => Ok (delete_account tenantID id d))) ;;
  guard (negb found) (ESentinel ErrNotFound).

(** UNIQUE (key_hash). *)
Definition same_hash (a b : APIKey) : bool := String.eqb (k_KeyHash a) (k_KeyHash b).

(** NULL or an empty array for no text at all. *)
Definition stored_strings (l : list string) : list string := match l with [] => [] | _ => json_strings l end.

Definition key_row (k : APIKey) : APIKey :=
  mkAPIKey (k_ID k) (k_TenantID k) (k_ServiceAccountID k) (k_Name k) (k_KeyPrefix k) (k_KeyHash k)
    (stored_strings (k_Scopes k)) (stored_strings (k_IPAllowlist k)) (k_Status k) (pg_timestamptz <$> k_ExpiresAt k)
    None None (pg_timestamptz (k_CreatedAt k)) None.

Definition key_refs (d : MachineDB) (r : APIKey) : option error :=
  if has (iam_tenants (m_iam d)) (k_TenantID r) && has (m_accounts d) (k_ServiceAccountID r)
  then key_refused r else Some fk_violation.

Definition repo_CreateAPIKey (k : APIKey) : M MachineDB unit :=
  wrap_err "failed to insert api key"
    (insert_into k_ID (fun r => [k_TenantID r; k_ServiceAccountID r]) same_hash key_refs (key_row k)) ;;;
  ret tt.

(** The queries do not read the hash back. *)
Definition without_hash (k : APIKey) : APIKey :=
  mkAPIKey (k_ID k) (k_TenantID k) (k_ServiceAccountID k) (k_Name k) (k_KeyPrefix k) "" (k_Scopes k) (k_IPAllowlist k)
    (k_Status k) (k_ExpiresAt k) (k_LastUsedAt k) (k_LastUsedIP k) (k_CreatedAt k) (k_RevokedAt k).

Definition key_by_id (tenantID id : ID) (r : APIKey) : bool :=
  sql_eq (k_TenantID r) (ToPgUUID tenantID) && sql_eq (k_ID r) (ToPgUUID id).

Definition GetAPIKeyByID (tenantID id : ID) : M MachineDB APIKey :=
  r <- wrap_err "failed to get api key" (select_opt (key_by_id tenantID id)) ;;
  match r with Some k => ret (without_hash k) | None => fail (ESentinel ErrNotFound) end.

(** The codes of the role of an account; none without a role. *)
Definition role_codes (iam : IamDB) (role : option ID) : list string :=
  match role with Some r => map perm_Code (role_permissions iam r) | None => [] end.

(** JOIN service_accounts: a key without its account is not found.  Scopes of
    the key take the place of the permissions of the role. *)
Definition key_by_hash (keyHash : string) (d : MachineDB) : option (APIKey * ServiceAccount * list string) :=
  k ← select_one (fun r => String.eqb (k_KeyHash r) keyHash && has (m_accounts d) (k_ServiceAccountID r)) (m_keys d);
  sa ← m_accounts d !! k_ServiceAccountID k;
  Some (without_hash k, sa, match k_Scopes k with [] => role_codes (m_iam d) (sa_RoleID sa) | scopes => scopes end).

Definition GetAPIKeyByHash (keyHash : string) : M MachineDB (APIKey * ServiceAccount * list string) :=
  r <- wrap_err "failed to lookup api key" (query (fun d => Ok (key_by_hash keyHash d, d))) ;;
  match r with Some x => ret x | None => fail (ESentinel ErrNotFound) end.

(** ORDER BY created_at DESC. *)
Definition ListAPIKeysByServiceAccount (tenantID serviceAccountID : ID) : M MachineDB (list APIKey) :=
  rows <- wrap_err "failed to list api keys" (select_all (fun r =>
            sql_eq (k_TenantID r) (ToPgUUID tenantID) && sql_eq (k_ServiceAccountID r) (ToPgUUID serviceAccountID))) ;;
  ret (map without_hash (merge_sort (newest k_CreatedAt) rows)).

Definition revoked_key (now : Time) (k : APIKey) : APIKey :=
  mkAPIKey (k_ID k) (k_TenantID k) (k_ServiceAccountID k) (k_Name k) (k_KeyPrefix k) (k_KeyHash k) (k_Scopes k)
    (k_IPAllowlist k) APIKeyStatusRevoked (k_ExpiresAt k) (k_LastUsedAt k) (k_LastUsedIP k) (k_CreatedAt k)
    (Some (pg_timestamptz now)).

(** Only an active key is revoked; [now] is the server's CURRENT_TIMESTAMP. *)
Definition revoke_key (tenantID id : ID) (now : Time) (d : MachineDB) : bool * MachineDB :=
  match select_one (fun r => key_by_id tenantID id r && String.eqb (k_Status r) "active") (m_keys d) with
  | None => (false, d)
  | Some k => (true, lens_set (<[k_ID k := revoked_key now k]> (m_keys d)) d)
  end.

Definition repo_RevokeAPIKey (tenantID id : ID) : M MachineDB unit :=
  now <- Now ;;
  found <- wrap_err "failed to revoke api key" (query (fun d => Ok (revoke_key tenantID id now d))) ;;
  guard (negb found) (ESentinel ErrNotFound).

Definition used_key (clientIP : string) (usedAt : Time) (k : APIKey) : APIKey :=
  mkAPIKey (k_ID k) (k_TenantID k) (k_ServiceAccountID k) (k_Name k) (k_KeyPrefix k) (k_KeyHash k) (k_Scopes k)
    (k_IPAllowlist k) (k_Status k) (k_ExpiresAt k) (Some (pg_timestamptz usedAt)) (Some clientIP) (k_CreatedAt k)
    (k_RevokedAt k).

Definition UpdateAPIKeyUsage (id : ID) (clientIP : string) (usedAt : Time) : M MachineDB unit :=
  query (fun d =>
    match select_one (fun r => sql_eq (k_ID r) (ToPgUUID id)) (m_keys d) with
    | None => Ok (tt, d)
    | Some k =>
        let row := used_key clientIP usedAt k in
        match key_refused row with
        | Some e => Err e
        | None => Ok (tt, lens_set (<[k_ID k := row]> (m_keys d)) d)
        end
    end).
End Repo.

(** ** The use case *)

Record CreateServiceAccountInput := mkCreateServiceAccountInput {
  csa_Name : string; csa_Description : string; csa_RoleID : option ID;
}.
Record UpdateServiceAccountInput := mkUpdateServiceAccountInput {
  usa_Name : string; usa_Description : string; usa_RoleID : option ID; usa_Status : string;
}.
Record CreateAPIKeyInput := mkCreateAPIKeyInput {
  cak_Name : string; cak_Scopes : list string; cak_IPAllowlist : list string; cak_ExpiresAt : option Time;
}.

Section Usecase.
  Context `{Env, Pg, MachineServer, Rand}.

Definition CreateServiceAccount (ctx : Ctx) (input : CreateServiceAccountInput) : M MachineDB ServiceAccount :=
  tenantID <- lift_res (RequireTenantID ctx) ;;
  let name := TrimSpace (csa_Name input) in
  guard (String.eqb name "") (Errorf ErrInvalidInput "name is required") ;;;
  id <- NewID ;;
  now <- NowUTC ;;
  let sa := mkServiceAccount id tenantID name (TrimSpace (csa_Description input)) (csa_RoleID input) "" ""
              ServiceAccountStatusActive now now in
  repo_CreateServiceAccount sa ;;;
  ret sa.

Definition GetServiceAccount (ctx : Ctx) (id : ID) : M MachineDB ServiceAccount :=
  tenantID <- lift_res (RequireTenantID ctx) ;; GetServiceAccountByID tenantID id.

Definition ListServiceAccounts (ctx : Ctx) : M MachineDB (list ServiceAccount) :=
  tenantID <- lift_res (RequireTenantID ctx) ;; repo_ListServiceAccounts tenantID.

(** Description and role are always overwritten. *)
Definition UpdateServiceAccount (ctx : Ctx) (id : ID) (input : UpdateServiceAccountInput) : M MachineDB ServiceAccount :=
  tenantID <- lift_res (RequireTenantID ctx) ;;
  sa <- GetServiceAccountByID tenantID id ;;
  let name := TrimSpace (usa_Name input) in
  now <- NowUTC ;;
  let sa := mkServiceAccount (sa_ID sa) (sa_TenantID sa) (if String.eqb name "" then sa_Name sa else name)
              (TrimSpace (usa_Description input)) (usa_RoleID input) (sa_RoleCode sa) (sa_RoleName sa)
              (if String.eqb (usa_Status input) "" then sa_Status sa else usa_Status input) (sa_CreatedAt sa) now in
  repo_UpdateServiceAccount sa ;;;
  ret sa.

Definition DeleteServiceAccount (ctx : Ctx) (id : ID) : M MachineDB unit :=
  tenantID <- lift_res (RequireTenantID ctx) ;; repo_DeleteServiceAccount tenantID id.

Definition CreateAPIKey (ctx : Ctx) (serviceAccountID : ID) (input : CreateAPIKeyInput) : M MachineDB APIKeyWithSecret :=
  tenantID <- lift_res (RequireTenantID ctx) ;;
  sa <- GetServiceAccountByID tenantID serviceAccountID ;;
  guard (negb (sa_IsActive sa)) (Errorf ErrInvalidServiceAccount "service account is not active") ;;;
  let keyName := TrimSpace (cak_Name input) in
  let keyName := if String.eqb keyName "" then sa_Name sa +:+ "-key" else keyName in
  generated <- wrap_err "failed to generate key" GenerateAPIKey ;;
  let '(rawKey, prefix, hash) := generated in
  keyID <- NewID ;;
  now <- NowUTC ;;
  let apiKey := mkAPIKey keyID tenantID serviceAccountID keyName prefix hash (cak_Scopes input) (cak_IPAllowlist input)
                  APIKeyStatusActive (cak_ExpiresAt input) None None now None in
  repo_CreateAPIKey apiKey ;;;
  ret (mkAPIKeyWithSecret apiKey rawKey).

Definition ListAPIKeys (ctx : Ctx) (serviceAccountID : ID) : M MachineDB (list APIKey) :=
  tenantID <- lift_res (RequireTenantID ctx) ;; ListAPIKeysByServiceAccount tenantID serviceAccountID.

Definition RevokeAPIKey (ctx : Ctx) (serviceAccountID keyID : ID) : M MachineDB unit :=
  tenantID <- lift_res (RequireTenantID ctx) ;;
  key <- GetAPIKeyByID tenantID keyID ;;
  guard (bool_decide (k_ServiceAccountID key <> serviceAccountID)) (ESentinel ErrNotFound) ;;;
  repo_RevokeAPIKey tenantID keyID.

(** [go func() { _ = u.repo.UpdateAPIKeyUsage(...) }()]: started, not run. *)
Definition spawn_usage (id : ID) (ip : string) (t : Time) : M MachineDB unit := fun w =>
  (Ok tt, mkWorld (mkMachineDB (m_iam (w_db w)) (m_accounts (w_db w)) (m_keys (w_db w)) (m_spawned (w_db w) ++ [(id, ip, t)])) (w_tick w)).

(** The claims of an accepted key. *)
Definition key_claims (k : APIKey) (sa : ServiceAccount) (permissions : list string) : AuthClaims :=
  mkAuthClaims (sa_ID sa) (sa_TenantID sa) (sa_Name sa +:+ "@serviceaccount.mergiate.local") (sa_Name sa)
    (if String.eqb (sa_RoleCode sa) "" then [] else [sa_RoleCode sa]) permissions ActorTypeAPIKey
    (Some (sa_ID sa)) (Some (k_ID k)).

Definition uc_ValidateAPIKey (ctx : Ctx) (rawKey clientIP : string) : M MachineDB AuthClaims :=
  let rawKey := TrimSpace rawKey in
  guard (negb (HasPrefix rawKey APIKeyPrefix)) (Errorf ErrInvalidAPIKey "invalid key prefix") ;;;
  r <- attempt (GetAPIKeyByHash (HashAPIKey rawKey)) ;;
  match r with
  | inr err => if errors_Is err ErrNotFound then fail (Errorf ErrInvalidAPIKey "key not found") else fail err
  | inl (key, sa, effectivePermissions) =>
      now <- NowUTC ;;
      (if key_IsActive key now then ret tt
       else if String.eqb (k_Status key) APIKeyStatusRevoked then fail (ESentinel ErrAPIKeyRevoked)
       else if expired now (k_ExpiresAt key) then fail (ESentinel ErrAPIKeyExpired)
       else fail (ESentinel ErrInvalidAPIKey)) ;;;
      guard (negb (sa_IsActive sa)) (Errorf ErrInvalidServiceAccount ("service account status " +:+ sa_Status sa)) ;;;
      guard (negb (ValidateIP clientIP (k_IPAllowlist key))) (ESentinel ErrIPNotAllowed) ;;;
      spawn_usage (k_ID key) clientIP now ;;;
      ret (key_claims key sa effectivePermissions)
  end.

(** The validator that authentication is given. *)
Definition service_account_validator : APIKeyValidator MachineDB := mkValidator _ uc_ValidateAPIKey.

(** One of the recordings that were started runs, in whatever order. *)
Definition run_usage (i : nat) (w : World MachineDB) : World MachineDB :=
  match m_spawned (w_db w) !! i with
  | None => w
  | Some (id, ip, t) =>
      let d := w_db w in
      (UpdateAPIKeyUsage id ip t (mkWorld (mkMachineDB (m_iam d) (m_accounts d) (m_keys d) (delete i (m_spawned d))) (w_tick w))).2
  end.
End Usecase.

(** ** Allow lists *)

(** What an entry means: the address itself, or a network that contains it. *)
Definition admits (entry : string) (ip : IP) : Prop :=
  entry <> "" /\
  if Contains entry "/" then exists a n, cidr_parts entry = Some (a, n) /\ in_network a n ip
  else ParseIP entry = Some ip.

Lemma entry_admits_iff ip entry : IP_ok ip -> entry_admits ip entry = true <-> admits (TrimSpace entry) ip.
Proof.
  intros Hip. unfold entry_admits, admits. destruct (String.eqb_spec (TrimSpace entry) "") as [E|Hne]; [naive_solver |].
  destruct (Contains (TrimSpace entry) "/").
  - destruct (cidr_parts (TrimSpace entry)) as [[a n]|] eqn:Ec.
    + destruct (ParseCIDR_Contains _ _ _ ip Ec Hip) as (net & -> & Hc). rewrite Hc. naive_solver.
    + rewrite ParseCIDR_None by done. naive_solver.
  - destruct (ParseIP (TrimSpace entry)) as [t|]; [| naive_solver].
    unfold IP_Equal. rewrite bool_decide_eq_true. naive_solver.
Qed.

(** C13: The allow list of an API key is applied as its entries mean.  Without
    entries every client is admitted; otherwise the client address (without a
    port and brackets) must parse, and some entry is that address or a network
    whose leading bits it has.  An IPv4 address is in an IPv6 network only if
    that network lies within the mapped IPv4 range, and in an IPv4 network or
    entry also when it is written in the mapped form. *)
Theorem ValidateIP_exact clientIP allowlist :
  ValidateIP clientIP allowlist = true <->
  allowlist = []
  \/ exists ip, ParseIP (TrimSpace (client_host clientIP)) = Some ip
       /\ exists entry, entry ∈ allowlist /\ admits (TrimSpace entry) ip.
Proof.
  unfold ValidateIP. destruct allowlist as [|e0 l]; [naive_solver |].
  destruct (ParseIP (TrimSpace (client_host clientIP))) as [ip|] eqn:E; [| naive_solver].
  apply ParseIP_ok in E as Hip. rewrite existsb_exists. setoid_rewrite <- list_elem_of_In.
  setoid_rewrite (entry_admits_iff ip _ Hip). naive_solver.
Qed.

Example allow_list_examples :
  let l := ["192.168.1.0/24"; " 10.0.0.1 "; "2001:db8::/32"] in
  map (fun ip => ValidateIP ip l)
    ["192.168.1.50:54321"; "::ffff:192.168.1.7"; "192.168.2.1"; "10.0.0.1"; "[2001:db8::9]:80"; "10.0.0.2"; ""; "fe80::1%eth0"]
  = [true; true; false; true; true; false; false; false].
Proof. by vm_compute. Qed.

(** ** Consistency *)

Record machine_inv (d : MachineDB) : Prop := {
  mi_accounts : keyed sa_ID (m_accounts d);
  mi_names : unique same_account (m_accounts d);
  mi_codes : forall k a, m_accounts d !! k = Some a -> sa_RoleCode a = "";
  mi_keys : keyed k_ID (m_keys d);
  mi_hashes : unique same_hash (m_keys d);
  mi_key_account : forall i k, m_keys d !! i = Some k ->
    exists a, m_accounts d !! k_ServiceAccountID k = Some a /\ sa_TenantID a = k_TenantID k;
}.

Lemma same_account_sym a b : same_account a b = same_account b a.
Proof. unfold same_account. rewrite String.eqb_sym. f_equal. by apply bool_decide_ext. Qed.
Lemma same_hash_sym a b : same_hash a b = same_hash b a.
Proof. apply String.eqb_sym. Qed.
#[local] Hint Resolve keyed_insert unique_insert same_account_sym same_hash_sym : table_inv.

(** A key row replaced by one with the same identity. *)
Lemma machine_replace_key d i k k' : machine_inv d -> m_keys d !! i = Some k ->
  k_ID k' = k_ID k -> k_KeyHash k' = k_KeyHash k -> k_ServiceAccountID k' = k_ServiceAccountID k -> k_TenantID k' = k_TenantID k ->
  machine_inv (lens_set (<[k_ID k := k']> (m_keys d)) d).
Proof.
  intros [I1 I2 I3 I4 I5 I6] Hi E1 E2 E3 E4. split; cbn; try done.
  - rewrite <- E1. by apply keyed_insert.
  - pose proof (I4 _ _ Hi) as Ei. apply unique_insert; [apply same_hash_sym | done |]. intros j r Hne Hr.
    apply not_true_is_false. intros Hs. apply Hne. symmetry. rewrite Ei. apply (I5 _ _ _ _ Hi Hr).
    unfold same_hash in *. by rewrite <- E2.
  - intros j r [[<- <-]|[_ Hr]]%lookup_insert_Some; [rewrite E3, E4; eauto | eauto].
Qed.

Section Inv.
  Context `{Env, Pg, MachineServer, Rand}.

Lemma reads_GetServiceAccountByID t i : reads (GetServiceAccountByID t i).
Proof. unfold GetServiceAccountByID. frame. apply reads_query. naive_solver. Qed.
Lemma reads_GetAPIKeyByID t i : reads (GetAPIKeyByID t i).
Proof. unfold GetAPIKeyByID. frame. Qed.
Lemma reads_GetAPIKeyByHash h : reads (GetAPIKeyByHash h).
Proof. unfold GetAPIKeyByHash. frame. apply reads_query. naive_solver. Qed.
Lemma reads_GenerateAPIKey : reads (D := MachineDB) GenerateAPIKey.
Proof. intros w. unfold GenerateAPIKey. by destruct (rand_Read _). Qed.
#[local] Hint Resolve reads_GetServiceAccountByID reads_GetAPIKeyByID reads_GetAPIKeyByHash reads_GenerateAPIKey : go_frame.

Lemma GetServiceAccountByID_Ok t i w sa w' :
  keyed sa_ID (m_accounts (w_db w)) -> GetServiceAccountByID t i w = (Ok sa, w') ->
  w' = tick w /\ exists row, m_accounts (w_db w) !! i = Some row /\ sa_TenantID row = t /\ sa = join_role (m_iam (w_db w)) row.
Proof.
  intros Hk E. unfold GetServiceAccountByID in E. step_inv.
  match goal with X : wrap_err _ _ _ = _ |- _ => apply wrap_err_Ok in X end. step_inv. simplify_eq.
  destruct (select_one _ _) as [row|] eqn:Es; [| done]. cbn in E. step_inv. simplify_eq. split; [done |].
  apply select_one_Some in Es as [Hp [k Hr]]. unfold account_by_id in Hp. rewrite andb_true_iff, !sql_eq_true in Hp.
  destruct Hp as [[_ Ht] [_ Hid]]. exists row. rewrite <- Hid, (Hk _ _ Hr). done.
Qed.

(** *** Every statement that writes keeps the tables consistent *)

Lemma insert_account_inv sa :
  preserves machine_inv (insert_into sa_ID (fun r => [sa_TenantID r]) same_account account_refs (account_row sa)).
Proof.
  apply preserves_writes_last; [apply writes_last_insert_into |].
  intros w r w' [I1 I2 I3 I4 I5 I6] E. apply insert_into_Ok in E as (-> & -> & Hf & Hu & _).
  split; cbn [w_db lens_set lens_get Lens_m_accounts m_accounts m_keys] in *; eauto with table_inv.
  - intros k r [[<- <-]|[_ Hr]]%lookup_insert_Some; [done | eauto].
  - intros j k Hk. destruct (I6 j k Hk) as (a & Ha & Ht). exists a. rewrite lookup_insert_ne by congruence. done.
Qed.

Lemma update_account_inv sa : preserves machine_inv (query (update_account sa)).
Proof.
  apply preserves_writes_last; [apply writes_last_query |]. intros w r w' Hi E. step_inv. unfold update_account in E.
  destruct (select_one (account_by_id _ _) _) as [old|] eqn:Es; [| by simplify_eq].
  destruct (select_one (fun _ => _) _) eqn:Eu; [done |]. destruct (account_refs _ _); [done |]. simplify_eq. destruct Hi as [I1 I2 I3 I4 I5 I6].
  apply select_one_Some in Es as [_ [i Hold]]. pose proof (I1 _ _ Hold) as Ei.
  split; cbn [w_db lens_set Lens_m_accounts m_accounts m_keys]; try done.
  - apply (keyed_insert sa_ID _ (updated_account sa old)). done.
  - apply (unique_update sa_ID same_account _ (updated_account sa old)); [apply same_account_sym | done | done |].
    intros k' r' Hr' Hne. rewrite select_one_None in Eu. specialize (Eu k' r' Hr'). cbv beta in Eu.
    by rewrite bool_decide_eq_true_2 in Eu by done.
  - intros k r [[<- <-]|[_ Hr]]%lookup_insert_Some; [done | eauto].
  - intros j k Hk. destruct (I6 j k Hk) as (a & Ha & Ht). destruct (decide (sa_ID old = k_ServiceAccountID k)) as [E|Hne].
    + exists (updated_account sa old). cbn [updated_account sa_ID]. rewrite E, lookup_insert_eq. split; [done |].
      rewrite <- E, Ei, Hold in Ha. by simplify_eq.
    + exists a. by rewrite lookup_insert_ne.
Qed.

Lemma delete_account_inv t i : preserves machine_inv (query (fun d => Ok (delete_account t i d))).
Proof.
  apply preserves_writes_last; [apply writes_last_query |]. intros w r w' Hi E. step_inv. unfold delete_account in E.
  destruct (select_rows _ _) as [|g gone] eqn:Eg; [by simplify_eq |]. simplify_eq. destruct Hi as [I1 I2 I3 I4 I5 I6].
  split; cbn [w_db m_accounts m_keys].
  - by apply keyed_filter.
  - by apply unique_filter.
  - intros k a [Ha _]%map_lookup_filter_Some. eauto.
  - by apply keyed_filter.
  - by apply unique_filter.
  - intros j k [Hk Hn]%map_lookup_filter_Some. destruct (I6 j k Hk) as (a & Ha & Ht). exists a. split; [| done].
    apply map_lookup_filter_Some. split; [done |]. apply not_true_is_false. intros Hp. apply Hn. cbn [snd].
    change (sa_ID g :: map sa_ID gone) with (map sa_ID (g :: gone)).
    rewrite <- (I1 _ _ Ha), list_elem_of_In. apply in_map. rewrite <- list_elem_of_In, <- Eg, elem_of_select_rows. eauto.
Qed.

Lemma revoke_key_inv t i now : preserves machine_inv (query (fun d => Ok (revoke_key t i now d))).
Proof.
  apply preserves_writes_last; [apply writes_last_query |]. intros w r w' Hi E. step_inv. unfold revoke_key in E.
  destruct (select_one _ _) as [k|] eqn:Es; simplify_eq; [| done]. apply select_one_Some in Es as [_ [j Hk]].
  by apply (machine_replace_key (w_db w) j k (revoked_key now k)).
Qed.

Lemma UpdateAPIKeyUsage_inv id ip t : preserves machine_inv (UpdateAPIKeyUsage id ip t).
Proof.
  apply preserves_writes_last; [apply writes_last_query |]. intros w r w' Hi E. unfold UpdateAPIKeyUsage in E. step_inv.
  destruct (select_one _ _) as [k|] eqn:Es; [| by simplify_eq]. destruct (key_refused _); [done |]. simplify_eq.
  apply select_one_Some in Es as [_ [j Hk]]. by apply (machine_replace_key (w_db w) j k (used_key ip t k)).
Qed.

Lemma spawn_usage_inv id ip t : preserves machine_inv (spawn_usage id ip t).
Proof. by intros w [I1 I2 I3 I4 I5 I6]. Qed.
#[local] Hint Resolve insert_account_inv update_account_inv delete_account_inv revoke_key_inv UpdateAPIKeyUsage_inv spawn_usage_inv : table_inv.

Lemma CreateServiceAccount_inv ctx input : preserves machine_inv (CreateServiceAccount ctx input).
Proof. unfold CreateServiceAccount, repo_CreateServiceAccount. keep. Qed.
Lemma UpdateServiceAccount_inv ctx id input : preserves machine_inv (UpdateServiceAccount ctx id input).
Proof. unfold UpdateServiceAccount, repo_UpdateServiceAccount. keep. Qed.
Lemma DeleteServiceAccount_inv ctx id : preserves machine_inv (DeleteServiceAccount ctx id).
Proof. unfold DeleteServiceAccount, repo_DeleteServiceAccount. keep. Qed.
Lemma RevokeAPIKey_inv ctx sa id : preserves machine_inv (RevokeAPIKey ctx sa id).
Proof. unfold RevokeAPIKey, repo_RevokeAPIKey. keep. Qed.
Lemma uc_ValidateAPIKey_inv ctx raw ip : preserves machine_inv (uc_ValidateAPIKey ctx raw ip).
Proof. unfold uc_ValidateAPIKey. keep. Qed.
(** What a created key is. *)
Lemma CreateAPIKey_Ok ctx saID input w ks w' :
  keyed sa_ID (m_accounts (w_db w)) -> CreateAPIKey ctx saID input w = (Ok ks, w') ->
  exists n row a rnd, (w_tick w <= n < w_tick w')%nat /\ env_id n = inl (k_ID row)
    /\ rand_Read (S (w_tick w)) = inl rnd /\ ks_SecretKey ks = APIKeyPrefix +:+ EncodeToString rnd
    /\ row = key_row (ks_APIKey ks) /\ k_KeyHash row = HashAPIKey (ks_SecretKey ks)
    /\ k_Status row = APIKeyStatusActive /\ k_ServiceAccountID row = saID
    /\ RequireTenantID ctx = Ok (k_TenantID row) /\ m_accounts (w_db w) !! saID = Some a
    /\ sa_TenantID a = k_TenantID row /\ sa_IsActive a = true
    /\ k_IPAllowlist row = stored_strings (cak_IPAllowlist input) /\ k_ExpiresAt row = pg_timestamptz <$> cak_ExpiresAt input
    /\ m_keys (w_db w) !! k_ID row = None
    /\ (forall i r, m_keys (w_db w) !! i = Some r -> same_hash row r = false)
    /\ w_db w' = lens_set (<[k_ID row := row]> (m_keys (w_db w))) (w_db w).
Proof.
  intros Hk E. unfold CreateAPIKey in E. step_inv.
  match goal with X : GetServiceAccountByID _ _ _ = _ |- _ =>
    apply GetServiceAccountByID_Ok in X as (-> & acc & Ha & Ht & ->); [| done] end.
  match goal with X : wrap_err _ GenerateAPIKey _ = _ |- _ => apply wrap_err_Ok in X; unfold GenerateAPIKey in X; rename X into G end.
  destruct (rand_Read _) as [rnd|] eqn:Er; [| done]. injection G as <- <-. cbv beta iota in E. step_inv.
  match goal with X : repo_CreateAPIKey _ _ = _ |- _ => unfold repo_CreateAPIKey in X end. step_inv.
  match goal with X : wrap_err _ (insert_into _ _ _ _ _) _ = _ |- _ =>
    apply wrap_err_Ok, insert_into_Ok in X as (-> & -> & Hf & Hu & _) end.
  match goal with X : negb (sa_IsActive _) = false |- _ => apply negb_false_iff in X as Hact end.
  assert (sa_IsActive acc = true) as Hact'.
  { unfold join_role in Hact. destruct (sa_RoleID acc); [| done]. by destruct (iam_roles _ !! _). }
  cbn [w_db w_tick tick key_row k_ID k_KeyHash k_Status k_ServiceAccountID k_TenantID k_IPAllowlist k_ExpiresAt ks_APIKey ks_SecretKey] in *.
  eexists (S (S (w_tick w))), _, acc, rnd. split_and!; try reflexivity; try eassumption; lia.
Qed.

Lemma CreateAPIKey_inv ctx saID input : preserves machine_inv (CreateAPIKey ctx saID input).
Proof.
  apply preserves_writes_last; [unfold CreateAPIKey, repo_CreateAPIKey; frame |]. intros w ks w' Hi E.
  apply CreateAPIKey_Ok in E as (n & row & a & rnd & _ & _ & _ & _ & _ & _ & _ & Es & _ & Ha & Ht & _ & _ & _ & Hf & Hu & ->); [| apply Hi].
  destruct Hi as [I1 I2 I3 I4 I5 I6]. split; cbn [w_db lens_set lens_get Lens_m_keys m_accounts m_keys] in *; eauto with table_inv.
  intros i k [[<- <-]|[_ Hk]]%lookup_insert_Some; [rewrite Es; eauto | eauto].
Qed.

Lemma run_usage_inv i w : machine_inv (w_db w) -> machine_inv (w_db (run_usage i w)).
Proof.
  intros Hi. unfold run_usage. destruct (m_spawned (w_db w) !! i) as [[[id ip] t]|]; [| done].
  apply UpdateAPIKeyUsage_inv. by destruct Hi.
Qed.
End Inv.

(** ** Validation *)

(** The key and the account that make a text an accepted credential at an
    instant. *)
Record accepts (d : MachineDB) (rawKey clientIP : string) (now : Time) (k : APIKey) (sa : ServiceAccount) : Prop := {
  ak_prefix : HasPrefix (TrimSpace rawKey) APIKeyPrefix = true;
  ak_key : exists i, m_keys d !! i = Some k;
  ak_hash : k_KeyHash k = HashAPIKey rawKey;
  ak_account : m_accounts d !! k_ServiceAccountID k = Some sa;
  ak_status : k_Status k = APIKeyStatusActive;
  ak_expiry : expired now (k_ExpiresAt k) = false;
  ak_active : sa_Status sa = ServiceAccountStatusActive;
  ak_ip : ValidateIP clientIP (k_IPAllowlist k) = true;
}.

(** The scopes of the key, or else what the role of the account grants. *)
Definition effective (d : MachineDB) (k : APIKey) (sa : ServiceAccount) : list string :=
  match k_Scopes k with [] => role_codes (m_iam d) (sa_RoleID sa) | scopes => scopes end.

(** The tables, without the recordings that are still to run. *)
Definition tables (d : MachineDB) : IamDB * gmap ID ServiceAccount * gmap ID APIKey := (m_iam d, m_accounts d, m_keys d).

Lemma HashAPIKey_trim s : HashAPIKey (TrimSpace s) = HashAPIKey s.
Proof. unfold HashAPIKey. by rewrite TrimSpace_idemp. Qed.

Lemma key_IsActive_true k now :
  key_IsActive k now = true <-> k_Status k = APIKeyStatusActive /\ expired now (k_ExpiresAt k) = false.
Proof.
  unfold key_IsActive. destruct (String.eqb_spec (k_Status k) APIKeyStatusActive); cbn; [| naive_solver].
  destruct (expired now (k_ExpiresAt k)); naive_solver.
Qed.

Lemma key_by_hash_Some d h k sa perms : machine_inv d ->
  key_by_hash h d = Some (k, sa, perms) <->
  exists row i, m_keys d !! i = Some row /\ k_KeyHash row = h /\ m_accounts d !! k_ServiceAccountID row = Some sa
    /\ k = without_hash row /\ perms = effective d row sa.
Proof.
  intros Hi. unfold key_by_hash. split.
  - destruct (select_one _ _) as [row|] eqn:Es; [| done]. cbn [mbind option_bind].
    apply select_one_Some in Es as [Hp [i Hr]]. apply andb_true_iff in Hp as [Hh _]. apply String.eqb_eq in Hh.
    destruct (m_accounts d !! k_ServiceAccountID row) as [a|] eqn:Ea; [| done]. cbn. intros [= <- <- <-].
    exists row, i. by split_and!.
  - intros (row & i & Hr & Hh & Ha & -> & ->). rewrite (select_one_unique _ _ i row).
    + cbn [mbind option_bind]. rewrite Ha. cbn. done.
    + done.
    + unfold has. rewrite andb_true_iff, String.eqb_eq, bool_decide_eq_true. split; [done | by exists sa].
    + intros i' r' Hr' Hp. apply andb_true_iff in Hp as [Hh' _]. apply String.eqb_eq in Hh'.
      assert (i' = i) as ->; [| congruence]. apply (mi_hashes _ Hi _ _ _ _ Hr' Hr). apply String.eqb_eq. congruence.
Qed.

Section Validate.
  Context `{Env, Pg, MachineServer, Rand}.

Lemma uc_ValidateAPIKey_Ok ctx raw ip w c w' : machine_inv (w_db w) ->
  uc_ValidateAPIKey ctx raw ip w = (Ok c, w') ->
  let now := UTC (env_now (S (w_tick w))) in
  exists k sa, accepts (w_db w) raw ip now k sa /\ c = key_claims k sa (effective (w_db w) k sa)
    /\ tables (w_db w') = tables (w_db w) /\ m_spawned (w_db w') = m_spawned (w_db w) ++ [(k_ID k, ip, now)].
Proof.
  intros Hi E now. unfold uc_ValidateAPIKey in E. step_inv.
  match goal with X : negb (HasPrefix _ _) = false |- _ => apply negb_false_iff in X as Hpre end.
  match goal with X : attempt _ _ = _ |- _ => apply attempt_Ok in X as [([[key sa] perms] & G & ->)|(e & G & ->)];
    [| destruct (errors_Is e ErrNotFound); done] end.
  unfold GetAPIKeyByHash in G. step_inv.
  match goal with X : wrap_err _ _ _ = _ |- _ => apply wrap_err_Ok in X end. step_inv. simplify_eq.
  destruct (key_by_hash _ _) as [[[k0 sa0] p0]|] eqn:Ek; [| done]. unfold ret in G. simplify_eq.
  apply key_by_hash_Some in Ek as (row & i & Hr & Hh & Ha & -> & ->); [| done]. cbn [w_tick w_db tick] in *.
  destruct (key_IsActive (without_hash row) _) eqn:Eact; [| by repeat case_match].
  apply key_IsActive_true in Eact as [Est Eex].
  match goal with X : ret _ _ = _ |- _ => apply ret_Ok in X as [-> ->] end. step_inv.
  match goal with X : spawn_usage _ _ _ _ = _ |- _ => injection X as <- <- end.
  repeat match goal with X : negb _ = false |- _ => apply negb_false_iff in X end.
  rewrite HashAPIKey_trim in Hh. match goal with X : sa_IsActive sa = true |- _ => apply String.eqb_eq in X end.
  exists row, sa. split_and!; try done. split; eauto.
Qed.

(** Without faults an accepted key is answered with its claims. *)
Lemma uc_ValidateAPIKey_total ctx raw ip w k sa : machine_inv (w_db w) -> (forall n, env_fault n = None) ->
  accepts (w_db w) raw ip (UTC (env_now (S (w_tick w)))) k sa ->
  exists w', uc_ValidateAPIKey ctx raw ip w = (Ok (key_claims k sa (effective (w_db w) k sa)), w').
Proof.
  intros Hi Hf [Hp [i Hk] Hh Ha Hs Hx Hact Hip].
  unfold uc_ValidateAPIKey, bind at 1, guard at 1. rewrite Hp. cbn [negb ret].
  unfold bind at 1, attempt at 1, GetAPIKeyByHash at 1, bind at 1, wrap_err at 1, bind at 1, attempt at 1, query at 1.
  rewrite Hf.
  assert (key_by_hash (HashAPIKey (TrimSpace raw)) (w_db w) = Some (without_hash k, sa, effective (w_db w) k sa)) as ->.
  { apply key_by_hash_Some; [done |]. exists k, i. rewrite HashAPIKey_trim. done. }
  cbn [ret]. unfold bind at 1, NowUTC at 1. cbn [w_tick tick].
  rewrite (proj2 (key_IsActive_true (without_hash k) _)) by done. unfold bind at 1. cbn [ret].
  unfold bind at 1, guard at 1. rewrite (proj2 (String.eqb_eq (sa_Status sa) _) Hact : sa_IsActive sa = true). cbn [negb ret].
  unfold bind at 1, guard at 1. cbn [without_hash k_IPAllowlist]. rewrite Hip. cbn [negb ret].
  unfold bind, spawn_usage. cbn. by eexists.
Qed.
End Validate.

(** C11: An API key authenticates exactly as its rows say.  A success means that
    the text has the prefix, that its hash is the hash of a stored key which is
    active and not past its expiry, that the account of the key exists and is
    active, and that the allow list admits the client; the claims carry the
    account as the user, the tenant of the account (which is that of the key),
    no role, and the scopes of the key or else the permissions of the role of
    the account.  Nothing is written before the answer; one usage record of the
    key is left to run.  When no round trip fails those conditions suffice. *)
Theorem ValidateAPIKey_exact `{Env, Pg, MachineServer, Rand} ctx raw ip w :
  machine_inv (w_db w) ->
  let now := UTC (env_now (S (w_tick w))) in
  (forall c w', uc_ValidateAPIKey ctx raw ip w = (Ok c, w') ->
     exists k sa, accepts (w_db w) raw ip now k sa
       /\ ac_UserID c = sa_ID sa /\ ac_TenantID c = k_TenantID k /\ sa_TenantID sa = k_TenantID k
       /\ ac_Permissions c = effective (w_db w) k sa /\ ac_Roles c = [] /\ ac_ActorType c = ActorTypeAPIKey
       /\ ac_APIKeyID c = Some (k_ID k) /\ ac_ServiceAccountID c = Some (k_ServiceAccountID k)
       /\ tables (w_db w') = tables (w_db w) /\ m_spawned (w_db w') = m_spawned (w_db w) ++ [(k_ID k, ip, now)])
  /\ ((forall n, env_fault n = None) ->
      is_Ok (uc_ValidateAPIKey ctx raw ip w).1 = true <-> exists k sa, accepts (w_db w) raw ip now k sa).
Proof.
  intros Hi now. split.
  - intros c w' E. apply uc_ValidateAPIKey_Ok in E as (k & sa & Hacc & -> & Ht & Hs); [| done].
    exists k, sa. destruct (ak_key _ _ _ _ _ _ Hacc) as [i Hk]. destruct (mi_key_account _ Hi i k Hk) as (a & Ha & Hten).
    pose proof (ak_account _ _ _ _ _ _ Hacc) as Ha'. rewrite Ha in Ha'. injection Ha' as ->.
    cbn. rewrite (mi_codes _ Hi _ _ Ha), (mi_accounts _ Hi _ _ Ha). split_and!; done.
  - intros Hf. split.
    + intros E. destruct (uc_ValidateAPIKey ctx raw ip w) as [[c|e|e] w'] eqn:Ev; [| done | done].
      apply uc_ValidateAPIKey_Ok in Ev as (k & sa & Hacc & _); eauto.
    + intros (k & sa & Hacc). destruct (uc_ValidateAPIKey_total ctx raw ip w k sa Hi Hf Hacc) as [w' ->]. done.
Qed.

(** ** Sessions: calls of any tenants, and usage records that run when they may *)

Inductive machine_call :=
  | CallCreateAccount (ctx : Ctx) (input : CreateServiceAccountInput)
  | CallUpdateAccount (ctx : Ctx) (id : ID) (input : UpdateServiceAccountInput)
  | CallDeleteAccount (ctx : Ctx) (id : ID)
  | CallCreateKey (ctx : Ctx) (accountID : ID) (input : CreateAPIKeyInput)
  | CallRevokeKey (ctx : Ctx) (accountID keyID : ID)
  | CallValidate (ctx : Ctx) (rawKey clientIP : string)
  | UsageRuns (i : nat).

Section Session.
  Context `{Env, Pg, MachineServer, Rand}.

Definition machine_run (c : machine_call) (w : World MachineDB) : World MachineDB :=
  match c with
  | CallCreateAccount ctx input => (CreateServiceAccount ctx input w).2
  | CallUpdateAccount ctx id input => (UpdateServiceAccount ctx id input w).2
  | CallDeleteAccount ctx id => (DeleteServiceAccount ctx id w).2
  | CallCreateKey ctx accountID input => (CreateAPIKey ctx accountID input w).2
  | CallRevokeKey ctx accountID keyID => (RevokeAPIKey ctx accountID keyID w).2
  | CallValidate ctx rawKey clientIP => (uc_ValidateAPIKey ctx rawKey clientIP w).2
  | UsageRuns i => run_usage i w
  end.

Definition machine_session (cs : list machine_call) (w : World MachineDB) : World MachineDB :=
  fold_left (fun w c => machine_run c w) cs w.

Lemma machine_run_inv c w : machine_inv (w_db w) -> machine_inv (w_db (machine_run c w)).
Proof.
  intros Hi. destruct c; cbn [machine_run]; first
    [ by apply CreateServiceAccount_inv | by apply UpdateServiceAccount_inv | by apply DeleteServiceAccount_inv
    | by apply CreateAPIKey_inv | by apply RevokeAPIKey_inv | by apply uc_ValidateAPIKey_inv | by apply run_usage_inv ].
Qed.

Lemma machine_run_grows c w : (w_tick w <= w_tick (machine_run c w))%nat.
Proof.
  assert (grows (D := MachineDB) GenerateAPIKey) as Hg by (intros w'; unfold GenerateAPIKey; destruct (rand_Read _); cbn; lia).
  assert (forall id ip t, grows (spawn_usage id ip t)) as Hs by (intros id ip t w'; cbn; lia).
  destruct c; cbn [machine_run]; revert w; lazymatch goal with
  | |- context [run_usage] => intros w; unfold run_usage; destruct (m_spawned (w_db w) !! i) as [[[id ip] t]|]; [| done];
      match goal with |- (_ <= w_tick (UpdateAPIKeyUsage _ _ _ ?w1).2)%nat => exact (grows_query _ w1) end
  | |- forall w, (_ <= w_tick (?m w).2)%nat => change (grows m)
  end.
  - unfold CreateServiceAccount, repo_CreateServiceAccount. grow.
  - unfold UpdateServiceAccount, GetServiceAccountByID, repo_UpdateServiceAccount. grow.
  - unfold DeleteServiceAccount, repo_DeleteServiceAccount. grow.
  - unfold CreateAPIKey, GetServiceAccountByID, repo_CreateAPIKey. grow.
  - unfold RevokeAPIKey, GetAPIKeyByID, repo_RevokeAPIKey. grow.
  - unfold uc_ValidateAPIKey, GetAPIKeyByHash. grow.
Qed.

Lemma machine_session_inv cs w : machine_inv (w_db w) -> machine_inv (w_db (machine_session cs w)).
Proof. unfold machine_session. revert w. induction cs as [|c cs IH]; intros w Hi; [done | by apply IH, machine_run_inv]. Qed.

(** *** Keys and accounts that do not come back *)

(** The key is not active any more, or its row is gone. *)
Definition retired (kid : ID) (d : MachineDB) : Prop :=
  machine_inv d /\ forall k, m_keys d !! kid = Some k -> k_Status k <> APIKeyStatusActive.
(** The account is gone. *)
Definition removed (aid : ID) (d : MachineDB) : Prop := machine_inv d /\ m_accounts d !! aid = None.

(** A property that only depends on statuses of keys that are there, and on
    which accounts are: it survives every statement but the two INSERTs. *)
Record durable (P : MachineDB -> Prop) : Prop := {
  du_inv : forall d, P d -> machine_inv d;
  du_step : forall d d', P d -> machine_inv d' ->
    (forall i k', m_keys d' !! i = Some k' -> exists k, m_keys d !! i = Some k /\ (k_Status k' = APIKeyStatusActive -> k_Status k = APIKeyStatusActive)) ->
    (forall i, m_accounts d !! i = None -> m_accounts d' !! i = None) -> P d';
}.

Lemma retired_durable kid : durable (retired kid).
Proof.
  split; [by intros d [Hi _] |]. intros d d' [_ Hr] Hi Hk _. split; [done |]. intros k' Hk'.
  destruct (Hk kid k' Hk') as (k & Hk0 & Hs). intros E. exact (Hr k Hk0 (Hs E)).
Qed.

Lemma removed_durable aid : durable (removed aid).
Proof. split; [by intros d [Hi _] |]. intros d d' [_ Hr] Hi _ Ha. split; [done | by apply Ha]. Qed.

Section Durable.
  Context (P : MachineDB -> Prop) (HP : durable P).

Lemma durable_same_keys d d' : P d -> machine_inv d' -> m_keys d' = m_keys d ->
  (forall i, m_accounts d !! i = None -> m_accounts d' !! i = None) -> P d'.
Proof. intros Hd Hi Ek Ha. apply (du_step _ HP d); [done | done | | done]. rewrite Ek. eauto. Qed.

Lemma durable_update_account sa : preserves P (query (update_account sa)).
Proof.
  apply preserves_writes_last; [apply writes_last_query |]. intros w r w' Hd E.
  pose proof (update_account_inv sa w (du_inv _ HP _ Hd)) as Hi'. rewrite E in Hi'. cbn in Hi'. step_inv. unfold update_account in E.
  destruct (select_one (account_by_id _ _) _) as [old|] eqn:Es; [| by simplify_eq].
  destruct (select_one (fun _ => _) _); [done |]. destruct (account_refs _ _); [done |]. simplify_eq.
  apply select_one_Some in Es as [_ [i Hold]]. pose proof (mi_accounts _ (du_inv _ HP _ Hd) _ _ Hold) as Ei.
  apply (durable_same_keys (w_db w)); [done | done | done |]. intros j Hj. cbn. rewrite lookup_insert_ne; [done |]. cbn. congruence.
Qed.

Lemma durable_delete_account t i : preserves P (query (fun d => Ok (delete_account t i d))).
Proof.
  apply preserves_writes_last; [apply writes_last_query |]. intros w r w' Hd E.
  pose proof (delete_account_inv t i w (du_inv _ HP _ Hd)) as Hi'. rewrite E in Hi'. cbn in Hi'. step_inv. unfold delete_account in E.
  destruct (select_rows _ _); simplify_eq; [done |]. apply (du_step _ HP (w_db w)); [done | done | |]; cbn.
  - intros j k [Hk _]%map_lookup_filter_Some. eauto.
  - intros j Hj. apply map_lookup_filter_None. by left.
Qed.

(** A key row replaced by one that is not more active. *)
Lemma durable_replace_key d i k k' : P d -> m_keys d !! i = Some k ->
  machine_inv (lens_set (<[k_ID k := k']> (m_keys d)) d) -> (k_Status k' = APIKeyStatusActive -> k_Status k = APIKeyStatusActive) ->
  P (lens_set (<[k_ID k := k']> (m_keys d)) d).
Proof.
  intros Hd Hk Hi Hs. apply (du_step _ HP d); [done | done | | done]. cbn.
  intros j r [[<- <-]|[_ Hr]]%lookup_insert_Some; [| eauto].
  rewrite (mi_keys _ (du_inv _ HP _ Hd) _ _ Hk). eauto.
Qed.

Lemma durable_revoke_key t i now : preserves P (query (fun d => Ok (revoke_key t i now d))).
Proof.
  apply preserves_writes_last; [apply writes_last_query |]. intros w r w' Hd E.
  pose proof (revoke_key_inv t i now w (du_inv _ HP _ Hd)) as Hi'. rewrite E in Hi'. cbn in Hi'. step_inv. unfold revoke_key in E.
  destruct (select_one _ _) as [k|] eqn:Es; simplify_eq; [| done]. apply select_one_Some in Es as [_ [j Hk]].
  by apply (durable_replace_key (w_db w) j k (revoked_key now k)).
Qed.

Lemma durable_usage id ip t : preserves P (UpdateAPIKeyUsage id ip t).
Proof.
  apply preserves_writes_last; [apply writes_last_query |]. intros w r w' Hd E.
  pose proof (UpdateAPIKeyUsage_inv id ip t w (du_inv _ HP _ Hd)) as Hi'. rewrite E in Hi'. cbn in Hi'.
  unfold UpdateAPIKeyUsage in E. step_inv.
  destruct (select_one _ _) as [k|] eqn:Es; [| by simplify_eq]. destruct (key_refused _); [done |]. simplify_eq.
  apply select_one_Some in Es as [_ [j Hk]]. by apply (durable_replace_key (w_db w) j k (used_key ip t k)).
Qed.

Lemma durable_spawned d l : P d -> P (mkMachineDB (m_iam d) (m_accounts d) (m_keys d) l).
Proof. intros Hd. apply (durable_same_keys d); [done | | done | done]. by destruct (du_inv _ HP _ Hd). Qed.

Lemma durable_spawn id ip t : preserves P (spawn_usage id ip t).
Proof. intros w Hd. by apply durable_spawned. Qed.

#[local] Hint Resolve durable_update_account durable_delete_account durable_revoke_key durable_usage durable_spawn : table_inv.
#[local] Hint Resolve reads_GetServiceAccountByID reads_GetAPIKeyByID reads_GetAPIKeyByHash reads_GenerateAPIKey : go_frame.

(** Every call but the creations keeps a durable property. *)
Lemma durable_run c w :
  (forall ctx input, c <> CallCreateAccount ctx input) -> (forall ctx a input, c <> CallCreateKey ctx a input) ->
  P (w_db w) -> P (w_db (machine_run c w)).
Proof.
  intros Ha Hk Hd. destruct c; cbn [machine_run]; try (exfalso; by eapply Ha); try (exfalso; by eapply Hk); revert w Hd.
  - change (preserves P (UpdateServiceAccount ctx id input)). unfold UpdateServiceAccount, repo_UpdateServiceAccount. keep.
  - change (preserves P (DeleteServiceAccount ctx id)). unfold DeleteServiceAccount, repo_DeleteServiceAccount. keep.
  - change (preserves P (RevokeAPIKey ctx accountID keyID)). unfold RevokeAPIKey, repo_RevokeAPIKey. keep.
  - change (preserves P (uc_ValidateAPIKey ctx rawKey clientIP)). unfold uc_ValidateAPIKey. keep.
  - intros w Hd. unfold run_usage. destruct (m_spawned (w_db w) !! i) as [[[id ip] t]|]; [| done].
    by apply durable_usage, durable_spawned.
Qed.
End Durable.

(** The creations keep it too, as long as the identifier is not issued again. *)
Lemma retired_run kid c w : (forall n, (w_tick w <= n)%nat -> env_id n <> inl kid) ->
  retired kid (w_db w) -> retired kid (w_db (machine_run c w)).
Proof.
  intros Hn Hd. destruct c as [ctx input| | |ctx saID input| | |]; try by (apply durable_run; auto using retired_durable).
  - pose proof (machine_run_inv (CallCreateAccount ctx input) w (proj1 Hd)) as Hi. split; [done |].
    assert (keeps m_keys (CreateServiceAccount ctx input)) as Hk.
    { unfold CreateServiceAccount, repo_CreateServiceAccount. do 5 (apply keeps_bind; [auto with go_frame | intros ?]); auto with go_frame.
      apply keeps_bind; [| auto with go_frame]. apply keeps_bind; [| intros []; auto with go_frame].
      apply keeps_attempt. intros w'. unfold insert_into, query. destruct (env_fault _); [done |].
      by destruct (insert_row _ _ _ _ _ _) as [[]| |]. }
    cbn [machine_run]. rewrite Hk. apply Hd.
  - pose proof (machine_run_inv (CallCreateKey ctx saID input) w (proj1 Hd)) as Hi. split; [done |]. cbn [machine_run] in *.
    assert (writes_last (CreateAPIKey ctx saID input)) as Hw.
    { pose proof reads_GetServiceAccountByID. pose proof reads_GenerateAPIKey. unfold CreateAPIKey, repo_CreateAPIKey. frame. }
    specialize (Hw w). destruct (CreateAPIKey ctx saID input w) as [[ks|e|e] w'] eqn:E; cbn [fst snd] in *;
      [| rewrite Hw by done; apply Hd..].
    apply CreateAPIKey_Ok in E as (n & row & a & rnd & Hle & Hid & _ & _ & _ & _ & _ & _ & _ & _ & _ & _ & _ & _ & _ & _ & ->); [| apply Hd].
    intros k. cbn. rewrite lookup_insert_ne; [apply Hd |]. intros E. apply (Hn n); [lia | congruence].
Qed.

Lemma retired_session kid cs w : (forall n, (w_tick w <= n)%nat -> env_id n <> inl kid) ->
  retired kid (w_db w) -> retired kid (w_db (machine_session cs w)).
Proof.
  unfold machine_session. revert w. induction cs as [|c cs IH]; intros w Hn Hd; [done |]. cbn [fold_left]. apply IH.
  - intros n Hle. apply Hn. pose proof (machine_run_grows c w). lia.
  - by apply retired_run.
Qed.

Lemma RevokeAPIKey_retires ctx saID kid w w' : machine_inv (w_db w) ->
  RevokeAPIKey ctx saID kid w = (Ok tt, w') -> retired kid (w_db w').
Proof.
  intros Hi E. split; [pose proof (RevokeAPIKey_inv ctx saID kid w Hi) as X; by rewrite E in X |].
  unfold RevokeAPIKey in E. step_inv.
  match goal with X : GetAPIKeyByID _ _ _ = _ |- _ => apply reads_Ok in X as Hw; [| apply reads_GetAPIKeyByID] end.
  unfold repo_RevokeAPIKey in E. step_inv.
  match goal with X : wrap_err _ _ _ = _ |- _ => apply wrap_err_Ok in X end. step_inv.
  apply negb_false_iff in E. subst. cbn [w_db tick] in *. simplify_eq. unfold revoke_key in *.
  destruct (select_one _ _) as [k|] eqn:Es; simplify_eq. apply select_one_Some in Es as [Hp [i Hk]].
  rewrite andb_true_iff in Hp. destruct Hp as [Hp _]. unfold key_by_id in Hp. rewrite andb_true_iff, !sql_eq_true in Hp.
  destruct Hp as [_ [_ Hid]]. intros k' Hk'. cbn in Hk'. rewrite <- Hid, lookup_insert_eq in Hk'. by injection Hk' as <-.
Qed.
End Session.

(** C12: A revoked key stays dead.  After a successful revocation, through any
    further session (creations, updates and deletions by any tenants, further
    validations, usage records of the key that were started before the
    revocation and run at any time after it), no validation of any text ever
    returns claims of that key, provided its identifier is not issued again. *)
Theorem revoked_key_stays_dead `{Env, Pg, MachineServer, Rand} ctx saID kid w w1 cs :
  machine_inv (w_db w) -> RevokeAPIKey ctx saID kid w = (Ok tt, w1) ->
  (forall n, (w_tick w1 <= n)%nat -> env_id n <> inl kid) ->
  let w2 := machine_session cs w1 in
  forall ctx' raw ip c w3, uc_ValidateAPIKey ctx' raw ip w2 = (Ok c, w3) -> ac_APIKeyID c <> Some kid.
Proof.
  intros Hi E Hn w2 ctx' raw ip c w3 Ev. apply RevokeAPIKey_retires in E; [| done].
  apply (retired_session kid cs) in E as [Hi2 Hr]; [| done]. fold w2 in Hi2, Hr.
  apply uc_ValidateAPIKey_Ok in Ev as (k & sa & Hacc & -> & _); [| done]. cbn. intros [= Ek].
  destruct (ak_key _ _ _ _ _ _ Hacc) as [i Hk]. pose proof (mi_keys _ Hi2 _ _ Hk) as Ei.
  apply (Hr k); [congruence | apply (ak_status _ _ _ _ _ _ Hacc)].
Qed.

(** A new key works.  If a key is created and no round trip fails, its
    secret, with any white space around it, validates at once from every client
    the stored allow list admits and until it expires, for the tenant that
    created it. *)
Theorem created_key_validates `{Env, Pg, MachineServer, Rand} ctx saID input w ks w' pre post ctx' ip :
  machine_inv (w_db w) -> (forall n, env_fault n = None) ->
  (forall n l, rand_Read n = inl l -> Forall (fun b => 0 <= b < 256) l) ->
  CreateAPIKey ctx saID input w = (Ok ks, w') ->
  TrimSpace (pre +:+ ks_SecretKey ks +:+ post) = ks_SecretKey ks ->
  ValidateIP ip (stored_strings (cak_IPAllowlist input)) = true ->
  expired (UTC (env_now (S (w_tick w')))) (pg_timestamptz <$> cak_ExpiresAt input) = false ->
  exists c w2, uc_ValidateAPIKey ctx' (pre +:+ ks_SecretKey ks +:+ post) ip w' = (Ok c, w2)
    /\ RequireTenantID ctx = Ok (ac_TenantID c) /\ ac_ServiceAccountID c = Some saID.
Proof.
  intros Hi Hf Hr E Htrim Hip Hex.
  assert (machine_inv (w_db w')) as Hi' by (pose proof (CreateAPIKey_inv ctx saID input w Hi) as X; by rewrite E in X).
  apply CreateAPIKey_Ok in E as (n & row & a & rnd & _ & _ & Hrnd & Hs & _ & Hh & Hst & Hsa & Hten & Ha & Ht & Hact & Hl & Hx & _ & _ & Hd); [| apply Hi].
  assert (TrimSpace (ks_SecretKey ks) = ks_SecretKey ks) as Hsec.
  { apply TrimSpace_graphic. rewrite Hs, all_chars_append. cbn [andb all_chars APIKeyPrefix].
    apply (all_chars_impl is_hex); [apply is_hex_graphic |]. eapply EncodeToString_hex, Hr, Hrnd. }
  assert (accepts (w_db w') (pre +:+ ks_SecretKey ks +:+ post) ip (UTC (env_now (S (w_tick w')))) row a) as Hacc.
  { split.
    - rewrite Htrim, Hs. apply HasPrefix_spec. by eexists.
    - exists (k_ID row). rewrite Hd. cbn. by rewrite lookup_insert_eq.
    - rewrite Hh. unfold HashAPIKey. by rewrite Htrim, Hsec.
    - rewrite Hd, Hsa. done.
    - done.
    - by rewrite Hx.
    - by apply String.eqb_eq.
    - by rewrite Hl. }
  destruct (uc_ValidateAPIKey_total ctx' _ ip w' row a Hi' Hf Hacc) as [w2 Ev]. eexists _, w2. split; [exact Ev |]. cbn.
  rewrite Ht, (mi_accounts _ Hi _ _ Ha). done.
Qed.

(** ** Deleted accounts *)

Section Deleted.
  Context `{Env, Pg, MachineServer, Rand}.

Lemma removed_run aid c w : (forall n, (w_tick w <= n)%nat -> env_id n <> inl aid) ->
  removed aid (w_db w) -> removed aid (w_db (machine_run c w)).
Proof.
  intros Hn Hd. destruct c as [ctx input| | |ctx saID input| | |]; try by (apply durable_run; auto using removed_durable).
  - pose proof (machine_run_inv (CallCreateAccount ctx input) w (proj1 Hd)) as Hi. split; [done |]. cbn [machine_run] in *.
    assert (writes_last (CreateServiceAccount ctx input)) as Hw by (unfold CreateServiceAccount, repo_CreateServiceAccount; frame).
    specialize (Hw w). destruct (CreateServiceAccount ctx input w) as [[sa|e|e] w'] eqn:E; cbn [fst snd] in *;
      [| rewrite Hw by done; apply Hd..].
    unfold CreateServiceAccount, repo_CreateServiceAccount in E. step_inv.
    match goal with X : wrap_err _ (insert_into _ _ _ _ _) _ = _ |- _ =>
      apply wrap_err_Ok, insert_into_Ok in X as (-> & -> & _) end.
    cbn. rewrite lookup_insert_ne; [apply Hd |]. intros E. eapply (Hn (w_tick w)); [lia |]. congruence.
  - pose proof (machine_run_inv (CallCreateKey ctx saID input) w (proj1 Hd)) as Hi. split; [done |]. cbn [machine_run] in *.
    assert (writes_last (CreateAPIKey ctx saID input)) as Hw.
    { pose proof reads_GetServiceAccountByID. pose proof reads_GenerateAPIKey. unfold CreateAPIKey, repo_CreateAPIKey. frame. }
    specialize (Hw w). destruct (CreateAPIKey ctx saID input w) as [[ks|e|e] w'] eqn:E; cbn [fst snd] in *;
      [| rewrite Hw by done; apply Hd..].
    apply CreateAPIKey_Ok in E as (n & row & a & rnd & _ & _ & _ & _ & _ & _ & _ & _ & _ & _ & _ & _ & _ & _ & _ & _ & ->); [| apply Hd].
    apply Hd.
Qed.

Lemma removed_session aid cs w : (forall n, (w_tick w <= n)%nat -> env_id n <> inl aid) ->
  removed aid (w_db w) -> removed aid (w_db (machine_session cs w)).
Proof.
  unfold machine_session. revert w. induction cs as [|c cs IH]; intros w Hn Hd; [done |]. cbn [fold_left]. apply IH.
  - intros n Hle. apply Hn. pose proof (machine_run_grows c w). lia.
  - by apply removed_run.
Qed.

Lemma DeleteServiceAccount_removes ctx aid w w' : machine_inv (w_db w) ->
  DeleteServiceAccount ctx aid w = (Ok tt, w') -> removed aid (w_db w').
Proof.
  intros Hi E. split; [pose proof (DeleteServiceAccount_inv ctx aid w Hi) as X; by rewrite E in X |].
  unfold DeleteServiceAccount, repo_DeleteServiceAccount in E. step_inv.
  match goal with X : wrap_err _ _ _ = _ |- _ => apply wrap_err_Ok in X end. step_inv.
  apply negb_false_iff in E. subst. unfold delete_account in *. destruct (select_rows _ _) as [|g gone] eqn:Eg; simplify_eq.
  assert (g ∈ select_rows (account_by_id a aid) (m_accounts (w_db w))) as Hg by (rewrite Eg; by left).
  apply elem_of_select_rows in Hg as [Hp [i Hg]]. pose proof (mi_accounts _ Hi _ _ Hg) as Ei.
  unfold account_by_id in Hp. pose proof Hp as Hp'. rewrite andb_true_iff, !sql_eq_true in Hp'. destruct Hp' as [_ [_ Hid]].
  cbn. apply map_lookup_filter_None. right. intros x Hx. cbn. rewrite <- Hid, Ei, Hg in Hx. injection Hx as <-.
  unfold account_by_id. by rewrite Hp.
Qed.
End Deleted.

(** Deleting a service account invalidates its keys for good: after it, no
    validation through any further session returns claims of that account,
    provided its identifier is not issued again. *)
Theorem deleted_account_stays_dead `{Env, Pg, MachineServer, Rand} ctx aid w w1 cs :
  machine_inv (w_db w) -> DeleteServiceAccount ctx aid w = (Ok tt, w1) ->
  (forall n, (w_tick w1 <= n)%nat -> env_id n <> inl aid) ->
  let w2 := machine_session cs w1 in
  forall ctx' raw ip c w3, uc_ValidateAPIKey ctx' raw ip w2 = (Ok c, w3) -> ac_ServiceAccountID c <> Some aid.
Proof.
  intros Hi E Hn w2 ctx' raw ip c w3 Ev. apply DeleteServiceAccount_removes in E; [| done].
  apply (removed_session aid cs) in E as [Hi2 Hr]; [| done]. fold w2 in Hi2, Hr.
  apply uc_ValidateAPIKey_Ok in Ev as (k & sa & Hacc & -> & _); [| done]. cbn. intros [= Ek].
  pose proof (ak_account _ _ _ _ _ _ Hacc) as Ha. pose proof (mi_accounts _ Hi2 _ _ Ha). congruence.
Qed.

(** ** Examples *)

Definition open_machine_server : MachineServer :=
  {| account_refused _ := None; key_refused _ := None; json_strings l := l |}.
Definition counting_rand : Rand := {| rand_Read n := inl (repeat (Z.of_nat n mod 256) 32) |}.

Definition demo_machine : MachineDB := mkMachineDB demo_iam ∅ ∅ [].

Lemma demo_machine_inv : machine_inv demo_machine.
Proof. split; intros k; intros; cbn in *; set_solver. Qed.

(** The clerk account and its key, limited to one network. *)
Definition demo_machine_calls : list machine_call :=
  let ctx := WithTenantID Background 7%N in
  [CallCreateAccount ctx (mkCreateServiceAccountInput "robot" "" (Some 3%N));
   CallCreateKey ctx 1%N (mkCreateAPIKeyInput "" [] ["10.0.0.0/8"] None)].

Definition demo_secret : string := APIKeyPrefix +:+ EncodeToString (repeat 4 32).

Lemma ValidateAPIKey_exact_witness :
  let I1 := calm zeroTime 1 in let I2 := pgx 0 in let I3 := open_machine_server in let I4 := counting_rand in
  let w := machine_session demo_machine_calls (mkWorld demo_machine 0) in
  machine_inv (w_db w)
  /\ (is_Ok (uc_ValidateAPIKey Background demo_secret "10.1.2.3:55" w).1 = true
      <-> exists k sa, accepts (w_db w) demo_secret "10.1.2.3:55" (UTC (env_now (S (w_tick w)))) k sa)
  /\ (match (uc_ValidateAPIKey Background demo_secret "10.1.2.3:55" w).1 with
      | Ok c => ac_TenantID c = 7%N /\ ac_Permissions c = ["document:read"] | _ => False end)
  /\ (uc_ValidateAPIKey Background demo_secret "11.1.2.3:55" w).1 = Err (ESentinel ErrIPNotAllowed).
Proof.
  intros I1 I2 I3 I4 w. assert (machine_inv (w_db w)) as Hi by exact (machine_session_inv _ (mkWorld demo_machine 0) demo_machine_inv).
  split; [exact Hi |]. split; [| split; vm_compute; done].
  exact (proj2 (ValidateAPIKey_exact Background demo_secret "10.1.2.3:55" w Hi) (fun _ => eq_refl)).
Defined.

(** The usage record of the last validation runs after the revocation. *)
Lemma revoked_key_stays_dead_witness :
  let I1 := calm zeroTime 1 in let I2 := pgx 0 in let I3 := open_machine_server in let I4 := counting_rand in
  let ctx := WithTenantID Background 7%N in
  let w := machine_session (demo_machine_calls ++ [CallValidate Background demo_secret "10.1.2.3"]) (mkWorld demo_machine 0) in
  let kid := 6%N in
  let w1 := (RevokeAPIKey ctx 1%N kid w).2 in
  let w2 := machine_session [UsageRuns 0] w1 in
  RevokeAPIKey ctx 1%N kid w = (Ok tt, w1)
  /\ (forall ctx' raw ip c w3, uc_ValidateAPIKey ctx' raw ip w2 = (Ok c, w3) -> ac_APIKeyID c <> Some kid)
  /\ (uc_ValidateAPIKey Background demo_secret "10.1.2.3" w2).1 = Err (ESentinel ErrAPIKeyRevoked).
Proof.
  intros I1 I2 I3 I4 ctx w kid w1 w2.
  assert ((RevokeAPIKey ctx 1%N kid w).1 = Ok tt) as E by by vm_compute.
  assert (RevokeAPIKey ctx 1%N kid w = (Ok tt, w1)) as E1 by (rewrite <- E; apply surjective_pairing).
  split; [exact E1 |]. split; [| by vm_compute].
  apply (revoked_key_stays_dead ctx 1%N kid w w1 [UsageRuns 0]); [exact (machine_session_inv _ (mkWorld demo_machine 0) demo_machine_inv) | exact E1 |].
  assert (6 <= w_tick w1)%nat as Ht by (vm_compute; lia). intros n Hn. cbn. intros [= Ek].
  assert (n = 5%nat) by lia. lia.
Defined.

Lemma deleted_account_stays_dead_witness :
  let I1 := calm zeroTime 1 in let I2 := pgx 0 in let I3 := open_machine_server in let I4 := counting_rand in
  let ctx := WithTenantID Background 7%N in
  let w := machine_session demo_machine_calls (mkWorld demo_machine 0) in
  let w1 := (DeleteServiceAccount ctx 1%N w).2 in
  DeleteServiceAccount ctx 1%N w = (Ok tt, w1)
  /\ (forall ctx' raw ip c w3, uc_ValidateAPIKey ctx' raw ip w1 = (Ok c, w3) -> ac_ServiceAccountID c <> Some 1%N)
  /\ (uc_ValidateAPIKey Background demo_secret "10.1.2.3" w1).1 = Err (Errorf ErrInvalidAPIKey "key not found").
Proof.
  intros I1 I2 I3 I4 ctx w w1.
  assert ((DeleteServiceAccount ctx 1%N w).1 = Ok tt) as E by by vm_compute.
  assert (DeleteServiceAccount ctx 1%N w = (Ok tt, w1)) as E1 by (rewrite <- E; apply surjective_pairing).
  split; [exact E1 |]. split; [| by vm_compute].
  apply (deleted_account_stays_dead ctx 1%N w w1 []); [exact (machine_session_inv _ (mkWorld demo_machine 0) demo_machine_inv) | exact E1 |].
  assert (1 <= w_tick w1)%nat as Ht by (vm_compute; lia). intros n Hn. cbn. intros [= Ek]. lia.
Defined.

Lemma created_key_validates_witness :
  let I1 := calm zeroTime 1 in let I2 := pgx 0 in let I3 := open_machine_server in let I4 := counting_rand in
  let ctx := WithTenantID Background 7%N in
  let w := machine_session [CallCreateAccount ctx (mkCreateServiceAccountInput "robot" "" None)] (mkWorld demo_machine 0) in
  let input := mkCreateAPIKeyInput "" ["document:read"] [] None in
  let ks := match (CreateAPIKey ctx 1%N input w).1 with Ok ks => ks | _ => mkAPIKeyWithSecret (mkAPIKey 0%N 0%N 0%N "" "" "" [] [] "" None None None zeroTime None) "" end in
  let w' := (CreateAPIKey ctx 1%N input w).2 in
  CreateAPIKey ctx 1%N input w = (Ok ks, w')
  /\ exists c w2, uc_ValidateAPIKey Background (" " +:+ ks_SecretKey ks +:+ " ") "10.0.0.1" w' = (Ok c, w2)
       /\ RequireTenantID ctx = Ok (ac_TenantID c) /\ ac_ServiceAccountID c = Some 1%N.
Proof.
  intros I1 I2 I3 I4 ctx w input ks w'.
  assert ((CreateAPIKey ctx 1%N input w).1 = Ok ks) as E by by vm_compute.
  assert (CreateAPIKey ctx 1%N input w = (Ok ks, w')) as E1 by (rewrite <- E; apply surjective_pairing).
  split; [exact E1 |].
  assert (forall n l, rand_Read n = inl l -> Forall (fun b => 0 <= b < 256) l) as Hr.
  { intros n l El. injection El as <-. repeat (constructor; [by apply Z.mod_pos_bound |]). constructor. }
  assert (TrimSpace (" " +:+ ks_SecretKey ks +:+ " ") = ks_SecretKey ks) as Ht by by vm_compute.
  exact (created_key_validates ctx 1%N input w ks w' " " " " Background "10.0.0.1"
           (machine_session_inv _ (mkWorld demo_machine 0) demo_machine_inv) (fun _ => eq_refl) Hr E1 Ht eq_refl eq_refl).
Defined.
