(* ===== verification/Webhooks.v ===== *)
(** * Webhooks

    [internal/core/domain/webhook/webhook.go], the repository
    [internal/core/repository/postgres/webhook_repository.go], the use case
    [internal/core/usecase/webhook/webhook_usecase.go] and the dispatcher
    [internal/core/worker/webhook_dispatcher.go], which is a subscriber of the
    event bus and delivers each event in goroutines of its own.  The goroutines
    are state of the model: they run in steps, in any order, between the calls of
    the use case. *)

From S2P Require Import Prelude GoStrings Url Crypto GoTime GoFloat Sdk Tables EventBus.
#[local] Open Scope string_scope.
#[local] Open Scope list_scope.
#[local] Open Scope Z_scope.

(** ** Domain *)

Definition DeliveryStatusPending : string := "pending".
Definition DeliveryStatusSuccess : string := "success".
Definition DeliveryStatusFailed : string := "failed".

Record Endpoint := mkEndpoint {
  ep_ID : ID;
  ep_TenantID : ID;
  ep_Name : string;
  ep_URL : string;
  ep_Secret : string;
  ep_IsActive : bool;
  ep_CreatedAt : Time;
  ep_UpdatedAt : Time;
}.

Record Delivery := mkDelivery {
  d_ID : ID;
  d_EndpointID : ID;
  d_OutboxEventID : ID;
  d_EventType : string;
  d_Attempt : Z;
  d_Status : string;
  d_ResponseCode : option Z;
  d_ResponseBody : option string;
  d_ErrorMessage : option string;
  d_DeliveredAt : option Time;
  d_CreatedAt : Time;
}.

(** ** The world of the dispatcher *)

Record Request := mkRequest { rq_URL : string; rq_Header : gmap string string; rq_Body : string }.

(** A status code with the readable part of the body, or a transport error. *)
Abbreviation Answer := (Z * string + error)%type.

(** What an observer of a delivery sees. *)
Inductive Action :=
  | Waited (d : Z)
  | Cancelled
  | Sent (rq : Request) (answer : Answer).

(** A running [deliverWithRetry]: its arguments, the attempt it is at, and the
    delivery it is about to log, when the request of the attempt is done. *)
Record Job := mkJob {
  j_ep : Endpoint;
  j_event : ID;
  j_body : string;
  j_attempt : Z;
  j_logging : option Delivery;
  j_done : bool;
}.

(** The two tables, the goroutines, and what each did to the network so far. *)
Record WebhookDB := mkWebhookDB {
  wh_endpoints : gmap ID Endpoint;
  wh_deliveries : gmap ID Delivery;
  wh_jobs : list Job;
  wh_wire : list (nat * Action);
}.

#[export] Instance Lens_wh_endpoints : Lens WebhookDB (gmap ID Endpoint).
Proof.
  refine {| lens_get := wh_endpoints;
            lens_set e d := mkWebhookDB e (wh_deliveries d) (wh_jobs d) (wh_wire d) |}; by intros; destruct_and?; try destruct d.
Defined.
#[export] Instance Lens_wh_deliveries : Lens WebhookDB (gmap ID Delivery).
Proof.
  refine {| lens_get := wh_deliveries;
            lens_set e d := mkWebhookDB (wh_endpoints d) e (wh_jobs d) (wh_wire d) |}; by intros; try destruct d.
Defined.

Definition set_jobs (jobs : list Job) (d : WebhookDB) : WebhookDB :=
  mkWebhookDB (wh_endpoints d) (wh_deliveries d) jobs (wh_wire d).
Definition record_action (self : nat) (a : Action) (d : WebhookDB) : WebhookDB :=
  mkWebhookDB (wh_endpoints d) (wh_deliveries d) (wh_jobs d) (wh_wire d ++ [(self, a)]).

(** Rows the server refuses for other reasons: an unknown tenant, bytes that are
    not text. *)
Class WebhookServer := {
  endpoint_refused : Endpoint -> option error;
  delivery_refused : Delivery -> option error;
}.

(** The network and the context of the worker: the answer to a request, whether
    the context was done first at a wait, the error of an unparsable URL. *)
Class Network := {
  http_Do : nat -> Request -> Answer;
  ctx_done : nat -> bool;
  url_error : string -> error;
}.

(** [json.Marshal] of the payload. *)
Record WebhookPayload := mkWebhookPayload {
  wp_ID : string;
  wp_TenantID : string;
  wp_EventType : string;
  wp_AggregateType : string;
  wp_AggregateID : string;
  wp_Payload : AnyMap;
  wp_OccurredAt : Time;
}.
Class PayloadJSON := { json_payload : WebhookPayload -> string + error }.

Section Repo.
  Context `{Env, Pg, WebhookServer}.

Definition same_endpoint (a b : Endpoint) : bool := false.
Definition same_delivery (a b : Delivery) : bool := false.

Definition endpoint_row (ep : Endpoint) : Endpoint :=
  mkEndpoint (ep_ID ep) (ep_TenantID ep) (ep_Name ep) (ep_URL ep) (ep_Secret ep) (ep_IsActive ep)
    (pg_timestamptz (ep_CreatedAt ep)) (pg_timestamptz (ep_UpdatedAt ep)).

Definition CreateEndpoint (ep : Endpoint) : M WebhookDB unit :=
  insert_into ep_ID (fun r => [ep_TenantID r]) same_endpoint (fun _ => endpoint_refused) (endpoint_row ep) ;;; ret tt.

Definition endpoint_by_id (tenantID id : ID) (r : Endpoint) : bool :=
  sql_eq (ep_ID r) (ToPgUUID id) && sql_eq (ep_TenantID r) (ToPgUUID tenantID).

Definition GetEndpointByID (tenantID id : ID) : M WebhookDB Endpoint :=
  r <- select_opt (endpoint_by_id tenantID id) ;;
  match r with Some ep => ret ep | None => fail (ESentinel ErrEndpointNotFound) end.

Definition repo_ListEndpoints (tenantID : ID) : M WebhookDB (list Endpoint) :=
  l <- select_all (fun r => sql_eq (ep_TenantID r) (ToPgUUID tenantID)) ;;
  ret (merge_sort (newest ep_CreatedAt) l).

Definition activated (active : bool) (now : Time) (r : Endpoint) : Endpoint :=
  mkEndpoint (ep_ID r) (ep_TenantID r) (ep_Name r) (ep_URL r) (ep_Secret r) active (ep_CreatedAt r) (pg_timestamptz now).

Definition set_active (tenantID id : ID) (active : bool) (now : Time) (d : WebhookDB) : bool * WebhookDB :=
  match select_one (endpoint_by_id tenantID id) (wh_endpoints d) with
  | None => (false, d)
  | Some r => (true, lens_set (<[ep_ID r := activated active now r]> (wh_endpoints d)) d)
  end.

Definition SetEndpointActive (tenantID id : ID) (active : bool) : M WebhookDB unit :=
  now <- NowUTC ;;
  found <- query (fun d => Ok (set_active tenantID id active now d)) ;;
  guard (negb found) (ESentinel ErrEndpointNotFound).

(** ON DELETE CASCADE removes the deliveries of the endpoint. *)
Definition delete_endpoint (tenantID id : ID) (d : WebhookDB) : bool * WebhookDB :=
  match select_one (endpoint_by_id tenantID id) (wh_endpoints d) with
  | None => (false, d)
  | Some r => (true, mkWebhookDB (delete (ep_ID r) (wh_endpoints d))
                       (filter (fun kv => d_EndpointID kv.2 <> ep_ID r) (wh_deliveries d)) (wh_jobs d) (wh_wire d))
  end.

Definition repo_DeleteEndpoint (tenantID id : ID) : M WebhookDB unit :=
  found <- query (fun d => Ok (delete_endpoint tenantID id d)) ;;
  guard (negb found) (ESentinel ErrEndpointNotFound).

Definition active_endpoint (tenantID : ID) (r : Endpoint) : bool :=
  sql_eq (ep_TenantID r) (ToPgUUID tenantID) && ep_IsActive r.

Definition ListActiveEndpointsByTenant (tenantID : ID) : M WebhookDB (list Endpoint) :=
  l <- select_all (active_endpoint tenantID) ;; ret (merge_sort (oldest ep_CreatedAt) l).

Definition delivery_row (d : Delivery) : Delivery :=
  mkDelivery (d_ID d) (d_EndpointID d) (d_OutboxEventID d) (d_EventType d) (d_Attempt d) (d_Status d) (d_ResponseCode d)
    (d_ResponseBody d) (d_ErrorMessage d) (pg_timestamptz <$> d_DeliveredAt d) (pg_timestamptz (d_CreatedAt d)).

Definition delivery_constraints (db : WebhookDB) (d : Delivery) : option error :=
  if bool_decide (is_Some (wh_endpoints db !! d_EndpointID d)) then delivery_refused d else Some fk_violation.

Definition CreateDelivery (d : Delivery) : M WebhookDB unit :=
  insert_into d_ID (fun r => [d_EndpointID r; d_OutboxEventID r]) same_delivery delivery_constraints (delivery_row d) ;;;
  ret tt.

Definition deliveries_of (tenantID endpointID : ID) (db : WebhookDB) : list Delivery :=
  merge_sort (newest d_CreatedAt) (select_rows (fun d =>
    sql_eq (d_EndpointID d) (ToPgUUID endpointID)
    && match wh_endpoints db !! d_EndpointID d with
       | Some e => sql_eq (ep_TenantID e) (ToPgUUID tenantID)
       | None => false
       end) (wh_deliveries db)).

Definition ListDeliveriesByEndpoint (tenantID endpointID : ID) (limit : Z) : M WebhookDB (list Delivery) :=
  let limit := if (limit <=? 0) || (200 <? limit) then 50 else limit in
  query (fun db => Ok (sql_page limit 0 (deliveries_of tenantID endpointID db), db)).
End Repo.

(** ** Use case *)

Record RegisterEndpointInput := mkRegisterEndpointInput {
  re_TenantID : ID;
  re_Name : string;
  re_URL : string;
  re_Secret : string;
}.

Definition validateEndpointInput `{NetURL} (name rawURL secret : string) : res unit :=
  if String.eqb (TrimSpace name) "" then Err (Errorf ErrInvalidInput "name is required")
  else
    let rawURL := TrimSpace rawURL in
    if String.eqb rawURL "" then Err (ESentinel ErrInvalidURL)
    else match Parse rawURL with
         | None => Err (ESentinel ErrInvalidURL)
         | Some u =>
             if (negb (String.eqb (url_Scheme u) "http") && negb (String.eqb (url_Scheme u) "https"))
                || String.eqb (url_Host u) ""
             then Err (ESentinel ErrInvalidURL)
             else if (String.length secret <? 16)%nat then Err (ESentinel ErrSecretTooShort)
             else Ok tt
         end.

Definition masked (ep : Endpoint) : Endpoint :=
  mkEndpoint (ep_ID ep) (ep_TenantID ep) (ep_Name ep) (ep_URL ep) "" (ep_IsActive ep) (ep_CreatedAt ep) (ep_UpdatedAt ep).

Section Usecase.
  Context `{Env, Pg, WebhookServer, NetURL}.

Definition RegisterEndpoint (cmd : RegisterEndpointInput) : M WebhookDB Endpoint :=
  lift_res (validateEndpointInput (re_Name cmd) (re_URL cmd) (re_Secret cmd)) ;;;
  id <- wrap_err "generate id" NewID ;;
  now <- NowUTC ;;
  let ep := mkEndpoint id (re_TenantID cmd) (TrimSpace (re_Name cmd)) (TrimSpace (re_URL cmd)) (re_Secret cmd) true now now in
  wrap_err "create webhook endpoint" (CreateEndpoint ep) ;;;
  ret (masked ep).

Definition ListEndpoints (tenantID : ID) : M WebhookDB (list Endpoint) :=
  eps <- wrap_err "list webhook endpoints" (repo_ListEndpoints tenantID) ;; ret (map masked eps).

Definition DisableEndpoint (tenantID id : ID) : M WebhookDB unit := SetEndpointActive tenantID id false.
Definition EnableEndpoint (tenantID id : ID) : M WebhookDB unit := SetEndpointActive tenantID id true.
Definition DeleteEndpoint (tenantID id : ID) : M WebhookDB unit := repo_DeleteEndpoint tenantID id.
Definition ListDeliveries (tenantID endpointID : ID) (limit : Z) : M WebhookDB (list Delivery) :=
  ListDeliveriesByEndpoint tenantID endpointID limit.
End Usecase.

(** ** Dispatcher *)

Definition webhookMaxAttempts : Z := 3.
Definition webhookRetryDelays : list Z := [0; 1 * Second; 5 * Second].

(** [webhookRetryDelays[i]] panics out of range. *)
Definition retry_delay (i : Z) : res Z :=
  match webhookRetryDelays !! Z.to_nat i with
  | Some d => if i <? 0 then Panic (ENew "index out of range") else Ok d
  | None => Panic (ENew "index out of range")
  end.

Definition computeHMAC (secret body : string) : string := hmac_hex secret body.

Definition signed_request `{UUIDLib} (targetURL secret : string) (outboxEventID deliveryID : ID) (body : string) : Request :=
  let h := <["Content-Type" := "application/json"]> (∅ : gmap string string) in
  let h := <["X-Mergiate-Signature" := "sha256=" +:+ computeHMAC secret body]> h in
  let h := <["X-Mergiate-Delivery" := uuid_String deliveryID]> h in
  let h := <["X-Mergiate-Event" := uuid_String outboxEventID]> h in
  mkRequest targetURL h body.

(** No transport error and a status of the 200s. *)
Definition accepted (r : Answer) : bool :=
  match r with inl (statusCode, _) => (200 <=? statusCode) && (statusCode <? 300) | inr _ => false end.

Section Dispatcher.
  Context `{Env, Pg, WebhookServer, NetURL, Network, UUIDLib, PayloadJSON}.

(** [select] on the context and the timer. *)
Definition wait (self : nat) (delay : Z) : M WebhookDB bool := fun w =>
  let cancelled := ctx_done (w_tick w) in
  (Ok cancelled, mkWorld (record_action self (if cancelled then Cancelled else Waited delay) (w_db w)) (S (w_tick w))).

Definition Do (self : nat) (rq : Request) : M WebhookDB Answer := fun w =>
  let answer := http_Do (w_tick w) rq in
  (Ok answer, mkWorld (record_action self (Sent rq answer) (w_db w)) (S (w_tick w))).

(** [http.NewRequest] fails on a URL that does not parse. *)
Definition post (self : nat) (targetURL secret : string) (outboxEventID deliveryID : ID) (body : string) : M WebhookDB Answer :=
  match Parse targetURL with
  | None => ret (inr (EWrap "build request: " (url_error targetURL) ""))
  | Some _ =>
      resp <- Do self (signed_request targetURL secret outboxEventID deliveryID body) ;;
      ret (match resp with
           | inr err => inr (EWrap "http post: " err "")
           | inl (code, rawBody) => inl (code, take 4096 rawBody)
           end)
  end.

(** The record of an attempt.  A refused request without a transport error is
    described by formatting the nil error. *)
Definition delivery_of (ep : Endpoint) (outboxEventID deliveryID : ID) (attempt : Z) (now : Time) (r : Answer) : Delivery :=
  let '(statusCode, respBody) := match r with inl p => p | inr _ => (0, "") end in
  let failed := match r with inr _ => true | inl _ => (statusCode <? 200) || (300 <=? statusCode) end in
  let msg := match r with inr err => Error err | inl _ => "HTTP " +:+ Itoa statusCode +:+ ": %!s(<nil>)" end in
  mkDelivery deliveryID (ep_ID ep) outboxEventID "" attempt
    (if failed then DeliveryStatusFailed else DeliveryStatusSuccess)
    (if statusCode =? 0 then None else Some statusCode)
    (if String.eqb respBody "" then None else Some respBody)
    (if failed then Some msg else None)
    (if failed then None else Some now) now.

(** The request of an attempt and its record. *)
Definition request_attempt (self : nat) (ep : Endpoint) (outboxEventID : ID) (body : string) (attempt : Z) : M WebhookDB Delivery :=
  deliveryID <- NewID_ignore ;;
  now <- NowUTC ;;
  r <- post self (ep_URL ep) (ep_Secret ep) outboxEventID deliveryID body ;;
  ret (delivery_of ep outboxEventID deliveryID attempt now r).

(** One attempt up to its log entry; [None] when the wait was cancelled. *)
Definition begin_attempt (self : nat) (ep : Endpoint) (outboxEventID : ID) (body : string) (attempt : Z) : M WebhookDB (option Delivery) :=
  cancelled <- (if 1 <? attempt
                then delay <- lift_res (retry_delay (attempt - 1)) ;; wait self delay
                else ret false) ;;
  if cancelled then ret None
  else d <- request_attempt self ep outboxEventID body attempt ;; ret (Some d).

Definition succeeded (d : Delivery) : bool := String.eqb (d_Status d) DeliveryStatusSuccess.

(** [for attempt := ...; attempt <= webhookMaxAttempts; attempt++]. *)
Fixpoint deliver_from (fuel : nat) (self : nat) (ep : Endpoint) (outboxEventID : ID) (body : string) (attempt : Z) : M WebhookDB unit :=
  match fuel with
  | O => ret tt
  | S fuel =>
      if webhookMaxAttempts <? attempt then ret tt
      else
        o <- begin_attempt self ep outboxEventID body attempt ;;
        match o with
        | None => ret tt
        | Some delivery =>
            ignore (CreateDelivery delivery) ;;;
            if succeeded delivery then ret tt
            else deliver_from fuel self ep outboxEventID body (attempt + 1)
        end
  end.

Definition deliverWithRetry (self : nat) (ep : Endpoint) (outboxEventID : ID) (body : string) : M WebhookDB unit :=
  deliver_from 4 self ep outboxEventID body 1.

Definition new_job (outboxEventID : ID) (body : string) (ep : Endpoint) : Job := mkJob ep outboxEventID body 1 None false.

(** [go d.deliverWithRetry(...)] for each endpoint. *)
Definition spawn (jobs : list Job) : M WebhookDB unit := fun w =>
  (Ok tt, mkWorld (set_jobs (wh_jobs (w_db w) ++ jobs) (w_db w)) (w_tick w)).

Definition event_payload (evt : BaseEvent) : WebhookPayload :=
  mkWebhookPayload (uuid_String (be_ID evt)) (uuid_String (be_Tenant evt)) (be_Type evt) (be_AggType evt)
    (uuid_String (be_AggID evt)) (be_Data evt) (be_Timestamp evt).

Definition dispatchEvent (evt : BaseEvent) : M WebhookDB unit :=
  let tenantID := be_Tenant evt in
  if decide (tenantID = NilID) then ret tt
  else
    r <- attempt (ListActiveEndpointsByTenant tenantID) ;;
    match r with
    | inr _ => ret tt
    | inl [] => ret tt
    | inl endpoints =>
        match json_payload (event_payload evt) with
        | inr _ => ret tt
        | inl body => spawn (map (new_job (be_ID evt) body) endpoints)
        end
    end.

Definition webhook_handler : Handler WebhookDB := fun _ evt => dispatchEvent evt ;;; ret tt.

Definition Start (bus : inMemoryBus WebhookDB) : inMemoryBus WebhookDB := Subscribe bus "*" webhook_handler.

(** One step of a goroutine: the request of its attempt, or the log entry and
    the decision to go on. *)
Definition job_step (self : nat) (j : Job) : M WebhookDB Job :=
  match j_logging j with
  | None =>
      o <- begin_attempt self (j_ep j) (j_event j) (j_body j) (j_attempt j) ;;
      ret (match o with
           | None => mkJob (j_ep j) (j_event j) (j_body j) (j_attempt j) None true
           | Some d => mkJob (j_ep j) (j_event j) (j_body j) (j_attempt j) (Some d) false
           end)
  | Some d =>
      ignore (CreateDelivery d) ;;;
      ret (mkJob (j_ep j) (j_event j) (j_body j) (j_attempt j + 1) None
             (succeeded d || (webhookMaxAttempts <? j_attempt j + 1)))
  end.

(** The scheduler runs a step of goroutine [i]; a panic would end the process. *)
Definition run_job (i : nat) (w : World WebhookDB) : res unit * World WebhookDB :=
  match wh_jobs (w_db w) !! i with
  | None => (Ok tt, w)
  | Some j =>
      if j_done j then (Ok tt, w)
      else match job_step i j w with
           | (Ok j', w') => (Ok tt, mkWorld (set_jobs (<[i := j']> (wh_jobs (w_db w'))) (w_db w')) (w_tick w'))
           | (Err e, w') => (Err e, w')
           | (Panic e, w') => (Panic e, w')
           end
  end.
End Dispatcher.

(** ** What a delivery does to the network *)

Definition web_endpoint `{NetURL} (ep : Endpoint) : Prop :=
  ep_ID ep <> NilID /\ ep_TenantID ep <> NilID /\ TrimSpace (ep_Name ep) <> "" /\ web_url (ep_URL ep)
  /\ (16 <= String.length (ep_Secret ep))%nat.

(** A log entry: one of three attempts; it says success with the status code of
    the answer, or failure with a message. *)
Definition valid_delivery (d : Delivery) : Prop :=
  1 <= d_Attempt d <= webhookMaxAttempts
  /\ (forall b, d_ResponseBody d = Some b -> (String.length b <= 4096)%nat)
  /\ (d_Status d = DeliveryStatusSuccess /\ d_ErrorMessage d = None /\ is_Some (d_DeliveredAt d)
        /\ (exists c, d_ResponseCode d = Some c /\ 200 <= c < 300)
      \/ d_Status d = DeliveryStatusFailed /\ is_Some (d_ErrorMessage d) /\ d_DeliveredAt d = None).

Section Protocol.
  Context `{UUIDLib} (ep : Endpoint) (ev : ID) (body : string).

(** [n] attempts at the retry delays, each after the refusal of the one before;
    [ok] when the last was accepted. *)
Inductive attempts : nat -> list Action -> bool -> Prop :=
  | attempt_first did ans :
      attempts 1 [Sent (signed_request (ep_URL ep) (ep_Secret ep) ev did body) ans] (accepted ans)
  | attempt_again n acts did ans delay :
      attempts n acts false -> webhookRetryDelays !! n = Some delay ->
      attempts (S n) (acts ++ [Waited delay; Sent (signed_request (ep_URL ep) (ep_Secret ep) ev did body) ans]) (accepted ans).
End Protocol.

Definition protocol `{UUIDLib} (j : Job) : nat -> list Action -> bool -> Prop := attempts (j_ep j) (j_event j) (j_body j).

(** Where a goroutine can be after the actions [acts]: before its first request,
    between two attempts, about to log, or finished, which it is after an
    accepted request, after the third, or when a wait was cancelled. *)
Inductive job_at `{UUIDLib} (j : Job) (acts : list Action) : Prop :=
  | at_start : j_attempt j = 1 -> j_logging j = None -> j_done j = false -> acts = [] -> job_at j acts
  | at_retry n : j_attempt j = Z.of_nat (S n) -> j_logging j = None -> j_done j = false ->
      protocol j n acts false -> (n < 3)%nat -> job_at j acts
  | at_log n d : j_attempt j = Z.of_nat n -> j_logging j = Some d -> j_done j = false ->
      protocol j n acts (succeeded d) -> valid_delivery d -> d_EndpointID d = ep_ID (j_ep j) -> job_at j acts
  | at_end n ok : j_logging j = None -> j_done j = true -> protocol j n acts ok -> ok = true \/ n = 3%nat -> job_at j acts
  | at_cancel n acts' : j_logging j = None -> j_done j = true -> protocol j n acts' false -> acts = acts' ++ [Cancelled] ->
      job_at j acts.

(** The actions of goroutine [i]. *)
Definition wire_of (i : nat) (d : WebhookDB) : list Action := (List.filter (fun p => Nat.eqb p.1 i) (wh_wire d)).*2.

Record wh_inv `{NetURL, UUIDLib} (d : WebhookDB) : Prop := {
  wi_keyed : keyed ep_ID (wh_endpoints d);
  wi_endpoints : map_Forall (fun _ ep => web_endpoint ep) (wh_endpoints d);
  wi_dkeyed : keyed d_ID (wh_deliveries d);
  wi_deliveries : map_Forall (fun _ r => valid_delivery r /\ is_Some (wh_endpoints d !! d_EndpointID r)) (wh_deliveries d);
  wi_jobs : forall i j, wh_jobs d !! i = Some j -> web_endpoint (j_ep j) /\ job_at j (wire_of i d);
  wi_wire : Forall (fun p => p.1 < length (wh_jobs d))%nat (wh_wire d);
}.

Lemma attempts_bounds `{UUIDLib} ep ev body n acts ok : attempts ep ev body n acts ok -> (1 <= n <= 3)%nat.
Proof.
  induction 1 as [|n acts did ans delay _ IH Hd]; [lia |]. apply lookup_lt_Some in Hd. cbn in Hd. lia.
Qed.

Lemma retry_delay_Ok (n : nat) : (1 <= n < 3)%nat -> exists d, webhookRetryDelays !! n = Some d /\ retry_delay (Z.of_nat (S n) - 1) = Ok d.
Proof.
  intros Hn. unfold retry_delay. replace (Z.of_nat (S n) - 1) with (Z.of_nat n) by lia. rewrite Nat2Z.id.
  rewrite (proj2 (Z.ltb_ge (Z.of_nat n) 0)) by lia.
  destruct (webhookRetryDelays !! n) as [d|] eqn:E; [eauto |]. apply lookup_ge_None in E. cbn in E. lia.
Qed.

Lemma succeeded_delivery_of ep ev did n now r : succeeded (delivery_of ep ev did n now r) = accepted r.
Proof.
  unfold succeeded, delivery_of, accepted. destruct r as [[c b]|e]; [| done]. cbn [d_Status].
  destruct (Z.ltb_spec c 200), (Z.leb_spec 300 c), (Z.leb_spec 200 c), (Z.ltb_spec c 300); cbn; try done; lia.
Qed.

Lemma delivery_of_valid ep ev did n now r : 1 <= n <= 3 ->
  (forall c b, r = inl (c, b) -> (String.length b <= 4096)%nat) -> valid_delivery (delivery_of ep ev did n now r).
Proof.
  intros Hn Hb. unfold valid_delivery, delivery_of. destruct r as [[c b]|e].
  - cbn [d_Attempt d_ResponseBody d_Status d_ErrorMessage d_DeliveredAt d_ResponseCode].
    split; [unfold webhookMaxAttempts; lia |]. split.
    + intros b'. destruct (String.eqb b ""); [done |]. intros [= <-]. by eapply Hb.
    + destruct ((c <? 200) || (300 <=? c)) eqn:E; [right; by split_and! |]. left.
      apply orb_false_iff in E as [E1%Z.ltb_ge E2%Z.leb_gt]. rewrite (proj2 (Z.eqb_neq c 0)) by lia. split_and!; eauto.
  - split; [cbn; unfold webhookMaxAttempts; lia |]. split; [done |]. right. by split_and!.
Qed.

(** Recording an action. *)
Lemma wire_of_record i k a d : wire_of i (record_action k a d) = wire_of i d ++ (if Nat.eqb k i then [a] else []).
Proof. unfold wire_of, record_action. cbn [wh_wire]. rewrite List.filter_app, fmap_app. cbn. by destruct (Nat.eqb k i). Qed.

Lemma take_4096 s : (String.length (take 4096 s) <= 4096)%nat.
Proof. rewrite length_take. lia. Qed.

Section Attempt.
  Context `{Env, Pg, WebhookServer, NetURL, Network, UUIDLib}.

(** The tables and the goroutines are as before, the wire has new actions of [i]. *)
Definition recorded (i : nat) (acts : list Action) (d d' : WebhookDB) : Prop :=
  d' = mkWebhookDB (wh_endpoints d) (wh_deliveries d) (wh_jobs d) (wh_wire d ++ map (pair i) acts).

Lemma post_run i ep ev did body w : web_url (ep_URL ep) ->
  exists ans, let '(r, w') := post i (ep_URL ep) (ep_Secret ep) ev did body w in
    (exists a, r = Ok a /\ accepted a = accepted ans /\ (forall c b, a = inl (c, b) -> (String.length b <= 4096)%nat))
    /\ recorded i [Sent (signed_request (ep_URL ep) (ep_Secret ep) ev did body) ans] (w_db w) (w_db w').
Proof.
  intros (u & Hp & _)%web_url_iff. unfold post. rewrite Hp. unfold bind, Do, ret.
  exists (http_Do (w_tick w) (signed_request (ep_URL ep) (ep_Secret ep) ev did body)).
  destruct (http_Do _ _) as [[c b]|e]; (split; [| done]).
  - eexists. split; [done |]. split; [done |]. intros ? ? [= <- <-]. apply take_4096.
  - eexists. split; [done |]. split; [done |]. by intros.
Qed.

(** The outcome of a request: its log entry, and one more action. *)
Definition requested (i : nat) (ep : Endpoint) (ev : ID) (body : string) (pre : list Action) (d : Delivery) (db db' : WebhookDB) : Prop :=
  exists did ans, succeeded d = accepted ans /\ valid_delivery d /\ d_EndpointID d = ep_ID ep
    /\ recorded i (pre ++ [Sent (signed_request (ep_URL ep) (ep_Secret ep) ev did body) ans]) db db'.

Lemma request_run i ep ev body (n : nat) w : web_url (ep_URL ep) -> (1 <= n <= 3)%nat ->
  exists d w', request_attempt i ep ev body (Z.of_nat n) w = (Ok d, w') /\ requested i ep ev body [] d (w_db w) (w_db w').
Proof.
  intros Hu Hn. unfold request_attempt, bind, NewID_ignore, NowUTC. cbn [w_tick w_db tick].
  set (did := match env_id _ with inl _ => _ | inr _ => _ end).
  destruct (post_run i ep ev did body (tick (tick w)) Hu) as (ans & Hp).
  destruct (post i _ _ ev did body _) as [r w1]. destruct Hp as ((a & -> & Ha & Hb) & Hw).
  eexists _, w1. split; [done |]. exists did, ans. rewrite succeeded_delivery_of. split_and!; try done.
  - apply delivery_of_valid; [lia | done].
  - unfold delivery_of. by destruct a as [[c b]|e].
Qed.

Lemma begin_first i ep ev body w : web_url (ep_URL ep) ->
  exists d w', begin_attempt i ep ev body 1 w = (Ok (Some d), w') /\ requested i ep ev body [] d (w_db w) (w_db w').
Proof.
  intros Hu. destruct (request_run i ep ev body 1 w Hu ltac:(lia)) as (d & w' & E & Hr). exists d, w'. split; [| done].
  change (Z.of_nat 1) with 1 in E. unfold begin_attempt, bind, ret. change (1 <? 1) with false.
  cbv beta iota. by rewrite E.
Qed.

Lemma begin_retry i ep ev body (n : nat) w : web_url (ep_URL ep) -> (1 <= n < 3)%nat ->
  (exists w', begin_attempt i ep ev body (Z.of_nat (S n)) w = (Ok None, w') /\ recorded i [Cancelled] (w_db w) (w_db w'))
  \/ exists d w' delay, begin_attempt i ep ev body (Z.of_nat (S n)) w = (Ok (Some d), w')
      /\ webhookRetryDelays !! n = Some delay /\ requested i ep ev body [Waited delay] d (w_db w) (w_db w').
Proof.
  intros Hu Hn. destruct (retry_delay_Ok n Hn) as (delay & Hd & Er). unfold begin_attempt.
  rewrite (proj2 (Z.ltb_lt 1 (Z.of_nat (S n)))) by lia. rewrite Er. unfold bind, lift_res, wait.
  destruct (ctx_done (w_tick w)); [left; by eexists |]. right.
  set (w1 := mkWorld _ _). destruct (request_run i ep ev body (S n) w1 Hu ltac:(lia)) as (d & w' & E & did & ans & Hs & Hv & He & Hw).
  exists d, w', delay. rewrite E. split_and!; try done. exists did, ans. split_and!; try done.
  unfold recorded in *. rewrite Hw. subst w1. cbn. by rewrite <- app_assoc.
Qed.
End Attempt.

(** ** Sessions *)

Inductive Call :=
  | CallRegister (cmd : RegisterEndpointInput)
  | CallList (tenantID : ID)
  | CallDisable (tenantID id : ID)
  | CallEnable (tenantID id : ID)
  | CallDelete (tenantID id : ID)
  | CallDeliveries (tenantID id : ID) (limit : Z)
  | CallEvent (evt : BaseEvent)
  | JobRuns (i : nat).

Section Sessions.
  Context `{Env, Pg, WebhookServer, NetURL, Network, UUIDLib, PayloadJSON}.

(** One call, or one step of a goroutine: its outcome and the world after it. *)
Definition run_call (c : Call) (w : World WebhookDB) : res unit * World WebhookDB :=
  match c with
  | CallRegister cmd => (RegisterEndpoint cmd ;;; ret tt) w
  | CallList t => (ListEndpoints t ;;; ret tt) w
  | CallDisable t id => DisableEndpoint t id w
  | CallEnable t id => EnableEndpoint t id w
  | CallDelete t id => DeleteEndpoint t id w
  | CallDeliveries t id limit => (ListDeliveries t id limit ;;; ret tt) w
  | CallEvent evt => dispatchEvent evt w
  | JobRuns i => run_job i w
  end.

Definition run_calls (cs : list Call) (w : World WebhookDB) : World WebhookDB := fold_left (fun w c => (run_call c w).2) cs w.

(** *** The tables *)

Lemma validate_Ok name url secret : validateEndpointInput name url secret = Ok tt <->
  TrimSpace name <> "" /\ web_url (TrimSpace url) /\ (16 <= String.length secret)%nat.
Proof.
  unfold validateEndpointInput. rewrite web_url_iff.
  destruct (String.eqb_spec (TrimSpace name) "") as [|Hn]; [split; [done | by intros []] |].
  destruct (String.eqb_spec (TrimSpace url) "") as [->|Hu].
  { split; [done |]. intros (_ & (u & E & Hs & Hh) & _). by injection E as <-. }
  destruct (Parse (TrimSpace url)) as [u|]; [| split; [done | by intros (_ & (u & ? & _) & _)]].
  destruct (negb (String.eqb (url_Scheme u) "http") && negb (String.eqb (url_Scheme u) "https") || String.eqb (url_Host u) "") eqn:E.
  - split; [done |]. intros (_ & (u' & [= <-] & Hs & Hh) & _). apply orb_true_iff in E as [E|E%String.eqb_eq]; [| done].
    apply andb_true_iff in E as [E1%negb_true_iff%String.eqb_neq E2%negb_true_iff%String.eqb_neq]. set_solver.
  - apply orb_false_iff in E as [E Hh%String.eqb_neq].
    destruct (Nat.ltb_spec (String.length secret) 16) as [Hl|Hl]; [split; [done | lia] |]. split; [| done]. intros _. split_and!; try done.
    exists u. split_and!; try done. apply andb_false_iff in E as [E|E]; apply negb_false_iff, String.eqb_eq in E as ->; set_solver.
Qed.

Lemma insert_endpoint_inv d ep : wh_inv d -> web_endpoint ep -> wh_inv (lens_set (<[ep_ID ep := ep]> (wh_endpoints d)) d).
Proof.
  intros [I1 I2 I3 I4 I5 I6] He. split; cbn [lens_set Lens_wh_endpoints wh_endpoints wh_deliveries wh_jobs wh_wire]; try done.
  - by apply keyed_insert.
  - by apply map_Forall_insert_2.
  - intros k r Hr. destruct (I4 k r Hr) as [Hv He']. split; [done |]. by apply lookup_insert_is_Some'; right.
Qed.

Lemma CreateEndpoint_inv ep : TrimSpace (ep_Name ep) <> "" -> web_url (ep_URL ep) -> (16 <= String.length (ep_Secret ep))%nat ->
  preserves wh_inv (CreateEndpoint ep).
Proof.
  intros Hn Hu Hs. apply preserves_writes_last; [unfold CreateEndpoint; frame |]. intros w u w' Hi E. unfold CreateEndpoint in E. step_inv.
  match goal with X : insert_into _ _ _ _ _ _ = _ |- _ => apply insert_into_Ok in X as (_ & -> & _ & _ & Hx & _) end.
  cbn [w_db]. apply insert_endpoint_inv; [done |]. cbn in Hx. split_and!; try done; intros E; apply Hx; set_solver.
Qed.

Lemma RegisterEndpoint_inv cmd : preserves wh_inv (RegisterEndpoint cmd).
Proof.
  unfold RegisterEndpoint. destruct (validateEndpointInput _ _ _) as [[]|e|e] eqn:Ev; [| by intros w Hw..].
  apply validate_Ok in Ev as (Hn & Hu & Hs). apply preserves_bind; [auto with go_frame |]. intros _.
  apply preserves_bind; [auto with go_frame |]. intros id. apply preserves_bind; [auto with go_frame |]. intros now.
  apply preserves_bind; [| intros _; auto with go_frame]. apply preserves_wrap_err, CreateEndpoint_inv; cbn [ep_Name ep_URL ep_Secret]; try done.
  by rewrite TrimSpace_idemp.
Qed.

Lemma SetEndpointActive_inv t id a : preserves wh_inv (SetEndpointActive t id a).
Proof.
  intros w Hi. unfold SetEndpointActive, bind, NowUTC, query, guard, fail, ret. cbn [w_tick tick w_db]. destruct (env_fault _); [done |].
  unfold set_active. destruct (select_one _ _) as [r|] eqn:Es; [| done]. cbn [negb snd w_db].
  apply select_one_Some in Es as [_ [k Hk]]. destruct (wi_endpoints _ Hi k r Hk) as (? & ? & ? & ? & ?).
  by apply (insert_endpoint_inv (w_db w) (activated a _ r) Hi).
Qed.

Lemma DeleteEndpoint_inv t id : preserves wh_inv (repo_DeleteEndpoint t id).
Proof.
  intros w Hi. unfold repo_DeleteEndpoint, bind, query, guard, fail, ret. destruct (env_fault _); [done |].
  unfold delete_endpoint. destruct (select_one _ _) as [r|] eqn:Es; [| done]. cbn [negb snd w_db].
  destruct Hi as [I1 I2 I3 I4 I5 I6]. split; cbn [wh_endpoints wh_deliveries wh_jobs wh_wire]; try done.
  - intros k x [_ Hx]%lookup_delete_Some. by apply I1.
  - by apply map_Forall_delete.
  - by apply keyed_filter.
  - intros k x [Hx Hn]%map_lookup_filter_Some. destruct (I4 k x Hx) as [Hv He]. split; [done |].
    rewrite lookup_delete_ne; [done |]. cbn in Hn. congruence.
Qed.

(** *** The goroutines *)

Lemma wire_of_recorded i k acts d d' : recorded k acts d d' -> wire_of i d' = wire_of i d ++ (if Nat.eqb k i then acts else []).
Proof.
  intros ->. unfold wire_of. cbn [wh_wire]. rewrite List.filter_app, fmap_app. f_equal.
  destruct (Nat.eqb_spec k i) as [->|Hn]; induction acts as [|a acts IH]; cbn; try done.
  - rewrite Nat.eqb_refl. cbn. f_equal. exact IH.
  - rewrite (proj2 (Nat.eqb_neq k i)) by done. exact IH.
Qed.

Lemma recorded_jobs i acts d d' : recorded i acts d d' -> wh_jobs d' = wh_jobs d.
Proof. by intros ->. Qed.

(** A goroutine moves on and acts; the others are where they were. *)
Lemma recorded_inv i j j' acts d d' : wh_inv d -> wh_jobs d !! i = Some j -> recorded i acts d d' ->
  j_ep j' = j_ep j -> job_at j' (wire_of i d ++ acts) -> wh_inv (set_jobs (<[i := j']> (wh_jobs d')) d').
Proof.
  intros [I1 I2 I3 I4 I5 I6] Hj Hr He Hat. pose proof (lookup_lt_Some _ _ _ Hj) as Hlt.
  split; unfold set_jobs; cbn [wh_endpoints wh_deliveries wh_jobs wh_wire]; try by rewrite Hr.
  - intros k x Hx. rewrite (recorded_jobs _ _ _ _ Hr) in Hx.
    assert (wire_of k (mkWebhookDB (wh_endpoints d') (wh_deliveries d') (<[i:=j']> (wh_jobs d')) (wh_wire d')) = wire_of k d') as -> by done.
    rewrite (wire_of_recorded k _ _ _ _ Hr). destruct (Nat.eqb_spec i k) as [<-|Hn].
    + rewrite list_lookup_insert_eq in Hx by done. injection Hx as <-. rewrite He. split; [by apply (I5 i j) | done].
    + rewrite list_lookup_insert_ne in Hx by done. rewrite app_nil_r. by apply I5.
  - rewrite length_insert, Hr. cbn. apply Forall_app. split; [done |]. apply Forall_map, Forall_true. done.
Qed.

Lemma requested_at i (j : Job) pre d db db' n : requested i (j_ep j) (j_event j) (j_body j) pre d db db' ->
  (forall did ans, protocol j n (wire_of i db ++ pre ++ [Sent (signed_request (ep_URL (j_ep j)) (ep_Secret (j_ep j)) (j_event j) did (j_body j)) ans]) (accepted ans)) ->
  Z.of_nat n = j_attempt j -> exists acts, recorded i acts db db'
    /\ job_at (mkJob (j_ep j) (j_event j) (j_body j) (j_attempt j) (Some d) false) (wire_of i db ++ acts).
Proof.
  intros (did & ans & Hs & Hv & He & Hr) Hp Hn. eexists. split; [exact Hr |]. eapply (at_log _ _ n d); try done.
  rewrite Hs. apply Hp.
Qed.

(** The first half of a step. *)
Lemma request_step i j w : wh_inv (w_db w) -> wh_jobs (w_db w) !! i = Some j -> j_logging j = None -> j_done j = false ->
  exists j' w', job_step i j w = (Ok j', w') /\ j_ep j' = j_ep j
    /\ exists acts, recorded i acts (w_db w) (w_db w') /\ job_at j' (wire_of i (w_db w) ++ acts).
Proof.
  intros Hi Hj Hl Hd. destruct (wi_jobs _ Hi i j Hj) as [(_ & _ & _ & Hu & _) Hat]. unfold job_step. rewrite Hl.
  destruct Hat as [Ha _ _ Hw|n Ha _ _ Hp Hn|? ? ? X|? ? ? X|? ? ? X]; try congruence.
  - destruct (begin_first i (j_ep j) (j_event j) (j_body j) w Hu) as (d & w' & E & Hr). rewrite Ha. unfold bind. rewrite E.
    eexists _, w'. split; [done |]. split; [done |]. rewrite <- Ha. eapply (requested_at i j [] d _ _ 1); [done | | by rewrite Ha].
    intros did ans. rewrite Hw. constructor.
  - pose proof (attempts_bounds _ _ _ _ _ _ Hp).
    destruct (begin_retry i (j_ep j) (j_event j) (j_body j) n w Hu ltac:(lia)) as [(w' & E & Hr)|(d & w' & delay & E & Hdel & Hr)];
      rewrite Ha; unfold bind; rewrite E; (eexists _, w'; split; [done |]; split; [done |]).
    + exists [Cancelled]. split; [done |]. by eapply at_cancel.
    + rewrite <- Ha. eapply (requested_at i j [Waited delay] d _ _ (S n)); [done | | done].
      intros did ans. by apply attempt_again.
Qed.

(** The log entry: only the table of deliveries changes. *)
Lemma log_run d w : valid_delivery d -> exists t, ignore (CreateDelivery d) w = (Ok tt, mkWorld (lens_set t (w_db w)) (S (w_tick w)))
  /\ (keyed d_ID (wh_deliveries (w_db w)) -> keyed d_ID t)
  /\ (map_Forall (fun _ r => valid_delivery r /\ is_Some (wh_endpoints (w_db w) !! d_EndpointID r)) (wh_deliveries (w_db w)) ->
      map_Forall (fun _ r => valid_delivery r /\ is_Some (wh_endpoints (w_db w) !! d_EndpointID r)) t).
Proof.
  intros Hv. unfold ignore, CreateDelivery.
  destruct (insert_into d_ID (fun r => [d_EndpointID r; d_OutboxEventID r]) same_delivery delivery_constraints (delivery_row d) w)
    as [[r|e|e] w1] eqn:E.
  - unfold bind, attempt, ret. rewrite E. apply insert_into_Ok in E as (-> & -> & _ & _ & _ & Hc). eexists. split; [done |].
    split; [apply keyed_insert |]. intros Hm. apply map_Forall_insert_2; [| done]. unfold delivery_constraints in Hc.
    case_bool_decide as He; [| done]. split; [| done]. destruct Hv as (? & ? & Hst). split; [done |]. split; [done |].
    destruct Hst as [(? & ? & ? & ?)|(? & ? & Hd)]; [left | right]; cbn; rewrite ?Hd; split_and!; try done. by apply fmap_is_Some.
  - unfold bind, attempt, ret. rewrite E. exists (wh_deliveries (w_db w)). assert (w1 = tick w) as ->.
    { unfold insert_into, query in E. destruct (env_fault _); [congruence |]. destruct (insert_row _ _ _ _ _ _) as [[]| |]; congruence. }
    split; [by destruct w as [[] ?] | done].
  - exfalso. unfold insert_into, query, insert_row in E. repeat case_match; congruence.
Qed.

Lemma log_step_inv i j d w : wh_inv (w_db w) -> wh_jobs (w_db w) !! i = Some j -> j_logging j = Some d -> j_done j = false ->
  exists j' w', job_step i j w = (Ok j', w') /\ wh_inv (set_jobs (<[i := j']> (wh_jobs (w_db w'))) (w_db w')).
Proof.
  intros Hi Hj Hl Hd. destruct (wi_jobs _ Hi i j Hj) as [_ Hat]. unfold job_step. rewrite Hl.
  destruct Hat as [? X|? ? X|n d' Ha X _ Hp Hv _|? ? X|? ? X]; [congruence.. | | congruence | congruence].
  rewrite Hl in X. injection X as <-. destruct (log_run d w Hv) as (t & E & Hk & Hm). unfold bind. rewrite E.
  eexists _, _. split; [done |]. cbn [w_db]. set (j' := mkJob _ _ _ _ _ _). set (db := lens_set t (w_db w)).
  assert (wh_inv db) as Hdb by (destruct Hi; split; auto).
  apply (recorded_inv i j j' [] db db Hdb); [done | unfold recorded; cbn; by rewrite app_nil_r | done |].
  rewrite app_nil_r. change (wire_of i db) with (wire_of i (w_db w)). pose proof (attempts_bounds _ _ _ _ _ _ Hp).
  destruct (succeeded d) eqn:Es; [by eapply (at_end _ _ n true); auto |]. subst j'. unfold webhookMaxAttempts. cbn [orb].
  destruct (decide (n = 3%nat)) as [->|Hn].
  - eapply (at_end _ _ 3 false); [done | cbn [j_done]; apply Z.ltb_lt; lia | done | by right].
  - eapply (at_retry _ _ n); [cbn; lia | done | cbn [j_done]; apply Z.ltb_ge; lia | done | lia].
Qed.

Lemma run_job_inv i w : wh_inv (w_db w) -> (run_job i w).1 = Ok tt /\ wh_inv (w_db (run_job i w).2).
Proof.
  intros Hi. unfold run_job. destruct (wh_jobs (w_db w) !! i) as [j|] eqn:Hj; [| done]. destruct (j_done j) eqn:Hd; [done |].
  destruct (j_logging j) as [d|] eqn:Hl.
  - destruct (log_step_inv i j d w Hi Hj Hl Hd) as (j' & w' & -> & ?). done.
  - destruct (request_step i j w Hi Hj Hl Hd) as (j' & w' & -> & He & acts & Hr & Hat). split; [done |]. by eapply recorded_inv.
Qed.

(** *** Dispatch *)

Lemma wire_of_fresh i d : Forall (fun p => p.1 < length (wh_jobs d))%nat (wh_wire d) -> (length (wh_jobs d) <= i)%nat -> wire_of i d = [].
Proof.
  unfold wire_of. intros Hw Hi. induction Hw as [|[k a] l Hk _ IH]; [done |]. cbn in *.
  by rewrite (proj2 (Nat.eqb_neq k i)) by lia.
Qed.

Lemma spawn_inv (eps : list Endpoint) ev body d : wh_inv d -> Forall web_endpoint eps ->
  wh_inv (set_jobs (wh_jobs d ++ map (new_job ev body) eps) d).
Proof.
  intros [I1 I2 I3 I4 I5 I6] He. split; unfold set_jobs; cbn [wh_endpoints wh_deliveries wh_jobs wh_wire]; try done.
  - intros i j Hj. change (wire_of i _) with (wire_of i d). apply lookup_app_Some in Hj as [Hj|[Hi Hj]]; [by apply I5 |].
    rewrite wire_of_fresh by done. change (map (new_job ev body) eps) with (new_job ev body <$> eps) in Hj.
    apply list_lookup_fmap_Some in Hj as (ep & -> & Hep). split; [| by apply at_start].
    by eapply Forall_lookup_1 in He; [| exact Hep].
  - eapply Forall_impl; [exact I6 |]. intros [k a] Hk. rewrite length_app. cbn in *. lia.
Qed.

Definition active_endpoints (tenantID : ID) (d : WebhookDB) : list Endpoint :=
  merge_sort (oldest ep_CreatedAt) (select_rows (active_endpoint tenantID) (wh_endpoints d)).

(** The goroutines an event starts: one per active endpoint of its tenant, the
    oldest first, unless the tenant is nil, the query fails or the payload does
    not marshal. *)
Definition dispatched (evt : BaseEvent) (w : World WebhookDB) : list Job :=
  if decide (be_Tenant evt = NilID) then []
  else match env_fault (w_tick w), json_payload (event_payload evt) with
       | None, inl body => map (new_job (be_ID evt) body) (active_endpoints (be_Tenant evt) (w_db w))
       | _, _ => []
       end.

Lemma set_jobs_nil d : set_jobs (wh_jobs d ++ []) d = d.
Proof. rewrite app_nil_r. by destruct d. Qed.

Lemma dispatch_run evt w : (dispatchEvent evt w).1 = Ok tt
  /\ w_db (dispatchEvent evt w).2 = set_jobs (wh_jobs (w_db w) ++ dispatched evt w) (w_db w).
Proof.
  unfold dispatchEvent, dispatched. destruct (decide _); [by rewrite set_jobs_nil |].
  unfold ListActiveEndpointsByTenant, select_all, bind, attempt, query, ret, spawn.
  destruct (env_fault (w_tick w)); [by rewrite set_jobs_nil |].
  change (merge_sort _ _) with (active_endpoints (be_Tenant evt) (w_db w)).
  destruct (active_endpoints _ _) as [|e l]; destruct (json_payload _); cbn [map fst snd w_db]; by rewrite ?set_jobs_nil.
Qed.

Lemma elem_of_active t d ep : ep ∈ active_endpoints t d <->
  (exists k, wh_endpoints d !! k = Some ep) /\ t <> NilID /\ ep_TenantID ep = t /\ ep_IsActive ep = true.
Proof.
  unfold active_endpoints. rewrite merge_sort_Permutation, elem_of_select_rows. unfold active_endpoint.
  rewrite andb_true_iff, sql_eq_true. naive_solver.
Qed.

Lemma dispatch_inv evt : preserves wh_inv (dispatchEvent evt).
Proof.
  intros w Hi. destruct (dispatch_run evt w) as [_ ->]. unfold dispatched.
  destruct (decide _); [by rewrite set_jobs_nil |]. destruct (env_fault _); [by rewrite set_jobs_nil |].
  destruct (json_payload _) as [body|]; [| by rewrite set_jobs_nil]. apply spawn_inv; [done |].
  apply Forall_forall. intros ep ([k Hk] & _)%elem_of_active. by eapply wi_endpoints.
Qed.

Lemma webhook_call_inv c w : wh_inv (w_db w) -> wh_inv (w_db (run_call c w).2).
Proof.
  destruct c; cbn [run_call]; intros Hi.
  - apply preserves_bind; [apply RegisterEndpoint_inv | auto with go_frame | done].
  - apply preserves_reads; [unfold ListEndpoints, repo_ListEndpoints; frame | done].
  - by apply SetEndpointActive_inv.
  - by apply SetEndpointActive_inv.
  - by apply DeleteEndpoint_inv.
  - apply preserves_reads; [| done]. unfold ListDeliveries, ListDeliveriesByEndpoint. apply reads_bind; [| auto with go_frame].
    apply reads_query. naive_solver.
  - by apply dispatch_inv.
  - by apply run_job_inv.
Qed.

Lemma webhook_session_inv cs w : wh_inv (w_db w) -> wh_inv (w_db (run_calls cs w)).
Proof. revert w. induction cs as [|c cs IH]; intros w Hi; [done |]. apply IH. by apply webhook_call_inv. Qed.
End Sessions.

(** ** The goroutine and the loop *)

Definition with_jobs (jobs : list Job) (w : World WebhookDB) : World WebhookDB := mkWorld (set_jobs jobs (w_db w)) (w_tick w).

(** A computation that neither reads nor writes the list of goroutines. *)
Definition jobless {A} (m : M WebhookDB A) : Prop :=
  forall jobs w, m (with_jobs jobs w) = let '(r, w') := m w in (r, with_jobs jobs w').

Lemma with_jobs_twice a b w : with_jobs a (with_jobs b w) = with_jobs a w.
Proof. done. Qed.

Lemma with_jobs_self w : with_jobs (wh_jobs (w_db w)) w = w.
Proof. by destruct w as [[] ?]. Qed.

Lemma jobless_keeps {A} (m : M WebhookDB A) w : jobless m -> wh_jobs (w_db (m w).2) = wh_jobs (w_db w).
Proof. intros Hm. specialize (Hm (wh_jobs (w_db w)) w). rewrite with_jobs_self in Hm. destruct (m w) as [r w']. by injection Hm as ->. Qed.

Section Loop.
  Context `{Env, Pg, WebhookServer, NetURL, Network, UUIDLib}.

Lemma jobless_ret {A} (a : A) : jobless (ret a).
Proof. done. Qed.
Lemma jobless_lift_res {A} (r : res A) : jobless (lift_res r).
Proof. done. Qed.
Lemma jobless_bind {A B} (m : M WebhookDB A) (k : A -> M WebhookDB B) :
  jobless m -> (forall a, jobless (k a)) -> jobless (bind m k).
Proof. intros Hm Hk jobs w. unfold bind. rewrite Hm. destruct (m w) as [[a|e|e] w1]; [apply Hk | done | done]. Qed.
Lemma jobless_wait i d : jobless (wait i d).
Proof. done. Qed.
Lemma jobless_Do i rq : jobless (Do i rq).
Proof. done. Qed.
Lemma jobless_NewID_ignore : jobless NewID_ignore.
Proof. done. Qed.
Lemma jobless_NowUTC : jobless NowUTC.
Proof. done. Qed.
Lemma jobless_CreateDelivery d : jobless (ignore (CreateDelivery d)).
Proof.
  intros jobs w. unfold ignore, CreateDelivery, insert_into, bind, attempt, query, ret. cbn [w_tick w_db with_jobs].
  destruct (env_fault (w_tick w)); [done |]. unfold insert_row, delivery_constraints. cbn [lens_get Lens_wh_deliveries wh_deliveries wh_endpoints set_jobs].
  by repeat case_match; simplify_eq.
Qed.

Hint Resolve jobless_ret jobless_lift_res jobless_bind jobless_wait jobless_Do jobless_NewID_ignore jobless_NowUTC jobless_CreateDelivery : go_run.

Lemma jobless_begin i ep ev body n : jobless (begin_attempt i ep ev body n).
Proof.
  unfold begin_attempt, request_attempt, post. apply jobless_bind; [destruct (1 <? n); auto with go_run |].
  intros []; [auto with go_run |]. destruct (Parse _); auto 10 with go_run.
Qed.

Lemma jobless_deliver fuel i ep ev body n : jobless (deliver_from fuel i ep ev body n).
Proof.
  revert n. induction fuel as [|fuel IH]; intros n; cbn [deliver_from]; [auto with go_run |].
  destruct (_ <? n); [auto with go_run |]. apply jobless_bind; [apply jobless_begin |]. intros [d|]; [| auto with go_run].
  apply jobless_bind; [auto with go_run |]. intros _. destruct (succeeded d); auto with go_run.
Qed.

(** No attempt fails or panics. *)
Lemma begin_total i ep ev body n w : 1 <= n <= 3 -> exists o w', begin_attempt i ep ev body n w = (Ok o, w').
Proof.
  intros Hn. assert (exists c w1, (if 1 <? n then delay <- lift_res (retry_delay (n - 1)) ;; wait i delay else ret false) w = (Ok c, w1)) as (c & w1 & E).
  { destruct (Z.ltb_spec 1 n) as [Hlt|]; [| by do 2 eexists]. destruct (retry_delay_Ok (Z.to_nat (n - 1)) ltac:(lia)) as (d & _ & E).
    replace (Z.of_nat (S (Z.to_nat (n - 1))) - 1) with (n - 1) in E by lia. rewrite E. by do 2 eexists. }
  unfold begin_attempt. unfold bind at 1. rewrite E. destruct c; [by do 2 eexists |].
  unfold request_attempt, post, bind, NewID_ignore, NowUTC, Do, ret. destruct (Parse _); by do 2 eexists.
Qed.

Lemma log_total d w : exists w', ignore (CreateDelivery d) w = (Ok tt, w').
Proof.
  unfold ignore, CreateDelivery, insert_into, bind, attempt, query, ret.
  destruct (env_fault (w_tick w)); [by eexists |]. unfold insert_row. repeat case_match; simplify_eq; by eexists.
Qed.

(** The steps of goroutine [i], from the request of an attempt on. *)
Definition steps (k i : nat) (w : World WebhookDB) : World WebhookDB := Nat.iter k (fun w => (run_job i w).2) w.

Lemma steps_add k l i w : steps (k + l) i w = steps k i (steps l i w).
Proof. apply Nat.iter_add. Qed.

Lemma run_job_request i j w o w1 : wh_jobs (w_db w) !! i = Some j -> j_done j = false -> j_logging j = None ->
  begin_attempt i (j_ep j) (j_event j) (j_body j) (j_attempt j) w = (Ok o, w1) ->
  (run_job i w).2 = with_jobs (<[i := mkJob (j_ep j) (j_event j) (j_body j) (j_attempt j) o (negb (bool_decide (is_Some o)))]> (wh_jobs (w_db w))) w1.
Proof.
  intros Hj Hd Hl E. unfold run_job, job_step. rewrite Hj, Hd, Hl. unfold bind. rewrite E.
  pose proof (jobless_keeps _ w (jobless_begin i (j_ep j) (j_event j) (j_body j) (j_attempt j))) as X. rewrite E in X. cbn [snd] in X.
  destruct o; cbn [ret snd w_db w_tick]; by rewrite X.
Qed.

Lemma run_job_log i j d w w1 : wh_jobs (w_db w) !! i = Some j -> j_done j = false -> j_logging j = Some d ->
  ignore (CreateDelivery d) w = (Ok tt, w1) ->
  (run_job i w).2 = with_jobs (<[i := mkJob (j_ep j) (j_event j) (j_body j) (j_attempt j + 1) None (succeeded d || (webhookMaxAttempts <? j_attempt j + 1))]> (wh_jobs (w_db w))) w1.
Proof.
  intros Hj Hd Hl E. unfold run_job, job_step. rewrite Hj, Hd, Hl. unfold bind. rewrite E.
  pose proof (jobless_keeps _ w (jobless_CreateDelivery d)) as X. rewrite E in X. cbn [snd] in X. cbn [ret snd w_db w_tick]. by rewrite X.
Qed.

(** One iteration of the loop is one or two steps. *)
Lemma iteration fuel i ep ev body n w : 1 <= n <= 3 -> wh_jobs (w_db w) !! i = Some (mkJob ep ev body n None false) ->
  exists stop w' k j', (k <= 2)%nat /\ steps k i w = with_jobs (<[i := j']> (wh_jobs (w_db w))) w'
    /\ deliver_from (S fuel) i ep ev body n w = (if (stop : bool) then (Ok tt, w') else deliver_from fuel i ep ev body (n + 1) w')
    /\ j' = mkJob ep ev body (j_attempt j') None (stop || (webhookMaxAttempts <? n + 1))
    /\ (stop = false -> j_attempt j' = n + 1).
Proof.
  intros Hn Hj. destruct (begin_total i ep ev body n w Hn) as (o & w1 & E1).
  pose proof (run_job_request i _ w o w1 Hj eq_refl eq_refl E1) as S1. cbn [j_ep j_event j_body j_attempt] in S1.
  pose proof (lookup_lt_Some _ _ _ Hj) as Hlt. cbn [deliver_from].
  rewrite (proj2 (Z.ltb_ge webhookMaxAttempts n)) by (unfold webhookMaxAttempts; lia). unfold bind. rewrite E1.
  destruct o as [d|]; [| exists true, w1, 1%nat, (mkJob ep ev body n None true); split_and!; [lia | exact S1 | done..]].
  set (W1 := with_jobs _ w1) in S1. destruct (log_total d w1) as (w2 & E2). rewrite E2.
  assert (ignore (CreateDelivery d) W1 = (Ok tt, with_jobs (wh_jobs (w_db W1)) w2)) as E2'
    by (unfold W1; by rewrite jobless_CreateDelivery, E2).
  eassert (wh_jobs (w_db W1) !! i = Some _) as Hj1 by (unfold W1; cbn; by apply list_lookup_insert_eq).
  pose proof (run_job_log i _ d W1 _ Hj1 eq_refl eq_refl E2') as S2. cbn [j_ep j_event j_body j_attempt] in S2.
  rewrite with_jobs_twice in S2. cbn [W1 with_jobs w_db set_jobs wh_jobs] in S2. rewrite list_insert_insert_eq in S2.
  eexists (succeeded d), w2, 2%nat, _. split; [lia |]. split; [unfold steps; cbn [Nat.iter nat_rect]; rewrite S1; exact S2 |].
  split_and!; [by destruct (succeeded d) | done | done].
Qed.

(** From attempt [3 - m] on, the loop and the steps do the same. *)
Lemma loop_steps m i ep ev body w : (m <= 2)%nat ->
  wh_jobs (w_db w) !! i = Some (mkJob ep ev body (3 - Z.of_nat m) None false) ->
  exists w' k j', deliver_from (m + 2) i ep ev body (3 - Z.of_nat m) w = (Ok tt, w')
    /\ (k <= 2 * (m + 1))%nat /\ j_done j' = true /\ steps k i w = with_jobs (<[i := j']> (wh_jobs (w_db w))) w'.
Proof.
  revert w. induction m as [|m IH]; intros w Hm Hj; pose proof (lookup_lt_Some _ _ _ Hj) as Hlt.
  - destruct (iteration 1 i ep ev body (3 - Z.of_nat 0) w ltac:(lia) Hj) as (stop & w1 & k & j1 & Hk & Es & Ed & Ej & _).
    exists w1, k, j1. split_and!; [etrans; [exact Ed |]; by destruct stop | lia | | done]. rewrite Ej. by destruct stop.
  - destruct (iteration (m + 2) i ep ev body (3 - Z.of_nat (S m)) w ltac:(lia) Hj) as ([] & w1 & k & j1 & Hk & Es & Ed & Ej & Ea).
    { exists w1, k, j1. split_and!; [done | lia | by rewrite Ej | done]. }
    unfold webhookMaxAttempts in Ej. rewrite (Ea eq_refl), (proj2 (Z.ltb_ge 3 _)) in Ej by lia. cbn [orb] in Ej.
    replace (3 - Z.of_nat (S m) + 1) with (3 - Z.of_nat m) in * by lia. rewrite Ej in Es. set (W := with_jobs _ w1) in Es.
    destruct (IH W ltac:(lia)) as (w' & l & j' & E & Hl & Hd & Es'); [unfold W; cbn; by apply list_lookup_insert_eq |].
    pose proof (jobless_deliver (m + 2) i ep ev body (3 - Z.of_nat m) (wh_jobs (w_db W)) w1) as F.
    change (with_jobs (wh_jobs (w_db W)) w1) with W in F. rewrite E in F. change (S m + 2)%nat with (S (m + 2)). rewrite Ed.
    destruct (deliver_from _ _ _ _ _ _ w1) as [r w3]. injection F as <- ->.
    exists w3, (l + k)%nat, j'. split_and!; [done | lia | done |]. rewrite steps_add, Es, Es', with_jobs_twice.
    unfold W. cbn [with_jobs w_db set_jobs wh_jobs]. by rewrite list_insert_insert_eq.
Qed.
End Loop.

(** ** Properties *)

(** The requests and the waits among the actions of a goroutine. *)
Definition sent_of (acts : list Action) : list (Request * Answer) :=
  omap (fun a => match a with Sent rq ans => Some (rq, ans) | _ => None end) acts.
Definition waits_of (acts : list Action) : list Z :=
  omap (fun a => match a with Waited d => Some d | _ => None end) acts.

(** The check that receivers are told to make (docs/webhooks.md). *)
Definition verifySignature (secret body signatureHeader : string) : bool :=
  String.eqb ("sha256=" +:+ hmac_hex secret body) signatureHeader.

(** A request goes to the URL of the endpoint and verifies with its secret. *)
Definition genuine (j : Job) (rq : Request) : Prop :=
  rq_URL rq = ep_URL (j_ep j) /\ rq_Body rq = j_body j
  /\ exists sig, rq_Header rq !! "X-Mergiate-Signature" = Some sig /\ verifySignature (ep_Secret (j_ep j)) (rq_Body rq) sig = true.

Lemma signed_genuine `{UUIDLib} j did :
  genuine j (signed_request (ep_URL (j_ep j)) (ep_Secret (j_ep j)) (j_event j) did (j_body j)).
Proof.
  split; [done |]. split; [done |]. eexists. split; [| unfold verifySignature; apply String.eqb_refl].
  unfold signed_request. cbn [rq_Header]. by rewrite !lookup_insert_ne, lookup_insert_eq by done.
Qed.

(** What the actions of a delivery look like, whatever it is at. *)
Record orderly (j : Job) (acts : list Action) : Prop := {
  o_count : (length (sent_of acts) <= 3)%nat;
  o_waits : waits_of acts = firstn (length (sent_of acts) - 1) [1 * Second; 5 * Second];
  o_refused : Forall (fun p => accepted p.2 = false) (removelast (sent_of acts));
  o_genuine : Forall (fun p => genuine j p.1) (sent_of acts);
}.

Lemma removelast_snoc {A} (l : list A) x : removelast (l ++ [x]) = l.
Proof. apply removelast_last. Qed.

Lemma attempts_orderly `{UUIDLib} j n acts ok : protocol j n acts ok -> orderly j acts /\ length (sent_of acts) = n
  /\ exists rq ans, last (sent_of acts) = Some (rq, ans) /\ accepted ans = ok.
Proof.
  unfold protocol. induction 1 as [did ans|n acts did ans delay Hp IH Hd].
  - split; [| split; [done | by eexists _, ans]]. split; [cbn; lia | done | constructor |].
    repeat constructor; apply signed_genuine.
  - destruct IH as ([O1 O2 O3 O4] & Hl & rq & a & Ela & Ea). pose proof (attempts_bounds _ _ _ _ _ _ Hp) as Hb.
    pose proof (lookup_lt_Some _ _ _ Hd) as Hlt. cbn in Hlt.
    assert (forall x : Action, sent_of (acts ++ [Waited delay; x]) = sent_of acts ++ sent_of [x]) as Es by (intros; unfold sent_of; by rewrite omap_app).
    rewrite Es. split; [split |]; rewrite ?Es.
    + rewrite length_app. cbn. lia.
    + unfold waits_of in *. rewrite omap_app, O2, length_app, Hl. cbn [sent_of omap list_omap length].
      assert (n = 1%nat \/ n = 2%nat) as [->| ->] by lia; cbn in Hd; by injection Hd as <-.
    + cbn [sent_of omap list_omap]. rewrite removelast_snoc. apply last_Some in Ela as [l El]. rewrite El in *.
      rewrite removelast_snoc in O3. apply Forall_app. by repeat constructor.
    + apply Forall_app. split; [done |]. repeat constructor; apply signed_genuine.
    + rewrite length_app, Hl. cbn. split; [lia |]. eexists _, ans. by rewrite last_app.
Qed.

Lemma job_at_orderly `{UUIDLib} j acts : job_at j acts -> orderly j acts
  /\ (j_done j = true -> length (sent_of acts) = 3%nat \/ last acts = Some Cancelled
        \/ exists rq ans, last (sent_of acts) = Some (rq, ans) /\ accepted ans = true).
Proof.
  intros [? ? Hd ->|n ? ? Hd Hp _|n d ? ? Hd Hp _ _|n ok _ _ Hp Hok|n acts' _ _ Hp ->].
  - split; [split; [cbn; lia | done | constructor | constructor] | congruence].
  - split; [by apply attempts_orderly in Hp as [? _] | congruence].
  - split; [by apply attempts_orderly in Hp as [? _] | congruence].
  - apply attempts_orderly in Hp as (Ho & Hl & rq & ans & Ela & Ea). split; [done |]. intros _.
    destruct Hok as [->| ->]; [right; right; eauto | by left].
  - apply attempts_orderly in Hp as ([O1 O2 O3 O4] & _ & _).
    assert (sent_of (acts' ++ [Cancelled]) = sent_of acts') as Es by (unfold sent_of; by rewrite omap_app, app_nil_r).
    split; [| intros _; right; left; by rewrite last_app]. split; rewrite ?Es; try done.
    unfold waits_of in *. by rewrite omap_app, app_nil_r.
Qed.

Lemma wh_inv_empty `{NetURL, UUIDLib} : wh_inv (mkWebhookDB ∅ ∅ [] []).
Proof.
  split; cbn [wh_endpoints wh_deliveries wh_jobs wh_wire]; try apply map_Forall_empty; [| constructor].
  intros i j Hj. by rewrite lookup_nil in Hj.
Qed.

(** C19: deliveries keep their promise under every interleaving of use-case calls,
    events and steps of the delivering goroutines, with any answers, cancelled
    waits and database failures.  A delivery sends at most three requests, the
    second after one second and the third after five; each goes to the URL of
    the endpoint and carries a signature that verifies with its secret; it goes
    on only after a refusal and stops only after an accepted request, the third
    one, or a cancelled wait.  No goroutine panics, every stored endpoint has a
    web URL and a secret of 16 bytes, and every log entry is complete. *)
Theorem webhook_deliveries `{Env, Pg, WebhookServer, NetURL, Network, UUIDLib, PayloadJSON} (cs : list Call) (w : World WebhookDB) :
  wh_inv (w_db w) -> let w' := run_calls cs w in
  wh_inv (w_db w') /\ (forall i, (run_job i w').1 = Ok tt)
  /\ forall i j, wh_jobs (w_db w') !! i = Some j -> let acts := wire_of i (w_db w') in
     orderly j acts /\ (j_done j = true -> length (sent_of acts) = 3%nat \/ last acts = Some Cancelled
                        \/ exists rq ans, last (sent_of acts) = Some (rq, ans) /\ accepted ans = true).
Proof.
  intros Hi w'. pose proof (webhook_session_inv cs w Hi) as Hi'. split; [done |]. split; [intros i; by apply run_job_inv |].
  intros i j Hj. by apply job_at_orderly, (wi_jobs _ Hi').
Qed.

(** what a goroutine does in steps, between which anything may happen, is
    what the loop of [deliverWithRetry] does when nothing does; and the loop
    ends: after at most six steps the goroutine is finished, and the tables, the
    network and the clock are where the loop leaves them. *)
Theorem delivery_loop `{Env, Pg, WebhookServer, NetURL, Network, UUIDLib} (i : nat) (ep : Endpoint) (ev : ID) (body : string) (w : World WebhookDB) :
  wh_jobs (w_db w) !! i = Some (new_job ev body ep) ->
  exists w' k j', deliverWithRetry i ep ev body w = (Ok tt, w') /\ (k <= 6)%nat /\ j_done j' = true
    /\ steps k i w = with_jobs (<[i := j']> (wh_jobs (w_db w))) w'.
Proof. intros Hj. exact (loop_steps 2 i ep ev body w ltac:(lia) Hj). Qed.

Lemma Publish_Start `{Env, Pg, WebhookServer, UUIDLib, PayloadJSON} ctx evt w : be_Type evt <> "*" ->
  (Publish (Start NewInMemoryBus) ["*"] ctx evt w).1 = Ok tt
  /\ w_db (Publish (Start NewInMemoryBus) ["*"] ctx evt w).2 = set_jobs (wh_jobs (w_db w) ++ dispatched evt w) (w_db w).
Proof.
  intros Ht. assert (targets (Start NewInMemoryBus) ["*"] (be_Type evt) = [webhook_handler]) as Et.
  { unfold targets, Start, Subscribe, NewInMemoryBus. rewrite lookup_insert_ne, lookup_empty by done.
    cbn [map concat]. change (wildcard_matches "*" (be_Type evt)) with true. cbv iota. by rewrite lookup_insert_eq, lookup_empty. }
  unfold Publish. rewrite Et. cbn [run_handlers]. unfold executeHandlerSafely, webhook_handler. destruct (dispatch_run evt w) as [E1 E2].
  unfold bind, attempt, ret. destruct (dispatchEvent evt w) as [r w1]. cbn [fst snd] in *. by subst r.
Qed.

(** C20: an event published on the bus of the dispatcher reaches its tenant's
    endpoints: one delivery is started for each endpoint that is stored, belongs
    to the tenant of the event and is active, none for others, each with the
    same body; publishing reports no error and changes nothing else. *)
Theorem published_event_dispatched `{Env, Pg, WebhookServer, NetURL, UUIDLib, PayloadJSON} (ctx : Ctx) (evt : BaseEvent) (body : string) (w : World WebhookDB) :
  wh_inv (w_db w) -> be_Type evt <> "*" -> be_Tenant evt <> NilID -> env_fault (w_tick w) = None -> json_payload (event_payload evt) = inl body ->
  let '(r, w') := Publish (Start NewInMemoryBus) ["*"] ctx evt w in
  r = Ok tt /\ exists eps, w_db w' = set_jobs (wh_jobs (w_db w) ++ map (new_job (be_ID evt) body) eps) (w_db w)
    /\ NoDup (map ep_ID eps)
    /\ forall ep, ep ∈ eps <-> (exists k, wh_endpoints (w_db w) !! k = Some ep) /\ ep_TenantID ep = be_Tenant evt /\ ep_IsActive ep = true.
Proof.
  intros Hi Ht Hn Hf Hj. destruct (Publish_Start ctx evt w Ht) as [E1 E2]. destruct (Publish _ _ _ _ _) as [r w']. cbn [fst snd] in *.
  split; [done |]. exists (active_endpoints (be_Tenant evt) (w_db w)). unfold dispatched in E2. rewrite decide_False, Hf, Hj in E2 by done.
  split_and!; [done | |].
  - unfold active_endpoints. change (map ep_ID ?l) with (ep_ID <$> l). rewrite merge_sort_Permutation. by apply NoDup_select_rows, (wi_keyed _ Hi).
  - intros ep. rewrite elem_of_active. naive_solver.
Qed.

(** A registration that nothing outside prevents succeeds exactly for a name, a
    web URL and a secret of 16 bytes; it stores the endpoint and hides the
    secret in its result. *)
Theorem RegisterEndpoint_exact `{Env, Pg, WebhookServer, NetURL} (cmd : RegisterEndpointInput) (id : ID) (w : World WebhookDB) :
  (forall n, env_fault n = None) -> (forall ep, endpoint_refused ep = None) -> re_TenantID cmd <> NilID ->
  env_id (w_tick w) = inl id -> id <> NilID -> wh_endpoints (w_db w) !! id = None ->
  if decide (validateEndpointInput (re_Name cmd) (re_URL cmd) (re_Secret cmd) = Ok tt)
  then TrimSpace (re_Name cmd) <> "" /\ web_url (TrimSpace (re_URL cmd)) /\ (16 <= String.length (re_Secret cmd))%nat
    /\ exists ep w', RegisterEndpoint cmd w = (Ok ep, w') /\ ep_Secret ep = ""
       /\ (ep_Secret <$> wh_endpoints (w_db w') !! id) = Some (re_Secret cmd)
  else ~ (TrimSpace (re_Name cmd) <> "" /\ web_url (TrimSpace (re_URL cmd)) /\ (16 <= String.length (re_Secret cmd))%nat)
    /\ exists e, RegisterEndpoint cmd w = (Err e, w) /\ Err e = validateEndpointInput (re_Name cmd) (re_URL cmd) (re_Secret cmd).
Proof.
  intros Hf Hr Ht Hid Hn Hfree. destruct (decide _) as [Ev|Ev].
  - pose proof Ev as Ev'. apply validate_Ok in Ev' as (? & ? & ?). split_and!; [done.. |]. unfold RegisterEndpoint.
    unfold bind at 1, lift_res. rewrite Ev. unfold wrap_err, CreateEndpoint, insert_into, bind, attempt, NewID, NowUTC, query, insert_row, ret.
    rewrite Hid. cbn [w_tick w_db tick]. rewrite Hf. rewrite bool_decide_eq_false_2 by (cbn; set_solver).
    cbn [lens_get Lens_wh_endpoints endpoint_row ep_ID]. rewrite Hfree. change (select_one (same_endpoint _) _) with (select_one (fun _ : Endpoint => false) (wh_endpoints (w_db w))).
    rewrite (proj2 (select_one_None _ _)) by done. rewrite Hr. do 2 eexists. split; [done |]. split; [done |].
    cbn [w_db lens_set Lens_wh_endpoints wh_endpoints endpoint_row ep_ID]. by rewrite lookup_insert_eq.
  - split; [by rewrite <- validate_Ok |]. unfold RegisterEndpoint, bind at 1, lift_res. destruct (validateEndpointInput _ _ _) as [[]|e|e] eqn:E; [done | eauto |].
    exfalso. unfold validateEndpointInput in E. repeat case_match; done.
Qed.

(** *** A run: the first request is refused, the second accepted *)

Module Demo.
Definition uuid : UUIDLib := {| uuid_Parse _ := None; uuid_String n := fmt_0wd 32 (Z.of_N n) |}.
Definition url : NetURL := {| parseHost _ h := Some h |}.
Definition network : Network :=
  {| http_Do n _ := if (n <? 10)%nat then inl (500, "try later") else inl (204, ""); ctx_done _ := false; url_error _ := ENew "parse" |}.
Definition server : WebhookServer := {| endpoint_refused _ := None; delivery_refused _ := None |}.
Definition json : PayloadJSON := {| json_payload p := inl (wp_EventType p) |}.
Definition env : Env := calm (mkTime (1750000000 * Second) 0) Second.
Definition event : BaseEvent := mkBaseEvent 77%N 5%N "document.created" "document" 9%N None zeroTime.
Definition endpoint : RegisterEndpointInput :=
  mkRegisterEndpointInput 5%N "CRM" " HTTPS://crm.example.com:8443/hook?x=1 " "0123456789abcdef".
Definition start : World WebhookDB := mkWorld (mkWebhookDB ∅ ∅ [] []) 0%nat.
#[local] Existing Instances uuid url network server json env.
#[local] Instance pg : Pg := pgx 0.

Definition registered : World WebhookDB := run_calls [CallRegister endpoint] start.
Definition running : World WebhookDB := run_calls [CallEvent event] registered.

Lemma registered_inv : wh_inv (w_db registered).
Proof. apply webhook_session_inv, wh_inv_empty. Qed.

Lemma webhook_deliveries_witness :
  let w' := run_calls (CallRegister endpoint :: CallEvent event :: repeat (JobRuns 0) 4) start in
  length (sent_of (wire_of 0 (w_db w'))) = 2%nat /\ waits_of (wire_of 0 (w_db w')) = [1 * Second]
  /\ map d_Status (select_rows (fun _ => true) (wh_deliveries (w_db w'))) = ["success"; "failed"]
  /\ (forall i, (run_job i w').1 = Ok tt)
  /\ exists j, wh_jobs (w_db w') !! 0%nat = Some j /\ orderly j (wire_of 0 (w_db w')).
Proof.
  intros w'. pose proof (webhook_deliveries (CallRegister endpoint :: CallEvent event :: repeat (JobRuns 0) 4) start wh_inv_empty) as (_ & Hp & Ho).
  split; [by vm_compute |]. split; [by vm_compute |]. split; [by vm_compute |]. split; [exact Hp |].
  destruct (wh_jobs (w_db w') !! 0%nat) as [j|] eqn:E; [| by vm_compute in E]. exists j. split; [done |]. by apply (Ho 0%nat j E).
Defined.

Lemma delivery_loop_witness : exists ep w' k j',
  deliverWithRetry 0 ep 77%N "document.created" running = (Ok tt, w') /\ (k <= 6)%nat /\ j_done j' = true
  /\ steps k 0 running = with_jobs [j'] w'.
Proof.
  eassert (wh_jobs (w_db running) = [new_job 77%N "document.created" _]) as E by by vm_compute.
  destruct (delivery_loop 0 _ 77%N "document.created" running (f_equal (fun l => l !! 0%nat) E)) as (w' & k & j' & H1 & H2 & H3 & H4).
  eexists _, w', k, j'. split; [exact H1 |]. split; [exact H2 |]. split; [exact H3 |]. rewrite H4, E. reflexivity.
Defined.

Lemma published_event_dispatched_witness :
  let '(r, w') := Publish (Start NewInMemoryBus) ["*"] Background event registered in
  r = Ok tt /\ exists eps, w_db w' = set_jobs (map (new_job 77%N "document.created") eps) (w_db registered) /\ NoDup (map ep_ID eps).
Proof.
  pose proof (published_event_dispatched Background event "document.created" registered registered_inv) as X.
  specialize (X ltac:(done) ltac:(done) ltac:(done) ltac:(done)). destruct (Publish _ _ _ _ _) as [r w'].
  destruct X as (Hr & eps & Hw & Hn & _). split; [exact Hr |]. exists eps. split; [exact Hw | exact Hn].
Defined.
End Demo.
