(* ===== verification/FieldValidator.v ===== *)
(** * Custom fields: definitions and the validator of dynamic values

    [internal/core/domain/customfield/field.go] and [validator.go], what it means
    for a dynamic value to have the type of a field, and the proof that the
    validator decides it. *)

From S2P Require Import Prelude GoStrings GoTime GoFloat Sdk.
#[local] Open Scope string_scope.
#[local] Open Scope list_scope.
#[local] Open Scope Z_scope.

(** ** Domain *)

Definition DataTypeText : string := "text".
Definition DataTypeNumber : string := "number".
Definition DataTypeBoolean : string := "boolean".
Definition DataTypeDate : string := "date".
Definition DataTypeSelect : string := "select".
Definition DataTypeMultiSelect : string := "multi_select".
Definition DataTypeJSON : string := "json".

Definition DataType_IsValid (d : string) : bool :=
  bool_decide (d ∈ [DataTypeText; DataTypeNumber; DataTypeBoolean; DataTypeDate; DataTypeSelect; DataTypeMultiSelect; DataTypeJSON]).

Definition EntityType_IsValid (e : string) : bool := bool_decide (e ∈ ["party"; "product"; "document"; "organization"]).

Record ValidationRules := mkValidationRules {
  vr_Min : option float64;
  vr_Max : option float64;
  vr_Regex : string;
}.

Record FieldDefinition := mkFieldDefinition {
  fd_ID : ID;
  fd_TenantID : ID;
  fd_EntityType : string;
  fd_Code : string;
  fd_Name : string;
  fd_Description : string;
  fd_DataType : string;
  fd_Options : list string;
  fd_IsRequired : bool;
  fd_DefaultValue : Any;
  fd_ValidationRules : ValidationRules;
  fd_SortOrder : Z;
  fd_IsActive : bool;
  fd_CreatedAt : Time;
  fd_UpdatedAt : Time;
}.

Record EntityCustomFields := mkEntityCustomFields {
  ef_ID : ID;
  ef_TenantID : ID;
  ef_EntityType : string;
  ef_EntityID : ID;
  ef_Values : gmap string Any;
  ef_CreatedAt : Time;
  ef_UpdatedAt : Time;
}.

(** ** The validator *)

(** [regexp.MatchString] ([None] when the pattern does not compile) and the verb
    [%v] of a floating-point number. *)
Class TextLib := {
  regexp_MatchString : string -> string -> option bool;
  fmt_float : float64 -> string;
}.

Definition two_digits (s : string) : option (Z * string) :=
  match s with
  | String a (String b s') => if is_digit a && is_digit b then Some (10 * digit_val a + digit_val b, s') else None
  | _ => None
  end.

Definition skip_dash (s : string) : option string :=
  match s with String c s' => if Ascii.eqb c "-" then Some s' else None | "" => None end.

Definition is_leap (y : Z) : bool := (y mod 4 =? 0) && (negb (y mod 100 =? 0) || (y mod 400 =? 0)).
Definition days_in (m y : Z) : Z :=
  if m =? 2 then if is_leap y then 29 else 28
  else if bool_decide (m ∈ [4; 6; 9; 11]) then 30 else 31.

(** [time.Parse(time.DateOnly, s)]: the date it reads. *)
Definition Parse_DateOnly (s : string) : option (Z * Z * Z) :=
  '(y1, s) ← two_digits s;
  '(y2, s) ← two_digits s;
  s ← skip_dash s;
  '(m, s) ← two_digits s;
  s ← (if (m <=? 0) || (12 <? m) then None else skip_dash s);
  '(d, s) ← two_digits s;
  let y := 100 * y1 + y2 in
  if negb (String.eqb s "") then None
  else if (d <? 1) || (days_in m y <? d) then None
  else Some (y, m, d).

Definition toFloat64 (v : Any) : option float64 :=
  match v with
  | AFloat64 x => Some x
  | AFloat32 x => Some x
  | AInt n | AInt64 n | AInt32 n => Some (of_Z n)
  | _ => None
  end.

Definition containsOption (options : list string) (target : string) : bool := existsb (String.eqb target) options.

Definition field_error {A} (code msg : string) : res A := Err (Errorf ErrInvalidInput ("field '" +:+ code +:+ "' " +:+ msg)).

(** [%v] of a slice of strings. *)
Definition fmt_strings (l : list string) : string := "[" +:+ String.concat " " l +:+ "]".

Definition not_allowed {A} (code what s : string) (options : list string) : res A :=
  field_error code (what +:+ " '" +:+ s +:+ "' is not in allowed options: " +:+ fmt_strings options).

(** The loops over a multi-select value. *)
Fixpoint check_options (code : string) (options l : list string) : res unit :=
  match l with
  | [] => Ok tt
  | s :: l' => if containsOption options s then check_options code options l' else not_allowed code "option" s options
  end.

Fixpoint string_options (code : string) (options : list string) (l : list Any) : res (list string) :=
  match l with
  | [] => Ok []
  | AString s :: l' =>
      if containsOption options s
      then let? r := string_options code options l' in Ok (s :: r)
      else not_allowed code "option" s options
  | _ :: _ => field_error code "items must be strings"
  end.

Section Validator.
  Context `{TextLib}.

Definition validateField (def : FieldDefinition) (val : Any) : res Any :=
  let code := fd_Code def in
  let rules := fd_ValidationRules def in
  let dt := fd_DataType def in
  if String.eqb dt DataTypeText then
    match val with
    | AString str =>
        if String.eqb (vr_Regex rules) "" then Ok (AString str)
        else match regexp_MatchString (vr_Regex rules) str with
             | Some true => Ok (AString str)
             | _ => field_error code "value does not match required format"
             end
    | _ => field_error code "must be a string"
    end
  else if String.eqb dt DataTypeNumber then
    match toFloat64 val with
    | None => field_error code "must be a number"
    | Some num =>
        match vr_Min rules, vr_Max rules with
        | Some lo, hi =>
            if flt num lo then field_error code ("value " +:+ fmt_float num +:+ " is less than minimum " +:+ fmt_float lo)
            else match hi with
                 | Some hi => if fgt num hi then field_error code ("value " +:+ fmt_float num +:+ " exceeds maximum " +:+ fmt_float hi) else Ok (AFloat64 num)
                 | None => Ok (AFloat64 num)
                 end
        | None, Some hi => if fgt num hi then field_error code ("value " +:+ fmt_float num +:+ " exceeds maximum " +:+ fmt_float hi) else Ok (AFloat64 num)
        | None, None => Ok (AFloat64 num)
        end
    end
  else if String.eqb dt DataTypeBoolean then
    match val with ABool b => Ok (ABool b) | _ => field_error code "must be a boolean" end
  else if String.eqb dt DataTypeDate then
    match val with
    | AString str =>
        match Parse_DateOnly str with
        | Some _ => Ok (AString str)
        | None => field_error code "must be in YYYY-MM-DD date format"
        end
    | _ => field_error code "must be a date string (YYYY-MM-DD)"
    end
  else if String.eqb dt DataTypeSelect then
    match val with
    | AString str =>
        if containsOption (fd_Options def) str then Ok (AString str) else not_allowed code "value" str (fd_Options def)
    | _ => field_error code "must be a string option"
    end
  else if String.eqb dt DataTypeMultiSelect then
    match val with
    | AList rawList => let? result := string_options code (fd_Options def) rawList in Ok (AStrings result)
    | AStrings strList => let? _ := check_options code (fd_Options def) strList in Ok (AStrings strList)
    | _ => field_error code "must be an array of string options"
    end
  else Ok val.

(** [val, exists := rawValues[code]], a missing and a nil value alike. *)
Definition given (raw : gmap string Any) (code : string) : option Any :=
  match raw !! code with None | Some ANil => None | Some v => Some v end.

Definition is_nil_any (v : Any) : bool := match v with ANil => true | _ => false end.

Definition required_error {A} (def : FieldDefinition) : res A :=
  Err (Errorf ErrInvalidInput ("field '" +:+ fd_Code def +:+ "' (" +:+ fd_Name def +:+ ") is required")).

(** The loop over the definitions. *)
Fixpoint validate_all (defs : list FieldDefinition) (raw sanitized : gmap string Any) : res (gmap string Any) :=
  match defs with
  | [] => Ok sanitized
  | def :: defs' =>
      if negb (fd_IsActive def) then validate_all defs' raw sanitized
      else match given raw (fd_Code def) with
           | None =>
               if is_nil_any (fd_DefaultValue def)
               then if fd_IsRequired def then required_error def else validate_all defs' raw sanitized
               else validate_all defs' raw (<[fd_Code def := fd_DefaultValue def]> sanitized)
           | Some val =>
               let? validatedVal := validateField def val in
               validate_all defs' raw (<[fd_Code def := validatedVal]> sanitized)
           end
  end.

Definition ValidateValues (definitions : list FieldDefinition) (rawValues : AnyMap) : res (gmap string Any) :=
  validate_all definitions (default ∅ rawValues) ∅.
End Validator.

(** ** What a value of a field is *)

(** A date of the calendar, written with four, two and two digits. *)
Definition calendar_date (s : string) : Prop :=
  exists y m d, 0 <= y <= 9999 /\ 1 <= m <= 12 /\ 1 <= d <= days_in m y
    /\ s = fmt_0wd 4 y +:+ "-" +:+ fmt_0wd 2 m +:+ "-" +:+ fmt_0wd 2 d.

Definition has_type `{TextLib} (def : FieldDefinition) (v : Any) : Prop :=
  let dt := fd_DataType def in
  (dt = DataTypeText -> exists s, v = AString s
     /\ (vr_Regex (fd_ValidationRules def) = "" \/ regexp_MatchString (vr_Regex (fd_ValidationRules def)) s = Some true))
  /\ (dt = DataTypeNumber -> exists x, v = AFloat64 x
     /\ (forall lo, vr_Min (fd_ValidationRules def) = Some lo -> flt x lo = false)
     /\ (forall hi, vr_Max (fd_ValidationRules def) = Some hi -> flt hi x = false))
  /\ (dt = DataTypeBoolean -> exists b, v = ABool b)
  /\ (dt = DataTypeDate -> exists s, v = AString s /\ calendar_date s)
  /\ (dt = DataTypeSelect -> exists s, v = AString s /\ s ∈ fd_Options def)
  /\ (dt = DataTypeMultiSelect -> exists l, v = AStrings l /\ l ⊆ fd_Options def).

(** What the validator may change: numbers become [float64], lists of strings
    become [[]string]. *)
Definition coerced (dt : string) (x v : Any) : Prop :=
  if String.eqb dt DataTypeNumber then exists n, toFloat64 x = Some n /\ v = AFloat64 n
  else if String.eqb dt DataTypeMultiSelect then exists l, v = AStrings l /\ (x = AStrings l \/ x = AList (map AString l))
  else v = x.

(** ** Dates *)

Lemma below_range (P : Z -> bool) (n : nat) : forallb (fun i => P (Z.of_nat i)) (seq 0 n) = true ->
  forall z, 0 <= z < Z.of_nat n -> P z = true.
Proof.
  intros HP z Hz. rewrite forallb_forall in HP. specialize (HP (Z.to_nat z)). rewrite Z2Nat.id in HP by lia.
  apply HP, in_seq. lia.
Qed.

Lemma fmt_two_digits z : 0 <= z < 100 -> fmt_0wd 2 z = String (digit (z / 10)) (String (digit (z mod 10)) "").
Proof.
  intros Hz. apply String.eqb_eq.
  apply (below_range (fun z => String.eqb (fmt_0wd 2 z) (String (digit (z / 10)) (String (digit (z mod 10)) ""))) 100); [by vm_compute | done].
Qed.

Lemma digit_of_val c : is_digit c = true -> 0 <= digit_val c < 10 /\ digit (digit_val c) = c.
Proof.
  unfold is_digit, digit_val, digit. rewrite andb_true_iff, !N.leb_le. intros Hc. split; [lia |].
  replace (48 + Z.to_N (Z.of_N (byte_of c) - 48))%N with (byte_of c) by lia. apply ascii_N_embedding.
Qed.

(** Numerals of the same length and value are the same. *)
Lemma digits_val_inj s t : all_chars is_digit s = true -> all_chars is_digit t = true ->
  String.length s = String.length t -> digits_val 0 s = digits_val 0 t -> s = t.
Proof.
  revert t. induction s as [|c s IH]; intros [|d t] Hs Ht Hl Hv; [done.. |]. cbn in Hl. injection Hl as Hl.
  cbn [all_chars] in Hs, Ht. apply andb_true_iff in Hs as [Hc Hs], Ht as [Hd Ht]. cbn [digits_val] in Hv.
  apply digit_of_val in Hc as [Hc Ec], Hd as [Hd Ed].
  rewrite (digits_val_shift _ s), (digits_val_shift _ t), Hl in Hv.
  assert (forall u, all_chars is_digit u = true -> 0 <= digits_val 0 u < 10 ^ Z.of_nat (String.length u)) as Hb.
  { clear. induction u as [|e u IHu]; [done |]. cbn [all_chars digits_val String.length]. rewrite andb_true_iff. intros [[He _]%digit_of_val Hu].
    rewrite digits_val_shift, Nat2Z.inj_succ, Z.pow_succ_r by lia. specialize (IHu Hu). nia. }
  pose proof (Hb s Hs) as Bs. pose proof (Hb t Ht) as Bt. rewrite Hl in Bs.
  assert (digit_val c = digit_val d) as E by nia. rewrite E in Hv. f_equal; [congruence |]. apply IH; try done. lia.
Qed.

Lemma dec_fuel_length fuel z acc k : 0 <= z < 10 ^ Z.of_nat (S k) ->
  (String.length (dec_fuel fuel z acc) <= S k + String.length acc)%nat.
Proof.
  revert z acc k. induction fuel as [|fuel IH]; intros z acc k Hz; cbn [dec_fuel]; [lia |].
  destruct (Z.eqb_spec (z / 10) 0) as [E|E]; [cbn; lia |]. destruct k as [|k].
  { exfalso. apply E. apply Z.div_small. cbn in Hz. lia. }
  rewrite Nat2Z.inj_succ, Z.pow_succ_r in Hz by lia. etrans; [apply (IH _ _ k) |]; [| cbn; lia].
  split; [apply Z.div_pos | apply Z.div_lt_upper_bound]; lia.
Qed.

Lemma length_zeros n : String.length (zeros n) = n.
Proof. induction n as [|n IH]; [done |]. cbn. by rewrite IH. Qed.

Lemma fmt_four_digits y : 0 <= y < 10000 -> fmt_0wd 4 y = fmt_0wd 2 (y / 100) +:+ fmt_0wd 2 (y mod 100).
Proof.
  intros Hy. assert (0 <= y / 100 < 100) as Ha by zdiv_lia. assert (0 <= y mod 100 < 100) as Hb by zdiv_lia.
  assert (String.length (fmt_0wd 2 (y mod 100)) = 2%nat) as Hl2 by by rewrite fmt_two_digits.
  apply digits_val_inj.
  - apply fmt_0wd_digits; lia.
  - by rewrite all_chars_append, !fmt_0wd_digits by lia.
  - rewrite length_append, Hl2, fmt_two_digits by done. unfold fmt_0wd, zpad. change (1000000 <? 4 / 10) with false. cbv iota.
    rewrite (proj2 (Z.ltb_ge y 0)) by lia. rewrite length_append, length_zeros.
    pose proof (dec_fuel_length (S (Z.to_nat (Z.log2 y))) y "" 3 ltac:(cbn; lia)). unfold dec in *. cbn [String.length] in *. lia.
  - rewrite (fmt_two_digits (y / 100)) by done. cbn [String.append digits_val]. rewrite (digits_val_shift (_ * 10 + _)), Hl2.
    destruct (digit_val_digit (y / 100 / 10)) as [-> _]; [zdiv_lia |]. destruct (digit_val_digit ((y / 100) mod 10)) as [-> _]; [zdiv_lia |].
    rewrite !fmt_0wd_val by lia. cbn [Z.of_nat Pos.of_succ_nat Pos.succ]. zdiv_lia.
Qed.

Lemma two_digits_spec s n t : two_digits s = Some (n, t) <-> 0 <= n < 100 /\ s = fmt_0wd 2 n +:+ t.
Proof.
  split.
  - destruct s as [|a [|b s]]; cbn [two_digits]; [done.. |]. destruct (is_digit a && is_digit b) eqn:E; [| done].
    apply andb_true_iff in E as [[Ha Ea]%digit_of_val [Hb Eb]%digit_of_val]. intros [= <- <-]. split; [lia |].
    rewrite fmt_two_digits by lia. assert ((10 * digit_val a + digit_val b) / 10 = digit_val a) as -> by zdiv_lia.
    assert ((10 * digit_val a + digit_val b) mod 10 = digit_val b) as -> by zdiv_lia. by rewrite Ea, Eb.
  - intros [Hn ->]. rewrite fmt_two_digits by done. cbn [String.append two_digits].
    destruct (digit_val_digit (n / 10)) as [-> ->]; [zdiv_lia |]. destruct (digit_val_digit (n mod 10)) as [-> ->]; [zdiv_lia |].
    cbn [andb]. f_equal. f_equal. zdiv_lia.
Qed.

Lemma skip_dash_spec s t : skip_dash s = Some t <-> s = "-" +:+ t.
Proof.
  destruct s as [|c s]; cbn [skip_dash String.append]; [done |]. destruct (Ascii.eqb_spec c "-") as [->|Hn]; split; congruence.
Qed.

(** [time.Parse] accepts exactly the dates of the calendar. *)
Lemma Parse_DateOnly_iff s : is_Some (Parse_DateOnly s) <-> calendar_date s.
Proof.
  unfold Parse_DateOnly. split.
  - intros [r E]. apply bind_Some in E as ([y1 s1] & [Hy1 ->]%two_digits_spec & E). apply bind_Some in E as ([y2 s2] & [Hy2 ->]%two_digits_spec & E).
    apply bind_Some in E as (s3 & ->%skip_dash_spec & E). apply bind_Some in E as ([m s4] & [Hm ->]%two_digits_spec & E).
    apply bind_Some in E as (s5 & Es & E). destruct ((m <=? 0) || (12 <? m)) eqn:Em; [done |]. apply skip_dash_spec in Es as ->.
    apply bind_Some in E as ([d s6] & [Hd ->]%two_digits_spec & E). destruct (String.eqb_spec s6 "") as [->|]; [| done]. cbn [negb] in E.
    destruct ((d <? 1) || (days_in m (100 * y1 + y2) <? d)) eqn:Ed; [done |].
    apply orb_false_iff in Em as [?%Z.leb_gt ?%Z.ltb_ge], Ed as [?%Z.ltb_ge ?%Z.ltb_ge].
    exists (100 * y1 + y2), m, d. split_and!; try lia. rewrite fmt_four_digits by lia.
    replace ((100 * y1 + y2) / 100) with y1 by zdiv_lia. replace ((100 * y1 + y2) mod 100) with y2 by zdiv_lia.
    by rewrite !append_assoc, append_nil_r.
  - intros (y & m & d & Hy & Hm & Hd & ->). rewrite fmt_four_digits by lia. rewrite append_assoc.
    assert (days_in m y <= 31) as Hmax by (unfold days_in; repeat case_match; lia).
    rewrite (proj2 (two_digits_spec _ (y / 100) _)) by (split; [zdiv_lia | done]). cbn [mbind option_bind].
    rewrite (proj2 (two_digits_spec _ (y mod 100) _)) by (split; [zdiv_lia | done]). cbn [mbind option_bind].
    rewrite (proj2 (skip_dash_spec _ _)) by done. cbn [mbind option_bind].
    rewrite (proj2 (two_digits_spec _ m _)) by (split; [lia | done]). cbn [mbind option_bind].
    rewrite (proj2 (Z.leb_gt m 0)), (proj2 (Z.ltb_ge 12 m)) by lia. cbn [orb].
    rewrite (proj2 (skip_dash_spec _ _)) by done. cbn [mbind option_bind].
    rewrite (proj2 (two_digits_spec _ d "")) by (split; [lia | by rewrite append_nil_r]). cbn [mbind option_bind String.eqb negb].
    replace (100 * (y / 100) + y mod 100) with y by zdiv_lia.
    rewrite (proj2 (Z.ltb_ge d 1)), (proj2 (Z.ltb_ge (days_in m y) d)) by lia. by eexists.
Qed.

(** ** The validator is exact *)

Section Exact.
  Context `{TextLib}.

Lemma containsOption_iff options s : containsOption options s = true <-> s ∈ options.
Proof. unfold containsOption. rewrite existsb_exists. setoid_rewrite String.eqb_eq. rewrite list_elem_of_In. naive_solver. Qed.

Lemma check_options_iff code options l : check_options code options l = Ok tt <-> l ⊆ options.
Proof.
  induction l as [|s l IH]; cbn [check_options]; [split; [intros _; set_solver | done] |].
  destruct (containsOption options s) eqn:E.
  - apply containsOption_iff in E. rewrite IH. set_solver.
  - split; [done |]. intros Hs. assert (containsOption options s = true) by (apply containsOption_iff; set_solver). congruence.
Qed.

Lemma string_options_iff code options l r : string_options code options l = Ok r <-> l = map AString r /\ r ⊆ options.
Proof.
  revert r. induction l as [|x l IH]; intros r; cbn [string_options].
  - split; [intros [= <-]; split; [done | set_solver] | intros [E _]; by destruct r].
  - destruct x; try (split; [done | intros [E _]; destruct r; simplify_eq/=]). destruct (containsOption options s) eqn:Es.
    + apply containsOption_iff in Es. unfold res_bind. destruct (string_options code options l) as [r'|e|e] eqn:E.
      * destruct (proj1 (IH r') eq_refl) as [-> Hr]. split; [intros [= <-]; split; [done | set_solver] |].
        intros [E' Hr']. destruct r as [|s' r]; simplify_eq/=. assert (Ok r' = Ok r) as [= ->] by (apply IH; set_solver). done.
      * split; [done |]. intros [E' Hr']. destruct r as [|s' r]; simplify_eq/=. 
        by discriminate (proj2 (IH r) ltac:(set_solver)).
      * split; [done |]. intros [E' Hr']. destruct r as [|s' r]; simplify_eq/=. 
        by discriminate (proj2 (IH r) ltac:(set_solver)).
    + split; [done |]. intros [E' Hr']. destruct r as [|s' r]; simplify_eq/=.
      assert (containsOption options s' = true) by (apply containsOption_iff; set_solver). congruence.
Qed.

(** The bounds of a number field. *)
Definition in_bounds (rules : ValidationRules) (x : float64) : Prop :=
  (forall lo, vr_Min rules = Some lo -> flt x lo = false) /\ (forall hi, vr_Max rules = Some hi -> flt hi x = false).

Lemma number_iff def val v : fd_DataType def = DataTypeNumber -> validateField def val = Ok v <->
  exists n, toFloat64 val = Some n /\ v = AFloat64 n /\ in_bounds (fd_ValidationRules def) n.
Proof.
  intros Hd. unfold validateField, in_bounds, fgt. rewrite Hd. cbn [String.eqb Ascii.eqb Bool.eqb DataTypeNumber DataTypeText].
  change (flt ?a ?b) with (SFltb a b).
  destruct (toFloat64 val) as [n|]; [| split; [done | by intros (n & ? & _)]].
  destruct (vr_Min _) as [lo|], (vr_Max _) as [hi|]; cbn zeta iota;
    repeat match goal with |- context [if SFltb ?a ?b then _ else _] => destruct (SFltb a b) eqn:? end;
    (split; [intros X; simplify_eq; exists n; split_and!; try done; intros ? [= <-]; done
            | intros (n' & [= <-] & -> & Hlo & Hhi); try done]).
  all: exfalso; first [specialize (Hlo _ eq_refl); congruence | specialize (Hhi _ eq_refl); congruence].
Qed.

(** One value: accepted exactly when it can be given the type of the field. *)
Lemma validateField_iff def val v : validateField def val = Ok v <-> coerced (fd_DataType def) val v /\ has_type def v.
Proof.
  unfold coerced, has_type. cbn zeta.
  destruct (decide (fd_DataType def = DataTypeNumber)) as [Hn|Hn].
  { rewrite number_iff, Hn by done. unfold in_bounds. cbn. naive_solver. }
  destruct (decide (fd_DataType def = DataTypeMultiSelect)) as [Hm|Hm].
  { unfold validateField. rewrite Hm. cbn -[string_options check_options]. unfold res_bind. split.
    - destruct val; try done.
      + destruct (check_options _ _ _) as [[]| |] eqn:E; [| done | done]. apply check_options_iff in E. intros [= <-]. naive_solver.
      + destruct (string_options _ _ _) as [r| |] eqn:E; [| done | done]. apply string_options_iff in E as [-> Hr]. intros [= <-]. naive_solver.
    - intros ((r & -> & [-> | ->]) & _ & _ & _ & _ & _ & Ho); destruct (Ho eq_refl) as (? & [= <-] & Hr).
      + by rewrite (proj2 (check_options_iff _ _ _) Hr).
      + by rewrite (proj2 (string_options_iff _ _ _ r) (conj eq_refl Hr)). }
  rewrite (proj2 (String.eqb_neq _ _) Hn), (proj2 (String.eqb_neq _ _) Hm). unfold validateField.
  rewrite (proj2 (String.eqb_neq _ _) Hn), (proj2 (String.eqb_neq _ _) Hm).
  destruct (String.eqb_spec (fd_DataType def) DataTypeText) as [->|Ht];
    [| destruct (String.eqb_spec (fd_DataType def) DataTypeBoolean) as [->|Hb];
    [| destruct (String.eqb_spec (fd_DataType def) DataTypeDate) as [->|Hd];
    [| destruct (String.eqb_spec (fd_DataType def) DataTypeSelect) as [->|Hs]]]].
  - destruct (String.eqb_spec (vr_Regex (fd_ValidationRules def)) "") as [E|E].
    + destruct val; naive_solver.
    + destruct val; try naive_solver. destruct (regexp_MatchString _ _) as [[]|] eqn:Er; naive_solver.
  - destruct val; naive_solver.
  - setoid_rewrite <- Parse_DateOnly_iff. destruct val; try naive_solver. destruct (Parse_DateOnly s) eqn:Ep; [naive_solver |].
    split; [done |]. intros (-> & _ & _ & _ & Hx & _). destruct (Hx eq_refl) as (? & [= <-] & [? ?]). congruence.
  - setoid_rewrite <- containsOption_iff. destruct val; try naive_solver. destruct (containsOption _ s) eqn:Ec; [naive_solver |].
    split; [done |]. intros (-> & _ & _ & _ & _ & Hx & _). destruct (Hx eq_refl) as (? & [= <-] & ?). congruence.
  - naive_solver.
Qed.

(** The value a definition contributes, and whether it has one to accept. *)
Definition field_value (raw : gmap string Any) (def : FieldDefinition) (v : Any) : Prop :=
  match given raw (fd_Code def) with
  | Some x => coerced (fd_DataType def) x v /\ has_type def v
  | None => v = fd_DefaultValue def /\ v <> ANil
  end.

Definition admissible (raw : gmap string Any) (def : FieldDefinition) : Prop :=
  match given raw (fd_Code def) with
  | Some x => exists v, coerced (fd_DataType def) x v /\ has_type def v
  | None => fd_IsRequired def = true -> fd_DefaultValue def <> ANil
  end.

Definition active_codes (defs : list FieldDefinition) : list string := map fd_Code (List.filter fd_IsActive defs).

Definition invalid_input {A} (r : res A) : Prop := exists e, r = Err e /\ errors_Is e ErrInvalidInput = true.

Lemma is_nil_any_spec v : if is_nil_any v then v = ANil else v <> ANil.
Proof. by destruct v. Qed.

(** The validator accepts or refuses the input; it has no other outcome. *)
Definition decides {A} (r : res A) : Prop := (exists a, r = Ok a) \/ invalid_input r.

Lemma decides_Ok {A} (a : A) : decides (Ok a).
Proof. left. eauto. Qed.
Lemma decides_field_error {A} code msg : decides (A := A) (field_error code msg).
Proof. right. eexists. split; [done |]. apply errors_Is_Errorf. Qed.
Lemma decides_bind {A B} (r : res A) (k : A -> res B) : decides r -> (forall a, decides (k a)) -> decides (res_bind r k).
Proof. intros [[a ->]|(e & -> & He)] Hk; [apply Hk |]. right. by exists e. Qed.
Hint Resolve decides_Ok decides_field_error decides_bind : go_run.

Lemma decides_check code options l : decides (check_options code options l).
Proof. induction l as [|s l IH]; cbn; unfold not_allowed; [auto with go_run |]. destruct (containsOption _ _); auto with go_run. Qed.
Lemma decides_strings code options l : decides (string_options code options l).
Proof.
  induction l as [|x l IH]; cbn; unfold not_allowed; [auto with go_run |]. destruct x; try apply decides_field_error.
  destruct (containsOption _ _); auto with go_run.
Qed.
Hint Resolve decides_check decides_strings : go_run.

Lemma decides_validateField def val : decides (validateField def val).
Proof. unfold validateField, not_allowed. repeat (case_match; auto with go_run). Qed.

(** A definition at the head of the list: refused, without a value, or with one. *)
Lemma field_cases raw def : fd_IsActive def = true ->
  (~ admissible raw def /\ forall defs acc, invalid_input (validate_all (def :: defs) raw acc))
  \/ (admissible raw def /\ (forall v, ~ field_value raw def v) /\ forall defs acc, validate_all (def :: defs) raw acc = validate_all defs raw acc)
  \/ exists v, admissible raw def /\ (forall v', field_value raw def v' <-> v' = v)
       /\ forall defs acc, validate_all (def :: defs) raw acc = validate_all defs raw (<[fd_Code def := v]> acc).
Proof.
  intros Ha. unfold admissible, field_value. cbn [validate_all]. rewrite Ha. cbn [negb].
  destruct (given raw (fd_Code def)) as [x|].
  - setoid_rewrite <- validateField_iff. destruct (decides_validateField def x) as [[v E]|(e & E & He)]; rewrite E.
    + right. right. exists v. split_and!; [eauto | intros v'; split; congruence | done].
    + left. split; [by intros [? ?] |]. intros defs acc. by exists e.
  - pose proof (is_nil_any_spec (fd_DefaultValue def)) as Hn. destruct (is_nil_any _).
    + destruct (fd_IsRequired def).
      * left. split; [auto |]. intros defs acc. eexists. split; [done |]. apply errors_Is_Errorf.
      * right. left. split_and!; [done | intros v [-> ?]; done | done].
    + right. right. exists (fd_DefaultValue def). split_and!; [done | naive_solver | done].
Qed.

Definition contributes (raw : gmap string Any) (defs : list FieldDefinition) (code : string) (v : Any) : Prop :=
  exists def, def ∈ defs /\ fd_IsActive def = true /\ fd_Code def = code /\ field_value raw def v.

Definition all_admissible (raw : gmap string Any) (defs : list FieldDefinition) : Prop :=
  forall def, def ∈ defs -> fd_IsActive def = true -> admissible raw def.

Lemma contributes_cons raw def defs code v : contributes raw (def :: defs) code v <->
  fd_IsActive def = true /\ fd_Code def = code /\ field_value raw def v \/ contributes raw defs code v.
Proof.
  unfold contributes. split.
  - intros (d & [->|Hd]%elem_of_cons & Ha & Hc & Hv); [by left |]. right. by exists d.
  - intros [(Ha & Hc & Hv)|(d & Hd & Ha & Hc & Hv)]; [exists def | exists d]; split_and!; try done; [by left | by right].
Qed.

Lemma all_admissible_cons raw def defs : all_admissible raw (def :: defs) <->
  (fd_IsActive def = true -> admissible raw def) /\ all_admissible raw defs.
Proof.
  unfold all_admissible. split.
  - intros Hall. split; [apply Hall; by left |]. intros d Hd. apply Hall. by right.
  - intros [Hh Ht] d [->|Hd]%elem_of_cons; auto.
Qed.

Lemma validate_all_cases defs raw acc : NoDup (active_codes defs) ->
  (invalid_input (validate_all defs raw acc) /\ ~ all_admissible raw defs)
  \/ exists out, validate_all defs raw acc = Ok out /\ all_admissible raw defs
      /\ forall code v, out !! code = Some v <->
           contributes raw defs code v \/ acc !! code = Some v /\ forall u, ~ contributes raw defs code u.
Proof.
  revert acc. induction defs as [|def defs IH]; intros acc Hnd.
  { right. exists acc. assert (forall code u, ~ contributes raw [] code u) as Hno by (intros code u (d & Hd & _); by apply not_elem_of_nil in Hd).
    split_and!; [done | intros d Hd; by apply not_elem_of_nil in Hd |]. intros code v. split; [right; split; [done | apply Hno] | intros [X|[? _]]; [by apply Hno in X | done]]. }
  setoid_rewrite contributes_cons. setoid_rewrite all_admissible_cons.
  unfold active_codes in Hnd. cbn [List.filter] in Hnd. destruct (fd_IsActive def) eqn:Ea.
  2: { cbn [validate_all]. rewrite Ea. cbn [negb]. destruct (IH acc Hnd) as [(Hi & Hn)|(out & E & Ht & Ho)].
       - left. split; [done |]. by intros [_ ?].
       - right. exists out. split; [done |]. split; [by split |]. intros code v. rewrite Ho. naive_solver. }
  cbn [map] in Hnd. apply NoDup_cons in Hnd as [Hnot Hnd].
  assert (forall u, ~ contributes raw defs (fd_Code def) u) as Hne.
  { intros u (d & Hd & Hda & E & _). apply Hnot. rewrite <- E. apply list_elem_of_In, in_map, filter_In. by rewrite <- list_elem_of_In. }
  destruct (field_cases raw def Ea) as [[Hr Hf]|[(Hadm & Hv & Hf)|(u & Hadm & Hv & Hf)]].
  - left. split; [apply Hf |]. naive_solver.
  - rewrite Hf. destruct (IH acc Hnd) as [(Hi & Hn)|(out & E & Ht & Ho)]; [left; split; [done | naive_solver] |].
    right. exists out. split; [done |]. split; [by split |]. intros code v. rewrite Ho. naive_solver.
  - rewrite Hf. destruct (IH (<[fd_Code def := u]> acc) Hnd) as [(Hi & Hn)|(out & E & Ht & Ho)]; [left; split; [done | naive_solver] |].
    right. exists out. split; [done |]. split; [by split |]. intros code v. rewrite Ho, lookup_insert_Some.
    destruct (decide (fd_Code def = code)) as [<-|Hc]; [| naive_solver].
    split; [intros [X|[[[_ <-]|[? _]] _]]; [by apply Hne in X | left; left; split_and!; try done; by apply Hv | done] |].
    intros [[(_ & _ & X%Hv)|X]|[_ X]]; [subst v; right; split; [by left | done] | by apply Hne in X |].
    exfalso. apply (X u). left. split_and!; try done. by apply Hv.
Qed.

Lemma ValidateValues_contributes defs values out : NoDup (active_codes defs) -> ValidateValues defs values = Ok out ->
  forall code v, out !! code = Some v <-> contributes (default ∅ values) defs code v.
Proof.
  intros Hnd E code v. unfold ValidateValues in E.
  destruct (validate_all_cases defs (default ∅ values) ∅ Hnd) as [[(e & E' & _) _]|(out' & E' & _ & Ho)]; rewrite E in E'; [done |].
  injection E' as <-. rewrite Ho, lookup_empty. naive_solver.
Qed.
End Exact.

(** ** Properties *)

(** C21: the validator decides the types of custom fields.  For definitions with
    distinct codes it accepts exactly the inputs in which every active field has
    a value of its type (text that matches, a number in its bounds, a boolean, a
    day of the calendar, options that are offered) or, left out, is optional or
    has a default; every refusal is the invalid-input error.  The result has
    exactly the codes of active fields: the given value, converted only from
    other number types and lists, or the default; keys without a definition are
    dropped.  The types are those of the code: an empty text is a text, also for a
    required field, and every JSON value is of type json, where docs/custom-fields.md
    asks for a non-empty text and for an object or an array ([FieldDemo.docs_gap]). *)
Theorem ValidateValues_exact `{TextLib} (defs : list FieldDefinition) (values : AnyMap) :
  NoDup (active_codes defs) -> let raw := default ∅ values in
  ((exists out, ValidateValues defs values = Ok out) <-> all_admissible raw defs)
  /\ (~ all_admissible raw defs -> invalid_input (ValidateValues defs values))
  /\ forall out, ValidateValues defs values = Ok out ->
       forall code v, out !! code = Some v <-> contributes raw defs code v.
Proof.
  intros Hnd raw. unfold ValidateValues. fold raw.
  destruct (validate_all_cases defs raw ∅ Hnd) as [[(e & E & He) Hn]|(out & E & Hall & Ho)]; rewrite E.
  - split_and!; [split; [by intros [? ?] | done] | intros _; by exists e | done].
  - split_and!; [split; eauto | done |]. intros out' E'. apply ValidateValues_contributes; [done |]. unfold ValidateValues. by rewrite <- E'.
Qed.

Module FieldDemo.
Definition text : TextLib := {| regexp_MatchString p s := Some (HasPrefix s p); fmt_float _ := "0" |}.
#[local] Existing Instance text.
Definition rules : ValidationRules := mkValidationRules (Some (of_Z 0)) (Some (of_Z 100)) "SKU-".
Definition field (code dt : string) (options : list string) (required active : bool) (dflt : Any) : FieldDefinition :=
  mkFieldDefinition 1%N 2%N "product" code code "" dt options required dflt rules 0 active zeroTime zeroTime.
Definition fields : list FieldDefinition :=
  [field "sku" "text" [] true true ANil; field "weight" "number" [] false true ANil; field "since" "date" [] false true ANil;
   field "tags" "multi_select" ["new"; "sale"] false true (AStrings ["new"]); field "old" "boolean" [] true false ANil].
Definition good : AnyMap := Some {[ "sku" := AString "SKU-7"; "weight" := AInt 12; "since" := AString "2024-02-29"; "x" := ABool true ]}.
Definition bad : AnyMap := Some {[ "sku" := AString "SKU-7"; "since" := AString "2023-02-29" ]}.

Lemma ValidateValues_exact_witness :
  (exists out, ValidateValues fields good = Ok out /\ out !! "weight" = Some (AFloat64 (of_Z 12)) /\ out !! "x" = None
     /\ contributes (default ∅ good) fields "tags" (AStrings ["new"]))
  /\ ~ all_admissible (default ∅ bad) fields.
Proof.
  assert (NoDup (active_codes fields)) as Hnd by (apply (bool_decide_unpack _); by vm_compute).
  destruct (ValidateValues_exact fields good Hnd) as (_ & _ & Ho). destruct (ValidateValues_exact fields bad Hnd) as (Hb & _ & _). split.
  - assert (is_Ok (ValidateValues fields good) = true) as Hok by by vm_compute.
    destruct (ValidateValues fields good) as [out|e|e] eqn:E; [| discriminate Hok..]. exists out. split; [reflexivity |].
    assert (out = match ValidateValues fields good with Ok m => m | _ => ∅ end) as X by by rewrite E.
    split; [rewrite X; by vm_compute |]. split; [rewrite X; by vm_compute |]. apply (Ho out eq_refl). rewrite X. by vm_compute.
  - intros Hall. apply Hb in Hall as [out E]. assert (is_Ok (ValidateValues fields bad) = false) as Hno by by vm_compute.
    rewrite E in Hno. discriminate Hno.
Defined.

(** Where the validator and its documentation differ: the empty text of a required
    field and a number for a field of type json are accepted. *)
Theorem docs_gap :
  let plain dt required := mkFieldDefinition 1%N 2%N "product" "f" "f" "" dt [] required ANil (mkValidationRules None None "") 0 true zeroTime zeroTime in
  ValidateValues [plain "text" true] (Some {[ "f" := AString "" ]}) = Ok {[ "f" := AString "" ]}
  /\ ValidateValues [plain "json" false] (Some {[ "f" := AInt 3 ]}) = Ok {[ "f" := AInt 3 ]}
  /\ ValidateValues [plain "json" false] (Some {[ "f" := AString "{" ]}) = Ok {[ "f" := AString "{" ]}.
Proof. by vm_compute. Qed.
End FieldDemo.
