(* ===== verification/CustomFields.v ===== *)
(** * Custom fields: storage and use case

    The repository [internal/core/repository/postgres/custom_field_repo.go] with
    the statements of [queries/custom_fields.sql], and
    [internal/core/usecase/customfield/custom_field_usecase.go]. *)

From S2P Require Import Prelude GoStrings GoTime GoFloat Sdk Tables FieldValidator.
#[local] Open Scope string_scope.
#[local] Open Scope list_scope.
#[local] Open Scope Z_scope.

(** ** Repository *)

Record CfDB := mkCfDB { cf_definitions : gmap ID FieldDefinition; cf_values : gmap ID EntityCustomFields }.

#[export] Instance Lens_cf_definitions : Lens CfDB (gmap ID FieldDefinition).
Proof. refine {| lens_get := cf_definitions; lens_set e d := mkCfDB e (cf_values d) |}; by intros; try destruct d. Defined.
#[export] Instance Lens_cf_values : Lens CfDB (gmap ID EntityCustomFields).
Proof. refine {| lens_get := cf_values; lens_set e d := mkCfDB (cf_definitions d) e |}; by intros; try destruct d. Defined.

(** What the JSONB columns make of the parts of a definition (a part that does
    not marshal is stored as NULL), values that do not marshal, the containment
    operator [@>], and rows refused for other reasons. *)
Class FieldServer := {
  jsonb_options : list string -> list string;
  jsonb_default : Any -> Any;
  jsonb_rules : ValidationRules -> ValidationRules;
  json_values_error : AnyMap -> option error;
  jsonb_contains : gmap string Any -> AnyMap -> bool;
  definition_refused : FieldDefinition -> option error;
  values_refused : EntityCustomFields -> option error;
}.

(** ORDER BY sort_order ASC, code ASC. *)
Definition field_le (a b : FieldDefinition) : Prop :=
  fd_SortOrder a < fd_SortOrder b \/ fd_SortOrder a = fd_SortOrder b /\ String.le (fd_Code a) (fd_Code b).
#[export] Instance field_le_dec : RelDecision field_le.
Proof. intros a b. unfold field_le. apply _. Defined.

(** UNIQUE (tenant_id, entity_type, code) and (tenant_id, entity_type, entity_id). *)
Definition same_field (a b : FieldDefinition) : bool :=
  bool_decide (fd_TenantID a = fd_TenantID b) && String.eqb (fd_EntityType a) (fd_EntityType b) && String.eqb (fd_Code a) (fd_Code b).
Definition same_entity (a b : EntityCustomFields) : bool :=
  bool_decide (ef_TenantID a = ef_TenantID b) && String.eqb (ef_EntityType a) (ef_EntityType b) && bool_decide (ef_EntityID a = ef_EntityID b).

Section Repo.
  Context `{Env, Pg, FieldServer}.

Definition definition_row (def : FieldDefinition) : FieldDefinition :=
  mkFieldDefinition (fd_ID def) (fd_TenantID def) (fd_EntityType def) (fd_Code def) (fd_Name def) (fd_Description def)
    (fd_DataType def) (jsonb_options (fd_Options def)) (fd_IsRequired def) (jsonb_default (fd_DefaultValue def))
    (jsonb_rules (fd_ValidationRules def)) (fd_SortOrder def) (fd_IsActive def)
    (pg_timestamptz (fd_CreatedAt def)) (pg_timestamptz (fd_UpdatedAt def)).

Definition repo_CreateDefinition (def : FieldDefinition) : M CfDB FieldDefinition :=
  row <- insert_into fd_ID (fun r => [fd_TenantID r]) same_field (fun _ => definition_refused) (definition_row def) ;;
  ret (mkFieldDefinition (fd_ID row) (fd_TenantID def) (fd_EntityType def) (fd_Code def) (fd_Name def) (fd_Description def)
         (fd_DataType def) (fd_Options def) (fd_IsRequired def) (fd_DefaultValue def) (fd_ValidationRules def)
         (fd_SortOrder def) (fd_IsActive def) (fd_CreatedAt row) (fd_UpdatedAt row)).

Definition field_by_id (tenantID id : ID) (r : FieldDefinition) : bool :=
  sql_eq (fd_TenantID r) (ToPgUUID tenantID) && sql_eq (fd_ID r) (ToPgUUID id).
Definition field_of (tenantID : ID) (entityType : string) (r : FieldDefinition) : bool :=
  sql_eq (fd_TenantID r) (ToPgUUID tenantID) && String.eqb (fd_EntityType r) entityType.

Definition GetDefinitionByID (tenantID id : ID) : M CfDB FieldDefinition := select_from (field_by_id tenantID id).
Definition field_by_code (tenantID : ID) (entityType code : string) (r : FieldDefinition) : bool :=
  field_of tenantID entityType r && String.eqb (fd_Code r) code.

Definition GetDefinitionByCode (tenantID : ID) (entityType code : string) : M CfDB FieldDefinition :=
  select_from (field_by_code tenantID entityType code).

Definition repo_ListDefinitions (tenantID : ID) (entityType : string) : M CfDB (list FieldDefinition) :=
  l <- select_all (field_of tenantID entityType) ;; ret (merge_sort field_le l).
Definition ListActiveDefinitions (tenantID : ID) (entityType : string) : M CfDB (list FieldDefinition) :=
  l <- select_all (fun r => field_of tenantID entityType r && fd_IsActive r) ;; ret (merge_sort field_le l).

(** UPDATE of the columns that may change. *)
Definition updated_definition (def row : FieldDefinition) : FieldDefinition :=
  mkFieldDefinition (fd_ID row) (fd_TenantID row) (fd_EntityType row) (fd_Code row) (fd_Name def) (fd_Description def)
    (fd_DataType row) (jsonb_options (fd_Options def)) (fd_IsRequired def) (jsonb_default (fd_DefaultValue def))
    (jsonb_rules (fd_ValidationRules def)) (fd_SortOrder def) (fd_IsActive def)
    (fd_CreatedAt row) (pg_timestamptz (fd_UpdatedAt def)).

Definition repo_UpdateDefinition (def : FieldDefinition) : M CfDB FieldDefinition :=
  row <- update_one fd_ID same_field (fun _ => definition_refused) (field_by_id (fd_TenantID def) (fd_ID def)) (updated_definition def) ;;
  ret (mkFieldDefinition (fd_ID def) (fd_TenantID def) (fd_EntityType def) (fd_Code def) (fd_Name def) (fd_Description def)
         (fd_DataType def) (fd_Options def) (fd_IsRequired def) (fd_DefaultValue def) (fd_ValidationRules def)
         (fd_SortOrder def) (fd_IsActive def) (fd_CreatedAt def) (fd_UpdatedAt row)).

Definition repo_DeleteDefinition (tenantID id : ID) : M CfDB unit := delete_from (field_by_id tenantID id) ;;; ret tt.

Definition values_row (vals : EntityCustomFields) : EntityCustomFields :=
  mkEntityCustomFields (ef_ID vals) (ef_TenantID vals) (ef_EntityType vals) (ef_EntityID vals) (pg_jsonb (ef_Values vals))
    (pg_timestamptz (ef_CreatedAt vals)) (pg_timestamptz (ef_UpdatedAt vals)).

(** INSERT ... ON CONFLICT (tenant_id, entity_type, entity_id) DO UPDATE. *)
Definition upsert_values (row : EntityCustomFields) (t : gmap ID EntityCustomFields) : res (EntityCustomFields * gmap ID EntityCustomFields) :=
  if bool_decide (NilID ∈ [ef_ID row; ef_TenantID row; ef_EntityID row])
  then Err (ENew "null value in column violates not-null constraint")
  else match values_refused row, select_one (same_entity row) t, t !! ef_ID row with
       | Some e, _, _ => Err e
       | None, Some old, _ =>
           let new := mkEntityCustomFields (ef_ID old) (ef_TenantID old) (ef_EntityType old) (ef_EntityID old) (ef_Values row)
                        (ef_CreatedAt old) (ef_UpdatedAt row) in
           Ok (new, <[ef_ID old := new]> t)
       | None, None, Some _ => Err pg_unique_violation
       | None, None, None => Ok (row, <[ef_ID row := row]> t)
       end.

Definition UpsertEntityValues (vals : EntityCustomFields) : M CfDB EntityCustomFields :=
  (match json_values_error (Some (ef_Values vals)) with Some e => fail e | None => ret tt end) ;;;
  row <- query (fun d => match upsert_values (values_row vals) (cf_values d) with
                         | Ok (r, t) => Ok (r, lens_set t d)
                         | Err e => Err e
                         | Panic e => Panic e
                         end) ;;
  ret (mkEntityCustomFields (ef_ID row) (ef_TenantID vals) (ef_EntityType vals) (ef_EntityID vals) (ef_Values vals)
         (ef_CreatedAt row) (ef_UpdatedAt row)).

Definition values_of (tenantID : ID) (entityType : string) (entityID : ID) (r : EntityCustomFields) : bool :=
  sql_eq (ef_TenantID r) (ToPgUUID tenantID) && String.eqb (ef_EntityType r) entityType && sql_eq (ef_EntityID r) (ToPgUUID entityID).

Definition repo_GetEntityValues (tenantID : ID) (entityType : string) (entityID : ID) : M CfDB EntityCustomFields :=
  select_from (values_of tenantID entityType entityID).

Definition DeleteEntityValues (tenantID : ID) (entityType : string) (entityID : ID) : M CfDB unit :=
  delete_from (values_of tenantID entityType entityID) ;;; ret tt.

(** [values @> $3]. *)
Definition values_match (tenantID : ID) (entityType : string) (match_ : AnyMap) (r : EntityCustomFields) : bool :=
  sql_eq (ef_TenantID r) (ToPgUUID tenantID) && String.eqb (ef_EntityType r) entityType && jsonb_contains (ef_Values r) match_.

Definition repo_FindEntitiesByMatch (tenantID : ID) (entityType : string) (match_ : AnyMap) : M CfDB (list ID) :=
  (match json_values_error match_ with Some e => fail e | None => ret tt end) ;;;
  rows <- select_all (values_match tenantID entityType match_) ;;
  ret (map ef_EntityID rows).
End Repo.

(** ** Use case *)

Record CreateDefinitionCommand := mkCreateDefinition {
  cd_TenantID : ID;
  cd_EntityType : string;
  cd_Code : string;
  cd_Name : string;
  cd_Description : string;
  cd_DataType : string;
  cd_Options : list string;
  cd_IsRequired : bool;
  cd_DefaultValue : Any;
  cd_ValidationRules : ValidationRules;
  cd_SortOrder : Z;
}.

Record UpdateDefinitionCommand := mkUpdateDefinition {
  ud_TenantID : ID;
  ud_ID : ID;
  ud_Name : string;
  ud_Description : string;
  ud_Options : list string;
  ud_IsRequired : bool;
  ud_DefaultValue : Any;
  ud_ValidationRules : ValidationRules;
  ud_SortOrder : Z;
  ud_IsActive : bool;
}.

Record SetEntityValuesCommand := mkSetEntityValues {
  sv_TenantID : ID;
  sv_EntityType : string;
  sv_EntityID : ID;
  sv_Values : AnyMap;
}.

Definition nil_id (id : ID) : bool := bool_decide (id = NilID).
Definition bad_entity_type (e : string) : error := Errorf ErrInvalidInput ("invalid entity_type '" +:+ e +:+ "'").

Section Usecase.
  Context `{Env, Pg, FieldServer, TextLib, UnicodeTables}.

Definition CreateDefinition (cmd : CreateDefinitionCommand) : M CfDB FieldDefinition :=
  guard (nil_id (cd_TenantID cmd)) (ESentinel ErrTenantRequired) ;;;
  guard (negb (EntityType_IsValid (cd_EntityType cmd))) (bad_entity_type (cd_EntityType cmd)) ;;;
  guard (negb (DataType_IsValid (cd_DataType cmd))) (Errorf ErrInvalidInput ("invalid data_type '" +:+ cd_DataType cmd +:+ "'")) ;;;
  let code := ToLower (TrimSpace (cd_Code cmd)) in
  let name := TrimSpace (cd_Name cmd) in
  guard (String.eqb code "" || String.eqb name "") (Errorf ErrInvalidInput "code and name are required") ;;;
  guard ((String.eqb (cd_DataType cmd) DataTypeSelect || String.eqb (cd_DataType cmd) DataTypeMultiSelect)
         && Nat.eqb (length (cd_Options cmd)) 0)
    (Errorf ErrInvalidInput "options list cannot be empty for select types") ;;;
  check_absent (GetDefinitionByCode (cd_TenantID cmd) (cd_EntityType cmd) code)
    (Errorf ErrAlreadyExists ("custom field code '" +:+ code +:+ "' already exists for " +:+ cd_EntityType cmd)) ;;;
  id <- NewID ;;
  now <- NowUTC ;;
  repo_CreateDefinition (mkFieldDefinition id (cd_TenantID cmd) (cd_EntityType cmd) code name (cd_Description cmd) (cd_DataType cmd)
    (cd_Options cmd) (cd_IsRequired cmd) (cd_DefaultValue cmd) (cd_ValidationRules cmd) (cd_SortOrder cmd) true now now).

Definition GetDefinition (tenantID id : ID) : M CfDB FieldDefinition :=
  guard (nil_id tenantID) (ESentinel ErrTenantRequired) ;;; GetDefinitionByID tenantID id.

Definition ListDefinitions (tenantID : ID) (entityType : string) : M CfDB (list FieldDefinition) :=
  guard (nil_id tenantID) (ESentinel ErrTenantRequired) ;;;
  guard (negb (EntityType_IsValid entityType)) (bad_entity_type entityType) ;;;
  repo_ListDefinitions tenantID entityType.

Definition UpdateDefinition (cmd : UpdateDefinitionCommand) : M CfDB FieldDefinition :=
  guard (nil_id (ud_TenantID cmd)) (ESentinel ErrTenantRequired) ;;;
  def <- GetDefinitionByID (ud_TenantID cmd) (ud_ID cmd) ;;
  now <- NowUTC ;;
  repo_UpdateDefinition (mkFieldDefinition (fd_ID def) (fd_TenantID def) (fd_EntityType def) (fd_Code def)
    (if String.eqb (ud_Name cmd) "" then fd_Name def else TrimSpace (ud_Name cmd)) (ud_Description cmd) (fd_DataType def)
    (if Nat.eqb (length (ud_Options cmd)) 0 then fd_Options def else ud_Options cmd) (ud_IsRequired cmd) (ud_DefaultValue cmd)
    (ud_ValidationRules cmd) (ud_SortOrder cmd) (ud_IsActive cmd) (fd_CreatedAt def) now).

Definition DeleteDefinition (tenantID id : ID) : M CfDB unit :=
  guard (nil_id tenantID) (ESentinel ErrTenantRequired) ;;; repo_DeleteDefinition tenantID id.

Definition SetEntityValues (cmd : SetEntityValuesCommand) : M CfDB EntityCustomFields :=
  guard (nil_id (sv_TenantID cmd)) (ESentinel ErrTenantRequired) ;;;
  guard (negb (EntityType_IsValid (sv_EntityType cmd))) (bad_entity_type (sv_EntityType cmd)) ;;;
  guard (nil_id (sv_EntityID cmd)) (Errorf ErrInvalidInput "entity_id is required") ;;;
  defs <- ListActiveDefinitions (sv_TenantID cmd) (sv_EntityType cmd) ;;
  sanitizedValues <- lift_res (ValidateValues defs (sv_Values cmd)) ;;
  id <- NewID ;;
  now <- NowUTC ;;
  UpsertEntityValues (mkEntityCustomFields id (sv_TenantID cmd) (sv_EntityType cmd) (sv_EntityID cmd) sanitizedValues now now).

Definition GetEntityValues (tenantID : ID) (entityType : string) (entityID : ID) : M CfDB EntityCustomFields :=
  guard (nil_id tenantID) (ESentinel ErrTenantRequired) ;;;
  guard (negb (EntityType_IsValid entityType)) (bad_entity_type entityType) ;;;
  guard (nil_id entityID) (Errorf ErrInvalidInput "entity_id is required") ;;;
  r <- attempt (repo_GetEntityValues tenantID entityType entityID) ;;
  match r with
  | inl record => ret record
  | inr err => if err_eq err ErrNotFound
               then ret (mkEntityCustomFields NilID tenantID entityType entityID ∅ zeroTime zeroTime)
               else fail err
  end.

Definition FindEntitiesByMatch (tenantID : ID) (entityType : string) (match_ : AnyMap) : M CfDB (list ID) :=
  guard (nil_id tenantID) (ESentinel ErrTenantRequired) ;;;
  guard (negb (EntityType_IsValid entityType)) (bad_entity_type entityType) ;;;
  repo_FindEntitiesByMatch tenantID entityType match_.
End Usecase.

(** ** Invariant *)

Definition sound_definition (def : FieldDefinition) : Prop :=
  EntityType_IsValid (fd_EntityType def) = true /\ DataType_IsValid (fd_DataType def) = true /\ fd_Code def <> "".

Record cf_inv (d : CfDB) : Prop := {
  ci_keyed : keyed fd_ID (cf_definitions d);
  ci_unique : unique same_field (cf_definitions d);
  ci_sound : map_Forall (fun _ def => sound_definition def) (cf_definitions d);
  ci_vkeyed : keyed ef_ID (cf_values d);
  ci_vunique : unique same_entity (cf_values d);
}.

Lemma same_field_sym a b : same_field a b = same_field b a.
Proof. unfold same_field. f_equal; [f_equal; [by apply bool_decide_ext | apply String.eqb_sym] | apply String.eqb_sym]. Qed.

Lemma same_entity_sym a b : same_entity a b = same_entity b a.
Proof. unfold same_entity. f_equal; [f_equal; [by apply bool_decide_ext | apply String.eqb_sym] | by apply bool_decide_ext]. Qed.

Lemma same_entity_true a b : same_entity a b = true <->
  ef_TenantID a = ef_TenantID b /\ ef_EntityType a = ef_EntityType b /\ ef_EntityID a = ef_EntityID b.
Proof. unfold same_entity. rewrite !andb_true_iff, !bool_decide_eq_true, String.eqb_eq. tauto. Qed.

Lemma same_entity_trans a b c : same_entity a b = true -> same_entity b c = true -> same_entity a c = true.
Proof. rewrite !same_entity_true. intros (-> & -> & ->) (-> & -> & ->). done. Qed.

Lemma values_of_true t e i r : values_of t e i r = true <->
  t <> NilID /\ i <> NilID /\ ef_TenantID r = t /\ ef_EntityType r = e /\ ef_EntityID r = i.
Proof. unfold values_of. rewrite !andb_true_iff, !sql_eq_true, String.eqb_eq. tauto. Qed.

Section Invariant.
  Context `{Env, Pg, FieldServer, TextLib, UnicodeTables}.

Lemma repo_CreateDefinition_inv def : sound_definition def -> preserves cf_inv (repo_CreateDefinition def).
Proof.
  intros Hs. apply preserves_writes_last; [unfold repo_CreateDefinition; frame |]. intros w r w' [I1 I2 I3 I4 I5] E. unfold repo_CreateDefinition in E.
  step_inv. match goal with X : insert_into _ _ _ _ _ _ = _ |- _ => apply insert_into_Ok in X as (-> & -> & _ & Hu & _) end.
  split; cbn [w_db lens_set Lens_cf_definitions cf_definitions cf_values lens_get] in *; try done.
  - by apply keyed_insert.
  - apply unique_insert; [apply same_field_sym | done |]. intros k r' _ Hr. by apply (Hu k).
  - by apply map_Forall_insert_2.
Qed.

Lemma repo_UpdateDefinition_inv def : preserves cf_inv (repo_UpdateDefinition def).
Proof.
  apply preserves_writes_last; [unfold repo_UpdateDefinition; frame |]. intros w r w' [I1 I2 I3 I4 I5] E. unfold repo_UpdateDefinition in E.
  step_inv. match goal with X : update_one _ _ _ _ _ _ = _ |- _ => apply update_one_Ok in X as (k & old & Hk & _ & -> & -> & Hu & _) end.
  split; cbn [w_db lens_set Lens_cf_definitions cf_definitions cf_values lens_get] in *; try done.
  - by apply keyed_insert.
  - by apply unique_update; [apply same_field_sym | ..].
  - apply map_Forall_insert_2; [| done]. by destruct (I3 k old Hk).
Qed.

Lemma repo_DeleteDefinition_inv t id : preserves cf_inv (repo_DeleteDefinition t id).
Proof.
  apply preserves_writes_last; [unfold repo_DeleteDefinition; frame |]. intros w r w' [I1 I2 I3 I4 I5] E. unfold repo_DeleteDefinition in E.
  step_inv. match goal with X : delete_from _ _ = _ |- _ => apply delete_from_Ok in X as [_ ->] end.
  split; cbn [w_db lens_set Lens_cf_definitions cf_definitions cf_values lens_get] in *; try done.
  - by apply keyed_filter.
  - by apply unique_filter.
  - intros k x [Hx _]%map_lookup_filter_Some. by apply (I3 k).
Qed.

(** The upsert: a new row, or the row of the entity with new values. *)
Lemma upsert_Ok row t r t' : keyed ef_ID t -> upsert_values row t = Ok (r, t') ->
  t' = <[ef_ID r := r]> t /\ same_entity row r = true /\ ef_Values r = ef_Values row /\ NilID ∉ [ef_ID row; ef_TenantID row; ef_EntityID row]
  /\ ((exists old, t !! ef_ID old = Some old /\ ef_ID r = ef_ID old /\ ef_CreatedAt r = ef_CreatedAt old /\ same_entity row old = true)
      \/ t !! ef_ID r = None /\ forall k x, t !! k = Some x -> same_entity row x = false).
Proof.
  intros Hk. unfold upsert_values. case_bool_decide as Hn; [done |]. destruct (values_refused row); [done |].
  destruct (select_one _ t) as [old|] eqn:Es.
  - intros [= <- <-]. apply select_one_Some in Es as [Hs [k Hx]]. pose proof (Hk k old Hx) as E.
    cbn [ef_ID ef_Values]. split_and!; [done | | done | done |].
    + rewrite same_entity_true in *. done.
    + left. exists old. split_and!; [by rewrite E | done | done | done].
  - destruct (t !! ef_ID row) eqn:E; [done |]. intros [= <- <-]. split_and!; try done; [by apply same_entity_true |].
    right. split; [done |]. by apply select_one_None.
Qed.

Lemma UpsertEntityValues_Ok vals w r w' : keyed ef_ID (cf_values (w_db w)) -> UpsertEntityValues vals w = (Ok r, w') ->
  exists row, w_db w' = lens_set (<[ef_ID row := row]> (cf_values (w_db w))) (w_db w) /\ upsert_values (values_row vals) (cf_values (w_db w)) = Ok (row, <[ef_ID row := row]> (cf_values (w_db w)))
    /\ r = mkEntityCustomFields (ef_ID row) (ef_TenantID vals) (ef_EntityType vals) (ef_EntityID vals) (ef_Values vals) (ef_CreatedAt row) (ef_UpdatedAt row).
Proof.
  intros Hk E. unfold UpsertEntityValues in E. step_inv.
  match goal with X : (match json_values_error _ with Some _ => _ | None => _ end) _ = _ |- _ => destruct (json_values_error _); [done |]; apply ret_Ok in X as [_ ->] end.
  match goal with X : match upsert_values _ _ with Ok _ => _ | Err _ => _ | Panic _ => _ end = _ |- _ =>
    destruct (upsert_values _ _) as [[row t]|e|e] eqn:Eu; [| done | done]; injection X as <- <- end.
  exists row. pose proof (upsert_Ok _ _ _ _ Hk Eu) as (-> & _). split_and!; done.
Qed.

Lemma UpsertEntityValues_inv vals : preserves cf_inv (UpsertEntityValues vals).
Proof.
  apply preserves_writes_last; [unfold UpsertEntityValues; frame; by destruct (json_values_error _); auto with go_frame |].
  intros w r w' [I1 I2 I3 I4 I5] E. apply UpsertEntityValues_Ok in E as (row & -> & Eu & _); [| done].
  apply upsert_Ok in Eu as (_ & Hs & _ & _ & Hc); [| done].
  split; cbn [lens_set Lens_cf_values cf_definitions cf_values]; try done; [by apply keyed_insert |].
  apply unique_insert; [apply same_entity_sym | done |]. intros k x Hne Hx. apply not_true_is_false. intros Hsx.
  pose proof (same_entity_trans _ _ _ Hs Hsx) as Hsv.
  destruct Hc as [(old & Ho & Eid & _ & Hso)|[_ Hno]]; [| by rewrite (Hno k x Hx) in Hsv].
  apply Hne. rewrite Eid. apply (I5 k x (ef_ID old) old Hx Ho). rewrite same_entity_sym in Hsv. by eapply same_entity_trans.
Qed.

#[local] Hint Resolve repo_UpdateDefinition_inv repo_DeleteDefinition_inv UpsertEntityValues_inv : table_inv.

Lemma reads_GetDefinitionByID t id : reads (GetDefinitionByID t id).
Proof. unfold GetDefinitionByID. auto with go_frame. Qed.
Lemma reads_GetDefinitionByCode t e c : reads (GetDefinitionByCode t e c).
Proof. unfold GetDefinitionByCode. auto with go_frame. Qed.
Lemma reads_ListActiveDefinitions t e : reads (ListActiveDefinitions t e).
Proof. unfold ListActiveDefinitions. frame. Qed.
#[local] Hint Resolve reads_GetDefinitionByID reads_GetDefinitionByCode reads_ListActiveDefinitions : go_frame.

Lemma CreateDefinition_inv cmd : preserves cf_inv (CreateDefinition cmd).
Proof.
  unfold CreateDefinition. apply preserves_guard. intros _. apply preserves_guard. intros He%negb_false_iff.
  apply preserves_guard. intros Hd%negb_false_iff. cbv zeta. apply preserves_guard. intros [Hc%String.eqb_neq _]%orb_false_iff.
  do 4 (apply preserves_bind; [auto with go_frame | intros ?]). by apply repo_CreateDefinition_inv.
Qed.

Inductive FieldCall :=
  | FieldCreate (cmd : CreateDefinitionCommand)
  | FieldUpdate (cmd : UpdateDefinitionCommand)
  | FieldDelete (tenantID id : ID)
  | FieldSet (cmd : SetEntityValuesCommand)
  | FieldGet (tenantID : ID) (entityType : string) (entityID : ID).

Definition field_call (c : FieldCall) (w : World CfDB) : World CfDB :=
  match c with
  | FieldCreate cmd => (CreateDefinition cmd w).2
  | FieldUpdate cmd => (UpdateDefinition cmd w).2
  | FieldDelete t id => (DeleteDefinition t id w).2
  | FieldSet cmd => (SetEntityValues cmd w).2
  | FieldGet t e i => (GetEntityValues t e i w).2
  end.

Definition field_session (cs : list FieldCall) (w : World CfDB) : World CfDB := fold_left (fun w c => field_call c w) cs w.

Lemma field_session_inv cs w : cf_inv (w_db w) -> cf_inv (w_db (field_session cs w)).
Proof.
  revert w. induction cs as [|c cs IH]; intros w Hi; [done |]. apply IH. destruct c; cbn [field_call].
  - by apply CreateDefinition_inv.
  - revert w Hi. change (preserves cf_inv (UpdateDefinition cmd)). unfold UpdateDefinition. keep.
  - revert w Hi. change (preserves cf_inv (DeleteDefinition tenantID id)). unfold DeleteDefinition. keep.
  - revert w Hi. change (preserves cf_inv (SetEntityValues cmd)). unfold SetEntityValues. keep.
  - revert w Hi. change (preserves cf_inv (GetEntityValues tenantID entityType entityID)). unfold GetEntityValues, repo_GetEntityValues. keep.
Qed.

(** ** Setting and getting the values of an entity *)

(** The active definitions, in the order the query returns them. *)
Definition active_fields (t : ID) (e : string) (d : CfDB) : list FieldDefinition :=
  merge_sort field_le (select_rows (fun r => field_of t e r && fd_IsActive r) (cf_definitions d)).

Lemma elem_of_active_fields t e d def : def ∈ active_fields t e d <->
  (exists k, cf_definitions d !! k = Some def) /\ t <> NilID /\ fd_TenantID def = t /\ fd_EntityType def = e /\ fd_IsActive def = true.
Proof.
  unfold active_fields. rewrite merge_sort_Permutation, elem_of_select_rows. unfold field_of.
  rewrite !andb_true_iff, sql_eq_true, String.eqb_eq. naive_solver.
Qed.

Lemma active_fields_NoDup t e d : cf_inv d -> NoDup (active_codes (active_fields t e d)).
Proof.
  intros Hi. assert (NoDup (map fd_ID (active_fields t e d))) as Hid.
  { unfold active_fields. change (map fd_ID ?l) with (fd_ID <$> l). rewrite merge_sort_Permutation. by apply NoDup_select_rows, (ci_keyed _ Hi). }
  assert (forall a b, a ∈ active_fields t e d -> b ∈ active_fields t e d -> fd_Code a = fd_Code b -> fd_ID a = fd_ID b) as Hu.
  { intros a b ([ka Ha] & _ & Ta & Ea & _)%elem_of_active_fields ([kb Hb] & _ & Tb & Eb & _)%elem_of_active_fields Ec.
    rewrite (ci_keyed _ Hi ka a Ha), (ci_keyed _ Hi kb b Hb). apply (ci_unique _ Hi ka a kb b Ha Hb). unfold same_field.
    by rewrite bool_decide_eq_true_2, Ea, Eb, Ec, !String.eqb_refl by congruence. }
  revert Hid Hu. generalize (active_fields t e d). clear. induction l as [|a l IH]; intros Hid Hu; [constructor |].
  cbn [map] in Hid. apply NoDup_cons in Hid as [Hn Hid]. unfold active_codes in *. cbn [List.filter].
  assert (NoDup (map fd_Code (List.filter fd_IsActive l))) as IH' by (apply IH; [done | intros; apply Hu; [by right | by right | done]]).
  destruct (fd_IsActive a); [| done]. cbn [map]. constructor; [| done]. intros Hin. apply list_elem_of_In, in_map_iff in Hin as (b & Ec & Hb).
  apply filter_In in Hb as [Hb%list_elem_of_In _]. apply Hn. rewrite (Hu a b); [| by left | by right | done].
  by apply list_elem_of_In, in_map, list_elem_of_In.
Qed.

Lemma SetEntityValues_Ok cmd w r w' : cf_inv (w_db w) -> SetEntityValues cmd w = (Ok r, w') ->
  sv_TenantID cmd <> NilID /\ EntityType_IsValid (sv_EntityType cmd) = true /\ sv_EntityID cmd <> NilID
  /\ ValidateValues (active_fields (sv_TenantID cmd) (sv_EntityType cmd) (w_db w)) (sv_Values cmd) = Ok (ef_Values r)
  /\ exists row, w_db w' = lens_set (<[ef_ID row := row]> (cf_values (w_db w))) (w_db w)
     /\ ef_ID r = ef_ID row /\ ef_CreatedAt r = ef_CreatedAt row /\ ef_Values row = pg_jsonb (ef_Values r)
     /\ ef_TenantID row = sv_TenantID cmd /\ ef_EntityType row = sv_EntityType cmd /\ ef_EntityID row = sv_EntityID cmd
     /\ (forall x, cf_values (w_db w) !! ef_ID row = Some x -> values_of (sv_TenantID cmd) (sv_EntityType cmd) (sv_EntityID cmd) x = true)
     /\ forall k old, cf_values (w_db w) !! k = Some old -> values_of (sv_TenantID cmd) (sv_EntityType cmd) (sv_EntityID cmd) old = true ->
          k = ef_ID row /\ ef_CreatedAt row = ef_CreatedAt old.
Proof.
  intros Hi E. unfold SetEntityValues, nil_id in E. step_inv.
  repeat match goal with X : bool_decide _ = false |- _ => apply bool_decide_eq_false in X end.
  match goal with X : negb _ = false |- _ => apply negb_false_iff in X end.
  match goal with X : ListActiveDefinitions _ _ _ = _ |- _ => unfold ListActiveDefinitions, select_all in X end. step_inv.
  match goal with X : Ok (select_rows _ _, _) = Ok _ |- _ => injection X as <- <- end.
  apply UpsertEntityValues_Ok in E as (row & Ew & Eu & ->); [| apply Hi]. cbn [w_db tick] in *.
  apply upsert_Ok in Eu as (_ & Hs & Hv & _ & Hc); [| apply Hi]. apply same_entity_true in Hs as (T & Et & Ei). cbn in T, Et, Ei, Hv.
  split_and!; try done. exists row. cbn [ef_ID ef_CreatedAt ef_Values]. split_and!; try done.
  { intros x Hx. destruct Hc as [(old' & Ho & Eid & _ & (T' & Et' & Ei')%same_entity_true)|[Hno _]]; [| congruence].
    rewrite Eid, Ho in Hx. injection Hx as <-. cbn in T', Et', Ei'. by apply values_of_true. }
  intros k old Hk (_ & _ & To & Eo & Io)%values_of_true. destruct Hc as [(old' & Ho & Eid & Ect & (T' & Et' & Ei')%same_entity_true)|[_ Hno]].
  - cbn in T', Et', Ei'. assert (k = ef_ID old') as Ek.
    { apply (ci_vunique _ Hi k old _ old' Hk Ho). apply same_entity_true. split_and!; congruence. }
    subst k. rewrite Ho in Hk. injection Hk as <-. done.
  - exfalso. specialize (Hno k old Hk). apply not_true_iff_false in Hno. apply Hno, same_entity_true. cbn. split_and!; congruence.
Qed.
End Invariant.

(** ** Properties *)

(** C22: what is set for an entity is what is read.  After a successful
    [SetEntityValues] the stored values are exactly those that the active
    definitions of the tenant and the kind of entity contribute, each of its
    type; reading the entity returns them as JSONB holds them.  Setting again
    keeps the identity and the creation time of the row, and the values of
    other entities and all definitions stay as they were. *)
Theorem entity_values_roundtrip `{Env, Pg, FieldServer, TextLib, UnicodeTables} (cmd : SetEntityValuesCommand) (w w1 : World CfDB) (r : EntityCustomFields) :
  cf_inv (w_db w) -> SetEntityValues cmd w = (Ok r, w1) -> env_fault (w_tick w1) = None ->
  let mine := values_of (sv_TenantID cmd) (sv_EntityType cmd) (sv_EntityID cmd) in
  (exists g w2, GetEntityValues (sv_TenantID cmd) (sv_EntityType cmd) (sv_EntityID cmd) w1 = (Ok g, w2)
     /\ ef_Values g = pg_jsonb (ef_Values r) /\ ef_ID g = ef_ID r /\ ef_CreatedAt g = ef_CreatedAt r)
  /\ (forall code v, ef_Values r !! code = Some v <->
       contributes (default ∅ (sv_Values cmd)) (active_fields (sv_TenantID cmd) (sv_EntityType cmd) (w_db w)) code v)
  /\ (forall k old, cf_values (w_db w) !! k = Some old -> mine old = true -> ef_ID r = k /\ ef_CreatedAt r = ef_CreatedAt old)
  /\ (forall k x, mine x = false -> cf_values (w_db w1) !! k = Some x <-> cf_values (w_db w) !! k = Some x)
  /\ cf_definitions (w_db w1) = cf_definitions (w_db w) /\ cf_inv (w_db w1).
Proof.
  intros Hi E Hf. cbv zeta. assert (cf_inv (w_db w1)) as Hi1.
  { pose proof (field_session_inv [FieldSet cmd] w Hi) as X. cbn in X. by rewrite E in X. }
  apply SetEntityValues_Ok in E as (Ht & He & Hn & Hval & row & Ew & Eid & Ect & Ev & T & Ety & Ei & Hsame & Hold); [| done].
  assert (values_of (sv_TenantID cmd) (sv_EntityType cmd) (sv_EntityID cmd) row = true) as Hmine by (by apply values_of_true).
  assert (cf_values (w_db w1) !! ef_ID row = Some row) as Hrow by (rewrite Ew; cbn; by rewrite lookup_insert_eq).
  split_and!; [| | | | by rewrite Ew | done].
  - unfold GetEntityValues, nil_id, repo_GetEntityValues, select_from, guard, bind, attempt, query, ret.
    rewrite !bool_decide_eq_false_2, He by done. cbn [negb]. rewrite Hf. cbn [lens_get Lens_cf_values].
    rewrite (select_one_unique _ (cf_values (w_db w1)) _ row Hrow Hmine); [by do 2 eexists |].
    intros k x Hx (_ & _ & T' & E' & I')%values_of_true. assert (k = ef_ID row) as ->; [| congruence].
    apply (ci_vunique _ Hi1 k x _ row Hx Hrow). apply same_entity_true. split_and!; congruence.
  - apply ValidateValues_contributes; [by apply active_fields_NoDup | done].
  - intros k old Hk Hm. rewrite Eid, Ect. destruct (Hold k old Hk Hm) as [-> ->]. done.
  - intros k x Hx. rewrite Ew. cbn. rewrite lookup_insert_Some. split; [by intros [[_ <-]|[_ ?]]; [congruence |] |].
    intros Hk. right. split; [| done]. intros <-. by rewrite (Hsame x Hk) in Hx.
Qed.

(** *** A run: a tag field, and a product tagged twice *)

Module CfDemo.
Definition server : FieldServer := {| jsonb_options l := l; jsonb_default v := v; jsonb_rules r := r; json_values_error _ := None;
  jsonb_contains _ _ := true; definition_refused _ := None; values_refused _ := None |}.
Definition text : TextLib := {| regexp_MatchString _ _ := Some true; fmt_float _ := "0" |}.
Definition env : Env := calm (mkTime (1750000000 * Second) 0) Second.
#[local] Existing Instances server text env.
#[local] Instance pg : Pg := pgx 0.

Definition tags : CreateDefinitionCommand :=
  mkCreateDefinition 5%N "product" " Tags " "Tags" "" DataTypeMultiSelect ["new"; "sale"] false ANil (mkValidationRules None None "") 1.
Definition tag (l : list string) : SetEntityValuesCommand := mkSetEntityValues 5%N "product" 9%N (Some {[ "tags" := AStrings l ]}).
Definition tagged : World CfDB := field_session [FieldCreate tags; FieldSet (tag ["new"])] (mkWorld (mkCfDB ∅ ∅) 0%nat).

Lemma empty_cf_inv : cf_inv (mkCfDB ∅ ∅).
Proof.
  split; cbn; try apply map_Forall_empty; intros ? ? ?; try (intros ?; by rewrite lookup_empty); by rewrite lookup_empty.
Qed.

Lemma entity_values_roundtrip_witness : exists g w2 v,
  GetEntityValues 5%N "product" 9%N (SetEntityValues (tag ["sale"]) tagged).2 = (Ok g, w2)
  /\ ef_Values g = pg_jsonb v /\ v !! "tags" = Some (AStrings ["sale"])
  /\ map (fun r => ef_ID r) (select_rows (fun _ => true) (cf_values (w_db tagged))) = [ef_ID g].
Proof.
  assert (is_Ok (SetEntityValues (tag ["sale"]) tagged).1 = true) as Hok by by vm_compute.
  destruct (SetEntityValues (tag ["sale"]) tagged) as [[r|e|e] w1] eqn:E; [| discriminate Hok..].
  destruct (entity_values_roundtrip (tag ["sale"]) tagged w1 r) as ((g & w2 & Eg & Ev & Eid & _) & _); [| exact E | reflexivity |].
  { apply (field_session_inv _ (mkWorld (mkCfDB ∅ ∅) 0%nat)), empty_cf_inv. }
  assert (r = match SetEntityValues (tag ["sale"]) tagged with (Ok x, _) => x | _ => r end) as X by by rewrite E.
  exists g, w2, (ef_Values r). split; [exact Eg |]. split; [exact Ev |]. split; [rewrite X; by vm_compute |]. rewrite Eid, X. by vm_compute.
Defined.
End CfDemo.
