(* ===== verification/Parties.v ===== *)
(** * Parties, their roles, addresses and contacts

    [internal/core/domain/party], [internal/core/domain/contact], the
    repositories [party_repo.go] and [address_contact_repo.go] with the
    statements of [queries/parties.sql] and [queries/addresses_contacts.sql],
    and [internal/core/usecase/party/party_usecase.go]. *)

From S2P Require Import Prelude GoStrings GoTime GoFloat Sdk Tables.
#[local] Open Scope string_scope.
#[local] Open Scope list_scope.
#[local] Open Scope Z_scope.

(** ** Domain *)

Definition TypePerson : string := "person".
Definition TypeOrganization : string := "organization".
Definition StatusActive : string := "active".
Definition StatusInactive : string := "inactive".

Record PartyRole := mkPartyRole {
  pr_ID : ID;
  pr_TenantID : ID;
  pr_PartyID : ID;
  pr_OrganizationID : option ID;
  pr_RoleType : string;
  pr_Status : string;
  pr_CreatedAt : Time;
  pr_UpdatedAt : Time;
}.

Record Party := mkParty {
  p_ID : ID;
  p_TenantID : ID;
  p_Type : string;
  p_Code : string;
  p_Name : string;
  p_LegalName : string;
  p_TaxID : string;
  p_Status : string;
  p_Metadata : AnyMap;
  p_Roles : list PartyRole;
  p_CreatedAt : Time;
  p_UpdatedAt : Time;
}.

Definition HasRole (p : Party) (roleType : string) : bool :=
  existsb (fun r => String.eqb (pr_RoleType r) roleType && String.eqb (pr_Status r) StatusActive) (p_Roles p).

Record Address := mkAddress {
  a_ID : ID;
  a_TenantID : ID;
  a_Type : string;
  a_Label : string;
  a_Line1 : string;
  a_Line2 : string;
  a_City : string;
  a_State : string;
  a_PostalCode : string;
  a_CountryCode : string;
  a_Latitude : option float64;
  a_Longitude : option float64;
  a_IsPrimary : bool;
  a_CreatedAt : Time;
  a_UpdatedAt : Time;
}.

Record Contact := mkContact {
  c_ID : ID;
  c_TenantID : ID;
  c_PartyID : option ID;
  c_OrganizationID : option ID;
  c_Type : string;
  c_Value : string;
  c_Label : string;
  c_IsPrimary : bool;
  c_VerifiedAt : option Time;
  c_CreatedAt : Time;
  c_UpdatedAt : Time;
}.

(** A row of [party_addresses] or [organization_addresses] besides its key. *)
Record AddressLink := mkAddressLink { al_tenant : ID; al_primary : bool; al_created : Time }.

(** The key of a link: owner, address and type of address. *)
Abbreviation LinkTable := (gmap (ID * ID * string) AddressLink).

Record PartyDB := mkPartyDB {
  pa_parties : gmap ID Party;
  pa_roles : gmap ID PartyRole;
  pa_addresses : gmap ID Address;
  pa_links : LinkTable;
  pa_org_links : LinkTable;
  pa_contacts : gmap ID Contact;
}.

#[export] Instance Lens_pa_parties : Lens PartyDB (gmap ID Party).
Proof.
  refine {| lens_get := pa_parties;
            lens_set e d := mkPartyDB e (pa_roles d) (pa_addresses d) (pa_links d) (pa_org_links d) (pa_contacts d) |}; by intros; try destruct d.
Defined.
#[export] Instance Lens_pa_roles : Lens PartyDB (gmap ID PartyRole).
Proof.
  refine {| lens_get := pa_roles;
            lens_set e d := mkPartyDB (pa_parties d) e (pa_addresses d) (pa_links d) (pa_org_links d) (pa_contacts d) |}; by intros; try destruct d.
Defined.
#[export] Instance Lens_pa_addresses : Lens PartyDB (gmap ID Address).
Proof.
  refine {| lens_get := pa_addresses;
            lens_set e d := mkPartyDB (pa_parties d) (pa_roles d) e (pa_links d) (pa_org_links d) (pa_contacts d) |}; by intros; try destruct d.
Defined.
#[export] Instance Lens_pa_contacts : Lens PartyDB (gmap ID Contact).
Proof.
  refine {| lens_get := pa_contacts;
            lens_set e d := mkPartyDB (pa_parties d) (pa_roles d) (pa_addresses d) (pa_links d) (pa_org_links d) e |}; by intros; try destruct d.
Defined.

Definition set_links (l : LinkTable) (d : PartyDB) : PartyDB :=
  mkPartyDB (pa_parties d) (pa_roles d) (pa_addresses d) l (pa_org_links d) (pa_contacts d).
Definition set_org_links (l : LinkTable) (d : PartyDB) : PartyDB :=
  mkPartyDB (pa_parties d) (pa_roles d) (pa_addresses d) (pa_links d) l (pa_contacts d).

(** Rows refused for other reasons (lengths, tenants and organizations that do
    not exist), and metadata that does not marshal. *)
Class PartyServer := {
  metadata_error : AnyMap -> bool;
  party_refused : Party -> option error;
  role_refused : PartyRole -> option error;
  address_refused : Address -> option error;
  link_refused : ID * ID * string -> AddressLink -> option error;
  contact_refused : Contact -> option error;
}.

(** ** Party repository *)

(** UNIQUE (tenant_id, code) WHERE code IS NOT NULL, and
    UNIQUE (tenant_id, party_id, role_type, COALESCE(organization_id, nil)). *)
Definition same_party_code (a b : Party) : bool :=
  bool_decide (p_TenantID a = p_TenantID b) && String.eqb (p_Code a) (p_Code b) && negb (String.eqb (p_Code a) "").
Definition same_role (a b : PartyRole) : bool :=
  bool_decide (pr_TenantID a = pr_TenantID b) && bool_decide (pr_PartyID a = pr_PartyID b)
  && String.eqb (pr_RoleType a) (pr_RoleType b) && bool_decide (pr_OrganizationID a = pr_OrganizationID b).

Section PartyRepo.
  Context `{Env, Pg, PartyServer}.

(** The row of a party as it comes back. *)
Definition party_row (p : Party) : Party :=
  mkParty (p_ID p) (p_TenantID p) (p_Type p) (p_Code p) (p_Name p) (p_LegalName p) (p_TaxID p) (p_Status p)
    (Some (default ∅ (pg_jsonb <$> p_Metadata p))) [] (pg_timestamptz (p_CreatedAt p)) (pg_timestamptz (p_UpdatedAt p)).

Definition metadata_guard (m : AnyMap) : M PartyDB unit :=
  guard (metadata_error m) (Errorf ErrInvalidInput "invalid party metadata json").

Definition party_Create (p : Party) : M PartyDB Party :=
  metadata_guard (p_Metadata p) ;;;
  insert_into p_ID (fun r => [p_TenantID r]) same_party_code (fun _ => party_refused) (party_row p).

Definition party_by_id (tenantID id : ID) (r : Party) : bool :=
  sql_eq (p_TenantID r) (ToPgUUID tenantID) && sql_eq (p_ID r) (ToPgUUID id).
Definition role_of (tenantID partyID : ID) (r : PartyRole) : bool :=
  sql_eq (pr_TenantID r) (ToPgUUID tenantID) && sql_eq (pr_PartyID r) (ToPgUUID partyID).

Definition ListRoles (tenantID partyID : ID) : M PartyDB (list PartyRole) :=
  l <- select_all (role_of tenantID partyID) ;; ret (merge_sort (oldest pr_CreatedAt) l).

Definition with_roles (p : Party) (roles : list PartyRole) : Party :=
  mkParty (p_ID p) (p_TenantID p) (p_Type p) (p_Code p) (p_Name p) (p_LegalName p) (p_TaxID p) (p_Status p) (p_Metadata p)
    roles (p_CreatedAt p) (p_UpdatedAt p).

Definition party_GetByID (tenantID id : ID) : M PartyDB Party :=
  p <- select_from (party_by_id tenantID id) ;;
  roles <- ListRoles tenantID id ;;
  ret (with_roles p roles).

Record PartyFilter := mkPartyFilter {
  pf_Type : option string;
  pf_RoleType : option string;
  pf_Limit : Z;
  pf_Offset : Z;
}.

(** JOIN party_roles: a party once for each of its active roles of the type. *)
Definition active_role (tenantID : ID) (roleType : string) (p : Party) (r : PartyRole) : bool :=
  bool_decide (pr_PartyID r = p_ID p) && bool_decide (pr_TenantID r = p_TenantID p)
  && String.eqb (pr_RoleType r) roleType && String.eqb (pr_Status r) "active".
Definition parties_of (tenantID : ID) (t : gmap ID Party) : list Party :=
  select_rows (fun p => sql_eq (p_TenantID p) (ToPgUUID tenantID)) t.
Definition join_roles (tenantID : ID) (roleType : string) (d : PartyDB) : list Party :=
  mjoin (map (fun p => repeat p (length (select_rows (active_role tenantID roleType p) (pa_roles d)))) (parties_of tenantID (pa_parties d))).
Definition count_by_role (tenantID : ID) (roleType : string) (d : PartyDB) : Z :=
  Z.of_nat (length (remove_dups (map p_ID (join_roles tenantID roleType d)))).

Definition typed_party (tenantID : ID) (type : option string) (p : Party) : bool :=
  sql_eq (p_TenantID p) (ToPgUUID tenantID) && narg_eq type (p_Type p).

Definition party_List (tenantID : ID) (filter : PartyFilter) : M PartyDB (list Party * Z) :=
  let limit := Z.max (pf_Limit filter) 20 in
  let offset := Z.max (pf_Offset filter) 0 in
  match pf_RoleType filter with
  | Some roleType =>
      total <- query (fun d => Ok (count_by_role tenantID roleType d, d)) ;;
      rows <- query (fun d => Ok (sql_page limit offset (merge_sort (newest p_CreatedAt) (join_roles tenantID roleType d)), d)) ;;
      ret (rows, total)
  | None =>
      total <- query (fun d => Ok (Z.of_nat (length (select_rows (typed_party tenantID (pf_Type filter)) (pa_parties d))), d)) ;;
      rows <- query (fun d => Ok (sql_page limit offset
                 (merge_sort (newest p_CreatedAt) (select_rows (typed_party tenantID (pf_Type filter)) (pa_parties d))), d)) ;;
      ret (rows, total)
  end.

(** UPDATE with COALESCE; NULL, and so no change, for the empty legal name and
    tax number and for nil metadata. *)
Definition updated_party (p : Party) (now : Time) (row : Party) : Party :=
  mkParty (p_ID row) (p_TenantID row) (p_Type row) (p_Code row) (p_Name p)
    (if String.eqb (p_LegalName p) "" then p_LegalName row else p_LegalName p)
    (if String.eqb (p_TaxID p) "" then p_TaxID row else p_TaxID p) (p_Status p)
    (match p_Metadata p with Some m => Some (pg_jsonb m) | None => p_Metadata row end) []
    (p_CreatedAt row) (pg_timestamptz now).

Definition party_Update (p : Party) : M PartyDB Party :=
  guard (match p_Metadata p with Some _ => metadata_error (p_Metadata p) | None => false end)
    (Errorf ErrInvalidInput "invalid party metadata json") ;;;
  now <- Now ;;
  update_one p_ID same_party_code (fun _ => party_refused) (party_by_id (p_TenantID p) (p_ID p)) (updated_party p now).

Definition role_row (r : PartyRole) : PartyRole :=
  mkPartyRole (pr_ID r) (pr_TenantID r) (pr_PartyID r) (opt_ref (pr_OrganizationID r)) (pr_RoleType r) (pr_Status r)
    (pg_timestamptz (pr_CreatedAt r)) (pg_timestamptz (pr_UpdatedAt r)).

Definition role_constraints (d : PartyDB) (r : PartyRole) : option error :=
  if bool_decide (is_Some (pa_parties d !! pr_PartyID r)) then role_refused r else Some fk_violation.

Definition repo_AddRole (role : PartyRole) : M PartyDB PartyRole :=
  insert_into pr_ID (fun r => [pr_TenantID r; pr_PartyID r]) same_role role_constraints (role_row role).

Definition role_by_id (tenantID roleID : ID) (r : PartyRole) : bool :=
  sql_eq (pr_TenantID r) (ToPgUUID tenantID) && sql_eq (pr_ID r) (ToPgUUID roleID).

Definition repo_RemoveRole (tenantID roleID : ID) : M PartyDB unit := delete_from (role_by_id tenantID roleID) ;;; ret tt.

(** ** Addresses and contacts *)

Definition no_address (a b : Address) : bool := false.
Definition no_contact (a b : Contact) : bool := false.

Definition address_row (a : Address) : Address :=
  mkAddress (a_ID a) (a_TenantID a) (a_Type a) (a_Label a) (a_Line1 a) (a_Line2 a) (a_City a) (a_State a) (a_PostalCode a)
    (a_CountryCode a) (pg_numeric <$> a_Latitude a) (pg_numeric <$> a_Longitude a) false
    (pg_timestamptz (a_CreatedAt a)) (pg_timestamptz (a_UpdatedAt a)).

Definition CreateAddress (a : Address) : M PartyDB Address :=
  insert_into a_ID (fun r => [a_TenantID r]) no_address (fun _ => address_refused) (address_row a).

Definition address_by_id (tenantID id : ID) (r : Address) : bool :=
  sql_eq (a_TenantID r) (ToPgUUID tenantID) && sql_eq (a_ID r) (ToPgUUID id).

Definition GetAddressByID (tenantID id : ID) : M PartyDB Address := select_from (address_by_id tenantID id).

(** INSERT ... ON CONFLICT (owner, address_id, address_type) DO UPDATE SET is_primary. *)
Definition upsert_link (owner address : bool) (key : ID * ID * string) (row : AddressLink) (t : LinkTable) : res LinkTable :=
  let '(o, a, _) := key in
  if bool_decide (NilID ∈ [al_tenant row; o; a]) then Err (ENew "null value in column violates not-null constraint")
  else match t !! key with
       | Some old => Ok (<[key := mkAddressLink (al_tenant old) (al_primary row) (al_created old)]> t)
       | None =>
           if negb (owner && address) then Err fk_violation
           else match link_refused key row with
                | Some e => Err e
                | None => Ok (<[key := row]> t)
                end
       end.

Definition LinkPartyAddress (tenantID partyID addressID : ID) (addressType : string) (isPrimary : bool) : M PartyDB unit :=
  now <- NowUTC ;;
  query (fun d =>
    match upsert_link (bool_decide (is_Some (pa_parties d !! partyID))) (bool_decide (is_Some (pa_addresses d !! addressID)))
            (partyID, addressID, addressType) (mkAddressLink tenantID isPrimary (pg_timestamptz now)) (pa_links d) with
    | Ok t => Ok (tt, set_links t d)
    | Err e => Err e
    | Panic e => Panic e
    end).

(** The organization is a row of another component. *)
Definition LinkOrganizationAddress (tenantID orgID addressID : ID) (addressType : string) (isPrimary : bool) : M PartyDB unit :=
  now <- NowUTC ;;
  query (fun d =>
    match upsert_link true (bool_decide (is_Some (pa_addresses d !! addressID)))
            (orgID, addressID, addressType) (mkAddressLink tenantID isPrimary (pg_timestamptz now)) (pa_org_links d) with
    | Ok t => Ok (tt, set_org_links t d)
    | Err e => Err e
    | Panic e => Panic e
    end).

Definition with_primary (a : Address) (b : bool) : Address :=
  mkAddress (a_ID a) (a_TenantID a) (a_Type a) (a_Label a) (a_Line1 a) (a_Line2 a) (a_City a) (a_State a) (a_PostalCode a)
    (a_CountryCode a) (a_Latitude a) (a_Longitude a) b (a_CreatedAt a) (a_UpdatedAt a).

(** The addresses linked to an owner. *)
Definition linked (tenantID owner : ID) (links : LinkTable) (addresses : gmap ID Address) : list Address :=
  omap (fun kl : (ID * ID * string) * AddressLink =>
    let '((o, a, _), l) := kl in
    match addresses !! a with
    | Some addr =>
        if sql_eq (a_TenantID addr) (ToPgUUID tenantID) && bool_decide (al_tenant l = a_TenantID addr) && sql_eq o (ToPgUUID owner)
        then Some (with_primary addr (al_primary l)) else None
    | None => None
    end) (map_to_list links).

Definition address_le : Address -> Address -> Prop := primary_first a_IsPrimary (newest a_CreatedAt).
Definition contact_le : Contact -> Contact -> Prop := primary_first c_IsPrimary (oldest c_CreatedAt).
#[export] Instance address_le_dec : RelDecision address_le := primary_first_dec _ _.
#[export] Instance contact_le_dec : RelDecision contact_le := primary_first_dec _ _.

Definition ListPartyAddresses (tenantID partyID : ID) : M PartyDB (list Address) :=
  query (fun d => Ok (merge_sort address_le (linked tenantID partyID (pa_links d) (pa_addresses d)), d)).
Definition ListOrganizationAddresses (tenantID orgID : ID) : M PartyDB (list Address) :=
  query (fun d => Ok (merge_sort address_le (linked tenantID orgID (pa_org_links d) (pa_addresses d)), d)).

Definition contact_row (c : Contact) : Contact :=
  mkContact (c_ID c) (c_TenantID c) (opt_ref (c_PartyID c)) (opt_ref (c_OrganizationID c)) (c_Type c) (c_Value c) (c_Label c)
    (c_IsPrimary c) (pg_timestamptz <$> c_VerifiedAt c) (pg_timestamptz (c_CreatedAt c)) (pg_timestamptz (c_UpdatedAt c)).

(** The foreign key to parties and the check that a contact has an owner. *)
Definition contact_constraints (d : PartyDB) (c : Contact) : option error :=
  match c_PartyID c, c_OrganizationID c with
  | None, None => Some (ENew "new row violates check constraint")
  | Some p, _ => if bool_decide (is_Some (pa_parties d !! p)) then contact_refused c else Some fk_violation
  | None, Some _ => contact_refused c
  end.

Definition CreateContact (c : Contact) : M PartyDB Contact :=
  insert_into c_ID (fun r => [c_TenantID r]) no_contact contact_constraints (contact_row c).

Definition contact_of (owner : Contact -> option ID) (tenantID id : ID) (c : Contact) : bool :=
  sql_eq (c_TenantID c) (ToPgUUID tenantID) && match owner c with Some o => sql_eq o (ToPgUUID id) | None => false end.

Definition ListPartyContacts (tenantID partyID : ID) : M PartyDB (list Contact) :=
  l <- select_all (contact_of c_PartyID tenantID partyID) ;; ret (merge_sort contact_le l).
Definition ListOrganizationContacts (tenantID orgID : ID) : M PartyDB (list Contact) :=
  l <- select_all (contact_of c_OrganizationID tenantID orgID) ;; ret (merge_sort contact_le l).

Definition contact_by_id (tenantID id : ID) (c : Contact) : bool :=
  sql_eq (c_TenantID c) (ToPgUUID tenantID) && sql_eq (c_ID c) (ToPgUUID id).

Definition DeleteContact (tenantID id : ID) : M PartyDB unit := delete_from (contact_by_id tenantID id) ;;; ret tt.
End PartyRepo.

(** ** Use case *)

Record CreatePartyCommand := mkCreateParty {
  cp_Type : string;
  cp_Code : string;
  cp_Name : string;
  cp_LegalName : string;
  cp_TaxID : string;
  cp_Metadata : AnyMap;
  cp_InitialRoles : list string;
}.

Record UpdatePartyCommand := mkUpdateParty {
  up_ID : ID;
  up_Name : string;
  up_LegalName : string;
  up_TaxID : string;
  up_Status : string;
  up_Metadata : AnyMap;
}.

Record AddRoleCommand := mkAddRole {
  ar_PartyID : ID;
  ar_OrganizationID : option ID;
  ar_RoleType : string;
}.

Record AddAddressCommand := mkAddAddress {
  aa_Type : string;
  aa_Label : string;
  aa_Line1 : string;
  aa_Line2 : string;
  aa_City : string;
  aa_State : string;
  aa_PostalCode : string;
  aa_CountryCode : string;
  aa_IsPrimary : bool;
}.

Record AddContactCommand := mkAddContact {
  act_Type : string;
  act_Value : string;
  act_Label : string;
  act_IsPrimary : bool;
}.

Record PartyDetail := mkPartyDetail { pd_Party : Party; pd_Addresses : list Address; pd_Contacts : list Contact }.
Record PartyListResult := mkPartyList { pl_Items : list Party; pl_Total : Z; pl_Page : Z; pl_PageSize : Z }.

Definition or_keep (new old : string) : string := if String.eqb new "" then old else TrimSpace new.

Section Usecase.
  Context `{Env, Pg, PartyServer, UnicodeTables}.

(** The loop over the initial roles; a role that cannot be stored is left out. *)
Fixpoint add_roles (tenantID partyID : ID) (now : Time) (roles : list string) (added : list PartyRole) : M PartyDB (list PartyRole) :=
  match roles with
  | [] => ret added
  | roleType :: roles' =>
      roleID <- NewID_ignore ;;
      r <- attempt (repo_AddRole (mkPartyRole roleID tenantID partyID None roleType StatusActive now now)) ;;
      add_roles tenantID partyID now roles' (match r with inl role => added ++ [role] | inr _ => added end)
  end.

Definition CreateParty (ctx : Ctx) (cmd : CreatePartyCommand) : M PartyDB Party :=
  tenantID <- lift_res (RequireTenantID ctx) ;;
  let name := TrimSpace (cp_Name cmd) in
  guard (String.eqb name "") (Errorf ErrInvalidInput "party name is required") ;;;
  let partyType := if String.eqb (cp_Type cmd) "" then TypeOrganization else cp_Type cmd in
  id <- NewID ;;
  now <- NowUTC ;;
  let metadata := match cp_Metadata cmd with Some m => m | None => ∅ end in
  p <- party_Create (mkParty id tenantID partyType (TrimSpace (cp_Code cmd)) name (TrimSpace (cp_LegalName cmd)) (TrimSpace (cp_TaxID cmd))
         StatusActive (Some metadata) [] now now) ;;
  roles <- add_roles tenantID (p_ID p) now (cp_InitialRoles cmd) [] ;;
  ret (with_roles p roles).

Definition GetParty (ctx : Ctx) (id : ID) : M PartyDB PartyDetail :=
  tenantID <- lift_res (RequireTenantID ctx) ;;
  p <- party_GetByID tenantID id ;;
  addresses <- ListPartyAddresses tenantID id ;;
  contacts <- ListPartyContacts tenantID id ;;
  ret (mkPartyDetail p addresses contacts).

Definition ListParties (ctx : Ctx) (page pageSize : Z) (partyType roleType : option string) : M PartyDB PartyListResult :=
  tenantID <- lift_res (RequireTenantID ctx) ;;
  let page := if page <? 1 then 1 else page in
  let pageSize := if (pageSize <? 1) || (100 <? pageSize) then 20 else pageSize in
  let offset := int32 ((page - 1) * pageSize) in
  r <- party_List tenantID (mkPartyFilter partyType roleType pageSize offset) ;;
  ret (mkPartyList r.1 r.2 page pageSize).

(** The result has no roles: the row replaces the party that was read. *)
Definition UpdateParty (ctx : Ctx) (cmd : UpdatePartyCommand) : M PartyDB Party :=
  tenantID <- lift_res (RequireTenantID ctx) ;;
  p <- party_GetByID tenantID (up_ID cmd) ;;
  now <- NowUTC ;;
  party_Update (mkParty (p_ID p) (p_TenantID p) (p_Type p) (p_Code p) (or_keep (up_Name cmd) (p_Name p))
    (or_keep (up_LegalName cmd) (p_LegalName p)) (or_keep (up_TaxID cmd) (p_TaxID p))
    (if String.eqb (up_Status cmd) "" then p_Status p else up_Status cmd)
    (match up_Metadata cmd with Some m => Some m | None => p_Metadata p end) (p_Roles p) (p_CreatedAt p) now).

Definition AddRole (ctx : Ctx) (cmd : AddRoleCommand) : M PartyDB PartyRole :=
  tenantID <- lift_res (RequireTenantID ctx) ;;
  party_GetByID tenantID (ar_PartyID cmd) ;;;
  roleID <- NewID ;;
  now <- NowUTC ;;
  repo_AddRole (mkPartyRole roleID tenantID (ar_PartyID cmd) (ar_OrganizationID cmd) (ar_RoleType cmd) StatusActive now now).

Definition RemoveRole (ctx : Ctx) (roleID : ID) : M PartyDB unit :=
  tenantID <- lift_res (RequireTenantID ctx) ;; repo_RemoveRole tenantID roleID.

Definition AddAddress (ctx : Ctx) (partyID : ID) (cmd : AddAddressCommand) : M PartyDB Address :=
  tenantID <- lift_res (RequireTenantID ctx) ;;
  party_GetByID tenantID partyID ;;;
  addrID <- NewID ;;
  let country := ToUpper (TrimSpace (aa_CountryCode cmd)) in
  let countryCode := if String.eqb country "" then "ID" else country in
  now <- NowUTC ;;
  addr <- CreateAddress (mkAddress addrID tenantID (aa_Type cmd) (aa_Label cmd) (aa_Line1 cmd) (aa_Line2 cmd) (aa_City cmd)
            (aa_State cmd) (aa_PostalCode cmd) countryCode None None false now now) ;;
  LinkPartyAddress tenantID partyID (a_ID addr) (aa_Type cmd) (aa_IsPrimary cmd) ;;;
  ret (with_primary addr (aa_IsPrimary cmd)).

Definition AddContact (ctx : Ctx) (partyID : ID) (cmd : AddContactCommand) : M PartyDB Contact :=
  tenantID <- lift_res (RequireTenantID ctx) ;;
  party_GetByID tenantID partyID ;;;
  contactID <- NewID ;;
  now <- NowUTC ;;
  CreateContact (mkContact contactID tenantID (Some partyID) None (act_Type cmd) (act_Value cmd) (act_Label cmd) (act_IsPrimary cmd) None now now).
End Usecase.

(** ** Invariant

    Keys are unique and every role, address link and contact belongs to a party
    of its own tenant, which the foreign keys alone do not ensure. *)
Record party_inv (d : PartyDB) : Prop := {
  pi_keyed : keyed p_ID (pa_parties d);
  pi_codes : unique same_party_code (pa_parties d);
  pi_rkeyed : keyed pr_ID (pa_roles d);
  pi_runique : unique same_role (pa_roles d);
  pi_akeyed : keyed a_ID (pa_addresses d);
  pi_ckeyed : keyed c_ID (pa_contacts d);
  pi_roles : map_Forall (fun _ r => exists p, pa_parties d !! pr_PartyID r = Some p /\ p_TenantID p = pr_TenantID r) (pa_roles d);
  pi_links : map_Forall (fun k l => exists p a, pa_parties d !! k.1.1 = Some p /\ pa_addresses d !! k.1.2 = Some a
               /\ p_TenantID p = al_tenant l /\ a_TenantID a = al_tenant l) (pa_links d);
  pi_contacts : map_Forall (fun _ c => forall id, c_PartyID c = Some id -> exists p, pa_parties d !! id = Some p /\ p_TenantID p = c_TenantID c) (pa_contacts d);
}.

Lemma same_party_code_sym a b : same_party_code a b = same_party_code b a.
Proof.
  unfold same_party_code. destruct (String.eqb_spec (p_Code a) (p_Code b)) as [E|E].
  - rewrite E, String.eqb_refl, !andb_true_r. f_equal. by apply bool_decide_ext.
  - rewrite (proj2 (String.eqb_neq (p_Code b) (p_Code a))) by done. by rewrite !andb_false_r.
Qed.

Lemma same_role_sym a b : same_role a b = same_role b a.
Proof.
  unfold same_role. f_equal; [f_equal; [f_equal |] |]; try apply String.eqb_sym; by apply bool_decide_ext.
Qed.

(** Parties are not removed, and keep their tenant. *)
Lemma insert_party_inv d p : party_inv d -> (forall k r, k <> p_ID p -> pa_parties d !! k = Some r -> same_party_code p r = false) ->
  (forall old, pa_parties d !! p_ID p = Some old -> p_TenantID old = p_TenantID p) ->
  party_inv (lens_set (<[p_ID p := p]> (pa_parties d)) d).
Proof.
  intros [I1 I2 I3 I4 I5 I6 I7 I8 I9] Hu Ht.
  assert (forall id t, (exists q, pa_parties d !! id = Some q /\ p_TenantID q = t) -> exists q, <[p_ID p := p]> (pa_parties d) !! id = Some q /\ p_TenantID q = t) as Hmono.
  { intros id t (q & Hq & <-). destruct (decide (id = p_ID p)) as [->|Hn].
    - exists p. rewrite lookup_insert_eq. split; [done |]. symmetry. by apply Ht.
    - exists q. by rewrite lookup_insert_ne. }
  split; cbn [lens_set Lens_pa_parties pa_parties pa_roles pa_addresses pa_links pa_org_links pa_contacts]; try done.
  - by apply keyed_insert.
  - apply unique_insert; [apply same_party_code_sym | done |]. intros k r Hk Hr. by apply (Hu k).
  - intros k r Hr. apply Hmono. by apply (I7 k).
  - intros k l Hl. destruct (I8 k l Hl) as (q & a & Hq & Ha & Tq & Ta).
    destruct (Hmono k.1.1 (al_tenant l)) as (q' & ? & ?); [eauto |]. exists q', a. split_and!; done.
  - intros k c Hc id Hid. apply Hmono. by apply (I9 k c Hc).
Qed.

(** A party of the tenant. *)
Definition owned (tenantID id : ID) (d : PartyDB) : Prop := exists p, pa_parties d !! id = Some p /\ p_TenantID p = tenantID.
Definition inv_owned (tenantID id : ID) (d : PartyDB) : Prop := party_inv d /\ owned tenantID id d.

Section Invariant.
  Context `{Env, Pg, PartyServer, UnicodeTables}.

Lemma reads_ListRoles t id : reads (ListRoles t id).
Proof. unfold ListRoles. frame. Qed.
Lemma reads_party_GetByID t id : reads (party_GetByID t id).
Proof. unfold party_GetByID, ListRoles. frame. Qed.
Lemma reads_ListPartyAddresses t id : reads (ListPartyAddresses t id).
Proof. unfold ListPartyAddresses. apply reads_query. naive_solver. Qed.
Lemma reads_ListPartyContacts t id : reads (ListPartyContacts t id).
Proof. unfold ListPartyContacts. frame. Qed.
Lemma reads_party_List t f : reads (party_List t f).
Proof. unfold party_List. destruct (pf_RoleType f); repeat (apply reads_bind; [apply reads_query; naive_solver | intros ?]); auto with go_frame. Qed.
Hint Resolve reads_ListRoles reads_party_GetByID reads_ListPartyAddresses reads_ListPartyContacts reads_party_List : go_frame.

Lemma party_GetByID_Ok t id w p w' : party_GetByID t id w = (Ok p, w') ->
  exists row k, pa_parties (w_db w) !! k = Some row /\ t <> NilID /\ id <> NilID /\ p_TenantID row = t /\ p_ID row = id
    /\ p = with_roles row (merge_sort (oldest pr_CreatedAt) (select_rows (role_of t id) (pa_roles (w_db w)))) /\ w_db w' = w_db w.
Proof.
  intros E. unfold party_GetByID, ListRoles, select_all in E. step_inv.
  match goal with X : select_from _ _ = _ |- _ => apply select_from_Ok in X as (-> & Hp & k & Hk) end.
  match goal with X : Ok (select_rows _ _, _) = Ok _ |- _ => injection X as <- <- end.
  unfold party_by_id in Hp. apply andb_true_iff in Hp as [[Ht <-]%sql_eq_true [Hid <-]%sql_eq_true].
  eexists _, k. split; [exact Hk |]. split_and!; done.
Qed.

Lemma triple_GetByID t id : triple party_inv party_inv (party_GetByID t id) (fun _ => inv_owned t id).
Proof.
  intros w Hi. destruct (party_GetByID t id w) as [[p|e|e] w'] eqn:E.
  - apply party_GetByID_Ok in E as (row & k & Hk & _ & _ & Ht & <- & _ & ->). split; [done |].
    exists row. by rewrite (pi_keyed _ Hi k row Hk).
  - pose proof (reads_party_GetByID t id w) as R. rewrite E in R. cbn in R. by rewrite R.
  - pose proof (reads_party_GetByID t id w) as R. rewrite E in R. cbn in R. by rewrite R.
Qed.

Lemma party_Create_inv p : triple party_inv party_inv (party_Create p) (fun r => inv_owned (p_TenantID p) (p_ID r)).
Proof.
  apply triple_writes_last; [unfold party_Create, metadata_guard; frame | done |]. intros w r w' Hi E.
  unfold party_Create, metadata_guard in E. step_inv. apply insert_into_Ok in E as (-> & -> & Hf & Hu & _). cbn [w_db]. split.
  - apply insert_party_inv; [done | intros k r _ Hr; by apply (Hu k) |]. intros old Ho. cbn in Hf, Ho. by rewrite Hf in Ho.
  - exists (party_row p). cbn. by rewrite lookup_insert_eq.
Qed.

Lemma party_Update_inv p : preserves party_inv (party_Update p).
Proof.
  apply preserves_writes_last; [unfold party_Update; frame |]. intros w r w' Hi E. unfold party_Update in E. step_inv.
  apply update_one_Ok in E as (k & old & Hk & Hp & -> & -> & Hu & _). cbn [w_db lens_get Lens_pa_parties tick] in *.
  pose proof (pi_keyed _ Hi k old Hk) as Ek. apply insert_party_inv; [done | |].
  - intros k' r Hne Hr. apply (Hu k' r Hr). by rewrite (pi_keyed _ Hi k' r Hr).
  - intros old' Ho. cbn in Ho. rewrite Ek, Hk in Ho. injection Ho as <-. done.
Qed.

Lemma repo_AddRole_inv role : triple party_inv (inv_owned (pr_TenantID role) (pr_PartyID role)) (repo_AddRole role)
  (fun _ => inv_owned (pr_TenantID role) (pr_PartyID role)).
Proof.
  apply triple_writes_last; [unfold repo_AddRole; frame | by intros d [] |]. intros w r w' [Hi Ho] E.
  apply insert_into_Ok in E as (-> & -> & _ & Hu & _). cbn [w_db]. split; [| exact Ho].
  destruct Hi as [I1 I2 I3 I4 I5 I6 I7 I8 I9].
  split; cbn [lens_set Lens_pa_roles pa_parties pa_roles pa_addresses pa_links pa_org_links pa_contacts lens_get] in *; try done.
  - by apply keyed_insert.
  - apply unique_insert; [apply same_role_sym | done |]. intros k r _ Hr. by apply (Hu k).
  - by apply map_Forall_insert_2.
Qed.

Lemma add_roles_inv t id now roles added : triple party_inv (inv_owned t id) (add_roles t id now roles added) (fun _ => inv_owned t id).
Proof.
  revert added. induction roles as [|r roles IH]; intros added; cbn [add_roles]; [by apply triple_ret |].
  eapply triple_bind; [apply triple_reads; [auto with go_frame | by intros d []] |]. intros roleID.
  eapply triple_bind; [| intros x; apply IH]. apply triple_attempt; [unfold repo_AddRole; frame | by intros d [] | done |].
  exact (repo_AddRole_inv (mkPartyRole roleID t id None r StatusActive now now)).
Qed.

Lemma repo_RemoveRole_inv t id : preserves party_inv (repo_RemoveRole t id).
Proof.
  apply preserves_writes_last; [unfold repo_RemoveRole; frame |]. intros w r w' [I1 I2 I3 I4 I5 I6 I7 I8 I9] E. unfold repo_RemoveRole, role_by_id in E.
  step_inv. match goal with X : delete_from _ _ = _ |- _ => apply delete_from_Ok in X as [_ ->] end.
  split; cbn [w_db lens_set Lens_pa_roles pa_parties pa_roles pa_addresses pa_links pa_org_links pa_contacts lens_get] in *; try done.
  - by apply keyed_filter.
  - by apply unique_filter.
  - intros k x [Hx _]%map_lookup_filter_Some. by apply (I7 k).
Qed.

(** An address of the tenant was stored, the party is still there. *)
Definition inv_address (t id aid : ID) (d : PartyDB) : Prop :=
  inv_owned t id d /\ exists a, pa_addresses d !! aid = Some a /\ a_TenantID a = t.

Lemma CreateAddress_inv t id a : a_TenantID a = t ->
  triple party_inv (inv_owned t id) (CreateAddress a) (fun r => inv_address t id (a_ID r)).
Proof.
  intros Ht. apply triple_writes_last; [unfold CreateAddress; frame | by intros d [] |]. intros w r w' [Hi Ho] E.
  apply insert_into_Ok in E as (-> & -> & Hf & _). cbn [w_db lens_get Lens_pa_addresses] in *.
  split; [split; [| exact Ho] | exists (address_row a); cbn; by rewrite lookup_insert_eq].
  destruct Hi as [I1 I2 I3 I4 I5 I6 I7 I8 I9].
  split; cbn [lens_set Lens_pa_addresses pa_parties pa_roles pa_addresses pa_links pa_org_links pa_contacts] in *; try done.
  - by apply keyed_insert.
  - intros k l Hl. destruct (I8 k l Hl) as (q & b & Hq & Hb & Tq & Tb). exists q, b. split_and!; try done.
    rewrite lookup_insert_ne; [done |]. intros E. by rewrite E, Hb in Hf.
Qed.

Lemma upsert_link_Ok o a key row links links' : upsert_link o a key row links = Ok links' ->
  exists l, links' = <[key := l]> links /\ (l = row \/ exists old, links !! key = Some old /\ al_tenant l = al_tenant old).
Proof.
  unfold upsert_link. destruct key as [[x y] ty]. case_bool_decide; [done |].
  destruct (links !! (x, y, ty)) as [old|] eqn:E.
  - intros [= <-]. eexists. split; [done |]. right. eauto.
  - destruct (negb _); [done |]. destruct (link_refused _ _); [done |]. intros [= <-]. eauto.
Qed.

Lemma LinkPartyAddress_inv t id aid ty b : triple party_inv (inv_address t id aid) (LinkPartyAddress t id aid ty b) (fun _ => party_inv).
Proof.
  apply triple_writes_last; [unfold LinkPartyAddress; frame | by intros d [[]] |].
  intros w r w' [[Hi (p & Hp & Tp)] (a & Ha & Ta)] E. unfold LinkPartyAddress in E. step_inv. cbn [w_db tick] in *.
  destruct (upsert_link _ _ _ _ _) as [links| |] eqn:El; [| done | done]. injection E as <- <-.
  apply upsert_link_Ok in El as (l & -> & Hl). destruct Hi as [I1 I2 I3 I4 I5 I6 I7 I8 I9].
  split; unfold set_links; cbn [pa_parties pa_roles pa_addresses pa_links pa_org_links pa_contacts]; try done.
  apply map_Forall_insert_2; [| done]. destruct Hl as [->|(old & Hold & ->)]; [by exists p, a |]. by apply (I8 _ old Hold).
Qed.

Lemma CreateContact_inv t id c : c_TenantID c = t -> c_PartyID c = Some id ->
  triple party_inv (inv_owned t id) (CreateContact c) (fun _ => party_inv).
Proof.
  intros Ht Hid. apply triple_writes_last; [unfold CreateContact; frame | by intros d [] |]. intros w r w' [Hi (p & Hp & Tp)] E.
  apply insert_into_Ok in E as (-> & -> & _). cbn [w_db lens_get Lens_pa_contacts] in *. destruct Hi as [I1 I2 I3 I4 I5 I6 I7 I8 I9].
  split; cbn [lens_set Lens_pa_contacts pa_parties pa_roles pa_addresses pa_links pa_org_links pa_contacts] in *; try done.
  - by apply keyed_insert.
  - apply map_Forall_insert_2; [| done]. intros i. cbn. rewrite Hid, Ht. cbn. destruct (decide (id = NilID)); [done |]. intros [= <-]. eauto.
Qed.

(** *** Calls *)

Inductive PartyCall :=
  | PCreate (ctx : Ctx) (cmd : CreatePartyCommand)
  | PGet (ctx : Ctx) (id : ID)
  | PList (ctx : Ctx) (page pageSize : Z) (partyType roleType : option string)
  | PUpdate (ctx : Ctx) (cmd : UpdatePartyCommand)
  | PAddRole (ctx : Ctx) (cmd : AddRoleCommand)
  | PRemoveRole (ctx : Ctx) (roleID : ID)
  | PAddAddress (ctx : Ctx) (partyID : ID) (cmd : AddAddressCommand)
  | PAddContact (ctx : Ctx) (partyID : ID) (cmd : AddContactCommand).

Definition party_call (c : PartyCall) (w : World PartyDB) : World PartyDB :=
  match c with
  | PCreate ctx cmd => (CreateParty ctx cmd w).2
  | PGet ctx id => (GetParty ctx id w).2
  | PList ctx page size ty role => (ListParties ctx page size ty role w).2
  | PUpdate ctx cmd => (UpdateParty ctx cmd w).2
  | PAddRole ctx cmd => (AddRole ctx cmd w).2
  | PRemoveRole ctx id => (RemoveRole ctx id w).2
  | PAddAddress ctx id cmd => (AddAddress ctx id cmd w).2
  | PAddContact ctx id cmd => (AddContact ctx id cmd w).2
  end.

Definition party_session (cs : list PartyCall) (w : World PartyDB) : World PartyDB := fold_left (fun w c => party_call c w) cs w.

Ltac read_on := eapply triple_bind; [apply triple_reads; [auto with go_frame | by first [intros d [] | done]] | intros ?; cbv beta].

Lemma CreateParty_inv ctx cmd : triple party_inv party_inv (CreateParty ctx cmd) (fun _ => party_inv).
Proof.
  unfold CreateParty. do 4 read_on. eapply triple_bind; [apply party_Create_inv |]. intros p. cbn [p_TenantID].
  eapply triple_bind; [apply add_roles_inv |]. intros roles. cbv beta. apply triple_ret. by intros d [].
Qed.

Lemma AddRole_inv ctx cmd : triple party_inv party_inv (AddRole ctx cmd) (fun _ => party_inv).
Proof.
  unfold AddRole. read_on. eapply triple_bind; [apply triple_GetByID |]. intros ?. cbv beta. do 2 read_on.
  eapply triple_weaken; [exact (repo_AddRole_inv (mkPartyRole _ _ (ar_PartyID cmd) _ _ _ _ _)) | done | by intros r d []].
Qed.

Lemma AddAddress_inv ctx id cmd : triple party_inv party_inv (AddAddress ctx id cmd) (fun _ => party_inv).
Proof.
  unfold AddAddress. read_on. eapply triple_bind; [apply triple_GetByID |]. intros ?. cbv beta. do 2 read_on.
  eapply triple_bind; [by apply CreateAddress_inv |]. intros addr. eapply triple_bind; [apply LinkPartyAddress_inv |]. intros ?. by apply triple_ret.
Qed.

Lemma AddContact_inv ctx id cmd : triple party_inv party_inv (AddContact ctx id cmd) (fun _ => party_inv).
Proof.
  unfold AddContact. read_on. eapply triple_bind; [apply triple_GetByID |]. intros ?. cbv beta. do 2 read_on. by apply CreateContact_inv.
Qed.

Lemma party_call_inv c w : party_inv (w_db w) -> party_inv (w_db (party_call c w)).
Proof.
  revert w. destruct c; cbn [party_call].
  - apply (triple_preserves _ _ (fun _ => party_inv)); [apply CreateParty_inv | done].
  - apply preserves_reads. unfold GetParty. frame.
  - apply preserves_reads. unfold ListParties. frame.
  - change (preserves party_inv (UpdateParty ctx cmd)). unfold UpdateParty.
    do 3 (apply preserves_bind; [auto with go_frame | intros ?]). apply party_Update_inv.
  - apply (triple_preserves _ _ (fun _ => party_inv)); [apply AddRole_inv | done].
  - change (preserves party_inv (RemoveRole ctx roleID)). unfold RemoveRole. apply preserves_bind; [auto with go_frame | intros ?]. apply repo_RemoveRole_inv.
  - apply (triple_preserves _ _ (fun _ => party_inv)); [apply AddAddress_inv | done].
  - apply (triple_preserves _ _ (fun _ => party_inv)); [apply AddContact_inv | done].
Qed.

Lemma party_session_inv cs w : party_inv (w_db w) -> party_inv (w_db (party_session cs w)).
Proof. revert w. induction cs as [|c cs IH]; intros w Hi; [done |]. apply IH. by apply party_call_inv. Qed.
End Invariant.

(** ** Isolation *)

Section PartyRows.
  Context `{Env, Pg, PartyServer, UnicodeTables}.
  Variable t : ID.

(** Everything a tenant has in the tables of parties. *)
Definition party_rows (d : PartyDB) :=
  (rows_in p_TenantID t (pa_parties d), rows_in pr_TenantID t (pa_roles d), rows_in a_TenantID t (pa_addresses d),
   rows_in al_tenant t (pa_links d), rows_in al_tenant t (pa_org_links d), rows_in c_TenantID t (pa_contacts d)).

Definition party_kept (F : _) (d : PartyDB) : Prop := party_rows d = F.

Ltac iso_insert := apply preserves_writes_last; [frame |]; intros ? ? ? Hi E; step_inv;
  match goal with X : insert_into _ _ _ _ _ _ = _ |- _ => apply insert_into_Ok in X as (-> & -> & Hn & _) end;
  unfold party_kept, party_rows in *; cbn in *; rewrite rows_in_fresh; [exact Hi | done | done].

Lemma party_Create_rows F p : p_TenantID p <> t -> preserves (party_kept F) (party_Create p).
Proof. intros Ht. unfold party_Create, metadata_guard. iso_insert. Qed.
Lemma repo_AddRole_rows F r : pr_TenantID r <> t -> preserves (party_kept F) (repo_AddRole r).
Proof. intros Ht. unfold repo_AddRole. iso_insert. Qed.
Lemma CreateAddress_rows F a : a_TenantID a <> t -> preserves (party_kept F) (CreateAddress a).
Proof. intros Ht. unfold CreateAddress. iso_insert. Qed.
Lemma CreateContact_rows F c : c_TenantID c <> t -> preserves (party_kept F) (CreateContact c).
Proof. intros Ht. unfold CreateContact. iso_insert. Qed.

Lemma repo_RemoveRole_rows F tn id : tn <> t -> preserves (party_kept F) (repo_RemoveRole tn id).
Proof.
  intros Ht. unfold repo_RemoveRole, role_by_id. apply preserves_writes_last; [frame |]. intros w r w' Hi E. step_inv.
  match goal with X : delete_from _ _ = _ |- _ => apply delete_from_Ok in X as [_ ->] end.
  unfold party_kept, party_rows in *. cbn in *.
  rewrite (rows_in_filter _ _ _ (fun x => sql_eq (pr_TenantID x) (ToPgUUID tn) && sql_eq (pr_ID x) (ToPgUUID id))); [exact Hi |].
  intros x [[_ Hx]%sql_eq_true _]%andb_true_iff. by rewrite Hx.
Qed.

Lemma party_Update_rows F p : p_TenantID p <> t ->
  triple (party_kept F) (fun d => party_inv d /\ party_kept F d) (party_Update p) (fun _ => party_kept F).
Proof.
  intros Ht. apply triple_writes_last; [unfold party_Update; frame | by intros d [] |]. intros w r w' [Hi Hk] E. unfold party_Update in E. step_inv.
  apply update_one_Ok in E as (k & old & Hold & Hp & -> & -> & _). unfold party_by_id in Hp. rewrite andb_true_iff, !sql_eq_true in Hp.
  unfold party_kept, party_rows in *. cbn in *. rewrite rows_in_insert; [exact Hk | cbn; naive_solver |].
  intros old' Ho. rewrite (pi_keyed _ Hi _ _ Hold), Hold in Ho. naive_solver.
Qed.

(** The link of an address of the party: an older one with the same key is of the
    tenant of the party. *)
Lemma LinkPartyAddress_rows F tn id aid ty b : tn <> t ->
  triple (party_kept F) (fun d => inv_address tn id aid d /\ party_kept F d) (LinkPartyAddress tn id aid ty b) (fun _ => party_kept F).
Proof.
  intros Ht. apply triple_writes_last; [unfold LinkPartyAddress; frame | by intros d [] |].
  intros w r w' [[[Hi (p & Hp & Tp)] _] Hk] E. unfold LinkPartyAddress in E. step_inv. cbn [w_db tick] in *.
  destruct (upsert_link _ _ _ _ _) as [links| |] eqn:El; [| done | done]. injection E as <- <-. apply upsert_link_Ok in El as (l & -> & Hl).
  assert (forall old, pa_links (w_db w) !! (id, aid, ty) = Some old -> al_tenant old = tn) as Hold.
  { intros old Ho. destruct (pi_links _ Hi _ old Ho) as (q & a & Hq & _ & Tq & _). cbn in Hq. rewrite Hp in Hq. congruence. }
  unfold party_kept, party_rows, set_links in *. cbn in *. rewrite rows_in_insert; [exact Hk | |].
  - destruct Hl as [->|(old & Ho & ->)]; [done |]. by rewrite (Hold old Ho).
  - intros old Ho. by rewrite (Hold old Ho).
Qed.

#[local] Hint Resolve reads_ListRoles reads_party_GetByID reads_ListPartyAddresses reads_ListPartyContacts reads_party_List : go_frame.
#[local] Hint Resolve party_Create_rows repo_AddRole_rows CreateAddress_rows CreateContact_rows repo_RemoveRole_rows : table_inv.

Section Calls.
  Variable ctx : Ctx.
  Hypothesis other : ctx_tenant ctx <> Some t.

Lemma add_roles_rows F tn id now roles added : tn <> t -> preserves (party_kept F) (add_roles tn id now roles added).
Proof. intros Ht. revert added. induction roles as [|r roles IH]; intros added; cbn [add_roles]; keep. Qed.
#[local] Hint Resolve add_roles_rows : table_inv.

Lemma CreateParty_rows F cmd : preserves (party_kept F) (CreateParty ctx cmd).
Proof. apply (preserves_other _ t); [done |]. intros tn Ht. keep. Qed.
Lemma AddRole_rows F cmd : preserves (party_kept F) (AddRole ctx cmd).
Proof. apply (preserves_other _ t); [done |]. intros tn Ht. keep. Qed.
Lemma RemoveRole_rows F id : preserves (party_kept F) (RemoveRole ctx id).
Proof. apply (preserves_other _ t); [done |]. intros tn Ht. keep. Qed.
Lemma AddContact_rows F id cmd : preserves (party_kept F) (AddContact ctx id cmd).
Proof. apply (preserves_other _ t); [done |]. intros tn Ht. keep. Qed.

(** With the invariant. *)
Definition party_safe (F : _) (d : PartyDB) : Prop := party_inv d /\ party_kept F d.

Lemma UpdateParty_rows F cmd : triple (party_kept F) (party_safe F) (UpdateParty ctx cmd) (fun _ => party_kept F).
Proof.
  apply (triple_other _ _ t); [done | by intros d [] |]. intros tn Ht.
  apply triple_read_fact with (X := fun p => p_TenantID p = tn); [apply reads_party_GetByID | by intros d [] | |].
  { intros w p w' E. apply party_GetByID_Ok in E as (row & k & _ & _ & _ & Hr & _ & -> & _). done. }
  intros p Hp. eapply triple_bind; [apply triple_reads; [auto with go_frame | by intros d []] |]. intros now. cbv beta.
  apply party_Update_rows. cbn. congruence.
Qed.

Lemma AddAddress_rows F id cmd : triple (party_safe F) (party_safe F) (AddAddress ctx id cmd) (fun _ => party_safe F).
Proof.
  apply (triple_other _ _ t); [done | done |]. intros tn Ht.
  eapply triple_bind; [apply triple_conj; [apply triple_GetByID | apply (triple_reads (party_kept F) (party_kept F)); [auto with go_frame | done]] |]. intros p. cbv beta.
  do 2 (eapply triple_bind; [apply triple_reads; [auto with go_frame | by intros d [[]]] | intros ?; cbv beta]).
  eapply triple_bind.
  { apply triple_conj; [by apply CreateAddress_inv | by apply (preserves_triple (party_kept F)), CreateAddress_rows]. }
  intros addr. cbv beta. eapply triple_bind.
  - eapply triple_weaken; [apply triple_conj; [apply LinkPartyAddress_inv | by apply LinkPartyAddress_rows] | intros d [Ha Hk]; split; [exact Ha | split; [exact Ha | exact Hk]] | by intros ? ?].
  - intros u. cbv beta. apply triple_ret. done.
Qed.
End Calls.

Definition party_ctx (c : PartyCall) : Ctx :=
  match c with
  | PCreate ctx _ | PGet ctx _ | PList ctx _ _ _ _ | PUpdate ctx _ | PAddRole ctx _ | PRemoveRole ctx _ | PAddAddress ctx _ _ | PAddContact ctx _ _ => ctx
  end.

Lemma party_call_rows c w : party_inv (w_db w) -> ctx_tenant (party_ctx c) <> Some t -> party_rows (w_db (party_call c w)) = party_rows (w_db w).
Proof.
  intros Hi Ho. destruct c; cbn [party_call party_ctx] in *.
  - by apply (CreateParty_rows ctx Ho (party_rows (w_db w)) cmd w).
  - assert (reads (GetParty ctx id)) as Hr by (unfold GetParty; frame). by rewrite Hr.
  - assert (reads (ListParties ctx page pageSize partyType roleType)) as Hr by (unfold ListParties; frame). by rewrite Hr.
  - pose proof (UpdateParty_rows ctx Ho (party_rows (w_db w)) cmd w ltac:(done)) as Hu. by destruct (UpdateParty ctx cmd w) as [[a|e|e] w'].
  - by apply (AddRole_rows ctx Ho (party_rows (w_db w)) cmd w).
  - by apply (RemoveRole_rows ctx Ho (party_rows (w_db w)) roleID w).
  - pose proof (AddAddress_rows ctx Ho (party_rows (w_db w)) partyID cmd w ltac:(done)) as Ha. destruct (AddAddress ctx partyID cmd w) as [[a|e|e] w']; apply Ha.
  - by apply (AddContact_rows ctx Ho (party_rows (w_db w)) partyID cmd w).
Qed.

Lemma party_session_rows cs w : party_inv (w_db w) -> Forall (fun c => ctx_tenant (party_ctx c) <> Some t) cs ->
  party_rows (w_db (party_session cs w)) = party_rows (w_db w).
Proof.
  intros Hi Hc. revert w Hi. induction Hc as [|c cs Ho Hc IH]; intros w Hi; [done |].
  change (party_session (c :: cs) w) with (party_session cs (party_call c w)). rewrite IH by by apply party_call_inv.
  by apply party_call_rows.
Qed.
End PartyRows.

(** ** The detail of a party *)

(** What a complete detail is, in terms of the tables. *)
Record detail_of (id : ID) (d : PartyDB) (res : PartyDetail) : Prop := {
  dt_party : exists row, pa_parties d !! id = Some row /\ pd_Party res = with_roles row (p_Roles (pd_Party res));
  dt_roles : forall r, r ∈ p_Roles (pd_Party res) <-> pr_PartyID r = id /\ exists k, pa_roles d !! k = Some r;
  dt_has_role : forall ty, HasRole (pd_Party res) ty = true <->
    exists k r, pa_roles d !! k = Some r /\ pr_PartyID r = id /\ pr_RoleType r = ty /\ pr_Status r = StatusActive;
  dt_addresses : forall a, a ∈ pd_Addresses res <->
    exists aid ty l row, pa_links d !! (id, aid, ty) = Some l /\ pa_addresses d !! aid = Some row /\ a = with_primary row (al_primary l);
  dt_contacts : forall c, c ∈ pd_Contacts res <-> c_PartyID c = Some id /\ exists k, pa_contacts d !! k = Some c;
  dt_order : Sorted address_le (pd_Addresses res) /\ Sorted contact_le (pd_Contacts res);
}.

Section Detail.
  Context `{Env, Pg, PartyServer, UnicodeTables}.
  Variables (t id : ID) (d : PartyDB).
  Hypotheses (Hi : party_inv d) (Ho : owned t id d) (Ht : t <> NilID) (Hid : id <> NilID).

(** The tenant conditions of the queries lose nothing. *)
Lemma role_of_party r k : pa_roles d !! k = Some r -> role_of t id r = true <-> pr_PartyID r = id.
Proof.
  intros Hk. unfold role_of. rewrite andb_true_iff, !sql_eq_true. split; [naive_solver |]. intros E. split_and!; try done.
  destruct (pi_roles _ Hi k r Hk) as (p & Hp & <-). destruct Ho as (p' & Hp' & <-). rewrite E, Hp' in Hp. congruence.
Qed.

Lemma contact_of_party c k : pa_contacts d !! k = Some c -> contact_of c_PartyID t id c = true <-> c_PartyID c = Some id.
Proof.
  intros Hk. unfold contact_of. rewrite andb_true_iff, sql_eq_true. split.
  - intros [_ E]. destruct (c_PartyID c) as [o|]; [| done]. apply sql_eq_true in E as [_ ->]. done.
  - intros E. rewrite E, sql_eq_true. split_and!; try done.
    destruct (pi_contacts _ Hi k c Hk id E) as (p & Hp & <-). destruct Ho as (p' & Hp' & <-). congruence.
Qed.

Lemma elem_of_linked a : a ∈ linked t id (pa_links d) (pa_addresses d) <->
  exists aid ty l row, pa_links d !! (id, aid, ty) = Some l /\ pa_addresses d !! aid = Some row /\ a = with_primary row (al_primary l).
Proof.
  unfold linked. rewrite list_elem_of_omap. split.
  - intros ([[[o aid] ty] l] & Hin%elem_of_map_to_list & E). destruct (pa_addresses d !! aid) as [row|] eqn:Ea; [| done].
    destruct (_ && _ && _) eqn:Eb; [| done]. injection E as <-. apply andb_true_iff in Eb as [_ [_ ->]%sql_eq_true]. eauto 10.
  - intros (aid & ty & l & row & Hl & Ha & ->). exists ((id, aid, ty), l). split; [by apply elem_of_map_to_list |]. rewrite Ha.
    destruct (pi_links _ Hi _ l Hl) as (p & a & Hp & Ha' & Tp & Ta). cbn in Hp, Ha'. destruct Ho as (p' & Hp' & Tp').
    rewrite Hp in Hp'. injection Hp' as ->. rewrite Ha in Ha'. injection Ha' as ->.
    assert (sql_eq (a_TenantID a) (ToPgUUID t) && bool_decide (al_tenant l = a_TenantID a) && sql_eq id (ToPgUUID id) = true) as ->; [| done].
    rewrite !andb_true_iff, !sql_eq_true, bool_decide_eq_true. split_and!; congruence.
Qed.

Lemma detail_complete row : pa_parties d !! id = Some row ->
  detail_of id d (mkPartyDetail (with_roles row (merge_sort (oldest pr_CreatedAt) (select_rows (role_of t id) (pa_roles d))))
    (merge_sort address_le (linked t id (pa_links d) (pa_addresses d)))
    (merge_sort contact_le (select_rows (contact_of c_PartyID t id) (pa_contacts d)))).
Proof.
  intros Hrow. assert (forall r, r ∈ merge_sort (oldest pr_CreatedAt) (select_rows (role_of t id) (pa_roles d))
    <-> pr_PartyID r = id /\ exists k, pa_roles d !! k = Some r) as Hroles.
  { intros r. rewrite merge_sort_Permutation, elem_of_select_rows. split; intros (A & k & Hk); (split; [by eapply role_of_party | by exists k]). }
  split; cbn [pd_Party pd_Addresses pd_Contacts with_roles p_Roles].
  - by exists row.
  - exact Hroles.
  - intros ty. unfold HasRole. cbn [with_roles p_Roles]. rewrite existsb_exists. setoid_rewrite <- list_elem_of_In. setoid_rewrite Hroles.
    setoid_rewrite andb_true_iff. setoid_rewrite String.eqb_eq. naive_solver.
  - intros a. rewrite merge_sort_Permutation. apply elem_of_linked.
  - intros c. rewrite merge_sort_Permutation, elem_of_select_rows. split; intros (A & k & Hk); (split; [by eapply contact_of_party | by exists k]).
  - split; apply Sorted_merge_sort; apply _.
Qed.
End Detail.

(** ** Properties *)

(** C23: whatever calls are made and whatever fails in them, the tables of
    parties stay consistent: codes are unique per tenant and roles per party,
    and every role and contact refers to a party, and every address link to a party
    and an address, of its own tenant.  (The organization of a role is not part of
    this: it is not checked, see [PartyDemo.foreign_organization].)  And tenants are isolated: one that makes no call keeps
    exactly its parties, roles, addresses, links and contacts. *)
Theorem party_invariant `{Env, Pg, PartyServer, UnicodeTables} (cs : list PartyCall) (w : World PartyDB) :
  party_inv (w_db w) ->
  party_inv (w_db (party_session cs w))
  /\ forall t, Forall (fun c => ctx_tenant (party_ctx c) <> Some t) cs -> party_rows t (w_db (party_session cs w)) = party_rows t (w_db w).
Proof. intros Hi. split; [by apply party_session_inv |]. intros t Hc. by apply party_session_rows. Qed.

(** the detail of a party is complete.  For a party of the tenant in the
    request, [GetParty] returns its row with every role, linked address and
    contact stored for it and no others, primary ones first, and [HasRole] is
    true exactly for its stored active roles; for any other identifier it
    returns the not-found error. *)
Theorem GetParty_exact `{Env, Pg, PartyServer, UnicodeTables} (ctx : Ctx) (t id : ID) (w : World PartyDB) :
  party_inv (w_db w) -> (forall n, env_fault n = None) -> RequireTenantID ctx = Ok t -> id <> NilID ->
  (owned t id (w_db w) -> exists res w', GetParty ctx id w = (Ok res, w') /\ detail_of id (w_db w) res)
  /\ (~ owned t id (w_db w) -> exists w', GetParty ctx id w = (Err (ESentinel ErrNotFound), w')).
Proof.
  intros Hi Hf Ht Hid. pose proof (proj1 (RequireTenantID_Ok ctx t) Ht) as [_ Htn].
  unfold GetParty, lift_res, party_GetByID, ListRoles, ListPartyAddresses, ListPartyContacts, select_from, select_all, query, bind, ret.
  rewrite Ht, !Hf. cbn [lens_get Lens_pa_parties Lens_pa_roles Lens_pa_contacts w_db]. split.
  - intros Ho. pose proof Ho as (row & Hrow & Tr). pose proof (pi_keyed _ Hi id row Hrow) as Er.
    rewrite (select_one_unique _ (pa_parties (w_db w)) id row Hrow).
    + cbv iota. rewrite !Hf. do 2 eexists. split; [done |]. by apply detail_complete.
    + unfold party_by_id. by rewrite andb_true_iff, !sql_eq_true.
    + unfold party_by_id. intros k r Hr E. apply andb_true_iff in E as [_ [_ E]%sql_eq_true]. rewrite (pi_keyed _ Hi k r Hr) in E. congruence.
  - intros Ho. rewrite (proj2 (select_one_None _ _)); [by eexists |]. intros k r Hr. apply not_true_is_false. unfold party_by_id.
    intros [[_ E1]%sql_eq_true [_ E2]%sql_eq_true]%andb_true_iff. apply Ho. exists r. by rewrite <- E2, (pi_keyed _ Hi k r Hr).
Qed.

(** *** A run *)

Module PartyDemo.
(** The organizations that the foreign key of roles knows, with their tenants. *)
Definition organizations : list (ID * ID) := [(90%N, 6%N)].
Definition server : PartyServer := {| metadata_error _ := false; party_refused _ := None;
  role_refused r := match pr_OrganizationID r with Some o => if bool_decide (o ∈ organizations.*1) then None else Some (ENew "foreign key") | None => None end; address_refused _ := None;
  link_refused k _ := if String.eqb k.2 "refused" then Some (ENew "refused") else None; contact_refused _ := None |}.
Definition env : Env := calm (mkTime (1750000000 * Second) 0) Second.
#[local] Existing Instances server env.
#[local] Instance pg : Pg := pgx 0.

Definition request : Ctx := WithTenantID Background 5%N.
Definition empty : World PartyDB := mkWorld (mkPartyDB ∅ ∅ ∅ ∅ ∅ ∅) 0%nat.
Definition address (ty : string) (primary : bool) : AddAddressCommand := mkAddAddress ty "" "Jl. Merdeka 1" "" "Jakarta" "" "" " id " primary.
Definition calls : list PartyCall :=
  [PCreate request (mkCreateParty "" "C-1" "PT Maju Jaya" "" "" None ["customer"; "customer"; "supplier"]);
   PAddRole request (mkAddRole 1%N (Some 90%N) "customer");
   PAddAddress request 1%N (address "billing" false); PAddAddress request 1%N (address "shipping" true);
   PAddAddress request 1%N (address "refused" true);
   PAddContact request 1%N (mkAddContact "email" "info@maju.example" "" true)].
Definition busy : World PartyDB := party_session calls empty.

Lemma empty_party_inv : party_inv (w_db empty).
Proof.
  split; cbn [empty w_db pa_parties pa_roles pa_addresses pa_links pa_contacts]; try apply map_Forall_empty.
  all: first [intros ? ? Hr; by rewrite lookup_empty in Hr | intros ? ? ? ? Hr; by rewrite lookup_empty in Hr].
Qed.

(** Another tenant tries the same party, and adds one of its own. *)
Definition rival : Ctx := WithTenantID Background 6%N.
Definition rival_calls : list PartyCall :=
  [PCreate rival (mkCreateParty "" "C-1" "CV Lain" "" "" None []); PUpdate rival (mkUpdateParty 1%N "Mine" "" "" "" None);
   PRemoveRole rival 3%N; PAddAddress rival 1%N (address "billing" true)].

Lemma party_invariant_witness :
  party_inv (w_db (party_session rival_calls busy)) /\ party_rows 5%N (w_db (party_session rival_calls busy)) = party_rows 5%N (w_db busy)
  /\ size (pa_roles (w_db busy)) = 3%nat /\ size (pa_links (w_db busy)) = 2%nat
  /\ size (pa_parties (w_db (party_session rival_calls busy))) = 2%nat.
Proof.
  destruct (party_invariant rival_calls busy (party_session_inv calls empty empty_party_inv)) as [Hi Hr].
  split; [exact Hi |]. split; [apply Hr; repeat constructor; done |]. split_and!; by vm_compute.
Defined.

Lemma GetParty_exact_witness : exists res w', GetParty request 1%N busy = (Ok res, w') /\ detail_of 1%N (w_db busy) res
  /\ map a_Type (pd_Addresses res) = ["shipping"; "billing"] /\ HasRole (pd_Party res) "supplier" = true.
Proof.
  assert (owned 5%N 1%N (w_db busy)) as Ho.
  { destruct (pa_parties (w_db busy) !! 1%N) as [p|] eqn:E; [| by vm_compute in E]. exists p. split; [exact E |].
    assert (Some p = pa_parties (w_db busy) !! 1%N) as X by by rewrite E. vm_compute in X. by injection X as ->. }
  destruct (GetParty_exact request 5%N 1%N busy) as [(res & w' & E & Hd) _];
    [apply party_session_inv, empty_party_inv | done | done | done | exact Ho |].
  assert (res = match GetParty request 1%N busy with (Ok x, _) => x | _ => res end) as X by by rewrite E.
  exists res, w'. split; [exact E |]. split; [exact Hd |]. rewrite X. split; by vm_compute.
Defined.

(** A gap: the organization of a role is not looked up, and the foreign key does not
    compare tenants, so a role of tenant 5 refers to the organization 90 of tenant 6.
    An organization that does not exist is refused. *)
Theorem foreign_organization :
  (exists k r, pa_roles (w_db busy) !! k = Some r /\ pr_TenantID r = 5%N /\ pr_OrganizationID r = Some 90%N)
  /\ (90%N, 6%N) ∈ organizations /\ is_Ok (AddRole request (mkAddRole 1%N (Some 91%N) "customer") busy).1 = false.
Proof.
  split; [| split; [by left | by vm_compute]].
  assert (exists kr, kr ∈ map_to_list (pa_roles (w_db busy)) /\ pr_TenantID kr.2 = 5%N /\ pr_OrganizationID kr.2 = Some 90%N) as ([k r] & Hin & Hr).
  { assert (existsb (fun kr => bool_decide (pr_TenantID kr.2 = 5%N /\ pr_OrganizationID kr.2 = Some 90%N)) (map_to_list (pa_roles (w_db busy))) = true) as X by by vm_compute.
    apply existsb_exists in X as (kr & Hin%list_elem_of_In & Hd%bool_decide_eq_true). by exists kr. }
  exists k, r. split; [by apply elem_of_map_to_list | done].
Qed.

(** A failed link leaves the new address behind, linked to nobody; a party with
    two customer roles is listed twice although it is counted once; and the
    result of an update has no roles. *)
Theorem party_gaps :
  size (pa_addresses (w_db busy)) = 3%nat /\ size (pa_links (w_db busy)) = 2%nat
  /\ (exists l w', ListParties request 1 20 None (Some "customer") busy = (Ok l, w') /\ map p_ID (pl_Items l) = [1; 1]%N /\ pl_Total l = 1)
  /\ (exists p w', UpdateParty request (mkUpdateParty 1%N "Maju" "" "" "" None) busy = (Ok p, w') /\ p_Roles p = []).
Proof. split; [by vm_compute |]. split; [by vm_compute |]. split; do 2 eexists; (split; [vm_compute; reflexivity |]); [split |]; reflexivity. Qed.
End PartyDemo.
