(* ===== verification/Communication.v ===== *)
(** * Comments, mentions, notifications and the activity timeline

    [internal/core/domain/communication], the repository
    [communication_repo.go] with [queries/communication.sql], and
    [internal/core/usecase/communication/communication_usecase.go], which writes
    comments, notifications, outbox events and audit entries in one transaction
    and reads comments, audit entries and attachments back as one timeline. *)

From S2P Require Import Prelude GoStrings Crypto GoTime GoFloat Sdk Tables Outbox AuditTrail Attachments Identity.
#[local] Open Scope string_scope.
#[local] Open Scope list_scope.
#[local] Open Scope Z_scope.

(** ** Domain *)

Definition CommentTypeGeneral : string := "comment".
Definition CommentTypeInternalNote : string := "internal_note".
Definition NotificationTypeMention : string := "mention".

Record Comment := mkComment {
  cm_ID : ID;
  cm_TenantID : ID;
  cm_EntityType : string;
  cm_EntityID : ID;
  cm_AuthorID : ID;
  cm_Type : string;
  cm_Content : string;
  cm_Mentions : list ID;
  cm_ParentID : option ID;
  cm_IsPinned : bool;
  cm_Metadata : AnyMap;
  cm_CreatedAt : Time;
  cm_UpdatedAt : Time;
}.

Record CommentWithAuthor := mkCommentWithAuthor { ca_Comment : Comment; ca_AuthorName : string; ca_AuthorEmail : string }.

Record Notification := mkNotification {
  nt_ID : ID;
  nt_TenantID : ID;
  nt_UserID : ID;
  nt_ActorID : option ID;
  nt_Type : string;
  nt_Title : string;
  nt_Message : string;
  nt_EntityType : string;
  nt_EntityID : option ID;
  nt_IsRead : bool;
  nt_ReadAt : option Time;
  nt_Metadata : AnyMap;
  nt_CreatedAt : Time;
}.

Record ActivityItem := mkActivityItem {
  ai_ID : ID;
  ai_Timestamp : Time;
  ai_ActivityType : string;
  ai_ActorID : option ID;
  ai_ActorName : string;
  ai_Title : string;
  ai_Description : string;
  ai_Payload : AnyMap;
}.

(** *** Mentions *)

(** The class of the regular expression [@([a-zA-Z0-9_\.\-]+)]. *)
Definition mention_char (c : ascii) : bool :=
  let b := byte_of c in
  (((97 <=? b) && (b <=? 122)) || ((65 <=? b) && (b <=? 90)) || ((48 <=? b) && (b <=? 57))
   || (b =? 95) || (b =? 46) || (b =? 45))%N.

(** The longest prefix in the class. *)
Fixpoint mention_run (s : string) : string :=
  match s with
  | String c s' => if mention_char c then String c (mention_run s') else ""
  | "" => ""
  end.

(** [FindAllStringSubmatch]: the groups of the leftmost matches in order.  A
    match has no further at sign, so no match starts inside another. *)
Fixpoint mention_matches (s : string) : list string :=
  match s with
  | "" => []
  | String c s' =>
      if Ascii.eqb c "@" then
        match mention_run s' with "" => mention_matches s' | m => m :: mention_matches s' end
      else mention_matches s'
  end.

(** The loop that trims and drops repetitions. *)
Fixpoint unique_mentions (seen : gset string) (matches : list string) : list string :=
  match matches with
  | [] => []
  | m :: rest =>
      let val := TrimSpace m in
      if negb (String.eqb val "") && negb (bool_decide (val ∈ seen))
      then val :: unique_mentions ({[val]} ∪ seen) rest
      else unique_mentions seen rest
  end.

Definition ExtractMentionStrings (content : string) : list string := unique_mentions ∅ (mention_matches content).

(** ** Tables *)

Record CommDB := mkCommDB {
  co_comments : gmap ID Comment;
  co_notifications : gmap ID Notification;
  co_users : gmap ID User;
  co_outbox : OutboxTable;
  co_audit : AuditTable;
  co_files : FileDB;
}.

#[export] Instance Lens_co_comments : Lens CommDB (gmap ID Comment).
Proof.
  refine {| lens_get := co_comments;
            lens_set e d := mkCommDB e (co_notifications d) (co_users d) (co_outbox d) (co_audit d) (co_files d) |}; by intros; try destruct d.
Defined.
#[export] Instance Lens_co_notifications : Lens CommDB (gmap ID Notification).
Proof.
  refine {| lens_get := co_notifications;
            lens_set e d := mkCommDB (co_comments d) e (co_users d) (co_outbox d) (co_audit d) (co_files d) |}; by intros; try destruct d.
Defined.
#[export] Instance Lens_co_outbox : Lens CommDB OutboxTable.
Proof.
  refine {| lens_get := co_outbox;
            lens_set e d := mkCommDB (co_comments d) (co_notifications d) (co_users d) e (co_audit d) (co_files d) |}; by intros; try destruct d.
Defined.
#[export] Instance Lens_co_audit : Lens CommDB AuditTable.
Proof.
  refine {| lens_get := co_audit;
            lens_set e d := mkCommDB (co_comments d) (co_notifications d) (co_users d) (co_outbox d) e (co_files d) |}; by intros; try destruct d.
Defined.
#[export] Instance Lens_co_files : Lens CommDB FileDB.
Proof.
  refine {| lens_get := co_files;
            lens_set e d := mkCommDB (co_comments d) (co_notifications d) (co_users d) (co_outbox d) (co_audit d) e |}; by intros; try destruct d.
Defined.

(** Rows refused for other reasons (lengths, tenants that do not exist), and
    metadata that does not marshal. *)
Class CommServer := {
  comm_metadata_error : AnyMap -> bool;
  comment_refused : Comment -> option error;
  notification_refused : Notification -> option error;
  comm_outbox_refused : OutboxRow -> option error;
  comm_audit_refused : AuditLog -> option error;
}.

(** The order in which Go iterates over a set of identifiers kept as a map, and
    the order [sort.Slice] gives to elements that compare equal. *)
Class GoOrder := {
  range_ids : gset ID -> list ID;
  sort_Slice : forall A, (A -> A -> bool) -> list A -> list A;
}.
Arguments sort_Slice {_ A} _ _.

(** What the language and the package [sort] promise. *)
Definition range_ok `{GoOrder} : Prop := forall s, Permutation (range_ids s) (elements s).
Definition sort_ok `{GoOrder} : Prop := forall A (less : A -> A -> bool) l,
  Permutation (sort_Slice less l) l
  /\ (Transitive (fun x y => less y x = false) -> (forall x y, less x y = true -> less y x = false) ->
      StronglySorted (fun x y => less y x = false) (sort_Slice less l)).

(** ** Repository

    [at_] is NOW() of the transaction a statement runs in. *)

Section CommRepo.
  Context `{Env, Pg, CommServer}.

Definition stored_metadata (m : AnyMap) : AnyMap := if comm_metadata_error m then Some ∅ else pg_jsonb <$> m.

Definition comment_row (at_ : Time) (c : Comment) : Comment :=
  mkComment (cm_ID c) (cm_TenantID c) (cm_EntityType c) (cm_EntityID c) (cm_AuthorID c) (cm_Type c) (cm_Content c)
    (cm_Mentions c) (opt_ref (cm_ParentID c)) (cm_IsPinned c) (stored_metadata (cm_Metadata c))
    (pg_timestamptz at_) (pg_timestamptz at_).

(** REFERENCES users(id) and REFERENCES comments(id). *)
Definition comment_constraints (d : CommDB) (c : Comment) : option error :=
  if bool_decide (is_Some (co_users d !! cm_AuthorID c))
     && match cm_ParentID c with Some p => bool_decide (is_Some (co_comments d !! p)) | None => true end
  then comment_refused c else Some fk_violation.

Definition no_key {R} (a b : R) : bool := false.

Definition with_times (c row : Comment) : Comment :=
  mkComment (cm_ID c) (cm_TenantID c) (cm_EntityType c) (cm_EntityID c) (cm_AuthorID c) (cm_Type c) (cm_Content c)
    (cm_Mentions c) (cm_ParentID c) (cm_IsPinned c) (cm_Metadata c) (cm_CreatedAt row) (cm_UpdatedAt row).

Definition repo_CreateComment (at_ : Time) (c : Comment) : M CommDB Comment :=
  row <- insert_into cm_ID (fun r => [cm_TenantID r; cm_EntityID r; cm_AuthorID r]) no_key comment_constraints (comment_row at_ c) ;;
  ret (with_times c row).

Definition comment_by_id (tenantID id : ID) (r : Comment) : bool :=
  sql_eq (cm_TenantID r) (ToPgUUID tenantID) && sql_eq (cm_ID r) (ToPgUUID id).

Definition GetCommentByID (tenantID id : ID) : M CommDB Comment := select_from (comment_by_id tenantID id).

Definition comment_of (tenantID : ID) (entityType : string) (entityID : ID) (r : Comment) : bool :=
  sql_eq (cm_TenantID r) (ToPgUUID tenantID) && String.eqb (cm_EntityType r) entityType && sql_eq (cm_EntityID r) (ToPgUUID entityID).

(** JOIN users. *)
Definition with_author (d : CommDB) (c : Comment) : option CommentWithAuthor :=
  u ← co_users d !! cm_AuthorID c; Some (mkCommentWithAuthor c (u_Name u) (u_Email u)).

(** ORDER BY is_pinned DESC, created_at ASC. *)
Definition pinned_first (a b : CommentWithAuthor) : Prop :=
  primary_first (fun c => cm_IsPinned (ca_Comment c)) (oldest (fun c => cm_CreatedAt (ca_Comment c))) a b.
#[export] Instance pinned_first_dec : RelDecision pinned_first := primary_first_dec _ _.

Definition comments_of (tenantID : ID) (entityType : string) (entityID : ID) (d : CommDB) : list CommentWithAuthor :=
  merge_sort pinned_first (omap (with_author d) (select_rows (comment_of tenantID entityType entityID) (co_comments d))).

Definition ListCommentsByEntity (tenantID : ID) (entityType : string) (entityID : ID) : M CommDB (list CommentWithAuthor) :=
  query (fun d => Ok (comments_of tenantID entityType entityID d, d)).

(** parent_id REFERENCES comments(id) ON DELETE CASCADE: the rows that go with
    the rows of [dead].  Every round adds a row or changes nothing, so as many
    rounds as there are rows are enough. *)
Definition replies (t : gmap ID Comment) (dead : gset ID) : gset ID :=
  dom (filter (fun kv => match cm_ParentID kv.2 with Some p => bool_decide (p ∈ dead) | None => false end = true) t).
Definition cascade (t : gmap ID Comment) (dead : gset ID) : gset ID :=
  Nat.iter (size t) (fun s => s ∪ replies t s) dead.

Definition delete_comments (p : Comment -> bool) (t : gmap ID Comment) : gmap ID Comment :=
  let dead := cascade t (dom (filter (fun kv => p kv.2 = true) t)) in
  filter (fun kv => kv.1 ∉ dead) t.

Definition repo_DeleteComment (tenantID id : ID) : M CommDB unit :=
  query (fun d => Ok (tt, lens_set (delete_comments (comment_by_id tenantID id) (co_comments d)) d)).

Definition notification_row (at_ : Time) (n : Notification) : Notification :=
  mkNotification (nt_ID n) (nt_TenantID n) (nt_UserID n) (opt_ref (nt_ActorID n)) (nt_Type n) (nt_Title n) (nt_Message n)
    (nt_EntityType n) (opt_ref (nt_EntityID n)) (nt_IsRead n) None (stored_metadata (nt_Metadata n)) (pg_timestamptz at_).

Definition notification_constraints (d : CommDB) (n : Notification) : option error :=
  if bool_decide (is_Some (co_users d !! nt_UserID n))
     && match nt_ActorID n with Some a => bool_decide (is_Some (co_users d !! a)) | None => true end
  then notification_refused n else Some fk_violation.

(** The caller keeps only the time of creation. *)
Definition CreateNotification (at_ : Time) (n : Notification) : M CommDB Time :=
  row <- insert_into nt_ID (fun r => [nt_TenantID r; nt_UserID r]) no_key notification_constraints (notification_row at_ n) ;;
  ret (nt_CreatedAt row).

Definition notification_by_id (tenantID id : ID) (r : Notification) : bool :=
  sql_eq (nt_TenantID r) (ToPgUUID tenantID) && sql_eq (nt_ID r) (ToPgUUID id).

Definition GetNotificationByID (tenantID id : ID) : M CommDB Notification := select_from (notification_by_id tenantID id).

Definition inbox_of (tenantID userID : ID) (r : Notification) : bool :=
  sql_eq (nt_TenantID r) (ToPgUUID tenantID) && sql_eq (nt_UserID r) (ToPgUUID userID).

Definition ListNotificationsByUser (tenantID userID : ID) (unreadOnly : bool) (limit offset : Z) : M CommDB (list Notification) :=
  query (fun d =>
    if offset <? 0 then Err (ENew "OFFSET must not be negative")
    else Ok (sql_page limit offset (merge_sort (newest nt_CreatedAt)
               (select_rows (fun r => inbox_of tenantID userID r && (if unreadOnly then negb (nt_IsRead r) else true)) (co_notifications d))), d)).

Definition read_row (at_ : Time) (n : Notification) : Notification :=
  mkNotification (nt_ID n) (nt_TenantID n) (nt_UserID n) (nt_ActorID n) (nt_Type n) (nt_Title n) (nt_Message n)
    (nt_EntityType n) (nt_EntityID n) true (Some (pg_timestamptz at_)) (nt_Metadata n) (nt_CreatedAt n).

(** UPDATE notifications SET is_read = true, read_at = NOW() WHERE ... *)
Definition mark_rows (p : Notification -> bool) (at_ : Time) (t : gmap ID Notification) : gmap ID Notification :=
  (fun n => if p n then read_row at_ n else n) <$> t.

Definition repo_MarkNotificationRead (tenantID userID id : ID) : M CommDB unit :=
  at_ <- Now ;;
  query (fun d => Ok (tt, lens_set (mark_rows (fun r => inbox_of tenantID userID r && sql_eq (nt_ID r) (ToPgUUID id)) at_ (co_notifications d)) d)).

Definition repo_MarkAllNotificationsRead (tenantID userID : ID) : M CommDB unit :=
  at_ <- Now ;;
  query (fun d => Ok (tt, lens_set (mark_rows (fun r => inbox_of tenantID userID r && negb (nt_IsRead r)) at_ (co_notifications d)) d)).

Definition count_unread (tenantID userID : ID) (t : gmap ID Notification) : Z :=
  Z.of_nat (length (select_rows (fun r => inbox_of tenantID userID r && negb (nt_IsRead r)) t)).

Definition CountUnreadNotifications (tenantID userID : ID) : M CommDB Z :=
  query (fun d => Ok (count_unread tenantID userID (co_notifications d), d)).
End CommRepo.

(** ** Use case *)

Record CreateCommentCommand := mkCreateComment {
  cc_TenantID : ID;
  cc_EntityType : string;
  cc_EntityID : ID;
  cc_AuthorID : ID;
  cc_Type : string;
  cc_Content : string;
  cc_Mentions : list ID;
  cc_ParentID : option ID;
  cc_IsPinned : bool;
  cc_Metadata : AnyMap;
}.

(** Which optional repositories the use case was built with. *)
Record comm_usecase := mkCommUsecase { cu_audit : bool; cu_attachments : bool; cu_outbox : bool }.

Section CommUsecase.
  Context `{Env, Pg, CommServer, UUIDLib, UnicodeTables, GoOrder}.
  Variable u : comm_usecase.

(** The map [mentionMap]. *)
Definition mention_set (mentions : list ID) (content : string) : gset ID :=
  let explicit := fold_left (fun s m => if bool_decide (m <> NilID) then {[m]} ∪ s else s) mentions ∅ in
  fold_left (fun s str => match ParseID str with
                          | Ok id => if bool_decide (id <> NilID) then {[id]} ∪ s else s
                          | _ => s
                          end) (ExtractMentionStrings content) explicit.

Definition mention_notification (cmd : CreateCommentCommand) (content : string) (now : Time) (id user : ID) : Notification :=
  mkNotification id (cc_TenantID cmd) user (Some (cc_AuthorID cmd)) NotificationTypeMention
    ("Mentioned in " +:+ cc_EntityType cmd) content (cc_EntityType cmd) (Some (cc_EntityID cmd)) false None None now.

(** The loop over the mentioned users, without the author. *)
Fixpoint notify (at_ : Time) (cmd : CreateCommentCommand) (content : string) (now : Time) (users : list ID) : M CommDB unit :=
  match users with
  | [] => ret tt
  | user :: rest =>
      if bool_decide (user = cc_AuthorID cmd) then notify at_ cmd content now rest
      else
        notifID <- NewID ;;
        wrap_err "create notification" (CreateNotification at_ (mention_notification cmd content now notifID user)) ;;;
        notify at_ cmd content now rest
  end.

Definition created_event (cmd : CreateCommentCommand) (c : Comment) (now : Time) (id : ID) : OutboxEvent :=
  mkOutboxEvent id (cc_TenantID cmd) "comment.created" (cc_EntityType cmd) (cc_EntityID cmd)
    (Some {[ "comment_id" := AString (uuid_String (cm_ID c)); "author_id" := AString (uuid_String (cm_AuthorID c));
             "type" := AString (cm_Type c); "mentions" := AIDs (cm_Mentions c) ]})
    OutboxStatusPending 0 "" now None.

Definition created_entry (cmd : CreateCommentCommand) (c : Comment) (now : Time) (id : ID) : AuditLog :=
  mkAuditLog id (cc_TenantID cmd) (Some (cc_AuthorID cmd)) AuditTrail.ActorTypeUser ActionCreate "comment" (cm_ID c)
    (Some {[ "content" := AString (cm_Content c); "entity_type" := AString (cm_EntityType c);
             "entity_id" := AString (uuid_String (cm_EntityID c)) ]}) None now.

Definition comment_event (cmd : CreateCommentCommand) (c : Comment) (now : Time) : M CommDB unit :=
  if cu_outbox u then
    evtID <- NewID ;;
    wrap_err "outbox write" (zoom (Outbox.Create comm_outbox_refused (created_event cmd c now evtID))) ;;;
    ret tt
  else ret tt.

Definition comment_audit (cmd : CreateCommentCommand) (c : Comment) (now : Time) : M CommDB unit :=
  if cu_audit u then
    auditID <- NewID ;;
    wrap_err "audit write" (zoom (AuditTrail.Create comm_audit_refused (created_entry cmd c now auditID))) ;;;
    ret tt
  else ret tt.

(** The body of the transaction. *)
Definition store_comment (cmd : CreateCommentCommand) (c : Comment) (now : Time) : M CommDB Comment :=
  at_ <- Now ;;
  c' <- repo_CreateComment at_ c ;;
  notify at_ cmd (cm_Content c) now (cm_Mentions c) ;;;
  comment_event cmd c now ;;;
  comment_audit cmd c now ;;;
  ret c'.

Definition comment_type (t : string) : string :=
  let commentType := ToLower (TrimSpace t) in
  if String.eqb commentType "" then CommentTypeGeneral else commentType.

Definition CreateComment (ctx : Ctx) (cmd : CreateCommentCommand) : M CommDB Comment :=
  guard (bool_decide (cc_TenantID cmd = NilID)) (ESentinel ErrTenantRequired) ;;;
  guard (String.eqb (cc_EntityType cmd) "") (Errorf ErrInvalidInput "entity_type is required") ;;;
  guard (bool_decide (cc_EntityID cmd = NilID)) (Errorf ErrInvalidInput "entity_id is required") ;;;
  guard (bool_decide (cc_AuthorID cmd = NilID)) (Errorf ErrInvalidInput "author_id is required") ;;;
  let content := TrimSpace (cc_Content cmd) in
  guard (String.eqb content "") (Errorf ErrInvalidInput "comment content cannot be empty") ;;;
  let commentType := comment_type (cc_Type cmd) in
  guard (negb (String.eqb commentType CommentTypeGeneral) && negb (String.eqb commentType CommentTypeInternalNote))
    (Errorf ErrInvalidInput ("invalid comment type '" +:+ commentType +:+ "'")) ;;;
  commentID <- NewID ;;
  let allMentions := range_ids (mention_set (cc_Mentions cmd) content) in
  now <- NowUTC ;;
  WithTx true ctx (fun _ => store_comment cmd
    (mkComment commentID (cc_TenantID cmd) (ToLower (cc_EntityType cmd)) (cc_EntityID cmd) (cc_AuthorID cmd) commentType content
       allMentions (cc_ParentID cmd) (cc_IsPinned cmd) (cc_Metadata cmd) now now) now).

Definition tenant_guard (tenantID : ID) : M CommDB unit :=
  guard (bool_decide (tenantID = NilID)) (ESentinel ErrTenantRequired).

Definition ListEntityComments (tenantID : ID) (entityType : string) (entityID : ID) : M CommDB (list CommentWithAuthor) :=
  tenant_guard tenantID ;;;
  ListCommentsByEntity tenantID (ToLower entityType) entityID.

Definition DeleteComment (tenantID commentID actorID : ID) : M CommDB unit :=
  tenant_guard tenantID ;;;
  comment <- GetCommentByID tenantID commentID ;;
  guard (bool_decide (actorID <> NilID) && bool_decide (cm_AuthorID comment <> actorID)) (ESentinel ErrForbidden) ;;;
  repo_DeleteComment tenantID commentID.

Definition ListNotifications (tenantID userID : ID) (unreadOnly : bool) (limit offset : Z) : M CommDB (list Notification * Z) :=
  tenant_guard tenantID ;;;
  let limit := if limit <=? 0 then 20 else limit in
  let limit := if 100 <? limit then 100 else limit in
  items <- ListNotificationsByUser tenantID userID unreadOnly limit offset ;;
  totalUnread <- CountUnreadNotifications tenantID userID ;;
  ret (items, totalUnread).

Definition MarkNotificationRead (tenantID userID notificationID : ID) : M CommDB unit :=
  tenant_guard tenantID ;;; repo_MarkNotificationRead tenantID userID notificationID.

Definition MarkAllNotificationsRead (tenantID userID : ID) : M CommDB unit :=
  tenant_guard tenantID ;;; repo_MarkAllNotificationsRead tenantID userID.

(** *** The timeline *)

Definition comment_item (ca : CommentWithAuthor) : ActivityItem :=
  let c := ca_Comment ca in
  mkActivityItem (cm_ID c) (cm_CreatedAt c) "comment" (Some (cm_AuthorID c)) (ca_AuthorName ca)
    (if String.eqb (cm_Type c) CommentTypeInternalNote then "Added an internal note" else "Added a comment") (cm_Content c)
    (Some {[ "comment_type" := AString (cm_Type c); "is_pinned" := ABool (cm_IsPinned c); "mentions" := AIDs (cm_Mentions c) ]}).

Definition audit_description (l : AuditLog) : string :=
  let desc := "Action: " +:+ al_Action l in
  match mjoin ((fun m => m !! "reason") <$> al_Changes l) with
  | Some (AString reason) => if negb (String.eqb reason "") then desc +:+ " (Reason: " +:+ reason +:+ ")" else desc
  | _ => desc
  end.

Definition audit_item (l : AuditLog) : ActivityItem :=
  mkActivityItem (al_ID l) (al_CreatedAt l) "audit" (al_ActorID l) "" ("Status / Operation: " +:+ al_Action l)
    (audit_description l) (al_Changes l).

Definition attachment_item (a : AttachmentWithFile) : ActivityItem :=
  let at_ := awf_attachment a in let f := awf_file a in
  mkActivityItem (ea_ID at_) (ea_CreatedAt at_) "attachment" (f_UploadedBy f) "" ("Attached file (" +:+ ea_Purpose at_ +:+ ")")
    (f_Filename f +:+ " (" +:+ Itoa (f_SizeBytes f) +:+ " bytes)")
    (Some {[ "file_id" := AID (ea_FileID at_); "filename" := AString (f_Filename f); "purpose" := AString (ea_Purpose at_);
             "mime_type" := AString (f_MimeType f); "size_bytes" := AInt64 (f_SizeBytes f); "sha256_hash" := AString (f_SHA256Hash f) ]}).

(** [x, err := f(); if err == nil { for ... append }]. *)
Definition source {A} (m : M CommDB (list A)) (item : A -> ActivityItem) : M CommDB (list ActivityItem) :=
  r <- attempt m ;;
  match r with inl l => ret (map item l) | inr _ => ret [] end.

Definition later (a b : ActivityItem) : bool := After (ai_Timestamp a) (ai_Timestamp b).

Definition timeline_filter (entityType : string) (entityID : ID) : Filter :=
  mkFilter (Some entityType) (Some entityID) None None 100 0.

Definition GetUnifiedTimeline (tenantID : ID) (entityType : string) (entityID : ID) : M CommDB (list ActivityItem) :=
  tenant_guard tenantID ;;;
  comments <- source (ListCommentsByEntity tenantID entityType entityID) comment_item ;;
  logs <- (if cu_audit u
           then source (r <- zoom (AuditTrail.List tenantID (timeline_filter entityType entityID)) ;; ret r.1) audit_item
           else ret []) ;;
  attachments <- (if cu_attachments u
                  then source (zoom (ListAttachmentsByEntity tenantID entityType entityID)) attachment_item
                  else ret []) ;;
  ret (sort_Slice later (comments ++ logs ++ attachments)).
End CommUsecase.

(** ** Mentions in a text *)

(** A maximal run of the class right after an at sign. *)
Definition mention_at (content m : string) : Prop := exists pre post,
  content = pre +:+ "@" +:+ m +:+ post /\ m <> "" /\ all_chars mention_char m = true /\ mention_run post = "".

Lemma mention_run_split s : exists post,
  s = mention_run s +:+ post /\ all_chars mention_char (mention_run s) = true /\ mention_run post = "".
Proof.
  induction s as [|c s (post & E & Ha & Hp)]; [by exists "" |]. cbn [mention_run].
  destruct (mention_char c) eqn:Ec.
  - exists post. cbn [all_chars String.append]. rewrite Ec, Ha, <- E. done.
  - exists (String c s). cbn [mention_run]. by rewrite Ec.
Qed.

Lemma mention_run_app m post : all_chars mention_char m = true -> mention_run post = "" -> mention_run (m +:+ post) = m.
Proof.
  intros Hm Hp. induction m as [|c m IH]; [done |]. cbn [all_chars String.append mention_run] in *.
  apply andb_true_iff in Hm as [-> Hm]. by rewrite IH.
Qed.

Lemma elem_of_mention_matches s m : m ∈ mention_matches s <-> mention_at s m.
Proof.
  split.
  - induction s as [|c s IH]; cbn [mention_matches]; [by intros ?%not_elem_of_nil |].
    assert (m ∈ mention_matches s -> mention_at (String c s) m) as Hrest.
    { intros (pre & post & -> & Hm)%IH. by exists (String c pre), post. }
    destruct (Ascii.eqb_spec c "@") as [->|_]; [| done].
    destruct (mention_run_split s) as (post & Es & Ha & Hp).
    destruct (mention_run s) as [|c' m'] eqn:Er; [done |]. intros [->|Hin]%elem_of_cons; [| by apply Hrest].
    exists "", post. split_and!; [| done..]. cbn [String.append]. f_equal. exact Es.
  - intros (pre & post & -> & Hne & Ha & Hp). induction pre as [|c pre IH].
    + change (m ∈ mention_matches (String "@" (m +:+ post))). cbn [mention_matches].
      rewrite Ascii.eqb_refl, mention_run_app by done. destruct m; [done | by left].
    + change (m ∈ mention_matches (String c (pre +:+ "@" +:+ m +:+ post))). cbn [mention_matches].
      destruct (Ascii.eqb c "@"); [| exact IH]. destruct (mention_run (pre +:+ _)); [exact IH | by right].
Qed.

Lemma elem_of_unique_mentions seen ms v :
  v ∈ unique_mentions seen ms <-> v ∉ seen /\ v <> "" /\ exists m, m ∈ ms /\ v = TrimSpace m.
Proof.
  revert seen. induction ms as [|m ms IH]; intros seen; cbn [unique_mentions].
  { split; [by intros ?%not_elem_of_nil | intros (_ & _ & m & ?%not_elem_of_nil & _); done]. }
  destruct (negb _ && negb _) eqn:Eb.
  - apply andb_true_iff in Eb as [Hne%negb_true_iff%String.eqb_neq Hs%negb_true_iff%bool_decide_eq_false].
    rewrite elem_of_cons, IH, not_elem_of_union, not_elem_of_singleton. setoid_rewrite elem_of_cons. split.
    + intros [->|([Hv Hv'] & Hn & m' & Hm' & ->)]; eauto 10.
    + intros (Hv & Hv' & m' & [->|Hm'] & ->); [by left |]. destruct (decide (TrimSpace m' = TrimSpace m)) as [E|E]; [by left | right; eauto 10].
  - rewrite IH. setoid_rewrite elem_of_cons. split; [naive_solver |]. intros (Hv & Hv' & m' & [->|Hm'] & ->); [| eauto].
    apply andb_false_iff in Eb as [?%negb_false_iff%String.eqb_eq|?%negb_false_iff%bool_decide_eq_true]; done.
Qed.

Lemma mention_char_graphic c : mention_char c = true -> graphic c = true.
Proof. unfold mention_char, graphic. rewrite !orb_true_iff, !andb_true_iff, !N.leb_le, !N.eqb_eq. lia. Qed.

(** Exactly the maximal runs after an at sign, each once. *)
Lemma ExtractMentionStrings_iff content m : m ∈ ExtractMentionStrings content <-> mention_at content m.
Proof.
  unfold ExtractMentionStrings. rewrite elem_of_unique_mentions. setoid_rewrite elem_of_mention_matches.
  assert (forall x, mention_at content x -> TrimSpace x = x) as Ht.
  { intros x (? & ? & _ & _ & Ha & _). apply TrimSpace_graphic. eapply all_chars_impl; [apply mention_char_graphic | done]. }
  split.
  - intros (_ & _ & x & Hx & ->). by rewrite Ht.
  - intros Hm. split_and!; [set_solver | by destruct Hm as (? & ? & _ & ? & _) |]. exists m. by rewrite Ht.
Qed.

Lemma fold_insert_iff {A} (f : A -> option ID) (l : list A) (s0 : gset ID) (m : ID) :
  m ∈ fold_left (fun s x => match f x with Some id => {[id]} ∪ s | None => s end) l s0 <-> m ∈ s0 \/ exists x, x ∈ l /\ f x = Some m.
Proof.
  revert s0. induction l as [|x l IH]; intros s0; cbn [fold_left].
  { split; [by left | intros [?|(x & ?%not_elem_of_nil & _)]; done]. }
  rewrite IH. setoid_rewrite elem_of_cons. destruct (f x) as [id|] eqn:E; [rewrite elem_of_union, elem_of_singleton |]; naive_solver.
Qed.

Lemma fold_left_ext {A B} (f g : A -> B -> A) l a : (forall a b, f a b = g a b) -> fold_left f l a = fold_left g l a.
Proof. intros E. revert a. induction l as [|x l IH]; intros a; cbn; [done |]. by rewrite E, IH. Qed.

(** The users a comment mentions: those named in the command and those whose
    identifier is written in the text. *)
Lemma mention_set_iff `{UUIDLib} mentions content m : m ∈ mention_set mentions content <->
  m <> NilID /\ (m ∈ mentions \/ exists s, mention_at content s /\ uuid_Parse s = Some m).
Proof.
  unfold mention_set.
  rewrite (fold_left_ext _ (fun s x => match (match uuid_Parse x with Some id => if bool_decide (id <> NilID) then Some id else None | None => None end)
    with Some id => {[id]} ∪ s | None => s end) (ExtractMentionStrings content)).
  2: { intros s x. unfold ParseID. destruct (uuid_Parse x); [| done]. by case_bool_decide. }
  rewrite (fold_left_ext _ (fun s x => match (if bool_decide (x <> NilID) then Some x else None) with Some id => {[id]} ∪ s | None => s end) mentions).
  2: { intros s x. by case_bool_decide. }
  rewrite !fold_insert_iff. setoid_rewrite ExtractMentionStrings_iff. split.
  - intros [[?%elem_of_empty|(x & Hx & E)]|(x & Hx & E)]; [done | |].
    + case_bool_decide; naive_solver.
    + destruct (uuid_Parse x) as [id|] eqn:Ep; [| done]. case_bool_decide; [| done]. injection E as ->. eauto.
  - intros (Hn & [Hm|(s & Hs & E)]).
    + left. right. exists m. by rewrite bool_decide_eq_true_2.
    + right. exists s. by rewrite E, bool_decide_eq_true_2.
Qed.

(** ** Threads *)

(** The comment [root] and everything below it. *)
Inductive in_thread (t : gmap ID Comment) (root : ID) : ID -> Prop :=
  | thread_root : in_thread t root root
  | thread_reply k c p : t !! k = Some c -> cm_ParentID c = Some p -> in_thread t root p -> in_thread t root k.

Lemma elem_of_replies t dead k : k ∈ replies t dead <-> exists c p, t !! k = Some c /\ cm_ParentID c = Some p /\ p ∈ dead.
Proof.
  unfold replies. rewrite elem_of_dom. split.
  - intros [c [Hk Hp]%map_lookup_filter_Some]. cbn [snd] in Hp. destruct (cm_ParentID c) as [p|] eqn:E; [| done].
    apply bool_decide_eq_true in Hp. eauto.
  - intros (c & p & Hk & Hp & Hin). exists c. rewrite map_lookup_filter_Some. cbn [snd]. by rewrite Hp, bool_decide_eq_true_2.
Qed.

(** Rounds enough for every element of the universe reach a fixed point. *)
Lemma iter_closed (f : gset ID -> gset ID) (U : gset ID) n s :
  (forall s', s' ⊆ f s') -> (forall s', s' ⊆ U -> f s' ⊆ U) -> s ⊆ U -> (size U <= size s + n)%nat ->
  f (Nat.iter n f s) ⊆ Nat.iter n f s.
Proof.
  intros Hext HU. revert s. induction n as [|n IH]; intros s Hs Hn.
  - cbn. assert (s = U) as -> by (apply leibniz_equiv, set_subseteq_size_equiv; [done | lia]). by apply HU.
  - rewrite Nat.iter_succ_r. destruct (decide (f s ⊆ s)) as [Hf|Hf].
    + assert (f s = s) as E by (apply leibniz_equiv, set_equiv_subseteq; auto). rewrite E.
      assert (Nat.iter n f s = s) as ->; [| by rewrite E]. clear IH Hn. induction n as [|n IHn]; [done |].
      by rewrite Nat.iter_succ, IHn.
    + apply IH; [by apply HU |]. assert (s ⊂ f s) as Hlt by (split; auto). apply subset_size in Hlt. lia.
Qed.

Lemma cascade_sound t dead k : k ∈ cascade t dead -> exists root, root ∈ dead /\ in_thread t root k.
Proof.
  unfold cascade. generalize (size t). intros n. revert k. induction n as [|n IH]; intros k; cbn [Nat.iter nat_rect].
  { intros Hk. exists k. split; [done | constructor]. }
  intros [Hk|Hk]%elem_of_union; [by apply IH |]. apply elem_of_replies in Hk as (c & p & Hk & Hp & Hin).
  destruct (IH p Hin) as (root & Hr & Ht). exists root. split; [done |]. by eapply thread_reply.
Qed.

Lemma cascade_closed t dead : dead ⊆ dom t -> replies t (cascade t dead) ⊆ cascade t dead /\ dead ⊆ cascade t dead.
Proof.
  intros Hd. split.
  - etransitivity; [| apply (iter_closed (fun s => s ∪ replies t s) (dom t) (size t) dead); [set_solver | | done | rewrite size_dom; lia]].
    { apply union_subseteq_r. }
    intros s Hs. apply union_least; [done |]. intros k (c & _ & Hk & _)%elem_of_replies. by eapply elem_of_dom_2.
  - unfold cascade. generalize (size t). intros n. induction n as [|n IH]; cbn [Nat.iter nat_rect]; [done | set_solver].
Qed.

(** The rows that go are the threads of the rows that are deleted. *)
Lemma cascade_exact t dead k : dead ⊆ dom t -> k ∈ cascade t dead <-> exists root, root ∈ dead /\ in_thread t root k.
Proof.
  intros Hd. split; [apply cascade_sound |]. destruct (cascade_closed t dead Hd) as [Hc Hs].
  intros (root & Hr & Ht). induction Ht as [|k c p Hk Hp _ IH]; [set_solver |]. apply Hc, elem_of_replies. eauto.
Qed.

Lemma delete_comments_lookup p t k c : delete_comments p t !! k = Some c <->
  t !! k = Some c /\ forall root r, t !! root = Some r -> p r = true -> ~ in_thread t root k.
Proof.
  unfold delete_comments. rewrite map_lookup_filter_Some. cbn [fst].
  rewrite cascade_exact by (apply dom_filter_subseteq). setoid_rewrite elem_of_dom. split.
  - intros [Hk Hn]. split; [done |]. intros root r Hr Hp Ht. apply Hn. exists root. split; [| done]. exists r.
    by apply map_lookup_filter_Some.
  - intros [Hk Hn]. split; [done |]. intros (root & [r [Hr Hp]%map_lookup_filter_Some] & Ht). by eapply Hn.
Qed.

(** No reply is left without its parent. *)
Lemma delete_comments_parents p t k c q : (forall k c q, t !! k = Some c -> cm_ParentID c = Some q -> is_Some (t !! q)) ->
  delete_comments p t !! k = Some c -> cm_ParentID c = Some q -> is_Some (delete_comments p t !! q).
Proof.
  intros Hp [Hk Hn]%delete_comments_lookup Hq. destruct (Hp k c q Hk Hq) as [cq Hcq]. exists cq. apply delete_comments_lookup.
  split; [done |]. intros root r Hr Hpr Ht. eapply Hn; [done.. |]. by eapply thread_reply.
Qed.

(** ** Posting a comment *)

(** The notifications of a comment: one new row for every user of the list. *)
Record notified (cmd : CreateCommentCommand) (content : string) (users : list ID) (t t' : gmap ID Notification) : Prop := {
  no_kept : t ⊆ t';
  no_users : Permutation (map nt_UserID (map_to_list (t' ∖ t)).*2) users;
  no_rows : forall k n, (t' ∖ t) !! k = Some n ->
    nt_ID n = k /\ nt_TenantID n = cc_TenantID cmd /\ nt_ActorID n = Some (cc_AuthorID cmd) /\ nt_Type n = NotificationTypeMention
    /\ nt_Message n = content /\ nt_EntityID n = Some (cc_EntityID cmd) /\ nt_IsRead n = false /\ nt_ReadAt n = None;
}.

(** The users a command mentions. *)
Definition mentioned `{UUIDLib} (cmd : CreateCommentCommand) (m : ID) : Prop :=
  m <> NilID /\ (m ∈ cc_Mentions cmd \/ exists s, mention_at (TrimSpace (cc_Content cmd)) s /\ uuid_Parse s = Some m).

(** What a successful call returns and changes. *)
Record comment_posted `{Env, Pg, CommServer, UUIDLib, UnicodeTables} (u : comm_usecase) (cmd : CreateCommentCommand) (c : Comment)
    (d d' : CommDB) : Prop := {
  cp_fields : cm_TenantID c = cc_TenantID cmd /\ cm_EntityType c = ToLower (cc_EntityType cmd) /\ cm_EntityID c = cc_EntityID cmd
    /\ cm_AuthorID c = cc_AuthorID cmd /\ cm_Type c = comment_type (cc_Type cmd) /\ cm_Content c = TrimSpace (cc_Content cmd)
    /\ cm_ParentID c = cc_ParentID cmd;
  cp_mentions : NoDup (cm_Mentions c) /\ forall m, m ∈ cm_Mentions c <-> mentioned cmd m;
  cp_comment : exists at_, co_comments d !! cm_ID c = None /\ co_comments d' = <[cm_ID c := comment_row at_ c]> (co_comments d);
  cp_notified : notified cmd (cm_Content c) (filter (fun m => m <> cc_AuthorID cmd) (cm_Mentions c)) (co_notifications d) (co_notifications d');
  cp_event : if cu_outbox u
    then exists id now, co_outbox d !! id = None /\ co_outbox d' = <[id := outbox_row (created_event cmd c now id)]> (co_outbox d)
    else co_outbox d' = co_outbox d;
  cp_audit : if cu_audit u
    then exists id now, co_audit d !! id = None /\ co_audit d' = <[id := audit_row (created_entry cmd c now id)]> (co_audit d)
    else co_audit d' = co_audit d;
  cp_rest : co_users d' = co_users d /\ co_files d' = co_files d;
}.

Lemma notified_nil cmd content t : notified cmd content [] t t.
Proof. split; [done | by rewrite map_difference_diag, map_to_list_empty |]. intros k n. by rewrite map_difference_diag, lookup_empty. Qed.

Lemma notified_cons cmd content user users t t' (n : Notification) :
  t !! nt_ID n = None -> nt_UserID n = user -> nt_TenantID n = cc_TenantID cmd -> nt_ActorID n = Some (cc_AuthorID cmd) ->
  nt_Type n = NotificationTypeMention -> nt_Message n = content -> nt_EntityID n = Some (cc_EntityID cmd) ->
  nt_IsRead n = false -> nt_ReadAt n = None ->
  notified cmd content users (<[nt_ID n := n]> t) t' -> notified cmd content (user :: users) t t'.
Proof.
  intros Hf Hu H1 H2 H3 H4 H5 H6 H7 [Hk Hp Hr].
  assert (t' !! nt_ID n = Some n) as Hn by (eapply lookup_weaken; [apply lookup_insert_eq | exact Hk]).
  assert (t' ∖ t = <[nt_ID n := n]> (t' ∖ <[nt_ID n := n]> t)) as E.
  { apply map_eq. intros k. destruct (decide (k = nt_ID n)) as [->|Hne].
    - rewrite lookup_insert_eq, lookup_difference, Hf. done.
    - rewrite lookup_insert_ne, !lookup_difference, lookup_insert_ne by done. done. }
  split.
  - etransitivity; [| exact Hk]. by apply insert_subseteq.
  - rewrite E, map_to_list_insert by (by rewrite lookup_difference, lookup_insert_eq). cbn. by rewrite Hu, Hp.
  - intros k m. rewrite E. intros [[<- <-]|[_ Hm]]%lookup_insert_Some; [done | by apply Hr].
Qed.

Lemma opt_ref_id id : id <> NilID -> opt_ref (Some id) = Some id.
Proof. intros Hn. unfold opt_ref. by rewrite decide_False. Qed.

Section Posting.
  Context `{Env, Pg, CommServer, UUIDLib, UnicodeTables, GoOrder}.
  Variable u : comm_usecase.

(** The part of the tables that only notifications change. *)
Lemma CreateNotification_Ok at_ n w x w' : CreateNotification at_ n w = (Ok x, w') ->
  w_db w' = lens_set (<[nt_ID n := notification_row at_ n]> (co_notifications (w_db w))) (w_db w)
  /\ co_notifications (w_db w) !! nt_ID n = None /\ notification_constraints (w_db w) (notification_row at_ n) = None
  /\ NilID ∉ [nt_ID n; nt_TenantID n; nt_UserID n].
Proof.
  unfold CreateNotification. intros E. step_inv. apply insert_into_Ok in R as (-> & -> & Hf & _ & Hn & Hc). by subst.
Qed.

Lemma notify_Ok at_ cmd content now users w x w' : cc_AuthorID cmd <> NilID -> cc_EntityID cmd <> NilID ->
  notify at_ cmd content now users w = (Ok x, w') ->
  w_db w' = lens_set (co_notifications (w_db w')) (w_db w)
  /\ notified cmd content (filter (fun m => m <> cc_AuthorID cmd) users) (co_notifications (w_db w)) (co_notifications (w_db w'))
  /\ forall m, m ∈ users -> m <> cc_AuthorID cmd -> is_Some (co_users (w_db w) !! m).
Proof.
  intros Ha He. revert w. induction users as [|user users IH]; intros w; cbn [notify].
  { intros E. step_inv. subst. split_and!; [by destruct (w_db w) | apply notified_nil |]. by intros m ?%not_elem_of_nil. }
  rewrite filter_cons. case_bool_decide as Hu.
  - intros (Hd & Hn & Hk)%IH. rewrite decide_False by (intros X; by apply X). split_and!; [done.. |].
    intros m [->|Hm]%elem_of_cons Hne; [done | by apply Hk].
  - intros E. step_inv. apply wrap_err_Ok in R0. apply CreateNotification_Ok in R0 as (Hd & Hf & Hc & _).
    cbn [tick w_db] in Hd, Hf, Hc. apply IH in E as (Hd' & Hn & Hk). rewrite Hd in Hd', Hn, Hk. cbn [co_notifications co_users lens_set Lens_co_notifications] in *.
    split_and!; [done | |].
    + rewrite decide_True by done. eapply (notified_cons _ _ _ _ _ _ (notification_row at_ (mention_notification cmd content now a user))); try done.
      all: cbn [notification_row mention_notification nt_ActorID nt_EntityID]. all: by rewrite opt_ref_id.
    + intros m [->|Hm]%elem_of_cons Hne; [| by apply Hk]. unfold notification_constraints in Hc.
      cbn [notification_row mention_notification nt_UserID] in Hc. by case_bool_decide.
Qed.

Lemma comment_event_Ok cmd c now w x w' : comment_event u cmd c now w = (Ok x, w') ->
  w_db w' = lens_set (co_outbox (w_db w')) (w_db w)
  /\ if cu_outbox u
     then exists id, co_outbox (w_db w) !! id = None /\ co_outbox (w_db w') = <[id := outbox_row (created_event cmd c now id)]> (co_outbox (w_db w))
     else co_outbox (w_db w') = co_outbox (w_db w).
Proof.
  unfold comment_event. destruct (cu_outbox u); intros E; step_inv; subst; [| by destruct (w_db w)].
  match goal with X : wrap_err _ _ _ = _ |- _ => apply wrap_err_Ok, zoom_Ok in X as (v & (Hf & Hd)%outbox_Create_Ok & ->) end.
  cbn [w_db tick] in *. rewrite Hd. split; [done |]. eauto.
Qed.

Lemma comment_audit_Ok cmd c now w x w' : comment_audit u cmd c now w = (Ok x, w') ->
  w_db w' = lens_set (co_audit (w_db w')) (w_db w)
  /\ if cu_audit u
     then exists id, co_audit (w_db w) !! id = None /\ co_audit (w_db w') = <[id := audit_row (created_entry cmd c now id)]> (co_audit (w_db w))
     else co_audit (w_db w') = co_audit (w_db w).
Proof.
  unfold comment_audit. destruct (cu_audit u); intros E; step_inv; subst; [| by destruct (w_db w)].
  match goal with X : wrap_err _ _ _ = _ |- _ => apply wrap_err_Ok, zoom_Ok in X as (v & (Hf & Hd)%audit_Create_Ok & ->) end.
  cbn [w_db tick] in *. rewrite Hd. split; [done |]. eauto.
Qed.

Lemma repo_CreateComment_Ok at_ c w c' w' : repo_CreateComment at_ c w = (Ok c', w') ->
  c' = with_times c (comment_row at_ c) /\ w_db w' = lens_set (<[cm_ID c := comment_row at_ c]> (co_comments (w_db w))) (w_db w)
  /\ co_comments (w_db w) !! cm_ID c = None /\ comment_constraints (w_db w) (comment_row at_ c) = None /\ cm_ID c <> NilID.
Proof.
  unfold repo_CreateComment. intros E. step_inv. apply insert_into_Ok in R as (-> & -> & Hf & _ & Hn & Hc). subst. split_and!; try done.
  intros E. apply Hn. cbn [comment_row cm_ID]. rewrite E. left.
Qed.

(** The rows a comment refers to exist. *)
Definition refs_exist (cmd : CreateCommentCommand) (mention : ID -> Prop) (d : CommDB) : Prop :=
  is_Some (co_users d !! cc_AuthorID cmd)
  /\ (forall p, cc_ParentID cmd = Some p -> p <> NilID -> is_Some (co_comments d !! p))
  /\ forall m, mention m -> m <> cc_AuthorID cmd -> is_Some (co_users d !! m).

Lemma comment_constraints_None d c : comment_constraints d c = None <->
  is_Some (co_users d !! cm_AuthorID c) /\ (forall p, cm_ParentID c = Some p -> is_Some (co_comments d !! p)) /\ comment_refused c = None.
Proof.
  unfold comment_constraints. destruct (cm_ParentID c) as [p|]; repeat case_bool_decide; naive_solver.
Qed.

Lemma opt_ref_Some o p : opt_ref o = Some p <-> o = Some p /\ p <> NilID.
Proof. unfold opt_ref. destruct o as [id|]; [| naive_solver]. case_decide; naive_solver. Qed.

Lemma store_comment_Ok cmd c now w c' w' : cc_AuthorID cmd = cm_AuthorID c -> cm_AuthorID c <> NilID -> cc_EntityID cmd <> NilID ->
  cc_ParentID cmd = cm_ParentID c -> store_comment u cmd c now w = (Ok c', w') ->
  exists at_, c' = with_times c (comment_row at_ c) /\ cm_ID c <> NilID /\ refs_exist cmd (fun m => m ∈ cm_Mentions c) (w_db w)
  /\ co_comments (w_db w) !! cm_ID c = None /\ co_comments (w_db w') = <[cm_ID c := comment_row at_ c]> (co_comments (w_db w))
  /\ notified cmd (cm_Content c) (filter (fun m => m <> cc_AuthorID cmd) (cm_Mentions c)) (co_notifications (w_db w)) (co_notifications (w_db w'))
  /\ (if cu_outbox u
      then exists id, co_outbox (w_db w) !! id = None /\ co_outbox (w_db w') = <[id := outbox_row (created_event cmd c now id)]> (co_outbox (w_db w))
      else co_outbox (w_db w') = co_outbox (w_db w))
  /\ (if cu_audit u
      then exists id, co_audit (w_db w) !! id = None /\ co_audit (w_db w') = <[id := audit_row (created_entry cmd c now id)]> (co_audit (w_db w))
      else co_audit (w_db w') = co_audit (w_db w))
  /\ co_users (w_db w') = co_users (w_db w) /\ co_files (w_db w') = co_files (w_db w).
Proof.
  intros Ea Han Hen Ep E. unfold store_comment in E. step_inv. subst.
  match goal with X : repo_CreateComment _ _ _ = _ |- _ => apply repo_CreateComment_Ok in X as (-> & D1 & Hf & Hc & Hid) end.
  match goal with X : notify _ _ _ _ _ _ = _ |- _ => apply notify_Ok in X as (D2 & Hn & Hk); [| congruence | done] end.
  match goal with X : comment_event _ _ _ _ _ = _ |- _ => apply comment_event_Ok in X as (D3 & He) end.
  match goal with X : comment_audit _ _ _ _ _ = _ |- _ => apply comment_audit_Ok in X as (D4 & Hau) end.
  apply comment_constraints_None in Hc as (Hc1 & Hc2 & _). cbn [comment_row cm_AuthorID cm_ParentID] in Hc1, Hc2.
  cbn [tick w_db] in *. rewrite D1 in D2, Hn, Hk. rewrite D2 in D3, He. rewrite D3 in D4, Hau.
  cbn [lens_set Lens_co_comments Lens_co_notifications Lens_co_outbox Lens_co_audit co_comments co_notifications co_users co_outbox co_audit co_files] in *.
  eexists. rewrite D4. cbn [co_comments co_notifications co_users co_outbox co_audit co_files]. split_and!; try done.
  split_and!; [by rewrite Ea | | done]. intros p Hp Hpn. apply Hc2. by rewrite opt_ref_Some, <- Ep.
Qed.

Definition command_valid (cmd : CreateCommentCommand) : Prop :=
  cc_TenantID cmd <> NilID /\ cc_EntityType cmd <> "" /\ cc_EntityID cmd <> NilID /\ cc_AuthorID cmd <> NilID
  /\ TrimSpace (cc_Content cmd) <> "" /\ comment_type (cc_Type cmd) ∈ [CommentTypeGeneral; CommentTypeInternalNote].

(** The command is checked first, in the order of the code. *)
Lemma CreateComment_guards ctx cmd w c w' : CreateComment u ctx cmd w = (Ok c, w') -> command_valid cmd.
Proof.
  unfold CreateComment, command_valid. intros E. step_inv.
  repeat match goal with X : bool_decide _ = false |- _ => apply bool_decide_eq_false in X | X : String.eqb _ _ = false |- _ => apply String.eqb_neq in X end.
  split_and!; try done. match goal with X : negb _ && negb _ = false |- _ => apply andb_false_iff in X as [X|X]; apply negb_false_iff, String.eqb_eq in X; rewrite X end;
    set_solver.
Qed.

Lemma CreateComment_Ok ctx cmd w c w' : range_ok -> ctx_tx ctx = false -> CreateComment u ctx cmd w = (Ok c, w') ->
  comment_posted u cmd c (w_db w) (w_db w') /\ cm_ID c <> NilID /\ refs_exist cmd (mentioned cmd) (w_db w).
Proof.
  intros Hr Hx E. pose proof (CreateComment_guards _ _ _ _ _ E) as (Ht & Hety & Hen & Han & Hco & Hty).
  unfold CreateComment in E. step_inv. apply WithTx_commit in E as (w1 & E & Hd); [| done].
  apply store_comment_Ok in E as (at_ & -> & Hid & Hrefs & Hf & Hcs & Hn & He & Hau & Hus & Hfi); [| done..].
  assert (forall m, m ∈ range_ids (mention_set (cc_Mentions cmd) (TrimSpace (cc_Content cmd))) <-> mentioned cmd m) as Hm.
  { intros m. rewrite (Hr _), elem_of_elements. apply mention_set_iff. }
  cbn [tick w_db cm_Mentions] in *. split_and!; [| done |].
  2: { destruct Hrefs as (? & ? & Hmu). split_and!; [done.. |]. intros m. rewrite <- Hm. apply Hmu. }
  rewrite Hd. split; cbn [with_times cm_TenantID cm_EntityType cm_EntityID cm_AuthorID cm_Type cm_Content cm_ParentID cm_Mentions cm_ID] in *; try done.
  - split; [| done]. rewrite (Hr _). apply NoDup_elements.
  - by exists at_.
  - destruct (cu_outbox u); [| done]. destruct He as (id & He). eauto.
  - destruct (cu_audit u); [| done]. destruct Hau as (id & Hau). eauto.
Qed.

Lemma CreateComment_writes_last ctx cmd : ctx_tx ctx = false -> writes_last (CreateComment u ctx cmd).
Proof. intros Hx. unfold CreateComment. pose proof (fun f => WithTx_writes_last (A := Comment) (D := CommDB) ctx f Hx). frame. Qed.
End Posting.

(** ** When a comment is accepted *)

(** From the [n]-th question on, fresh identifiers are to be had. *)
Definition fresh_from `{Env} {R} (n : nat) (t : gmap ID R) : Prop :=
  forall m, (n <= m)%nat -> exists id, env_id m = inl id /\ id <> NilID /\ t !! id = None.

(** Nothing but the rows that a comment refers to stands in its way. *)
Record undisturbed `{Env, CommServer} (w : World CommDB) : Prop := {
  un_fault : forall n, env_fault n = None;
  un_distinct : forall n m id, env_id n = inl id -> env_id m = inl id -> n = m;
  un_comments : fresh_from (w_tick w) (co_comments (w_db w));
  un_notifications : fresh_from (w_tick w) (co_notifications (w_db w));
  un_outbox : fresh_from (w_tick w) (co_outbox (w_db w));
  un_audit : fresh_from (w_tick w) (co_audit (w_db w));
  un_refused : (forall c, comment_refused c = None) /\ (forall n, notification_refused n = None)
    /\ (forall r, comm_outbox_refused r = None) /\ (forall l, comm_audit_refused l = None);
}.

Lemma fresh_from_le `{Env} {R} n m (t : gmap ID R) : fresh_from n t -> (n <= m)%nat -> fresh_from m t.
Proof. intros Hf Hle k Hk. apply Hf. lia. Qed.

Lemma fresh_from_insert `{Env} {R} n (t : gmap ID R) id r :
  (forall n m id, env_id n = inl id -> env_id m = inl id -> n = m) -> env_id n = inl id -> fresh_from n t -> fresh_from (S n) (<[id := r]> t).
Proof.
  intros Hi Hid Hf m Hm. destruct (Hf m ltac:(lia)) as (id' & E & Hn & Ht). exists id'. split_and!; try done.
  rewrite lookup_insert_ne; [done |]. intros ->. assert (n = m) by eauto. lia.
Qed.

Section Accepted.
  Context `{Env, Pg, CommServer, UUIDLib, UnicodeTables, GoOrder}.
  Variable u : comm_usecase.
  Hypotheses (Hfault : forall n, env_fault n = None)
    (Hids : forall n m id, env_id n = inl id -> env_id m = inl id -> n = m)
    (Hno : (forall c, comment_refused c = None) /\ (forall n, notification_refused n = None)
      /\ (forall r, comm_outbox_refused r = None) /\ (forall l, comm_audit_refused l = None)).

Lemma NewID_run {R} (w : World CommDB) (t : gmap ID R) : fresh_from (w_tick w) t ->
  exists id, NewID w = (Ok id, tick w) /\ env_id (w_tick w) = inl id /\ id <> NilID /\ t !! id = None.
Proof. intros Hf. destruct (Hf (w_tick w) ltac:(lia)) as (id & E & ?). exists id. unfold NewID. by rewrite E. Qed.

Lemma wrap_err_run {A} what (m : M CommDB A) w a w' : m w = (Ok a, w') -> wrap_err what m w = (Ok a, w').
Proof. intros E. by apply wrap_err_Ok. Qed.

Lemma CreateNotification_run at_ cmd content now id user w :
  cc_TenantID cmd <> NilID -> id <> NilID -> user <> NilID -> is_Some (co_users (w_db w) !! cc_AuthorID cmd) ->
  is_Some (co_users (w_db w) !! user) -> co_notifications (w_db w) !! id = None ->
  let row := notification_row at_ (mention_notification cmd content now id user) in
  CreateNotification at_ (mention_notification cmd content now id user) (tick w)
  = (Ok (nt_CreatedAt row), mkWorld (lens_set (<[id := row]> (co_notifications (w_db w))) (w_db w)) (S (S (w_tick w)))).
Proof.
  intros Ht Hn Hun Ha Hk Hf row. unfold CreateNotification, bind. rewrite insert_into_run; [done | apply Hfault | done | done | |].
  - cbn [notification_row mention_notification nt_ID nt_TenantID nt_UserID]. set_solver.
  - unfold notification_constraints. cbn [notification_row mention_notification nt_UserID nt_ActorID tick w_db].
    rewrite bool_decide_eq_true_2 by done. destruct (opt_ref _) as [a|] eqn:Ea; [| apply Hno].
    apply opt_ref_Some in Ea as [[= <-] _]. rewrite bool_decide_eq_true_2 by done. apply Hno.
Qed.

Lemma notify_run at_ cmd content now users w :
  cc_TenantID cmd <> NilID -> is_Some (co_users (w_db w) !! cc_AuthorID cmd) -> fresh_from (w_tick w) (co_notifications (w_db w)) ->
  (forall m, m ∈ users -> m <> NilID /\ (m <> cc_AuthorID cmd -> is_Some (co_users (w_db w) !! m))) ->
  exists w', notify at_ cmd content now users w = (Ok tt, w') /\ (w_tick w <= w_tick w')%nat.
Proof.
  intros Ht Ha. revert w Ha. induction users as [|user users IH]; intros w Ha Hf Hu; cbn [notify]; [by exists w |].
  case_bool_decide as He; [apply IH; set_solver |]. destruct (NewID_run w _ Hf) as (id & E & Hid & Hn & Hfr).
  destruct (Hu user ltac:(left)) as [Hun Hk]. unfold bind. rewrite E.
  erewrite wrap_err_run by exact (CreateNotification_run at_ cmd content now id user w Ht Hn Hun Ha (Hk He) Hfr).
  destruct (IH (mkWorld (lens_set (<[id := notification_row at_ (mention_notification cmd content now id user)]> (co_notifications (w_db w))) (w_db w))
                  (S (S (w_tick w))))) as (w' & E' & Hle); try done.
  - eapply fresh_from_le; [by apply fresh_from_insert | cbn; lia].
  - intros m Hm. apply Hu. by right.
  - exists w'. split; [exact E' |]. cbn in Hle. lia.
Qed.

Lemma comment_event_run cmd c now w : cc_TenantID cmd <> NilID -> cc_EntityID cmd <> NilID -> fresh_from (w_tick w) (co_outbox (w_db w)) ->
  exists w', comment_event u cmd c now w = (Ok tt, w') /\ (w_tick w <= w_tick w')%nat.
Proof.
  intros Ht He Hf. unfold comment_event. destruct (cu_outbox u); [| by exists w]. destruct (NewID_run w _ Hf) as (id & E & _ & Hn & Hfr).
  unfold bind at 1. rewrite E.
  assert (exists e v, zoom (Outbox.Create comm_outbox_refused (created_event cmd c now id)) (tick w) = (Ok e, v) /\ (w_tick w <= w_tick v)%nat) as (e & v & Ez & Hle).
  2: { exists v. unfold bind. by rewrite (wrap_err_run _ _ _ _ _ Ez). }
  unfold zoom, Outbox.Create, bind, query. rewrite Hfault. unfold insert_outbox. cbn [w_db tick outbox_row created_event ob_id ob_tenant_id ob_aggregate_id oe_ID oe_TenantID oe_AggregateID lens_get Lens_co_outbox].
  rewrite bool_decide_eq_false_2 by naive_solver. rewrite Hfr, (proj1 (proj2 (proj2 Hno))). do 2 eexists. split; [done | cbn; lia].
Qed.

Lemma comment_audit_run cmd c now w : cc_TenantID cmd <> NilID -> cm_ID c <> NilID -> fresh_from (w_tick w) (co_audit (w_db w)) ->
  exists w', comment_audit u cmd c now w = (Ok tt, w').
Proof.
  intros Ht He Hf. unfold comment_audit. destruct (cu_audit u); [| by exists w]. destruct (NewID_run w _ Hf) as (id & E & _ & Hn & Hfr).
  unfold bind at 1. rewrite E. unfold bind. erewrite wrap_err_run; [by eexists |].
  unfold zoom, AuditTrail.Create, bind, query. rewrite Hfault. unfold insert_audit. cbn [w_db tick audit_row created_entry al_ID al_TenantID al_EntityID lens_get Lens_co_audit].
  rewrite bool_decide_eq_false_2 by naive_solver. rewrite Hfr. rewrite (proj2 (proj2 (proj2 Hno))). done.
Qed.

Lemma repo_CreateComment_run at_ c w : cm_ID c <> NilID -> cm_TenantID c <> NilID -> cm_EntityID c <> NilID -> cm_AuthorID c <> NilID ->
  co_comments (w_db w) !! cm_ID c = None -> is_Some (co_users (w_db w) !! cm_AuthorID c) ->
  (forall p, cm_ParentID c = Some p -> p <> NilID -> is_Some (co_comments (w_db w) !! p)) ->
  exists c', repo_CreateComment at_ c w
    = (Ok c', mkWorld (lens_set (<[cm_ID c := comment_row at_ c]> (co_comments (w_db w))) (w_db w)) (S (w_tick w))).
Proof.
  intros H1' H2' H3' H4' Hf Ha Hp. unfold repo_CreateComment, bind. rewrite insert_into_run; [by eexists | apply Hfault | done | done | |].
  - cbn [comment_row cm_ID cm_TenantID cm_EntityID cm_AuthorID]. set_solver.
  - apply comment_constraints_None. split_and!; [done | | apply Hno]. cbn [comment_row cm_ParentID].
    intros p [Ep Hn]%opt_ref_Some. eauto.
Qed.

Lemma store_comment_run cmd c now w : undisturbed w -> cc_TenantID cmd <> NilID -> cc_EntityID cmd <> NilID -> cc_AuthorID cmd <> NilID ->
  cm_TenantID c = cc_TenantID cmd -> cm_EntityID c = cc_EntityID cmd -> cm_AuthorID c = cc_AuthorID cmd -> cm_ParentID c = cc_ParentID cmd ->
  cm_ID c <> NilID -> co_comments (w_db w) !! cm_ID c = None -> NilID ∉ cm_Mentions c -> refs_exist cmd (fun m => m ∈ cm_Mentions c) (w_db w) ->
  exists c' w', store_comment u cmd c now w = (Ok c', w').
Proof.
  intros Hq Ht He Ha E1 E2 E3 E4 Hid Hf Hm (Hau & Hpa & Hus). unfold store_comment, bind at 1. cbn [Now].
  destruct (repo_CreateComment_run (env_now (w_tick w)) c (tick w)) as (c' & Ec); rewrite ?E1, ?E2, ?E3, ?E4; try done.
  unfold bind at 1. rewrite Ec. set (w1 := mkWorld _ _).
  assert (w_tick w1 = S (S (w_tick w))) as Et by done.
  destruct (notify_run (env_now (w_tick w)) cmd (cm_Content c) now (cm_Mentions c) w1) as (w2 & En & Hle2); try done.
  { eapply fresh_from_le; [apply (un_notifications _ Hq) | lia]. }
  { intros m Hin. split; [by intros -> |]. by apply Hus. }
  unfold bind at 1. rewrite En. apply notify_Ok in En as (D2 & _ & _); [| done..].
  destruct (comment_event_run cmd c now w2) as (w3 & Ee & Hle3); try done.
  { rewrite D2. eapply fresh_from_le; [apply (un_outbox _ Hq) | lia]. }
  unfold bind at 1. rewrite Ee. apply comment_event_Ok in Ee as (D3 & _).
  destruct (comment_audit_run cmd c now w3) as (w4 & E5); try done.
  { rewrite D3, D2. eapply fresh_from_le; [apply (un_audit _ Hq) | lia]. }
  unfold bind. rewrite E5. by do 2 eexists.
Qed.
End Accepted.

Section Total.
  Context `{Env, Pg, CommServer, UUIDLib, UnicodeTables, GoOrder}.
  Variable u : comm_usecase.

Lemma undisturbed_later (w w' : World CommDB) : undisturbed w -> w_db w' = w_db w -> (w_tick w <= w_tick w')%nat -> undisturbed w'.
Proof. intros [] E Hle. split; rewrite ?E; eauto using fresh_from_le. Qed.

Lemma CreateComment_run ctx cmd w : range_ok -> ctx_tx ctx = false -> undisturbed w -> command_valid cmd ->
  refs_exist cmd (mentioned cmd) (w_db w) -> exists c w', CreateComment u ctx cmd w = (Ok c, w').
Proof.
  intros Hr Hx Hq (Ht & Hety & Hen & Han & Hco & Hty) Hrefs. unfold CreateComment, guard.
  rewrite !bool_decide_eq_false_2, (proj2 (String.eqb_neq _ _) Hety), (proj2 (String.eqb_neq _ _) Hco) by done.
  assert (negb (String.eqb (comment_type (cc_Type cmd)) CommentTypeGeneral) && negb (String.eqb (comment_type (cc_Type cmd)) CommentTypeInternalNote) = false) as ->.
  { apply list_elem_of_In in Hty as [<-|[<-|[]]]; done. }
  destruct (NewID_run w _ (un_comments _ Hq)) as (id & E & Hid & Hn & Hf). unfold bind, ret, NowUTC, WithTx. rewrite E, Hx. cbn [negb]. rewrite (un_fault _ Hq).
  assert (forall m, m ∈ range_ids (mention_set (cc_Mentions cmd) (TrimSpace (cc_Content cmd))) <-> mentioned cmd m) as Hm.
  { intros m. rewrite (Hr _), elem_of_elements. apply mention_set_iff. }
  edestruct (store_comment_run u (un_fault _ Hq) (un_distinct _ Hq) (un_refused _ Hq) cmd) as (c & w' & Es).
  13: { rewrite Es, (un_fault _ Hq). by do 2 eexists. }
  all: cbn [cm_TenantID cm_EntityID cm_AuthorID cm_ParentID cm_ID cm_Mentions w_db tick]; try done.
  - eapply undisturbed_later; [done | done | cbn; lia].
  - intros Hin%Hm. by destruct Hin.
  - destruct Hrefs as (? & ? & Hmu). split_and!; [done.. |]. intros m. rewrite Hm. apply Hmu.
Qed.
End Total.

(** ** The invariant *)

Record comm_inv (d : CommDB) : Prop := {
  ci_comments : keyed cm_ID (co_comments d) /\ co_comments d !! NilID = None;
  ci_notifications : keyed nt_ID (co_notifications d);
  ci_parents : forall k c p, co_comments d !! k = Some c -> cm_ParentID c = Some p -> is_Some (co_comments d !! p);
  ci_authors : forall k c, co_comments d !! k = Some c -> is_Some (co_users d !! cm_AuthorID c);
  ci_content : forall k c, co_comments d !! k = Some c -> cm_Content c <> "" /\ TrimSpace (cm_Content c) = cm_Content c
    /\ cm_Type c ∈ [CommentTypeGeneral; CommentTypeInternalNote] /\ NoDup (cm_Mentions c) /\ NilID ∉ cm_Mentions c;
  ci_recipients : forall k n, co_notifications d !! k = Some n -> is_Some (co_users d !! nt_UserID n);
  ci_read : forall k n, co_notifications d !! k = Some n -> nt_IsRead n = bool_decide (is_Some (nt_ReadAt n));
}.

(** The parts of the tables the invariant speaks of. *)
Lemma comm_inv_ext d d' : co_comments d' = co_comments d -> co_notifications d' = co_notifications d -> co_users d' = co_users d ->
  comm_inv d -> comm_inv d'.
Proof. intros E1 E2 E3 []. split; rewrite ?E1, ?E2, ?E3; eauto. Qed.

Section CommInvariant.
  Context `{Env, Pg, CommServer, UUIDLib, UnicodeTables, GoOrder}.
  Variable u : comm_usecase.

Lemma mark_rows_inv p at_ d : comm_inv d -> comm_inv (lens_set (mark_rows p at_ (co_notifications d)) d).
Proof.
  intros []. split; cbn [lens_set Lens_co_notifications co_comments co_notifications co_users]; try done; unfold mark_rows.
  - intros k n. rewrite lookup_fmap_Some. intros (n0 & <- & Hn). destruct (p n0); exact (ci_notifications0 k n0 Hn).
  - intros k n. rewrite lookup_fmap_Some. intros (n0 & <- & Hn). destruct (p n0); exact (ci_recipients0 k n0 Hn).
  - intros k n. rewrite lookup_fmap_Some. intros (n0 & <- & Hn). destruct (p n0); [done | by eapply ci_read0].
Qed.

Lemma delete_comments_inv p d : comm_inv d -> comm_inv (lens_set (delete_comments p (co_comments d)) d).
Proof.
  intros []. split; cbn [lens_set Lens_co_comments co_comments co_notifications co_users]; try done.
  - destruct ci_comments0 as [Hk Hn]. split.
    + intros k c [Hc _]%delete_comments_lookup. by apply Hk.
    + destruct (delete_comments p (co_comments d) !! NilID) eqn:E; [| done]. apply delete_comments_lookup in E as [E _]. congruence.
  - intros k c q. by apply delete_comments_parents.
  - intros k c [Hc _]%delete_comments_lookup. eauto.
  - intros k c [Hc _]%delete_comments_lookup. eauto.
Qed.

Lemma notified_lookup cmd content users t t' k n : notified cmd content users t t' -> t' !! k = Some n ->
  t !! k = Some n \/ (t' ∖ t) !! k = Some n.
Proof.
  intros [Hk _ _] Hn. destruct (t !! k) as [n0|] eqn:E; [left; rewrite <- Hn; symmetry; by eapply lookup_weaken |].
  right. by rewrite lookup_difference, E.
Qed.

Lemma comment_posted_inv cmd c d d' : command_valid cmd -> cm_ID c <> NilID -> refs_exist cmd (mentioned cmd) d ->
  comment_posted u cmd c d d' -> comm_inv d -> comm_inv d'.
Proof.
  intros (_ & _ & _ & _ & Hco & Hty) Hid (Ra & Rp & Rm) [(_ & _ & _ & Ea & Ety & Eco & Epa) (Hnd & Hm) (at_ & Hf & Ec) Hno _ _ (Eu & _)] [].
  assert (forall m, m ∈ cm_Mentions c -> m <> NilID) as Hmn by (intros m Hin%Hm; apply Hin).
  assert (forall k n, (co_notifications d' ∖ co_notifications d) !! k = Some n -> is_Some (co_users d !! nt_UserID n)) as Hu.
  { intros k n Hn. assert (nt_UserID n ∈ filter (fun m => m <> cc_AuthorID cmd) (cm_Mentions c)) as [Hne Hin]%list_elem_of_filter.
    { rewrite <- (no_users _ _ _ _ _ Hno), list_elem_of_In. apply in_map, list_elem_of_In, list_elem_of_fmap. exists (k, n).
      split; [done |]. by apply elem_of_map_to_list. }
    apply Rm; [by apply Hm | done]. }
  split; rewrite ?Ec, ?Eu.
  - destruct ci_comments0 as [Hk Hnil]. split; [exact (keyed_insert cm_ID _ (comment_row at_ c) Hk) | by rewrite lookup_insert_ne].
  - intros k n [Hn|Hn]%(notified_lookup _ _ _ _ _ _ _ Hno); [by apply ci_notifications0 | by apply (no_rows _ _ _ _ _ Hno) in Hn as (-> & _)].
  - intros k c0 p [[<- <-]|[_ Hc]]%lookup_insert_Some Hp; apply lookup_insert_is_Some'; right; [| eauto].
    cbn [comment_row cm_ParentID] in Hp. apply opt_ref_Some in Hp as [Hp Hpn]. apply Rp; congruence.
  - intros k c0 [[<- <-]|[_ Hc]]%lookup_insert_Some; [cbn [comment_row cm_AuthorID]; by rewrite Ea | eauto].
  - intros k c0 [[<- <-]|[_ Hc]]%lookup_insert_Some; [| eauto]. cbn [comment_row cm_Content cm_Type cm_Mentions].
    rewrite Eco, Ety. split_and!; [done | apply TrimSpace_idemp | done | done |]. intros Hin. by apply (Hmn NilID).
  - intros k n [Hn|Hn]%(notified_lookup _ _ _ _ _ _ _ Hno); eauto.
  - intros k n [Hn|Hn]%(notified_lookup _ _ _ _ _ _ _ Hno); [eauto |]. apply (no_rows _ _ _ _ _ Hno) in Hn as (_ & _ & _ & _ & _ & _ & -> & ->). done.
Qed.

(** The calls of the use case. *)
Inductive CommCall :=
  | PostComment (ctx : Ctx) (cmd : CreateCommentCommand)
  | RemoveComment (tenantID commentID actorID : ID)
  | ReadOne (tenantID userID notificationID : ID)
  | ReadAll (tenantID userID : ID)
  | BrowseComments (tenantID : ID) (entityType : string) (entityID : ID)
  | BrowseInbox (tenantID userID : ID) (unreadOnly : bool) (limit offset : Z)
  | BrowseTimeline (tenantID : ID) (entityType : string) (entityID : ID).

Definition comm_call (c : CommCall) (w : World CommDB) : World CommDB :=
  match c with
  | PostComment ctx cmd => (CreateComment u ctx cmd w).2
  | RemoveComment t c a => (DeleteComment t c a w).2
  | ReadOne t user n => (MarkNotificationRead t user n w).2
  | ReadAll t user => (MarkAllNotificationsRead t user w).2
  | BrowseComments t ty id => (ListEntityComments t ty id w).2
  | BrowseInbox t user unread limit offset => (ListNotifications t user unread limit offset w).2
  | BrowseTimeline t ty id => (GetUnifiedTimeline u t ty id w).2
  end.

Definition comm_session (cs : list CommCall) (w : World CommDB) : World CommDB := fold_left (fun w c => comm_call c w) cs w.

(** Handlers call the use case outside any transaction. *)
Definition outside_tx (c : CommCall) : Prop := match c with PostComment ctx _ => ctx_tx ctx = false | _ => True end.

Lemma CreateComment_inv ctx cmd : range_ok -> ctx_tx ctx = false -> preserves comm_inv (CreateComment u ctx cmd).
Proof.
  intros Hr Hx w Hi. pose proof (CreateComment_writes_last u ctx cmd Hx w) as Hw. destruct (CreateComment u ctx cmd w) as [[c|e|e] w'] eqn:E; cbn [fst snd is_Ok] in *;
    [| by rewrite Hw by done..].
  destruct (CreateComment_Ok u ctx cmd w c w' Hr Hx E) as (Hp & Hid & Hrefs). eapply comment_posted_inv; eauto using CreateComment_guards.
Qed.

Lemma preserves_query {A} (I : CommDB -> Prop) (f : CommDB -> res (A * CommDB)) :
  (forall d a d', I d -> f d = Ok (a, d') -> I d') -> preserves I (query f).
Proof. intros Hf w Hi. unfold query. destruct (env_fault _); [done |]. destruct (f (w_db w)) as [[a d']| |] eqn:E; cbn; eauto. Qed.

Lemma reads_source {A} (m : M CommDB (list A)) item : reads m -> reads (source m item).
Proof. intros Hm. unfold source. apply reads_bind; [by apply reads_attempt |]. intros []; apply reads_ret. Qed.

Lemma reads_tenant_guard t : reads (tenant_guard t).
Proof. apply reads_guard. Qed.

Lemma reads_ListComments t ty id : reads (ListCommentsByEntity t ty id).
Proof. apply reads_query. naive_solver. Qed.

Lemma reads_audit_List t f : reads (AuditTrail.List t f).
Proof. unfold AuditTrail.List. apply reads_bind; [apply reads_query; naive_solver |]. intros ?. apply reads_bind; [apply reads_query; naive_solver |]. intros ?. apply reads_ret. Qed.

Lemma reads_GetUnifiedTimeline t ty id : reads (GetUnifiedTimeline u t ty id).
Proof.
  unfold GetUnifiedTimeline. apply reads_bind; [apply reads_tenant_guard | intros _].
  apply reads_bind; [apply reads_source, reads_ListComments | intros c].
  apply reads_bind; [destruct (cu_audit u); [apply reads_source, reads_bind; [apply reads_zoom, reads_audit_List | intros r; apply reads_ret] | apply reads_ret] | intros l].
  apply reads_bind; [destruct (cu_attachments u); [apply reads_source, reads_zoom, reads_query; naive_solver | apply reads_ret] | intros a]. apply reads_ret.
Qed.

Lemma comm_call_inv c w : range_ok -> outside_tx c -> comm_inv (w_db w) -> comm_inv (w_db (comm_call c w)).
Proof.
  intros Hr Hx. revert w. destruct c; cbn [comm_call].
  - by apply CreateComment_inv.
  - change (preserves comm_inv (DeleteComment tenantID commentID actorID)). unfold DeleteComment.
    do 3 (apply preserves_bind; [apply preserves_reads; first [apply reads_tenant_guard | apply reads_select_from | apply reads_guard] | intros ?]).
    apply preserves_query. intros d x d' Hi [= _ <-]. by apply delete_comments_inv.
  - change (preserves comm_inv (MarkNotificationRead tenantID userID notificationID)). unfold MarkNotificationRead, repo_MarkNotificationRead.
    do 2 (apply preserves_bind; [apply preserves_reads; first [apply reads_tenant_guard | apply reads_Now] | intros ?]).
    apply preserves_query. intros d x d' Hi [= _ <-]. by apply mark_rows_inv.
  - change (preserves comm_inv (MarkAllNotificationsRead tenantID userID)). unfold MarkAllNotificationsRead, repo_MarkAllNotificationsRead.
    do 2 (apply preserves_bind; [apply preserves_reads; first [apply reads_tenant_guard | apply reads_Now] | intros ?]).
    apply preserves_query. intros d x d' Hi [= _ <-]. by apply mark_rows_inv.
  - apply preserves_reads. unfold ListEntityComments. apply reads_bind; [apply reads_tenant_guard | intros _; apply reads_ListComments].
  - apply preserves_reads. unfold ListNotifications. apply reads_bind; [apply reads_tenant_guard | intros _].
    apply reads_bind; [apply reads_query; intros d a d'; destruct (offset <? 0); naive_solver | intros l].
    apply reads_bind; [apply reads_query; naive_solver | intros n; apply reads_ret].
  - apply preserves_reads, reads_GetUnifiedTimeline.
Qed.

Lemma comm_session_inv cs w : range_ok -> Forall outside_tx cs -> comm_inv (w_db w) -> comm_inv (w_db (comm_session cs w)).
Proof.
  intros Hr Hx. revert w. induction Hx as [|c cs Hc _ IH]; intros w Hi; [done |]. apply IH. by apply comm_call_inv.
Qed.
End CommInvariant.

(** ** The timeline of an entity *)

(** An audit entry of the entity. *)
Definition audit_of (t : ID) (ty : string) (id : ID) (d : CommDB) (l : AuditLog) : Prop :=
  (exists k, co_audit d !! k = Some l) /\ al_TenantID l = t /\ al_EntityType l = ty /\ al_EntityID l = id.

(** The items an entity has, as they are stored under its type: comments with a
    known author, audit entries, and attachments with their files. *)
Inductive timeline_item (u : comm_usecase) (t : ID) (ty : string) (id : ID) (d : CommDB) : ActivityItem -> Prop :=
  | item_comment k c author : co_comments d !! k = Some c -> cm_TenantID c = t -> cm_EntityType c = ty -> cm_EntityID c = id ->
      co_users d !! cm_AuthorID c = Some author -> timeline_item u t ty id d (comment_item (mkCommentWithAuthor c (u_Name author) (u_Email author)))
  | item_audit l : cu_audit u = true -> audit_of t ty id d l -> timeline_item u t ty id d (audit_item l)
  | item_attachment k a f : cu_attachments u = true -> t_attachments (co_files d) !! k = Some a -> ea_TenantID a = t -> ea_EntityType a = ty ->
      ea_EntityID a = id -> t_files (co_files d) !! ea_FileID a = Some f -> timeline_item u t ty id d (attachment_item (mkAttachmentWithFile a f)).

(** A hundred audit entries of the entity are shown, none older than [l]. *)
Definition overtaken (t : ID) (ty : string) (id : ID) (d : CommDB) (shown : list ActivityItem) (l : AuditLog) : Prop := exists page,
  length page = 100%nat /\ NoDup (map al_ID page)
  /\ Forall (fun x => audit_of t ty id d x /\ audit_item x ∈ shown /\ t_nanos (al_CreatedAt l) <= t_nanos (al_CreatedAt x)) page.

(** [lists m f]: [m] reads [f] of the tables, or fails when a round trip does. *)
Definition lists `{Env} {A} (m : M CommDB (list A)) (f : CommDB -> list A) : Prop := forall w, exists w',
  w_db w' = w_db w /\ (m w = (Ok (f (w_db w)), w') \/ (exists e, m w = (Err e, w')) /\ ~ (forall n, env_fault n = None)).

(** What tells two items apart. *)
Definition item_key (i : ActivityItem) : string * ID := (ai_ActivityType i, ai_ID i).

Definition audit_page (t : ID) (ty : string) (id : ID) (d : CommDB) : list AuditLog :=
  firstn 100 (merge_sort audit_newest (select_rows (audit_matches t (timeline_filter ty id)) (co_audit d))).
Definition attached (t : ID) (ty : string) (id : ID) (d : CommDB) : list AttachmentWithFile :=
  omap (fun a => f ← t_files (co_files d) !! ea_FileID a; Some (mkAttachmentWithFile a f))
    (merge_sort attachment_le (select_rows (fun r => sql_eq (ea_TenantID r) (ToPgUUID t)
        && String.eqb (ea_EntityType r) ty && sql_eq (ea_EntityID r) (ToPgUUID id)) (t_attachments (co_files d)))).

Section Timeline.
  Context `{Env, GoOrder}.
  Variables (u : comm_usecase) (t : ID) (ty : string) (id : ID).

Lemma lists_comments : lists (ListCommentsByEntity t ty id) (comments_of t ty id).
Proof.
  intros w. exists (tick w). split; [done |]. unfold ListCommentsByEntity, query. destruct (env_fault (w_tick w)) eqn:E; [right | by left].
  split; [by eexists |]. intros Hn. by rewrite Hn in E.
Qed.

Lemma lists_attached : lists (zoom (ListAttachmentsByEntity t ty id)) (attached t ty id).
Proof.
  intros w. exists (tick w). split; [done |]. unfold zoom, ListAttachmentsByEntity, query. cbn [w_tick w_db].
  destruct (env_fault (w_tick w)) eqn:E; [right | left]; cbn [tick w_db w_tick]; rewrite lens_set_get; [| done].
  split; [by eexists |]. intros Hn. by rewrite Hn in E.
Qed.

Lemma lists_audit : lists (r <- zoom (AuditTrail.List t (timeline_filter ty id)) ;; ret r.1) (audit_page t ty id).
Proof.
  intros w. destruct (env_fault (w_tick w)) eqn:E1; [exists (tick w) | exists (tick (tick w))]; (split; [done |]);
    unfold AuditTrail.List, zoom, bind, ret, query; cbn [w_tick w_db]; rewrite E1; cbn [tick w_db w_tick].
  - right. rewrite lens_set_get. split; [by eexists |]. intros Hn. by rewrite Hn in E1.
  - destruct (env_fault (S (w_tick w))) eqn:E2; [right | left]; cbn [tick w_db w_tick]; rewrite lens_set_get; [| done].
    split; [by eexists |]. intros Hn. by rewrite Hn in E2.
Qed.

(** A source that fails is left out. *)
Lemma source_run {A} (m : M CommDB (list A)) f item w : lists m f ->
  exists (b : bool) w', source m item w = (Ok (if b then map item (f (w_db w)) else []), w') /\ w_db w' = w_db w
    /\ ((forall n, env_fault n = None) -> b = true).
Proof.
  intros Hm. destruct (Hm w) as (w' & Hd & [E|[[e E] Hn]]); unfold source, bind, attempt; rewrite E; [exists true | exists false]; exists w'; naive_solver.
Qed.

Lemma optional_run {A} (on : bool) (m : M CommDB (list A)) f item w : lists m f ->
  exists (b : bool) w', (if on then source m item else ret []) w = (Ok (if on && b then map item (f (w_db w)) else []), w') /\ w_db w' = w_db w
    /\ ((forall n, env_fault n = None) -> b = true).
Proof. intros Hm. destruct on; [by apply source_run |]. exists true, w. done. Qed.

Lemma GetUnifiedTimeline_run w : t <> NilID -> exists (b1 b2 b3 : bool) w',
  GetUnifiedTimeline u t ty id w = (Ok (sort_Slice later ((if b1 then map comment_item (comments_of t ty id (w_db w)) else [])
      ++ (if cu_audit u && b2 then map audit_item (audit_page t ty id (w_db w)) else [])
      ++ (if cu_attachments u && b3 then map attachment_item (attached t ty id (w_db w)) else []))), w')
  /\ w_db w' = w_db w /\ ((forall n, env_fault n = None) -> b1 = true /\ b2 = true /\ b3 = true).
Proof.
  intros Ht. destruct (source_run _ _ comment_item w lists_comments) as (b1 & w1 & E1 & D1 & N1).
  destruct (optional_run (cu_audit u) _ _ audit_item w1 lists_audit) as (b2 & w2 & E2 & D2 & N2).
  destruct (optional_run (cu_attachments u) _ _ attachment_item w2 lists_attached) as (b3 & w3 & E3 & D3 & N3).
  exists b1, b2, b3, w3. rewrite D2, D1 in E3. rewrite D1 in E2. split_and!; [| congruence | naive_solver].
  unfold GetUnifiedTimeline, tenant_guard, guard. rewrite bool_decide_eq_false_2 by done.
  unfold bind at 1. cbn [ret]. unfold bind at 1. rewrite E1. unfold bind at 1. rewrite E2. unfold bind. rewrite E3. done.
Qed.

Hypotheses (Ht : t <> NilID) (Hid : id <> NilID).

Lemma entity_match (a c : ID) (b : string) :
  sql_eq a (ToPgUUID t) && String.eqb b ty && sql_eq c (ToPgUUID id) = true <-> a = t /\ b = ty /\ c = id.
Proof. rewrite !andb_true_iff, !sql_eq_true, String.eqb_eq. naive_solver. Qed.

Lemma elem_of_comment_items d i : i ∈ map comment_item (comments_of t ty id d) <->
  exists k c author, co_comments d !! k = Some c /\ cm_TenantID c = t /\ cm_EntityType c = ty /\ cm_EntityID c = id
    /\ co_users d !! cm_AuthorID c = Some author /\ i = comment_item (mkCommentWithAuthor c (u_Name author) (u_Email author)).
Proof.
  unfold comments_of. rewrite list_elem_of_fmap. setoid_rewrite merge_sort_Permutation. setoid_rewrite list_elem_of_omap.
  setoid_rewrite elem_of_select_rows. unfold comment_of. setoid_rewrite entity_match. unfold with_author. split.
  - intros (ca & -> & c & ((E1 & E2 & E3) & k & Hk) & Ha). destruct (co_users d !! cm_AuthorID c) as [a|] eqn:Ea; [| done].
    injection Ha as <-. exists k, c, a. done.
  - intros (k & c & a & Hk & E1 & E2 & E3 & Ha & ->). eexists. split; [done |]. exists c. split; [eauto |]. by rewrite Ha.
Qed.

Lemma elem_of_attachment_items d i : i ∈ map attachment_item (attached t ty id d) <->
  exists k a f, t_attachments (co_files d) !! k = Some a /\ ea_TenantID a = t /\ ea_EntityType a = ty /\ ea_EntityID a = id
    /\ t_files (co_files d) !! ea_FileID a = Some f /\ i = attachment_item (mkAttachmentWithFile a f).
Proof.
  unfold attached. rewrite list_elem_of_fmap. setoid_rewrite list_elem_of_omap. setoid_rewrite merge_sort_Permutation.
  setoid_rewrite elem_of_select_rows. setoid_rewrite entity_match. split.
  - intros (ca & -> & a & ((E1 & E2 & E3) & k & Hk) & Ha). destruct (t_files (co_files d) !! ea_FileID a) as [f|] eqn:Ef; [| done].
    injection Ha as <-. exists k, a, f. done.
  - intros (k & a & f & Hk & E1 & E2 & E3 & Ha & ->). eexists. split; [done |]. exists a. split; [eauto |]. by rewrite Ha.
Qed.

Lemma elem_of_audit_rows d l :
  l ∈ merge_sort audit_newest (select_rows (audit_matches t (timeline_filter ty id)) (co_audit d)) <-> audit_of t ty id d l.
Proof.
  rewrite merge_sort_Permutation, elem_of_select_rows. unfold audit_of, audit_matches, timeline_filter. cbn.
  rewrite !andb_true_r, !andb_true_iff, sql_eq_true, String.eqb_eq. unfold narg_id. rewrite decide_False, bool_decide_eq_true by done. naive_solver.
Qed.

(** What the three sources give belongs to the entity. *)
Lemma timeline_sound d i :
  i ∈ map comment_item (comments_of t ty id d) ++ (if cu_audit u then map audit_item (audit_page t ty id d) else [])
      ++ (if cu_attachments u then map attachment_item (attached t ty id d) else []) -> timeline_item u t ty id d i.
Proof.
  rewrite !elem_of_app, elem_of_comment_items. intros [(k & c & a & ? & ? & ? & ? & ? & ->)|[Hl|Ha]]; [by econstructor | |].
  - destruct (cu_audit u) eqn:Hu; [| by apply not_elem_of_nil in Hl]. apply list_elem_of_fmap in Hl as (l & -> & Hl). constructor; [done |].
    apply elem_of_audit_rows. eapply elem_of_sublist; [exact Hl | apply sublist_take].
  - destruct (cu_attachments u) eqn:Hu; [| by apply not_elem_of_nil in Ha].
    apply elem_of_attachment_items in Ha as (k & a & f & ? & ? & ? & ? & ? & ->). by econstructor.
Qed.

(** An entry that is not on the page has a full page of newer ones before it. *)
Lemma audit_page_full d l : audit_of t ty id d l ->
  l ∈ audit_page t ty id d
  \/ length (audit_page t ty id d) = 100%nat /\ Forall (fun x => t_nanos (al_CreatedAt l) <= t_nanos (al_CreatedAt x)) (audit_page t ty id d).
Proof.
  intros Hl. apply elem_of_audit_rows in Hl. unfold audit_page. revert Hl.
  assert (Transitive audit_newest) by (intros a b c; unfold audit_newest; lia). assert (Total audit_newest) by (intros a b; unfold audit_newest; lia).
  pose proof (StronglySorted_merge_sort audit_newest (select_rows (audit_matches t (timeline_filter ty id)) (co_audit d))) as Hs.
  generalize dependent (merge_sort audit_newest (select_rows (audit_matches t (timeline_filter ty id)) (co_audit d))). intros rows Hs Hl.
  rewrite <- (firstn_skipn 100 rows) in Hl. apply elem_of_app in Hl as [Hl|Hl]; [by left | right]. split.
  - rewrite length_firstn. apply list_elem_of_lookup_1 in Hl as [j Hj]. apply lookup_lt_Some in Hj. rewrite length_skipn in Hj. lia.
  - apply Forall_forall. intros x Hx. rewrite <- (firstn_skipn 100 rows) in Hs. apply StronglySorted_app in Hs as (Hs & _ & _). by apply (Hs x l).
Qed.

Lemma timeline_complete d i : keyed al_ID (co_audit d) -> timeline_item u t ty id d i ->
  let shown := map comment_item (comments_of t ty id d) ++ (if cu_audit u then map audit_item (audit_page t ty id d) else [])
      ++ (if cu_attachments u then map attachment_item (attached t ty id d) else []) in
  i ∈ shown \/ exists l, i = audit_item l /\ overtaken t ty id d shown l.
Proof.
  intros Hk Hi shown. destruct Hi as [k c a | l Hu Hl | k a f Hu].
  - left. apply elem_of_app. left. apply elem_of_comment_items. naive_solver.
  - assert (forall x, x ∈ audit_page t ty id d -> audit_item x ∈ shown) as Hin.
    { intros x Hx. unfold shown. rewrite !elem_of_app, Hu. right. left. apply list_elem_of_fmap. eauto. }
    destruct (audit_page_full d l Hl) as [Hp|[Hlen Hold]]; [left; by apply Hin | right]. exists l. split; [done |].
    exists (audit_page t ty id d). split; [done |]. split.
    + unfold audit_page. rewrite <- firstn_map. eapply sublist_NoDup; [| apply sublist_take]. rewrite merge_sort_Permutation. by apply NoDup_select_rows.
    + apply Forall_forall. intros x Hx. rewrite Forall_forall in Hold. split_and!; [| by apply Hin | by apply Hold].
      apply elem_of_audit_rows. eapply elem_of_sublist; [exact Hx | apply sublist_take].
  - left. unfold shown. rewrite !elem_of_app, Hu. right. right. apply elem_of_attachment_items. naive_solver.
Qed.
End Timeline.

Lemma NoDup_map_omap {A B} (f : A -> ID) (h : B -> ID) (g : A -> option B) l :
  (forall x y, g x = Some y -> h y = f x) -> NoDup (map f l) -> NoDup (map h (omap g l)).
Proof.
  intros Hg. induction l as [|x l IH]; cbn; [done |]. intros [Hn Hl]%NoDup_cons. destruct (g x) as [y|] eqn:E; cbn; [| auto].
  apply NoDup_cons. split; [| auto]. rewrite (Hg x y E). intros (y' & Ey & (x' & Hx & Ex)%list_elem_of_omap)%list_elem_of_fmap.
  apply Hn. apply list_elem_of_fmap. exists x'. split; [| done]. rewrite Ey. by apply Hg.
Qed.

(** Items of one kind and of distinct rows are distinct. *)
Lemma NoDup_items {A} (item : A -> ActivityItem) (idf : A -> ID) (kind : string) l :
  (forall x, item_key (item x) = (kind, idf x)) -> NoDup (map idf l) -> NoDup (map item_key (map item l)).
Proof.
  intros Hi Hl. assert (map item_key (map item l) = map (pair kind) (map idf l)) as ->.
  { rewrite !map_map. apply map_ext. exact Hi. }
  apply NoDup_fmap; [| done]. intros ? ? [=]. done.
Qed.

Lemma elem_of_item_keys {A} (item : A -> ActivityItem) (idf : A -> ID) (kind : string) l x :
  (forall x, item_key (item x) = (kind, idf x)) -> x ∈ map item_key (map item l) -> x.1 = kind.
Proof.
  intros Hi. rewrite map_map. intros (y & -> & _)%list_elem_of_fmap. by rewrite Hi.
Qed.

Section Distinct.
  Variables (t : ID) (ty : string) (id : ID) (d : CommDB).
  Hypotheses (Hc : keyed cm_ID (co_comments d)) (Hl : keyed al_ID (co_audit d)) (Ha : keyed ea_ID (t_attachments (co_files d))).

Lemma NoDup_comment_items : NoDup (map item_key (map comment_item (comments_of t ty id d))).
Proof.
  apply (NoDup_items _ (fun ca => cm_ID (ca_Comment ca)) "comment"); [done |]. unfold comments_of. rewrite merge_sort_Permutation.
  apply (NoDup_map_omap cm_ID); [| by apply NoDup_select_rows]. unfold with_author. intros c ca. destruct (co_users d !! _); [| done]. by intros [= <-].
Qed.

Lemma NoDup_audit_items : NoDup (map item_key (map audit_item (audit_page t ty id d))).
Proof.
  apply (NoDup_items _ al_ID "audit"); [done |]. unfold audit_page. rewrite <- firstn_map. eapply sublist_NoDup; [| apply sublist_take].
  rewrite merge_sort_Permutation. by apply NoDup_select_rows.
Qed.

Lemma NoDup_attachment_items : NoDup (map item_key (map attachment_item (attached t ty id d))).
Proof.
  apply (NoDup_items _ (fun a => ea_ID (awf_attachment a)) "attachment"); [done |]. unfold attached.
  apply (NoDup_map_omap ea_ID); [| rewrite merge_sort_Permutation; by apply NoDup_select_rows].
  intros a ca. destruct (t_files _ !! _); [| done]. by intros [= <-].
Qed.

Lemma NoDup_timeline (b1 b2 b3 : bool) : NoDup (map item_key
  ((if b1 then map comment_item (comments_of t ty id d) else []) ++ (if b2 then map audit_item (audit_page t ty id d) else [])
    ++ (if b3 then map attachment_item (attached t ty id d) else []))).
Proof.
  rewrite !map_app. pose proof NoDup_comment_items. pose proof NoDup_audit_items. pose proof NoDup_attachment_items.
  pose proof (fun x => elem_of_item_keys comment_item (fun ca => cm_ID (ca_Comment ca)) "comment" (comments_of t ty id d) x ltac:(done)) as K1.
  pose proof (fun x => elem_of_item_keys audit_item al_ID "audit" (audit_page t ty id d) x ltac:(done)) as K2.
  pose proof (fun x => elem_of_item_keys attachment_item (fun a => ea_ID (awf_attachment a)) "attachment" (attached t ty id d) x ltac:(done)) as K3.
  assert (forall (b : bool) (l : list ActivityItem), NoDup (map item_key l) -> NoDup (map item_key (if b then l else []))) as Hb by (intros [] ?; [done | constructor]).
  assert (forall (b : bool) (l : list ActivityItem) x, x ∈ map item_key (if b then l else []) -> x ∈ map item_key l) as He.
  { intros [] l x Hx; [done | by apply not_elem_of_nil in Hx]. }
  apply NoDup_app. split_and!; [by apply Hb | |].
  - intros x E1%He%K1 Hx. apply elem_of_app in Hx as [E2%He%K2|E2%He%K3]; rewrite E2 in E1; discriminate.
  - apply NoDup_app. split_and!; [by apply Hb | | by apply Hb]. intros x E1%He%K2 E2%He%K3. rewrite E2 in E1. discriminate.
Qed.
End Distinct.

Lemma StronglySorted_weaken {A} (R S : A -> A -> Prop) l : (forall a b, R a b -> S a b) -> StronglySorted R l -> StronglySorted S l.
Proof. intros Hi Hl. induction Hl as [|x l Hl IH Hx]; constructor; [done |]. eapply Forall_impl; [exact Hx | auto]. Qed.

(** ** Properties *)

(** C24: posting a comment is atomic.  When the call succeeds, the comment, one
    unread notification for every mentioned user except the author, exactly one outbox
    event (comment.created; none for the notifications) and the audit entry have been
    added and nothing else has changed; the mentioned users are those of the command
    and those whose identifier follows an at sign in the text.  When it fails, wherever
    that is, no table has changed. *)
Theorem CreateComment_atomic `{Env, Pg, CommServer, UUIDLib, UnicodeTables, GoOrder} (u : comm_usecase) (ctx : Ctx)
    (cmd : CreateCommentCommand) (w : World CommDB) :
  range_ok -> ctx_tx ctx = false ->
  match CreateComment u ctx cmd w with
  | (Ok c, w') => comment_posted u cmd c (w_db w) (w_db w')
  | (_, w') => w_db w' = w_db w
  end.
Proof.
  intros Hr Hx. pose proof (CreateComment_writes_last u ctx cmd Hx w) as Hw.
  destruct (CreateComment u ctx cmd w) as [[c|e|e] w'] eqn:E; cbn [fst snd is_Ok] in *; [| by apply Hw..].
  by apply (CreateComment_Ok u ctx cmd w c w' Hr Hx E).
Qed.

(** which comments are accepted.  When no round trip fails, identifiers are
    fresh and the server has no other objection, a comment is accepted if and
    only if the command is well formed, the author and the parent exist, and
    every mentioned user exists: one unknown identifier after an at sign
    refuses the whole comment. *)
Theorem CreateComment_accepted `{Env, Pg, CommServer, UUIDLib, UnicodeTables, GoOrder} (u : comm_usecase) (ctx : Ctx)
    (cmd : CreateCommentCommand) (w : World CommDB) :
  range_ok -> ctx_tx ctx = false -> undisturbed w ->
  (exists c w', CreateComment u ctx cmd w = (Ok c, w')) <-> command_valid cmd /\ refs_exist cmd (mentioned cmd) (w_db w).
Proof.
  intros Hr Hx Hq. split.
  - intros (c & w' & E). split; [by eapply CreateComment_guards | by eapply CreateComment_Ok].
  - intros [Hv Hrefs]. by apply CreateComment_run.
Qed.

(** who can delete a comment and what goes with it.  A comment of the tenant
    is deleted for its author or for a call without an actor, and with it
    exactly the replies below it, however deep; for another actor, another
    tenant or an unknown identifier the call fails with the matching error and
    nothing changes. *)
Theorem DeleteComment_exact `{Env} (t id actor : ID) (w : World CommDB) :
  comm_inv (w_db w) -> (forall n, env_fault n = None) -> t <> NilID ->
  match co_comments (w_db w) !! id with
  | Some c =>
      (cm_TenantID c = t -> actor = NilID \/ cm_AuthorID c = actor -> exists w', DeleteComment t id actor w = (Ok tt, w')
         /\ (forall k c', co_comments (w_db w') !! k = Some c' <-> co_comments (w_db w) !! k = Some c' /\ ~ in_thread (co_comments (w_db w)) id k)
         /\ w_db w' = lens_set (co_comments (w_db w')) (w_db w))
      /\ (cm_TenantID c = t -> actor <> NilID -> cm_AuthorID c <> actor ->
            exists w', DeleteComment t id actor w = (Err (ESentinel ErrForbidden), w') /\ w_db w' = w_db w)
      /\ (cm_TenantID c <> t -> exists w', DeleteComment t id actor w = (Err (ESentinel ErrNotFound), w') /\ w_db w' = w_db w)
  | None => exists w', DeleteComment t id actor w = (Err (ESentinel ErrNotFound), w') /\ w_db w' = w_db w
  end.
Proof.
  intros Hi Hf Ht. destruct (ci_comments _ Hi) as [Hk Hnil].
  unfold DeleteComment, tenant_guard, GetCommentByID, select_from, repo_DeleteComment, guard, query, bind.
  rewrite bool_decide_eq_false_2 by done. cbn [ret]. rewrite Hf. cbn [lens_get Lens_co_comments].
  assert (forall k r, co_comments (w_db w) !! k = Some r -> comment_by_id t id r = true <-> cm_TenantID r = t /\ k = id) as Hb.
  { intros k r Hr. unfold comment_by_id. rewrite andb_true_iff, !sql_eq_true, (Hk k r Hr). split; [naive_solver |].
    intros [-> <-]. split_and!; try done. intros ->. congruence. }
  destruct (co_comments (w_db w) !! id) as [c|] eqn:Ec.
  2: { rewrite (proj2 (select_one_None _ _)); [by eexists |]. intros k r Hr. apply not_true_is_false. intros [_ ->]%(Hb _ _ Hr). congruence. }
  assert (cm_TenantID c = t -> select_one (comment_by_id t id) (co_comments (w_db w)) = Some c) as Hsome.
  { intros Et. apply (select_one_unique _ _ id); [done | by apply (Hb id) |]. intros k r Hr [_ ->]%(Hb _ _ Hr). congruence. }
  split_and!.
  - intros Et Ha. rewrite Hsome by done. cbn [fst].
    assert (bool_decide (actor <> NilID) && bool_decide (cm_AuthorID c <> actor) = false) as -> by (destruct Ha as [->| ->]; repeat case_bool_decide; done).
    cbn [ret]. rewrite Hf. eexists. split; [done |]. cbn [lens_set Lens_co_comments w_db tick co_comments]. split; [| done]. intros k c'. rewrite delete_comments_lookup.
    split; intros [Hc Hn]; (split; [done |]); [apply (Hn id c Ec); by apply (Hb id c Ec) |]. intros root r Hr [_ ->]%(Hb _ _ Hr). done.
  - intros Et Ha Hau. rewrite Hsome by done. cbn [fst]. rewrite !bool_decide_eq_true_2 by done. by eexists.
  - intros Et. rewrite (proj2 (select_one_None _ _)); [by eexists |]. intros k r Hr. apply not_true_is_false. intros [? ->]%(Hb _ _ Hr). congruence.
Qed.


(** whatever calls are made and whatever fails in them, the tables of
    comments stay consistent: every reply has its parent, every comment its
    author, a text and a known type, every notification a recipient, and a
    notification has a time of reading exactly when it is read. *)
Theorem comm_invariant `{Env, Pg, CommServer, UUIDLib, UnicodeTables, GoOrder} (u : comm_usecase) (cs : list CommCall) (w : World CommDB) :
  range_ok -> Forall outside_tx cs -> comm_inv (w_db w) -> comm_inv (w_db (comm_session u cs w)).
Proof. apply comm_session_inv. Qed.

(** *** A run *)

Module CommDemo.
Definition id_text (n : ID) : string := "00000000-0000-0000-0000-" +:+ fmt_0wd 12 (Z.of_N n).
Definition uuids : UUIDLib := {| uuid_Parse s := head (filter (fun n => id_text n = s) [2; 3; 77]%N); uuid_String := id_text |}.
Definition server : CommServer := {| comm_metadata_error _ := false; comment_refused _ := None; notification_refused _ := None;
  comm_outbox_refused _ := None; comm_audit_refused _ := None |}.
Definition order : GoOrder := {| range_ids := elements; sort_Slice A less l := merge_sort (H := fun x y => bool_eq_dec _ _) (fun x y => less y x = false) l |}.
Definition env : Env := calm (mkTime (1750000000 * Second) 0) Second.
#[local] Existing Instances uuids server order env.
#[local] Instance pg : Pg := pgx 0.

Definition all : comm_usecase := mkCommUsecase true true true.
Definition request (t : ID) : Ctx := WithTenantID Background t.
Definition user (n : ID) (name : string) : User := mkUser n (name +:+ "@example.com") "" name "active" (mkTime 0 0) (mkTime 0 0).
Definition empty : World CommDB := mkWorld (mkCommDB ∅ ∅ {[ 2%N := user 2%N "ani"; 3%N := user 3%N "budi" ]} ∅ ∅ (mkFileDB ∅ ∅)) 0%nat.
Definition post (t author : ID) (text : string) (parent : option ID) : CreateCommentCommand :=
  mkCreateComment t "Document" 40%N author "" text [] parent false None.
Definition hello : CreateCommentCommand := post 5%N 2%N (" Please check, @" +:+ id_text 3%N +:+ " (cc @" +:+ id_text 2%N +:+ ") ") None.
Definition calls : list CommCall :=
  [PostComment (request 5%N) hello; PostComment (request 6%N) (post 6%N 3%N "A reply from elsewhere" (Some 1%N));
   ReadAll 5%N 3%N; PostComment (request 5%N) (post 5%N 3%N "Done" None)].
Definition busy : World CommDB := comm_session all calls empty.

Lemma range_order : range_ok.
Proof. by intros s. Qed.

Lemma sort_order : sort_ok.
Proof.
  intros A less l. split; [apply merge_sort_Permutation |]. intros Ht Ha. apply StronglySorted_merge_sort; [done |].
  intros x y. destruct (less y x) eqn:E; [right; by apply Ha | by left].
Qed.

Lemma empty_comm_inv : comm_inv (w_db empty).
Proof.
  split; cbn [empty w_db co_comments co_notifications co_users]; [split; [| done] | ..];
    intros k r; rewrite ?lookup_empty; try done; intros ? X; by rewrite ?lookup_empty in X.
Qed.

Lemma CreateComment_atomic_witness : exists c w', CreateComment all (request 5%N) hello empty = (Ok c, w')
  /\ comment_posted all hello c (w_db empty) (w_db w') /\ cm_Mentions c = [2; 3]%N /\ size (co_notifications (w_db w')) = 1%nat.
Proof.
  pose proof (CreateComment_atomic all (request 5%N) hello empty range_order eq_refl) as T.
  destruct (CreateComment all (request 5%N) hello empty) as [[c|e|e] w'] eqn:E; [| by vm_compute in E..].
  exists c, w'. split; [done |]. split; [exact T |].
  assert (c = match CreateComment all (request 5%N) hello empty with (Ok x, _) => x | _ => c end) as Xc by by rewrite E.
  assert (w' = (CreateComment all (request 5%N) hello empty).2) as Xw by by rewrite E.
  split; [rewrite Xc | rewrite Xw]; by vm_compute.
Defined.

Lemma fresh_empty {R} : fresh_from (R := R) 0 ∅.
Proof. intros m _. eexists. split; [reflexivity |]. split; [done | apply lookup_empty]. Qed.

Lemma empty_undisturbed : undisturbed empty.
Proof.
  split; cbn [empty w_db w_tick co_comments co_notifications co_outbox co_audit]; try apply fresh_empty; try done.
  cbn [env_id env calm]. intros n m id [= E] [= E']. lia.
Qed.

Lemma CreateComment_accepted_witness : command_valid hello /\ refs_exist hello (mentioned hello) (w_db empty)
  /\ ~ refs_exist (post 5%N 2%N ("@" +:+ id_text 77%N) None) (mentioned (post 5%N 2%N ("@" +:+ id_text 77%N) None)) (w_db empty).
Proof.
  pose proof (CreateComment_accepted all (request 5%N) hello empty range_order eq_refl empty_undisturbed) as [T _].
  pose proof (CreateComment_accepted all (request 5%N) (post 5%N 2%N ("@" +:+ id_text 77%N) None) empty range_order eq_refl empty_undisturbed) as [_ T'].
  destruct T as [Hv Hr]. { destruct (CreateComment all (request 5%N) hello empty) as [[c|e|e] w'] eqn:E; [eauto | by vm_compute in E..]. }
  split_and!; [exact Hv | exact Hr |]. intros Hn. destruct T' as (c & w' & E); [| by vm_compute in E].
  split; [| exact Hn]. unfold command_valid. split_and!; vm_compute; try done. left.
Defined.

Lemma DeleteComment_exact_witness : exists w', DeleteComment 5%N 1%N 2%N busy = (Ok tt, w') /\ size (co_comments (w_db busy)) = 3%nat
  /\ size (co_comments (w_db w')) = 1%nat /\ forall k, is_Some (co_comments (w_db w') !! k) -> ~ in_thread (co_comments (w_db busy)) 1%N k.
Proof.
  assert (forall (b : World CommDB) (t i a : ID), comm_inv (w_db b) -> t <> NilID ->
    (exists c, co_comments (w_db b) !! i = Some c /\ cm_TenantID c = t /\ cm_AuthorID c = a) -> exists w', DeleteComment t i a b = (Ok tt, w')
      /\ forall k, is_Some (co_comments (w_db w') !! k) -> ~ in_thread (co_comments (w_db b)) i k) as G.
  { intros b t i a Hi Htn (c & Hc & Ht & Ha). pose proof (DeleteComment_exact t i a b Hi (fun _ => eq_refl) Htn) as T. rewrite Hc in T.
    destruct T as [T _]. destruct T as (w' & Ed & Hk & _); [done | by right |]. exists w'. split; [done |]. intros k [c' Hc']. by apply Hk in Hc' as [_ ?]. }
  destruct (G busy 5%N 1%N 2%N) as (w' & E & Hk); [| done | |].
  - apply comm_session_inv; [apply range_order | by repeat constructor | apply empty_comm_inv].
  - eexists. split; [vm_compute; reflexivity | done].
  - exists w'. assert (w' = (DeleteComment 5%N 1%N 2%N busy).2) as X by by rewrite E.
    split; [exact E |]. split; [by vm_compute |]. split; [rewrite X; by vm_compute | exact Hk].
Defined.

Lemma keyed_check {R} (idf : R -> ID) (t : gmap ID R) : forallb (fun kv => bool_decide (idf kv.2 = kv.1)) (map_to_list t) = true -> keyed idf t.
Proof.
  rewrite forallb_forall. intros Hf k r Hk%elem_of_map_to_list%list_elem_of_In. by apply Hf, bool_decide_eq_true in Hk.
Qed.


Lemma comm_invariant_witness : comm_inv (w_db busy) /\ size (co_notifications (w_db busy)) = 1%nat.
Proof. split; [apply (comm_invariant all calls empty range_order); [by repeat constructor | apply empty_comm_inv] | by vm_compute]. Defined.

(** A full stop after a mention becomes part of it and the mention is lost; an
    unknown identifier refuses the comment; deleting a comment deletes a reply of
    another tenant; and the timeline of an entity type in capitals misses the
    comments that the list of comments shows. *)
Theorem comm_gaps :
  mention_set [] ("Thanks, @" +:+ id_text 3%N +:+ ".") = ∅
  /\ is_Ok (CreateComment all (request 5%N) (post 5%N 2%N ("See @" +:+ id_text 77%N) None) empty).1 = false
  /\ is_Some (co_comments (w_db busy) !! 13%N) /\ co_comments (w_db (DeleteComment 5%N 1%N 2%N busy).2) !! 13%N = None
  /\ (exists l w', GetUnifiedTimeline all 5%N "Document" 40%N busy = (Ok l, w') /\ l = [])
  /\ (exists l w', ListEntityComments 5%N "Document" 40%N busy = (Ok l, w') /\ length l = 2%nat).
Proof.
  split_and!; [by vm_compute | by vm_compute | eexists; by vm_compute | by vm_compute | |];
    do 2 eexists; (split; [vm_compute; reflexivity | reflexivity]).
Qed.
End CommDemo.
