(* ===== verification/ApiBusiness.v ===== *)
(** * Handlers of the business resources

    The functions of [internal/core/delivery/http/v1]: documents, audit log,
    organizations, tenants, units and products, parties, sequences and custom
    fields.  A handler reads the request, calls its use case once and turns the
    result into a reply. *)

From S2P Require Import Prelude GoStrings GoTime GoFloat Sdk Tables Money Workflow Sequence SequenceStore AuditTrail Organization.
From S2P Require Import Documents Units Products RateLimit Middleware Http Tenants FieldValidator CustomFields Parties.
#[local] Open Scope string_scope.
#[local] Open Scope list_scope.
#[local] Open Scope Z_scope.

(** The meta data of a page. *)
Definition page_meta (total page pageSize : Z) : AnyMap :=
  Some {[ "total" := AInt64 total; "page" := AInt32 page; "page_size" := AInt32 pageSize ]}.

Definition message (key text : string) : gmap string string := {[ key := text ]}.

(** ** Documents *)

Record transitionRequest := mkTransitionRequest { tq_TargetStatus : string; tq_Reason : string; tq_ActorID : option ID }.

Section DocumentHandler.
  Context `{UnicodeTables, Env, Pg, Catalog, UUIDLib, GoPlatform} {D : Type} `{Lens D DocDB}.
  Context `{Decoder CreateDocumentCommand, Decoder transitionRequest}.
  Variable u : Documents.usecase.

Definition document_Create : Handler D := fun r h =>
  with_body r h "INVALID_BODY" malformed (fun cmd =>
  respond h (zoom (CreateDocument u (req_ctx r) cmd)) (fun res => RespondJSON h StatusCreated res None)).

Definition document_List : Handler D := fun r h =>
  let page := positive_or 1 (QueryGet r "page") in
  let pageSize := positive_or 20 (QueryGet r "page_size") in
  let orgID := optional_id (QueryGet r "organization_id") in
  let docType := optional (QueryGet r "type") in
  let status := optional (QueryGet r "status") in
  respond h (zoom (ListDocuments (req_ctx r) page pageSize orgID docType status)) (fun res => RespondJSON h StatusOK res None).

Definition document_GetByID : Handler D := fun r h =>
  with_id r h "id" "INVALID_ID" "Invalid UUID format" (fun id =>
  respond h (zoom (GetDocumentByID (req_ctx r) id)) (fun res => RespondJSON h StatusOK res None)).

Definition document_Transition : Handler D := fun r h =>
  with_id r h "id" "INVALID_ID" "Invalid UUID format" (fun id =>
  with_body r h "INVALID_BODY" malformed (fun req =>
  respond h (zoom (TransitionDocument u (req_ctx r) (mkTransitionDocumentCommand id (tq_TargetStatus req) (tq_Reason req) (tq_ActorID req))))
    (fun res => RespondJSON h StatusOK res None))).
End DocumentHandler.

(** ** Audit log *)

Section AuditHandler.
  Context `{Env, Pg, UUIDLib} {D : Type} `{Lens D AuditTable}.

Definition audit_List : Handler D := fun r h =>
  let page := positive_or 1 (QueryGet r "page") in
  let pageSize := positive_or 20 (QueryGet r "page_size") in
  let entityType := optional (QueryGet r "entity_type") in
  let entityID := optional_id (QueryGet r "entity_id") in
  let actorID := optional_id (QueryGet r "actor_id") in
  let action := optional (QueryGet r "action") in
  respond h (zoom (ListAudit (req_ctx r) page pageSize entityType entityID actorID action)) (fun res => RespondJSON h StatusOK res None).
End AuditHandler.

(** ** Organizations *)

Section OrganizationHandler.
  Context `{UnicodeTables, Env, Pg, UUIDLib} {D : Type} `{Lens D OrgTable}.
  Context `{Decoder Organization.CreateCommand, Decoder Organization.UpdateCommand}.
  Variable refused : OrgRow -> option error.

Definition organization_Create : Handler D := fun r h =>
  with_body r h "INVALID_BODY" malformed (fun cmd =>
  respond h (zoom (CreateOrganization refused (req_ctx r) cmd)) (fun res => RespondJSON h StatusCreated res None)).

Definition organization_List : Handler D := fun r h =>
  respond h (zoom (ListOrganizations (req_ctx r))) (fun res => RespondJSON h StatusOK res None).

Definition organization_GetTree : Handler D := fun r h =>
  respond h (zoom (GetTree (req_ctx r))) (fun res => RespondJSON h StatusOK res None).

Definition organization_GetByID : Handler D := fun r h =>
  with_id r h "id" "INVALID_ID" "Invalid UUID format" (fun id =>
  respond h (zoom (GetOrganizationByID (req_ctx r) id)) (fun res => RespondJSON h StatusOK res None)).

Definition organization_Update : Handler D := fun r h =>
  with_id r h "id" "INVALID_ID" "Invalid UUID format" (fun id =>
  with_body r h "INVALID_BODY" malformed (fun cmd =>
  let cmd := Organization.mkUpdateCommand id (Organization.uc_ParentID cmd) (Organization.uc_Name cmd) (Organization.uc_LegalName cmd)
               (Organization.uc_Type cmd) (Organization.uc_Status cmd) (Organization.uc_Settings cmd) in
  respond h (zoom (UpdateOrganization refused (req_ctx r) cmd)) (fun res => RespondJSON h StatusOK res None))).
End OrganizationHandler.

(** ** Tenants *)

Section TenantHandler.
  Context `{UnicodeTables, Env, Pg, TenantServer, UUIDLib} {D : Type} `{Lens D (gmap ID Tenant)}.
  Context `{Decoder CreateTenantCommand, Decoder UpdateTenantCommand}.

Definition tenant_Create : Handler D := fun r h =>
  with_body r h "INVALID_BODY" malformed (fun cmd =>
  respond h (zoom (CreateTenant (D := gmap ID Tenant) cmd)) (fun res => RespondJSON h StatusCreated res None)).

Definition tenant_GetByID : Handler D := fun r h =>
  with_id r h "id" "INVALID_ID" "Invalid UUID format" (fun id =>
  respond h (zoom (GetTenant (D := gmap ID Tenant) id)) (fun res => RespondJSON h StatusOK res None)).

Definition tenant_GetByCode : Handler D := fun r h =>
  respond h (zoom (GetTenantByCode (D := gmap ID Tenant) (URLParam r "code"))) (fun res => RespondJSON h StatusOK res None).

(** Here the value of [Atoi] counts even when there was an error. *)
Definition tenant_List : Handler D := fun r h =>
  let page := (Atoi (QueryGet r "page")).1 in
  let pageSize := (Atoi (QueryGet r "page_size")).1 in
  respond h (zoom (ListTenants (D := gmap ID Tenant) (int32 page) (int32 pageSize)))
    (fun res => RespondJSON h StatusOK (tlr_Items res) (page_meta (tlr_Total res) (tlr_Page res) (tlr_PageSize res))).

Definition tenant_Update : Handler D := fun r h =>
  with_id r h "id" "INVALID_ID" "Invalid UUID format" (fun id =>
  with_body r h "INVALID_BODY" malformed (fun cmd =>
  respond h (zoom (UpdateTenant (D := gmap ID Tenant) (mkUpdateTenantCommand id (ut_Name cmd) (ut_Status cmd) (ut_Settings cmd))))
    (fun res => RespondJSON h StatusOK res None))).
End TenantHandler.

(** ** Units and products *)

Section ProductHandler.
  Context `{UnicodeTables, Env, Pg, ProductServer, UUIDLib} {D : Type} `{Lens D ProductDB}.
  Context `{Decoder CreateUnitCommand, Decoder CreateConversionCommand, Decoder ConvertQuantityCommand, Decoder CreateProductCommand,
            Decoder UpdateProductCommand, Decoder CreateVariantCommand}.

Definition product_CreateUnit : Handler D := fun r h =>
  with_body r h "INVALID_BODY" malformed (fun cmd =>
  respond h (zoom (CreateUnit (req_ctx r) cmd)) (fun res => RespondJSON h StatusCreated res None)).

Definition product_ListUnits : Handler D := fun r h =>
  respond h (zoom (ListUnits (req_ctx r))) (fun res => RespondJSON h StatusOK res None).

Definition product_GetUnitByID : Handler D := fun r h =>
  with_id r h "id" "INVALID_ID" "Invalid UUID format" (fun id =>
  respond h (zoom (GetUnitByID (req_ctx r) id)) (fun res => RespondJSON h StatusOK res None)).

Definition product_CreateConversion : Handler D := fun r h =>
  with_body r h "INVALID_BODY" malformed (fun cmd =>
  respond h (zoom (CreateConversion (req_ctx r) cmd)) (fun res => RespondJSON h StatusCreated res None)).

Definition product_ConvertQuantity : Handler D := fun r h =>
  with_body r h "INVALID_BODY" malformed (fun cmd =>
  respond h (zoom (ConvertQuantity (req_ctx r) cmd)) (fun converted => RespondJSON h StatusOK
    ({[ "amount" := AFloat64 (cq_Amount cmd); "from_unit_id" := AID (cq_FromUnitID cmd); "to_unit_id" := AID (cq_ToUnitID cmd);
        "converted_amount" := AFloat64 converted ]} : gmap string Any) None)).

Definition product_CreateProduct : Handler D := fun r h =>
  with_body r h "INVALID_BODY" malformed (fun cmd =>
  respond h (zoom (CreateProduct (req_ctx r) cmd)) (fun res => RespondJSON h StatusCreated res None)).

Definition product_ListProducts : Handler D := fun r h =>
  let page := positive_or 1 (QueryGet r "page") in
  let pageSize := positive_or 20 (QueryGet r "page_size") in
  respond h (zoom (ListProducts (req_ctx r) page pageSize (optional (QueryGet r "type")) (optional (QueryGet r "status"))))
    (fun res => RespondJSON h StatusOK res None).

Definition product_GetProductByID : Handler D := fun r h =>
  with_id r h "id" "INVALID_ID" "Invalid UUID format" (fun id =>
  respond h (zoom (GetProductByID (req_ctx r) id)) (fun res => RespondJSON h StatusOK res None)).

Definition product_UpdateProduct : Handler D := fun r h =>
  with_id r h "id" "INVALID_ID" "Invalid UUID format" (fun id =>
  with_body r h "INVALID_BODY" malformed (fun cmd =>
  let cmd := mkUpdateProductCommand id (Products.up_Name cmd) (up_Description cmd) (up_Barcode cmd) (Products.up_Status cmd) (Products.up_Metadata cmd) in
  respond h (zoom (UpdateProduct (req_ctx r) cmd)) (fun res => RespondJSON h StatusOK res None))).

Definition product_CreateVariant : Handler D := fun r h =>
  with_id r h "id" "INVALID_ID" "Invalid Product UUID format" (fun productID =>
  with_body r h "INVALID_BODY" malformed (fun cmd =>
  let cmd := mkCreateVariantCommand productID (cv_SKU cmd) (cv_Name cmd) (cv_Attributes cmd) in
  respond h (zoom (CreateVariant (req_ctx r) cmd)) (fun res => RespondJSON h StatusCreated res None))).

Definition product_ListVariants : Handler D := fun r h =>
  with_id r h "id" "INVALID_ID" "Invalid Product UUID format" (fun productID =>
  respond h (zoom (ListVariants (req_ctx r) productID)) (fun res => RespondJSON h StatusOK res None)).

Definition product_DeleteVariant : Handler D := fun r h =>
  with_id r h "variant_id" "INVALID_ID" "Invalid Variant UUID format" (fun variantID =>
  respond h (zoom (DeleteVariant (req_ctx r) variantID)) (fun _ => RespondJSON h StatusOK (message "message" "variant deleted successfully") None)).
End ProductHandler.

(** ** Parties *)

Section PartyHandler.
  Context `{UnicodeTables, Env, Pg, PartyServer, UUIDLib} {D : Type} `{Lens D PartyDB}.
  Context `{Decoder CreatePartyCommand, Decoder UpdatePartyCommand, Decoder AddRoleCommand, Decoder AddAddressCommand, Decoder AddContactCommand}.

Definition party_handler_Create : Handler D := fun r h =>
  with_body r h "INVALID_BODY" malformed (fun cmd =>
  respond h (zoom (CreateParty (req_ctx r) cmd)) (fun res => RespondJSON h StatusCreated res None)).

Definition party_handler_GetByID : Handler D := fun r h =>
  with_id r h "id" "INVALID_ID" "Invalid UUID format" (fun id =>
  respond h (zoom (GetParty (req_ctx r) id)) (fun res => RespondJSON h StatusOK res None)).

Definition party_handler_List : Handler D := fun r h =>
  let page := (Atoi (QueryGet r "page")).1 in
  let pageSize := (Atoi (QueryGet r "page_size")).1 in
  respond h (zoom (ListParties (req_ctx r) (int32 page) (int32 pageSize) (optional (QueryGet r "type")) (optional (QueryGet r "role"))))
    (fun res => RespondJSON h StatusOK (pl_Items res) (page_meta (pl_Total res) (pl_Page res) (pl_PageSize res))).

Definition party_handler_Update : Handler D := fun r h =>
  with_id r h "id" "INVALID_ID" "Invalid UUID format" (fun id =>
  with_body r h "INVALID_BODY" malformed (fun cmd =>
  let cmd := mkUpdateParty id (Parties.up_Name cmd) (up_LegalName cmd) (up_TaxID cmd) (Parties.up_Status cmd) (Parties.up_Metadata cmd) in
  respond h (zoom (UpdateParty (req_ctx r) cmd)) (fun res => RespondJSON h StatusOK res None))).

Definition party_handler_AddRole : Handler D := fun r h =>
  with_id r h "id" "INVALID_ID" "Invalid UUID format" (fun partyID =>
  with_body r h "INVALID_BODY" malformed (fun cmd =>
  respond h (zoom (AddRole (req_ctx r) (mkAddRole partyID (ar_OrganizationID cmd) (ar_RoleType cmd))))
    (fun res => RespondJSON h StatusCreated res None))).

Definition party_handler_RemoveRole : Handler D := fun r h =>
  with_id r h "roleId" "INVALID_ID" "Invalid UUID format" (fun roleID =>
  respond h (zoom (RemoveRole (req_ctx r) roleID)) (fun _ => RespondJSON h StatusOK (message "message" "role removed successfully") None)).

Definition party_handler_AddAddress : Handler D := fun r h =>
  with_id r h "id" "INVALID_ID" "Invalid UUID format" (fun partyID =>
  with_body r h "INVALID_BODY" malformed (fun cmd =>
  respond h (zoom (AddAddress (req_ctx r) partyID cmd)) (fun res => RespondJSON h StatusCreated res None))).

Definition party_handler_AddContact : Handler D := fun r h =>
  with_id r h "id" "INVALID_ID" "Invalid UUID format" (fun partyID =>
  with_body r h "INVALID_BODY" malformed (fun cmd =>
  respond h (zoom (AddContact (req_ctx r) partyID cmd)) (fun res => RespondJSON h StatusCreated res None))).
End PartyHandler.

(** ** Sequences *)

(** The tokens in the order in which the use case iterates over them. *)
Record acquireNextReq := mkAcquireNextReq { aq_EntityType : string; aq_SubType : string; aq_ExtraTokens : list (string * string) }.

Section SequenceHandler.
  Context `{UnicodeTables, Env, Pg, UUIDLib} {D : Type} `{Lens D SeqTable}.
  Context `{Decoder CreateSequenceCommand, Decoder UpdateSequenceCommand, Decoder acquireNextReq}.
  Variable refused : SeqRow -> option error.

Definition sequence_Create : Handler D := fun r h =>
  with_tenant r h (fun tenantID =>
  with_body r h "INVALID_BODY" malformed (fun cmd =>
  let cmd := mkCreateSequenceCommand tenantID (cs_Code cmd) (cs_Name cmd) (cs_EntityType cmd) (cs_SubType cmd) (cs_Prefix cmd) (cs_Suffix cmd)
               (cs_Template cmd) (cs_Padding cmd) (cs_StartValue cmd) (cs_IncrementBy cmd) (cs_ResetPolicy cmd) in
  respond h (zoom (CreateSequence refused cmd)) (fun seq => RespondJSON h StatusCreated seq None))).

Definition sequence_GetByID : Handler D := fun r h =>
  with_tenant r h (fun tenantID =>
  with_id r h "id" "INVALID_ID" "Invalid sequence ID format" (fun id =>
  respond h (zoom (GetSequence tenantID id)) (fun seq => RespondJSON h StatusOK seq None))).

Definition sequence_List : Handler D := fun r h =>
  with_tenant r h (fun tenantID =>
  respond h (zoom (ListSequences tenantID)) (fun seqs => RespondJSON h StatusOK seqs None)).

Definition sequence_Update : Handler D := fun r h =>
  with_tenant r h (fun tenantID =>
  with_id r h "id" "INVALID_ID" "Invalid sequence ID format" (fun id =>
  with_body r h "INVALID_BODY" malformed (fun cmd =>
  let cmd := mkUpdateSequenceCommand tenantID id (us_Name cmd) (us_Prefix cmd) (us_Suffix cmd) (us_Template cmd) (us_Padding cmd)
               (us_ResetPolicy cmd) (us_IsActive cmd) in
  respond h (zoom (UpdateSequence refused cmd)) (fun seq => RespondJSON h StatusOK seq None)))).

Definition sequence_Delete : Handler D := fun r h =>
  with_tenant r h (fun tenantID =>
  with_id r h "id" "INVALID_ID" "Invalid sequence ID format" (fun id =>
  respond h (zoom (DeleteSequence tenantID id)) (fun _ => RespondJSON h StatusOK (message "status" "sequence deleted successfully") None))).

Definition sequence_AcquireNext : Handler D := fun r h =>
  with_tenant r h (fun tenantID =>
  with_body r h "INVALID_BODY" malformed (fun req =>
  respond h (zoom (uc_AcquireNextNumber refused tenantID (aq_EntityType req) (aq_SubType req) (aq_ExtraTokens req)))
    (fun number => RespondJSON h StatusOK (message "number" number) None))).

Definition sequence_Preview : Handler D := fun r h =>
  with_tenant r h (fun tenantID =>
  with_body r h "INVALID_BODY" malformed (fun req =>
  respond h (zoom (PreviewNextNumber tenantID (aq_EntityType req) (aq_SubType req) (aq_ExtraTokens req)))
    (fun preview => RespondJSON h StatusOK (message "preview" preview) None))).
End SequenceHandler.

(** ** Custom fields *)

Record setValuesReq := mkSetValuesReq { sq_Values : AnyMap }.

Section CustomFieldHandler.
  Context `{Env, Pg, FieldServer, TextLib, UnicodeTables, UUIDLib} {D : Type} `{Lens D CfDB}.
  Context `{Decoder CreateDefinitionCommand, Decoder UpdateDefinitionCommand, Decoder setValuesReq}.

Definition field_CreateDefinition : Handler D := fun r h =>
  with_tenant r h (fun tenantID =>
  with_body r h "INVALID_BODY" malformed (fun cmd =>
  let cmd := mkCreateDefinition tenantID (cd_EntityType cmd) (cd_Code cmd) (cd_Name cmd) (cd_Description cmd) (cd_DataType cmd) (cd_Options cmd)
               (cd_IsRequired cmd) (cd_DefaultValue cmd) (cd_ValidationRules cmd) (cd_SortOrder cmd) in
  respond h (zoom (CreateDefinition cmd)) (fun def => RespondJSON h StatusCreated def None))).

Definition field_GetDefinition : Handler D := fun r h =>
  with_tenant r h (fun tenantID =>
  with_id r h "id" "INVALID_ID" "Invalid definition ID format" (fun id =>
  respond h (zoom (GetDefinition tenantID id)) (fun def => RespondJSON h StatusOK def None))).

Definition field_ListDefinitions : Handler D := fun r h =>
  with_tenant r h (fun tenantID =>
  let entityTypeStr := QueryGet r "entity_type" in
  if String.eqb entityTypeStr "" then ret (RespondErr h StatusBadRequest "MISSING_ENTITY_TYPE" "Query parameter 'entity_type' is required")
  else respond h (zoom (ListDefinitions tenantID entityTypeStr)) (fun defs => RespondJSON h StatusOK defs None)).

Definition field_UpdateDefinition : Handler D := fun r h =>
  with_tenant r h (fun tenantID =>
  with_id r h "id" "INVALID_ID" "Invalid definition ID format" (fun id =>
  with_body r h "INVALID_BODY" malformed (fun cmd =>
  let cmd := mkUpdateDefinition tenantID id (ud_Name cmd) (ud_Description cmd) (ud_Options cmd) (ud_IsRequired cmd) (ud_DefaultValue cmd)
               (ud_ValidationRules cmd) (ud_SortOrder cmd) (ud_IsActive cmd) in
  respond h (zoom (UpdateDefinition cmd)) (fun def => RespondJSON h StatusOK def None)))).

Definition field_DeleteDefinition : Handler D := fun r h =>
  with_tenant r h (fun tenantID =>
  with_id r h "id" "INVALID_ID" "Invalid definition ID format" (fun id =>
  respond h (zoom (DeleteDefinition tenantID id)) (fun _ => RespondJSON h StatusOK (message "status" "definition deleted successfully") None))).

Definition field_GetEntityValues : Handler D := fun r h =>
  with_tenant r h (fun tenantID =>
  with_id r h "entityId" "INVALID_ID" "Invalid entity ID format" (fun entityID =>
  respond h (zoom (GetEntityValues tenantID (URLParam r "entityType") entityID)) (fun vals => RespondJSON h StatusOK vals None))).

Definition field_SetEntityValues : Handler D := fun r h =>
  with_tenant r h (fun tenantID =>
  with_id r h "entityId" "INVALID_ID" "Invalid entity ID format" (fun entityID =>
  with_body r h "INVALID_BODY" malformed (fun req =>
  respond h (zoom (SetEntityValues (mkSetEntityValues tenantID (URLParam r "entityType") entityID (sq_Values req))))
    (fun vals => RespondJSON h StatusOK vals None)))).
End CustomFieldHandler.
