(* ===== verification/ApiSecurity.v ===== *)
(** * Handlers of identity, machine access, webhooks and collaboration

    The other handlers of [internal/core/delivery/http/v1]: sessions, members and
    roles, service accounts and their keys, webhooks, comments, notifications and
    the timeline, files and attachments.  Parsing a multipart form and guessing a
    content type are parameters. *)

From S2P Require Import Prelude GoStrings Url GoTime GoFloat Sdk Tables Outbox AuditTrail Storage Attachments Tenants Auth Identity.
From S2P Require Import ServiceAccounts Webhooks Communication RateLimit Middleware Http.
#[local] Open Scope string_scope.
#[local] Open Scope list_scope.
#[local] Open Scope Z_scope.

Definition status_text (text : string) : gmap string string := {[ "status" := text ]}.
Definition message_text (text : string) : gmap string string := {[ "message" := text ]}.

(** ** Sessions *)

Record switchTenantReq := mkSwitchTenantReq { sw_TenantID : ID }.
Record session_data := mkSessionData { sd_profile : UserProfileResult; sd_session : AuthClaims }.

(** [claims, ok := shared.GetAuthClaims(r.Context())] or unauthorized. *)
Definition with_claims {D} (r : Middleware.Request) (h : Headers) (k : AuthClaims -> M D Reply) : M D Reply :=
  match GetAuthClaims (req_ctx r) with
  | (Some claims, true) => k claims
  | _ => ret (RespondErr h StatusUnauthorized "UNAUTHORIZED" "Authentication required")
  end.

Section AuthHandler.
  Context `{UnicodeTables, UUIDLib, Env, Pg, GoPlatform, TenantServer, IamServer, JWTLib, Bcrypt} {D : Type} `{Lens D IamDB}.
  Context `{Decoder RegisterCommand, Decoder LoginCommand, Decoder switchTenantReq}.
  Variable uc : iam_usecase.

Definition auth_Register : Handler D := fun r h =>
  with_body r h "INVALID_BODY" malformed (fun cmd =>
  respond h (zoom (Register uc cmd)) (fun user => RespondJSON h StatusCreated ({[ "user" := user ]} : gmap string User) None)).

Definition auth_Login : Handler D := fun r h =>
  with_body r h "INVALID_BODY" malformed (fun cmd =>
  respond h (zoom (Login uc cmd)) (fun res => RespondJSON h StatusOK res None)).

Definition auth_SwitchTenant : Handler D := fun r h =>
  with_claims r h (fun claims =>
  with_body r h "INVALID_BODY" malformed (fun req =>
  respond h (zoom (SwitchTenant uc (mkSwitchTenantCommand (ac_UserID claims) (sw_TenantID req))))
    (fun res => RespondJSON h StatusOK res None))).

Definition auth_Me : Handler D := fun r h =>
  with_claims r h (fun claims =>
  respond h (zoom (GetProfile (ac_UserID claims))) (fun profile => RespondJSON h StatusOK (mkSessionData profile claims) None)).
End AuthHandler.

(** ** Members and roles *)

Record addMemberReq := mkAddMemberReq { aq_UserID : ID; aq_RoleIDs : list ID }.
Record assignRolesReq := mkAssignRolesReq { ro_RoleIDs : list ID }.
Record createRoleReq := mkCreateRoleReq { rr_Code : string; rr_Name : string; rr_Description : string; rr_PermissionIDs : list ID }.
Record assignPermsReq := mkAssignPermsReq { ap_PermissionIDs : list ID }.

Section IdentityHandler.
  Context `{UnicodeTables, UUIDLib, Env, Pg, GoPlatform, TenantServer, IamServer, JWTLib, Bcrypt} {D : Type} `{Lens D IamDB}.
  Context `{Decoder addMemberReq, Decoder assignRolesReq, Decoder createRoleReq, Decoder assignPermsReq}.

Definition iam_ListMembers : Handler D := fun r h =>
  with_tenant r h (fun tenantID =>
  respond h (zoom (ListMembers tenantID)) (fun members => RespondJSON h StatusOK members None)).

Definition iam_AddMember : Handler D := fun r h =>
  with_tenant r h (fun tenantID =>
  with_body r h "INVALID_BODY" malformed (fun req =>
  respond h (zoom (AddMember (mkAddMemberCommand tenantID (aq_UserID req) (aq_RoleIDs req))))
    (fun member => RespondJSON h StatusCreated member None))).

Definition iam_AssignMemberRoles : Handler D := fun r h =>
  with_tenant r h (fun tenantID =>
  with_id r h "id" "INVALID_ID" "Invalid target user ID" (fun targetUserID =>
  with_body r h "INVALID_BODY" malformed (fun req =>
  respond h (zoom (AssignMemberRoles (mkAssignMemberRolesCommand tenantID targetUserID (ro_RoleIDs req))))
    (fun _ => RespondJSON h StatusOK (status_text "roles assigned successfully") None)))).

Definition iam_RemoveMemberRole : Handler D := fun r h =>
  with_tenant r h (fun tenantID =>
  with_id r h "id" "INVALID_ID" "Invalid target user ID" (fun targetUserID =>
  with_id r h "roleId" "INVALID_ID" "Invalid role ID" (fun roleID =>
  respond h (zoom (RemoveMemberRole tenantID targetUserID roleID))
    (fun _ => RespondJSON h StatusOK (status_text "role removed successfully") None)))).

Definition iam_ListRoles : Handler D := fun r h =>
  with_tenant r h (fun tenantID =>
  respond h (zoom (ListRoles tenantID)) (fun roles => RespondJSON h StatusOK roles None)).

Definition iam_CreateRole : Handler D := fun r h =>
  with_tenant r h (fun tenantID =>
  with_body r h "INVALID_BODY" malformed (fun req =>
  respond h (zoom (CreateRole (mkCreateRoleCommand tenantID (rr_Code req) (rr_Name req) (rr_Description req) (rr_PermissionIDs req))))
    (fun role => RespondJSON h StatusCreated role None))).

Definition iam_GetRole : Handler D := fun r h =>
  with_tenant r h (fun tenantID =>
  with_id r h "id" "INVALID_ID" "Invalid role ID" (fun roleID =>
  respond h (zoom (GetRole tenantID roleID)) (fun role => RespondJSON h StatusOK role None))).

Definition iam_AssignRolePermissions : Handler D := fun r h =>
  with_tenant r h (fun tenantID =>
  with_id r h "id" "INVALID_ID" "Invalid role ID" (fun roleID =>
  with_body r h "INVALID_BODY" malformed (fun req =>
  respond h (zoom (AssignRolePermissions (mkAssignRolePermissionsCommand tenantID roleID (ap_PermissionIDs req))))
    (fun _ => RespondJSON h StatusOK (status_text "permissions assigned successfully") None)))).

Definition iam_ListPermissions : Handler D := fun r h =>
  respond h (zoom ListPermissions) (fun perms => RespondJSON h StatusOK perms None).
End IdentityHandler.

(** ** Service accounts *)

Section ServiceAccountHandler.
  Context `{Env, Pg, MachineServer, Rand, UUIDLib} {D : Type} `{Lens D MachineDB}.
  Context `{Decoder CreateServiceAccountInput, Decoder UpdateServiceAccountInput, Decoder CreateAPIKeyInput}.

Definition unparsed : string := "Failed to parse JSON body".

Definition account_Create : Handler D := fun r h =>
  with_body r h "INVALID_BODY" unparsed (fun input =>
  respond h (zoom (CreateServiceAccount (req_ctx r) input)) (fun sa => RespondJSON h StatusCreated sa None)).

Definition account_Get : Handler D := fun r h =>
  with_id r h "id" "INVALID_ID" "Invalid service account ID format" (fun id =>
  respond h (zoom (GetServiceAccount (req_ctx r) id)) (fun sa => RespondJSON h StatusOK sa None)).

Definition account_List : Handler D := fun r h =>
  respond h (zoom (ListServiceAccounts (req_ctx r))) (fun list => RespondJSON h StatusOK list None).

Definition account_Update : Handler D := fun r h =>
  with_id r h "id" "INVALID_ID" "Invalid service account ID format" (fun id =>
  with_body r h "INVALID_BODY" unparsed (fun input =>
  respond h (zoom (UpdateServiceAccount (req_ctx r) id input)) (fun sa => RespondJSON h StatusOK sa None))).

Definition account_Delete : Handler D := fun r h =>
  with_id r h "id" "INVALID_ID" "Invalid service account ID format" (fun id =>
  respond h (zoom (DeleteServiceAccount (req_ctx r) id))
    (fun _ => RespondJSON h StatusOK (message_text "Service account deleted successfully") None)).

Definition account_CreateAPIKey : Handler D := fun r h =>
  with_id r h "id" "INVALID_ID" "Invalid service account ID format" (fun saID =>
  with_body r h "INVALID_BODY" unparsed (fun input =>
  respond h (zoom (CreateAPIKey (req_ctx r) saID input)) (fun keyWithSecret => RespondJSON h StatusCreated keyWithSecret None))).

Definition account_ListAPIKeys : Handler D := fun r h =>
  with_id r h "id" "INVALID_ID" "Invalid service account ID format" (fun saID =>
  respond h (zoom (ListAPIKeys (req_ctx r) saID)) (fun keys => RespondJSON h StatusOK keys None)).

Definition account_RevokeAPIKey : Handler D := fun r h =>
  with_id r h "id" "INVALID_ID" "Invalid service account ID format" (fun saID =>
  with_id r h "keyId" "INVALID_ID" "Invalid API key ID format" (fun keyID =>
  respond h (zoom (RevokeAPIKey (req_ctx r) saID keyID))
    (fun _ => RespondJSON h StatusOK (message_text "API key revoked successfully") None))).
End ServiceAccountHandler.

(** ** Webhooks *)

Record registerEndpointRequest := mkRegisterEndpointRequest { rg_Name : string; rg_URL : string; rg_Secret : string }.

Section WebhookHandler.
  Context `{Env, Pg, WebhookServer, NetURL, UUIDLib} {D : Type} `{Lens D WebhookDB} `{Decoder registerEndpointRequest}.

(** Here a missing tenant and a failed call have replies of their own. *)
Definition with_webhook_tenant (r : Middleware.Request) (h : Headers) (k : ID -> M D Reply) : M D Reply :=
  match RequireTenantID (req_ctx r) with
  | Ok tenantID => k tenantID
  | Err err => ret (RespondErr h StatusBadRequest "TENANT_REQUIRED" (Error err))
  | Panic e => panic e
  end.

Definition respond_or {A} (call : M D A) (on_err : error -> Reply) (k : A -> Reply) : M D Reply :=
  r <- attempt call ;;
  match r with
  | inl a => ret (k a)
  | inr err => ret (on_err err)
  end.

Definition internal_error (h : Headers) (text : string) : Reply := RespondErr h StatusInternalServerError "INTERNAL_ERROR" text.

Definition not_found_or (h : Headers) (text : string) (err : error) : Reply :=
  if errors_Is err ErrEndpointNotFound then RespondErr h StatusNotFound "NOT_FOUND" "Webhook endpoint not found"
  else internal_error h text.

Definition webhook_RegisterEndpoint : Handler D := fun r h =>
  with_webhook_tenant r h (fun tenantID =>
  with_body r h "INVALID_JSON" "Request body is not valid JSON" (fun req =>
  respond_or (zoom (RegisterEndpoint (mkRegisterEndpointInput tenantID (rg_Name req) (rg_URL req) (rg_Secret req))))
    (fun err =>
       if errors_Is err ErrInvalidURL then RespondErr h StatusBadRequest "INVALID_URL" (Error err)
       else if errors_Is err ErrSecretTooShort then RespondErr h StatusBadRequest "SECRET_TOO_SHORT" (Error err)
       else internal_error h "Failed to register webhook endpoint")
    (fun ep => RespondJSON h StatusCreated ep None))).

Definition webhook_ListEndpoints : Handler D := fun r h =>
  with_webhook_tenant r h (fun tenantID =>
  respond_or (zoom (ListEndpoints tenantID)) (fun _ => internal_error h "Failed to list webhook endpoints")
    (fun eps => RespondJSON h StatusOK eps None)).

Definition webhook_DeleteEndpoint : Handler D := fun r h =>
  with_webhook_tenant r h (fun tenantID =>
  with_id r h "id" "INVALID_ID" "Invalid webhook endpoint ID" (fun id =>
  respond_or (zoom (DeleteEndpoint tenantID id)) (not_found_or h "Failed to delete webhook endpoint")
    (fun _ => RespondJSON h StatusOK (status_text "deleted") None))).

Definition webhook_setActive (active : bool) : Handler D := fun r h =>
  with_webhook_tenant r h (fun tenantID =>
  with_id r h "id" "INVALID_ID" "Invalid webhook endpoint ID" (fun id =>
  respond_or (zoom (if active then EnableEndpoint tenantID id else DisableEndpoint tenantID id))
    (not_found_or h "Failed to update webhook endpoint")
    (fun _ => RespondJSON h StatusOK (status_text (if active then "enabled" else "disabled")) None))).

Definition webhook_EnableEndpoint : Handler D := webhook_setActive true.
Definition webhook_DisableEndpoint : Handler D := webhook_setActive false.

Definition webhook_ListDeliveries : Handler D := fun r h =>
  with_webhook_tenant r h (fun tenantID =>
  with_id r h "id" "INVALID_ID" "Invalid webhook endpoint ID" (fun endpointID =>
  let '(l, ok) := Atoi (QueryGet r "limit") in
  let limit := if ok && (0 <? l) then l else 50 in
  respond_or (zoom (ListDeliveries tenantID endpointID limit)) (fun _ => internal_error h "Failed to list webhook deliveries")
    (fun deliveries => RespondJSON h StatusOK deliveries None))).
End WebhookHandler.

(** ** Comments, notifications and the timeline *)

Record inbox_data := mkInboxData { ib_items : list Notification; ib_unread_count : Z }.

(** The user of the session, or none. *)
Definition session_user (r : Middleware.Request) : ID :=
  match GetAuthClaims (req_ctx r) with (Some claims, true) => ac_UserID claims | _ => NilID end.

(** The user of the session, or the one the query names. *)
Definition session_or_query_user `{UUIDLib} (r : Middleware.Request) : ID :=
  match GetAuthClaims (req_ctx r) with
  | (Some claims, true) => ac_UserID claims
  | _ => default NilID (optional_id (QueryGet r "user_id"))
  end.

Section CommunicationHandler.
  Context `{Env, Pg, CommServer, UUIDLib, UnicodeTables, GoOrder} {D : Type} `{Lens D CommDB} `{Decoder CreateCommentCommand}.
  Variable u : comm_usecase.

Definition comment_Create : Handler D := fun r h =>
  with_tenant r h (fun tenantID =>
  with_body r h "INVALID_BODY" malformed (fun cmd =>
  let authorID := if bool_decide (cc_AuthorID cmd = NilID) then session_user r else cc_AuthorID cmd in
  if bool_decide (authorID = NilID)
  then ret (RespondErr h StatusBadRequest "AUTHOR_REQUIRED" "author_id is required or user must be authenticated")
  else
    let cmd := mkCreateComment tenantID (cc_EntityType cmd) (cc_EntityID cmd) authorID (cc_Type cmd) (cc_Content cmd) (cc_Mentions cmd)
                 (cc_ParentID cmd) (cc_IsPinned cmd) (cc_Metadata cmd) in
    respond h (zoom (CreateComment u (req_ctx r) cmd)) (fun comment => RespondJSON h StatusCreated comment None))).

Definition comment_ListByEntity : Handler D := fun r h =>
  with_tenant r h (fun tenantID =>
  let entityType := TrimSpace (URLParam r "entityType") in
  with_id r h "entityId" "INVALID_ENTITY_ID" "Invalid entity UUID format" (fun entityID =>
  respond h (zoom (ListEntityComments tenantID entityType entityID)) (fun comments => RespondJSON h StatusOK comments None))).

Definition comment_Delete : Handler D := fun r h =>
  with_tenant r h (fun tenantID =>
  with_id r h "id" "INVALID_ID" "Invalid comment ID format" (fun id =>
  respond h (zoom (DeleteComment tenantID id (session_user r)))
    (fun _ => RespondJSON h StatusOK (status_text "comment deleted successfully") None))).

Definition notification_List : Handler D := fun r h =>
  with_tenant r h (fun tenantID =>
  let userID := session_or_query_user r in
  if bool_decide (userID = NilID)
  then ret (RespondErr h StatusBadRequest "USER_REQUIRED" "User ID or authentication context is required")
  else
    let unreadOnly := ParseBool_ignore (QueryGet r "unread_only") in
    let limit := positive_or 20 (QueryGet r "limit") in
    let '(o, ok) := Atoi (QueryGet r "offset") in
    let offset := if ok && (0 <=? o) then int32 o else 0 in
    respond h (zoom (ListNotifications tenantID userID unreadOnly limit offset))
      (fun '(items, unreadCount) => RespondJSON h StatusOK (mkInboxData items unreadCount) None)).

Definition notification_MarkRead : Handler D := fun r h =>
  with_tenant r h (fun tenantID =>
  with_id r h "id" "INVALID_ID" "Invalid notification ID format" (fun id =>
  respond h (zoom (MarkNotificationRead tenantID (session_or_query_user r) id))
    (fun _ => RespondJSON h StatusOK (status_text "notification marked as read") None))).

Definition notification_MarkAllRead : Handler D := fun r h =>
  with_tenant r h (fun tenantID =>
  respond h (zoom (MarkAllNotificationsRead tenantID (session_or_query_user r)))
    (fun _ => RespondJSON h StatusOK (status_text "all notifications marked as read") None)).

Definition activity_Timeline : Handler D := fun r h =>
  with_tenant r h (fun tenantID =>
  let entityType := TrimSpace (URLParam r "entityType") in
  with_id r h "entityId" "INVALID_ENTITY_ID" "Invalid entity UUID format" (fun entityID =>
  respond h (zoom (GetUnifiedTimeline u tenantID entityType entityID)) (fun activities => RespondJSON h StatusOK activities None))).
End CommunicationHandler.

(** ** Files and attachments *)

(** A file part of a form: its name, declared type, size and content. *)
Record FormFile := mkFormFile { ff_Filename : string; ff_ContentType : string; ff_Size : Z; ff_File : Reader }.

(** A parsed form: the part named [file], if it can be opened, and the values. *)
Record Form := mkForm { fm_File : option FormFile; fm_Values : gmap string string }.

Class Multipart := {
  ParseMultipartForm : Middleware.Request -> option Form;
  DetectContentType : string -> string;
}.

(** [r.FormValue]: values of the query come before those of the form. *)
Definition FormValue (r : Middleware.Request) (form : Form) (name : string) : string :=
  match req_Query r !! name with Some v => v | None => default "" (fm_Values form !! name) end.

(** The declared type, or a guess from the first bytes. *)
Definition upload_mime `{Multipart} (file : FormFile) : string :=
  if String.eqb (ff_ContentType file) "" || String.eqb (ff_ContentType file) "application/octet-stream"
  then DetectContentType (take 512 (rd_data (ff_File file)))
  else ff_ContentType file.

Section AttachmentHandler.
  Context `{UnicodeTables, Env, Pg, FileServer, UUIDLib, Multipart} {D : Type} `{Lens D AttachDB} `{Decoder AttachFileCommand}.
  Variables (baseDir : string) (maxFileSize : Z).

Definition file_Upload : Handler D := fun r h =>
  with_tenant r h (fun tenantID =>
  match ParseMultipartForm r with
  | None => ret (RespondErr h StatusBadRequest "INVALID_MULTIPART" "Failed to parse multipart form data")
  | Some form =>
      match fm_File form with
      | None => ret (RespondErr h StatusBadRequest "FILE_REQUIRED" "Form field 'file' is required")
      | Some file =>
          let isPublic := ParseBool_ignore (FormValue r form "is_public") in
          let uploaderID := match GetAuthClaims (req_ctx r) with (Some claims, true) => Some (ac_UserID claims) | _ => None end in
          respond h (zoom (UploadFile baseDir maxFileSize
                      (mkUploadFileCommand tenantID (ff_Filename file) (upload_mime file) (ff_File file) (ff_Size file) uploaderID isPublic None)))
            (fun result => RespondJSON h StatusCreated result None)
      end
  end).

Definition file_GetMetadata : Handler D := fun r h =>
  with_tenant r h (fun tenantID =>
  with_id r h "id" "INVALID_ID" "Invalid file ID format" (fun id =>
  respond h (zoom (GetFileMetadata tenantID id)) (fun file => RespondJSON h StatusOK file None))).

(** The headers of a download; the name is not escaped. *)
Definition download_headers (h : Headers) (disposition : string) (file : File) : Headers :=
  <["Content-Disposition" := disposition +:+ "; filename=" +:+ dquote +:+ f_Filename file +:+ dquote]>
  (<["Content-Length" := Itoa (f_SizeBytes file)]>
  (<["Content-Type" := f_MimeType file]> h)).

Definition file_Download : Handler D := fun r h =>
  with_tenant r h (fun tenantID =>
  with_id r h "id" "INVALID_ID" "Invalid file ID format" (fun id =>
  respond h (zoom (GetFile baseDir tenantID id)) (fun '(file, rc) =>
    let disposition := if String.eqb (QueryGet r "disposition") "attachment" then "attachment" else "inline" in
    mkReply StatusOK (download_headers h disposition file) (RawBody (default "" rc))))).

Definition file_Delete : Handler D := fun r h =>
  with_tenant r h (fun tenantID =>
  with_id r h "id" "INVALID_ID" "Invalid file ID format" (fun id =>
  respond h (zoom (DeleteFile baseDir tenantID id)) (fun _ => RespondJSON h StatusOK (status_text "file deleted successfully") None))).

Definition attachment_Attach : Handler D := fun r h =>
  with_tenant r h (fun tenantID =>
  with_body r h "INVALID_BODY" malformed (fun cmd =>
  let cmd := mkAttachFileCommand tenantID (af_FileID cmd) (af_EntityType cmd) (af_EntityID cmd) (af_Purpose cmd) (af_Title cmd) (af_SortOrder cmd) in
  respond h (zoom (AttachFile cmd)) (fun att => RespondJSON h StatusCreated att None))).

Definition attachment_ListByEntity : Handler D := fun r h =>
  with_tenant r h (fun tenantID =>
  let entityType := TrimSpace (URLParam r "entityType") in
  with_id r h "entityId" "INVALID_ENTITY_ID" "Invalid entity UUID format" (fun entityID =>
  respond h (zoom (ListEntityAttachments tenantID entityType entityID)) (fun attachments => RespondJSON h StatusOK attachments None))).

Definition attachment_Detach : Handler D := fun r h =>
  with_tenant r h (fun tenantID =>
  with_id r h "id" "INVALID_ID" "Invalid attachment ID format" (fun id =>
  respond h (zoom (DetachFile tenantID id)) (fun _ => RespondJSON h StatusOK (status_text "attachment unlinked successfully") None))).
End AttachmentHandler.
