(* ===== verification/App.v ===== *)
(** * The process and its routes

    [AppDB] is the database, the upload directory and the memory of the process as
    [pkg/app/app.go] puts them together; every component sees its part through a
    lens.  The tables of [RegisterRoutes] and [NewRouter]
    ([internal/core/delivery/http]) say which middleware and which handler serve a
    route.  That the router finds the route of a request, and the outermost
    middleware (request identifiers, logging, recovery from panics, compression,
    CORS headers), are those of the chi packages and are left out. *)

From S2P Require Import Prelude GoStrings Url GoTime GoFloat Sdk Tables Outbox AuditTrail Organization Documents SequenceStore.
From S2P Require Import Units Products Storage Attachments Tenants Auth Identity ServiceAccounts Webhooks FieldValidator CustomFields.
From S2P Require Import Parties Communication RateLimit Middleware Http ApiBusiness ApiSecurity.
From S2P Require Registry.
#[local] Open Scope string_scope.
#[local] Open Scope list_scope.
#[local] Open Scope Z_scope.

(** ** State *)

Record AppDB := mkAppDB {
  app_docs : DocDB;                (* documents, outbox, audit log, sequences *)
  app_orgs : OrgTable;
  app_catalogue : ProductDB;
  app_parties : PartyDB;
  app_fields : CfDB;
  app_machines : MachineDB;        (* tenants, users, roles, service accounts, keys *)
  app_comments : gmap ID Comment;
  app_notifications : gmap ID Notification;
  app_attach : AttachDB;           (* files, attachments, upload directory *)
  app_webhooks : WebhookDB;
  app_limiter : inMemoryLimiter;
}.

Ltac solve_lens := by intros; repeat match goal with d : AppDB |- _ => destruct d | d : MachineDB |- _ => destruct d | d : DocDB |- _ => destruct d
  | d : IamDB |- _ => destruct d | d : AttachDB |- _ => destruct d | d : CommDB |- _ => destruct d end.

#[export] Instance Lens_app_docs : Lens AppDB DocDB.
Proof.
  refine {| lens_get := app_docs; lens_set x d := mkAppDB x (app_orgs d) (app_catalogue d) (app_parties d) (app_fields d) (app_machines d)
    (app_comments d) (app_notifications d) (app_attach d) (app_webhooks d) (app_limiter d) |}; solve_lens.
Defined.
#[export] Instance Lens_app_orgs : Lens AppDB OrgTable.
Proof.
  refine {| lens_get := app_orgs; lens_set x d := mkAppDB (app_docs d) x (app_catalogue d) (app_parties d) (app_fields d) (app_machines d)
    (app_comments d) (app_notifications d) (app_attach d) (app_webhooks d) (app_limiter d) |}; solve_lens.
Defined.
#[export] Instance Lens_app_catalogue : Lens AppDB ProductDB.
Proof.
  refine {| lens_get := app_catalogue; lens_set x d := mkAppDB (app_docs d) (app_orgs d) x (app_parties d) (app_fields d) (app_machines d)
    (app_comments d) (app_notifications d) (app_attach d) (app_webhooks d) (app_limiter d) |}; solve_lens.
Defined.
#[export] Instance Lens_app_parties : Lens AppDB PartyDB.
Proof.
  refine {| lens_get := app_parties; lens_set x d := mkAppDB (app_docs d) (app_orgs d) (app_catalogue d) x (app_fields d) (app_machines d)
    (app_comments d) (app_notifications d) (app_attach d) (app_webhooks d) (app_limiter d) |}; solve_lens.
Defined.
#[export] Instance Lens_app_fields : Lens AppDB CfDB.
Proof.
  refine {| lens_get := app_fields; lens_set x d := mkAppDB (app_docs d) (app_orgs d) (app_catalogue d) (app_parties d) x (app_machines d)
    (app_comments d) (app_notifications d) (app_attach d) (app_webhooks d) (app_limiter d) |}; solve_lens.
Defined.
#[export] Instance Lens_app_machines : Lens AppDB MachineDB.
Proof.
  refine {| lens_get := app_machines; lens_set x d := mkAppDB (app_docs d) (app_orgs d) (app_catalogue d) (app_parties d) (app_fields d) x
    (app_comments d) (app_notifications d) (app_attach d) (app_webhooks d) (app_limiter d) |}; solve_lens.
Defined.
#[export] Instance Lens_app_attach : Lens AppDB AttachDB.
Proof.
  refine {| lens_get := app_attach; lens_set x d := mkAppDB (app_docs d) (app_orgs d) (app_catalogue d) (app_parties d) (app_fields d)
    (app_machines d) (app_comments d) (app_notifications d) x (app_webhooks d) (app_limiter d) |}; solve_lens.
Defined.
#[export] Instance Lens_app_webhooks : Lens AppDB WebhookDB.
Proof.
  refine {| lens_get := app_webhooks; lens_set x d := mkAppDB (app_docs d) (app_orgs d) (app_catalogue d) (app_parties d) (app_fields d)
    (app_machines d) (app_comments d) (app_notifications d) (app_attach d) x (app_limiter d) |}; solve_lens.
Defined.
#[export] Instance Lens_app_limiter : Lens AppDB inMemoryLimiter.
Proof.
  refine {| lens_get := app_limiter; lens_set x d := mkAppDB (app_docs d) (app_orgs d) (app_catalogue d) (app_parties d) (app_fields d)
    (app_machines d) (app_comments d) (app_notifications d) (app_attach d) (app_webhooks d) x |}; solve_lens.
Defined.

(** A component of a component. *)
Definition lens_compose {A B C} (l : Lens A B) (k : Lens B C) : Lens A C.
Proof.
  refine {| lens_get a := lens_get (lens_get a : B); lens_set c a := lens_set (lens_set c (lens_get a) : B) a |};
    intros; by rewrite ?lens_get_set, ?lens_set_set, ?lens_set_get.
Defined.

#[export] Instance Lens_m_iam : Lens MachineDB IamDB.
Proof.
  refine {| lens_get := m_iam; lens_set x d := mkMachineDB x (m_accounts d) (m_keys d) (m_spawned d) |}; solve_lens.
Defined.

#[export] Instance Lens_app_audit : Lens AppDB AuditTable := lens_compose Lens_app_docs lens_audit.
#[export] Instance Lens_app_seq : Lens AppDB SeqTable := lens_compose Lens_app_docs lens_seq.
#[export] Instance Lens_app_iam : Lens AppDB IamDB := lens_compose Lens_app_machines Lens_m_iam.
#[export] Instance Lens_app_tenants : Lens AppDB (gmap ID Tenant) := lens_compose Lens_app_iam Lens_iam_tenants.

(** Comments see the users, the outbox, the audit log and the attachments. *)
Definition comm_view (d : AppDB) : CommDB :=
  mkCommDB (app_comments d) (app_notifications d) (iam_users (m_iam (app_machines d))) (db_outbox (app_docs d)) (db_audit (app_docs d))
    (a_db (app_attach d)).

Definition set_comm_view (x : CommDB) (d : AppDB) : AppDB :=
  mkAppDB (mkDocDB (db_doc (app_docs d)) (co_outbox x) (co_audit x) (db_seq (app_docs d))) (app_orgs d) (app_catalogue d) (app_parties d)
    (app_fields d) (lens_set (lens_set (co_users x) (m_iam (app_machines d))) (app_machines d)) (co_comments x) (co_notifications x)
    (mkAttachDB (a_fs (app_attach d)) (co_files x)) (app_webhooks d) (app_limiter d).

#[export] Instance Lens_app_comm : Lens AppDB CommDB.
Proof. refine {| lens_get := comm_view; lens_set := set_comm_view |}; solve_lens. Defined.

(** ** Route tables *)

Inductive Method := GET | POST | PUT | DELETE.

#[global] Instance Method_eq_dec : EqDecision Method.
Proof. solve_decision. Defined.

Record Route := mkRoute { rt_Method : Method; rt_Pattern : string; rt_Gates : list Gate; rt_Handler : Handler AppDB }.

(** [r.Route(prefix, ...)] with the middleware it uses, [r.Group] and [r.With]. *)
Definition under (prefix : string) (uses : list Gate) (rs : list Route) : list Route :=
  map (fun rt => mkRoute (rt_Method rt) (prefix +:+ rt_Pattern rt) (uses ++ rt_Gates rt) (rt_Handler rt)) rs.
Definition group (uses : list Gate) (rs : list Route) : list Route := under "" uses rs.

Definition get_ (pattern : string) (f : Handler AppDB) : Route := mkRoute GET pattern [] f.
Definition post_ (pattern : string) (f : Handler AppDB) : Route := mkRoute POST pattern [] f.
Definition put_ (pattern : string) (f : Handler AppDB) : Route := mkRoute PUT pattern [] f.
Definition delete_ (pattern : string) (f : Handler AppDB) : Route := mkRoute DELETE pattern [] f.

(** What the program takes from its libraries and its environment, the refusals of
    the server, and the decoders of the bodies. *)
Class Platform := {
  pl_UnicodeTables :: UnicodeTables;
  pl_Env :: Env;
  pl_Pg :: Pg;
  pl_UUIDLib :: UUIDLib;
  pl_GoPlatform :: GoPlatform;
  pl_JWTLib :: JWTLib;
  pl_Bcrypt :: Bcrypt;
  pl_Rand :: Rand;
  pl_TextLib :: TextLib;
  pl_GoOrder :: GoOrder;
  pl_NetURL :: NetURL;
  pl_Multipart :: Multipart;
}.
Class Servers := {
  sv_Catalog :: Catalog;
  sv_TenantServer :: TenantServer;
  sv_ProductServer :: ProductServer;
  sv_PartyServer :: PartyServer;
  sv_FieldServer :: FieldServer;
  sv_IamServer :: IamServer;
  sv_MachineServer :: MachineServer;
  sv_WebhookServer :: WebhookServer;
  sv_CommServer :: CommServer;
  sv_FileServer :: FileServer;
}.
Class RequestBodies := {
  rb_CreateDocumentCommand :: Decoder CreateDocumentCommand;
  rb_transitionRequest :: Decoder transitionRequest;
  rb_Organization_CreateCommand :: Decoder Organization.CreateCommand;
  rb_Organization_UpdateCommand :: Decoder Organization.UpdateCommand;
  rb_CreateTenantCommand :: Decoder CreateTenantCommand;
  rb_UpdateTenantCommand :: Decoder UpdateTenantCommand;
  rb_CreateUnitCommand :: Decoder CreateUnitCommand;
  rb_CreateConversionCommand :: Decoder CreateConversionCommand;
  rb_ConvertQuantityCommand :: Decoder ConvertQuantityCommand;
  rb_CreateProductCommand :: Decoder CreateProductCommand;
  rb_UpdateProductCommand :: Decoder UpdateProductCommand;
  rb_CreateVariantCommand :: Decoder CreateVariantCommand;
  rb_CreatePartyCommand :: Decoder CreatePartyCommand;
  rb_UpdatePartyCommand :: Decoder UpdatePartyCommand;
  rb_AddRoleCommand :: Decoder AddRoleCommand;
  rb_AddAddressCommand :: Decoder AddAddressCommand;
  rb_AddContactCommand :: Decoder AddContactCommand;
  rb_CreateSequenceCommand :: Decoder CreateSequenceCommand;
  rb_UpdateSequenceCommand :: Decoder UpdateSequenceCommand;
  rb_acquireNextReq :: Decoder acquireNextReq;
  rb_CreateDefinitionCommand :: Decoder CreateDefinitionCommand;
  rb_UpdateDefinitionCommand :: Decoder UpdateDefinitionCommand;
  rb_setValuesReq :: Decoder setValuesReq;
  rb_RegisterCommand :: Decoder RegisterCommand;
  rb_LoginCommand :: Decoder LoginCommand;
  rb_switchTenantReq :: Decoder switchTenantReq;
  rb_addMemberReq :: Decoder addMemberReq;
  rb_assignRolesReq :: Decoder assignRolesReq;
  rb_createRoleReq :: Decoder createRoleReq;
  rb_assignPermsReq :: Decoder assignPermsReq;
  rb_CreateServiceAccountInput :: Decoder CreateServiceAccountInput;
  rb_UpdateServiceAccountInput :: Decoder UpdateServiceAccountInput;
  rb_CreateAPIKeyInput :: Decoder CreateAPIKeyInput;
  rb_registerEndpointRequest :: Decoder registerEndpointRequest;
  rb_CreateCommentCommand :: Decoder CreateCommentCommand;
  rb_AttachFileCommand :: Decoder AttachFileCommand;
}.

(** What the process is configured with: the keys of tokens and their life, the
    upload directory, whether requests are limited, and the modules in the order of
    the registry, each with the routes it registers. *)
Record Config := mkConfig {
  cfg_tokens : jwtTokenManager;
  cfg_JWTExpiry : Z;
  cfg_StoragePath : string;
  cfg_RateLimitEnabled : bool;
  cfg_Modules : list (Registry.Manifest * list Route);
}.

Definition cfg_ModuleRoutes (cfg : Config) : list Route := concat (cfg_Modules cfg).*2.

Section Router.
  Context `{Platform, Servers, RequestBodies}.
  Variables (org_refused : OrgRow -> option error) (seq_refused : SeqRow -> option error) (cfg : Config).

(** The use cases as [app.New] builds them: with every optional repository. *)
Definition docUsecase : Documents.usecase := Documents.mkUsecase true true true.
Definition commUsecase : comm_usecase := mkCommUsecase true true true.
Definition identityUsecase : iam_usecase := NewUsecase true (cfg_tokens cfg) (cfg_JWTExpiry cfg).

#[local] Instance tokenManager : TokenManager AppDB := jwt_manager (cfg_tokens cfg).

(** The use case of service accounts validates the keys. *)
Definition apiKeyValidator : APIKeyValidator AppDB :=
  mkValidator _ (fun ctx rawKey clientIP => zoom (uc_ValidateAPIKey ctx rawKey clientIP)).

Definition auth_routes : list Route :=
  under "/auth" [] (
    [ post_ "/register" (auth_Register identityUsecase); post_ "/login" (auth_Login identityUsecase) ]
    ++ group [GAuth false] [ get_ "/me" auth_Me; post_ "/switch-tenant" (auth_SwitchTenant identityUsecase) ]).

Definition manage_users : list Gate := [GAnyPermission ["iam:manage"; "user:manage"; "*"]].
Definition manage_roles : list Gate := [GAnyPermission ["iam:manage"; "role:manage"; "*"]].

Definition identity_routes : list Route :=
  under "/iam" [GAuth false] (
    [ get_ "/permissions" iam_ListPermissions ]
    ++ under "/members" [] (
         group manage_users [ get_ "/" iam_ListMembers ]
         ++ group manage_users [ post_ "/" iam_AddMember ]
         ++ group manage_users [ post_ "/{id}/roles" iam_AssignMemberRoles ]
         ++ group manage_users [ delete_ "/{id}/roles/{roleId}" iam_RemoveMemberRole ])
    ++ under "/roles" [] (
         group manage_roles [ get_ "/" iam_ListRoles ]
         ++ group manage_roles [ post_ "/" iam_CreateRole ]
         ++ group manage_roles [ get_ "/{id}" iam_GetRole ]
         ++ group manage_roles [ post_ "/{id}/permissions" iam_AssignRolePermissions ])).

Definition custom_field_routes : list Route :=
  under "/custom-fields" [GTenant; GPermission "custom_field:manage"] (
    under "/definitions" [] [ get_ "/" field_ListDefinitions; get_ "/{id}" field_GetDefinition; post_ "/" field_CreateDefinition;
                              put_ "/{id}" field_UpdateDefinition; delete_ "/{id}" field_DeleteDefinition ]
    ++ under "/values" [] [ get_ "/{entityType}/{entityId}" field_GetEntityValues; put_ "/{entityType}/{entityId}" field_SetEntityValues ]).

Definition sequence_routes : list Route :=
  under "/sequences" [GTenant; GPermission "sequence:manage"]
    [ get_ "/" sequence_List; post_ "/" (sequence_Create seq_refused); get_ "/{id}" sequence_GetByID;
      put_ "/{id}" (sequence_Update seq_refused); delete_ "/{id}" sequence_Delete;
      post_ "/next" (sequence_AcquireNext seq_refused); post_ "/preview" sequence_Preview ].

Definition attachment_routes : list Route :=
  under "/files" [GTenant] (
    group [GPermission "file:upload"] [ post_ "/upload" (file_Upload (cfg_StoragePath cfg) DefaultMaxFileSize) ]
    ++ group [GPermission "file:read"] [ get_ "/{id}" file_GetMetadata; get_ "/{id}/download" (file_Download (cfg_StoragePath cfg)) ]
    ++ group [GPermission "file:delete"] [ delete_ "/{id}" (file_Delete (cfg_StoragePath cfg)) ])
  ++ under "/attachments" [GTenant; GPermission "attachment:manage"]
       [ post_ "/" attachment_Attach; get_ "/{entityType}/{entityId}" attachment_ListByEntity; delete_ "/{id}" attachment_Detach ].

Definition communication_routes : list Route :=
  under "/comments" [GTenant] (
    group [GPermission "comment:read"] [ get_ "/{entityType}/{entityId}" comment_ListByEntity ]
    ++ group [GPermission "comment:create"] [ post_ "/" (comment_Create commUsecase) ]
    ++ group [GPermission "comment:delete"] [ delete_ "/{id}" comment_Delete ])
  ++ under "/notifications" [GTenant; GPermission "notification:read"]
       [ get_ "/" notification_List; post_ "/{id}/read" notification_MarkRead; post_ "/read-all" notification_MarkAllRead ]
  ++ under "/activities" [GTenant; GPermission "comment:read"] [ get_ "/{entityType}/{entityId}" (activity_Timeline commUsecase) ].

Definition service_account_routes : list Route :=
  under "/service-accounts" [GAuth true] (
    [ get_ "/" account_List; post_ "/" account_Create; get_ "/{id}" account_Get; put_ "/{id}" account_Update; delete_ "/{id}" account_Delete ]
    ++ under "/{id}/keys" [] [ get_ "/" account_ListAPIKeys; post_ "/" account_CreateAPIKey; delete_ "/{keyId}" account_RevokeAPIKey ]).

Definition webhook_routes : list Route :=
  under "/webhooks" [GTenant; GAnyPermission ["webhook:manage"; "webhook:view"]] (
    [ get_ "/" webhook_ListEndpoints ]
    ++ group [GPermission "webhook:manage"]
         [ post_ "/" webhook_RegisterEndpoint; delete_ "/{id}" webhook_DeleteEndpoint; post_ "/{id}/enable" webhook_EnableEndpoint;
           post_ "/{id}/disable" webhook_DisableEndpoint ]
    ++ [ get_ "/{id}/deliveries" webhook_ListDeliveries ]).

Definition tenant_routes : list Route :=
  under "/tenants" [] (
    group [GPermission "tenant:manage"] [ post_ "/" tenant_Create; put_ "/{id}" tenant_Update ]
    ++ [ get_ "/" tenant_List; get_ "/{id}" tenant_GetByID; get_ "/code/{code}" tenant_GetByCode ]).

Definition organization_routes : list Route :=
  under "/organizations" [GTenant] (
    group [GPermission "organization:manage"] [ post_ "/" (organization_Create org_refused); put_ "/{id}" (organization_Update org_refused) ]
    ++ group [GPermission "organization:read"] [ get_ "/" organization_List; get_ "/tree" organization_GetTree; get_ "/{id}" organization_GetByID ]).

Definition party_routes : list Route :=
  under "/parties" [GTenant] (
    group [GPermission "party:read"] [ get_ "/" party_handler_List; get_ "/{id}" party_handler_GetByID ]
    ++ group [GPermission "party:create"] [ post_ "/" party_handler_Create; post_ "/{id}/roles" party_handler_AddRole;
                                            post_ "/{id}/addresses" party_handler_AddAddress; post_ "/{id}/contacts" party_handler_AddContact ]
    ++ group [GPermission "party:update"] [ put_ "/{id}" party_handler_Update ]
    ++ group [GPermission "party:delete"] [ delete_ "/{id}/roles/{roleId}" party_handler_RemoveRole ]).

Definition product_routes : list Route :=
  under "/units" [GTenant] (
    group [GPermission "product:read"] [ get_ "/" product_ListUnits; get_ "/{id}" product_GetUnitByID ]
    ++ group [GPermission "product:create"] [ post_ "/" product_CreateUnit; post_ "/conversions" product_CreateConversion;
                                              post_ "/convert" product_ConvertQuantity ])
  ++ under "/products" [GTenant] (
       group [GPermission "product:read"] [ get_ "/" product_ListProducts; get_ "/{id}" product_GetProductByID; get_ "/{id}/variants" product_ListVariants ]
       ++ group [GPermission "product:create"] [ post_ "/" product_CreateProduct; post_ "/{id}/variants" product_CreateVariant ]
       ++ group [GPermission "product:update"] [ put_ "/{id}" product_UpdateProduct ]
       ++ group [GPermission "product:delete"] [ delete_ "/variants/{variant_id}" product_DeleteVariant ]).

Definition document_routes : list Route :=
  under "/documents" [GTenant] (
    group [GPermission "document:read"] [ get_ "/" document_List; get_ "/{id}" document_GetByID ]
    ++ group [GPermission "document:create"] [ post_ "/" (document_Create docUsecase) ]
    ++ group [GPermission "document:transition"] [ post_ "/{id}/transition" (document_Transition docUsecase) ]).

Definition audit_routes : list Route := under "/audit-logs" [GTenant; GPermission "audit:read"] [ get_ "/" audit_List ].

(** ** The router *)

(** The modules: a list of them, and the routes of each below its name. *)
Definition discovery : Handler AppDB := fun _ h => ret (RespondJSON h StatusOK (cfg_Modules cfg).*1 None).
Definition MountRoutes : list Route :=
  under "/modules" []
    (get_ "/" discovery :: concat (map (fun m => under ("/" +:+ Registry.mf_Name m.1) [] m.2) (cfg_Modules cfg))).

Definition healthz : Handler AppDB := fun _ h => ret (RespondJSON h StatusOK (status_text "ok") None).

Definition readyz : Handler AppDB := fun _ h =>
  p <- attempt (query (fun d => Ok (tt, d))) ;;
  match p with
  | inr _ => ret (RespondErr h 503 "DB_UNAVAILABLE" "Database connection ping failed")
  | inl _ => ret (RespondJSON h StatusOK ({[ "status" := "ready"; "database" := "connected" ]} : gmap string string) None)
  end.

Definition protected_routes : list Route :=
  identity_routes ++ custom_field_routes ++ sequence_routes ++ attachment_routes ++ communication_routes ++ service_account_routes
  ++ webhook_routes ++ MountRoutes ++ tenant_routes ++ organization_routes ++ party_routes ++ product_routes
  ++ document_routes ++ audit_routes.

Definition NewRouter : list Route :=
  [ get_ "/healthz" healthz; get_ "/readyz" readyz ]
  ++ under "/api/v1" [] (
       auth_routes ++ group (GAuth true :: if cfg_RateLimitEnabled cfg then [GRate] else []) protected_routes).

(** The middleware of a route, and a request that the router has matched with it. *)
Definition stack (rt : Route) : Handler AppDB -> Handler AppDB := serve (S := inMemoryLimiter) (Some apiKeyValidator) (rt_Gates rt).
Definition handle (rt : Route) : Handler AppDB := stack rt (rt_Handler rt).
End Router.

(** The configured origins without the entry "*". *)
Definition filterWildcardOrigins (origins : list string) : list string :=
  List.filter (fun o => negb (String.eqb (TrimSpace o) "*")) origins.

(** [cors.Options]: what the router hands to the CORS handler, a library. *)
Record CorsOptions := mkCorsOptions {
  co_AllowedOrigins : list string;
  co_AllowedMethods : list string;
  co_AllowedHeaders : list string;
  co_ExposedHeaders : list string;
  co_AllowCredentials : bool;
  co_MaxAge : Z;
}.

Definition cors_methods : list string := ["GET"; "POST"; "PUT"; "DELETE"; "OPTIONS"; "PATCH"].
Definition cors_headers : list string := ["Accept"; "Authorization"; "Content-Type"; "X-CSRF-Token"; "X-API-Key"; HeaderTenantID].

(** With explicit origins, these and credentials; else an empty list without
    credentials. *)
Definition cors_options (origins : list string) : CorsOptions :=
  match filterWildcardOrigins origins with
  | [] => mkCorsOptions [] cors_methods cors_headers [] false 0
  | safeOrigins => mkCorsOptions safeOrigins cors_methods cors_headers ["Link"] true 300
  end.

(** ** A process for the examples *)

Module AppDemo.
(** Identifiers in decimal; three users with a token each. *)
Definition uuids : UUIDLib :=
  {| uuid_Parse s := if String.eqb s "" || negb (all_chars is_digit s) then None else Some (Z.to_N (digits_val 0 s));
     uuid_String n := Itoa (Z.of_N n) |}.
Definition claims_of (token : string) : option TokenClaims :=
  if String.eqb token "clerk" then Some (mkTokenClaims 1%N 7%N "ann@acme.id" "Ann" [] ["document:create"; "document:transition"; "party:create"; "party:update"])
  else if String.eqb token "guest" then Some (mkTokenClaims 2%N 7%N "bob@acme.id" "Bob" [] [])
  else if String.eqb token "rival" then Some (mkTokenClaims 3%N 8%N "eve@evil.id" "Eve" [] ["document:create"; "document:transition"; "party:create"; "party:update"])
  else None.
Definition jwt : JWTLib :=
  {| jwt_SignedString _ _ := Err (ENew "no key");
     jwt_ParseWithClaims token _ _ := match claims_of token with Some c => Ok (mkJWTClaims c "" "" 0 0, true) | None => Err (ENew "unknown") end |}.
Definition multipart : Multipart := {| ParseMultipartForm _ := None; DetectContentType _ := "text/plain" |}.
Definition platform : Platform :=
  {| pl_UnicodeTables := ascii_tables; pl_Env := calm (mkTime (1750000000 * Second) 0) Second; pl_Pg := pgx 0; pl_UUIDLib := uuids;
     pl_GoPlatform := amd64; pl_JWTLib := jwt; pl_Bcrypt := plain_bcrypt; pl_Rand := counting_rand; pl_TextLib := CfDemo.text;
     pl_GoOrder := CommDemo.order; pl_NetURL := Webhooks.Demo.url; pl_Multipart := multipart |}.
Definition servers : Servers :=
  {| sv_Catalog := open_catalog; sv_TenantServer := open_tenant_server; sv_ProductServer := open_product_server;
     sv_PartyServer := PartyDemo.server; sv_FieldServer := CfDemo.server; sv_IamServer := open_iam_server;
     sv_MachineServer := open_machine_server; sv_WebhookServer := Webhooks.Demo.server; sv_CommServer := CommDemo.server;
     sv_FileServer := open_file_server |}.

(** Bodies: one document, one move, one account, one key for everything, one tenant,
    one party and a new name for it. *)
Definition knows {C} (name : string) (c : C) : Decoder C := {| Decode s := if String.eqb s name then Some c else None |}.
Definition refuses {C} : Decoder C := {| Decode _ := None |}.
Definition bodies : RequestBodies.
Proof.
  constructor; first
    [ exact (knows "invoice" sample_create)
    | exact (knows "submit" (mkTransitionRequest Workflow.StatusSubmitted "" None))
    | exact (knows "robot" (mkCreateServiceAccountInput "robot" "" None))
    | exact (knows "all" (mkCreateAPIKeyInput "" ["*"] [] None))
    | exact (knows "tenant" (mkCreateTenantCommand "new" "New" None))
    | exact (knows "party" (mkCreateParty "" "C-1" "Acme" "" "" None []))
    | exact (knows "rename" (mkUpdateParty 0%N "Mine" "" "" "" None))
    | exact refuses ].
Defined.
#[export] Existing Instances platform servers bodies.

Definition config : Config := mkConfig (NewTokenManager "key" "") 0 "/data" true [].
Definition routes : list Route := NewRouter (fun _ => None) (fun _ => None) config.
Definition find_route (m : Method) (pattern : string) : Route :=
  default (get_ "" healthz) (List.find (fun rt => bool_decide (rt_Method rt = m) && String.eqb (rt_Pattern rt) pattern) routes).

Definition bearer (token : string) (params : gmap string string) (body : string) : Middleware.Request :=
  mkRequest {[ "Authorization" := "Bearer " +:+ token ]} "10.0.0.1:9" params ∅ body Background.
Definition start : AppDB :=
  mkAppDB empty_db ∅ (mkProductDB ∅ ∅ ∅ ∅) (mkPartyDB ∅ ∅ ∅ ∅ ∅ ∅) (mkCfDB ∅ ∅) demo_machine ∅ ∅ empty_attach (mkWebhookDB ∅ ∅ [] [])
    (NewInMemory (mkInMemoryConfig 100 (60 * Second))).
Definition world : World AppDB := mkWorld start 0.

Definition call (m : Method) (pattern : string) (r : Middleware.Request) (w : World AppDB) : res Reply * World AppDB :=
  handle config (find_route m pattern) r ∅ w.
Definition status (out : res Reply * World AppDB) : option Z := match out.1 with Ok rep => Some (rp_Status rep) | _ => None end.
End AppDemo.
