(* ===== verification/Access.v ===== *)
(** * Who may do what through the routes

    The permissions that the documents of the repository promise for the routes, the
    routes that ask for something else, and that the router of [App] keeps the rest:
    an endpoint runs only for a credential accepted in the database the request
    finds, with a permission of its row, in the tenant of that credential. *)

From S2P Require Import Prelude GoStrings Url GoTime GoFloat Sdk Tables Outbox AuditTrail Organization Documents SequenceStore.
From S2P Require Import Units Products Storage Attachments Tenants Auth Identity ServiceAccounts Webhooks FieldValidator.
From S2P Require Import CustomFields Parties Communication RateLimit Middleware Http ApiBusiness ApiSecurity App.
#[local] Open Scope string_scope.
#[local] Open Scope list_scope.
#[local] Open Scope Z_scope.

(** ** The documented matrix *)

(** Which routes a row of the matrix is about. *)
Inductive Scope := Below (prefix : string) | Only (pattern : string).

Definition in_scope (sc : Scope) (pattern : string) : bool :=
  match sc with Below p => HasPrefix pattern ("/api/v1" +:+ p) | Only p => String.eqb ("/api/v1" +:+ p) pattern end.

(** A row: the routes, whether they belong to a tenant, and for each method the
    permissions of which one is needed ([None]: any session). *)
Record Rule := mkRule { ru_Scope : Scope; ru_Tenant : bool; ru_Codes : Method -> option (list string) }.

Definition by_method (get post put delete : option (list string)) (m : Method) : option (list string) :=
  match m with GET => get | POST => post | PUT => put | DELETE => delete end.
Definition one (code : string) : option (list string) := Some [code].

(** The route guard matrix of the Master Prompt (section A1), row by row, with the
    permissions of docs/identity-and-access.md for /iam, of docs/webhooks.md for
    /webhooks and of docs/service-accounts-and-api-keys.md for service accounts.  A
    create, update or delete permission goes with POST, PUT and DELETE.  Reading
    tenants is also promised to members of the tenant, which no gate looks at.  The
    first row in whose scope a route lies is its row. *)
Definition access_matrix : list Rule := [
  mkRule (Below "/tenants") false (by_method (one "tenant:manage") (one "tenant:manage") (one "tenant:manage") (Some []));
  mkRule (Below "/organizations") true (by_method (one "organization:read") (one "organization:manage") (one "organization:manage") (one "organization:manage"));
  mkRule (Below "/parties") true (by_method (one "party:read") (one "party:create") (one "party:update") (one "party:delete"));
  mkRule (Below "/units") true (by_method (one "product:read") (one "product:create") (one "product:create") (one "product:create"));
  mkRule (Below "/products") true (by_method (one "product:read") (one "product:create") (one "product:update") (one "product:delete"));
  mkRule (Below "/documents/{id}/transition") true (by_method (one "document:read") (one "document:transition") (Some []) (Some []));
  mkRule (Below "/documents") true (by_method (one "document:read") (one "document:create") (Some []) (Some []));
  mkRule (Below "/audit-logs") true (by_method (one "audit:read") (Some []) (Some []) (Some []));
  mkRule (Below "/custom-fields") true (fun _ => one "custom_field:manage");
  mkRule (Below "/sequences") true (fun _ => one "sequence:manage");
  mkRule (Below "/files") true (by_method (one "file:read") (one "file:upload") (one "file:upload") (one "file:delete"));
  mkRule (Below "/attachments") true (by_method (one "file:read") (one "attachment:manage") (one "attachment:manage") (one "attachment:manage"));
  mkRule (Below "/comments") true (by_method (one "comment:read") (one "comment:create") (one "comment:create") (one "comment:delete"));
  mkRule (Below "/notifications") true (by_method (one "notification:read") (one "comment:create") (one "comment:create") (one "comment:delete"));
  mkRule (Below "/activities") true (by_method (Some ["comment:read"; "notification:read"]) (Some []) (Some []) (Some []));
  mkRule (Below "/iam") false (fun _ => Some ["iam:manage"; "*"]);
  mkRule (Below "/service-accounts/{id}/keys") false (by_method (Some ["api_key:read"; "iam:manage"; "*"])
    (Some ["api_key:create"; "iam:manage"; "*"]) (Some []) (Some ["api_key:revoke"; "iam:manage"; "*"]));
  mkRule (Below "/service-accounts") false (by_method (Some ["service_account:read"; "iam:manage"; "*"]) (Some ["service_account:create"; "iam:manage"; "*"])
    (Some ["service_account:update"; "iam:manage"; "*"]) (Some ["service_account:delete"; "iam:manage"; "*"]));
  mkRule (Only "/modules/") false (by_method (Some ["iam:manage"; "*"]) None None None);
  mkRule (Below "/webhooks") true (by_method (Some ["webhook:manage"; "webhook:view"]) (one "webhook:manage") (one "webhook:manage") (one "webhook:manage"))
].

Definition rule_of (pattern : string) : option Rule := List.find (fun ru => in_scope (ru_Scope ru) pattern) access_matrix.

Definition public_patterns : list string := ["/healthz"; "/readyz"; "/api/v1/auth/register"; "/api/v1/auth/login"].

(** The routes that do not ask for what the matrix says, with what they ask for
    instead ([None]: any session). *)
Definition deviations : list (Method * string * option (list string)) :=
  let session := None in
  let members := Some ["iam:manage"; "user:manage"; "*"] in
  let roles := Some ["iam:manage"; "role:manage"; "*"] in [
  (GET, "/api/v1/tenants/", session); (GET, "/api/v1/tenants/{id}", session); (GET, "/api/v1/tenants/code/{code}", session);
  (GET, "/api/v1/modules/", session); (GET, "/api/v1/iam/permissions", session);
  (GET, "/api/v1/iam/members/", members); (POST, "/api/v1/iam/members/", members);
  (POST, "/api/v1/iam/members/{id}/roles", members); (DELETE, "/api/v1/iam/members/{id}/roles/{roleId}", members);
  (GET, "/api/v1/iam/roles/", roles); (POST, "/api/v1/iam/roles/", roles);
  (GET, "/api/v1/iam/roles/{id}", roles); (POST, "/api/v1/iam/roles/{id}/permissions", roles);
  (GET, "/api/v1/service-accounts/", session); (POST, "/api/v1/service-accounts/", session);
  (GET, "/api/v1/service-accounts/{id}", session); (PUT, "/api/v1/service-accounts/{id}", session);
  (DELETE, "/api/v1/service-accounts/{id}", session);
  (GET, "/api/v1/service-accounts/{id}/keys/", session); (POST, "/api/v1/service-accounts/{id}/keys/", session);
  (DELETE, "/api/v1/service-accounts/{id}/keys/{keyId}", session);
  (GET, "/api/v1/attachments/{entityType}/{entityId}", one "attachment:manage");
  (POST, "/api/v1/notifications/{id}/read", one "notification:read"); (POST, "/api/v1/notifications/read-all", one "notification:read")
].

Definition deviation_of (m : Method) (pattern : string) : option (option (list string)) :=
  snd <$> List.find (fun d => bool_decide (d.1.1 = m) && String.eqb d.1.2 pattern) deviations.

(** What a route asks for: the row of the matrix, unless it deviates. *)
Definition needed (m : Method) (pattern : string) : option (list string) :=
  match deviation_of m pattern with
  | Some codes => codes
  | None => rule_of pattern ≫= fun ru => ru_Codes ru m
  end.

Definition of_tenant (pattern : string) : bool := match rule_of pattern with Some ru => ru_Tenant ru | None => false end.

(** ** What the gates of a route give *)

(** The last authentication of a stack, and the gates behind it. *)
Fixpoint last_auth (gs : list Gate) : option (bool * list Gate) :=
  match gs with
  | [] => None
  | GAuth keys :: t => match last_auth t with Some x => Some x | None => Some (keys, t) end
  | _ :: t => last_auth t
  end.

Definition is_tenant (g : Gate) : bool := match g with GTenant => true | _ => false end.

(** Does the gate let only holders of one of the codes through? *)
Definition within (codes : list string) (g : Gate) : bool :=
  match g with
  | GPermission code => bool_decide (code ∈ codes)
  | GAnyPermission cs => forallb (fun c => bool_decide (c ∈ codes)) cs
  | _ => false
  end.

(** Does the stack behind the last authentication ask for the codes? *)
Definition asks (codes : option (list string)) (gs : list Gate) : bool :=
  match codes with Some codes => existsb (within codes) gs | None => true end.

Definition guarded (rt : Route) : bool :=
  bool_decide (rt_Pattern rt ∈ public_patterns)
  || match last_auth (rt_Gates rt) with
     | Some (_, gs) => (negb (of_tenant (rt_Pattern rt)) || existsb is_tenant gs) && asks (needed (rt_Method rt) (rt_Pattern rt)) gs
     | None => false
     end.

(** Does a route keep its row of the matrix? *)
Definition documented (rt : Route) : bool :=
  match last_auth (rt_Gates rt), rule_of (rt_Pattern rt) with
  | Some (_, gs), Some ru => asks (ru_Codes ru (rt_Method rt)) gs
  | _, _ => true
  end.

Definition holds (c : AuthClaims) (code : string) : Prop := code ∈ ac_Permissions c \/ "*" ∈ ac_Permissions c.

(** The claims are in the context, and their tenant if they have one. *)
Definition session (c : AuthClaims) (ctx : Ctx) : Prop :=
  ctx_claims ctx = Some (Some c) /\ (ac_TenantID c <> NilID -> ctx_tenant ctx = Some (ac_TenantID c)).

Lemma session_holds c ctx code : session c ctx -> HasPermission ctx code = true -> holds c code.
Proof.
  intros [Hc _]. unfold HasPermission, GetAuthClaims. rewrite Hc. intros (p & Hp & E)%existsb_exists.
  apply list_elem_of_In in Hp. apply orb_true_iff in E as [->%String.eqb_eq| ->%String.eqb_eq]; [by left | by right].
Qed.

Lemma session_inject ctx c : session c (inject ctx c).
Proof. destruct (inject_tenant ctx c) as [Et Ec]. split; [done |]. intros Hn. rewrite Et. by rewrite decide_False. Qed.

Section Gates.
  Context {D S : Type} `{UUIDLib, Env, GoPlatform, TokenManager D, Limiter S, Lens D S}.
  Variable kv : option (APIKeyValidator D).

(** The credential in the headers of [r] is accepted in the world [w], with the claims [c]. *)
Definition credential_of (keys : bool) (r : Request) (w : World D) (c : AuthClaims) : Prop := exists w1,
  authenticated (if keys then kv else None) (req_ctx r) (req_RemoteAddr r) (Get r "Authorization") (Get r "X-Api-Key") w c w1.

(** The claims [c] are those that the last authentication of the stack accepts, in
    the world in which the gates before it let the request through. *)
Definition accepted (gs : list Gate) (r : Request) (w : World D) (c : AuthClaims) : Prop := exists pre keys post r1 w1,
  gs = pre ++ GAuth keys :: post /\ last_auth post = None /\ admitted (S := S) kv pre r w r1 w1 /\ credential_of keys r1 w1 c.

Lemma admitted_split gs1 gs2 r w r' w' :
  admitted (S := S) kv (gs1 ++ gs2) r w r' w' -> exists r1 w1, admitted (S := S) kv gs1 r w r1 w1 /\ admitted (S := S) kv gs2 r1 w1 r' w'.
Proof.
  revert r w. induction gs1 as [|g gs IH]; intros r w; cbn [app]; [intros; exists r, w; split; [constructor | done] |].
  inversion 1; subst; edestruct IH as (r1 & w2 & Ha & Hb); try eassumption; exists r1, w2; split; try done; by econstructor.
Qed.

Lemma last_auth_split gs keys post :
  last_auth gs = Some (keys, post) -> last_auth post = None /\ exists pre, gs = pre ++ GAuth keys :: post.
Proof.
  induction gs as [|g gs IH]; [done |]. destruct g; cbn [last_auth]; try (intros [? (pre & ->)]%IH; split; [done | by eexists (_ :: pre)]).
  destruct (last_auth gs) as [[k p]|] eqn:E.
  - intros [= -> ->]. destruct IH as [? (pre & ->)]; [done |]. split; [done | by eexists (_ :: pre)].
  - intros [= -> ->]. split; [done | by exists []].
Qed.

(** A gate passes the request on as it came, but for its context. *)
Lemma admitted_request gs r w r' w' :
  admitted (S := S) kv gs r w r' w' -> exists ctx, r' = WithContext r ctx.
Proof.
  induction 1; try (destruct IHadmitted as (ctx & ->); by exists ctx). exists (req_ctx r). by destruct r.
Qed.

(** Behind the last authentication the session stays and every gate has its say. *)
Lemma admitted_session gs r w r' w' c :
  admitted (S := S) kv gs r w r' w' -> last_auth gs = None -> session c (req_ctx r) ->
  session c (req_ctx r')
  /\ (forall codes, existsb (within codes) gs = true -> exists code, code ∈ codes /\ holds c code)
  /\ (forall t, t <> NilID -> ctx_tenant (req_ctx r) = Some t -> ctx_tenant (req_ctx r') = Some t)
  /\ (existsb is_tenant gs = true -> exists tn, tn <> NilID /\ ctx_tenant (req_ctx r') = Some tn).
Proof.
  induction 1 as [r w|keys gs r w c0 w1 r' w' _ _ _|gs r w s n r' w' _ IH|gs r w tn r' w' Hn Ht _ _ IH
                 |code gs r w r' w' Hp _ IH|codes' gs r w r' w' code Hc Hp _ IH]; cbn [last_auth]; intros Hl Hs.
  - by split_and!.
  - by destruct (last_auth gs).
  - by apply IH.
  - destruct IH as (I1 & I2 & I3 & I4); [done | | split; [done | split; [done | split]]].
    { split; [apply Hs |]. intros Hne. cbn. f_equal. symmetry. apply (Ht (ac_TenantID c)); [by apply Hs | done]. }
    + intros t Hne Et. apply I3; [done |]. cbn. f_equal. symmetry. by apply (Ht t).
    + intros _. exists tn. split; [done |]. by apply I3.
  - destruct (IH Hl Hs) as (I1 & I2 & I3 & I4). split_and!; auto. intros codes [Hw|Hw]%orb_true_iff; [| by apply I2].
    apply bool_decide_eq_true in Hw. exists code. split; [done |]. by apply (session_holds c (req_ctx r)).
  - destruct (IH Hl Hs) as (I1 & I2 & I3 & I4). split_and!; auto. intros codes [Hw|Hw]%orb_true_iff; [| by apply I2].
    exists code. split; [| by apply (session_holds c (req_ctx r))]. cbn [within] in Hw. rewrite forallb_forall in Hw.
    apply list_elem_of_In, Hw in Hc. by apply bool_decide_eq_true in Hc.
Qed.

(** What the endpoint of a guarded route can rely on. *)
Record entitled (r : Request) (w : World D) (c : AuthClaims) (rt : Route) (r' : Request) : Prop := {
  en_credential : accepted (rt_Gates rt) r w c;
  en_session : session c (req_ctx r');
  en_permission : forall codes, needed (rt_Method rt) (rt_Pattern rt) = Some codes -> exists code, code ∈ codes /\ holds c code;
  en_tenant : of_tenant (rt_Pattern rt) = true -> exists tn, tn <> NilID /\ ctx_tenant (req_ctx r') = Some tn;
}.

Lemma guarded_entitled rt r w r' w' :
  guarded rt = true -> rt_Pattern rt ∉ public_patterns -> admitted (S := S) kv (rt_Gates rt) r w r' w' -> exists c, entitled r w c rt r'.
Proof.
  unfold guarded. intros Hg Hp Ha. rewrite bool_decide_eq_false_2 in Hg by done. cbn [orb] in Hg.
  destruct (last_auth (rt_Gates rt)) as [[keys post]|] eqn:El; [| done]. apply last_auth_split in El as [Hl (pre & Eg)].
  rewrite Eg in Ha. apply admitted_split in Ha as (r1 & w1 & Ha1 & Ha2).
  inversion Ha2 as [|? ? ? ? c w2 ? ? Hauth Ha3| | | |]; subst. exists c.
  eapply (admitted_session _ _ _ _ _ c) in Ha3 as (S1 & S2 & _ & S4); [| done | apply session_inject].
  apply andb_true_iff in Hg as [Ht Hg]. split; [| done | |].
  - exists pre, keys, post, r1, w1. split_and!; [done | done | done |]. by exists w2.
  - intros codes En. apply S2. by rewrite En in Hg.
  - intros Et. apply S4. by rewrite Et in Ht.
Qed.
End Gates.

Section Origin.
  Context {D S : Type} `{UUIDLib, Env, GoPlatform, TokenManager D, Limiter S, Lens D S}.
  Variable kv : option (APIKeyValidator D).

Lemma admitted_tx gs r w r' w' : admitted (S := S) kv gs r w r' w' -> ctx_tx (req_ctx r') = ctx_tx (req_ctx r).
Proof. induction 1; try done. rewrite IHadmitted. cbn. unfold inject. by case_decide. Qed.

(** Behind the authentication, a tenant comes from the session or the header. *)
Lemma admitted_origin gs r w r' w' tn :
  admitted (S := S) kv gs r w r' w' -> last_auth gs = None -> tn <> NilID -> ctx_tenant (req_ctx r') = Some tn ->
  ctx_tenant (req_ctx r) = Some tn \/ ParseID (Get r HeaderTenantID) = Ok tn.
Proof.
  induction 1 as [r w|keys gs r w c0 w1 r' w' _ _ _|gs r w s n r' w' _ IH|gs r w t r' w' Hn Ht Hh _ IH
                 |code gs r w r' w' Hp _ IH|codes' gs r w r' w' code Hc Hp _ IH]; cbn [last_auth]; intros Hl Hne Et; auto.
  - by destruct (last_auth gs).
  - destruct (IH Hl Hne Et) as [[= ->]|Hp]; [| by right].
    destruct (ctx_tenant (req_ctx r)) as [t|]; [| right; by apply Hh]. destruct (decide (t = NilID)) as [->|Hz].
    + right. apply Hh. by intros ? [= <-].
    + left. f_equal. by apply Ht.
Qed.

(** One authentication, then gates: whose request it is, and for which tenant. *)
Lemma single_auth_admitted keys post r w r' w' :
  admitted (S := S) kv (GAuth keys :: post) r w r' w' -> last_auth post = None -> ctx_tenant (req_ctx r) = None ->
  exists c, credential_of kv keys r w c
    /\ (forall codes, existsb (within codes) post = true -> exists code, code ∈ codes /\ holds c code)
    /\ (forall tn, tn <> NilID -> ctx_tenant (req_ctx r') = Some tn ->
          tn = ac_TenantID c \/ ac_TenantID c = NilID /\ ParseID (Get r HeaderTenantID) = Ok tn).
Proof.
  intros Ha Hl Hctx. inversion Ha as [|? ? ? ? c w2 ? ? Hauth Hp| | | |]; subst. exists c. split_and!.
  - by exists w2.
  - by eapply (admitted_session kv) in Hp as (_ & Hc & _); [| done | apply session_inject].
  - intros tn Hne Et. assert (session c (req_ctx r')) as [_ Hs] by (eapply (admitted_session kv); [done | done | apply session_inject]).
    destruct (decide (ac_TenantID c = NilID)) as [Hz|Hz]; [| left; specialize (Hs Hz); congruence].
    right. split; [done |]. eapply admitted_origin in Hp as [E|E]; [| exact E | done | done | done].
    cbn in E. destruct (inject_tenant (req_ctx r) c) as [Ei _]. rewrite decide_True in Ei by done. congruence.
Qed.
End Origin.

(** ** The router keeps the matrix *)

Section Matrix.
  Context `{Platform, Servers, RequestBodies}.
  Variables (org_refused : OrgRow -> option error) (seq_refused : SeqRow -> option error) (cfg : Config).
  #[local] Hint Extern 0 (TokenManager AppDB) => exact (tokenManager cfg) : typeclass_instances.

Definition router : list Route := NewRouter org_refused seq_refused cfg.

Lemma last_auth_app pre keys post : exists k gs, last_auth (pre ++ GAuth keys :: post) = Some (k, gs).
Proof.
  induction pre as [|g pre (k & gs & E)]; cbn [app last_auth].
  - destruct (last_auth post) as [[k gs]|]; eauto.
  - rewrite E. destruct g; eauto.
Qed.

(** A module is behind the authentication; the matrix asks for no more. *)
Lemma guarded_module rt (uses : list Gate) :
  guarded (mkRoute (rt_Method rt) ("/api/v1/modules" +:+ rt_Pattern rt) (GAuth true :: uses) (rt_Handler rt)) = true.
Proof.
  unfold guarded. apply orb_true_iff. right. cbn [rt_Gates rt_Pattern rt_Method].
  destruct (last_auth_app [] true uses) as (k & gs & E). cbn [app] in E. rewrite E.
  set (pattern := "/api/v1/modules" +:+ rt_Pattern rt). destruct (String.eqb "/api/v1/modules/" pattern) eqn:Ep.
  - apply String.eqb_eq in Ep. rewrite <- Ep. by destruct (rt_Method rt).
  - assert (rule_of pattern = None) as Hr by (unfold rule_of, pattern in *; cbn in *; by rewrite Ep).
    assert (deviation_of (rt_Method rt) pattern = None) as Hd by (unfold deviation_of, pattern in *; destruct (rt_Method rt); cbn in *; by rewrite ?Ep).
    unfold needed, of_tenant. by rewrite Hr, Hd.
Qed.

Lemma router_guarded : Forall (fun rt => guarded rt = true) router.
Proof.
  unfold router, NewRouter, protected_routes, group, MountRoutes. unfold under at 1. unfold under. rewrite !map_app, !Forall_app.
  destruct (cfg_RateLimitEnabled cfg); split_and!; try (repeat (apply Forall_cons; split; [vm_compute; reflexivity |]); apply Forall_nil; done).
  all: rewrite !Forall_map; apply Forall_true; intros rt; apply (guarded_module rt).
Qed.


(** The deviations are exactly the routes of the router that break their row. *)
Lemma deviations_exact :
  cfg_Modules cfg = [] ->
  Forall (fun rt => documented rt = false <-> is_Some (deviation_of (rt_Method rt) (rt_Pattern rt))) router.
Proof.
  intros Hm. unfold router, NewRouter, protected_routes, group, MountRoutes. rewrite Hm. unfold under at 1. unfold under. rewrite !map_app, !Forall_app.
  destruct (cfg_RateLimitEnabled cfg); split_and!.
  all: repeat (apply Forall_cons; split; [vm_compute; split; [intros E | intros [x E]]; first [discriminate E | by eexists | done] |]); apply Forall_nil; done.
Qed.

(** ** Properties *)

(** C5: The router keeps the documented access matrix but for the listed deviations.
    A route that is not public runs its endpoint only for the claims that its last
    authentication accepts in the database as the request finds it; these are in the
    context, with their tenant if they have one, and hold a permission of the row of
    the matrix for the route and the method (or "*"), for the 24 routes of
    [deviations] what is listed there instead; where the row is about tenants, the
    context has a tenant.  Otherwise the middleware answers by itself with an error of
    status 400, 401, 403 or 429, the same whatever the endpoint is.
    [deviations_exact] shows that without modules these 24 are exactly the routes that
    break the matrix. *)
Theorem api_access (rt : Route) r h w :
  rt ∈ router ->
  rt_Pattern rt ∈ public_patterns
  \/ blocks (stack cfg rt) gate_statuses r h w
  \/ exists c r' h' w', entitled (S := inMemoryLimiter) (Some apiKeyValidator) r w c rt r' /\ forall endpoint, stack cfg rt endpoint r h w = endpoint r' h' w'.
Proof.
  intros Hrt. pose proof router_guarded as Hg. rewrite Forall_forall in Hg. specialize (Hg rt Hrt).
  destruct (decide (rt_Pattern rt ∈ public_patterns)) as [Hp|Hp]; [by left | right].
  destruct (serve_cases (S := inMemoryLimiter) (Some apiKeyValidator) (rt_Gates rt) r h w) as [Hb|(r' & h' & w' & Ha & E)]; [by left | right].
  apply guarded_entitled in Ha as (c & Hc); [| done | done]. by exists c, r', h', w'.
Qed.
End Matrix.

Import AppDemo.

Lemma find_route_in m pattern : String.eqb (rt_Pattern (find_route m pattern)) "" = false -> find_route m pattern ∈ routes.
Proof.
  unfold find_route. destruct (List.find _ routes) as [rt|] eqn:E; [| done]. intros _. apply find_some in E as [E _]. by apply list_elem_of_In.
Qed.

(** The guest may not create documents: the gates refuse with 403. *)
Lemma api_access_witness :
  let rt := find_route POST "/api/v1/documents/" in
  rt ∈ routes /\ blocks (stack config rt) gate_statuses (bearer "guest" ∅ "invoice") ∅ world.
Proof.
  intros rt. assert (rt ∈ routes) as Hin by (apply find_route_in; vm_compute; reflexivity). split; [done |].
  destruct (api_access (fun _ => None) (fun _ => None) config rt (bearer "guest" ∅ "invoice") ∅ world Hin) as [Hp|[Hb|(c & r' & h' & w' & _ & E)]].
  - exfalso. assert (bool_decide (rt_Pattern rt ∈ public_patterns) = false) as Hf by by vm_compute. by apply bool_decide_eq_false in Hf.
  - exact Hb.
  - exfalso. specialize (E (fun _ _ => fail (ENew "reached"))). apply (f_equal (fun out => is_Ok out.1)) in E. by vm_compute in E.
Defined.
