(* ===== verification/Isolation.v ===== *)
(** * Rows of other tenants

    The tables of organizations, custom fields, sequences, webhooks and files: a call
    made for one tenant leaves the rows of every other tenant exactly as they were.
    ([Parties], [Products] and [Documents] state the same of their own tables.) *)

From S2P Require Import Prelude GoStrings GoTime GoFloat Sdk Tables FieldValidator CustomFields.
From S2P Require Url Organization Sequence SequenceStore Webhooks Storage Attachments.
#[local] Open Scope string_scope.
#[local] Open Scope list_scope.
#[local] Open Scope Z_scope.

(** From triples over the tables to the tables after a call. *)
Lemma triple_rows {D A X} (rows : D -> X) (inv : D -> Prop) (m : M D A) w :
  (forall F, triple (fun d => rows d = F) (fun d => inv d /\ rows d = F) m (fun _ d => rows d = F)) -> inv (w_db w) ->
  rows (w_db (m w).2) = rows (w_db w).
Proof. intros Hm Hi. specialize (Hm (rows (w_db w)) w (conj Hi eq_refl)). by destruct (m w) as [[a|e|e] w']. Qed.

Lemma preserves_rows {D A X} (rows : D -> X) (m : M D A) w : (forall F, preserves (fun d => rows d = F) m) -> rows (w_db (m w).2) = rows (w_db w).
Proof. intros Hm. by apply Hm. Qed.

(** ** Custom fields *)

Section Fields.
  Context `{Env, Pg, FieldServer, TextLib, UnicodeTables}.
  Variable t : ID.

Definition field_rows (d : CfDB) := (rows_in fd_TenantID t (cf_definitions d), rows_in ef_TenantID t (cf_values d)).

#[local] Hint Resolve reads_GetDefinitionByID reads_GetDefinitionByCode reads_ListActiveDefinitions : go_frame.

Lemma repo_CreateDefinition_rows F def : fd_TenantID def <> t -> preserves (fun d => field_rows d = F) (repo_CreateDefinition def).
Proof.
  intros Ht. unfold repo_CreateDefinition. apply preserves_writes_last; [frame |]. intros w r w' Hi E. step_inv.
  match goal with X : insert_into _ _ _ _ _ _ = _ |- _ => apply insert_into_Ok in X as (-> & -> & Hn & _) end.
  unfold field_rows in *. cbn in *. by rewrite rows_in_fresh.
Qed.

Lemma repo_DeleteDefinition_rows F tn id : tn <> t -> preserves (fun d => field_rows d = F) (repo_DeleteDefinition tn id).
Proof.
  intros Ht. unfold repo_DeleteDefinition. apply preserves_writes_last; [frame |]. intros w r w' Hi E. step_inv.
  match goal with X : delete_from _ _ = _ |- _ => apply delete_from_Ok in X as [_ ->] end. unfold field_rows in *. cbn in *.
  rewrite (rows_in_filter _ _ _ (field_by_id tn id)); [done |]. intros x [[_ Hx]%sql_eq_true _]%andb_true_iff. by rewrite Hx.
Qed.

Lemma repo_UpdateDefinition_rows F def : fd_TenantID def <> t ->
  triple (fun d => field_rows d = F) (fun d => cf_inv d /\ field_rows d = F) (repo_UpdateDefinition def) (fun _ d => field_rows d = F).
Proof.
  intros Ht. unfold repo_UpdateDefinition. apply triple_writes_last; [frame | by intros d [] |]. intros w r w' [Hi Hk] E. step_inv.
  match goal with X : update_one _ _ _ _ _ _ = _ |- _ => apply update_one_Ok in X as (k & old & Hold & Hp & -> & -> & _) end.
  unfold field_by_id in Hp. rewrite andb_true_iff, !sql_eq_true in Hp. destruct Hp as [[_ Ho] _]. unfold field_rows in *. cbn in *.
  rewrite rows_in_insert; [done | cbn; congruence |]. intros x Hx. rewrite (ci_keyed _ Hi _ _ Hold), Hold in Hx. congruence.
Qed.

Lemma UpsertEntityValues_rows F vals : ef_TenantID vals <> t ->
  triple (fun d => field_rows d = F) (fun d => cf_inv d /\ field_rows d = F) (UpsertEntityValues vals) (fun _ d => field_rows d = F).
Proof.
  intros Ht. apply triple_writes_last; [unfold UpsertEntityValues; frame; by destruct (json_values_error _); auto with go_frame | by intros d [] |].
  intros w r w' [Hi Hk] E. apply UpsertEntityValues_Ok in E as (row & -> & Eu & _); [| apply Hi].
  apply upsert_Ok in Eu as (_ & (Hs & _)%same_entity_true & _ & _ & Hc); [| apply Hi]. cbn in Hs.
  unfold field_rows in *. cbn. rewrite rows_in_insert; [done | congruence |]. intros old Ho.
  destruct Hc as [(x & Hx & Ex & _ & (Hx' & _)%same_entity_true)|[Hn _]]; [| congruence]. rewrite Ex, Hx in Ho. cbn in Hx'. congruence.
Qed.
#[local] Hint Resolve repo_CreateDefinition_rows repo_DeleteDefinition_rows : table_inv.

(** Guards and reads before the write. *)
Ltac skip_reads := repeat match goal with |- triple _ _ (bind _ _) _ =>
  eapply triple_bind; [apply triple_reads; [solve [auto with go_frame] | by intros d []] | intros ?; cbv beta zeta] end.

Definition field_tenant (c : FieldCall) : ID :=
  match c with
  | FieldCreate cmd => cd_TenantID cmd
  | FieldUpdate cmd => ud_TenantID cmd
  | FieldDelete tn _ | FieldGet tn _ _ => tn
  | FieldSet cmd => sv_TenantID cmd
  end.

Lemma field_call_rows c w : cf_inv (w_db w) -> field_tenant c <> t -> field_rows (w_db (field_call c w)) = field_rows (w_db w).
Proof.
  intros Hi Ht. destruct c; cbn [field_call field_tenant] in *.
  - apply (preserves_rows field_rows). intros F. unfold CreateDefinition. keep.
  - apply (triple_rows field_rows cf_inv); [| done]. intros F. unfold UpdateDefinition.
    eapply triple_bind; [apply triple_reads; [auto with go_frame | by intros d []] |]. intros u. cbv beta.
    apply triple_read_fact with (X := fun def => fd_TenantID def = ud_TenantID cmd); [auto with go_frame | by intros d [] | |].
    { intros w1 def w2 E. apply select_from_Ok in E as (_ & Hp & _). unfold field_by_id in Hp. by apply andb_true_iff in Hp as [[_ Hp]%sql_eq_true _]. }
    intros def Hd. skip_reads. apply repo_UpdateDefinition_rows. cbn. congruence.
  - apply (preserves_rows field_rows). intros F. unfold DeleteDefinition. keep.
  - apply (triple_rows field_rows cf_inv); [| done]. intros F. unfold SetEntityValues. skip_reads. by apply UpsertEntityValues_rows.
  - apply (preserves_rows field_rows). intros F. unfold GetEntityValues, repo_GetEntityValues. keep.
Qed.
End Fields.

(** ** Sequences *)

Module Sequences.
Import Sequence SequenceStore.

Section Sequences.
  Context `{UnicodeTables, Env, Pg}.
  Variable refused : SeqRow -> option error.

Lemma keys_ok_insert tbl row : keys_ok tbl -> tbl !! sr_id row = None -> (forall k r, tbl !! k = Some r -> keys_clash row r = false) ->
  keys_ok (<[sr_id row := row]> tbl).
Proof.
  intros Hk Hn Hc k x. rewrite lookup_insert_Some. intros [[<- <-]|[Hne Hx]].
  - split; [done |]. intros k' y. rewrite lookup_insert_Some. intros [[<- _]|[_ Hy]] Hk'; [done | eauto].
  - destruct (Hk _ _ Hx) as [Ek Hcx]. split; [done |]. intros k' y. rewrite lookup_insert_Some.
    intros [[<- <-]|[_ Hy]] Hk'; [rewrite keys_clash_sym; eauto | eauto].
Qed.

Lemma keys_ok_filter tbl (p : SeqRow -> bool) : keys_ok tbl -> keys_ok (filter (fun kr => p kr.2 = false) tbl).
Proof.
  intros Hk k x [Hx _]%map_lookup_filter_Some. destruct (Hk _ _ Hx) as [Ek Hc]. split; [done |].
  intros k' y [Hy _]%map_lookup_filter_Some. eauto.
Qed.

Lemma reads_seq_get_one p : reads (get_one p).
Proof. apply reads_query. intros tbl a tbl'. destruct (select_one p tbl); naive_solver. Qed.
Lemma reads_seq_GetByID tn id : reads (GetByID tn id).
Proof. unfold GetByID. apply reads_bind; [apply reads_seq_get_one | auto with go_frame]. Qed.
Lemma reads_seq_GetByCode tn c : reads (GetByCode tn c).
Proof. unfold GetByCode. apply reads_bind; [apply reads_seq_get_one | auto with go_frame]. Qed.
Lemma reads_GetByEntity tn e s : reads (GetByEntity tn e s).
Proof. unfold GetByEntity. apply reads_bind; [apply reads_seq_get_one | auto with go_frame]. Qed.
#[local] Hint Resolve reads_seq_get_one reads_seq_GetByID reads_seq_GetByCode reads_GetByEntity : go_frame.

(** What a statement does to the table: a new row, a row with the same keys, or
    fewer rows, each of one tenant. *)
Inductive seq_write (tn : ID) (tbl : SeqTable) : SeqTable -> Prop :=
  | seq_same : seq_write tn tbl tbl
  | seq_new row : sr_tenant_id row = tn -> tbl !! sr_id row = None -> (forall k r, tbl !! k = Some r -> keys_clash row r = false) ->
      seq_write tn tbl (<[sr_id row := row]> tbl)
  | seq_update k old row : sr_tenant_id old = tn -> tbl !! k = Some old -> same_keys old row -> seq_write tn tbl (<[sr_id row := row]> tbl)
  | seq_delete p : (forall r, p r = true -> sr_tenant_id r = tn) -> seq_write tn tbl (filter (fun kr => p kr.2 = false) tbl).

Lemma seq_write_kept tn tbl tbl' : seq_write tn tbl tbl' -> keys_ok tbl ->
  keys_ok tbl' /\ forall t, tn <> t -> rows_in sr_tenant_id t tbl' = rows_in sr_tenant_id t tbl.
Proof.
  intros Hw Hk. destruct Hw as [|row Ht Hn Hc|k old row Ht Ho Hs|p Hp].
  - done.
  - split; [by apply keys_ok_insert |]. intros t Hne. by rewrite rows_in_fresh; [| congruence | done].
  - destruct (Hk _ _ Ho) as [Ek _]. pose proof Hs as (Eid & Et & _). rewrite <- Ek in Ho. split; [by apply (keys_ok_rewrite _ old) |].
    intros t Hne. apply rows_in_insert; [congruence |]. intros x Hx. rewrite Eid in Hx. congruence.
  - split; [by apply keys_ok_filter |]. intros t Hne. apply rows_in_filter. intros r Hr. by rewrite (Hp r Hr).
Qed.

(** The calls, by the tenant they name. *)
Inductive SequenceCall :=
  | SeqCreate (cmd : CreateSequenceCommand)
  | SeqUpdate (cmd : UpdateSequenceCommand)
  | SeqDelete (tenantID id : ID)
  | SeqAcquire (tenantID : ID) (entityType subType : string) (extraTokens : list (string * string)).

Definition sequence_tenant (c : SequenceCall) : ID :=
  match c with
  | SeqCreate cmd => cs_TenantID cmd
  | SeqUpdate cmd => us_TenantID cmd
  | SeqDelete tn _ | SeqAcquire tn _ _ _ => tn
  end.

Definition sequence_call (c : SequenceCall) (w : World SeqTable) : World SeqTable :=
  match c with
  | SeqCreate cmd => (CreateSequence refused cmd w).2
  | SeqUpdate cmd => (UpdateSequence refused cmd w).2
  | SeqDelete tn id => (DeleteSequence tn id w).2
  | SeqAcquire tn e s x => (uc_AcquireNextNumber refused tn e s x w).2
  end.

Lemma reads_run {A} (m : M SeqTable A) w r w' : m w = (r, w') -> reads m -> w_db w' = w_db w.
Proof. intros E Hm. specialize (Hm w). by rewrite E in Hm. Qed.

(** The reads of a run leave the table. *)
Ltac settle := repeat match goal with
  | X : GetByID _ _ _ = _ |- _ => apply reads_run in X; [| auto with go_frame]
  | X : GetByCode _ _ _ = _ |- _ => apply reads_run in X; [| auto with go_frame]
  | X : GetByEntity _ _ _ _ = _ |- _ => apply reads_run in X; [| auto with go_frame]
  end; cbn [w_db tick] in *.

Lemma insert_row_write row tbl r tbl' : insert_row refused row tbl = Ok (r, tbl') -> seq_write (sr_tenant_id row) tbl tbl'.
Proof.
  unfold insert_row. case_bool_decide; [done |]. destruct (tbl !! sr_id row) eqn:En; [done |]. destruct (select_one _ _) eqn:Es; [done |].
  destruct (refused row); [done |]. intros [= <- <-]. apply seq_new; [done | done |]. by apply select_one_None.
Qed.

Lemma CreateSequence_write cmd w : seq_write (cs_TenantID cmd) (w_db w) (w_db (CreateSequence refused cmd w).2).
Proof.
  apply writes_last_out; [unfold CreateSequence, Create; frame | constructor |]. intros a w' E. unfold CreateSequence, Create in E. step_inv. settle.
  match goal with X : insert_row _ _ ?tbl = Ok _ |- _ => assert (tbl = w_db w) as Ew by congruence; rewrite Ew in X; by apply insert_row_write in X end.
Qed.

Lemma UpdateSequence_write cmd w : seq_write (us_TenantID cmd) (w_db w) (w_db (UpdateSequence refused cmd w).2).
Proof.
  apply writes_last_out; [unfold UpdateSequence, Update; frame | constructor |]. intros a w' E. unfold UpdateSequence, Update in E. step_inv.
  match goal with X : GetByID _ _ _ = _ |- _ => pose proof X as Y; unfold GetByID, get_one in Y end. settle. step_inv.
  destruct (select_one (by_id (us_TenantID cmd) _) _) as [row|] eqn:Es; [| done]. simplify_eq.
  apply select_one_Some in Es as [[[_ Ht]%sql_eq_true _]%andb_true_iff _].
  match goal with X : match select_one ?p ?tbl with Some _ => _ | None => _ end = Ok _ |- _ =>
    assert (tbl = w_db w) as Ew by congruence; destruct (select_one p tbl) as [old|] eqn:Eo; [| done]; unfold write_row in X end.
  destruct (refused _); [done |]. simplify_eq. rewrite Ew in *. apply select_one_Some in Eo as [[[_ Eo]%sql_eq_true _]%andb_true_iff [k Hk]].
  eapply (seq_update _ _ k old (update_row old _)); [cbn in Eo; congruence | done | done].
Qed.

Lemma DeleteSequence_write tn id w : seq_write tn (w_db w) (w_db (DeleteSequence tn id w).2).
Proof.
  apply writes_last_out; [unfold DeleteSequence, Delete; frame | constructor |]. intros a w' E. unfold DeleteSequence, Delete in E. step_inv. simplify_eq.
  apply seq_delete. by intros r [[_ Hr]%sql_eq_true _]%andb_true_iff.
Qed.

Lemma uc_Acquire_write tn e s x w : seq_write tn (w_db w) (w_db (uc_AcquireNextNumber refused tn e s x w).2).
Proof.
  destruct (uc_Acquire_advanced refused tn e s x w) as [->|(k & row & now & Hk & Hp & ->)]; [constructor |].
  pose proof (next_number_keys row now x) as Hs. pose proof Hs as [<- _]. apply (seq_update _ _ k row); [by apply by_entity_tenant in Hp | done | done].
Qed.

Lemma sequence_call_write c w : seq_write (sequence_tenant c) (w_db w) (w_db (sequence_call c w)).
Proof.
  destruct c; cbn [sequence_tenant sequence_call]; [apply CreateSequence_write | apply UpdateSequence_write | apply DeleteSequence_write | apply uc_Acquire_write].
Qed.
End Sequences.
End Sequences.

(** ** Organizations *)

Module Organizations.
Import Organization.

Section Organizations.
  Context `{UnicodeTables, Env, Pg}.
  Variable refused : OrgRow -> option error.

Definition org_inv (tbl : OrgTable) : Prop := org_table_ok tbl /\ hierarchy_ok tbl.

Inductive OrganizationCall := OrgCreate (cmd : CreateCommand) | OrgUpdate (cmd : UpdateCommand).

Definition organization_call (ctx : Ctx) (c : OrganizationCall) (w : World OrgTable) : World OrgTable :=
  match c with
  | OrgCreate cmd => (CreateOrganization refused ctx cmd w).2
  | OrgUpdate cmd => (UpdateOrganization refused ctx cmd w).2
  end.

Lemma organization_call_inv ctx c w : org_inv (w_db w) -> org_inv (w_db (organization_call ctx c w)).
Proof.
  intros Hi. destruct c; cbn [organization_call]; apply writes_last_out; try done.
  - apply CreateOrganization_writes_last.
  - intros a w' E. by eapply CreateOrganization_hierarchy; [apply Hi | apply Hi | exact E].
  - apply UpdateOrganization_writes_last.
  - intros a w' E. by eapply UpdateOrganization_hierarchy; [apply Hi | apply Hi | exact E].
Qed.

Lemma Create_rows t F o : org_TenantID o <> t -> preserves (fun tbl => rows_in or_tenant_id t tbl = F) (Create refused o).
Proof.
  intros Ht. unfold Create. apply preserves_writes_last; [frame |]. intros w r w' Hi E. step_inv. unfold insert_org in *.
  destruct (bool_decide _); [done |]. destruct (w_db w !! _) eqn:En; [done |]. destruct (select_one _ _); [done |].
  destruct (negb _); [done |]. destruct (refused _); [done |]. simplify_eq. cbn. by rewrite rows_in_fresh.
Qed.

Lemma Update_rows t F o : org_TenantID o <> t ->
  triple (fun tbl => rows_in or_tenant_id t tbl = F) (fun tbl => org_inv tbl /\ rows_in or_tenant_id t tbl = F) (Update refused o)
    (fun _ tbl => rows_in or_tenant_id t tbl = F).
Proof.
  intros Ht. unfold Update. apply triple_writes_last; [frame | by intros d [] |]. intros w r w' [[Hok _] Hk] E. step_inv. unfold update_org in *.
  cbn [w_db tick] in *. destruct (select_one _ _) as [old|] eqn:Es; [| done]. apply by_id_row in Es as (Ho & Et & _ & _); [| done].
  destruct (negb _); [done |]. destruct (refused _); [done |]. simplify_eq. cbn. rewrite rows_in_insert; [done | cbn; congruence |].
  intros x Hx. congruence.
Qed.

#[local] Hint Resolve reads_org_get reads_ListByTenant : go_frame.
#[local] Hint Resolve Create_rows : table_inv.

Lemma organization_call_rows t ctx c w : org_inv (w_db w) -> ctx_tenant ctx <> Some t ->
  rows_in or_tenant_id t (w_db (organization_call ctx c w)) = rows_in or_tenant_id t (w_db w).
Proof.
  intros Hi Ho. destruct c; cbn [organization_call].
  - apply (preserves_rows (rows_in or_tenant_id t)). intros F. apply (preserves_other _ t); [done |]. intros tn Ht.
    unfold GetByID, GetByCode. keep.
  - apply (triple_rows (rows_in or_tenant_id t) org_inv); [| done]. intros F. apply (triple_other _ _ t); [done | by intros d [] |]. intros tn Ht.
    apply triple_read_fact with (X := fun o => org_TenantID o = tn); [unfold GetByID; auto with go_frame | by intros d [] | |].
    { intros w1 o w2 E. apply org_get_Ok in E as (row & Es & -> & _). by apply select_one_Some in Es as [[[_ Es]%sql_eq_true _]%andb_true_iff _]. }
    intros o Hto. eapply triple_bind; [apply triple_reads; [frame | by intros d []] |]. intros p. cbv beta.
    eapply triple_bind; [apply triple_reads; [frame | by intros d []] |]. intros now. cbv beta. apply Update_rows. cbn. congruence.
Qed.
End Organizations.
End Organizations.

(** ** Webhook endpoints *)

Module Endpoints.
Import Webhooks.

Section Endpoints.
  Context `{Env, Pg, WebhookServer, Url.NetURL}.
  Variable t : ID.

(** The tenant of a delivery is that of its endpoint. *)
Definition delivery_tenant (d : WebhookDB) (x : Delivery) : option ID := ep_TenantID <$> wh_endpoints d !! d_EndpointID x.

Definition webhook_rows (d : WebhookDB) :=
  (rows_in ep_TenantID t (wh_endpoints d), filter (fun kv => delivery_tenant d kv.2 = Some t) (wh_deliveries d)).

Inductive EndpointCall :=
  | EpRegister (cmd : RegisterEndpointInput)
  | EpDelete (tenantID id : ID)
  | EpSetActive (tenantID id : ID) (active : bool).

Definition endpoint_tenant (c : EndpointCall) : ID :=
  match c with EpRegister cmd => re_TenantID cmd | EpDelete tn _ | EpSetActive tn _ _ => tn end.

Definition endpoint_call (c : EndpointCall) (w : World WebhookDB) : World WebhookDB :=
  match c with
  | EpRegister cmd => (RegisterEndpoint cmd w).2
  | EpDelete tn id => (DeleteEndpoint tn id w).2
  | EpSetActive tn id a => (SetEndpointActive tn id a w).2
  end.

(** What a statement does to the tables. *)
Inductive endpoint_write (tn : ID) (d : WebhookDB) : WebhookDB -> Prop :=
  | ep_same : endpoint_write tn d d
  | ep_new ep : ep_TenantID ep = tn -> wh_endpoints d !! ep_ID ep = None -> endpoint_write tn d (lens_set (<[ep_ID ep := ep]> (wh_endpoints d)) d)
  | ep_update k old ep : wh_endpoints d !! k = Some old -> ep_TenantID old = tn -> ep_ID ep = ep_ID old -> ep_TenantID ep = tn ->
      endpoint_write tn d (lens_set (<[ep_ID ep := ep]> (wh_endpoints d)) d)
  | ep_delete k old : wh_endpoints d !! k = Some old -> ep_TenantID old = tn ->
      endpoint_write tn d (mkWebhookDB (delete (ep_ID old) (wh_endpoints d))
        (filter (fun kv => d_EndpointID kv.2 <> ep_ID old) (wh_deliveries d)) (wh_jobs d) (wh_wire d)).

Lemma endpoint_write_rows tn d d' : endpoint_write tn d d' -> tn <> t -> keyed ep_ID (wh_endpoints d) ->
  map_Forall (fun _ x => is_Some (wh_endpoints d !! d_EndpointID x)) (wh_deliveries d) -> webhook_rows d' = webhook_rows d.
Proof.
  intros Hw Hne Hk Hd. destruct Hw as [|ep Ht Hn|k old ep Ho Ht Ei Et|k old Ho Ht]; [done | | |]; unfold webhook_rows; f_equal; cbn.
  - apply rows_in_fresh; [congruence | done].
  - apply map_filter_ext. intros i x Hx. unfold delivery_tenant. cbn. destruct (Hd i x Hx) as [e He]. rewrite lookup_insert_ne; [done | congruence].
  - pose proof (Hk _ _ Ho) as Ek. apply rows_in_insert; [congruence |]. intros y Hy. rewrite Ei, Ek, Ho in Hy. congruence.
  - pose proof (Hk _ _ Ho) as Ek. apply map_filter_ext. intros i x Hx. unfold delivery_tenant. cbn. rewrite Ei, Ek.
    destruct (decide (k = d_EndpointID x)) as [->|]; [| by rewrite lookup_insert_ne]. rewrite lookup_insert_eq, Ho. cbn. naive_solver.
  - pose proof (Hk _ _ Ho) as Ek. rewrite Ek. unfold rows_in. apply map_eq. intros i. rewrite !map_lookup_filter.
    destruct (decide (i = k)) as [->|]; [| by rewrite lookup_delete_ne]. rewrite lookup_delete_eq, Ho. cbn. by rewrite option_guard_False by congruence.
  - pose proof (Hk _ _ Ho) as Ek. rewrite Ek. apply map_eq. intros i. rewrite !map_lookup_filter. destruct (wh_deliveries d !! i) as [x|]; [| done]. cbn.
    unfold delivery_tenant. cbn. destruct (decide (d_EndpointID x = k)) as [Ex|Hx].
    + rewrite option_guard_False by tauto. cbn. rewrite Ex, Ho. cbn. by rewrite option_guard_False by congruence.
    + rewrite option_guard_True by done. cbn. by rewrite lookup_delete_ne by congruence.
Qed.

Lemma endpoint_by_id_tenant tn id ep : endpoint_by_id tn id ep = true -> ep_TenantID ep = tn.
Proof. by intros [_ [_ E]%sql_eq_true]%andb_true_iff. Qed.

Lemma endpoint_call_write c w : endpoint_write (endpoint_tenant c) (w_db w) (w_db (endpoint_call c w)).
Proof.
  destruct c as [cmd|tn id|tn id a]; cbn [endpoint_call endpoint_tenant].
  - apply writes_last_out; [unfold RegisterEndpoint, CreateEndpoint | constructor |].
    { frame. }
    intros ep w' E. unfold RegisterEndpoint, CreateEndpoint in E. step_inv.
    repeat match goal with X : wrap_err _ _ _ = (Ok _, _) |- _ => apply wrap_err_Ok in X end. step_inv.
    match goal with X : insert_into _ _ _ _ _ _ = _ |- _ => apply insert_into_Ok in X as (-> & -> & Hn & _) end.
    by apply (ep_new _ _ (endpoint_row _)).
  - unfold DeleteEndpoint, repo_DeleteEndpoint, bind, query, guard, fail, ret. destruct (env_fault _); [constructor |].
    unfold delete_endpoint. destruct (select_one _ _) as [r|] eqn:Es; [| constructor]. apply select_one_Some in Es as [Hp [k Hk]].
    eapply ep_delete; [exact Hk | by eapply endpoint_by_id_tenant].
  - unfold SetEndpointActive, bind, NowUTC, query, guard, fail, ret. cbn [w_tick tick w_db]. destruct (env_fault _); [constructor |].
    unfold set_active. destruct (select_one _ _) as [r|] eqn:Es; [| constructor]. apply select_one_Some in Es as [Hp%endpoint_by_id_tenant [k Hk]].
    by apply (ep_update _ _ k r (activated a _ r)).
Qed.
End Endpoints.
End Endpoints.

(** ** Files and attachments *)

Module Files.
Import Storage Attachments.

Section Files.
  Context `{UnicodeTables, Env, Pg, FileServer, UUIDLib}.
  Variables (baseDir : string) (maxFileSize : Z).

(** An attachment is of a file of its own tenant. *)
Record files_ok (d : FileDB) : Prop := {
  fo_keyed : keyed f_ID (t_files d);
  fo_files : forall k a, t_attachments d !! k = Some a -> exists f, t_files d !! ea_FileID a = Some f /\ f_TenantID f = ea_TenantID a;
}.

Definition file_rows (t : ID) (d : FileDB) := (rows_in f_TenantID t (t_files d), rows_in ea_TenantID t (t_attachments d)).

(** What a statement does to the tables. *)
Inductive file_write (tn : ID) (d : FileDB) : FileDB -> Prop :=
  | fw_same : file_write tn d d
  | fw_file f : f_TenantID f = tn -> t_files d !! f_ID f = None -> file_write tn d (mkFileDB (<[f_ID f := f]> (t_files d)) (t_attachments d))
  | fw_attach a f : ea_TenantID a = tn -> t_attachments d !! ea_ID a = None -> t_files d !! ea_FileID a = Some f -> f_TenantID f = tn ->
      file_write tn d (mkFileDB (t_files d) (<[ea_ID a := a]> (t_attachments d)))
  | fw_delete id : let files := filter (fun kv => file_by_id tn id kv.2 = false) (t_files d) in
      file_write tn d (mkFileDB files (filter (fun kv => is_Some (files !! ea_FileID kv.2)) (t_attachments d)))
  | fw_detach id : file_write tn d (mkFileDB (t_files d) (filter (fun kv => attachment_by_id tn id kv.2 = false) (t_attachments d))).

Lemma file_write_ok tn d d' : file_write tn d d' -> files_ok d -> files_ok d'.
Proof.
  intros Hw [Hk Hf]. destruct Hw as [|f Ht Hn|a f Ht Hn Hl Hft|id files|id]; [done | | | |]; split; cbn.
  - by apply keyed_insert.
  - intros k a Ha. destruct (Hf k a Ha) as (g & Hg & Eg). exists g. rewrite lookup_insert_ne by congruence. done.
  - done.
  - intros k b [[<- <-]|[_ Hb]]%lookup_insert_Some; [| by eapply Hf]. exists f. split; [done | congruence].
  - by apply keyed_filter.
  - intros k a [Ha Hs]%map_lookup_filter_Some. cbn in Hs. destruct Hs as [g Hg]. exists g. split; [done |].
    destruct (Hf k a Ha) as (g' & Hg' & Eg'). unfold files in Hg. apply map_lookup_filter_Some in Hg as [Hg _]. congruence.
  - done.
  - intros k a [Ha _]%map_lookup_filter_Some. by eapply Hf.
Qed.

Lemma file_write_rows tn t d d' : file_write tn d d' -> tn <> t -> files_ok d -> file_rows t d' = file_rows t d.
Proof.
  intros Hw Hne [Hk Hf]. destruct Hw as [|f Ht Hn|a f Ht Hn Hl Hft|id files|id]; [done | | | |]; unfold file_rows; f_equal; cbn; try done.
  - by rewrite rows_in_fresh; [| congruence | done].
  - by rewrite rows_in_fresh; [| congruence | done].
  - apply (rows_in_filter _ _ _ (file_by_id tn id)). intros x [[_ Hx]%sql_eq_true _]%andb_true_iff. congruence.
  - unfold rows_in. apply map_eq. intros i. rewrite !map_lookup_filter. destruct (t_attachments d !! i) as [a|] eqn:Ea; [| done]. cbn.
    destruct (decide (ea_TenantID a = t)) as [Et|Et]; [| destruct (decide (is_Some (files !! ea_FileID a))) as [Hs|Hs];
      [rewrite (option_guard_True (is_Some _)) by done | rewrite (option_guard_False (is_Some _)) by done]; cbn; by rewrite ?option_guard_False by done].
    destruct (Hf i a Ea) as (f & Hl & Eft). rewrite option_guard_True; [done |]. exists f. apply map_lookup_filter_Some. split; [done |].
    cbn. apply not_true_is_false. intros [[_ Hx]%sql_eq_true _]%andb_true_iff. congruence.
  - apply (rows_in_filter _ _ _ (attachment_by_id tn id)). intros x [[_ Hx]%sql_eq_true _]%andb_true_iff. congruence.
Qed.

(** The tables while a call for [tn] runs, from [d0] on. *)
Definition files_kept (tn : ID) (d0 : FileDB) (d : AttachDB) : Prop :=
  files_ok (a_db d) /\ forall t, tn <> t -> file_rows t (a_db d) = file_rows t d0.

Lemma files_kept_fs {A} tn d0 (m : M FS A) : preserves (files_kept tn d0) (zoom (D := AttachDB) m).
Proof. intros w Hw. unfold files_kept. by rewrite (keeps_zoom_db m w). Qed.

Lemma files_kept_db {A} tn d0 (m : M FileDB A) : (forall w, file_write tn (w_db w) (w_db (m w).2)) -> preserves (files_kept tn d0) (zoom (D := AttachDB) m).
Proof.
  intros Hm w [Ho Hr]. unfold zoom. specialize (Hm (mkWorld (lens_get (w_db w)) (w_tick w))). destruct (m _) as [r w1]. cbn in *.
  split; [by eapply file_write_ok |]. intros t Ht. cbn. rewrite (file_write_rows tn t _ _ Hm) by done. by apply Hr.
Qed.

Lemma reads_GetFileByID tn id : reads (GetFileByID tn id).
Proof. apply reads_query. intros d a d'. case_match; naive_solver. Qed.

Lemma CreateFile_write f w : file_write (f_TenantID f) (w_db w) (w_db (CreateFile f w).2).
Proof.
  apply writes_last_out; [apply CreateFile_writes_last | constructor |]. intros g w' E. unfold CreateFile in E. step_inv.
  case_match eqn:Er; simplify_eq. case_match; simplify_eq. apply insert_row_Ok in Er as (-> & -> & Hf & _). by apply (fw_file _ _ (file_row f _)).
Qed.

Lemma repo_DeleteFile_write tn id w : file_write tn (w_db w) (w_db (repo_DeleteFile tn id w).2).
Proof. unfold repo_DeleteFile, query. destruct (env_fault _); [constructor | apply fw_delete]. Qed.

Lemma DeleteAttachment_write tn id w : file_write tn (w_db w) (w_db (DeleteAttachment tn id w).2).
Proof. unfold DeleteAttachment, query. destruct (env_fault _); [constructor | apply fw_detach]. Qed.

Lemma CreateAttachment_write a f w : t_files (w_db w) !! ea_FileID a = Some f -> f_TenantID f = ea_TenantID a ->
  file_write (ea_TenantID a) (w_db w) (w_db (CreateAttachment a w).2).
Proof.
  intros Hf Ht. apply writes_last_out; [unfold CreateAttachment; frame | constructor |]. intros b w' E. unfold CreateAttachment in E. step_inv.
  case_match eqn:Er; simplify_eq. case_match. case_match; simplify_eq. apply insert_row_Ok in Er as (-> & -> & Hn & _).
  by apply (fw_attach _ _ (attachment_row a _) f).
Qed.

Inductive FileCall :=
  | FileUpload (cmd : UploadFileCommand)
  | FileDelete (tenantID fileID : ID)
  | FileAttach (cmd : AttachFileCommand)
  | FileDetach (tenantID attachmentID : ID).

Definition file_tenant (c : FileCall) : ID :=
  match c with FileUpload cmd => uf_TenantID cmd | FileAttach cmd => af_TenantID cmd | FileDelete tn _ | FileDetach tn _ => tn end.

Definition file_call (c : FileCall) (w : World AttachDB) : World AttachDB :=
  match c with
  | FileUpload cmd => (UploadFile baseDir maxFileSize cmd w).2
  | FileDelete tn id => (DeleteFile baseDir tn id w).2
  | FileAttach cmd => (AttachFile cmd w).2
  | FileDetach tn id => (DetachFile tn id w).2
  end.

#[local] Hint Resolve reads_GetFileByID files_kept_fs : go_frame.

(** The file that is attached is one of the tenant. *)
Definition has_file (tn fid : ID) (d : AttachDB) : Prop := exists f, t_files (a_db d) !! fid = Some f /\ f_TenantID f = tn.

Lemma triple_GetFileByID tn fid d0 :
  triple (files_kept tn d0) (files_kept tn d0) (zoom (D := AttachDB) (GetFileByID tn fid)) (fun _ d => files_kept tn d0 d /\ has_file tn fid d).
Proof.
  intros w Hk. pose proof (reads_zoom (D := AttachDB) _ (reads_GetFileByID tn fid) w) as Hr.
  destruct (zoom (GetFileByID tn fid) w) as [[f|e|e] w1] eqn:E; cbn in Hr; rewrite Hr; [| done | done].
  split; [done |]. exists f. apply zoom_Ok in E as (w2 & E & _). by apply GetFileByID_Ok in E as (_ & Hf & Ht); [| apply Hk].
Qed.

Lemma triple_CreateAttachment a d0 :
  triple (files_kept (ea_TenantID a) d0) (fun d => files_kept (ea_TenantID a) d0 d /\ has_file (ea_TenantID a) (ea_FileID a) d)
    (zoom (D := AttachDB) (CreateAttachment a)) (fun _ => files_kept (ea_TenantID a) d0).
Proof.
  intros w [[Ho Hr] (f & Hf & Ht)]. unfold zoom.
  pose proof (CreateAttachment_write a f (mkWorld (lens_get (w_db w)) (w_tick w)) Hf Ht) as Hw.
  destruct (CreateAttachment a _) as [r w1]. cbn in Hw.
  assert (files_kept (ea_TenantID a) d0 (lens_set (w_db w1) (w_db w))) as Hk.
  { split; [by eapply file_write_ok |]. intros t Hne. cbn. rewrite (file_write_rows _ t _ _ Hw) by done. by apply Hr. }
  by destruct r.
Qed.

Lemma AttachFile_kept cmd d0 : preserves (files_kept (af_TenantID cmd) d0) (AttachFile cmd).
Proof.
  unfold AttachFile. do 4 (apply preserves_bind; [auto with go_frame | intros ?]).
  eapply triple_preserves; [| by intros ? d Hd; exact Hd]. eapply triple_bind; [apply triple_GetFileByID |]. intros f. cbv beta.
  do 2 (eapply triple_bind; [apply triple_reads; [auto with go_frame | by intros d []] | intros ?; cbv beta zeta]).
  apply (triple_CreateAttachment (mkEntityAttachment _ _ _ _ _ _ _ _ _)).
Qed.

Lemma file_call_kept c w : files_ok (a_db (w_db w)) -> files_kept (file_tenant c) (a_db (w_db w)) (w_db (file_call c w)).
Proof.
  intros Ho. assert (files_kept (file_tenant c) (a_db (w_db w)) (w_db w)) as Hk by done. revert Hk. generalize (a_db (w_db w)) as d0. intros d0 Hk.
  destruct c as [cmd|tn id|cmd|tn id]; cbn [file_call file_tenant] in *; revert w Ho Hk.
  - intros w _. revert w. change (preserves (files_kept (uf_TenantID cmd) d0) (UploadFile baseDir maxFileSize cmd)). unfold UploadFile.
    do 7 (apply preserves_bind; [keep | intros ?]). case_match; [| keep]. apply preserves_bind; [| intros ?; keep].
    apply preserves_attempt, files_kept_db. intros w. apply (CreateFile_write (mkFile _ _ _ _ _ _ _ _ _ _ _ _ _)).
  - intros w _. revert w. change (preserves (files_kept tn d0) (DeleteFile baseDir tn id)). unfold DeleteFile.
    do 2 (apply preserves_bind; [keep | intros ?]). apply files_kept_db. apply repo_DeleteFile_write.
  - intros w _. apply AttachFile_kept.
  - intros w _. revert w. change (preserves (files_kept tn d0) (DetachFile tn id)). unfold DetachFile.
    apply preserves_bind; [keep | intros ?]. apply files_kept_db. apply DeleteAttachment_write.
Qed.
End Files.
End Files.
