(* ===== verification/Guarded.v ===== *)
(** * Which requests change the data of a tenant

    A realm is a part of the tables with an invariant, the rows each tenant has in
    it, and the permissions that let a request change it.  A route leaves the tables
    of a realm alone, or it is behind one authentication and a permission of the
    realm and its handler changes only rows of the tenant of the request.  From that
    alone: the rows of a tenant change only through requests with a credential of
    the tenant and a permission of the realm.  [DocumentAccess] and [TenantData] show
    of which realms the router is such a router. *)

From S2P Require Import Prelude GoStrings Url GoTime GoFloat Sdk Tables Outbox AuditTrail Organization Workflow Documents SequenceStore.
From S2P Require Import Units Products Storage Attachments Tenants Auth Identity ServiceAccounts Webhooks FieldValidator.
From S2P Require Import CustomFields Parties Communication RateLimit Middleware Http ApiBusiness ApiSecurity App Access.
#[local] Open Scope string_scope.
#[local] Open Scope list_scope.
#[local] Open Scope Z_scope.

(** ** Realms *)

Record Realm := mkRealm {
  re_Tables : Type;
  re_tables : AppDB -> re_Tables;
  re_inv : re_Tables -> Prop;
  re_Rows : Type;
  re_rows : ID -> re_Tables -> re_Rows;
  re_codes : list string;
}.

(** Writing a component leaves a part of the state alone. *)
Definition apart (E : Type) `{Lens AppDB E} {X} (f : AppDB -> X) : Prop := forall (e : E) d, f (lens_set e d) = f d.
#[export] Hint Extern 1 (apart _ _) => (intros ? ?; reflexivity) : core.

(** The middleware writes the limiter and the usage of API keys. *)
Class RealmLaws (R : Realm) := {
  re_limiter : apart inMemoryLimiter (re_tables R);
  re_machines : apart MachineDB (re_tables R);
}.

(** What a request of the tenant [t] may do. *)
Definition bounded (R : Realm) (t : option ID) (d d' : AppDB) : Prop :=
  re_inv R (re_tables R d) ->
  re_inv R (re_tables R d') /\ forall tn, t <> Some tn -> re_rows R tn (re_tables R d') = re_rows R tn (re_tables R d).

Lemma bounded_refl R t d : bounded R t d d.
Proof. by intros Hi. Qed.

(** ** Routes *)

Definition leaves {X} (f : AppDB -> X) (rt : Route) : Prop := forall r h, keeps f (rt_Handler rt r h).

Definition acts (R : Realm) (rt : Route) : Prop := forall r h w,
  ctx_tx (req_ctx r) = false -> bounded R (ctx_tenant (req_ctx r)) (w_db w) (w_db (rt_Handler rt r h w).2).

(** One authentication, and behind it a gate for the permissions. *)
Definition gated (codes : list string) (gs : list Gate) : bool :=
  match gs with
  | GAuth true :: post => match last_auth post with None => existsb (within codes) post | Some _ => false end
  | _ => false
  end.

Definition ruled (R : Realm) (rt : Route) : Prop :=
  leaves (re_tables R) rt \/ acts R rt /\ gated (re_codes R) (rt_Gates rt) = true.

Lemma leaves_under {X} (f : AppDB -> X) prefix uses rs : Forall (leaves f) rs -> Forall (leaves f) (under prefix uses rs).
Proof. unfold under. rewrite Forall_map. intros Hr. eapply Forall_impl; [exact Hr | done]. Qed.

Lemma under_app prefix uses rs rs' : under prefix uses (rs ++ rs') = under prefix uses rs ++ under prefix uses rs'.
Proof. apply map_app. Qed.

(** ** The frame of a handler *)

Section Handlers.
  Context {X : Type} (f : AppDB -> X).

Lemma respond_or_keeps {A} (call : M AppDB A) on_err k : keeps f call -> keeps f (respond_or call on_err k).
Proof. intros Hc. apply keeps_bind; [by apply keeps_attempt |]. intros [a|e]; apply keeps_ret. Qed.

Lemma with_webhook_tenant_keeps r h (k : ID -> M AppDB Reply) : (forall t, keeps f (k t)) -> keeps f (with_webhook_tenant r h k).
Proof. intros Hk. unfold with_webhook_tenant. case_match; [apply Hk | apply keeps_ret | by intros w]. Qed.

Lemma with_claims_keeps r h (k : AuthClaims -> M AppDB Reply) : (forall c, keeps f (k c)) -> keeps f (with_claims r h k).
Proof. intros Hk. unfold with_claims. repeat case_match; try apply keeps_ret; apply Hk. Qed.
End Handlers.

(** Go through a handler to the call of its use case, which works on a component
    apart from the tables, or only reads. *)
Ltac unfold_head t := match t with ?g _ => unfold_head g | _ => unfold t end.
Ltac enter_handler :=
  let r := fresh "r" in let h := fresh "h" in intros r h; cbn [rt_Handler get_ post_ put_ delete_];
  lazymatch goal with |- keeps _ ?t => unfold_head t end.
Ltac frame_handler :=
  enter_handler;
  repeat first
    [ apply keeps_ret
    | apply with_tenant_keeps; intros ? | apply with_webhook_tenant_keeps; intros ? | apply with_claims_keeps; intros ?
    | apply with_id_keeps; intros ? | apply with_body_keeps; intros ?
    | apply respond_keeps | apply respond_or_keeps
    | apply zoom_keeps; assumption
    | case_match ].
Ltac frame_routes :=
  repeat first [ apply leaves_under | apply Forall_app; split | apply Forall_cons; split; [frame_handler |] | apply Forall_nil; exact I ].

Section Frame.
  Context `{Platform, Servers, RequestBodies}.
  Variables (org_refused : OrgRow -> option error) (seq_refused : SeqRow -> option error) (cfg : Config).
  Context {X : Type} (f : AppDB -> X).

Lemma leaves_auth : apart IamDB f -> Forall (leaves f) (auth_routes cfg).
Proof. intros Ha. unfold auth_routes. frame_routes. Qed.
Lemma leaves_identity : apart IamDB f -> Forall (leaves f) identity_routes.
Proof. intros Ha. unfold identity_routes. frame_routes. Qed.
Lemma leaves_fields : apart CfDB f -> Forall (leaves f) custom_field_routes.
Proof. intros Ha. unfold custom_field_routes. frame_routes. Qed.
Lemma leaves_sequences : apart SeqTable f -> Forall (leaves f) (sequence_routes seq_refused).
Proof. intros Ha. unfold sequence_routes. frame_routes. Qed.
Lemma leaves_attachments : apart AttachDB f -> Forall (leaves f) (attachment_routes cfg).
Proof. intros Ha. unfold attachment_routes. frame_routes. Qed.
Lemma leaves_communication : apart CommDB f -> Forall (leaves f) communication_routes.
Proof. intros Ha. unfold communication_routes. frame_routes. Qed.
Lemma leaves_accounts : apart MachineDB f -> Forall (leaves f) service_account_routes.
Proof. intros Ha. unfold service_account_routes. frame_routes. Qed.
Lemma leaves_webhooks : apart WebhookDB f -> Forall (leaves f) webhook_routes.
Proof. intros Ha. unfold webhook_routes. frame_routes. Qed.
Lemma leaves_tenants : apart (gmap ID Tenant) f -> Forall (leaves f) tenant_routes.
Proof. intros Ha. unfold tenant_routes. frame_routes. Qed.
Lemma leaves_organizations : apart OrgTable f -> Forall (leaves f) (organization_routes org_refused).
Proof. intros Ha. unfold organization_routes. frame_routes. Qed.
Lemma leaves_parties : apart PartyDB f -> Forall (leaves f) party_routes.
Proof. intros Ha. unfold party_routes. frame_routes. Qed.
Lemma leaves_products : apart ProductDB f -> Forall (leaves f) product_routes.
Proof. intros Ha. unfold product_routes. frame_routes. Qed.
Lemma leaves_documents : apart DocDB f -> Forall (leaves f) document_routes.
Proof. intros Ha. unfold document_routes. frame_routes. Qed.
Lemma leaves_audit : apart AuditTable f -> Forall (leaves f) audit_routes.
Proof. intros Ha. unfold audit_routes. frame_routes. Qed.
Lemma leaves_modules : Forall (leaves f) (cfg_ModuleRoutes cfg) -> Forall (leaves f) (MountRoutes cfg).
Proof.
  intros Hm. apply leaves_under, Forall_cons. split; [by intros r h w |]. unfold cfg_ModuleRoutes in Hm.
  induction (cfg_Modules cfg) as [|[mf rs] ms IH]; [constructor |]. cbn [fmap list_fmap map concat fst snd] in *.
  apply Forall_app in Hm as [Hr Hm]. apply Forall_app. split; [by apply leaves_under | by apply IH].
Qed.
Lemma leaves_probes : Forall (leaves f) [get_ "/healthz" healthz; get_ "/readyz" readyz].
Proof. frame_routes. apply keeps_reads, reads_query. naive_solver. Qed.
End Frame.

Create HintDb leaves_db.
#[export] Hint Resolve leaves_auth leaves_identity leaves_fields leaves_sequences leaves_attachments leaves_communication leaves_accounts
  leaves_webhooks leaves_tenants leaves_organizations leaves_parties leaves_products leaves_documents leaves_audit leaves_probes leaves_modules leaves_under : leaves_db.

(** ** Requests *)

Section Requests.
  Context `{Platform, Servers, RequestBodies}.
  Variables (org_refused : OrgRow -> option error) (seq_refused : SeqRow -> option error) (cfg : Config).
  #[local] Hint Extern 0 (TokenManager AppDB) => exact (tokenManager cfg) : typeclass_instances.
  Variable R : Realm.
  Context `{!RealmLaws R}.

(** The groups of protected routes, as the router mounts them. *)
Definition rate_gate : list Gate := if cfg_RateLimitEnabled cfg then [GRate] else [].
Definition mounted (rs : list Route) : list Route := under "/api/v1" [] (under "" (GAuth true :: rate_gate) rs).

Lemma leaves_mounted rs : Forall (leaves (re_tables R)) rs -> Forall (ruled R) (mounted rs).
Proof. intros Hr. apply (Forall_impl (leaves (re_tables R))); [by apply leaves_under, leaves_under |]. by left. Qed.

(** The router, group by group. *)
Definition protected_groups : list (list Route) :=
  [identity_routes; custom_field_routes; sequence_routes seq_refused; attachment_routes cfg; communication_routes; service_account_routes;
   webhook_routes; MountRoutes cfg; tenant_routes; organization_routes org_refused; party_routes; product_routes;
   document_routes; audit_routes].

Lemma router_ruled : Forall (fun rs => Forall (ruled R) (mounted rs)) protected_groups -> Forall (ruled R) (router org_refused seq_refused cfg).
Proof.
  intros Hg. assert (apart IamDB (re_tables R)) as Hiam by (intros e d; apply re_machines).
  assert (forall rs, Forall (leaves (re_tables R)) rs -> Forall (ruled R) rs) as Hl.
  { intros rs Hr. eapply Forall_impl; [exact Hr |]. by left. }
  unfold protected_groups in Hg. repeat apply Forall_cons in Hg as [? Hg].
  unfold router, NewRouter, protected_routes, group. rewrite !under_app, !Forall_app. split_and!; try done; apply Hl.
  - apply leaves_probes.
  - by apply leaves_under, leaves_auth.
Qed.

(** A request that may write in the realm for the tenant: it goes to a route behind
    the permissions of the realm, its credential is accepted in the world [w] that the
    request finds and has such a permission, and the tenant is that of the credential
    or, if it has none, that of the header. *)
Definition realm_writer (tn : ID) (q : Route * Request) (w : World AppDB) : Prop := exists c code,
  gated (re_codes R) (rt_Gates q.1) = true /\ credential_of (Some apiKeyValidator) true q.2 w c /\ code ∈ re_codes R /\ holds c code
  /\ (tn = ac_TenantID c \/ ac_TenantID c = NilID /\ ParseID (Get q.2 HeaderTenantID) = Ok tn).

Lemma gated_admitted rt r w r' w' tn :
  gated (re_codes R) (rt_Gates rt) = true -> req_ctx r = Background -> admitted (S := inMemoryLimiter) (Some apiKeyValidator) (rt_Gates rt) r w r' w' ->
  tn <> NilID -> ctx_tenant (req_ctx r') = Some tn -> realm_writer tn (rt, r) w.
Proof.
  intros Hg Hr Ha Hn Et. pose proof Hg as Hg'. unfold gated in Hg. destruct (rt_Gates rt) as [|[[] | | | |] post] eqn:Egs; try done.
  destruct (last_auth post) eqn:El; [done |]. apply single_auth_admitted in Ha as (c & Hc & Hp & Ho); [| done | by rewrite Hr].
  destruct (Hp _ Hg) as (code & Hin & Hh). exists c, code. cbn [fst snd]. rewrite Egs. split_and!; [done .. |]. by apply Ho.
Qed.

Lemma handle_realm rt r h w :
  ruled R rt -> req_ctx r = Background -> re_inv R (re_tables R (w_db w)) ->
  re_inv R (re_tables R (w_db (handle cfg rt r h w).2))
  /\ forall tn, tn <> NilID ->
       re_rows R tn (re_tables R (w_db (handle cfg rt r h w).2)) = re_rows R tn (re_tables R (w_db w)) \/ realm_writer tn (rt, r) w.
Proof.
  intros Hru Hr Hi. set (f := re_tables R) in *.
  assert (forall v, Some apiKeyValidator = Some v -> forall ctx key ip, keeps f (ValidateAPIKey v ctx key ip)) as Hkeys.
  { intros v [= <-] ctx key ip. apply zoom_keeps, re_machines. }
  assert (forall token, keeps f (ValidateToken token)) as Htok.
  { intros token. apply keeps_reads, reads_jwt_ValidateToken. }
  unfold handle, stack. destruct Hru as [Hk|[Hw Hg]].
  { pose proof (serve_keeps (S := inMemoryLimiter) _ f re_limiter Hkeys Htok (rt_Gates rt) _ Hk r h w) as E. rewrite E. auto. }
  destruct (serve_frame (S := inMemoryLimiter) _ f re_limiter Hkeys Htok (rt_Gates rt) (rt_Handler rt) r h w)
    as [E|(r' & h' & w' & Ha & E & Ed)]; [by rewrite E; auto |].
  rewrite E. clear E.
  assert (ctx_tx (req_ctx r') = false) as Htx by (rewrite (admitted_tx _ _ _ _ _ _ Ha), Hr; done).
  specialize (Hw r' h' w' Htx). unfold bounded in Hw. fold f in Hw. rewrite Ed in Hw. destruct (Hw Hi) as [Hi' Hrows]. split; [done |].
  intros tn Hn. destruct (decide (ctx_tenant (req_ctx r') = Some tn)) as [Et|Hne]; [right | left; by apply Hrows].
  eapply gated_admitted; [done .. | | done | done]. exact Ha.
Qed.

(** A session: requests that the router has matched, one after the other. *)
Definition api_session (reqs : list (Route * Request)) (w : World AppDB) : World AppDB :=
  fold_left (fun w q => (handle cfg q.1 q.2 ∅ w).2) reqs w.

(** Some request of the session may write, in the world that the requests before it
    leave behind. *)
Definition session_writer (tn : ID) (reqs : list (Route * Request)) (w : World AppDB) : Prop := exists pre q post,
  reqs = pre ++ q :: post /\ realm_writer tn q (api_session pre w).

Lemma session_writer_nil tn w : ~ session_writer tn [] w.
Proof. intros (pre & q & post & E & _). by destruct pre. Qed.

Lemma session_writer_cons tn q qs w :
  session_writer tn (q :: qs) w -> realm_writer tn q w \/ session_writer tn qs (handle cfg q.1 q.2 ∅ w).2.
Proof.
  intros (pre & q' & post & E & Hw). destruct pre as [|q0 pre]; injection E as <- ->; [by left | right].
  by exists pre, q', post.
Qed.

Lemma realm_session reqs w tn :
  Forall (ruled R) (router org_refused seq_refused cfg) ->
  Forall (fun q => q.1 ∈ router org_refused seq_refused cfg /\ req_ctx q.2 = Background) reqs ->
  re_inv R (re_tables R (w_db w)) -> tn <> NilID ->
  re_inv R (re_tables R (w_db (api_session reqs w)))
  /\ (re_rows R tn (re_tables R (w_db (api_session reqs w))) = re_rows R tn (re_tables R (w_db w)) \/ session_writer tn reqs w).
Proof.
  intros Hru Hq. rewrite Forall_forall in Hru. revert w. induction Hq as [|[rt r] qs [Hrt Hr] Hqs IH]; intros w Hi Hn; [split; [done | by left] |].
  cbn [fst snd] in *. unfold api_session at 1 2. cbn [fold_left fst snd]. fold (api_session qs (handle cfg rt r ∅ w).2).
  destruct (handle_realm rt r ∅ w (Hru rt Hrt) Hr Hi) as [Hi' Hrows]. destruct (IH _ Hi' Hn) as [Hend Hor]. split; [done |].
  destruct (Hrows tn Hn) as [E|Hw]; [| right; by exists [], (rt, r), qs].
  destruct Hor as [E'|(pre & q & post & -> & Hw)]; [left; by rewrite E', E | right; by exists ((rt, r) :: pre), q, post].
Qed.
End Requests.

(** The groups of routes that leave the tables alone, and a group route by route. *)
Ltac each_of := repeat match goal with |- Forall _ (_ :: _) => apply Forall_cons; split | |- Forall _ [] => by apply Forall_nil end.
Ltac leave_groups := unfold protected_groups; each_of; try (apply leaves_mounted; auto with leaves_db; fail).
Ltac open_group :=
  unfold mounted, group, rate_gate, under; cbn [map app rt_Gates rt_Handler rt_Pattern rt_Method get_ post_ put_ delete_]; each_of.

Section Demo.
Import AppDemo.

(** In the demonstration a user writes for the tenant of the token, in every world. *)
Lemma demo_writer R tn rt token params body w :
  token ∈ ["clerk"; "guest"; "rival"] -> realm_writer config R tn (rt, bearer token params body) w -> Some tn = tc_TenantID <$> claims_of token.
Proof.
  intros Hin (c & code & _ & (w1 & Ha) & _ & _ & Ht). repeat (apply elem_of_cons in Hin as [->|Hin]); [.. | by apply not_elem_of_nil in Hin].
  all: vm_compute in Ha; destruct Ha as (t & E & ->); injection E as <- _; destruct Ht as [->|[Hz _]]; [reflexivity | discriminate Hz].
Qed.
End Demo.
