(* ===== verification/DocumentAccess.v ===== *)
(** * Which requests change documents

    The documents as a realm of [Guarded]: their tables stay consistent through any
    requests, and the rows of a tenant change only for a credential of that tenant
    with the permission to create or to move documents.  And how a user without
    permissions obtains them all. *)

From S2P Require Import Prelude GoStrings Url GoTime GoFloat Sdk Tables Outbox AuditTrail Organization Workflow Documents SequenceStore.
From S2P Require Import Units Products Storage Attachments Tenants Auth Identity ServiceAccounts Webhooks FieldValidator.
From S2P Require Import CustomFields Parties Communication RateLimit Middleware Http ApiBusiness ApiSecurity App Access Guarded.
#[local] Open Scope string_scope.
#[local] Open Scope list_scope.
#[local] Open Scope Z_scope.

(** ** The realm *)

Definition doc_tables (d : AppDB) : DocTables := db_doc (app_docs d).

(** The rows of a tenant in the tables of documents. *)
Definition doc_rows (tn : ID) (t : DocTables) : gmap ID DocRow * gmap ID LineRow * gmap ID TransRow :=
  (filter (fun kr => dr_tenant_id kr.2 = tn) (t_documents t),
   filter (fun kr => lr_tenant_id kr.2 = tn) (t_lines t),
   filter (fun kr => tr_tenant_id kr.2 = tn) (t_transitions t)).

Definition documents : Realm := mkRealm DocTables doc_tables docs_inv _ doc_rows ["document:create"; "document:transition"].

#[export] Instance documents_laws : RealmLaws documents.
Proof. split; intros e d; reflexivity. Qed.

Section Documents.
  Context `{Platform, Servers, RequestBodies}.
  Variables (org_refused : OrgRow -> option error) (seq_refused : SeqRow -> option error) (cfg : Config).
  #[local] Hint Extern 0 (TokenManager AppDB) => exact (tokenManager cfg) : typeclass_instances.

Lemma reads_ListDocuments ctx page size org ty st : reads (ListDocuments ctx page size org ty st).
Proof.
  unfold ListDocuments. frame; apply reads_zoom; unfold repo_ListDocuments; frame; try (apply reads_query; naive_solver).
Qed.

Lemma reads_GetDocument ctx id : reads (GetDocumentByID ctx id).
Proof. unfold GetDocumentByID. frame. apply reads_zoom, reads_repo_GetDocumentByID. Qed.

Lemma document_call_bounded c w (v := mkWorld (app_docs (w_db w)) (w_tick w)) :
  ctx_tx (call_ctx c) = false ->
  bounded documents (ctx_tenant (call_ctx c)) (w_db w) (lens_set (w_db (Documents.run_call docUsecase c v).2) (w_db w)).
Proof.
  intros Htx Hi. split; [by apply (run_call_inv docUsecase c v) |]. intros tn Hne.
  pose proof (run_call_core docUsecase c v tn Htx Hi Hne) as E. unfold core_rows in E.
  injection E as E1 E2 E3 _ _. cbn. unfold doc_rows, doc_tables. cbn in *. by rewrite E1, E2, E3.
Qed.

(** The two endpoints that write documents. *)
Lemma acts_Create m p gs : acts documents (mkRoute m p gs (document_Create docUsecase)).
Proof.
  intros r h w Htx. cbn [rt_Handler]. unfold document_Create, with_body. case_match; [| apply bounded_refl].
  rewrite respond_zoom. by apply (document_call_bounded (CallCreate _ _) w).
Qed.

Lemma acts_Transition m p gs : acts documents (mkRoute m p gs (document_Transition docUsecase)).
Proof.
  intros r h w Htx. cbn [rt_Handler]. unfold document_Transition, with_id, with_body. repeat case_match; try apply bounded_refl.
  all: rewrite respond_zoom; by apply (document_call_bounded (CallTransition _ _) w).
Qed.

Lemma router_documents :
  Forall (leaves doc_tables) (cfg_ModuleRoutes cfg) -> Forall (ruled documents) (router org_refused seq_refused cfg).
Proof.
  intros Hm. apply router_ruled; [apply _ |]. leave_groups. unfold document_routes. open_group.
  - left. intros r h. apply respond_keeps, keeps_reads, reads_zoom, reads_ListDocuments.
  - left. intros r h. apply with_id_keeps. intros id. apply respond_keeps, keeps_reads, reads_zoom, reads_GetDocument.
  - right. split; [apply acts_Create |]. by destruct (cfg_RateLimitEnabled cfg).
  - right. split; [apply acts_Transition |]. by destruct (cfg_RateLimitEnabled cfg).
Qed.

(** C6: Documents are guarded.  Through any sequence of requests to any routes, with
    any credentials, bodies and failures, the tables of documents stay consistent,
    and the documents, lines and transitions of a tenant stay exactly as they were
    unless one of the requests, to a route behind the permission to create or to move
    documents, carries a credential that is accepted in the database it finds, holds
    such a permission and belongs to that tenant, or to no tenant while the request
    names this one in its header.  Modules are taken to leave these tables alone. *)
Theorem documents_guarded (reqs : list (Route * Request)) (w : World AppDB) (tn : ID) :
  Forall (leaves doc_tables) (cfg_ModuleRoutes cfg) ->
  Forall (fun q => q.1 ∈ router org_refused seq_refused cfg /\ req_ctx q.2 = Background) reqs ->
  docs_inv (doc_tables (w_db w)) -> tn <> NilID ->
  docs_inv (doc_tables (w_db (api_session cfg reqs w)))
  /\ (doc_rows tn (doc_tables (w_db (api_session cfg reqs w))) = doc_rows tn (doc_tables (w_db w))
      \/ session_writer cfg documents tn reqs w).
Proof. intros Hm. apply (realm_session org_refused seq_refused cfg documents). by apply router_documents. Qed.
End Documents.

Import AppDemo.

(** A clerk of tenant 7 creates and submits a document; a rival of tenant 8 tries to
    submit it again and creates one; someone tries a made-up key.  Nobody had a
    credential of tenant 9, so the rows of tenant 9 are untouched. *)
Lemma documents_guarded_witness :
  let create := find_route POST "/api/v1/documents/" in
  let move := find_route POST "/api/v1/documents/{id}/transition" in
  let reqs := [(create, bearer "clerk" ∅ "invoice"); (move, bearer "clerk" {["id" := "3"]} "submit");
               (move, bearer "rival" {["id" := "3"]} "submit"); (create, bearer "rival" ∅ "invoice");
               (create, bearer (APIKeyPrefix +:+ "made-up") ∅ "invoice")] in
  let w := api_session config reqs world in
  map (fun kr => (dr_tenant_id kr.2, dr_status kr.2)) (map_to_list (t_documents (doc_tables (w_db w))))
    = [(8%N, Workflow.StatusDraft); (7%N, Workflow.StatusSubmitted)]
  /\ docs_inv (doc_tables (w_db w))
  /\ doc_rows 9%N (doc_tables (w_db w)) = doc_rows 9%N (doc_tables (w_db world)).
Proof.
  intros create move reqs w. split; [vm_compute; reflexivity |].
  destruct (documents_guarded (fun _ => None) (fun _ => None) config reqs world 9%N) as [Hi [E|Hw]]; [constructor | | apply empty_inv | done | exact (conj Hi E) |].
  { repeat constructor; apply find_route_in; vm_compute; reflexivity. }
  exfalso. do 4 (apply session_writer_cons in Hw as [Hw|Hw]; [by apply demo_writer in Hw; [| set_solver] |]).
  apply session_writer_cons in Hw as [(c & code & _ & (w1 & Ha) & _)|Hw]; [by vm_compute in Ha | by apply session_writer_nil in Hw].
Defined.

(** A gap: the routes of service accounts ask for a session only, and the scopes of
    a new key are not compared with the permissions of its creator.  A user without
    any permission, who may not create tenants, creates an account and a key with
    the scope "*", and creates a tenant with that key. *)
Theorem scope_escalation :
  let tenant r w := call POST "/api/v1/tenants/" r w in
  let direct := tenant (bearer "guest" ∅ "tenant") world in
  let account := call POST "/api/v1/service-accounts/" (bearer "guest" ∅ "robot") world in
  let key := call POST "/api/v1/service-accounts/{id}/keys/" (bearer "guest" {["id" := "4"]} "all") account.2 in
  status direct = Some 403 /\ status account = Some 201 /\ status key = Some 201
  /\ exists secret, status (tenant (bearer secret ∅ "tenant") key.2) = Some 201.
Proof. cbv zeta. split_and!; [by vm_compute .. |]. exists (APIKeyPrefix +:+ Crypto.EncodeToString (repeat 10 32)). by vm_compute. Qed.
