(* ===== verification/TenantData.v ===== *)
(** * Which requests change the data of a tenant: the other realms

    Parties, the catalogue, custom fields, organizations, number sequences, webhooks
    and files as realms of [Guarded]: of each, the tables stay consistent through any
    requests, and the rows of a tenant change only for a credential of that tenant
    with a permission of the realm. *)

From S2P Require Import Prelude GoStrings Url GoTime GoFloat Sdk Tables Outbox AuditTrail Organization Workflow Documents SequenceStore.
From S2P Require Import Units Products Storage Attachments Tenants Auth Identity ServiceAccounts Webhooks FieldValidator.
From S2P Require Import CustomFields Parties Communication RateLimit Middleware Http ApiBusiness ApiSecurity App Access Isolation Guarded DocumentAccess.
#[local] Open Scope string_scope.
#[local] Open Scope list_scope.
#[local] Open Scope Z_scope.

(** ** The realms *)

(** A part of the state that is one component. *)
Definition component (E : Type) `{Lens AppDB E} (inv : E -> Prop) {Rows} (rows : ID -> E -> Rows) (codes : list string) : Realm :=
  mkRealm E lens_get inv Rows rows codes.

Definition parties : Realm := component PartyDB party_inv party_rows ["party:create"; "party:update"; "party:delete"].
Definition catalogue : Realm := component ProductDB catalogue_inv catalogue_rows ["product:create"; "product:update"; "product:delete"].
Definition custom_fields : Realm := component CfDB cf_inv field_rows ["custom_field:manage"].
Definition organizations : Realm := component OrgTable Organizations.org_inv (fun t => rows_in or_tenant_id t) ["organization:manage"].
(** Creating a document takes a number. *)
Definition sequences : Realm :=
  component SeqTable keys_ok (fun t => rows_in sr_tenant_id t) ["sequence:manage"; "document:create"].

Definition webhooks `{NetURL, UUIDLib} : Realm := component WebhookDB wh_inv Endpoints.webhook_rows ["webhook:manage"].
(** The tables of files and attachments, without the directory of uploads. *)
Definition files : Realm :=
  mkRealm FileDB (fun d => a_db (app_attach d)) Files.files_ok _ Files.file_rows ["file:upload"; "file:delete"; "attachment:manage"].

Ltac solve_laws := split; intros e d; reflexivity.
#[export] Instance parties_laws : RealmLaws parties.
Proof. solve_laws. Qed.
#[export] Instance catalogue_laws : RealmLaws catalogue.
Proof. solve_laws. Qed.
#[export] Instance custom_fields_laws : RealmLaws custom_fields.
Proof. solve_laws. Qed.
#[export] Instance organizations_laws : RealmLaws organizations.
Proof. solve_laws. Qed.
#[export] Instance sequences_laws : RealmLaws sequences.
Proof. solve_laws. Qed.

#[export] Instance webhooks_laws `{NetURL, UUIDLib} : RealmLaws webhooks.
Proof. solve_laws. Qed.
#[export] Instance files_laws : RealmLaws files.
Proof. solve_laws. Qed.

(** ** The handlers of a realm *)

(** A call on the component, replied to. *)
Lemma bounded_respond {E A Rows} `{Lens AppDB E} inv (rows : ID -> E -> Rows) codes t h (m : M E A) k w :
  (inv (lens_get (w_db w)) ->
   inv (w_db (m (mkWorld (lens_get (w_db w)) (w_tick w))).2)
   /\ forall tn, t <> Some tn -> rows tn (w_db (m (mkWorld (lens_get (w_db w)) (w_tick w))).2) = rows tn (lens_get (w_db w))) ->
  bounded (component E inv rows codes) t (w_db w) (w_db (respond h (zoom m) k w).2).
Proof. intros Hm Hi. rewrite respond_zoom. cbn. rewrite lens_get_set. by apply Hm. Qed.

(** The tenant of the request, for handlers that pass it on. *)
Lemma bounded_tenant R r h (k : ID -> M AppDB Reply) w :
  (forall tn, ctx_tenant (req_ctx r) = Some tn -> bounded R (Some tn) (w_db w) (w_db (k tn w).2)) ->
  bounded R (ctx_tenant (req_ctx r)) (w_db w) (w_db (with_tenant r h k w).2).
Proof.
  intros Hk. unfold with_tenant. destruct (RequireTenantID (req_ctx r)) as [tn|e|e] eqn:E; try apply bounded_refl.
  apply RequireTenantID_Ok in E as [E _]. rewrite E. by apply Hk.
Qed.

Lemma bounded_webhook_tenant R r h (k : ID -> M AppDB Reply) w :
  (forall tn, ctx_tenant (req_ctx r) = Some tn -> bounded R (Some tn) (w_db w) (w_db (k tn w).2)) ->
  bounded R (ctx_tenant (req_ctx r)) (w_db w) (w_db (with_webhook_tenant r h k w).2).
Proof.
  intros Hk. unfold with_webhook_tenant. destruct (RequireTenantID (req_ctx r)) as [tn|e|e] eqn:E; try apply bounded_refl.
  apply RequireTenantID_Ok in E as [E _]. rewrite E. by apply Hk.
Qed.

Lemma bounded_respond_or R {A} t h (m : M AppDB A) on_err k w :
  bounded R t (w_db w) (w_db (respond h m k w).2) -> bounded R t (w_db w) (w_db (respond_or m on_err k w).2).
Proof. unfold respond, respond_or, bind, attempt. by destruct (m w) as [[a|e|e] w1]. Qed.

Lemma bounded_id R t r h name code msg (k : ID -> M AppDB Reply) w `{UUIDLib} :
  (forall id, bounded R t (w_db w) (w_db (k id w).2)) -> bounded R t (w_db w) (w_db (with_id r h name code msg k w).2).
Proof. intros Hk. unfold with_id. case_match; [apply Hk | apply bounded_refl | apply bounded_refl]. Qed.

Lemma bounded_body {C} `{Decoder C} R t r h code msg (k : C -> M AppDB Reply) w :
  (forall c, bounded R t (w_db w) (w_db (k c w).2)) -> bounded R t (w_db w) (w_db (with_body r h code msg k w).2).
Proof. intros Hk. unfold with_body. case_match; [apply Hk | apply bounded_refl]. Qed.

Ltac act :=
  let r := fresh "r" in let h := fresh "h" in let w := fresh "w" in let Htx := fresh "Htx" in intros r h w Htx; cbn [rt_Handler];
  lazymatch goal with |- bounded _ _ _ (w_db (?f _ _ _).2) => unfold_head f end;
  repeat first [ apply bounded_tenant; intros ? ? | apply bounded_webhook_tenant; intros ? ? | apply bounded_id; intros ? | apply bounded_body; intros ?
               | apply (bounded_respond_or _ _ ∅) ];
  apply bounded_respond; intros ?.

(** An endpoint that only reads. *)
Ltac read_only :=
  enter_handler;
  repeat first [ apply with_tenant_keeps; intros ? | apply with_webhook_tenant_keeps; intros ? | apply respond_or_keeps, keeps_reads, reads_zoom | apply with_id_keeps; intros ? | apply with_body_keeps; intros ?
               | apply keeps_ret | apply respond_keeps, keeps_reads, reads_zoom | case_match ].

#[local] Hint Resolve reads_ListRoles reads_party_GetByID reads_ListPartyAddresses reads_ListPartyContacts reads_party_List : go_frame.
#[local] Hint Resolve reads_GetUnitByID reads_GetProductByID reads_GetProductBySKU Products.reads_ListVariants : go_frame.
#[local] Hint Resolve reads_org_get reads_ListByTenant : go_frame.
#[local] Hint Resolve Sequences.reads_seq_GetByID Sequences.reads_GetByEntity : go_frame.
Ltac reads_catalogue :=
  unfold ListUnits, GetUnitByID, ConvertQuantity, ListProducts, GetProductByID, ListVariants, repo_ListUnits, ListConversions, repo_ListProducts;
  frame; apply reads_query; naive_solver.

Section TenantData.
  Context `{Platform, Servers, RequestBodies}.
  Variables (org_refused : OrgRow -> option error) (seq_refused : SeqRow -> option error) (cfg : Config).
  #[local] Hint Extern 0 (TokenManager AppDB) => exact (tokenManager cfg) : typeclass_instances.

Lemma party_bounded c v t : t = ctx_tenant (party_ctx c) -> party_inv (w_db v) ->
  party_inv (w_db (party_call c v)) /\ forall tn, t <> Some tn -> party_rows tn (w_db (party_call c v)) = party_rows tn (w_db v).
Proof. intros -> Hi. split; [by apply party_call_inv |]. intros tn Ht. by apply party_call_rows. Qed.

Lemma router_parties : Forall (leaves (re_tables parties)) (cfg_ModuleRoutes cfg) -> Forall (ruled parties) (router org_refused seq_refused cfg).
Proof.
  intros Hm. apply router_ruled; [apply _ |]. leave_groups. unfold party_routes. open_group.
  all: try solve [left; read_only; unfold GetParty, ListParties; frame].
  all: right; split; [act | by destruct (cfg_RateLimitEnabled cfg)].
  - by apply (party_bounded (PCreate _ _) (mkWorld _ _)).
  - by apply (party_bounded (PAddRole _ _) (mkWorld _ _)).
  - by apply (party_bounded (PAddAddress _ _ _) (mkWorld _ _)).
  - by apply (party_bounded (PAddContact _ _ _) (mkWorld _ _)).
  - by apply (party_bounded (PUpdate _ _) (mkWorld _ _)).
  - by apply (party_bounded (PRemoveRole _ _) (mkWorld _ _)).
Qed.

Lemma catalogue_bounded c v t : t = ctx_tenant (product_ctx c) -> catalogue_inv (w_db v) ->
  catalogue_inv (w_db (product_call_run c v))
  /\ forall tn, t <> Some tn -> catalogue_rows tn (w_db (product_call_run c v)) = catalogue_rows tn (w_db v).
Proof. intros -> Hi. split; [by apply (product_session_inv [c]) |]. intros tn Ht. by apply product_call_rows. Qed.

Lemma router_catalogue : Forall (leaves (re_tables catalogue)) (cfg_ModuleRoutes cfg) -> Forall (ruled catalogue) (router org_refused seq_refused cfg).
Proof.
  intros Hm. apply router_ruled; [apply _ |]. leave_groups. unfold product_routes. open_group.
  all: try solve [left; read_only; reads_catalogue].
  all: right; split; [act | by destruct (cfg_RateLimitEnabled cfg)].
  - by apply (catalogue_bounded (CallCreateUnit _ _) (mkWorld _ _)).
  - by apply (catalogue_bounded (CallCreateConversion _ _) (mkWorld _ _)).
  - by apply (catalogue_bounded (CallCreateProduct _ _) (mkWorld _ _)).
  - by apply (catalogue_bounded (CallCreateVariant _ _) (mkWorld _ _)).
  - by apply (catalogue_bounded (CallUpdateProduct _ _) (mkWorld _ _)).
  - by apply (catalogue_bounded (CallDeleteVariant _ _) (mkWorld _ _)).
Qed.
Lemma field_bounded c v t : t = Some (field_tenant c) -> cf_inv (w_db v) ->
  cf_inv (w_db (field_call c v)) /\ forall tn, t <> Some tn -> field_rows tn (w_db (field_call c v)) = field_rows tn (w_db v).
Proof. intros -> Hi. split; [by apply (field_session_inv [c]) |]. intros tn Ht. apply field_call_rows; [done | congruence]. Qed.

Lemma router_fields : Forall (leaves (re_tables custom_fields)) (cfg_ModuleRoutes cfg) -> Forall (ruled custom_fields) (router org_refused seq_refused cfg).
Proof.
  intros Hm. apply router_ruled; [apply _ |]. leave_groups. unfold custom_field_routes. open_group.
  all: try solve [left; read_only; unfold ListDefinitions, GetDefinition, GetEntityValues, repo_ListDefinitions, GetDefinitionByID, repo_GetEntityValues; frame].
  all: right; split; [act | by destruct (cfg_RateLimitEnabled cfg)].
  - by apply (field_bounded (FieldCreate _) (mkWorld _ _)).
  - by apply (field_bounded (FieldUpdate _) (mkWorld _ _)).
  - by apply (field_bounded (FieldDelete _ _) (mkWorld _ _)).
  - by apply (field_bounded (FieldSet _) (mkWorld _ _)).
Qed.

Lemma organization_bounded ctx c v t : t = ctx_tenant ctx -> Organizations.org_inv (w_db v) ->
  Organizations.org_inv (w_db (Organizations.organization_call org_refused ctx c v))
  /\ forall tn, t <> Some tn -> rows_in or_tenant_id tn (w_db (Organizations.organization_call org_refused ctx c v)) = rows_in or_tenant_id tn (w_db v).
Proof. intros -> Hi. split; [by apply Organizations.organization_call_inv |]. intros tn Ht. by apply Organizations.organization_call_rows. Qed.

Lemma router_organizations :
  Forall (leaves (re_tables organizations)) (cfg_ModuleRoutes cfg) -> Forall (ruled organizations) (router org_refused seq_refused cfg).
Proof.
  intros Hm. apply router_ruled; [apply _ |]. leave_groups. unfold organization_routes. open_group.
  all: try solve [left; read_only; unfold ListOrganizations, GetTree, GetOrganizationByID, ListOrganizations, Organization.GetByID; frame].
  all: right; split; [act | by destruct (cfg_RateLimitEnabled cfg)].
  - by apply (organization_bounded _ (Organizations.OrgCreate _) (mkWorld _ _)).
  - by apply (organization_bounded _ (Organizations.OrgUpdate _) (mkWorld _ _)).
Qed.
(** The handlers of documents work on the whole component. *)
Lemma acts_document m p gs : acts sequences (mkRoute m p gs (document_Create docUsecase)).
Proof.
  intros r h w _. cbn [rt_Handler]. unfold document_Create. apply bounded_body. intros cmd Hi. rewrite respond_zoom.
  set (v := mkWorld (app_docs (w_db w)) (w_tick w)). exact (number_taken_kept docUsecase _ _ _ _ (CreateDocument_number_taken docUsecase (req_ctx r) cmd v) Hi).
Qed.

Lemma leaves_transition m p gs : leaves (re_tables sequences) (mkRoute m p gs (document_Transition docUsecase)).
Proof.
  intros r h w. cbn [rt_Handler]. unfold document_Transition, with_id, with_body. repeat case_match; try done.
  all: rewrite respond_zoom; exact (TransitionDocument_keeps docUsecase _ _ (mkWorld (app_docs (w_db w)) (w_tick w))).
Qed.

Lemma sequence_bounded c v t : t = Some (Sequences.sequence_tenant c) -> keys_ok (w_db v) ->
  keys_ok (w_db (Sequences.sequence_call seq_refused c v))
  /\ forall tn, t <> Some tn -> rows_in sr_tenant_id tn (w_db (Sequences.sequence_call seq_refused c v)) = rows_in sr_tenant_id tn (w_db v).
Proof.
  intros -> Hi. pose proof (Sequences.sequence_call_write seq_refused c v) as Hw. apply Sequences.seq_write_kept in Hw as [Hk Hr]; [| done].
  split; [done |]. intros tn Ht. apply Hr. congruence.
Qed.

Lemma router_sequences : Forall (leaves (re_tables sequences)) (cfg_ModuleRoutes cfg) -> Forall (ruled sequences) (router org_refused seq_refused cfg).
Proof.
  intros Hm. apply router_ruled; [apply _ |]. leave_groups.
  - unfold sequence_routes. open_group.
    all: try solve [left; read_only; unfold ListSequences, GetSequence, PreviewNextNumber, SequenceStore.List; frame; apply reads_query; naive_solver].
    all: right; split; [act | by destruct (cfg_RateLimitEnabled cfg)].
    + by apply (sequence_bounded (Sequences.SeqCreate _) (mkWorld _ _)).
    + by apply (sequence_bounded (Sequences.SeqUpdate _) (mkWorld _ _)).
    + by apply (sequence_bounded (Sequences.SeqDelete _ _) (mkWorld _ _)).
    + by apply (sequence_bounded (Sequences.SeqAcquire _ _ _ _) (mkWorld _ _)).
  - unfold document_routes. open_group.
    + left. intros r h. apply respond_keeps, keeps_reads, reads_zoom, reads_ListDocuments.
    + left. intros r h. apply with_id_keeps. intros id. apply respond_keeps, keeps_reads, reads_zoom, reads_GetDocument.
    + right. split; [apply acts_document |]. by destruct (cfg_RateLimitEnabled cfg).
    + left. apply leaves_transition.
Qed.
(** *** Webhooks *)

Lemma endpoint_bounded c v t : t = Some (Endpoints.endpoint_tenant c) -> wh_inv (w_db v) ->
  wh_inv (w_db (Endpoints.endpoint_call c v))
  /\ forall tn, t <> Some tn -> Endpoints.webhook_rows tn (w_db (Endpoints.endpoint_call c v)) = Endpoints.webhook_rows tn (w_db v).
Proof.
  intros -> Hi. split.
  - destruct c; cbn [Endpoints.endpoint_call]; [by apply RegisterEndpoint_inv | by apply DeleteEndpoint_inv | by apply SetEndpointActive_inv].
  - intros tn Ht. eapply Endpoints.endpoint_write_rows; [apply Endpoints.endpoint_call_write | congruence | apply Hi |].
    intros k x Hx. apply (wi_deliveries _ Hi k x Hx).
Qed.

Lemma router_webhooks : Forall (leaves (re_tables webhooks)) (cfg_ModuleRoutes cfg) -> Forall (ruled webhooks) (router org_refused seq_refused cfg).
Proof.
  intros Hm. apply router_ruled; [apply _ |]. leave_groups. unfold webhook_routes. open_group.
  all: try solve [left; read_only; unfold ListEndpoints, ListDeliveries, ListDeliveriesByEndpoint, repo_ListEndpoints; frame; apply reads_query; naive_solver].
  all: right; split; [act | by destruct (cfg_RateLimitEnabled cfg)].
  - by apply (endpoint_bounded (Endpoints.EpRegister _) (mkWorld _ _)).
  - by apply (endpoint_bounded (Endpoints.EpDelete _ _) (mkWorld _ _)).
  - by apply (endpoint_bounded (Endpoints.EpSetActive _ _ true) (mkWorld _ _)).
  - by apply (endpoint_bounded (Endpoints.EpSetActive _ _ false) (mkWorld _ _)).
Qed.
(** *** Files *)

(** A part of the state that is a part of a component. *)
Lemma keeps_zoom_part {E X A} `{Lens AppDB E} (g : E -> X) (m : M E A) : keeps g m -> keeps (fun d => g (lens_get d)) (zoom m).
Proof.
  intros Hm w. unfold zoom. specialize (Hm (mkWorld (lens_get (w_db w)) (w_tick w))). destruct (m _) as [r w1]. cbn in *. by rewrite lens_get_set.
Qed.

(** Comments see the attachments and do not write them. *)
Lemma keeps_insert_files {R} `{Lens CommDB (gmap ID R)} idf req same refused (row : R) :
  (forall t d, co_files (lens_set (t : gmap ID R) d) = co_files d) -> keeps co_files (insert_into (D := CommDB) idf req same refused row).
Proof. intros Hf. apply keeps_query. intros d a d'. case_match; [| done | done]. case_match. intros [= _ <-]. apply Hf. Qed.

Lemma keeps_wrap_err {D X A} (g : D -> X) what (m : M D A) : keeps g m -> keeps g (wrap_err what m).
Proof. intros Hm. unfold wrap_err. apply keeps_bind; [by apply keeps_attempt |]. intros []; by intros w. Qed.

Ltac keep_files := repeat first
  [ apply keeps_ret | apply keeps_WithTx; intros ? | apply keeps_attempt | apply keeps_wrap_err | solve [apply keeps_reads; auto with go_frame]
  | apply zoom_keeps; intros ? ?; reflexivity | apply keeps_insert_files; intros ? ?; reflexivity
  | apply keeps_query; intros ? ? ?; [intros [= _ <-]; reflexivity]
  | apply keeps_bind; [| intros ?] | case_match ].

Lemma notify_files at_ cmd content now users : keeps co_files (notify at_ cmd content now users).
Proof. induction users as [|x users IH]; cbn [notify]; [by intros w |]. case_match; [exact IH |]. unfold CreateNotification. keep_files. exact IH. Qed.

Lemma CreateComment_files ctx cmd : keeps co_files (CreateComment commUsecase ctx cmd).
Proof.
  unfold CreateComment. keep_files. unfold store_comment, repo_CreateComment, comment_event, comment_audit. keep_files. apply notify_files.
Qed.
Lemma DeleteComment_files tn id actor : keeps co_files (DeleteComment tn id actor).
Proof. unfold DeleteComment, tenant_guard, GetCommentByID, repo_DeleteComment. keep_files. Qed.
Lemma MarkRead_files tn user id : keeps co_files (MarkNotificationRead tn user id).
Proof. unfold MarkNotificationRead, tenant_guard, repo_MarkNotificationRead. keep_files. Qed.
Lemma MarkAllRead_files tn user : keeps co_files (MarkAllNotificationsRead tn user).
Proof. unfold MarkAllNotificationsRead, tenant_guard, repo_MarkAllNotificationsRead. keep_files. Qed.

Lemma keeps_files_comm {A} (m : M CommDB A) : keeps co_files m -> keeps (re_tables files) (zoom (D := AppDB) m).
Proof. exact (keeps_zoom_part co_files m). Qed.
Lemma keeps_files_attach {A} (m : M AttachDB A) : keeps a_db m -> keeps (re_tables files) (zoom (D := AppDB) m).
Proof. exact (keeps_zoom_part a_db m). Qed.

Lemma GetFile_keeps base tn id : keeps a_db (GetFile base tn id).
Proof.
  unfold GetFile. apply keeps_bind; [apply keeps_reads, reads_zoom, Files.reads_GetFileByID | intros f].
  apply keeps_bind; [apply keeps_attempt, keeps_zoom_db |]. intros []; by intros w.
Qed.

Lemma file_bounded base max c w : let v := mkWorld (app_attach (w_db w)) (w_tick w) in
  bounded files (Some (Files.file_tenant c)) (w_db w) (lens_set (w_db (Files.file_call base max c v)) (w_db w)).
Proof. intros v Hi. destruct (Files.file_call_kept base max c v Hi) as [Ho Hr]. split; [exact Ho |]. intros tn Ht. apply Hr. congruence. Qed.

(** Through a handler to its call. *)
Ltac reach_call := enter_handler; repeat first
  [ apply with_tenant_keeps; intros ? | apply with_id_keeps; intros ? | apply with_body_keeps; intros ? | apply keeps_ret | apply respond_keeps | case_match ].

Lemma reads_ListEntityComments tn e id : reads (ListEntityComments tn e id).
Proof. unfold ListEntityComments. apply reads_bind; [apply reads_tenant_guard | intros _; apply reads_ListComments]. Qed.
Lemma reads_ListNotifications tn user unread limit offset : reads (ListNotifications tn user unread limit offset).
Proof.
  unfold ListNotifications, ListNotificationsByUser, CountUnreadNotifications. apply reads_bind; [apply reads_tenant_guard | intros _]. cbv zeta.
  apply reads_bind; [apply reads_query; intros d a d'; case_match; naive_solver | intros items].
  apply reads_bind; [apply reads_query; naive_solver | intros n; apply reads_ret].
Qed.

Lemma communication_files : Forall (leaves (re_tables files)) communication_routes.
Proof.
  unfold communication_routes. repeat first [apply leaves_under | apply Forall_app; split | apply Forall_cons; split | apply Forall_nil; exact I].
  all: reach_call; apply keeps_files_comm.
  all: lazymatch goal with
    | |- keeps _ (CreateComment _ _ _) => apply CreateComment_files
    | |- keeps _ (DeleteComment _ _ _) => apply DeleteComment_files
    | |- keeps _ (MarkNotificationRead _ _ _) => apply MarkRead_files
    | |- keeps _ (MarkAllNotificationsRead _ _) => apply MarkAllRead_files
    | |- keeps _ (ListEntityComments _ _ _) => apply keeps_reads, reads_ListEntityComments
    | |- keeps _ (ListNotifications _ _ _ _ _) => apply keeps_reads, reads_ListNotifications
    | |- keeps _ (GetUnifiedTimeline _ _ _ _) => apply keeps_reads, reads_GetUnifiedTimeline
    end.
Qed.

(** The endpoints of files that write. *)
Ltac act_on_files := let r := fresh "r" in let h := fresh "h" in let w := fresh "w" in intros r h w _; cbn [rt_Handler];
  lazymatch goal with |- bounded _ _ _ (w_db (?f _ _ _).2) => unfold_head f end;
  apply bounded_tenant; intros ? ?; repeat first [ apply bounded_id; intros ? | apply bounded_body; intros ? | case_match ];
  try apply bounded_refl; rewrite respond_zoom.

Lemma acts_files m p gs (f : Handler AppDB) :
  f ∈ [file_Upload (cfg_StoragePath cfg) DefaultMaxFileSize; file_Delete (cfg_StoragePath cfg); attachment_Attach; attachment_Detach] ->
  acts files (mkRoute m p gs f).
Proof.
  intros Hf. repeat (apply elem_of_cons in Hf as [->|Hf]); [act_on_files .. | by apply not_elem_of_nil in Hf].
  all: lazymatch goal with
    | |- context [UploadFile _ _ _ _] => exact (file_bounded (cfg_StoragePath cfg) DefaultMaxFileSize (Files.FileUpload _) w)
    | |- context [DeleteFile _ _ _ _] => exact (file_bounded (cfg_StoragePath cfg) DefaultMaxFileSize (Files.FileDelete _ _) w)
    | |- context [AttachFile _ _] => exact (file_bounded (cfg_StoragePath cfg) DefaultMaxFileSize (Files.FileAttach _) w)
    | |- context [DetachFile _ _ _] => exact (file_bounded (cfg_StoragePath cfg) DefaultMaxFileSize (Files.FileDetach _ _) w)
    end.
Qed.

Lemma router_files : Forall (leaves (re_tables files)) (cfg_ModuleRoutes cfg) -> Forall (ruled files) (router org_refused seq_refused cfg).
Proof.
  intros Hm. apply router_ruled; [apply _ |]. leave_groups.
  2: { apply leaves_mounted, communication_files. }
  unfold attachment_routes. open_group.
  all: try (right; split; [apply acts_files; set_solver | by destruct (cfg_RateLimitEnabled cfg)]).
  all: left; reach_call; apply keeps_files_attach.
  - apply keeps_reads, reads_zoom, Files.reads_GetFileByID.
  - apply GetFile_keeps.
  - unfold ListEntityAttachments. apply keeps_reads, reads_bind; [apply reads_guard | intros _]. apply reads_zoom, reads_query. naive_solver.
Qed.

(** ** All of them *)

Inductive Kind := KParties | KCatalogue | KFields | KOrganizations | KSequences | KWebhooks | KFiles.

Definition realm_of (k : Kind) : Realm :=
  match k with
  | KParties => parties
  | KCatalogue => catalogue
  | KFields => custom_fields
  | KOrganizations => organizations
  | KSequences => sequences
  | KWebhooks => webhooks
  | KFiles => files
  end.

#[export] Instance realm_of_laws k : RealmLaws (realm_of k).
Proof. destruct k; apply _. Qed.

Lemma router_of k : Forall (leaves (re_tables (realm_of k))) (cfg_ModuleRoutes cfg) -> Forall (ruled (realm_of k)) (router org_refused seq_refused cfg).
Proof.
  destruct k; [apply router_parties | apply router_catalogue | apply router_fields | apply router_organizations | apply router_sequences
    | apply router_webhooks | apply router_files].
Qed.

(** C7: The data of a tenant is guarded.  Take parties with their roles, addresses and
    contacts; units, conversions, products and variants; custom fields and their
    values; organizations; number sequences; webhook endpoints and deliveries; or
    files and attachments.  Through any sequence of requests to any routes, with any
    credentials, bodies and failures, the tables keep their invariant, and the rows
    of a tenant stay exactly as they were unless one of the requests, to a route
    behind a permission for that kind of data, carries a credential that is accepted
    in the database it finds, holds such a permission and belongs to that tenant, or
    to no tenant while the request names this one in its header.  The permissions for
    a kind of data are those of its own routes; for number sequences also
    document:create, since a new document takes its number from a sequence.  Modules
    are taken to leave these tables alone. *)
Theorem tenant_data_guarded (k : Kind) (reqs : list (Route * Middleware.Request)) (w : World AppDB) (tn : ID) :
  let tables := re_tables (realm_of k) in let inv := re_inv (realm_of k) in let rows := re_rows (realm_of k) in
  Forall (leaves tables) (cfg_ModuleRoutes cfg) ->
  Forall (fun q => q.1 ∈ router org_refused seq_refused cfg /\ req_ctx q.2 = Background) reqs ->
  inv (tables (w_db w)) -> tn <> NilID ->
  inv (tables (w_db (api_session cfg reqs w)))
  /\ (rows tn (tables (w_db (api_session cfg reqs w))) = rows tn (tables (w_db w))
      \/ session_writer cfg (realm_of k) tn reqs w).
Proof. intros tables inv rows Hm. apply (realm_session org_refused seq_refused cfg (realm_of k)). by apply router_of. Qed.
End TenantData.

Import AppDemo.

(** A clerk of tenant 7 creates a party; a rival of tenant 8 tries to rename it, is
    told that there is no such party, and creates one of its own with the same code:
    the rows of tenant 7 stay. *)
Lemma tenant_data_guarded_witness :
  let create := find_route POST "/api/v1/parties/" in
  let update := find_route PUT "/api/v1/parties/{id}" in
  let w := api_session config [(create, bearer "clerk" ∅ "party")] world in
  let reqs := [(update, bearer "rival" {["id" := "3"]} "rename"); (create, bearer "rival" ∅ "party")] in
  let w' := api_session config reqs w in
  map (fun kr => (kr.1, p_TenantID kr.2, Parties.p_Name kr.2)) (map_to_list (pa_parties (app_parties (w_db w')))) = [(11%N, 8%N, "Acme"); (3%N, 7%N, "Acme")]
  /\ party_inv (app_parties (w_db w'))
  /\ party_rows 7%N (app_parties (w_db w')) = party_rows 7%N (app_parties (w_db w)).
Proof.
  intros create update w reqs w'. split; [vm_compute; reflexivity |].
  destruct (tenant_data_guarded (fun _ => None) (fun _ => None) config KParties reqs w 7%N) as [Hi [E|Hw]]; [constructor | | | done | exact (conj Hi E) |].
  - repeat constructor; apply find_route_in; vm_compute; reflexivity.
  - apply (realm_session (fun _ => None) (fun _ => None) config parties [(create, bearer "clerk" ∅ "party")] world 7%N); [apply router_parties; constructor | | exact PartyDemo.empty_party_inv | done].
    repeat constructor; apply find_route_in; vm_compute; reflexivity.
  - exfalso. do 2 (apply session_writer_cons in Hw as [Hw|Hw]; [by apply demo_writer in Hw; [| set_solver] |]). by apply session_writer_nil in Hw.
Defined.
