(* ===== verification/Rpc.v ===== *)
(** * RPC services

    [internal/core/delivery/rpc]: the ping and the party service, which clients
    reach over ConnectRPC and over gRPC, behind the interceptors of [Middleware].
    The messages are those of [proto/mergiate/v1]; a message that was not set reads
    as its zero value. *)

From S2P Require Import Prelude GoStrings GoTime GoFloat Sdk Tables Parties RateLimit Middleware Http App.
#[local] Open Scope string_scope.
#[local] Open Scope list_scope.
#[local] Open Scope Z_scope.

(** ** Messages *)

Record pbPartyRole := mkPbPartyRole {
  pbr_Id : string; pbr_TenantId : string; pbr_PartyId : string; pbr_OrganizationId : string; pbr_RoleType : string; pbr_Status : string;
  pbr_CreatedAt : string; pbr_UpdatedAt : string;
}.
Record pbParty := mkPbParty {
  pbp_Id : string; pbp_TenantId : string; pbp_Type : string; pbp_Code : string; pbp_Name : string; pbp_LegalName : string;
  pbp_TaxId : string; pbp_Status : string; pbp_Roles : list pbPartyRole; pbp_CreatedAt : string; pbp_UpdatedAt : string;
}.
Record ContactAddress := mkContactAddress {
  pba_Id : string; pba_Type : string; pba_Label : string; pba_Line1 : string; pba_Line2 : string; pba_City : string; pba_State : string;
  pba_PostalCode : string; pba_CountryCode : string; pba_IsPrimary : bool;
}.
Record ContactItem := mkContactItem { pbc_Id : string; pbc_Type : string; pbc_Value : string; pbc_Label : string; pbc_IsPrimary : bool }.

Record GetPartyRequest := mkGetPartyRequest { gpr_Id : string }.
Record GetPartyResponse := mkGetPartyResponse {
  gps_Party : pbParty; gps_Addresses : list ContactAddress; gps_Contacts : list ContactItem;
}.
Record CreatePartyRequest := mkCreatePartyRequest {
  cpr_Type : string; cpr_Code : string; cpr_Name : string; cpr_LegalName : string; cpr_TaxId : string; cpr_InitialRoles : list string;
}.
Record CreatePartyResponse := mkCreatePartyResponse { cps_Party : pbParty }.
Record ListPartiesRequest := mkListPartiesRequest { lpr_Page : Z; lpr_PageSize : Z; lpr_PartyType : string; lpr_RoleType : string }.
Record ListPartiesResponse := mkListPartiesResponse { lps_Items : list pbParty; lps_Total : Z; lps_Page : Z; lps_PageSize : Z }.
Record PingResponse := mkPingResponse { pg_Message : string; pg_Version : string; pg_Timestamp : Z }.

(** ** Errors *)

(** The codes that Connect and gRPC share. *)
Inductive Code := NotFound | AlreadyExists | PermissionDenied | UnauthenticatedCode | InvalidArgument | Internal.

Record RpcError := mkRpcError { re_Code : Code; re_Message : string }.

Definition toConnectError (err : error) : RpcError :=
  if errors_Is err ErrNotFound then mkRpcError NotFound (Error err)
  else if errors_Is err ErrAlreadyExists then mkRpcError AlreadyExists (Error err)
  else if errors_Is err ErrForbidden || errors_Is err ErrTenantSuspended then mkRpcError PermissionDenied (Error err)
  else if errors_Is err ErrUnauthorized then mkRpcError UnauthenticatedCode (Error err)
  else if errors_Is err ErrInvalidInput || errors_Is err ErrTenantRequired then mkRpcError InvalidArgument (Error err)
  else mkRpcError Internal (Error err).

Definition toGRPCError (err : error) : RpcError :=
  if errors_Is err ErrNotFound then mkRpcError NotFound (Error err)
  else if errors_Is err ErrAlreadyExists then mkRpcError AlreadyExists (Error err)
  else if errors_Is err ErrForbidden || errors_Is err ErrTenantSuspended then mkRpcError PermissionDenied (Error err)
  else if errors_Is err ErrUnauthorized then mkRpcError UnauthenticatedCode (Error err)
  else if errors_Is err ErrInvalidInput || errors_Is err ErrTenantRequired then mkRpcError InvalidArgument (Error err)
  else mkRpcError Internal (Error err).

(** [status.Errorf(codes.InvalidArgument, ...)]: an error value of its own, which
    wraps no other. *)
Definition status_InvalidArgument (msg : string) : error := ENew ("rpc error: code = InvalidArgument desc = " +:+ msg).

(** ** The party service *)

Section PartyService.
  Context `{UUIDLib, UnicodeTables, Env, Pg, PartyServer}.

Definition role_message (r : PartyRole) : pbPartyRole :=
  mkPbPartyRole (uuid_String (pr_ID r)) (uuid_String (pr_TenantID r)) (uuid_String (pr_PartyID r))
    (match pr_OrganizationID r with Some id => uuid_String id | None => "" end) (pr_RoleType r) (pr_Status r)
    (Format_RFC3339 (pr_CreatedAt r)) (Format_RFC3339 (pr_UpdatedAt r)).

Definition mapDomainPartyToProto (p : Party) : pbParty :=
  mkPbParty (uuid_String (p_ID p)) (uuid_String (p_TenantID p)) (p_Type p) (p_Code p) (p_Name p) (p_LegalName p) (p_TaxID p) (p_Status p)
    (map role_message (p_Roles p)) (Format_RFC3339 (p_CreatedAt p)) (Format_RFC3339 (p_UpdatedAt p)).

Definition address_message (a : Address) : ContactAddress :=
  mkContactAddress (uuid_String (a_ID a)) (a_Type a) (a_Label a) (a_Line1 a) (a_Line2 a) (a_City a) (a_State a) (a_PostalCode a)
    (a_CountryCode a) (a_IsPrimary a).
Definition contact_message (c : Contact) : ContactItem :=
  mkContactItem (uuid_String (c_ID c)) (c_Type c) (c_Value c) (c_Label c) (c_IsPrimary c).

Definition getPartyCore (ctx : Ctx) (req : GetPartyRequest) : M PartyDB GetPartyResponse :=
  match ParseID (gpr_Id req) with
  | Ok id =>
      detail <- GetParty ctx id ;;
      ret (mkGetPartyResponse (mapDomainPartyToProto (pd_Party detail)) (map address_message (pd_Addresses detail))
             (map contact_message (pd_Contacts detail)))
  | Err err => fail (status_InvalidArgument ("invalid party id: " +:+ Error err))
  | Panic e => panic e
  end.

Definition createPartyCore (ctx : Ctx) (req : CreatePartyRequest) : M PartyDB CreatePartyResponse :=
  party <- CreateParty ctx (mkCreateParty (cpr_Type req) (cpr_Code req) (cpr_Name req) (cpr_LegalName req) (cpr_TaxId req) None
             (cpr_InitialRoles req)) ;;
  ret (mkCreatePartyResponse (mapDomainPartyToProto party)).

Definition listPartiesCore (ctx : Ctx) (req : ListPartiesRequest) : M PartyDB ListPartiesResponse :=
  let page := if lpr_Page req <=? 0 then 1 else lpr_Page req in
  let pageSize := if lpr_PageSize req <=? 0 then 20 else lpr_PageSize req in
  res <- ListParties ctx page pageSize (optional (lpr_PartyType req)) (optional (lpr_RoleType req)) ;;
  ret (mkListPartiesResponse (map mapDomainPartyToProto (pl_Items res)) (pl_Total res) (pl_Page res) (pl_PageSize res)).
End PartyService.

(** ** The ping service *)

Definition NewPingServiceServer (version : string) : string := if String.eqb version "" then "1.0.0" else version.

Definition Ping `{Env} {D} (version message : string) : M D PingResponse :=
  let msg := if String.eqb message "" then "pong" else message in
  now <- Now ;;
  ret (mkPingResponse msg version (Unix now)).

Definition PingGRPC `{Env} {D} (version message : string) : M D PingResponse :=
  let msg := if String.eqb message "" then "pong" else message in
  now <- Now ;;
  ret (mkPingResponse msg version (Unix now)).

(** ** Calls *)

Definition ping_proc : string := "/mergiate.v1.PingService/Ping".
Definition GetParty_proc : string := "/mergiate.v1.PartyService/GetParty".
Definition CreateParty_proc : string := "/mergiate.v1.PartyService/CreateParty".
Definition ListParties_proc : string := "/mergiate.v1.PartyService/ListParties".

(** What a client sees: a reply, or an error with its code. *)
Definition answered {A} (r : rpc_result (A + RpcError)) : A + RpcError :=
  match r with RpcReply a => a | Unauthenticated err => inr (mkRpcError UnauthenticatedCode (Error err)) end.

Section Calls.
  Context {D : Type} `{UUIDLib, Env, GoPlatform, TokenManager D}.
  Variable kv : option (APIKeyValidator D).

Definition caught {A} (f : error -> RpcError) (m : M D A) : M D (A + RpcError) :=
  r <- attempt m ;;
  match r with inl a => ret (inl a) | inr err => ret (inr (f err)) end.

(** A procedure over Connect, with the headers of the request, and over gRPC, with
    its metadata; [NewServer] adds no public procedure. *)
Definition connect_call {A} (proc : string) (core : Ctx -> M D A) (headers : gmap string string) (ctx : Ctx) : M D (A + RpcError) :=
  r <- ConnectInterceptor kv (publicProcs []) proc headers (fun ctx => caught toConnectError (core ctx)) ctx ;; ret (answered r).
Definition grpc_call {A} (proc : string) (core : Ctx -> M D A) (md : option (gmap string (list string))) (ctx : Ctx) : M D (A + RpcError) :=
  r <- GRPCUnaryInterceptor kv (publicProcs []) proc md (fun ctx => caught toGRPCError (core ctx)) ctx ;; ret (answered r).
End Calls.

Section Services.
  Context {D : Type} `{UUIDLib, UnicodeTables, Env, Pg, PartyServer, GoPlatform, TokenManager D, Lens D PartyDB}.
  Variable kv : option (APIKeyValidator D).

Definition connect_GetParty headers ctx req := connect_call kv GetParty_proc (fun ctx => zoom (getPartyCore ctx req)) headers ctx.
Definition connect_CreateParty headers ctx req := connect_call kv CreateParty_proc (fun ctx => zoom (createPartyCore ctx req)) headers ctx.
Definition connect_ListParties headers ctx req := connect_call kv ListParties_proc (fun ctx => zoom (listPartiesCore ctx req)) headers ctx.
Definition connect_Ping version headers ctx message :=
  connect_call kv ping_proc (fun _ => Ping (NewPingServiceServer version) message) headers ctx.

Definition grpc_GetParty md ctx req := grpc_call kv GetParty_proc (fun ctx => zoom (getPartyCore ctx req)) md ctx.
Definition grpc_CreateParty md ctx req := grpc_call kv CreateParty_proc (fun ctx => zoom (createPartyCore ctx req)) md ctx.
Definition grpc_ListParties md ctx req := grpc_call kv ListParties_proc (fun ctx => zoom (listPartiesCore ctx req)) md ctx.
Definition grpc_Ping version md ctx message :=
  grpc_call kv ping_proc (fun _ => PingGRPC (NewPingServiceServer version) message) md ctx.
End Services.

(** ** Lemmas *)

(** The HTTP status that says the same as a code. *)
Definition status_of (c : Code) : Z :=
  match c with
  | NotFound => StatusNotFound | AlreadyExists => StatusConflict | PermissionDenied => StatusForbidden
  | UnauthenticatedCode => StatusUnauthorized | InvalidArgument => StatusBadRequest | Internal => StatusInternalServerError
  end.

(** Errors about amounts and units, which only the HTTP replies tell apart. *)
Definition value_errors : list Sentinel := [ErrInvalidCurrency; ErrInvalidAmount; ErrUnitMismatch; ErrCurrencyMismatch].

(** A chain of errors has at most one sentinel, at its end. *)
Fixpoint root_sentinel (err : error) : option Sentinel :=
  match err with ESentinel s => Some s | ENew _ => None | EWrap _ inner _ => root_sentinel inner end.

Lemma errors_Is_root err s : errors_Is err s = bool_decide (root_sentinel err = Some s).
Proof.
  induction err as [s'|m|p inner IH q]; cbn [errors_Is root_sentinel]; [| done | done]. apply bool_decide_ext. naive_solver.
Qed.

Lemma codes_match_statuses h err :
  rp_Status (FromDomainError h err) =
    (if existsb (errors_Is err) value_errors then StatusBadRequest else status_of (re_Code (toConnectError err))).
Proof.
  unfold FromDomainError, toConnectError, value_errors. cbn [existsb]. rewrite !errors_Is_root.
  destruct (root_sentinel err) as [s|]; [destruct s |]; reflexivity.
Qed.

Section CallLemmas.
  Context {D : Type} `{UUIDLib, Env, GoPlatform, TokenManager D}.
  Variable kv : option (APIKeyValidator D).

(** The first value of a metadata key. *)
Definition first_value (md : gmap string (list string)) (key : string) : string := default "" (vals ← md !! key; head vals).

Lemma grpc_connect {A} proc (core : Ctx -> M D A) headers md ctx w :
  default "" (headers !! "Authorization") = first_value md "authorization" ->
  default "" (headers !! "X-Api-Key") = first_value md "x-api-key" ->
  grpc_call kv proc core (Some md) ctx w = connect_call kv proc core headers ctx w.
Proof.
  intros E1 E2. unfold grpc_call, connect_call, GRPCUnaryInterceptor, ConnectInterceptor. rewrite E1, E2. reflexivity.
Qed.

(** What the outcome of a procedure is to the client. *)
Definition outcome {A} (r : res A * World D) : res (A + RpcError) * World D :=
  match r with
  | (Ok a, w) => (Ok (inl a), w)
  | (Err e, w) => (Ok (inr (toConnectError e)), w)
  | (Panic e, w) => (Panic e, w)
  end.

Lemma caught_outcome {A} (m : M D A) w : caught toConnectError m w = outcome (m w).
Proof. unfold caught, bind, attempt. by destruct (m w) as [[a|e|e] w1]. Qed.

Lemma connect_call_cases {A} proc headers ctx w :
  proc ∉ publicProcs [] ->
  (exists rep w', (forall core : Ctx -> M D A, connect_call kv proc core headers ctx w = (rep, w'))
     /\ match rep with Ok (inr e) => re_Code e = UnauthenticatedCode | Panic _ => True | _ => False end)
  \/ exists c w1, authenticated kv ctx "" (default "" (headers !! "Authorization")) (default "" (headers !! "X-Api-Key")) w c w1
       /\ forall core : Ctx -> M D A, connect_call kv proc core headers ctx w = outcome (core (inject ctx c) w1).
Proof.
  intros Hp. destruct (ConnectInterceptor_gate (A := A + RpcError) kv (publicProcs []) proc headers ctx w Hp)
    as [(rep & w' & E & Hrep)|(c & w1 & Ha & E)].
  - left. destruct rep as [[a|err]|e|e]; try done.
    + exists (Ok (inr (mkRpcError UnauthenticatedCode (Error err)))), w'. split; [| done]. intros core. unfold connect_call, bind at 1. by rewrite E.
    + exists (Panic e), w'. split; [| done]. intros core. unfold connect_call, bind at 1. by rewrite E.
  - right. exists c, w1. split; [done |]. intros core. unfold connect_call, bind at 1. rewrite E. unfold bind at 1.
    rewrite caught_outcome. by destruct (core (inject ctx c) w1) as [[a|e|e] w2].
Qed.
End CallLemmas.

(** ** Properties *)

(** C27: A procedure of the RPC services that is not public runs only for the claims
    of an accepted credential, with their tenant in its context, and answers with
    the result of the use case or with the code of its error; otherwise the call is
    Unauthenticated whatever the procedure is.  Connect and gRPC give the same
    answer to the same credentials.  The code of an error of the use case says the
    same as the status of the HTTP interface, with one exception that the theorem
    states: the four errors about amounts, currencies and units are 400 over HTTP and
    Internal over RPC.  (A malformed identifier never gets to the use case; it too is
    Internal over RPC, see [rpc_gaps].) *)
Theorem rpc_call_exact {D} `{UUIDLib, Env, GoPlatform, TokenManager D} (kv : option (APIKeyValidator D)) {A}
    (proc : string) (headers : gmap string string) (md : gmap string (list string)) (ctx : Ctx) (w : World D) :
  proc ∉ publicProcs [] ->
  default "" (headers !! "Authorization") = first_value md "authorization" ->
  default "" (headers !! "X-Api-Key") = first_value md "x-api-key" ->
  ((exists rep w', (forall core : Ctx -> M D A, connect_call kv proc core headers ctx w = (rep, w'))
      /\ match rep with Ok (inr e) => re_Code e = UnauthenticatedCode | Panic _ => True | _ => False end)
   \/ exists c w1, authenticated kv ctx "" (default "" (headers !! "Authorization")) (default "" (headers !! "X-Api-Key")) w c w1
        /\ (ac_TenantID c <> NilID -> ctx_tenant (inject ctx c) = Some (ac_TenantID c))
        /\ forall core : Ctx -> M D A, connect_call kv proc core headers ctx w = outcome (core (inject ctx c) w1))
  /\ (forall core : Ctx -> M D A, grpc_call kv proc core (Some md) ctx w = connect_call kv proc core headers ctx w)
  /\ forall h err, rp_Status (FromDomainError h err) =
       (if existsb (errors_Is err) value_errors then StatusBadRequest else status_of (re_Code (toGRPCError err)))
       /\ Forall (fun e => re_Code (toGRPCError (ESentinel e)) = Internal) value_errors.
Proof.
  intros Hp E1 E2. split; [| split; [intros; by apply grpc_connect | intros; split; [apply codes_match_statuses | by repeat constructor]]].
  destruct (connect_call_cases (A := A) kv proc headers ctx w Hp) as [Hb|(c & w1 & Ha & E)]; [by left | right].
  exists c, w1. split_and!; [done | | done]. intros Hn. destruct (inject_tenant ctx c) as [Et _]. rewrite Et. by rewrite decide_False.
Qed.

Import AppDemo.
#[local] Hint Extern 0 (TokenManager AppDB) => exact (tokenManager config) : typeclass_instances.

Definition guest_headers : gmap string string := {[ "Authorization" := "Bearer guest" ]}.
Definition guest_md : gmap string (list string) := {[ "authorization" := ["Bearer guest"] ]}.
Definition acme : CreatePartyRequest := mkCreatePartyRequest "" "P1" " Acme " "" "" ["customer"].

Lemma rpc_call_exact_witness :
  let create := (fun ctx => zoom (createPartyCore ctx acme)) : Ctx -> M AppDB CreatePartyResponse in
  grpc_call (Some apiKeyValidator) CreateParty_proc create (Some guest_md) Background world
    = connect_call (Some apiKeyValidator) CreateParty_proc create guest_headers Background world
  /\ match (connect_call (Some apiKeyValidator) CreateParty_proc create guest_headers Background world).1 with
     | Ok (inl r) => pbp_Name (cps_Party r) = "Acme" /\ pbp_TenantId (cps_Party r) = "7" | _ => False end.
Proof.
  intros create. split; [| vm_compute; by split].
  apply (rpc_call_exact (Some apiKeyValidator) CreateParty_proc guest_headers guest_md Background world);
    [by apply (bool_decide_unpack _); vm_compute | by vm_compute | by vm_compute].
Defined.

(** Gaps: the service asks for no permission, so a user who may not create parties
    over HTTP creates one over RPC; and an identifier that is not a UUID is an
    Internal error, although the service says InvalidArgument. *)
Theorem rpc_gaps :
  status (call POST "/api/v1/parties/" (bearer "guest" ∅ "") world) = Some StatusForbidden
  /\ (match (connect_CreateParty (Some apiKeyValidator) guest_headers Background acme world).1 with Ok (inl _) => True | _ => False end)
  /\ match (connect_GetParty (Some apiKeyValidator) guest_headers Background (mkGetPartyRequest "x") world).1 with
     | Ok (inr e) => re_Code e = Internal
         /\ re_Message e = "rpc error: code = InvalidArgument desc = invalid party id: invalid input data: invalid UUID format"
     | _ => False end.
Proof. by vm_compute. Qed.
