(* ===== verification/Bootstrap.v ===== *)
(** * Bootstrap

    [pkg/bootstrap/bootstrap.go]: the default tenant, organization and owner, the
    system roles and their permissions.  It works on the tables of [Identity] and
    [Organization] through their repositories, without a transaction. *)

From S2P Require Import Prelude GoStrings GoTime GoFloat Sdk Tables Organization Tenants Auth Identity.
#[local] Open Scope string_scope.
#[local] Open Scope list_scope.
#[local] Open Scope Z_scope.

(** ** State *)

Record SeedDB := mkSeedDB { sb_iam : IamDB; sb_orgs : OrgTable }.

#[export] Instance Lens_sb_iam : Lens SeedDB IamDB.
Proof. refine {| lens_get := sb_iam; lens_set x d := mkSeedDB x (sb_orgs d) |}; by intros; repeat match goal with d : SeedDB |- _ => destruct d end. Defined.
#[export] Instance Lens_sb_orgs : Lens SeedDB OrgTable.
Proof. refine {| lens_get := sb_orgs; lens_set x d := mkSeedDB (sb_iam d) x |}; by intros; repeat match goal with d : SeedDB |- _ => destruct d end. Defined.

(** ** Configuration and result *)

Record SeedConfig := mkSeedConfig {
  sc_Email : string; sc_Password : string; sc_Name : string; sc_TenantCode : string; sc_TenantName : string;
  sc_OrgCode : string; sc_OrgName : string;
}.

Record SeedResult := mkSeedResult {
  sr_TenantCreated : bool; sr_TenantID : ID; sr_OrgCreated : bool; sr_OrgID : ID; sr_UserCreated : bool; sr_UserID : ID;
  sr_MemberCreated : bool; sr_RolesCreated : Z; sr_RolesSkipped : Z; sr_UserRoleCreated : bool;
}.

Definition or_default (s dflt : string) : string := if String.eqb s "" then dflt else s.

Definition with_defaults (cfg : SeedConfig) : SeedConfig :=
  mkSeedConfig (sc_Email cfg) (sc_Password cfg) (or_default (sc_Name cfg) "Owner Administrator") (or_default (sc_TenantCode cfg) "akordium")
    (or_default (sc_TenantName cfg) "Akordium Lab") (or_default (sc_OrgCode cfg) "main") (or_default (sc_OrgName cfg) "Akordium Main Org").

(** ** Roles *)

Record roleDef := mkRoleDef { rd_code : string; rd_name : string; rd_description : string; rd_getPermIDs : list Permission -> list ID }.

(** [permMap]: a later permission with the same code replaces an earlier one. *)
Definition perm_map (perms : list Permission) : gmap string ID := fold_left (fun m p => <[perm_Code p := perm_ID p]> m) perms ∅.

Definition resolveCodes (codes : list string) (permMap : gmap string ID) : list ID := omap (fun c => permMap !! c) codes.

Definition named (codes : list string) (perms : list Permission) : list ID := resolveCodes codes (perm_map perms).

Definition finance_codes : list string :=
  ["document:create"; "document:read"; "document:update"; "document:transition"; "document:delete"; "audit:read"; "sequence:manage";
   "file:read"; "file:upload"; "file:delete"; "attachment:manage"; "comment:create"; "comment:read"; "comment:delete"; "notification:read"].
Definition sales_codes : list string :=
  ["party:create"; "party:read"; "party:update"; "party:delete"; "product:read"; "document:create"; "document:read"; "attachment:manage";
   "file:read"; "file:upload"; "comment:create"; "comment:read"; "notification:read"].
Definition project_manager_codes : list string :=
  ["document:create"; "document:read"; "document:update"; "document:transition"; "document:delete"; "party:read"; "audit:read";
   "comment:create"; "comment:read"; "comment:delete"; "attachment:manage"; "file:read"; "file:upload"; "file:delete"; "notification:read"].
Definition staff_codes : list string :=
  ["document:read"; "party:read"; "product:read"; "organization:read"; "audit:read"; "file:read"; "comment:read"; "notification:read"].

Definition rolesToSeed : list roleDef := [
  mkRoleDef "owner" "Owner" "Tenant owner with full system privileges (* wildcard and all permissions)" (map perm_ID);
  mkRoleDef "admin" "Administrator" "Tenant administrator with full operational privileges (except tenant:manage)"
    (fun perms => map perm_ID (List.filter (fun p => negb (String.eqb (perm_Code p) "tenant:manage") && negb (String.eqb (perm_Code p) "*")) perms));
  mkRoleDef "finance" "Finance Manager" "Finance management: document lifecycle, audit logs, sequences, and comments" (named finance_codes);
  mkRoleDef "sales" "Sales Representative" "Sales management: parties, products, document creation, comments, and attachments" (named sales_codes);
  mkRoleDef "project_manager" "Project Manager" "Project manager: documents, parties, audit logs, comments, and attachments"
    (named project_manager_codes);
  mkRoleDef "staff" "Staff Member" "Staff read-only privileges across business domains" (named staff_codes)
].

(** ** Run *)

Section Run.
  Context `{UnicodeTables, Env, Pg, TenantServer, IamServer, Bcrypt}.
  Variable org_refused : OrgRow -> option error.

(** [x, err := get(); if err != nil && err != ErrNotFound { return ... }]: the
    value, or nil when there is none; the error is compared by identity. *)
Definition lookup_or_nil {D A} (what : string) (get : M D A) : M D (option A) :=
  r <- attempt get ;;
  match r with
  | inl a => ret (Some a)
  | inr err => if err_eq err ErrNotFound then ret None else fail (EWrap (what +:+ ": ") err "")
  end.

Definition wildcard : string := "*".

(** INSERT ... ON CONFLICT (code) DO NOTHING with an identifier of the server. *)
Definition insert_wildcard : M IamDB unit :=
  id <- NewID ;;
  query (fun d =>
    if existsb (fun p => String.eqb (perm_Code p) wildcard) (select_rows (fun _ => true) (iam_permissions d)) then Ok (tt, d)
    else if bool_decide (is_Some (iam_permissions d !! id)) then Err pg_unique_violation
    else Ok (tt, mkIamDB (iam_tenants d) (iam_users d) (iam_members d) (iam_roles d)
                   (<[id := mkPermission id wildcard "Superuser Wildcard" "system" "Wildcard permission granting full system access"]>
                      (iam_permissions d)) (iam_role_permissions d) (iam_user_roles d))).

Definition seed_tenant (cfg : SeedConfig) : M IamDB (Tenant * bool) :=
  found <- lookup_or_nil ("check tenant " +:+ sc_TenantCode cfg) (repo_GetByCode (sc_TenantCode cfg)) ;;
  match found with
  | Some tenant => ret (tenant, false)
  | None =>
      tID <- NewID ;;
      created <- NowUTC ;;
      updated <- NowUTC ;;
      tenant <- wrap_err "create tenant" (repo_Create (mkTenant tID (sc_TenantCode cfg) (sc_TenantName cfg) TenantStatusActive
                  (Some {[ "locale" := AString "id_ID"; "currency" := AString "IDR" ]}) created updated)) ;;
      ret (tenant, true)
  end.

Definition seed_org (cfg : SeedConfig) (tenantID : ID) : M OrgTable (Organization * bool) :=
  found <- lookup_or_nil ("check org " +:+ sc_OrgCode cfg) (GetByCode tenantID (sc_OrgCode cfg)) ;;
  match found with
  | Some org => ret (org, false)
  | None =>
      oID <- NewID ;;
      created <- NowUTC ;;
      updated <- NowUTC ;;
      org <- wrap_err "create organization" (Organization.Create org_refused (mkOrganization oID tenantID None (sc_OrgCode cfg) (sc_OrgName cfg) ""
               TypeCompany Organization.StatusActive (Some ∅) [] created updated)) ;;
      ret (org, true)
  end.

Definition seed_user (cfg : SeedConfig) : M IamDB (User * bool) :=
  found <- lookup_or_nil ("check user " +:+ sc_Email cfg) (GetUserByEmail (ToLower (sc_Email cfg))) ;;
  match found with
  | Some user => ret (user, false)
  | None =>
      hashed <- wrap_err "hash password" (HashPassword (sc_Password cfg)) ;;
      uID <- NewID ;;
      created <- NowUTC ;;
      updated <- NowUTC ;;
      user <- wrap_err "create user" (CreateUser (mkUser uID (ToLower (sc_Email cfg)) hashed (sc_Name cfg) UserStatusActive created updated)) ;;
      ret (user, true)
  end.

Definition seed_member (tenantID userID : ID) : M IamDB bool :=
  found <- lookup_or_nil "check membership" (GetTenantMember tenantID userID) ;;
  match found with
  | Some _ => ret false
  | None =>
      mID <- NewID ;;
      joined <- NowUTC ;;
      wrap_err "add tenant member" (AddTenantMember (mkTenantUser mID tenantID userID MembershipStatusActive joined)) ;;;
      ret true
  end.

(** One turn of the loop over the roles: the role and whether it is new. *)
Definition seed_role (tenantID : ID) (perms : list Permission) (rd : roleDef) : M IamDB (ID * bool) :=
  found <- lookup_or_nil ("check role " +:+ rd_code rd) (GetRoleByCode tenantID (rd_code rd)) ;;
  match found with
  | Some role =>
      (match r_Permissions role with
       | [] => ignore (AssignPermissionsToRole (r_ID role) (rd_getPermIDs rd perms))
       | _ => ret tt
       end) ;;;
      ret (r_ID role, false)
  | None =>
      rID <- NewID ;;
      created <- NowUTC ;;
      updated <- NowUTC ;;
      role <- wrap_err ("create role " +:+ rd_code rd)
                (repo_CreateRole (mkRole rID tenantID (rd_code rd) (rd_name rd) (rd_description rd) true [] created updated)) ;;
      wrap_err ("assign permissions to " +:+ rd_code rd) (AssignPermissionsToRole (r_ID role) (rd_getPermIDs rd perms)) ;;;
      ret (r_ID role, true)
  end.

(** The loop: how many roles are new and old, and the role of the owner. *)
Fixpoint seed_roles (tenantID : ID) (perms : list Permission) (defs : list roleDef) (created skipped : Z) (owner : ID) : M IamDB (Z * Z * ID) :=
  match defs with
  | [] => ret (created, skipped, owner)
  | rd :: defs' =>
      r <- seed_role tenantID perms rd ;;
      let '(id, new) := r in
      seed_roles tenantID perms defs' (if new then created + 1 else created) (if new then skipped else skipped + 1)
        (if String.eqb (rd_code rd) "owner" then id else owner)
  end.

Definition seed_owner (tenantID userID ownerRoleID : ID) : M IamDB bool :=
  userRoles <- wrap_err "list user roles" (ListUserRolesInTenant tenantID userID) ;;
  let hasOwnerRole := existsb (fun r => String.eqb (r_Code r) "owner") userRoles in
  if negb hasOwnerRole && bool_decide (ownerRoleID <> NilID) then
    wrap_err "assign owner role to user" (AssignUserRole tenantID userID ownerRoleID) ;;; ret true
  else ret false.

Definition Run (cfg : SeedConfig) : M SeedDB SeedResult :=
  guard (String.eqb (sc_Email cfg) "") (ENew "email is required") ;;;
  guard (String.eqb (sc_Password cfg) "") (ENew "password is required") ;;;
  let cfg := with_defaults cfg in
  zoom (ignore insert_wildcard) ;;;
  t <- zoom (seed_tenant cfg) ;;
  let tenantID := t_ID t.1 in
  o <- zoom (seed_org cfg tenantID) ;;
  u <- zoom (seed_user cfg) ;;
  let userID := u_ID u.1 in
  m <- zoom (seed_member tenantID userID) ;;
  perms <- zoom (wrap_err "list permissions" repo_ListPermissions) ;;
  rs <- zoom (seed_roles tenantID perms rolesToSeed 0 0 NilID) ;;
  let '(created, skipped, ownerRoleID) := rs in
  owner <- zoom (seed_owner tenantID userID ownerRoleID) ;;
  ret (mkSeedResult t.2 tenantID o.2 (org_ID o.1) u.2 userID m created skipped owner).

(** What the command prints. *)
Definition Summary `{UUIDLib} (r : SeedResult) : string :=
  let nl := String (ascii_of_N 10) "" in
  let rule := "==================================================" +:+ nl in
  rule +:+ "Mergiate Core Bootstrap Summary" +:+ nl +:+ rule
  +:+ (if sr_TenantCreated r then "Tenant:       CREATED (ID: " +:+ uuid_String (sr_TenantID r) +:+ ")"
       else "Tenant:       SKIPPED (already exists: " +:+ uuid_String (sr_TenantID r) +:+ ")") +:+ nl
  +:+ (if sr_OrgCreated r then "Organization: CREATED (ID: " +:+ uuid_String (sr_OrgID r) +:+ ")"
       else "Organization: SKIPPED (already exists: " +:+ uuid_String (sr_OrgID r) +:+ ")") +:+ nl
  +:+ (if sr_UserCreated r then "Owner User:   CREATED (ID: " +:+ uuid_String (sr_UserID r) +:+ ")"
       else "Owner User:   SKIPPED (already exists: " +:+ uuid_String (sr_UserID r) +:+ ")") +:+ nl
  +:+ (if sr_MemberCreated r then "Membership:   CREATED" else "Membership:   SKIPPED (already member)") +:+ nl
  +:+ "System Roles: " +:+ Itoa (sr_RolesCreated r) +:+ " created, " +:+ Itoa (sr_RolesSkipped r) +:+ " existing" +:+ nl
  +:+ (if sr_UserRoleCreated r then "Owner Role:   ASSIGNED to owner user" else "Owner Role:   SKIPPED (already assigned)") +:+ nl
  +:+ rule.
End Run.

(** ** Consistency *)

(** The identity tables are consistent, the catalogue of permissions is stored
    under its keys and no role has the zero identifier. *)
Record perms_inv (d : IamDB) : Prop := {
  pi_iam : iam_inv d;
  pi_perms : keyed perm_ID (iam_permissions d);
  pi_no_nil_role : iam_roles d !! NilID = None;
}.

(** So are the organizations, whose codes are unique in a tenant. *)
Record orgs_inv (t : OrgTable) : Prop := { oi_keyed : keyed or_id t; oi_codes : unique same_code t }.

Definition seed_inv (d : SeedDB) : Prop := perms_inv (sb_iam d) /\ orgs_inv (sb_orgs d).

(** Rows of these tables are only added.  The permissions of roles are another
    matter: see [only_adds]. *)
Record extends (d d' : IamDB) : Prop := {
  ex_tenants : iam_tenants d ⊆ iam_tenants d';
  ex_users : iam_users d ⊆ iam_users d';
  ex_members : iam_members d ⊆ iam_members d';
  ex_roles : iam_roles d ⊆ iam_roles d';
  ex_perms : iam_permissions d ⊆ iam_permissions d';
  ex_user_roles : iam_user_roles d ⊆ iam_user_roles d';
}.

#[export] Instance extends_preorder : PreOrder extends.
Proof. split; [by split | intros a b c [] []; split; by etrans]. Qed.

(** A step of the bootstrap: whatever it returns, the tables stay consistent
    and only grow. *)
Definition grows_by {A} (m : M IamDB A) : Prop :=
  forall w, perms_inv (w_db w) -> perms_inv (w_db (m w).2) /\ extends (w_db w) (w_db (m w).2).

Create HintDb seed_grow.

Section Steps.
  Context `{UnicodeTables, Env, Pg, TenantServer, IamServer, Bcrypt}.

Lemma grows_reads {A} (m : M IamDB A) : reads m -> grows_by m.
Proof. intros Hr w Hi. by rewrite Hr. Qed.

Lemma grows_by_bind {A B} (m : M IamDB A) (k : A -> M IamDB B) : grows_by m -> (forall a, grows_by (k a)) -> grows_by (bind m k).
Proof.
  intros Hm Hk w Hi. unfold bind. destruct (Hm w Hi) as [Hi1 He]. destruct (m w) as [[a|e|e] w1]; [| done | done].
  destruct (Hk a w1 Hi1) as [Hi2 He2]. split; [done | by etrans].
Qed.

Lemma grows_by_attempt {A} (m : M IamDB A) : grows_by m -> grows_by (attempt m).
Proof. intros Hm w Hi. specialize (Hm w Hi). unfold attempt. by destruct (m w) as [[a|e|e] w1]. Qed.

Lemma grows_by_wrap {A} what (m : M IamDB A) : grows_by m -> grows_by (wrap_err what m).
Proof.
  intros Hm. apply grows_by_bind; [by apply grows_by_attempt |]. intros [a|e]; by apply grows_reads.
Qed.

Lemma grows_by_ignore {A} (m : M IamDB A) : grows_by m -> grows_by (ignore m).
Proof. intros Hm. apply grows_by_bind; [by apply grows_by_attempt |]. intros r. by apply grows_reads. Qed.

Lemma grows_by_for_each {A} (l : list A) (f : A -> M IamDB unit) : (forall a, grows_by (f a)) -> grows_by (for_each l f).
Proof. intros Hf. induction l as [|a l IH]; [by apply grows_reads | by apply grows_by_bind]. Qed.

(** An insert, from the invariant of the identity tables. *)
Lemma grows_by_writes {A} (m : M IamDB A) : writes_last m -> preserves iam_inv m ->
  (forall w a w', m w = (Ok a, w') -> extends (w_db w) (w_db w')
     /\ iam_permissions (w_db w') = iam_permissions (w_db w)
     /\ (iam_roles (w_db w) !! NilID = None -> iam_roles (w_db w') !! NilID = None)) -> grows_by m.
Proof.
  intros Hw Hp Hs w [Hi Hk Hn]. specialize (Hp w Hi). specialize (Hs w). specialize (Hw w).
  destruct (m w) as [[a|e|e] w'] eqn:E; cbn in *.
  - destruct (Hs a w' eq_refl) as (He & Ep & Hn'). split; [split; [done | by rewrite Ep | by apply Hn'] | done].
  - rewrite Hw in * by done. done.
  - rewrite Hw in * by done. done.
Qed.

Lemma extends_same d d' :
  iam_tenants d = iam_tenants d' -> iam_users d = iam_users d' -> iam_members d = iam_members d' -> iam_roles d = iam_roles d' ->
  iam_permissions d = iam_permissions d' -> iam_user_roles d = iam_user_roles d' -> extends d d'.
Proof. intros E1 E2 E3 E4 E5 E6. split; [rewrite E1 | rewrite E2 | rewrite E3 | rewrite E4 | rewrite E5 | rewrite E6]; done. Qed.

Lemma extends_insert_tenant d k (t : Tenant) : iam_tenants d !! k = None -> extends d (lens_set (<[k := t]> (iam_tenants d)) d).
Proof. intros E. split; cbn; try done. by apply insert_subseteq. Qed.
Lemma extends_insert_user d k (u : User) : iam_users d !! k = None -> extends d (lens_set (<[k := u]> (iam_users d)) d).
Proof. intros E. split; cbn; try done. by apply insert_subseteq. Qed.
Lemma extends_insert_member d k (m : TenantUser) : iam_members d !! k = None -> extends d (lens_set (<[k := m]> (iam_members d)) d).
Proof. intros E. split; cbn; try done. by apply insert_subseteq. Qed.
Lemma extends_insert_role d k (r : Role) : iam_roles d !! k = None -> extends d (lens_set (<[k := r]> (iam_roles d)) d).
Proof. intros E. split; cbn; try done. by apply insert_subseteq. Qed.

Lemma repo_Create_iam_inv t : preserves iam_inv (repo_Create (D := IamDB) t).
Proof.
  apply preserves_writes_last; [unfold repo_Create; frame |]. intros w a w' Hi E. unfold repo_Create in E. step_inv.
  match goal with X : insert_into _ _ _ _ _ _ = _ |- _ => apply insert_into_Ok in X as (-> & -> & _ & Hu & _ & _) end.
  apply iam_set_tenants; [done | apply tenants_insert; [apply Hi | done] | eauto with table_inv].
Qed.

Lemma grows_repo_Create t : grows_by (repo_Create t).
Proof.
  apply grows_by_writes; [unfold repo_Create; frame | apply repo_Create_iam_inv |]. intros w a w' E. unfold repo_Create in E. step_inv.
  match goal with X : insert_into _ _ _ _ _ _ = _ |- _ => apply insert_into_Ok in X as (-> & -> & Hk & _) end.
  split; [by apply extends_insert_tenant | done].
Qed.
Lemma grows_CreateUser u : grows_by (CreateUser u).
Proof.
  apply grows_by_writes; [unfold CreateUser; frame | apply CreateUser_inv |]. intros w a w' E. unfold CreateUser in E. step_inv.
  match goal with X : insert_into _ _ _ _ _ _ = _ |- _ => apply insert_into_Ok in X as (-> & -> & Hk & _) end.
  split; [by apply extends_insert_user | done].
Qed.
Lemma grows_AddTenantMember m : grows_by (AddTenantMember m).
Proof.
  apply grows_by_writes; [unfold AddTenantMember; frame | apply AddTenantMember_inv |]. intros w a w' E. unfold AddTenantMember in E. step_inv.
  match goal with X : insert_into _ _ _ _ _ _ = _ |- _ => apply insert_into_Ok in X as (-> & -> & Hk & _) end.
  split; [by apply extends_insert_member | done].
Qed.
Lemma grows_repo_CreateRole r : grows_by (repo_CreateRole r).
Proof.
  apply grows_by_writes; [unfold repo_CreateRole; frame | apply repo_CreateRole_inv |]. intros w a w' E. unfold repo_CreateRole in E. step_inv.
  match goal with X : insert_into _ _ _ _ _ _ = _ |- _ => apply insert_into_Ok in X as (-> & -> & Hk & _ & Hn & _) end.
  split; [by apply extends_insert_role | split; [done |]]. intros E. cbn in *. rewrite lookup_insert_ne; [done | set_solver].
Qed.
Lemma grows_AssignPermissionToRole r p : grows_by (AssignPermissionToRole r p).
Proof.
  apply grows_by_writes; [apply writes_last_query | apply AssignPermissionToRole_inv |]. intros w a w' E.
  unfold AssignPermissionToRole in E. step_inv. repeat case_match; simplify_eq; split; done || by apply extends_same.
Qed.
Lemma grows_ClearRolePermissions r : grows_by (ClearRolePermissions r).
Proof.
  apply grows_by_writes; [apply writes_last_query | apply ClearRolePermissions_inv |]. intros w a w' E.
  unfold ClearRolePermissions in E. step_inv. simplify_eq. split; done || by apply extends_same.
Qed.
Lemma grows_AssignUserRole t u r : grows_by (AssignUserRole t u r).
Proof.
  apply grows_by_writes; [apply writes_last_query | apply AssignUserRole_inv |]. intros w a w' E.
  unfold AssignUserRole, insert_user_role in E. step_inv. repeat case_match; simplify_eq; split; try done.
  split; cbn; try done. set_solver.
Qed.
Lemma grows_AssignPermissionsToRole r ps : grows_by (AssignPermissionsToRole r ps).
Proof.
  apply grows_by_bind; [apply grows_by_ignore, grows_ClearRolePermissions |]. intros _.
  apply grows_by_for_each. intros p. apply grows_AssignPermissionToRole.
Qed.

(** Assigning permissions changes no other table. *)
Definition but_role_permissions (d : IamDB) : IamDB := set_role_permissions ∅ d.

Lemma keeps_for_each {A X} (f : IamDB -> X) (l : list A) (g : A -> M IamDB unit) : (forall a, keeps f (g a)) -> keeps f (for_each l g).
Proof. intros Hg. induction l as [|a l IH]; [by intros w | by apply keeps_bind]. Qed.

Lemma keeps_AssignPermissionsToRole r ps : keeps but_role_permissions (AssignPermissionsToRole r ps).
Proof.
  apply keeps_bind; [apply keeps_bind; [apply keeps_attempt, keeps_query; naive_solver | by intros ? w] |].
  intros _. apply keeps_for_each. intros p. apply keeps_query. intros d a d' E. repeat case_match; by simplify_eq.
Qed.

Lemma grows_insert_wildcard : grows_by insert_wildcard.
Proof.
  apply grows_by_bind; [by apply grows_reads, reads_NewID |]. intros id w [Hi Hk Hn]. unfold query.
  destruct (env_fault (w_tick w)); [done |]. destruct (existsb _ _); [done |].
  case_bool_decide as Hx; [done |]. apply eq_None_not_Some in Hx. split; [split; cbn; [| by apply (keyed_insert perm_ID _ (mkPermission _ _ _ _ _)) | done] |].
  - iam_fields. intros r p Hp. destruct (I10 r p Hp). eauto with table_inv.
  - split; cbn; try done. by apply insert_subseteq.
Qed.

(** ** What each step leaves *)

Lemma lookup_or_nil_Ok {D A} what (get : M D A) w o w' : lookup_or_nil what get w = (Ok o, w') -> reads get ->
  w_db w' = w_db w /\ match o with Some a => exists w1, get w = (Ok a, w1) | None => exists e w1, get w = (Err e, w1) end.
Proof.
  unfold lookup_or_nil. intros E Hr. step_inv.
  match goal with X : attempt _ _ = _ |- _ => apply attempt_Ok in X as [(a' & Hg & ->)|(e & Hg & ->)] end.
  - step_inv. split; [by eapply reads_Ok | eauto].
  - destruct (err_eq e ErrNotFound); [| done]. step_inv. specialize (Hr w). rewrite Hg in Hr. eauto.
Qed.

Lemma reads_lookup_or_nil {D A} what (get : M D A) : reads get -> reads (lookup_or_nil what get).
Proof. intros Hr. unfold lookup_or_nil. frame. Qed.

Lemma reads_repo_GetByCode c : reads (D := IamDB) (repo_GetByCode c).
Proof. unfold repo_GetByCode. frame. Qed.

#[local] Hint Resolve reads_lookup_or_nil reads_repo_GetByCode reads_GetUserByEmail reads_GetTenantMember reads_GetRoleByCode
  reads_ListUserRolesInTenant : go_frame.
#[local] Hint Resolve grows_by_wrap grows_by_ignore grows_repo_Create grows_CreateUser grows_AddTenantMember grows_repo_CreateRole
  grows_AssignPermissionsToRole grows_AssignUserRole grows_insert_wildcard : seed_grow.

Ltac seed_grow := repeat first
  [ solve [apply grows_reads; frame] | solve [eauto with seed_grow] | apply grows_by_bind; [| intros ?] | case_match ].

Lemma grows_seed_tenant cfg : grows_by (seed_tenant cfg).
Proof. unfold seed_tenant. seed_grow. Qed.
Lemma grows_seed_user cfg : grows_by (seed_user cfg).
Proof. unfold seed_user. seed_grow. Qed.
Lemma grows_seed_member t u : grows_by (seed_member t u).
Proof. unfold seed_member. seed_grow. Qed.
Lemma grows_seed_role t ps rd : grows_by (seed_role t ps rd).
Proof. unfold seed_role. seed_grow. Qed.
#[local] Hint Resolve grows_seed_role : seed_grow.
Lemma grows_seed_roles t ps defs c s o : grows_by (seed_roles t ps defs c s o).
Proof. revert c s o. induction defs as [|rd defs IH]; intros c s o; cbn [seed_roles]; seed_grow. Qed.
Lemma grows_seed_owner t u o : grows_by (seed_owner t u o).
Proof. unfold seed_owner. seed_grow. Qed.

(** The rows the steps promise, in any later state. *)
Definition tenant_at (d : IamDB) (code : string) (id : ID) : Prop := exists row, iam_tenants d !! id = Some row /\ t_Code row = code.
Definition user_at (d : IamDB) (email : string) (id : ID) : Prop := exists row, iam_users d !! id = Some row /\ u_Email row = email.
Definition member_at (d : IamDB) (tenantID userID : ID) : Prop :=
  tenantID <> NilID /\ userID <> NilID
  /\ exists k m, iam_members d !! k = Some m /\ tu_TenantID m = tenantID /\ tu_UserID m = userID.
Definition role_at (d : IamDB) (tenantID : ID) (code : string) (id : ID) : Prop :=
  exists row, iam_roles d !! id = Some row /\ r_TenantID row = tenantID /\ r_Code row = code.

Lemma tenant_at_extends d d' c i : extends d d' -> tenant_at d c i -> tenant_at d' c i.
Proof. intros E (row & Hr & Hc). exists row. split; [by eapply lookup_weaken; [| apply E] | done]. Qed.
Lemma user_at_extends d d' c i : extends d d' -> user_at d c i -> user_at d' c i.
Proof. intros E (row & Hr & Hc). exists row. split; [by eapply lookup_weaken; [| apply E] | done]. Qed.
Lemma member_at_extends d d' t u : extends d d' -> member_at d t u -> member_at d' t u.
Proof. intros E (Ht & Hu & k & m & Hr & Hc). split_and!; [done | done |]. exists k, m. split; [by eapply lookup_weaken; [| apply E] | done]. Qed.
Lemma role_at_extends d d' t c i : extends d d' -> role_at d t c i -> role_at d' t c i.
Proof. intros E (row & Hr & Hc). exists row. split; [by eapply lookup_weaken; [| apply E] | done]. Qed.

Lemma seed_tenant_Ok cfg w t b w' : iam_inv (w_db w) -> seed_tenant cfg w = (Ok (t, b), w') ->
  tenant_at (w_db w') (sc_TenantCode cfg) (t_ID t).
Proof.
  intros Hi E. unfold seed_tenant in E. step_inv.
  match goal with X : lookup_or_nil _ _ _ = _ |- _ => apply lookup_or_nil_Ok in X as [Hd Hg]; [| frame] end.
  destruct a as [t0|]; step_inv; unfold ret in E; simplify_eq.
  - destruct Hg as [w1 Hg]. unfold repo_GetByCode in Hg. step_inv.
    match goal with X : select_from _ _ = _ |- _ => apply select_from_Ok in X as (_ & Hc%String.eqb_eq & k & Hk) end.
    exists a. rewrite Hd. cbn. split; [| done]. by rewrite (ti_keyed _ (ii_tenants _ Hi) _ _ Hk).
  - match goal with X : wrap_err _ _ _ = _ |- _ => apply wrap_err_Ok in X; unfold repo_Create in X end. step_inv.
    match goal with X : insert_into _ _ _ _ _ _ = _ |- _ => apply insert_into_Ok in X as (-> & -> & _) end.
    eexists. cbn. by rewrite lookup_insert_eq.
Qed.

Lemma seed_user_Ok cfg w u b w' : iam_inv (w_db w) -> seed_user cfg w = (Ok (u, b), w') ->
  user_at (w_db w') (ToLower (sc_Email cfg)) (u_ID u).
Proof.
  intros Hi E. unfold seed_user in E. step_inv.
  match goal with X : lookup_or_nil _ _ _ = _ |- _ => apply lookup_or_nil_Ok in X as [Hd Hg]; [| frame] end.
  destruct a as [u0|]; step_inv; unfold ret in E; simplify_eq.
  - destruct Hg as [w1 Hg]. unfold GetUserByEmail in Hg. apply select_from_Ok in Hg as (_ & Hc%String.eqb_eq & k & Hk).
    exists u. rewrite Hd. split; [| done]. by rewrite (ii_users _ Hi _ _ Hk).
  - repeat match goal with X : wrap_err _ _ _ = _ |- _ => apply wrap_err_Ok in X end. unfold CreateUser in *. step_inv.
    match goal with X : insert_into _ _ _ _ _ _ = _ |- _ => apply insert_into_Ok in X as (-> & -> & _) end.
    eexists. cbn. by rewrite lookup_insert_eq.
Qed.

Lemma seed_member_Ok t u w b w' : seed_member t u w = (Ok b, w') -> member_at (w_db w') t u.
Proof.
  intros E. unfold seed_member in E. step_inv.
  match goal with X : lookup_or_nil _ _ _ = _ |- _ => apply lookup_or_nil_Ok in X as [Hd Hg]; [| frame] end.
  destruct a as [m|]; step_inv; simplify_eq.
  - destruct Hg as [w1 Hg]. unfold GetTenantMember in Hg. apply select_from_Ok in Hg as (_ & Hc & k & Hk).
    unfold member_of in Hc. rewrite andb_true_iff, !sql_eq_true in Hc. rewrite Hd. unfold member_at. naive_solver.
  - repeat match goal with X : wrap_err _ _ _ = _ |- _ => apply wrap_err_Ok in X end. unfold AddTenantMember in *. step_inv.
    match goal with X : insert_into _ _ _ _ _ _ = _ |- _ => apply insert_into_Ok in X as (-> & -> & _ & _ & Hn & _) end.
    cbn in *. split_and!; [set_solver | set_solver |]. eexists _, _. cbn. by rewrite lookup_insert_eq.
Qed.

Lemma GetRoleByCode_Ok t c w r w' : iam_inv (w_db w) -> GetRoleByCode t c w = (Ok r, w') -> role_at (w_db w) t c (r_ID r).
Proof.
  intros Hi E. unfold GetRoleByCode, fill_permissions in E. step_inv.
  match goal with X : select_from _ _ = _ |- _ => apply select_from_Ok in X as (_ & Hc & k & Hk) end.
  unfold role_by_code in Hc. rewrite andb_true_iff, sql_eq_true, String.eqb_eq in Hc. pose proof (ii_roles _ Hi _ _ Hk) as Ek.
  destruct a0; simplify_eq; cbn; eexists; naive_solver.
Qed.

Lemma seed_role_Ok t ps rd w id b w' : perms_inv (w_db w) -> seed_role t ps rd w = (Ok (id, b), w') ->
  role_at (w_db w') t (rd_code rd) id.
Proof.
  intros Hi E. pose proof (grows_seed_role t ps rd w Hi) as [Hi' He]. rewrite E in Hi', He. cbn in Hi', He.
  unfold seed_role in E. step_inv.
  match goal with X : lookup_or_nil _ _ _ = _ |- _ => apply lookup_or_nil_Ok in X as [Hd Hg]; [| frame] end.
  destruct a as [r|]; step_inv; unfold ret in E; simplify_eq.
  - destruct Hg as [w1 Hg]. eapply role_at_extends; [exact He |]. eapply GetRoleByCode_Ok; [apply Hi | done].
  - repeat match goal with X : wrap_err _ _ _ = _ |- _ => apply wrap_err_Ok in X end. unfold repo_CreateRole in *. step_inv.
    match goal with X : insert_into _ _ _ _ _ _ = (Ok ?r, ?w1) |- _ => rename X into Hins end. cbn [r_ID].
    match goal with X : AssignPermissionsToRole ?i ?l ?w1 = _ |- _ =>
      pose proof (f_equal iam_roles (keeps_AssignPermissionsToRole i l w1)) as Hroles; rewrite X in Hroles end. cbn in Hroles.
    apply insert_into_Ok in Hins as (-> & -> & _). eexists. rewrite Hroles. cbn. by rewrite lookup_insert_eq.
Qed.

Lemma seed_roles_Ok t ps defs c s o w c' s' o' w' : perms_inv (w_db w) -> seed_roles t ps defs c s o w = (Ok (c', s', o'), w') ->
  (forall rd, rd ∈ defs -> exists id, role_at (w_db w') t (rd_code rd) id)
  /\ ((o' = o /\ forall rd, rd ∈ defs -> rd_code rd <> "owner") \/ role_at (w_db w') t "owner" o')
  /\ c' + s' = c + s + Z.of_nat (length defs) /\ c <= c' /\ s <= s'.
Proof.
  revert c s o w. induction defs as [|rd defs IH]; intros c s o w Hi E; cbn [seed_roles] in E.
  { unfold ret in E. simplify_eq. split_and!; [set_solver | left; set_solver | cbn; lia..]. }
  apply bind_Ok in E as ([id new] & w1 & R & E). destruct (grows_seed_role t ps rd w Hi) as [Hi1 _]. rewrite R in Hi1.
  pose proof (seed_role_Ok _ _ _ _ _ _ _ Hi R) as Hr.
  pose proof (grows_seed_roles t ps defs (if new then c + 1 else c) (if new then s else s + 1)
                (if String.eqb (rd_code rd) "owner" then id else o) w1 Hi1) as [_ He]. rewrite E in He.
  apply IH in E as (Hall & Ho & Hn & Hc & Hs); [| done]. cbn in He. split_and!.
  - intros rd' [->|Hin]%elem_of_cons; [| eauto]. exists id. by eapply role_at_extends.
  - destruct Ho as [[-> Hno]|Ho]; [| by right]. destruct (String.eqb_spec (rd_code rd) "owner") as [Eo|Ene].
    + right. rewrite <- Eo. by eapply role_at_extends.
    + left. split; [done |]. by intros rd' [->|Hin]%elem_of_cons; [| apply Hno].
  - cbn [length]. destruct new; lia.
  - destruct new; lia.
  - destruct new; lia.
Qed.

(** ** The permissions of the owner *)

Definition holds (role p : ID) (d : IamDB) : bool := bool_decide ((role, p) ∈ iam_role_permissions d).

Lemma assign_keeps_holds r q role p w : holds role p (w_db w) = true -> holds role p (w_db (AssignPermissionToRole r q w).2) = true.
Proof.
  unfold holds, AssignPermissionToRole, query. intros Hh. destruct (env_fault (w_tick w)); [done |].
  repeat case_match; simplify_eq; cbn; try done. rewrite bool_decide_eq_true in *. set_solver.
Qed.

Lemma assign_each r ps w w' p : for_each ps (AssignPermissionToRole r) w = (Ok tt, w') ->
  p ∈ ps \/ holds r p (w_db w) = true -> holds r p (w_db w') = true.
Proof.
  revert w. induction ps as [|q ps IH]; intros w E Hp; cbn [for_each] in E.
  { unfold ret in E. simplify_eq. set_solver. }
  apply bind_Ok in E as ([] & w1 & R & E). apply (IH _ E). pose proof (assign_keeps_holds r q r p w) as Hk. rewrite R in Hk.
  destruct Hp as [[->|Hp]%elem_of_cons|Hp]; [right | by left | right; by apply Hk].
  unfold AssignPermissionToRole in R. step_inv. unfold holds. repeat case_match; simplify_eq; cbn; [done |].
  apply bool_decide_eq_true. set_solver.
Qed.

Lemma seed_role_new t ps rd w id w' p : seed_role t ps rd w = (Ok (id, true), w') -> p ∈ rd_getPermIDs rd ps -> holds id p (w_db w') = true.
Proof.
  intros E Hp. unfold seed_role in E. step_inv. destruct a as [r|]; step_inv; unfold ret in E; simplify_eq.
  repeat match goal with X : wrap_err _ _ _ = _ |- _ => apply wrap_err_Ok in X end.
  match goal with X : AssignPermissionsToRole _ _ _ = _ |- _ => unfold AssignPermissionsToRole in X end. step_inv.
  match goal with X : for_each _ _ _ = (Ok ?u, _) |- _ => destruct u; eapply assign_each; [exact X | by left] end.
Qed.

(** Assigning to another role. *)
Lemma keeps_holds_assign r ps role p : r <> role -> keeps (holds role p) (AssignPermissionsToRole r ps).
Proof.
  intros Hne. apply keeps_bind; [apply keeps_bind; [apply keeps_attempt, keeps_query |  by intros ? w] |].
  - intros d a d' [= _ <-]. unfold holds. cbn. apply bool_decide_ext. rewrite elem_of_filter. cbn. split; [naive_solver |].
    intros Hp. split; [| done]. apply not_true_iff_false. intros [_ Hs]%sql_eq_true. done.
  - intros _. apply keeps_for_each. intros q. apply keeps_query. intros d a d' E. repeat case_match; simplify_eq; try done.
    unfold holds. cbn. apply bool_decide_ext. set_solver.
Qed.

Lemma keeps_query_insert {R X} `{Lens IamDB (gmap ID R)} (f : IamDB -> X) idf req same refused row :
  (forall t d, f (lens_set t d) = f d) -> keeps f (insert_into (R := R) idf req same refused row).
Proof.
  intros Hf w. destruct (insert_into idf req same refused row w) as [[r|e|e] w'] eqn:E; cbn.
  - apply insert_into_Ok in E as (_ & -> & _). apply Hf.
  - pose proof (writes_last_insert_into idf req same refused row w) as Hw. rewrite E in Hw. cbn in Hw. by rewrite Hw.
  - pose proof (writes_last_insert_into idf req same refused row w) as Hw. rewrite E in Hw. cbn in Hw. by rewrite Hw.
Qed.

Lemma seed_role_keeps_holds t ps rd role p w id b w' : perms_inv (w_db w) -> role_at (w_db w) t "owner" role -> rd_code rd <> "owner" ->
  seed_role t ps rd w = (Ok (id, b), w') -> holds role p (w_db w') = holds role p (w_db w).
Proof.
  intros Hi (orow & Ho & Hot & Hoc) Hne E. pose proof (seed_role_Ok _ _ _ _ _ _ _ Hi E) as Hid. unfold seed_role in E. step_inv.
  match goal with X : lookup_or_nil _ _ _ = _ |- _ => apply lookup_or_nil_Ok in X as [Hd Hg]; [| frame] end.
  destruct a as [r|]; step_inv; unfold ret in E; simplify_eq.
  - destruct Hg as [w1 Hg]. eapply GetRoleByCode_Ok in Hg as (row & Hrow & _ & Hc); [| apply Hi].
    assert (r_ID r <> role) as Hx by congruence. rewrite <- Hd. destruct (r_Permissions r); step_inv; [| done].
    match goal with X : ignore _ ?w1 = (_, ?w2) |- _ => pose proof (keeps_bind (holds role p) _ (fun _ => ret tt)
      (keeps_attempt _ _ (keeps_holds_assign (r_ID r) (rd_getPermIDs rd ps) role p Hx)) (fun _ w => eq_refl) w1) as Hk;
      change (bind _ _ w1) with (ignore (AssignPermissionsToRole (r_ID r) (rd_getPermIDs rd ps)) w1) in Hk; rewrite X in Hk end. done.
  - repeat match goal with X : wrap_err _ _ _ = _ |- _ => apply wrap_err_Ok in X end.
    match goal with X : repo_CreateRole ?r ?w1 = (_, ?w2) |- _ =>
      assert (r_ID a2 <> role /\ holds role p (w_db w2) = holds role p (w_db w1)) as [Hx Hk1] end.
    { unfold repo_CreateRole in *. step_inv.
      match goal with X : insert_into _ _ _ _ _ _ = _ |- _ => apply insert_into_Ok in X as (-> & -> & Hn & _) end.
      cbn in *. split; [| done]. rewrite Hd in Hn. congruence. }
    match goal with X : AssignPermissionsToRole ?i ?l ?w1 = (_, _) |- _ =>
      pose proof (keeps_holds_assign i l role p Hx w1) as Hk2; rewrite X in Hk2 end. cbn in *. by rewrite Hk2, Hk1, Hd.
Qed.

Lemma seed_roles_keeps_holds t ps defs c s o role p w r w' : perms_inv (w_db w) -> role_at (w_db w) t "owner" role ->
  Forall (fun rd => rd_code rd <> "owner") defs -> seed_roles t ps defs c s o w = (Ok r, w') ->
  holds role p (w_db w') = holds role p (w_db w).
Proof.
  revert c s o w. induction defs as [|rd defs IH]; intros c s o w Hi Ho Hf E; cbn [seed_roles] in E; [by unfold ret in E; simplify_eq |].
  apply Forall_cons in Hf as [Hne Hf]. apply bind_Ok in E as ([id new] & w1 & R & E).
  destruct (grows_seed_role t ps rd w Hi) as [Hi1 He1]. rewrite R in Hi1, He1. cbn in Hi1, He1.
  rewrite <- (seed_role_keeps_holds _ _ _ _ p _ _ _ _ Hi Ho Hne R). eapply IH; [done | by eapply role_at_extends | done | done].
Qed.

Lemma role_at_unique d t c i j : iam_inv d -> role_at d t c i -> role_at d t c j -> i = j.
Proof.
  intros Hi (r & Hr & Et & Ec) (r' & Hr' & Et' & Ec'). apply (ii_codes _ Hi i r j r'); [done | done |].
  unfold same_role_code. rewrite andb_true_iff, bool_decide_eq_true, String.eqb_eq. split; congruence.
Qed.

(** When every role is new, the owner's has every permission of its definition. *)
Lemma fresh_roles t ps rd defs w s o w' q : perms_inv (w_db w) -> rd_code rd = "owner" -> Forall (fun rd => rd_code rd <> "owner") defs ->
  seed_roles t ps (rd :: defs) 0 0 NilID w = (Ok (Z.of_nat (length (rd :: defs)), s, o), w') ->
  q ∈ rd_getPermIDs rd ps -> holds o q (w_db w') = true.
Proof.
  intros Hi Hc Hf E Hq. cbn [seed_roles] in E. apply bind_Ok in E as ([id new] & w1 & R & E).
  destruct (grows_seed_role t ps rd w Hi) as [Hi1 He1]. rewrite R in Hi1, He1. cbn in Hi1, He1.
  pose proof (seed_role_Ok _ _ _ _ _ _ _ Hi R) as Hr. rewrite Hc in Hr. rewrite Hc in E. cbn [String.eqb Ascii.eqb Bool.eqb] in E.
  pose proof (seed_roles_Ok _ _ _ _ _ _ _ _ _ _ _ Hi1 E) as (_ & Ho & Hn & _ & Hs).
  destruct new; [| cbn [length] in Hn; lia].
  pose proof (grows_seed_roles t ps defs (0 + 1) 0 id w1 Hi1) as [Hi' He]. rewrite E in Hi', He. cbn in Hi', He.
  assert (o = id) as ->.
  { destruct Ho as [[-> _]|Ho]; [done |]. eapply role_at_unique; [apply Hi' | exact Ho | by eapply role_at_extends]. }
  rewrite (seed_roles_keeps_holds _ _ _ _ _ _ _ q _ _ _ Hi1 Hr Hf E). by eapply seed_role_new.
Qed.

(** The roles leave the catalogue of permissions alone. *)
Lemma keeps_perms_roles t ps defs c s o : keeps iam_permissions (seed_roles t ps defs c s o).
Proof.
  assert (forall r ps', keeps iam_permissions (AssignPermissionsToRole r ps')) as Ha
    by (intros r ps' w; exact (f_equal iam_permissions (keeps_AssignPermissionsToRole r ps' w))).
  revert c s o. induction defs as [|rd defs IH]; intros c s o; [by intros w |].
  cbn [seed_roles]. apply keeps_bind; [| by intros [id new]]. unfold seed_role.
  apply keeps_bind; [apply keeps_reads; frame |]. intros [r|].
  - apply keeps_bind; [| by intros ? w]. destruct (r_Permissions r); [| by intros w].
    apply keeps_bind; [apply keeps_attempt, Ha | by intros ? w].
  - do 3 (apply keeps_bind; [apply keeps_reads; frame | intros ?]). apply keeps_bind.
    + apply keeps_bind; [| intros [|]; by intros w]. apply keeps_attempt, keeps_bind; [by apply keeps_query_insert | by intros ? w].
    + intros role. apply keeps_bind; [| by intros ? w]. apply keeps_bind; [apply keeps_attempt, Ha | intros [|]; by intros w].
Qed.

Lemma seed_owner_Ok t u o w b w' : iam_inv (w_db w) -> role_at (w_db w) t "owner" o -> o <> NilID -> seed_owner t u o w = (Ok b, w') ->
  (exists r row, (t, u, r) ∈ iam_user_roles (w_db w') /\ iam_roles (w_db w') !! r = Some row /\ r_Code row = "owner")
  /\ (b = true -> (t, u, o) ∈ iam_user_roles (w_db w'))
  /\ iam_roles (w_db w') = iam_roles (w_db w) /\ iam_permissions (w_db w') = iam_permissions (w_db w)
  /\ iam_role_permissions (w_db w') = iam_role_permissions (w_db w).
Proof.
  intros Hi Ho Hn E. unfold seed_owner in E. step_inv.
  match goal with X : wrap_err _ _ _ = _ |- _ => apply wrap_err_Ok in X; unfold ListUserRolesInTenant in X end. step_inv. simplify_eq.
  set (listed := map _ _) in E. rewrite bool_decide_eq_true_2 in E by done. rewrite andb_true_r in E.
  destruct (existsb _ listed) eqn:Ex; cbn [negb] in E; step_inv; simplify_eq; cbn [w_db].
  - apply existsb_exists in Ex as (r & Hr & Hc%String.eqb_eq). apply in_map_iff in Hr as (row & <- & Hrow). cbn in Hc.
    apply list_elem_of_In in Hrow. rewrite merge_sort_Permutation in Hrow. apply elem_of_roles_of in Hrow as [Hrow Hu]; [| apply Hi].
    split; [| done]. exists (r_ID row), row. done.
  - match goal with X : wrap_err _ _ _ = _ |- _ => apply wrap_err_Ok in X; unfold AssignUserRole, insert_user_role in X end. step_inv.
    destruct Ho as (row & Hrow & _ & Hc). cbn in *.
    repeat case_match; rewrite ?bool_decide_eq_true in *; simplify_eq; cbn;
      (split; [exists o, row; split; [set_solver | done] | split; [intros _; set_solver | done]]).
Qed.
End Steps.

(** ** A run *)

Definition org_at (t : OrgTable) (tenantID : ID) (code : string) (id : ID) : Prop :=
  exists row, t !! id = Some row /\ or_tenant_id row = tenantID /\ or_code row = code.

(** What a run promises: the tenant, its organization and owner, the membership
    of the owner, the six roles, and that the owner is an owner. *)
Record seeded `{UnicodeTables} (cfg : SeedConfig) (d : SeedDB) (tenantID orgID userID : ID) : Prop := {
  se_tenant : tenant_at (sb_iam d) (sc_TenantCode cfg) tenantID;
  se_org : org_at (sb_orgs d) tenantID (sc_OrgCode cfg) orgID;
  se_user : user_at (sb_iam d) (ToLower (sc_Email cfg)) userID;
  se_member : member_at (sb_iam d) tenantID userID;
  se_roles : forall rd, rd ∈ rolesToSeed -> exists id, role_at (sb_iam d) tenantID (rd_code rd) id;
  se_owner : exists r row, (tenantID, userID, r) ∈ iam_user_roles (sb_iam d)
    /\ iam_roles (sb_iam d) !! r = Some row /\ r_Code row = "owner";
}.

Section RunOk.
  Context `{UnicodeTables, Env, Pg, TenantServer, IamServer, Bcrypt}.
  Variable org_refused : OrgRow -> option error.

Lemma seed_org_Ok cfg t w o b w' : orgs_inv (w_db w) -> seed_org org_refused cfg t w = (Ok (o, b), w') ->
  orgs_inv (w_db w') /\ w_db w ⊆ w_db w' /\ org_at (w_db w') t (sc_OrgCode cfg) (org_ID o).
Proof.
  intros [Hk Hu] E. unfold seed_org in E. step_inv.
  match goal with X : lookup_or_nil _ _ _ = _ |- _ => apply lookup_or_nil_Ok in X as [Hd Hg]; [| intros w1; by eapply org_get_db, surjective_pairing] end.
  destruct a as [o0|]; step_inv; unfold ret in E; simplify_eq.
  - destruct Hg as [w1 Hg]. unfold GetByCode in Hg. apply org_get_Ok in Hg as (row & Hs & -> & _).
    apply select_one_Some in Hs as [Hp [k Hrow]]. unfold by_code, of_tenant in Hp. rewrite andb_true_iff, sql_eq_true, String.eqb_eq in Hp.
    rewrite Hd. split_and!; [done | done |]. exists row. cbn. rewrite (Hk _ _ Hrow). naive_solver.
  - match goal with X : wrap_err _ _ _ = _ |- _ => apply wrap_err_Ok in X; unfold Create in X end. step_inv. cbn [w_db tick] in *.
    rewrite Hd in *. match goal with X : insert_org _ ?new _ = _ |- _ => set (row := new) in X; unfold insert_org in X end.
    destruct (bool_decide (or_id row = NilID)); [done |]. destruct (w_db w !! or_id row) eqn:El; [done |].
    destruct (select_one (same_code row) (w_db w)) eqn:Es; [done |]. destruct (parent_exists row (w_db w)); [| done]. cbn [negb] in *.
    destruct (org_refused row); [done |]. simplify_eq. pose proof (proj1 (select_one_None _ _) Es) as Hn. split_and!.
    + split; [by apply keyed_insert |]. apply unique_insert; [| done | by intros k r _; apply Hn].
      intros x y. unfold same_code. rewrite String.eqb_sym. f_equal. by apply bool_decide_ext.
    + by apply insert_subseteq.
    + eexists. cbn. by rewrite lookup_insert_eq.
Qed.

(** A step on the identity tables, seen from the whole database. *)
Lemma zoom_iam {A} (m : M IamDB A) (w : World SeedDB) a w' : grows_by m -> seed_inv (w_db w) -> zoom m w = (Ok a, w') ->
  exists w0 w1, m w0 = (Ok a, w1) /\ w_db w0 = sb_iam (w_db w) /\ w_db w1 = sb_iam (w_db w') /\ sb_orgs (w_db w') = sb_orgs (w_db w)
    /\ seed_inv (w_db w') /\ extends (sb_iam (w_db w)) (sb_iam (w_db w')).
Proof.
  intros Hg [Hi Ho] (w1 & E & ->)%zoom_Ok. set (w0 := mkWorld _ _) in E. destruct (Hg w0 Hi) as [Hi1 He]. rewrite E in Hi1, He.
  exists w0, w1. split_and!; done.
Qed.

Lemma zoom_orgs cfg t (w : World SeedDB) o b w' : seed_inv (w_db w) -> zoom (seed_org org_refused cfg t) w = (Ok (o, b), w') ->
  seed_inv (w_db w') /\ sb_iam (w_db w') = sb_iam (w_db w) /\ sb_orgs (w_db w) ⊆ sb_orgs (w_db w')
  /\ org_at (sb_orgs (w_db w')) t (sc_OrgCode cfg) (org_ID o).
Proof.
  intros [Hi Ho] (w1 & E & ->)%zoom_Ok. apply seed_org_Ok in E as (Ho1 & Hs & Ha); [| done]. split_and!; done.
Qed.

(** The permissions listed, and the roles and the assignment of the last two
    steps. *)
Lemma list_permissions_Ok w perms w' : wrap_err "list permissions" repo_ListPermissions w = (Ok perms, w') ->
  w_db w' = w_db w /\ forall k p, iam_permissions (w_db w) !! k = Some p -> p ∈ perms.
Proof.
  intros E%wrap_err_Ok. unfold repo_ListPermissions in E. step_inv. simplify_eq. split; [done |]. intros k p Hp.
  rewrite merge_sort_Permutation. apply elem_of_select_rows. eauto.
Qed.

Lemma owner_granted t u ps w s o w1 b w2 : perms_inv (w_db w) -> (forall k p, iam_permissions (w_db w) !! k = Some p -> p ∈ ps) ->
  seed_roles t ps rolesToSeed 0 0 NilID w = (Ok (6, s, o), w1) -> iam_roles (w_db w2) = iam_roles (w_db w1) ->
  iam_permissions (w_db w2) = iam_permissions (w_db w1) -> iam_role_permissions (w_db w2) = iam_role_permissions (w_db w1) ->
  role_at (w_db w1) t "owner" o -> (b = true -> (t, u, o) ∈ iam_user_roles (w_db w2)) -> b = true ->
  forall k p, iam_permissions (w_db w2) !! k = Some p -> granted (w_db w2) t u (perm_Code p).
Proof.
  intros Hi Hps R Er Ep Erp (orow & Ho & _) Hu Hb k p Hp. pose proof (keeps_perms_roles t ps rolesToSeed 0 0 NilID w) as Hk. rewrite R in Hk. cbn in Hk.
  exists o, p, k. split_and!; [by apply Hu | rewrite Er; eauto | | done | done].
  rewrite Ep, Hk in Hp. apply Hps in Hp. rewrite Erp.
  enough (holds o (perm_ID p) (w_db w1) = true) as Hx by by apply bool_decide_eq_true in Hx.
  unfold rolesToSeed in R. eapply (fresh_roles t ps _ _ w s o w1 (perm_ID p) Hi); [| | exact R |].
  - done.
  - repeat constructor; done.
  - cbn. apply list_elem_of_In, in_map, list_elem_of_In. done.
Qed.

(** The roles and the assignment of the owner, after the membership. *)
Lemma roles_and_owner t u w perms w1 rc rs ow w2 b w3 : seed_inv (w_db w) ->
  zoom (wrap_err "list permissions" repo_ListPermissions) w = (Ok perms, w1) ->
  zoom (seed_roles t perms rolesToSeed 0 0 NilID) w1 = (Ok (rc, rs, ow), w2) -> zoom (seed_owner t u ow) w2 = (Ok b, w3) ->
  let d := sb_iam (w_db w3) in
  seed_inv (w_db w3) /\ extends (sb_iam (w_db w)) d /\ sb_orgs (w_db w3) = sb_orgs (w_db w)
  /\ (forall rd, rd ∈ rolesToSeed -> exists id, role_at d t (rd_code rd) id)
  /\ (exists r row, (t, u, r) ∈ iam_user_roles d /\ iam_roles d !! r = Some row /\ r_Code row = "owner")
  /\ rc + rs = 6 /\ (rc = 6 -> b = true -> forall k p, iam_permissions d !! k = Some p -> granted d t u (perm_Code p)).
Proof.
  intros Hi R6 R7 R8 d.
  apply zoom_iam in R6 as (? & ? & R6 & D6 & D6' & Eo6 & Hi6 & X6); [| apply grows_reads; frame; apply reads_query; naive_solver | done].
  apply list_permissions_Ok in R6 as [Q6 Hps].
  apply zoom_iam in R7 as (w7 & w8 & R7 & D7 & D7' & Eo7 & Hi7 & X7); [| apply grows_seed_roles | done].
  assert (perms_inv (w_db w7)) as Hi7' by (rewrite D7; apply Hi6).
  apply seed_roles_Ok in R7 as Hr; [| done]. destruct Hr as (Hroles & Hown & Hcount & _).
  assert (role_at (w_db w8) t "owner" ow) as Ho.
  { destruct Hown as [[_ Hno]|Hown]; [| done]. exfalso. eapply Hno; [left | done]. }
  assert (ow <> NilID) as Hn. { intros ->. destruct Ho as (? & Ho & _). by rewrite D7', (pi_no_nil_role _ (proj1 Hi7)) in Ho. }
  apply zoom_iam in R8 as (w9 & w10 & R8 & D8 & D8' & Eo8 & Hi8 & X8); [| apply grows_seed_owner | done].
  rewrite <- D7' in D8. apply seed_owner_Ok in R8 as (Hr8 & Hb & Er & Ep & Erp); [| rewrite D8, D7'; apply Hi7 | by rewrite D8 | done].
  rewrite D8 in *. split_and!; [done | by repeat (etrans; [eassumption |]) | congruence | | by rewrite D8' in Hr8 | exact Hcount |].
  - intros rd Hrd. destruct (Hroles rd Hrd) as [id Hid]. exists id. eapply role_at_extends; [exact X8 | by rewrite <- D7'].
  - intros -> Hbt. unfold d. rewrite <- D8'. eapply (owner_granted t u perms w7 rs ow w8 b w10); try done.
    intros k p. rewrite D7, <- D6', Q6. apply Hps.
Qed.

Lemma Run_Ok cfg w res w' : seed_inv (w_db w) -> Run org_refused cfg w = (Ok res, w') ->
  seed_inv (w_db w') /\ extends (sb_iam (w_db w)) (sb_iam (w_db w')) /\ sb_orgs (w_db w) ⊆ sb_orgs (w_db w')
  /\ seeded (with_defaults cfg) (w_db w') (sr_TenantID res) (sr_OrgID res) (sr_UserID res)
  /\ sr_RolesCreated res + sr_RolesSkipped res = 6
  /\ (sr_RolesCreated res = 6 -> sr_UserRoleCreated res = true ->
      forall k p, iam_permissions (sb_iam (w_db w')) !! k = Some p -> granted (sb_iam (w_db w')) (sr_TenantID res) (sr_UserID res) (perm_Code p)).
Proof.
  intros Hi E. unfold Run in E. step_inv. set (c := with_defaults cfg) in *. destruct a2 as [t tb], a3 as [o ob], a4 as [u ub], a7 as [[rc rs] ow].
  cbn [fst snd] in *. step_inv. cbn [sr_TenantID sr_OrgID sr_UserID sr_RolesCreated sr_RolesSkipped sr_UserRoleCreated].
  apply zoom_iam in R1 as (? & ? & _ & _ & _ & Eo1 & Hi1 & X1); [| apply grows_by_ignore, grows_insert_wildcard | done].
  apply zoom_iam in R2 as (? & ? & R2 & D2 & D2' & Eo2 & Hi2 & X2); [| apply grows_seed_tenant | done].
  apply seed_tenant_Ok in R2 as Ht; [| rewrite D2; apply Hi1]. rewrite D2' in Ht.
  apply zoom_orgs in R3 as (Hi3 & Ei3 & Xo & Horg); [| done].
  apply zoom_iam in R4 as (? & ? & R4 & D4 & D4' & Eo4 & Hi4 & X4); [| apply grows_seed_user | done].
  apply seed_user_Ok in R4 as Hu; [| rewrite D4; apply Hi3]. rewrite D4' in Hu.
  apply zoom_iam in R5 as (? & ? & R5 & D5 & D5' & Eo5 & Hi5 & X5); [| apply grows_seed_member | done].
  apply seed_member_Ok in R5 as Hm. rewrite D5' in Hm.
  match goal with X : zoom (seed_owner _ _ _) _ = _ |- _ =>
    destruct (roles_and_owner _ _ _ _ _ _ _ _ _ _ _ Hi5 R6 R7 X) as (Hi8 & X8 & Eo8 & Hroles & Hown & Hcount & Hgr) end.
  rewrite Ei3 in *.
  pose proof (PreOrder_Transitive _ _ _ X5 X8) as X58. pose proof (PreOrder_Transitive _ _ _ X4 X58) as X48.
  split_and!; [exact Hi8 | etrans; [exact X1 | by etrans] | | split | done | done].
  - by rewrite Eo8, Eo5, Eo4, <- Eo1, <- Eo2.
  - exact (tenant_at_extends _ _ _ _ X48 Ht).
  - by rewrite Eo8, Eo5, Eo4.
  - exact (user_at_extends _ _ _ _ X58 Hu).
  - exact (member_at_extends _ _ _ _ X8 Hm).
  - done.
  - done.
Qed.
End RunOk.

(** ** Running it again *)

(** The rows a second run may add: the wildcard permission, and permissions of
    roles that had none. *)
Record settled (d d' : IamDB) : Prop := {
  sd_tenants : iam_tenants d' = iam_tenants d;
  sd_users : iam_users d' = iam_users d;
  sd_members : iam_members d' = iam_members d;
  sd_roles : iam_roles d' = iam_roles d;
  sd_user_roles : iam_user_roles d' = iam_user_roles d;
  sd_perms : iam_permissions d ⊆ iam_permissions d';
  sd_role_permissions : iam_role_permissions d ⊆ iam_role_permissions d';
  sd_kept : forall r p q, (r, p) ∈ iam_role_permissions d -> (r, q) ∈ iam_role_permissions d' -> (r, q) ∈ iam_role_permissions d;
}.

#[export] Instance settled_preorder : PreOrder settled.
Proof.
  split; [by split |]. intros a b c [? ? ? ? ? ? Ha Ka] [? ? ? ? ? ? Hb Kb]. split; try by etrans.
  intros r p q Hp Hq. eauto.
Qed.

Definition has_wildcard (d : IamDB) : Prop := exists k p, iam_permissions d !! k = Some p /\ perm_Code p = wildcard.

Section Again.
  Context `{UnicodeTables, Env, Pg, TenantServer, IamServer, Bcrypt}.
  Variable org_refused : OrgRow -> option error.
  Hypothesis no_fault : forall n, env_fault n = None.

Lemma lookup_found {D A} what (get : M D A) w a w1 : get w = (Ok a, w1) -> lookup_or_nil what get w = (Ok (Some a), w1).
Proof. intros E. unfold lookup_or_nil, bind, attempt. by rewrite E. Qed.

Lemma seed_tenant_again cfg w tn : iam_inv (w_db w) -> tenant_at (w_db w) (sc_TenantCode cfg) tn ->
  exists t, seed_tenant cfg w = (Ok (t, false), tick w) /\ t_ID t = tn.
Proof.
  intros Hi (row & Hr & Hc). exists (toDomainTenant row). split; [| exact (ti_keyed _ (ii_tenants _ Hi) _ _ Hr)].
  unfold seed_tenant, bind at 1. rewrite (lookup_found _ _ w (toDomainTenant row) (tick w)); [done |].
  unfold repo_GetByCode, bind. rewrite (select_from_found _ w tn row); [done | done | done | by apply String.eqb_eq |].
  intros k' r' Hk' Hr'%String.eqb_eq. assert (k' = tn) as ->; [| cbn in Hk'; congruence].
  apply (ti_codes _ (ii_tenants _ Hi) k' r' tn row); [done | done |]. apply String.eqb_eq. congruence.
Qed.

Lemma seed_user_again cfg w u : iam_inv (w_db w) -> user_at (w_db w) (ToLower (sc_Email cfg)) u ->
  exists r, seed_user cfg w = (Ok (r, false), tick w) /\ u_ID r = u.
Proof.
  intros Hi (row & Hr & Hc). exists row. split; [| by apply (ii_users _ Hi)].
  unfold seed_user, bind at 1. rewrite (lookup_found _ _ w row (tick w)); [done |]. rewrite <- Hc. by eapply GetUserByEmail_found.
Qed.

Lemma seed_member_again t u w : iam_inv (w_db w) -> member_at (w_db w) t u -> seed_member t u w = (Ok false, tick w).
Proof.
  intros Hi (Ht & Hu & k & m & Hm & <- & <-). unfold seed_member, bind at 1.
  rewrite (lookup_found _ _ w m (tick w)); [done |]. by eapply GetTenantMember_found.
Qed.

Lemma seed_org_again cfg t w o : orgs_inv (w_db w) -> t <> NilID -> org_at (w_db w) t (sc_OrgCode cfg) o ->
  exists r, seed_org org_refused cfg t w = (Ok (r, false), tick w) /\ org_ID r = o.
Proof.
  intros [Hk Hu] Hn (row & Hr & Ht & Hc). exists (toDomainOrganization row). split; [| exact (Hk _ _ Hr)].
  unfold seed_org, bind at 1. rewrite (lookup_found _ _ w (toDomainOrganization row) (tick w)); [done |].
  unfold GetByCode, org_get, query. rewrite no_fault, (select_one_unique _ _ o row); [done | done | |].
  - unfold by_code, of_tenant. by rewrite andb_true_iff, sql_eq_true, String.eqb_eq.
  - intros k' r' Hk' Hp. unfold by_code, of_tenant in Hp. rewrite andb_true_iff, sql_eq_true, String.eqb_eq in Hp.
    assert (k' = o) as ->; [| congruence]. apply (Hu k' r' o row); [done | done |].
    unfold same_code. rewrite andb_true_iff, bool_decide_eq_true, String.eqb_eq. destruct Hp as [[_ ?] ?]. split; congruence.
Qed.

Lemma wildcard_again w : exists w1, ignore insert_wildcard w = (Ok tt, w1) /\ settled (w_db w) (w_db w1)
  /\ (has_wildcard (w_db w) -> w_db w1 = w_db w).
Proof.
  unfold ignore, insert_wildcard, bind at 1, attempt, bind at 1, NewID. destruct (env_id (w_tick w)) as [id|e]; [| by exists (tick w)].
  unfold query. rewrite no_fault. cbn [w_db tick].
  destruct (existsb _ _) eqn:Ex; [by eexists |]. case_bool_decide as Hx; [by eexists |]. apply eq_None_not_Some in Hx.
  eexists. split; [done |]. split; [split; cbn; try done; by apply insert_subseteq |].
  intros (k & p & Hp & Hc). exfalso. apply not_true_iff_false in Ex. apply Ex. apply existsb_exists. exists p.
  split; [| by apply String.eqb_eq]. apply list_elem_of_In, elem_of_select_rows. eauto.
Qed.

(** A role without permissions has no pair in the pivot. *)
Lemma no_permissions d r p : perms_inv d -> role_permissions d r = [] -> holds r p d = false.
Proof.
  intros [Hi Hk _] E. apply bool_decide_eq_false. intros Hp. destruct (ii_role_perms _ Hi _ _ Hp) as [_ [q Hq]].
  assert (q ∈ role_permissions d r) as Hin; [| rewrite E in Hin; by apply not_elem_of_nil in Hin].
  apply elem_of_select_rows. split; [| eauto]. apply bool_decide_eq_true. by rewrite (Hk _ _ Hq).
Qed.

(** Assigning to such a role only adds pairs. *)
Lemma assign_settled r ps w : perms_inv (w_db w) -> role_permissions (w_db w) r = [] ->
  settled (w_db w) (w_db (AssignPermissionsToRole r ps w).2).
Proof.
  intros Hi E. pose proof (keeps_AssignPermissionsToRole r ps w) as Hk.
  assert (forall role p, (role, p) ∈ iam_role_permissions (w_db w) -> r <> role) as Hne.
  { intros role p Hp ->. pose proof (no_permissions _ role p Hi E) as Hf. by apply bool_decide_eq_false in Hf. }
  assert (forall role p, r <> role -> (role, p) ∈ iam_role_permissions (w_db (AssignPermissionsToRole r ps w).2)
            <-> (role, p) ∈ iam_role_permissions (w_db w)) as Hsame.
  { intros role p Hr. pose proof (keeps_holds_assign r ps role p Hr w) as Hh. apply eq_iff_eq_true in Hh. unfold holds in Hh.
    by rewrite !bool_decide_eq_true in Hh. }
  split; [exact (f_equal iam_tenants Hk) | exact (f_equal iam_users Hk) | exact (f_equal iam_members Hk)
    | exact (f_equal iam_roles Hk) | exact (f_equal iam_user_roles Hk) | | |].
  - pose proof (f_equal iam_permissions Hk) as Ep. cbn in Ep. by rewrite Ep.
  - intros [role p] Hp. apply Hsame; eauto.
  - intros role p q Hp Hq. apply Hsame in Hq; eauto.
Qed.

Lemma GetRoleByCode_found t c w id : iam_inv (w_db w) -> t <> NilID -> role_at (w_db w) t c id ->
  exists r, GetRoleByCode t c w = (Ok r, tick (tick w)) /\ r_ID r = id
    /\ r_Permissions r ≡ₚ role_permissions (w_db w) id.
Proof.
  intros Hi Hn (row & Hr & Ht & Hc). pose proof (ii_roles _ Hi _ _ Hr) as Eid.
  exists (with_permissions row (merge_sort (by_text perm_Code) (role_permissions (w_db w) (r_ID row)))). split_and!; [| done |].
  - unfold GetRoleByCode, bind at 1. rewrite (select_from_found _ w id row); [| done | done | |].
    + unfold fill_permissions, bind, attempt, ListRolePermissions, query. by rewrite no_fault.
    + unfold role_by_code. by rewrite andb_true_iff, sql_eq_true, String.eqb_eq.
    + intros k' r' Hk' Hp. unfold role_by_code in Hp. rewrite andb_true_iff, sql_eq_true, String.eqb_eq in Hp. destruct Hp as [[_ Ht'] Hc'].
      assert (k' = id) as ->; [| cbn in Hk'; congruence]. eapply role_at_unique; [exact Hi | |]; eexists; (split; [done |]); [done |]. done.
  - cbn. by rewrite merge_sort_Permutation, Eid.
Qed.

Lemma assign_no_panic r ps w e w' : for_each ps (AssignPermissionToRole r) w <> (Panic e, w').
Proof.
  revert w. induction ps as [|p ps IH]; intros w; cbn [for_each]; [done |]. unfold bind.
  destruct (AssignPermissionToRole r p w) as [[a|e'|e'] w1] eqn:E; [apply IH | done |]. exfalso.
  unfold AssignPermissionToRole, query in E. rewrite no_fault in E. repeat case_match; simplify_eq.
Qed.

Lemma ignore_assign r ps w : ignore (AssignPermissionsToRole r ps) w = (Ok tt, (AssignPermissionsToRole r ps w).2).
Proof.
  unfold ignore at 1, bind at 1, attempt. destruct (AssignPermissionsToRole r ps w) as [[[]|e|e] w'] eqn:E; [done | done |]. exfalso.
  unfold AssignPermissionsToRole, bind at 1 in E.
  unfold ignore, bind, attempt, ClearRolePermissions, query in E. rewrite no_fault in E. cbn in E. by apply assign_no_panic in E.
Qed.

Lemma seed_role_again t ps rd w id : perms_inv (w_db w) -> t <> NilID -> role_at (w_db w) t (rd_code rd) id ->
  exists w1, seed_role t ps rd w = (Ok (id, false), w1) /\ settled (w_db w) (w_db w1).
Proof.
  intros Hi Hn Hr. destruct (GetRoleByCode_found t (rd_code rd) w id (pi_iam _ Hi) Hn Hr) as (r & E & <- & Hp).
  unfold seed_role, bind at 1. rewrite (lookup_found _ _ w r _ E). destruct (r_Permissions r) as [|q l] eqn:Er; [| by eexists].
  apply Permutation_nil_l in Hp. unfold bind at 1. rewrite ignore_assign.
  eexists. split; [done |]. exact (assign_settled (r_ID r) (rd_getPermIDs rd ps) (tick (tick w)) Hi (eq_sym Hp)).
Qed.

Lemma role_at_settled d d' t c i : settled d d' -> role_at d t c i -> role_at d' t c i.
Proof. intros Hs (row & Hr). exists row. by rewrite (sd_roles _ _ Hs). Qed.

Lemma seed_roles_again t ps defs c s o w : perms_inv (w_db w) -> t <> NilID ->
  (forall rd, rd ∈ defs -> exists id, role_at (w_db w) t (rd_code rd) id) ->
  exists w1 o', seed_roles t ps defs c s o w = (Ok (c, s + Z.of_nat (length defs), o'), w1) /\ settled (w_db w) (w_db w1).
Proof.
  revert s o w. induction defs as [|rd defs IH]; intros s o w Hi Hn Hr.
  { exists w, o. cbn. by rewrite Z.add_0_r. }
  destruct (Hr rd) as [id Hid]; [left |]. destruct (seed_role_again t ps rd w id Hi Hn Hid) as (w1 & E & Hs).
  destruct (grows_seed_role t ps rd w Hi) as [Hi1 _]. rewrite E in Hi1. cbn [seed_roles]. unfold bind at 1. rewrite E.
  destruct (IH (s + 1) (if String.eqb (rd_code rd) "owner" then id else o) w1 Hi1 Hn) as (w2 & o' & E2 & Hs2).
  { intros rd' Hrd'. destruct (Hr rd') as [id' Hid']; [by right |]. exists id'. by eapply role_at_settled. }
  exists w2, o'. split; [| by etrans]. rewrite E2. cbn [length]. by replace (s + 1 + Z.of_nat (length defs)) with (s + Z.of_nat (S (length defs))) by lia.
Qed.

Lemma seed_owner_again t u o w r row : iam_inv (w_db w) -> (t, u, r) ∈ iam_user_roles (w_db w) -> iam_roles (w_db w) !! r = Some row ->
  r_Code row = "owner" -> seed_owner t u o w = (Ok false, tick w).
Proof.
  intros Hi Hu Hr Hc. unfold seed_owner, wrap_err, bind at 1, bind at 1, attempt, ListUserRolesInTenant, query. rewrite no_fault. cbn [ret].
  set (listed := map _ _). assert (existsb (fun r => String.eqb (r_Code r) "owner") listed = true) as ->; [| done].
  apply existsb_exists. eexists. split; [apply in_map, list_elem_of_In | by apply String.eqb_eq].
  rewrite merge_sort_Permutation. apply elem_of_roles_of; [apply Hi |]. by rewrite (ii_roles _ Hi _ _ Hr).
Qed.

Lemma seeded_settled cfg d d' tn o u : seeded cfg d tn o u -> settled (sb_iam d) (sb_iam d') -> sb_orgs d' = sb_orgs d -> seeded cfg d' tn o u.
Proof.
  intros [] [S1 S2 S3 S4 S5 _ _ _] Eo. split; unfold tenant_at, user_at, member_at, role_at in *; rewrite ?S1, ?S2, ?S3, ?S4, ?S5, ?Eo; try done.
Qed.

(** One step of a second run, on the whole database. *)
Lemma zoom_again {A} (m : M IamDB A) (w : World SeedDB) a w1 : grows_by m -> seed_inv (w_db w) ->
  m (mkWorld (sb_iam (w_db w)) (w_tick w)) = (Ok a, w1) -> settled (sb_iam (w_db w)) (w_db w1) ->
  exists w2, zoom m w = (Ok a, w2) /\ seed_inv (w_db w2) /\ sb_iam (w_db w2) = w_db w1 /\ sb_orgs (w_db w2) = sb_orgs (w_db w).
Proof.
  intros Hg [Hi Ho] E Hs. destruct (Hg (mkWorld (sb_iam (w_db w)) (w_tick w)) Hi) as [Hi1 _]. rewrite E in Hi1.
  eexists. split; [unfold zoom; cbn [lens_get Lens_sb_iam]; rewrite E; done |]. by split; [split |].
Qed.

Lemma zoom_tick {E A} `{Lens SeedDB E} (m : M E A) (w : World SeedDB) a :
  m (mkWorld (lens_get (w_db w)) (w_tick w)) = (Ok a, tick (mkWorld (lens_get (w_db w)) (w_tick w))) -> zoom m w = (Ok a, tick w).
Proof. intros E'. unfold zoom. rewrite E'. unfold tick. cbn. by rewrite lens_set_get. Qed.

(** The steps after the wildcard, on a seeded database. *)
Lemma steps_again c w tn o u : seed_inv (w_db w) -> seeded c (w_db w) tn o u ->
  exists t g v perms w1 ow,
    zoom (seed_tenant c) w = (Ok (t, false), tick w) /\ t_ID t = tn
    /\ zoom (seed_org org_refused c tn) (tick w) = (Ok (g, false), tick (tick w)) /\ org_ID g = o
    /\ zoom (seed_user c) (tick (tick w)) = (Ok (v, false), tick (tick (tick w))) /\ u_ID v = u
    /\ zoom (seed_member tn u) (tick (tick (tick w))) = (Ok false, tick (tick (tick (tick w))))
    /\ zoom (wrap_err "list permissions" repo_ListPermissions) (tick (tick (tick (tick w)))) = (Ok perms, tick (tick (tick (tick (tick w)))))
    /\ zoom (seed_roles tn perms rolesToSeed 0 0 NilID) (tick (tick (tick (tick (tick w))))) = (Ok (0, 6, ow), w1)
    /\ zoom (seed_owner tn u ow) w1 = (Ok false, tick w1)
    /\ settled (sb_iam (w_db w)) (sb_iam (w_db w1)) /\ sb_orgs (w_db w1) = sb_orgs (w_db w)
    /\ iam_permissions (sb_iam (w_db w1)) = iam_permissions (sb_iam (w_db w)).
Proof.
  intros Hi [T G U Mm R (r & row & A1 & A2 & A3)]. pose proof (pi_iam _ (proj1 Hi)) as Hiam.
  destruct (seed_tenant_again c (mkWorld (sb_iam (w_db w)) (w_tick w)) tn Hiam T) as (t & Et & Ht).
  destruct (seed_org_again c tn (mkWorld (sb_orgs (w_db w)) (S (w_tick w))) o (proj2 Hi) (proj1 Mm) G) as (g & Eg & Hg).
  destruct (seed_user_again c (mkWorld (sb_iam (w_db w)) (S (S (w_tick w)))) u Hiam U) as (v & Ev & Hv).
  set (perms := merge_sort perm_le (select_rows (fun _ => true) (iam_permissions (sb_iam (w_db w))))).
  set (w5 := tick (tick (tick (tick (tick w))))).
  destruct (seed_roles_again tn perms rolesToSeed 0 0 NilID (mkWorld (sb_iam (w_db w)) (w_tick w5)) (proj1 Hi) (proj1 Mm) R) as (v1 & ow & Er & Sr).
  pose proof (keeps_perms_roles tn perms rolesToSeed 0 0 NilID (mkWorld (sb_iam (w_db w)) (w_tick w5))) as Kp. rewrite Er in Kp.
  destruct (zoom_again _ w5 _ v1 (grows_seed_roles tn perms rolesToSeed 0 0 NilID) Hi Er Sr) as (w6 & Ez & Hi6 & D6 & O6).
  exists t, g, v, perms, w6, ow. cbn [w_db tick] in *.
  split_and!; [by apply zoom_tick | done | by apply zoom_tick | done | by apply zoom_tick | done | apply zoom_tick | apply zoom_tick | exact Ez
    | apply zoom_tick | by rewrite D6 | exact O6 | by rewrite D6].
  - by apply seed_member_again.
  - apply wrap_err_Ok. unfold repo_ListPermissions, query. by rewrite no_fault.
  - apply (seed_owner_again _ _ _ _ r row); cbn; [apply Hi6 | by rewrite D6, (sd_user_roles _ _ Sr) | by rewrite D6, (sd_roles _ _ Sr) | done].
Qed.

Lemma Run_again cfg w tn o u : seed_inv (w_db w) -> seeded (with_defaults cfg) (w_db w) tn o u -> sc_Email cfg <> "" -> sc_Password cfg <> "" ->
  exists w', Run org_refused cfg w = (Ok (mkSeedResult false tn false o false u false 0 6 false), w')
    /\ settled (sb_iam (w_db w)) (sb_iam (w_db w')) /\ sb_orgs (w_db w') = sb_orgs (w_db w)
    /\ (has_wildcard (sb_iam (w_db w)) -> iam_permissions (sb_iam (w_db w')) = iam_permissions (sb_iam (w_db w))).
Proof.
  intros Hi Hs He Hp. unfold Run. apply String.eqb_neq in He, Hp. rewrite He, Hp. unfold guard at 1 2, bind at 1, ret at 1. unfold bind at 1, ret at 1.
  cbv zeta. set (c := with_defaults cfg) in *.
  destruct (wildcard_again (mkWorld (sb_iam (w_db w)) (w_tick w))) as (v1 & E1 & S1 & W1). cbn [w_db] in S1, W1.
  destruct (zoom_again _ w _ v1 (grows_by_ignore _ grows_insert_wildcard) Hi E1 S1) as (w1 & Ew & Hi1 & D1 & O1).
  rewrite <- D1 in S1, W1.
  destruct (steps_again c w1 tn o u Hi1 (seeded_settled _ _ _ _ _ _ Hs S1 O1))
    as (t & g & v & perms & w2 & ow & Z1 & H1' & Z2 & H2' & Z3 & H3' & Z4 & Z5 & Z6 & Z7 & S2 & O2 & P2).
  exists (tick w2). unfold bind. rewrite Ew, Z1. cbn [fst snd]. rewrite H1', Z2, Z3. cbn [fst snd]. rewrite H3', Z4, Z5, Z6, Z7. cbn.
  rewrite H2'. split_and!; [done | by etrans | by etrans |]. intros Hw. by rewrite P2, W1.
Qed.
End Again.


(** ** Whatever a run returns *)

(** The six codes of the roles a run looks after. *)
Definition system_codes : list string := map rd_code rolesToSeed.

(** From [d] to [d'] the tables stay consistent and every table but that of the
    permissions of roles only grows.  There, the pairs of a role stay exactly as they are
    unless it has one of the six codes in the tenant with this code; and, when the
    run is [quiet], no pair is lost. *)
Record only_adds (quiet : Prop) (code : string) (d d' : SeedDB) : Prop := {
  oa_inv : seed_inv d';
  oa_iam : extends (sb_iam d) (sb_iam d');
  oa_orgs : sb_orgs d ⊆ sb_orgs d';
  oa_spared : forall role row p, iam_roles (sb_iam d) !! role = Some row ->
    r_Code row ∉ system_codes \/ ~ tenant_at (sb_iam d) code (r_TenantID row) ->
    (role, p) ∈ iam_role_permissions (sb_iam d') <-> (role, p) ∈ iam_role_permissions (sb_iam d);
  oa_grants : quiet -> iam_role_permissions (sb_iam d) ⊆ iam_role_permissions (sb_iam d');
}.

(** The same for the identity tables, when the tenant is known. *)
Record spares (quiet : Prop) (t : ID) (d d' : IamDB) : Prop := {
  sp_iam : extends d d';
  sp_spared : forall role row p, iam_roles d !! role = Some row -> r_Code row ∉ system_codes \/ r_TenantID row <> t ->
    (role, p) ∈ iam_role_permissions d' <-> (role, p) ∈ iam_role_permissions d;
  sp_grants : quiet -> iam_role_permissions d ⊆ iam_role_permissions d';
}.

#[export] Instance spares_preorder quiet t : PreOrder (spares quiet t).
Proof.
  split; [by split |]. intros a b c [Ia Sa Ga] [Ib Sb Gb]. split; [by etrans | | intros Hq; etrans; auto].
  intros role row p Hr Hs. rewrite (Sb role row p), (Sa role row p); try done. eapply lookup_weaken; [done | apply Ia].
Qed.

Lemma spares_same quiet t d d' : extends d d' -> iam_role_permissions d' = iam_role_permissions d -> spares quiet t d d'.
Proof. intros He E. split; [done | by rewrite E | by rewrite E]. Qed.

Section Outcomes.
  Context `{UnicodeTables, Env, Pg, TenantServer, IamServer, Bcrypt}.
  Variable org_refused : OrgRow -> option error.

Definition answers : Prop := forall k, env_fault k = None.

Lemma ignore_world {D A} (m : M D A) w : (ignore m w).2 = (m w).2.
Proof. unfold ignore, bind, attempt. by destruct (m w) as [[a|e|e] w1]. Qed.
Lemma wrap_err_world {D A} what (m : M D A) w : (wrap_err what m w).2 = (m w).2.
Proof. unfold wrap_err, bind, attempt. by destruct (m w) as [[a|e|e] w1]. Qed.
Lemma bind_ret_world {D A B} (m : M D A) (b : B) w : (bind m (fun _ => ret b) w).2 = (m w).2.
Proof. unfold bind. by destruct (m w) as [[a|e|e] w1]. Qed.

(** Assigning to a system role of the tenant that, when the database answers, has no
    permissions. *)
Lemma assign_spares t c r ps w : perms_inv (w_db w) -> role_at (w_db w) t c r -> c ∈ system_codes ->
  (answers -> role_permissions (w_db w) r = []) -> spares answers t (w_db w) (w_db (AssignPermissionsToRole r ps w).2).
Proof.
  intros Hi (row & Hr & Ht & Hc) Hs Hn. split; [by apply grows_AssignPermissionsToRole | |].
  - intros role row' p Hr' Hx. assert (r <> role) as Hne by (intros ->; destruct Hx; simplify_eq; congruence).
    pose proof (keeps_holds_assign r ps role p Hne w) as Hh. apply eq_iff_eq_true in Hh. unfold holds in Hh.
    by rewrite !bool_decide_eq_true in Hh.
  - intros Hq. by apply (assign_settled r ps w Hi), Hn.
Qed.

Lemma GetRoleByCode_perms t c w r w' : answers -> GetRoleByCode t c w = (Ok r, w') -> r_Permissions r ≡ₚ role_permissions (w_db w) (r_ID r).
Proof.
  intros Hq E. unfold GetRoleByCode in E. apply bind_Ok in E as (row & w1 & R & E).
  pose proof (reads_select_from (role_by_code t c) w) as Hd. rewrite R in Hd. cbn in Hd. rewrite <- Hd.
  unfold fill_permissions, bind, attempt, ListRolePermissions, query in E. rewrite Hq in E. unfold ret in E. simplify_eq. cbn.
  apply merge_sort_Permutation.
Qed.

Lemma repo_CreateRole_Ok row w r w1 : repo_CreateRole row w = (Ok r, w1) ->
  iam_roles (w_db w) !! r_ID r = None /\ role_at (w_db w1) (r_TenantID row) (r_Code row) (r_ID r)
  /\ iam_role_permissions (w_db w1) = iam_role_permissions (w_db w).
Proof.
  intros E. unfold repo_CreateRole in E. step_inv.
  match goal with X : insert_into _ _ _ _ _ _ = _ |- _ => apply insert_into_Ok in X as (-> & Hd & Hn & _) end. rewrite Hd. cbn in *.
  split_and!; [done | | done]. eexists. cbn. by rewrite lookup_insert_eq.
Qed.

(** A new role has no permissions before the assignment. *)
Lemma no_pairs d r : perms_inv d -> (forall p, (r, p) ∉ iam_role_permissions d) -> role_permissions d r = [].
Proof.
  intros Hi Hn. destruct (role_permissions d r) as [|p l] eqn:E; [done |]. exfalso.
  assert (p ∈ role_permissions d r) as Hp by (rewrite E; left). unfold role_permissions in Hp.
  apply elem_of_select_rows in Hp as [Hp%bool_decide_eq_true _]. by apply Hn in Hp.
Qed.

Lemma new_role_spares what what' row ps (b : bool) w : perms_inv (w_db w) -> r_Code row ∈ system_codes ->
  spares answers (r_TenantID row) (w_db w)
    (w_db ((role <- wrap_err what (repo_CreateRole row) ;; wrap_err what' (AssignPermissionsToRole (r_ID role) ps) ;;; ret (r_ID role, b)) w).2).
Proof.
  intros Hi Hc. pose proof (wrap_err_world what (repo_CreateRole row) w) as Hw.
  pose proof (grows_repo_CreateRole row w Hi) as [Hi1 He]. rewrite <- Hw in Hi1, He.
  assert (writes_last (wrap_err what (repo_CreateRole row))) as Hl by (unfold repo_CreateRole; frame). specialize (Hl w).
  unfold bind at 1. destruct (wrap_err what _ w) as [[r|e|e] w1] eqn:E; cbn [fst snd] in *; [| by rewrite Hl ..].
  apply wrap_err_Ok, repo_CreateRole_Ok in E as (Hn & Ha & Ep). rewrite bind_ret_world, wrap_err_world.
  trans (w_db w1); [by apply spares_same |]. apply (assign_spares _ (r_Code row)); [done | done | done |].
  intros _. apply no_pairs; [done |]. intros p Hp. rewrite Ep in Hp. destruct (ii_role_perms _ (pi_iam _ Hi) _ _ Hp) as [[x Hx] _]. congruence.
Qed.

(** Reading first. *)
Lemma spares_after {A B} t (m : M IamDB A) (k : A -> M IamDB B) w : reads m -> perms_inv (w_db w) ->
  (forall a w1, m w = (Ok a, w1) -> perms_inv (w_db w1) -> spares answers t (w_db w1) (w_db (k a w1).2)) ->
  spares answers t (w_db w) (w_db (bind m k w).2).
Proof.
  intros Hr Hi Hk. specialize (Hr w). unfold bind. destruct (m w) as [[a|e|e] w1]; cbn in Hr; rewrite <- Hr in *; [by apply Hk | done | done].
Qed.

Lemma seed_role_spares t ps rd w : rd ∈ rolesToSeed -> perms_inv (w_db w) -> spares answers t (w_db w) (w_db (seed_role t ps rd w).2).
Proof.
  intros Hrd Hi. assert (rd_code rd ∈ system_codes) as Hc by by apply list_elem_of_fmap_2.
  apply spares_after; [apply reads_lookup_or_nil, reads_GetRoleByCode | done |]. intros o w1 E Hi1.
  apply lookup_or_nil_Ok in E as [Hd Hg]; [| apply reads_GetRoleByCode]. destruct o as [r|].
  - rewrite bind_ret_world. destruct Hg as [w2 Hg]. destruct (r_Permissions r) eqn:Ep; [| done]. rewrite ignore_world.
    apply (assign_spares t (rd_code rd)); [done | | done |]; rewrite Hd.
    + eapply GetRoleByCode_Ok; [apply Hi | exact Hg].
    + intros Hq. apply GetRoleByCode_perms in Hg; [| done]. rewrite Ep in Hg. by apply Permutation_nil_l in Hg.
  - clear Hd Hg. do 3 (apply spares_after; [frame | done |]; intros ? ? _ ?). by apply (new_role_spares _ _ (mkRole _ t _ _ _ _ _ _ _)).
Qed.

Lemma seed_roles_spares t ps defs c s o w : (forall rd, rd ∈ defs -> rd ∈ rolesToSeed) -> perms_inv (w_db w) ->
  spares answers t (w_db w) (w_db (seed_roles t ps defs c s o w).2).
Proof.
  revert c s o w. induction defs as [|rd defs IH]; intros c s o w Hd Hi; [done |]. cbn [seed_roles].
  pose proof (seed_role_spares t ps rd w (Hd _ (list_elem_of_here _ _)) Hi) as Hs1. destruct (grows_seed_role t ps rd w Hi) as [Hi1 _].
  unfold bind at 1. destruct (seed_role t ps rd w) as [[[id new]|e|e] w1]; [| done | done].
  trans (w_db w1); [done |]. apply IH; [| done]. intros rd' Hrd'. apply Hd. by right.
Qed.
(** A step of a run, which may rely on the tenant that was found or made. *)
Definition knows (code : string) (t : option ID) (d : SeedDB) : Prop := match t with Some id => tenant_at (sb_iam d) code id | None => True end.
Definition adds {A} (code : string) (t : option ID) (m : M SeedDB A) : Prop :=
  forall w, seed_inv (w_db w) -> knows code t (w_db w) -> only_adds answers code (w_db w) (w_db (m w).2).

Lemma knows_kept code t d d' : extends (sb_iam d) (sb_iam d') -> knows code t d -> knows code t d'.
Proof. intros He. destruct t; [by apply tenant_at_extends | done]. Qed.

Lemma only_adds_refl quiet code d : seed_inv d -> only_adds quiet code d d.
Proof. intros Hi. by split. Qed.

(** Tenants of existing roles are there from the start. *)
Lemma tenant_at_back d d' code role row : iam_inv d -> extends d d' -> iam_roles d !! role = Some row ->
  tenant_at d' code (r_TenantID row) -> tenant_at d code (r_TenantID row).
Proof.
  intros Hi He Hr (t' & Ht' & Hc). destruct (ii_role_tenant _ Hi _ _ Hr) as [t Ht]. exists t. split; [done |].
  pose proof (lookup_weaken _ _ _ _ Ht (ex_tenants _ _ He)). congruence.
Qed.

Lemma only_adds_trans quiet code a b c : seed_inv a -> only_adds quiet code a b -> only_adds quiet code b c -> only_adds quiet code a c.
Proof.
  intros [[Hi _ _] _] [_ Ea Oa Sa Ga] [Ib Eb Ob Sb Gb]. split; [done | by etrans | by etrans | | intros Hq; etrans; auto].
  intros role row p Hr Hs. rewrite (Sb role row p), (Sa role row p); [done | done | done | eapply lookup_weaken; [done | apply Ea] |].
  destruct Hs as [Hs|Hs]; [by left | right]. intros Ht. apply Hs. by eapply tenant_at_back.
Qed.

Lemma adds_reads {A} code t (m : M SeedDB A) : reads m -> adds code t m.
Proof. intros Hm w Hi _. rewrite Hm. by apply only_adds_refl. Qed.

(** [learn]: what an answer says of the tenant. *)
Lemma adds_then {A B} code t (learn : A -> option ID) (m : M SeedDB A) (k : A -> M SeedDB B) : adds code t m ->
  (forall w a w1, seed_inv (w_db w) -> knows code t (w_db w) -> m w = (Ok a, w1) -> knows code (learn a) (w_db w1)) ->
  (forall a, adds code (learn a) (k a)) -> adds code t (bind m k).
Proof.
  intros Hm Hl Hk w Hi Ht. specialize (Hm w Hi Ht). unfold bind. destruct (m w) as [[a|e|e] w1] eqn:E; [| done | done].
  eapply only_adds_trans; [done | done |]. apply Hk; [apply Hm | by eapply Hl].
Qed.

Lemma adds_bind {A B} code t (m : M SeedDB A) (k : A -> M SeedDB B) : adds code t m -> (forall a, adds code t (k a)) -> adds code t (bind m k).
Proof.
  intros Hm Hk. apply (adds_then code t (fun _ => t)); [done | | done].
  intros w a w1 Hi Ht E. specialize (Hm w Hi Ht). rewrite E in Hm. eapply knows_kept; [apply Hm | done].
Qed.

Lemma adds_iam {A} code t (m : M IamDB A) : grows_by m -> keeps iam_role_permissions m -> adds code t (zoom m).
Proof.
  intros Hm Hk w [Hi Ho] _. unfold zoom. cbn [lens_get Lens_sb_iam]. set (w0 := mkWorld (sb_iam (w_db w)) (w_tick w)).
  destruct (Hm w0 Hi) as [Hi1 X1]. specialize (Hk w0). destruct (m w0) as [r w1]. cbn in *. split; cbn; [by split | done | done | by rewrite Hk | by rewrite Hk].
Qed.

Lemma adds_roles code t ps : adds code (Some t) (zoom (seed_roles t ps rolesToSeed 0 0 NilID)).
Proof.
  intros w [Hi Ho] Ht. unfold zoom. cbn [lens_get Lens_sb_iam]. set (w0 := mkWorld (sb_iam (w_db w)) (w_tick w)).
  destruct (grows_seed_roles t ps rolesToSeed 0 0 NilID w0 Hi) as [Hi1 _].
  destruct (seed_roles_spares t ps rolesToSeed 0 0 NilID w0 (fun _ h => h) Hi) as [He Hs Hg].
  destruct (seed_roles _ _ _ _ _ _ w0) as [r w1]. cbn in *. split; cbn; [by split | done | done | | done].
  intros role row p Hr Hx. apply (Hs role row p Hr). destruct Hx as [Hx|Hx]; [by left | right]. intros Et. apply Hx. by rewrite Et.
Qed.

Lemma seed_org_writes_last cfg t : writes_last (seed_org org_refused cfg t).
Proof.
  unfold seed_org, lookup_or_nil, GetByCode, Create. frame. by apply (reads_org_get org_refused).
Qed.

Lemma adds_org code t' cfg t : adds code t' (zoom (seed_org org_refused cfg t)).
Proof.
  intros w [Hi Ho] _. unfold zoom. cbn [lens_get Lens_sb_orgs]. pose proof (seed_org_writes_last cfg t (mkWorld (sb_orgs (w_db w)) (w_tick w))) as Hw.
  destruct (seed_org org_refused cfg t _) as [[[o b]|e|e] w1] eqn:E; [| cbn in Hw |- *; rewrite Hw by done; by split ..].
  apply seed_org_Ok in E as (Ho1 & Hs & _); [by split | done].
Qed.

(** The steps that leave the permissions of roles alone. *)
#[local] Hint Resolve reads_lookup_or_nil reads_repo_GetByCode reads_GetUserByEmail reads_GetTenantMember reads_ListUserRolesInTenant : go_frame.

Ltac seed_keeps := repeat first
  [ apply keeps_reads; solve [frame] | apply keeps_ret | apply keeps_attempt | by apply keeps_query_insert
  | apply keeps_bind; [| intros ?] | case_match | done ].

Lemma keeps_grants_wildcard : keeps iam_role_permissions (ignore insert_wildcard).
Proof. unfold ignore, insert_wildcard. seed_keeps. apply keeps_query. intros d x d' E. repeat case_match; by simplify_eq. Qed.
Lemma keeps_grants_tenant cfg : keeps iam_role_permissions (seed_tenant cfg).
Proof. unfold seed_tenant, repo_Create, wrap_err. seed_keeps. Qed.
Lemma keeps_grants_user cfg : keeps iam_role_permissions (seed_user cfg).
Proof. unfold seed_user, CreateUser, wrap_err. seed_keeps. Qed.
Lemma keeps_grants_member t u : keeps iam_role_permissions (seed_member t u).
Proof. unfold seed_member, AddTenantMember, wrap_err. seed_keeps. Qed.
Lemma keeps_grants_owner t u o : keeps iam_role_permissions (seed_owner t u o).
Proof.
  unfold seed_owner, AssignUserRole, insert_user_role, wrap_err. seed_keeps; apply keeps_query; intros d x d' E; repeat case_match; by simplify_eq.
Qed.

Lemma Run_adds cfg : adds (sc_TenantCode (with_defaults cfg)) None (Run org_refused cfg).
Proof.
  unfold Run. repeat (apply adds_bind; [apply adds_reads, reads_guard | intros _]). cbv zeta.
  apply adds_bind; [apply adds_iam; [apply grows_by_ignore, grows_insert_wildcard | apply keeps_grants_wildcard] | intros _].
  apply (adds_then _ _ (fun t => Some (t_ID t.1))); [apply adds_iam; [apply grows_seed_tenant | apply keeps_grants_tenant] | |].
  { intros w [t b] w1 [Hi _] _ (w2 & E & ->)%zoom_Ok. apply seed_tenant_Ok in E as Hx; [| apply Hi]. apply Hx. }
  intros t. apply adds_bind; [apply adds_org | intros o].
  apply adds_bind; [apply adds_iam; [apply grows_seed_user | apply keeps_grants_user] | intros u].
  apply adds_bind; [apply adds_iam; [apply grows_seed_member | apply keeps_grants_member] | intros m].
  apply adds_bind; [apply adds_iam; [apply grows_reads | apply keeps_reads]; frame; apply reads_query; naive_solver | intros perms].
  apply adds_bind; [apply adds_roles | intros [[c s] ow]].
  apply adds_bind; [apply adds_iam; [apply grows_seed_owner | apply keeps_grants_owner] | intros b]. by apply adds_reads.
Qed.
End Outcomes.

(** ** Correctness of a run *)

(** Bootstrapping.  Whatever fails on the way, a run that succeeds leaves the
    tenant, its organization, the owner, the membership and all six system
    roles in place with the owner holding a role with the code of the owner; it
    only adds tenants, users, members, roles, permissions, assignments and
    organizations, and keeps the tables consistent.  When all six roles and the
    assignment are new, the owner is granted every permission of the catalogue.
    A later run with the same configuration, when no round trip fails, succeeds,
    reports the same identifiers and nothing created, and leaves the tenants,
    users, members, roles, assignments and organizations as they are: it can
    only add the wildcard permission, if it is missing, and permissions of roles
    that have none. *)
Theorem bootstrap_idempotent `{UnicodeTables, Pg, TenantServer, IamServer, Bcrypt} (E1 E2 : Env) org_refused cfg w res w1 n :
  seed_inv (w_db w) -> (forall k, env_fault (Env := E2) k = None) ->
  Run (H0 := E1) org_refused cfg w = (Ok res, w1) ->
  let d := sb_iam (w_db w1) in
  seed_inv (w_db w1) /\ extends (sb_iam (w_db w)) d /\ sb_orgs (w_db w) ⊆ sb_orgs (w_db w1)
  /\ seeded (with_defaults cfg) (w_db w1) (sr_TenantID res) (sr_OrgID res) (sr_UserID res)
  /\ sr_RolesCreated res + sr_RolesSkipped res = 6
  /\ (sr_RolesCreated res = 6 -> sr_UserRoleCreated res = true ->
      forall k p, iam_permissions d !! k = Some p -> granted d (sr_TenantID res) (sr_UserID res) (perm_Code p))
  /\ exists w2, Run (H0 := E2) org_refused cfg (mkWorld (w_db w1) n)
         = (Ok (mkSeedResult false (sr_TenantID res) false (sr_OrgID res) false (sr_UserID res) false 0 6 false), w2)
       /\ settled d (sb_iam (w_db w2)) /\ sb_orgs (w_db w2) = sb_orgs (w_db w1)
       /\ (has_wildcard d -> iam_permissions (sb_iam (w_db w2)) = iam_permissions d).
Proof.
  intros Hi Hf E d. pose proof (Run_Ok org_refused cfg w res w1 Hi E) as (Hi1 & He & Ho & Hs & Hn & Hg).
  split_and!; try done. unfold Run in E. step_inv.
  apply (Run_again (H0 := E2) org_refused Hf cfg (mkWorld (w_db w1) n)); [done | done | by apply String.eqb_neq | by apply String.eqb_neq].
Qed.

Definition demo_config : SeedConfig := mkSeedConfig "Owner@Akordium.ID" "secret-pw" "" "" "" "" "".
Definition demo_seed : SeedDB := mkSeedDB (empty_iam demo_permissions) ∅.

Lemma demo_seed_inv : seed_inv demo_seed.
Proof.
  split; [split; [apply empty_iam_inv | | done] | by split].
  intros k p. cbn. unfold demo_permissions. rewrite lookup_insert_Some, lookup_singleton_Some. naive_solver.
Qed.

(** An empty installation: everything is created, and the owner holds the
    wildcard; the second run creates nothing. *)
Lemma bootstrap_idempotent_witness :
  let I1 := calm zeroTime 1 in let I2 := pgx 0 in let I3 := open_tenant_server in let I4 := open_iam_server in let I5 := plain_bcrypt in
  let out := Run (fun _ => None) demo_config (mkWorld demo_seed 0) in
  exists res, out.1 = Ok res
  /\ res = mkSeedResult true 4%N true 9%N true 15%N true 6 0 true
  /\ seeded (with_defaults demo_config) (w_db out.2) 4%N 9%N 15%N
  /\ granted (sb_iam (w_db out.2)) 4%N 15%N wildcard
  /\ (Run (fun _ => None) demo_config (mkWorld (w_db out.2) 99)).1 = Ok (mkSeedResult false 4%N false 9%N false 15%N false 0 6 false).
Proof.
  intros I1 I2 I3 I4 I5 out. set (res := mkSeedResult true 4%N true 9%N true 15%N true 6 0 true).
  assert (out = (Ok res, out.2)) as E by (unfold out, res; vm_compute; reflexivity).
  exists res. split; [by rewrite E |]. split; [done |].
  destruct (bootstrap_idempotent I1 I1 (fun _ => None) demo_config (mkWorld demo_seed 0) res out.2 99 demo_seed_inv ltac:(done) E)
    as (_ & _ & _ & Hs & _ & Hg & w2 & E2 & _).
  split; [exact Hs |]. split; [| by rewrite E2].
  refine (Hg eq_refl eq_refl 1%N (mkPermission 1%N wildcard "Superuser Wildcard" "system" "Wildcard permission granting full system access") _).
  vm_compute. reflexivity.
Defined.

(** A failure where the code drops the error.  The permissions of an existing
    role are read by a query of their own, whose failure looks like a role
    without permissions: the run then replaces what an administrator gave the
    role by the defaults. *)
Theorem bootstrap_resets_role :
  let I2 := pgx 0 in let I3 := open_tenant_server in let I4 := open_iam_server in let I5 := plain_bcrypt in
  let E := calm zeroTime 1 in
  let first := Run (H0 := E) (fun _ => None) demo_config (mkWorld demo_seed 0) in
  let custom := AssignPermissionsToRole (H := E) 25%N [6%N] (mkWorld (sb_iam (w_db first.2)) 0) in
  let d := mkSeedDB (w_db custom.2) (sb_orgs (w_db first.2)) in
  let broken := {| env_id := env_id (Env := E); env_now := env_now (Env := E);
                   env_fault n := if (n =? 8)%nat then Some (ENew "conn closed") else None |} in
  let again := Run (H0 := broken) (fun _ => None) demo_config (mkWorld d 0) in
  map perm_ID (role_permissions (sb_iam d) 25%N) = [6%N]
  /\ is_Ok again.1 = true
  /\ map perm_ID (role_permissions (sb_iam (w_db again.2)) 25%N) = [6%N; 5%N; 1%N].
Proof. by vm_compute. Qed.
