(* ===== verification/Config.v ===== *)
(** * Configuration

    [pkg/config/config.go] and the part of [cmd/server/main.go] and of [New] in
    [pkg/app/app.go] that uses it: the environment variables, their defaults, and
    the check of the secret that signs the tokens. *)

From S2P Require Import Prelude GoStrings Net GoTime GoFloat Sdk Auth Identity RateLimit Middleware Http App.
From S2P Require Registry.
#[local] Open Scope string_scope.
#[local] Open Scope list_scope.
#[local] Open Scope Z_scope.

(** ** The standard library *)

(** [strings.SplitSeq] at a byte. *)
Fixpoint Split (c : ascii) (s : string) : list string :=
  match s with
  | "" => [""]
  | String d s' =>
      if Ascii.eqb d c then "" :: Split c s'
      else match Split c s' with [] => [String d ""] | p :: ps => String d p :: ps end
  end.

(** [strconv.ParseInt(s, 10, 32)]. *)
Definition ParseInt32 (s : string) : option Z :=
  match Atoi s with
  | (n, true) => if (- 2 ^ 31 <=? n) && (n <? 2 ^ 31) then Some n else None
  | (_, false) => None
  end.

(** [time.ParseDuration]: [leadingInt], [leadingFraction] and the units. *)
Fixpoint leadingInt (x : Z) (s : string) : option (Z * string) :=
  match s with
  | String c s' =>
      if is_digit c then
        if 2 ^ 63 / 10 <? x then None
        else let x := x * 10 + digit_val c in if 2 ^ 63 <? x then None else leadingInt x s'
      else Some (x, s)
  | "" => Some (x, s)
  end.

Fixpoint leadingFraction (x : Z) (scale : float64) (overflow : bool) (s : string) : Z * float64 * string :=
  match s with
  | String c s' =>
      if is_digit c then
        let y := x * 10 + digit_val c in
        if overflow || ((2 ^ 63 - 1) / 10 <? x) || (2 ^ 63 <? y) then leadingFraction x scale true s'
        else leadingFraction y (fmul scale (of_Z 10)) false s'
      else (x, scale, s)
  | "" => (x, scale, s)
  end.

Definition unit_char (c : ascii) : bool := negb (Ascii.eqb c "." || is_digit c).

(** The longest prefix of bytes that are neither a point nor a digit. *)
Fixpoint span_unit (s : string) : string * string :=
  match s with
  | String c s' => if unit_char c then let '(u, r) := span_unit s' in (String c u, r) else ("", s)
  | "" => ("", "")
  end.

(** The two ways to write the letter mu, in UTF-8. *)
Definition unitMap : list (string * Z) :=
  [("ns", 1); ("us", 1000); (bytes [194; 181]%N +:+ "s", 1000); (bytes [206; 188]%N +:+ "s", 1000); ("ms", 1000000);
   ("s", Second); ("m", Minute); ("h", Hour)].

Definition unit_of (u : string) : option Z := snd <$> List.find (fun e => String.eqb e.1 u) unitMap.

Section Duration.
  Context `{GoPlatform}.

(** One component: its value and what follows it. *)
Definition duration_part (s : string) : option (Z * string) :=
  match s with
  | "" => None
  | String c _ =>
      if negb (Ascii.eqb c "." || is_digit c) then None
      else
        '(v, s1) ← leadingInt 0 s;
        let pre := negb (String.length s1 =? String.length s)%nat in
        let '(f, scale, s2, post) :=
          match s1 with
          | String d s1' =>
              if Ascii.eqb d "." then
                let '(f, scale, s2) := leadingFraction 0 f1 false s1' in (f, scale, s2, negb (String.length s2 =? String.length s1')%nat)
              else (0, f1, s1, false)
          | "" => (0, f1, s1, false)
          end in
        if negb pre && negb post then None
        else
          let '(u, s3) := span_unit s2 in
          if String.eqb u "" then None
          else
            unit ← unit_of u;
            if 2 ^ 63 / unit <? v then None
            else
              let v := v * unit in
              let v := if 0 <? f then v + to_int64 (fmul (of_Z f) (fdiv (of_Z unit) scale)) else v in
              if 2 ^ 63 <? v then None else Some (v, s3)
  end.

(** The sum of the components is a 64-bit word; every component takes a byte. *)
Fixpoint duration_sum (fuel : nat) (d : Z) (s : string) : option Z :=
  match s, fuel with
  | "", _ => Some d
  | _, O => None
  | _, S fuel' =>
      '(v, rest) ← duration_part s;
      let d := (d + v) mod 2 ^ 64 in
      if 2 ^ 63 <? d then None else duration_sum fuel' d rest
  end.

Definition ParseDuration (s : string) : option Z :=
  let '(neg, s) := match s with
                   | String c s' => if Ascii.eqb c "-" then (true, s') else if Ascii.eqb c "+" then (false, s') else (false, s)
                   | "" => (false, "")
                   end in
  if String.eqb s "0" then Some 0
  else if String.eqb s "" then None
  else d ← duration_sum (String.length s) 0 s;
       if (neg : bool) then Some (- d) else if 2 ^ 63 - 1 <? d then None else Some d.
End Duration.

(** ** The configuration *)

Definition insecureJWTSecretFallback : string := "mergiate-insecure-secret-key-change-in-production".

Record AppConfig := mkAppConfig {
  cf_AppEnv : string; cf_AppPort : string; cf_AppName : string; cf_DatabaseURL : string; cf_DBMaxConns : Z; cf_DBMinConns : Z;
  cf_DBMaxConnIdle : Z; cf_DBMaxConnLife : Z; cf_DBPgBouncer : bool; cf_JWTSecret : string; cf_JWTExpiry : Z;
  cf_CORSAllowedOrigins : list string; cf_StoragePath : string; cf_HTTP2Enabled : bool; cf_RateLimitEnabled : bool;
  cf_RateLimitPerMinute : Z; cf_RateLimitBurst : Z; cf_GRPCEnabled : bool; cf_GRPCPort : string;
}.

Definition IsProduction (c : AppConfig) : bool := String.eqb (cf_AppEnv c) "production" || String.eqb (cf_AppEnv c) "prod".

Definition IsInsecureJWTSecret (secret : string) : bool := String.eqb secret "" || String.eqb secret insecureJWTSecretFallback.

Definition ValidateJWTSecret (c : AppConfig) : res unit :=
  if String.eqb (cf_JWTSecret c) "" || String.eqb (cf_JWTSecret c) insecureJWTSecretFallback then
    if IsProduction c then
      Err (ENew "JWT_SECRET must be set to a strong secret in production (current value is empty or the insecure default)")
    else Ok tt
  else Ok tt.

(** The environment of the process, where a variable that is not set reads as the
    empty string, and what [godotenv.Load] makes of it. *)
Definition Environ : Type := string -> string.
Class Dotenv := { godotenv_Load : Environ -> Environ }.

Section Load.
  Context `{GoPlatform}.
  Variable Getenv : Environ.

Definition getEnv (key fallback : string) : string := if String.eqb (Getenv key) "" then fallback else Getenv key.

Definition getEnvAsInt32 (key : string) (fallback : Z) : Z :=
  if String.eqb (Getenv key) "" then fallback else default fallback (ParseInt32 (Getenv key)).

Definition getEnvAsDuration (key : string) (fallback : Z) : Z :=
  if String.eqb (Getenv key) "" then fallback else default fallback (ParseDuration (Getenv key)).

Definition database_url : string :=
  if String.eqb (Getenv "DATABASE_URL") "" then
    "postgres://" +:+ getEnv "DB_USER" "mergiate" +:+ ":" +:+ getEnv "DB_PASSWORD" "mergiate_password" +:+ "@" +:+ getEnv "DB_HOST" "localhost"
    +:+ ":" +:+ getEnv "DB_PORT" "5434" +:+ "/" +:+ getEnv "DB_NAME" "mergiate_core" +:+ "?sslmode=" +:+ getEnv "DB_SSLMODE" "disable"
  else Getenv "DATABASE_URL".

Definition cors_origins (corsRaw : string) : list string :=
  if String.eqb corsRaw "" then [] else List.filter (fun o => negb (String.eqb o "")) (map TrimSpace (Split "," corsRaw)).

Definition flag (key fallback : string) : bool := String.eqb (getEnv key fallback) "true".

Definition load_from : AppConfig := {|
  cf_AppEnv := getEnv "APP_ENV" "development";
  cf_AppPort := getEnv "APP_PORT" "8080";
  cf_AppName := getEnv "APP_NAME" "mergiate-core";
  cf_DatabaseURL := database_url;
  cf_DBMaxConns := getEnvAsInt32 "DB_MAX_CONNS" 15;
  cf_DBMinConns := getEnvAsInt32 "DB_MIN_CONNS" 3;
  cf_DBMaxConnIdle := getEnvAsDuration "DB_MAX_CONN_IDLE" (15 * Minute);
  cf_DBMaxConnLife := getEnvAsDuration "DB_MAX_CONN_LIFE" (1 * Hour);
  cf_DBPgBouncer := flag "DB_PGBOUNCER" "false";
  cf_JWTSecret := getEnv "JWT_SECRET" insecureJWTSecretFallback;
  cf_JWTExpiry := default (24 * Hour) (ParseDuration (getEnv "JWT_EXPIRY" "24h"));
  cf_CORSAllowedOrigins := cors_origins (getEnv "CORS_ALLOWED_ORIGINS" "");
  cf_StoragePath := getEnv "STORAGE_PATH" "./storage/uploads";
  cf_HTTP2Enabled := flag "HTTP2_ENABLED" "true";
  cf_RateLimitEnabled := flag "RATE_LIMIT_ENABLED" "false";
  cf_RateLimitPerMinute := getEnvAsInt32 "RATE_LIMIT_PER_MINUTE" 300;
  cf_RateLimitBurst := getEnvAsInt32 "RATE_LIMIT_BURST" 50;
  cf_GRPCEnabled := flag "GRPC_ENABLED" "true";
  cf_GRPCPort := getEnv "GRPC_PORT" "50051" |}.
End Load.

Section Start.
  Context `{GoPlatform, Dotenv}.

(** [Load] never fails. *)
Definition Load (environ : Environ) : res AppConfig := Ok (load_from (godotenv_Load environ)).

(** The configuration step of [main], before the call of [New]: it exits instead of
    going on with an insecure secret in production.  ([New] and [Start], which can end
    the process too, are in [Commands.server_boot] and [Commands.server_exits].) *)
Definition main_config (environ : Environ) : res AppConfig :=
  match Load environ with
  | Ok cfg => match ValidateJWTSecret cfg with Ok _ => Ok cfg | Err e => Err e | Panic e => Panic e end
  | Err e => Err e
  | Panic e => Panic e
  end.

(** What [New] passes on to the token manager, the use cases and the router; the
    directory is that of the storage driver it has made. *)
Definition app_config (c : AppConfig) (directory : string) (modules : list (Registry.Manifest * list Route)) : App.Config :=
  mkConfig (NewTokenManager (cf_JWTSecret c) (cf_AppName c)) (cf_JWTExpiry c) directory (cf_RateLimitEnabled c) modules.

Definition app_limiter (c : AppConfig) : option inMemoryLimiter :=
  if cf_RateLimitEnabled c then Some (NewInMemory (mkInMemoryConfig (cf_RateLimitPerMinute c) (60 * Second))) else None.
End Start.

(** ** Durations *)

Example durations :
  let I := amd64 in
  map ParseDuration ["24h"; "1.5h"; "-1h30m"; ".5s"; "1h 30m"; ""; "h"; "1"; "0"; "9223372036854775807ns"; "9223372036854775808ns"; "-9223372036854775808ns"]
  = [Some (24 * Hour); Some (90 * Minute); Some (- 90 * Minute); Some (500 * 1000000); None; None; None; None; Some 0; Some (2 ^ 63 - 1);
     None; Some (- 2 ^ 63)].
Proof. vm_compute. reflexivity. Qed.

Lemma leadingInt_length x s y r : leadingInt x s = Some (y, r) -> (String.length r <= String.length s)%nat.
Proof.
  revert x. induction s as [|c s IH]; intros x E; cbn [leadingInt] in E; [by simplify_eq |].
  destruct (is_digit c); [| by simplify_eq]. repeat case_match; try done. apply IH in E. cbn. lia.
Qed.

Lemma leadingFraction_length x sc o s f sc' r : leadingFraction x sc o s = (f, sc', r) -> (String.length r <= String.length s)%nat.
Proof.
  revert x sc o. induction s as [|c s IH]; intros x sc o E; cbn [leadingFraction] in E; [by simplify_eq |].
  destruct (is_digit c); [| by simplify_eq]. case_match; apply IH in E; cbn; lia.
Qed.

Lemma span_unit_length s u r : span_unit s = (u, r) -> (String.length u + String.length r = String.length s)%nat.
Proof.
  revert u r. induction s as [|c s IH]; intros u r E; cbn [span_unit] in E; [by simplify_eq |].
  destruct (unit_char c); [| by simplify_eq]. destruct (span_unit s) as [u' r']. simplify_eq. cbn. f_equal. by apply IH.
Qed.

Section Durations.
  Context `{GoPlatform}.

(** Every component takes a byte, so the fuel of [ParseDuration] is enough. *)
Lemma duration_part_length s v r : duration_part s = Some (v, r) -> (String.length r < String.length s)%nat.
Proof.
  intros E. destruct s as [|c s]; [done |]. unfold duration_part in E. destruct (negb _); [done |].
  destruct (leadingInt 0 (String c s)) as [[x s1]|] eqn:E1; [| done]. cbn [mbind option_bind] in E. apply leadingInt_length in E1.
  destruct (match s1 with "" => _ | String _ _ => _ end) as [[[f scale] s2] post] eqn:E2.
  assert (String.length s2 <= String.length s1)%nat as H2.
  { destruct s1 as [|d s1']; [by simplify_eq |]. destruct (Ascii.eqb d "."); [| by simplify_eq].
    destruct (leadingFraction 0 f1 false s1') as [[f' sc'] s2'] eqn:E3. apply leadingFraction_length in E3. simplify_eq. cbn. lia. }
  destruct (_ && _); [done |]. destruct (span_unit s2) as [u s3] eqn:E4. apply span_unit_length in E4.
  destruct (String.eqb_spec u ""); [done |]. destruct (unit_of u); [| done]. cbn in E.
  destruct u; [done |]. cbn in E4, E1. clear E2. repeat case_match; try done; simplify_eq; cbn; lia.
Qed.

Lemma duration_fuel fuel d s : (String.length s <= fuel)%nat -> duration_sum fuel d s = duration_sum (String.length s) d s.
Proof.
  enough (forall n fuel d s, (String.length s <= n)%nat -> (n <= fuel)%nat -> duration_sum fuel d s = duration_sum n d s) as Hx
    by (intros Hf; by apply Hx).
  clear. induction n as [|n IH]; intros fuel d s Hs Hf.
  { destruct s; [| cbn in Hs; lia]. by destruct fuel. }
  destruct s as [|c s]; [by destruct fuel |]. destruct fuel as [|fuel]; [lia |]. cbn [duration_sum].
  destruct (duration_part (String c s)) as [[v r]|] eqn:E; [| done]. cbn. case_match; [done |].
  apply duration_part_length in E. apply IH; lia.
Qed.

Lemma duration_sum_range fuel d s x : 0 <= d <= 2 ^ 63 -> duration_sum fuel d s = Some x -> 0 <= x <= 2 ^ 63.
Proof.
  revert d s. induction fuel as [|fuel IH]; intros d s Hd E; destruct s as [|c s]; try (by simplify_eq/=).
  cbn [duration_sum] in E. destruct (duration_part _) as [[v r]|]; [| done]. cbn [mbind option_bind] in E.
  destruct (Z.ltb_spec (2 ^ 63) ((d + v) mod 2 ^ 64)) as [|Hle]; [done |]. eapply IH; [| exact E].
  split; [apply Z.mod_pos_bound; lia | done].
Qed.

Lemma ParseDuration_range s d : ParseDuration s = Some d -> in_int64 d.
Proof.
  intros E. unfold ParseDuration in E. destruct (match s with "" => _ | String _ _ => _ end) as [neg s'].
  unfold in_width. destruct (String.eqb s' "0"); [simplify_eq; lia |]. destruct (String.eqb s' ""); [done |].
  destruct (duration_sum _ 0 s') as [x|] eqn:Ex; [| done]. cbn in E. apply duration_sum_range in Ex; [| lia].
  destruct neg; [simplify_eq; lia |]. destruct (Z.ltb_spec (2 ^ 63 - 1) x); [done |]. simplify_eq. lia.
Qed.

(** A unit, as [ParseDuration] reads it. *)
Lemma unit_chars u k : unit_of u = Some k -> u <> "" /\ all_chars unit_char u = true /\ 0 < k <= 2 ^ 42.
Proof.
  unfold unit_of. intros E. destruct (List.find _ unitMap) as [[u' k']|] eqn:Ef; [| done]. cbn in E. injection E as <-.
  apply List.find_some in Ef as [Hin Hu]. apply String.eqb_eq in Hu. cbn in Hu. subst u'.
  assert (forallb (fun e => negb (String.eqb e.1 "") && all_chars unit_char e.1 && (0 <? e.2) && (e.2 <=? 2 ^ 42)) unitMap = true) as Hall by (vm_compute; reflexivity).
  apply (proj1 (forallb_forall _ _)) with (x := (u, k')) in Hall; [| done]. cbn [fst snd] in Hall.
  rewrite !andb_true_iff, negb_true_iff, String.eqb_neq, Z.ltb_lt, Z.leb_le in Hall. naive_solver.
Qed.

Lemma span_unit_all u : all_chars unit_char u = true -> span_unit u = (u, "").
Proof.
  induction u as [|c u IH]; [done |]. cbn [all_chars span_unit]. intros [-> Hu]%andb_true_iff. by rewrite IH.
Qed.

Lemma unit_char_not_digit c : unit_char c = true -> is_digit c = false /\ Ascii.eqb c "." = false.
Proof. unfold unit_char. rewrite negb_true_iff, orb_false_iff. naive_solver. Qed.

Lemma digits_val_mono x s : 0 <= x -> all_chars is_digit s = true -> x <= digits_val x s.
Proof.
  revert x. induction s as [|c s IH]; intros x Hx Hs; cbn [digits_val]; [lia |]. cbn in Hs. apply andb_true_iff in Hs as [Hc Hs].
  pose proof (is_digit_val c Hc) as Hd.
  specialize (IH (x * 10 + digit_val c) ltac:(lia) Hs). lia.
Qed.

Lemma leadingInt_digits x ds u : 0 <= x -> all_chars is_digit ds = true -> digits_val x ds <= 2 ^ 63 -> u <> "" -> all_chars unit_char u = true ->
  leadingInt x (ds +:+ u) = Some (digits_val x ds, u).
Proof.
  intros Hx Hds Hle Hne Hu. revert x Hx Hle. induction ds as [|c ds IH]; intros x Hx Hle.
  - destruct u as [|c u]; [done |]. cbn in Hu. apply andb_true_iff in Hu as [Hc _]. apply unit_char_not_digit in Hc as [Hc _].
    cbn [String.append leadingInt digits_val]. by rewrite Hc.
  - cbn in Hds. apply andb_true_iff in Hds as [Hc Hds]. cbn [String.append leadingInt digits_val] in *. rewrite Hc.
    pose proof (is_digit_val c Hc) as Hd.
    pose proof (digits_val_mono (x * 10 + digit_val c) ds ltac:(lia) Hds) as Hm.
    rewrite (proj2 (Z.ltb_ge (2 ^ 63 / 10) x)) by (apply Z.div_le_lower_bound; lia).
    rewrite (proj2 (Z.ltb_ge (2 ^ 63) (x * 10 + digit_val c))) by lia. apply IH; [done | lia | done].
Qed.

Lemma is_digit_not c d : is_digit c = true -> is_digit d = false -> Ascii.eqb c d = false.
Proof. intros Hc Hd. apply Ascii.eqb_neq. by intros ->; rewrite Hd in Hc. Qed.

(** A whole number of a unit. *)
Lemma duration_part_whole ds u k : ds <> "" -> all_chars is_digit ds = true -> unit_of u = Some k -> digits_val 0 ds * k <= 2 ^ 63 ->
  duration_part (ds +:+ u) = Some (digits_val 0 ds * k, "").
Proof.
  intros Hne Hds Hk Hle. destruct (unit_chars u k Hk) as (Hu & Hua & Hk0). destruct ds as [|c ds]; [done |].
  pose proof (digits_val_mono 0 (String c ds) ltac:(lia) Hds) as H0.
  assert (leadingInt 0 (String c ds +:+ u) = Some (digits_val 0 (String c ds), u)) as El by (apply leadingInt_digits; [lia | done | nia | done | done]).
  assert (String.length u <> String.length (String c ds +:+ u)) as Hlen by (rewrite length_append; cbn; lia).
  set (n := digits_val 0 (String c ds)) in *. cbn in Hds. apply andb_true_iff in Hds as [Hc _].
  unfold duration_part. cbn [String.append] in *. rewrite Hc, orb_true_r. cbn [negb]. rewrite El. cbn [mbind option_bind].
  rewrite (proj2 (Nat.eqb_neq _ _) Hlen). cbn [negb andb].
  destruct u as [|d u]; [done |]. pose proof Hua as Hd. cbn [all_chars] in Hd. apply andb_true_iff in Hd as [Hd _]. apply unit_char_not_digit in Hd as [_ Hd].
  rewrite Hd, span_unit_all by done. cbn [String.eqb]. rewrite Hk. cbn [mbind option_bind].
  rewrite (proj2 (Z.ltb_ge (2 ^ 63 / k) n)) by (apply Z.div_le_lower_bound; lia). cbn [Z.ltb Z.compare].
  by rewrite (proj2 (Z.ltb_ge (2 ^ 63) (n * k))) by lia.
Qed.

Lemma ParseDuration_whole ds u k : ds <> "" -> all_chars is_digit ds = true -> unit_of u = Some k -> digits_val 0 ds * k < 2 ^ 63 ->
  ParseDuration (ds +:+ u) = Some (digits_val 0 ds * k).
Proof.
  intros Hne Hds Hk Hlt. destruct (unit_chars u k Hk) as (Hu & _ & Hk0).
  pose proof (digits_val_mono 0 ds ltac:(lia) Hds) as H0.
  pose proof (duration_part_whole ds u k Hne Hds Hk ltac:(lia)) as Hp. set (n := digits_val 0 ds) in *.
  destruct ds as [|c ds]; [done |]. cbn in Hds. apply andb_true_iff in Hds as [Hc _]. unfold ParseDuration. cbn [String.append] in *.
  rewrite (is_digit_not c "-"), (is_digit_not c "+") by done.
  destruct (String.eqb_spec (String c (ds +:+ u)) "0") as [E|_].
  { injection E as _ E. by destruct ds, u. }
  cbn [String.eqb String.length duration_sum]. rewrite Hp. cbn [mbind option_bind]. rewrite Z.add_0_l, Z.mod_small by nia.
  rewrite (proj2 (Z.ltb_ge (2 ^ 63) (n * k))) by lia. destruct (String.length (ds +:+ u)); cbn [duration_sum mbind option_bind].
  all: by rewrite (proj2 (Z.ltb_ge (2 ^ 63 - 1) (n * k))) by lia.
Qed.
End Durations.

(** ** The variables *)

Lemma ParseInt32_range s n : ParseInt32 s = Some n -> in_int32 n.
Proof.
  unfold ParseInt32, in_width. destruct (Atoi s) as [m []]; [| done]. case_match eqn:E; [| done]. intros [= ->].
  apply andb_true_iff in E as [?%Z.leb_le ?%Z.ltb_lt]. lia.
Qed.

Section Variables.
  Context `{GoPlatform}.
  Variable Getenv : Environ.

Lemma getEnv_nonempty key d : d <> "" -> getEnv Getenv key d <> "".
Proof. unfold getEnv. by destruct (String.eqb_spec (Getenv key) ""). Qed.

Lemma getEnvAsInt32_range key d : in_int32 d -> in_int32 (getEnvAsInt32 Getenv key d).
Proof.
  intros Hd. unfold getEnvAsInt32. case_match; [done |]. destruct (ParseInt32 _) eqn:E; [by eapply ParseInt32_range | done].
Qed.

Lemma getEnvAsDuration_range key d : in_int64 d -> in_int64 (getEnvAsDuration Getenv key d).
Proof.
  intros Hd. unfold getEnvAsDuration. case_match; [done |]. destruct (ParseDuration _) eqn:E; [by eapply ParseDuration_range | done].
Qed.

Lemma elem_of_cors_origins raw o : o ∈ cors_origins raw -> o <> "" /\ TrimSpace o = o.
Proof.
  unfold cors_origins. case_match; [by intros ?%not_elem_of_nil |]. intros [Hm Hne]%list_elem_of_In%filter_In.
  apply in_map_iff in Hm as (p & <- & _). apply negb_true_iff, String.eqb_neq in Hne. split; [done | apply TrimSpace_idemp].
Qed.

Lemma database_url_nonempty : database_url Getenv <> "".
Proof. unfold database_url. by destruct (String.eqb_spec (Getenv "DATABASE_URL") ""). Qed.
End Variables.


(** ** Properties *)

(** What the rest of the process relies on, whatever the environment holds. *)
Record config_ok (getenv : Environ) (c : AppConfig) (directory : string) (modules : list (Registry.Manifest * list Route)) : Prop := {
  ck_secret : cf_JWTSecret c <> "" /\ tm_secretKey (cfg_tokens (app_config c directory modules)) = cf_JWTSecret c;
  ck_production : IsProduction c = true -> cf_JWTSecret c <> insecureJWTSecretFallback;
  ck_lifetime : 0 < uc_tokenTTL (identityUsecase (app_config c directory modules)) /\ in_int64 (uc_tokenTTL (identityUsecase (app_config c directory modules)));
  ck_expiry : forall ds u k, getenv "JWT_EXPIRY" = ds +:+ u -> ds <> "" -> all_chars is_digit ds = true -> unit_of u = Some k ->
    0 < digits_val 0 ds * k < 2 ^ 63 -> uc_tokenTTL (identityUsecase (app_config c directory modules)) = digits_val 0 ds * k;
  ck_pool : in_int32 (cf_DBMaxConns c) /\ in_int32 (cf_DBMinConns c) /\ in_int64 (cf_DBMaxConnIdle c) /\ in_int64 (cf_DBMaxConnLife c);
  ck_limiter : forall l, app_limiter c = Some l -> 0 < RequestsPerWindow (RateLimit.cfg l) < 2 ^ 31 /\ Window (RateLimit.cfg l) = Minute;
  ck_credentials : co_AllowCredentials (cors_options (cf_CORSAllowedOrigins c)) = true <-> exists o, o ∈ cf_CORSAllowedOrigins c /\ o <> "*";
  ck_origins : forall o, o ∈ co_AllowedOrigins (cors_options (cf_CORSAllowedOrigins c)) <-> o ∈ cf_CORSAllowedOrigins c /\ o <> "*";
  ck_entries : forall o, o ∈ cf_CORSAllowedOrigins c -> o <> "" /\ TrimSpace o = o;
  ck_text : Forall (fun s => s <> "") [cf_AppEnv c; cf_AppPort c; cf_AppName c; cf_DatabaseURL c; cf_StoragePath c; cf_GRPCPort c];
}.

Section Properties.
  Context `{GoPlatform, Dotenv}.

Lemma limiter_sane c l : in_int32 (cf_RateLimitPerMinute c) -> app_limiter c = Some l ->
  0 < RequestsPerWindow (RateLimit.cfg l) < 2 ^ 31 /\ Window (RateLimit.cfg l) = Minute.
Proof.
  unfold app_limiter, in_width. intros Hr. destruct (cf_RateLimitEnabled c); [| done]. intros [= <-]. unfold NewInMemory. cbn [RateLimit.cfg RequestsPerWindow Window].
  destruct (Z.leb_spec (cf_RateLimitPerMinute c) 0); split; done || lia.
Qed.

Lemma lifetime_sane t n e : in_int64 e -> 0 < uc_tokenTTL (NewUsecase t n e) /\ in_int64 (uc_tokenTTL (NewUsecase t n e)).
Proof. intros He. cbn. destruct (Z.leb_spec e 0); [| done]. split; [done |]. unfold in_width, Hour, Minute, Second. lia. Qed.

Lemma elem_of_safe_origins origins : (forall o, o ∈ origins -> o <> "" /\ TrimSpace o = o) ->
  forall o, o ∈ filterWildcardOrigins origins <-> o ∈ origins /\ o <> "*".
Proof.
  intros Ht o. unfold filterWildcardOrigins. rewrite list_elem_of_In, filter_In, <- list_elem_of_In, negb_true_iff, String.eqb_neq.
  split; intros [Ho Hw]; (split; [done |]); destruct (Ht o Ho) as [_ Et]; congruence.
Qed.

Lemma elem_of_allowed_origins origins : (forall o, o ∈ origins -> o <> "" /\ TrimSpace o = o) ->
  forall o, o ∈ co_AllowedOrigins (cors_options origins) <-> o ∈ origins /\ o <> "*".
Proof.
  intros Ht o. rewrite <- (elem_of_safe_origins origins Ht). unfold cors_options. by destruct (filterWildcardOrigins origins).
Qed.

Lemma cors_credentials origins : (forall o, o ∈ origins -> o <> "" /\ TrimSpace o = o) ->
  co_AllowCredentials (cors_options origins) = true <-> exists o, o ∈ origins /\ o <> "*".
Proof.
  intros Ht. setoid_rewrite <- (elem_of_safe_origins origins Ht). unfold cors_options. destruct (filterWildcardOrigins origins) as [|o os].
  - split; [done |]. intros [o Ho]. by apply not_elem_of_nil in Ho.
  - split; [| done]. intros _. exists o. by left.
Qed.

Lemma load_ok getenv directory modules : ValidateJWTSecret (load_from getenv) = Ok tt -> config_ok getenv (load_from getenv) directory modules.
Proof.
  intros Hv. set (c := load_from getenv) in *.
  assert (cf_JWTSecret c <> "") as Hs by by apply getEnv_nonempty.
  assert (in_int64 (cf_JWTExpiry c)) as He.
  { cbn. destruct (ParseDuration _) eqn:E; [by eapply ParseDuration_range |]. unfold in_width, Hour, Minute, Second. cbn. lia. }
  split.
  - split; [done |]. unfold app_config, NewTokenManager. cbn [cfg_tokens tm_secretKey]. by rewrite (proj2 (String.eqb_neq _ _) Hs).
  - intros Hp. unfold ValidateJWTSecret in Hv. rewrite Hp in Hv. by destruct (String.eqb_spec (cf_JWTSecret c) insecureJWTSecretFallback); [rewrite orb_true_r in Hv |].
  - by apply lifetime_sane.
  - intros ds u k E Hne Hds Hu Hn. cbn. unfold getEnv. rewrite E.
    destruct (String.eqb_spec (ds +:+ u) "") as [Ee|_]; [by destruct ds |]. rewrite (ParseDuration_whole ds u k) by (done || lia). cbn.
    destruct (Z.leb_spec (digits_val 0 ds * k) 0); [lia | done].
  - split_and!; [apply getEnvAsInt32_range | apply getEnvAsInt32_range | apply getEnvAsDuration_range | apply getEnvAsDuration_range];
      unfold in_width, Hour, Minute, Second; cbn; lia.
  - intros l. apply limiter_sane. apply getEnvAsInt32_range. unfold in_width. cbn. lia.
  - apply cors_credentials. apply elem_of_cors_origins.
  - apply elem_of_allowed_origins. apply elem_of_cors_origins.
  - apply elem_of_cors_origins.
  - repeat constructor; by apply getEnv_nonempty || apply database_url_nonempty.
Qed.
End Properties.

(** C28: The configuration step of main.  Whatever the environment holds, main refuses
    the configuration exactly in production with the published secret; otherwise it
    goes on with sane settings: tokens are signed with the configured secret, which is
    not empty and in production not the published one; their lifetime is positive, and
    the one JWT_EXPIRY asks for when it is a whole number of a unit; pool sizes and
    durations are in range; a rate limit is positive and per minute; the CORS handler
    is given exactly the configured origins other than "*", and allows credentials
    exactly when there is one.  ([New] and [Start] can still fail and end the process:
    [Commands.server_process].  What the handler, a library, makes of an empty list
    and of an origin with a star inside, such as https://*, is not modelled.) *)
Theorem config_safe `{GoPlatform, Dotenv} (environ : Environ) (directory : string) (modules : list (Registry.Manifest * list Route)) :
  let getenv := godotenv_Load environ in
  match main_config environ with
  | Ok c => c = load_from getenv /\ config_ok getenv c directory modules
  | Err _ => IsProduction (load_from getenv) = true /\ cf_JWTSecret (load_from getenv) = insecureJWTSecretFallback
  | Panic _ => False
  end.
Proof.
  intros getenv. unfold main_config, Load. fold getenv. destruct (ValidateJWTSecret (load_from getenv)) as [[]|e|e] eqn:Ev.
  - split; [done | by apply load_ok].
  - unfold ValidateJWTSecret in Ev. destruct (_ || _) eqn:Es; [| done]. destruct (IsProduction _); [| done]. split; [done |].
    apply orb_true_iff in Es as [Es%String.eqb_eq|Es%String.eqb_eq]; [| done]. by apply getEnv_nonempty in Es.
  - unfold ValidateJWTSecret in Ev. by repeat case_match.
Qed.

(** Without origins, and with the entry "*" alone, the handler gets an empty list; a
    pattern is passed on with credentials. *)
Theorem cors_gaps `{GoPlatform} :
  let options raw := cors_options (cors_origins raw) in
  co_AllowedOrigins (options "") = [] /\ co_AllowedOrigins (options "*") = []
  /\ co_AllowedOrigins (options "https://*, *") = ["https://*"] /\ co_AllowCredentials (options "https://*, *") = true.
Proof. by vm_compute. Qed.

(** Nothing set, and a production environment.  The check compares with one
    placeholder only: the other one, which [NewTokenManager] falls back to, and
    secrets of one letter pass; and [Production] is not production. *)
Theorem config_gaps :
  let I1 := amd64 in let I2 := {| godotenv_Load e := e |} in
  let env (vars : list (string * string)) : Environ := fun key => default "" (snd <$> List.find (fun v => String.eqb v.1 key) vars) in
  let started vars := match main_config (env vars) with Ok c => Some (cf_JWTSecret c, cf_JWTExpiry c) | _ => None end in
  started [] = Some (insecureJWTSecretFallback, 24 * Hour)
  /\ started [("APP_ENV", "production")] = None
  /\ started [("APP_ENV", "production"); ("JWT_SECRET", "x"); ("JWT_EXPIRY", "90m")] = Some ("x", 90 * Minute)
  /\ started [("APP_ENV", "production"); ("JWT_SECRET", tm_secretKey (NewTokenManager "" ""))]
     = Some ("mergiate-default-insecure-secret-key-change-in-prod", 24 * Hour)
  /\ started [("APP_ENV", "Production")] = Some (insecureJWTSecretFallback, 24 * Hour).
Proof. vm_compute. by repeat split. Qed.
