(* ===== verification/Lifecycle.v ===== *)
(** * Assembly, start and shutdown

    [New], [Start] and [Shutdown] of [pkg/app/app.go] with [NewPostgresPool] of
    [pkg/database], [Up] of [pkg/migrations] and the host of [pkg/module].  [New] is
    sequential and uses the operations of [Registry]; [Start] runs in three
    goroutines, whose interleavings are the steps of a relation. *)

From S2P Require Import Prelude GoStrings GoTime GoFloat Sdk Tables EventBus Outbox Registry RateLimit Config.
From S2P Require Storage.
#[local] Open Scope string_scope.
#[local] Open Scope list_scope.
#[local] Open Scope Z_scope.

(** ** What modules are given *)

(** [hostImpl.RecordOutbox]; [repo]: is there an outbox. *)
Definition RecordOutbox `{Env, Pg} (refused : OutboxRow -> option error) (repo : bool) (tenantID : ID) (eventType aggregateType : string)
    (aggregateID : ID) (payload : AnyMap) : M OutboxTable unit :=
  if negb repo then ret tt
  else
    evtID <- NewID ;;
    now <- NowUTC ;;
    Outbox.Create refused (mkOutboxEvent evtID tenantID eventType aggregateType aggregateID payload OutboxStatusPending 0 "" now None) ;;;
    ret tt.

(** ** The database *)

Record PoolConfig := mkPoolConfig {
  pc_MaxConns : Z; pc_MinConns : Z; pc_MaxConnIdleTime : Z; pc_MaxConnLifetime : Z; pc_DescribeExec : bool; pc_NoStatementCache : bool;
}.

(** Answers of [pgxpool], of [net/url] for a connection string with another scheme,
    of [golang-migrate] for a source of migrations and a database, and of the
    operating system; [None] is no error. *)
Class Drivers (FS : Type) := {
  pgx_ParseConfig : string -> PoolConfig + error;
  pgx_NewWithConfig : PoolConfig -> option error;
  pgx_Ping : option error;
  pgx_ConnString : string;
  url_WithScheme : string -> string -> string + error;
  iofs_New : FS -> string -> option error;
  migrate_New : FS -> string -> option error;
  migrate_Up : FS -> string -> option error;
  migrate_ErrNoChange : error -> bool;
  coreFS : FS;
  os_Getwd : res string;
}.

Definition pool_config (c : AppConfig) (parsed : PoolConfig) : PoolConfig :=
  mkPoolConfig (cf_DBMaxConns c) (cf_DBMinConns c) (cf_DBMaxConnIdle c) (cf_DBMaxConnLife c)
    (if cf_DBPgBouncer c then true else pc_DescribeExec parsed) (if cf_DBPgBouncer c then true else pc_NoStatementCache parsed).

(** The state of the process while it is put together: is the pool open, the state
    of the modules, the catalogue of permissions, and the disk. *)
Record Sys (D : Type) := mkSys { sy_pool : bool; sy_mods : D; sy_perms : gmap string PermRow; sy_disk : Storage.FS }.
Arguments mkSys {D} _ _ _ _.
Arguments sy_pool {D} _.
Arguments sy_mods {D} _.
Arguments sy_perms {D} _.
Arguments sy_disk {D} _.

#[export] Instance Lens_sy_mods {D} : Lens (Sys D) D | 5.
Proof. refine {| lens_get := sy_mods; lens_set x d := mkSys (sy_pool d) x (sy_perms d) (sy_disk d) |}; by intros; repeat match goal with d : Sys D |- _ => destruct d end. Defined.
#[export] Instance Lens_sy_perms {D} : Lens (Sys D) (gmap string PermRow) | 5.
Proof. refine {| lens_get := sy_perms; lens_set x d := mkSys (sy_pool d) (sy_mods d) x (sy_disk d) |}; by intros; repeat match goal with d : Sys D |- _ => destruct d end. Defined.
#[export] Instance Lens_sy_disk {D} : Lens (Sys D) Storage.FS | 5.
Proof. refine {| lens_get := sy_disk; lens_set x d := mkSys (sy_pool d) (sy_mods d) (sy_perms d) x |}; by intros; repeat match goal with d : Sys D |- _ => destruct d end. Defined.

Definition set_pool {D} (open : bool) : M (Sys D) unit := fun w => (Ok tt, mkWorld (mkSys open (sy_mods (w_db w)) (sy_perms (w_db w)) (sy_disk (w_db w))) (w_tick w)).

(** [dbPool.Close(); return nil, err]. *)
Definition close_and_fail {D A} (err : error) : M (Sys D) A := set_pool false ;;; fail err.

Section New.
  Context {FS D : Type} `{UnicodeTables, Env, Drivers FS}.

Definition NewPostgresPool (c : AppConfig) : M (Sys D) PoolConfig :=
  match pgx_ParseConfig (cf_DatabaseURL c) with
  | inr err => fail (EWrap "unable to parse database url: " err "")
  | inl parsed =>
      let config := pool_config c parsed in
      match pgx_NewWithConfig config with
      | Some err => fail (EWrap "failed to create connection pool: " err "")
      | None =>
          set_pool true ;;;
          match pgx_Ping with
          | Some err => close_and_fail (EWrap "database ping failed: " err "")
          | None => ret config
          end
      end
  end.

(** One source of migrations; that nothing is pending is no error. *)
Definition applyFS (migrations : FS) (dir connStr : string) : M (Sys D) unit :=
  match iofs_New migrations dir with
  | Some err => fail (EWrap "iofs source: " err "")
  | None =>
      match url_WithScheme connStr "pgx5" with
      | inr err => fail (EWrap "parse conn str: " err "")
      | inl u =>
          match migrate_New migrations u with
          | Some err => fail (EWrap "migrate init: " err "")
          | None =>
              match migrate_Up migrations u with
              | Some err => if migrate_ErrNoChange err then ret tt else fail (EWrap "migrate up: " err "")
              | None => ret tt
              end
          end
      end
  end.

(** [Up]: the migrations of the core, then the others in their order. *)
Fixpoint up_extra (connStr : string) (i : Z) (extra : list FS) : M (Sys D) unit :=
  match extra with
  | [] => ret tt
  | extraFS :: extra' =>
      wrap_err ("extra migration source " +:+ Itoa i) (applyFS extraFS "." connStr) ;;;
      up_extra connStr (i + 1) extra'
  end.
Definition Up (extra : list FS) : M (Sys D) unit :=
  let connStr := pgx_ConnString in
  wrap_err "core migrations" (applyFS coreFS "." connStr) ;;;
  up_extra connStr 0 extra.

Record Options := mkOptions {
  op_Config : AppConfig; op_DBPool : bool; op_Modules : list (option (Module D)); op_RunMigrations : bool; op_ExtraMigrationFS : list FS;
}.

(** What the router, [Start] and [Shutdown] use of the application. *)
Record Application := mkApplication {
  ap_cfg : AppConfig; ap_storage : string; ap_registry : Registry D; ap_bus : inMemoryBus D; ap_limiter : option inMemoryLimiter; ap_grpc : bool;
}.

(** [for _, m := range opts.Modules]: the message for a refused module asks the
    module for its name, which a nil module does not have. *)
Fixpoint register_modules (ms : list (option (Module D))) (r : Registry D) : M (Sys D) (Registry D) :=
  match ms with
  | [] => ret r
  | mo :: ms' =>
      match Register mo r with
      | Ok r' => register_modules ms' r'
      | Err err =>
          set_pool false ;;;
          match mo with
          | None => panic (ENew "invalid memory address or nil pointer dereference")
          | Some m => fail (EWrap ("module register " +:+ m_name m +:+ ": ") err "")
          end
      | Panic e => panic e
      end
  end.

(** [if err := step(); err != nil { dbPool.Close(); return nil, ... }]. *)
Definition or_close {A} (what : string) (m : M (Sys D) A) : M (Sys D) A :=
  r <- attempt m ;;
  match r with inl a => ret a | inr err => close_and_fail (EWrap (what +:+ ": ") err "") end.

Definition New (iter iter' : list string) (ctx : Ctx) (opts : Options) : M (Sys D) Application :=
  let c := op_Config opts in
  (if op_DBPool opts then ret tt else wrap_err "database pool" (NewPostgresPool c) ;;; ret tt) ;;;
  (if op_RunMigrations opts then or_close "migrations" (Up (op_ExtraMigrationFS opts)) else ret tt) ;;;
  storage <- or_close "storage driver" (zoom (Storage.NewDriver os_Getwd (cf_StoragePath c))) ;;
  registry <- register_modules (op_Modules opts) NewRegistry ;;
  let '(init, registry) := InitAll iter iter' ctx registry in
  or_close "module init" (zoom init) ;;;
  ignore (zoom (RegisterPermissions true registry)) ;;;
  ret (mkApplication c storage registry (BindSubscriptions registry NewInMemoryBus) (app_limiter c) (cf_GRPCEnabled c)).
End New.
Arguments Options FS D : clear implicits.
Arguments mkOptions {FS D}.
Arguments Application D : clear implicits.

(** ** Start

    The goroutines of [Start]: the caller, which ends in [ListenAndServe] and then
    waits for the shutdown; the closer, which waits for the context; the context
    itself, which may be cancelled at any time; and in the background the outbox
    worker, which nobody waits for, the clients of the gRPC server, and failures of
    the HTTP listener.

    A server is idle, serving, draining (it takes no new calls and waits for the
    open ones) or closed.  For HTTP, [Closed] says that no connection is accepted
    any more. *)

Inductive Server := Idle | Serving | Draining | Closed.

(** The goroutine of the outbox worker: before [go], in its [select], in
    [ProcessBatch], or at its end. *)
Inductive Worker := Unstarted | Selecting | InBatch | Gone.

Inductive MainPoint :=
  | StartWorker | StartDispatcher | StartGrpc | StartCloser | Listen | Listening | AwaitShutdown | Returned (err : option error).

Inductive CloserPoint := NotStarted | AwaitDone | CancelWorker | StopGrpc | DrainGrpc | StopModules | InModules | CloseLimiter | StopHttp | Drain | Finished.

Record Life := mkLife {
  lf_main : MainPoint;
  lf_closer : CloserPoint;
  lf_done : bool;                     (* ctx.Done() *)
  lf_worker : Worker;
  lf_cancelled : bool;                (* workerCancel() was called *)
  lf_subscribed : bool;               (* the webhook dispatcher listens to the bus *)
  lf_grpc : Server;
  lf_calls : nat;                     (* open calls and streams of the gRPC server *)
  lf_http : Server;
  lf_modules : bool;                  (* ShutdownAll was not called *)
  lf_limiter : bool;                  (* the limiter was not closed *)
  lf_chan : option (option error);    (* shutdownErrChan *)
}.

(** The worker's context ends with [workerCancel] or with the one it is derived
    from; the goroutine lives on until it sees that. *)
Definition worker_asked (l : Life) : bool := lf_cancelled l || lf_done l.
Definition worker_runs (l : Life) : bool := match lf_worker l with Selecting | InBatch => true | _ => false end.

(** An application after [New], when [Start] is called. *)
Definition launched (limiter : bool) : Life := mkLife StartWorker NotStarted false Unstarted false false Idle 0 Idle true limiter None.

(** The worker, the clients, and the listener of the HTTP server, which may fail and
    end [ListenAndServe].  A [select] with several ready cases takes any of
    them, so a tick or a trigger can win over a cancelled context. *)
Inductive background : Life -> Life -> Prop :=
  | bg_tick m c d x s g n h ms li ch :
      background (mkLife m c d Selecting x s g n h ms li ch) (mkLife m c d InBatch x s g n h ms li ch)
  | bg_batch_done m c d x s g n h ms li ch :
      background (mkLife m c d InBatch x s g n h ms li ch) (mkLife m c d Selecting x s g n h ms li ch)
  | bg_worker_ends m c d x s g n h ms li ch : x || d = true ->
      background (mkLife m c d Selecting x s g n h ms li ch) (mkLife m c d Gone x s g n h ms li ch)
  | bg_call_opens m c d k x s n h ms li ch :
      background (mkLife m c d k x s Serving n h ms li ch) (mkLife m c d k x s Serving (S n) h ms li ch)
  | bg_call_ends m c d k x s g n h ms li ch :
      background (mkLife m c d k x s g (S n) h ms li ch) (mkLife m c d k x s g n h ms li ch)
  | bg_accept_failed err c d k x s g n ms li ch :
      background (mkLife Listening c d k x s g n Serving ms li ch) (mkLife (Returned (Some (EWrap "server: " err ""))) c d k x s g n Closed ms li ch).

Section Start.
  Variables (grpc : bool) (port : string).   (* a.grpcServer != nil && a.cfg.GRPCEnabled, a.cfg.GRPCPort *)
  Variable returns : bool.                   (* does the Shutdown of every module return? *)

(** The caller, the closer and the context.  [GracefulStop] has no deadline: it
    returns when no call is open.  [ShutdownAll] returns when every module does;
    [server.Shutdown] has the deadline of its context. *)
Inductive step : Life -> Life -> Prop :=
  | step_cancel m c k s x g n h ms li ch : step (mkLife m c false k x s g n h ms li ch) (mkLife m c true k x s g n h ms li ch)
  (* the caller *)
  | step_worker c d k x s g n h ms li ch :
      step (mkLife StartWorker c d k x s g n h ms li ch) (mkLife StartDispatcher c d Selecting x s g n h ms li ch)
  | step_dispatcher c d k x s g n h ms li ch :
      step (mkLife StartDispatcher c d k x s g n h ms li ch) (mkLife StartGrpc c d k x true g n h ms li ch)
  | step_no_grpc c d k x s g n h ms li ch : grpc = false ->
      step (mkLife StartGrpc c d k x s g n h ms li ch) (mkLife StartCloser c d k x s g n h ms li ch)
  | step_grpc_refused err c d k x s g n h ms li ch : grpc = true ->
      step (mkLife StartGrpc c d k x s g n h ms li ch) (mkLife (Returned (Some (EWrap ("grpc listener on :" +:+ port +:+ ": ") err ""))) c d k x s g n h ms li ch)
  | step_grpc c d k x s g n h ms li ch : grpc = true ->
      step (mkLife StartGrpc c d k x s g n h ms li ch) (mkLife StartCloser c d k x s Serving n h ms li ch)
  | step_closer c d k x s g n h ms li ch :
      step (mkLife StartCloser c d k x s g n h ms li ch) (mkLife Listen AwaitDone d k x s g n h ms li ch)
  | step_listen c d k x s g n ms li ch :
      step (mkLife Listen c d k x s g n Idle ms li ch) (mkLife Listening c d k x s g n Serving ms li ch)
  | step_listen_refused err c d k x s g n ms li ch :
      step (mkLife Listen c d k x s g n Idle ms li ch) (mkLife (Returned (Some (EWrap "server: " err ""))) c d k x s g n Idle ms li ch)
  | step_listen_closed c d k x s g n ms li ch :
      step (mkLife Listen c d k x s g n Closed ms li ch) (mkLife AwaitShutdown c d k x s g n Closed ms li ch)
  | step_server_closed c d k x s g n ms li ch :
      step (mkLife Listening c d k x s g n Closed ms li ch) (mkLife AwaitShutdown c d k x s g n Closed ms li ch)
  | step_return r c d k x s g n h ms li :
      step (mkLife AwaitShutdown c d k x s g n h ms li (Some r)) (mkLife (Returned r) c d k x s g n h ms li None)
  (* the closer *)
  | step_done m k x s g n h ms li ch :
      step (mkLife m AwaitDone true k x s g n h ms li ch) (mkLife m CancelWorker true k x s g n h ms li ch)
  | step_cancel_worker m d k x s g n h ms li ch :
      step (mkLife m CancelWorker d k x s g n h ms li ch) (mkLife m StopGrpc d k true s g n h ms li ch)
  | step_skip_grpc m d k x s g n h ms li ch : grpc = false ->
      step (mkLife m StopGrpc d k x s g n h ms li ch) (mkLife m StopModules d k x s g n h ms li ch)
  | step_stop_grpc m d k x s g n h ms li ch : grpc = true ->
      step (mkLife m StopGrpc d k x s g n h ms li ch) (mkLife m DrainGrpc d k x s Draining n h ms li ch)
  | step_grpc_drained m d k x s g n h ms li ch : n = 0%nat ->
      step (mkLife m DrainGrpc d k x s g n h ms li ch) (mkLife m StopModules d k x s Closed n h ms li ch)
  | step_stop_modules m d k x s g n h ms li ch :
      step (mkLife m StopModules d k x s g n h ms li ch) (mkLife m InModules d k x s g n h false li ch)
  | step_modules_stopped m d k x s g n h ms li ch : returns = true ->
      step (mkLife m InModules d k x s g n h ms li ch) (mkLife m CloseLimiter d k x s g n h ms li ch)
  | step_close_limiter m d k x s g n h ms li ch :
      step (mkLife m CloseLimiter d k x s g n h ms li ch) (mkLife m StopHttp d k x s g n h ms false ch)
  | step_stop_http m d k x s g n h ms li ch :
      step (mkLife m StopHttp d k x s g n h ms li ch) (mkLife m Drain d k x s g n Closed ms li ch)
  | step_drained r m d k x s g n h ms li :
      step (mkLife m Drain d k x s g n h ms li None) (mkLife m Finished d k x s g n h ms li (Some r)).

(** A run with [n] steps of the caller, the closer and the context. *)
Inductive run : nat -> Life -> Life -> Prop :=
  | run_start l : run 0 l l
  | run_step n l l1 l2 : step l l1 -> run n l1 l2 -> run (S n) l l2
  | run_background n l l1 l2 : background l l1 -> run n l1 l2 -> run n l l2.

Definition reachable (limiter : bool) (l : Life) : Prop := exists n, run n (launched limiter) l.
End Start.

(** [Shutdown], for a caller that serves the router itself, as steps between which
    the worker and the clients go on. *)
Inductive ShutdownPoint := SdWorker | SdGrpc | SdDrain | SdLimiter | SdModules | SdInModules | SdReturned.

Inductive Shutdown (grpc returns : bool) : ShutdownPoint -> Life -> ShutdownPoint -> Life -> Prop :=
  | sd_background p l l' : background l l' -> Shutdown grpc returns p l p l'
  | sd_worker m c d k x s g n h ms li ch :
      Shutdown grpc returns SdWorker (mkLife m c d k x s g n h ms li ch)
        SdGrpc (mkLife m c d k (match k with Unstarted => x | _ => true end) s g n h ms li ch)
  | sd_skip_grpc l : grpc = false -> Shutdown grpc returns SdGrpc l SdLimiter l
  | sd_stop_grpc m c d k x s g n h ms li ch : grpc = true ->
      Shutdown grpc returns SdGrpc (mkLife m c d k x s g n h ms li ch) SdDrain (mkLife m c d k x s Draining n h ms li ch)
  | sd_drained m c d k x s g n h ms li ch : n = 0%nat ->
      Shutdown grpc returns SdDrain (mkLife m c d k x s g n h ms li ch) SdLimiter (mkLife m c d k x s Closed n h ms li ch)
  | sd_limiter m c d k x s g n h ms li ch :
      Shutdown grpc returns SdLimiter (mkLife m c d k x s g n h ms li ch) SdModules (mkLife m c d k x s g n h ms false ch)
  | sd_modules m c d k x s g n h ms li ch :
      Shutdown grpc returns SdModules (mkLife m c d k x s g n h ms li ch) SdInModules (mkLife m c d k x s g n h false li ch)
  | sd_returned l : returns = true -> Shutdown grpc returns SdInModules l SdReturned l.

(** ** The interleavings *)

Definition main_rank (m : MainPoint) : nat :=
  match m with
  | StartWorker => 0 | StartDispatcher => 1 | StartGrpc => 2 | StartCloser => 3 | Listen => 4 | Listening => 5 | AwaitShutdown => 6 | Returned _ => 7
  end.
Definition closer_rank (c : CloserPoint) : nat :=
  match c with
  | NotStarted => 0 | AwaitDone => 1 | CancelWorker => 2 | StopGrpc => 3 | DrainGrpc => 4 | StopModules => 5 | InModules => 6 | CloseLimiter => 7
  | StopHttp => 8 | Drain => 9 | Finished => 10
  end.

(** Uses the hypotheses whose premises hold. *)
Ltac life_crunch :=
  intros;
  repeat match goal with
  | H : ?P -> _ |- _ => let HP := fresh in assert (P) as HP by (done || lia || congruence); specialize (H HP); clear HP
  end;
  done || lia || congruence.

Section Runs.
  Variables (grpc : bool) (port : string) (returns : bool).
  Arguments main_rank !_ /.
  Arguments closer_rank !_ /.

(** How far the goroutines are says what has been stopped. *)
Record life_inv (l : Life) : Prop := {
  li_closer : (0 < closer_rank (lf_closer l) -> 4 <= main_rank (lf_main l))%nat;
  li_started : (main_rank (lf_main l) = 4 \/ main_rank (lf_main l) = 5 \/ main_rank (lf_main l) = 6 -> 0 < closer_rank (lf_closer l))%nat;
  li_done : (1 < closer_rank (lf_closer l))%nat -> lf_done l = true;
  li_cancelled : (3 <= closer_rank (lf_closer l))%nat -> lf_cancelled l = true;
  li_subscribed : (2 <= main_rank (lf_main l))%nat -> lf_subscribed l = true;
  li_grpc : (5 <= closer_rank (lf_closer l))%nat -> grpc = true -> lf_grpc l = Closed;
  li_no_grpc : grpc = false -> lf_grpc l = Idle;
  li_calls : lf_grpc l = Idle \/ lf_grpc l = Closed -> lf_calls l = 0%nat;
  li_modules : lf_modules l = (closer_rank (lf_closer l) <? 6)%nat;
  li_limiter : (8 <= closer_rank (lf_closer l))%nat -> lf_limiter l = false;
  li_http : (9 <= closer_rank (lf_closer l))%nat -> lf_http l = Closed;
  li_http_closed : lf_http l = Closed -> (9 <= closer_rank (lf_closer l))%nat \/ exists e, lf_main l = Returned (Some e);
  li_http_states : lf_http l <> Draining;
  li_listening : lf_http l = Idle -> main_rank (lf_main l) <> 5%nat /\ main_rank (lf_main l) <> 6%nat;
  li_before : (main_rank (lf_main l) <= 4)%nat -> lf_http l <> Serving;
  li_wait : lf_main l = AwaitShutdown -> (9 <= closer_rank (lf_closer l))%nat;
  li_sent : lf_closer l = Finished -> (main_rank (lf_main l) < 7)%nat -> lf_chan l <> None;
  li_chan : lf_chan l <> None -> lf_closer l = Finished;
  li_clean : lf_main l = Returned None -> lf_closer l = Finished;
  li_drain : lf_closer l = DrainGrpc -> grpc = true;
}.

Lemma launched_inv limiter : life_inv (launched limiter).
Proof. split; cbn; try done; try lia. Qed.

Lemma step_inv_life l l' : step grpc port returns l l' -> life_inv l -> life_inv l'.
Proof.
  intros Hs [I1 I2 I3 I4 I17 I5 I6 I18 I7 I8 I9 I10 I19 I11 I16 I12 I13 I14 I15 I20].
  destruct Hs; cbn in *; split; cbn; try done; try lia; try solve [life_crunch].
  all: try solve [intros Hh; destruct (I10 Hh) as [?|[? ?]]; [left; lia | right; eauto || done]].
  all: try solve [intros; destruct (I10 eq_refl) as [?|[? ?]]; [first [by left | done] | done]].
  all: try solve [destruct grpc; auto; intros; life_crunch].
  all: try solve [destruct c; cbn in *; life_crunch].
  all: try solve [by intros [|]]. all: eauto.
Qed.

(** The background moves the worker and the calls, or makes the caller return. *)
Lemma background_inv_life l l' : background l l' -> life_inv l -> life_inv l'.
Proof.
  intros Hs [I1 I2 I3 I4 I17 I5 I6 I18 I7 I8 I9 I10 I19 I11 I16 I12 I13 I14 I15 I20].
  destruct Hs; cbn in *; split; cbn; try done; try lia; try solve [life_crunch].
  all: try solve [intros Hg; by destruct Hg | intros Hg; by apply I18 in Hg | eauto].
Qed.

Lemma run_inv n l l' : run grpc port returns n l l' -> life_inv l -> life_inv l'.
Proof. induction 1; eauto using step_inv_life, background_inv_life. Qed.

Lemma reachable_inv limiter l : reachable grpc port returns limiter l -> life_inv l.
Proof. intros [n Hr]. eapply run_inv; [done | apply launched_inv]. Qed.

(** Every step brings a goroutine forward. *)
Definition progress (l : Life) : nat := (main_rank (lf_main l) + closer_rank (lf_closer l) + if lf_done l then 1 else 0)%nat.

Lemma step_progress l l' : step grpc port returns l l' -> life_inv l -> (progress l < progress l')%nat.
Proof.
  intros Hs Hi. destruct Hs; unfold progress; cbn; try lia.
  pose proof (li_closer _ Hi) as I1. destruct c; cbn in *; lia.
Qed.

Lemma progress_bound l : (progress l <= 18)%nat.
Proof. unfold progress. destruct (lf_main l), (lf_closer l), (lf_done l); cbn; lia. Qed.

Lemma runs_end n l l' : life_inv l -> run grpc port returns n l l' -> (n + progress l <= progress l')%nat.
Proof.
  intros Hi Hn. revert Hi. induction Hn as [l|n l l1 l2 Hs Hn IH|n l l1 l2 Hs Hn IH]; intros Hi; [lia | |].
  - pose proof (step_progress _ _ Hs Hi). specialize (IH (step_inv_life _ _ Hs Hi)). lia.
  - specialize (IH (background_inv_life _ _ Hs Hi)). enough (progress l <= progress l1)%nat by lia. destruct Hs; unfold progress; cbn; lia.
Qed.

(** What the closer can be held up by. *)
Definition held_up (l : Life) : Prop :=
  lf_closer l = DrainGrpc /\ (0 < lf_calls l)%nat \/ lf_closer l = InModules /\ returns = false.

(** Once the context is done, the caller and the closer can go on until both are
    through, or the closer waits for an open call or a module. *)
Lemma stuck_closer l : life_inv l -> lf_done l = true -> (forall l', ~ step grpc port returns l l') ->
  held_up l \/ lf_closer l = NotStarted \/ lf_closer l = Finished.
Proof.
  intros [_ _ _ _ _ _ _ _ _ _ _ _ _ _ _ _ _ I14 _ _] Hd Hs. unfold held_up. destruct l as [m c d k x s g n h ms li ch]. cbn in *. subst d.
  destruct c; auto; try (exfalso; eapply Hs; by constructor).
  - exfalso. destruct grpc eqn:Eg; eapply Hs; [by apply step_stop_grpc | by apply step_skip_grpc].
  - destruct n as [|n]; [exfalso; eapply Hs; by constructor | left; left; split; [done | lia]].
  - destruct returns eqn:Er; [exfalso; eapply Hs; by constructor | auto].
  - exfalso. destruct ch; [by discriminate I14 | eapply Hs, (step_drained _ _ _ None)].
Qed.

Lemma stuck_returned l : life_inv l -> lf_done l = true -> (forall l', ~ step grpc port returns l l') ->
  held_up l \/ (exists r, lf_main l = Returned r) /\ (lf_closer l = NotStarted \/ lf_closer l = Finished).
Proof.
  intros Hi Hd Hs. destruct (stuck_closer l Hi Hd Hs) as [Hh|Hc]; [by left | right]. split; [| done].
  destruct Hi as [I1 I2 I3 I4 I17 I5 I6 I18 I7 I8 I9 I10 I19 I11 I16 I12 I13 I14 I15 I20].
  destruct l as [m c d k x s g n h ms li ch]. cbn in *. subst d.
  destruct m as [| | | | | | |r]; [..| by exists r]; exfalso.
  - eapply Hs. constructor.
  - eapply Hs. constructor.
  - destruct grpc eqn:Eg; eapply Hs; [by apply step_grpc | by apply step_no_grpc].
  - eapply Hs. constructor.
  - destruct h; [eapply Hs; constructor | by apply I16; [cbn; lia |] | done | eapply Hs; constructor].
  - destruct Hc as [-> | ->]; [cbn in I2; lia |]. cbn in *. rewrite I9 in * by lia. eapply Hs. constructor.
  - destruct Hc as [-> | ->]; [cbn in I2; lia |]. cbn in *. destruct ch as [r|]; [eapply Hs; constructor | by apply I13; [| lia |]].
Qed.
End Runs.

(** ** Assembly *)

Section Assembly.
  Context {FS D : Type} `{UnicodeTables, Env, Drivers FS}.

(** An outcome: a result that satisfies [Q], an error with the pool closed, or a
    panic. *)
Definition closing {A} (Q : A -> Sys D -> Prop) (o : res A * World (Sys D)) : Prop :=
  match o with (Ok a, w') => Q a (w_db w') | (Err _, w') => sy_pool (w_db w') = false | (Panic _, _) => True end.

Lemma closing_bind {A B} Q R (m : M (Sys D) A) (k : A -> M (Sys D) B) w :
  closing Q (m w) -> (forall a w', Q a (w_db w') -> closing R (k a w')) -> closing R (bind m k w).
Proof. intros Hm Hk. unfold bind. destruct (m w) as [[a|e|e] w']; [by apply Hk | done | done]. Qed.

Lemma register_modules_closing (ms : list (option (Module D))) r w : sy_pool (w_db w) = true ->
  closing (fun r' d => sy_pool d = true /\ exists ms', ms = map Some ms' /\ register_all ms' r = Ok r') (register_modules ms r w).
Proof.
  intros Hp. revert r. induction ms as [|mo ms IH]; intros r; cbn [register_modules]; [by split; [| exists []] |].
  destruct (Register mo r) as [r'|e|e] eqn:E; [| by destruct mo | done].
  specialize (IH r'). destruct (register_modules ms r' w) as [[r''|e|e] w']; [| done | done].
  destruct IH as [Hp' (ms' & -> & Ha)]. split; [done |]. destruct mo as [m|]; [| done].
  exists (m :: ms'). split; [done |]. cbn [register_all]. by rewrite E.
Qed.

Lemma or_close_closing {A} what (m : M (Sys D) A) w : sy_pool (w_db (m w).2) = true ->
  closing (fun _ d => sy_pool d = true) (or_close what m w).
Proof. intros Hp. unfold or_close, bind at 1, attempt. by destruct (m w) as [[a|e|e] w']. Qed.

(** Migrations do not touch the state of the process, and all succeed exactly when
    each source does. *)
Lemma applyFS_same fs dir conn (w : World (Sys D)) : (applyFS fs dir conn w).2 = w.
Proof. unfold applyFS. by repeat case_match. Qed.

Lemma up_extra_exact conn i extra (w : World (Sys D)) :
  (up_extra conn i extra w).2 = w
  /\ ((up_extra conn i extra w).1 = Ok tt <-> Forall (fun fs => (applyFS fs "." conn w).1 = Ok tt) extra).
Proof.
  revert i. induction extra as [|fs extra IH]; intros i; cbn [up_extra]; [by split |]. rewrite Forall_cons.
  pose proof (applyFS_same fs "." conn w) as Hs. unfold wrap_err, bind, attempt, ret, fail.
  destruct (applyFS fs "." conn w) as [[[]|e|e] w1]; cbn in Hs |- *; subst w1; [by destruct (IH (i + 1)) as [-> ->]; split; [| naive_solver] | naive_solver | naive_solver].
Qed.

Lemma Up_exact extra (w : World (Sys D)) :
  (Up extra w).2 = w /\ ((Up extra w).1 = Ok tt <-> Forall (fun fs => (applyFS fs "." pgx_ConnString w).1 = Ok tt) (coreFS :: extra)).
Proof.
  unfold Up. rewrite Forall_cons. pose proof (applyFS_same coreFS "." pgx_ConnString w) as Hs. unfold wrap_err, bind, attempt, ret, fail.
  destruct (applyFS coreFS "." pgx_ConnString w) as [[[]|e|e] w1]; cbn in Hs |- *; subst w1; [| naive_solver | naive_solver].
  destruct (up_extra_exact pgx_ConnString 0 extra w) as [-> ->]. naive_solver.
Qed.

Lemma pool_closing c w : sy_pool (w_db w) = false -> closing (fun _ d => sy_pool d = true) (NewPostgresPool c w).
Proof.
  intros Hp. unfold NewPostgresPool. destruct (pgx_ParseConfig _); [| done]. destruct (pgx_NewWithConfig _); [done |].
  unfold bind at 1, set_pool at 1. by destruct pgx_Ping.
Qed.

Lemma zoom_pool {E A} `{Lens (Sys D) E} (m : M E A) w : (forall e d, sy_pool (lens_set e d) = sy_pool d) ->
  sy_pool (w_db (zoom m w).2) = sy_pool (w_db w).
Proof. intros Hp. unfold zoom. destruct (m _) as [r w1]. apply Hp. Qed.

Lemma driver_closing path w : sy_pool (w_db w) = true -> (forall wd, os_Getwd = Ok wd -> HasPrefix wd "/" = true) ->
  closing (fun base d => sy_pool d = true /\ (base = "/" \/ Storage.is_base base))
    (or_close (D := D) "storage driver" (zoom (Storage.NewDriver os_Getwd path)) w).
Proof.
  intros Hp Hwd. unfold or_close, bind, attempt, zoom.
  destruct (Storage.NewDriver _ _ _) as [[base|e|e] w'] eqn:E; [| done | done]. split; [done |]. by eapply Storage.NewDriver_base.
Qed.

(** [New] gives back an open pool, a directory for uploads with an absolute clean
    path and modules that were started in order, or, when it fails, closes the pool,
    the caller's as well. *)
Theorem New_exact iter iter' ctx (opts : Options FS D) w :
  sy_pool (w_db w) = op_DBPool opts ->
  (forall wd, os_Getwd = Ok wd -> HasPrefix wd "/" = true) ->
  closing (fun app d => sy_pool d = true /\ (ap_storage app = "/" \/ Storage.is_base (ap_storage app))
      /\ exists ms r, op_Modules opts = map Some ms /\ register_all ms NewRegistry = Ok r
         /\ resolveOrderLocked iter iter' r = Ok (r_order (ap_registry app)) /\ r_modules (ap_registry app) = r_modules r
         /\ ap_bus app = BindSubscriptions (ap_registry app) NewInMemoryBus /\ ap_limiter app = app_limiter (op_Config opts))
    (New iter iter' ctx opts w).
Proof.
  intros Hpool Hwd. unfold New. cbv zeta.
  apply closing_bind with (Q := fun _ d => sy_pool d = true).
  { destruct (op_DBPool opts); [done |]. apply closing_bind with (Q := fun _ d => sy_pool d = true); [| done].
    pose proof (pool_closing (op_Config opts) w Hpool) as Hc. unfold wrap_err, bind, attempt.
    by destruct (NewPostgresPool (op_Config opts) w) as [[a|e|e] w']. }
  intros _ w1 Hp1. apply closing_bind with (Q := fun _ d => sy_pool d = true).
  { destruct (op_RunMigrations opts); [| done]. apply or_close_closing. by rewrite (proj1 (Up_exact _ _)). }
  intros _ w2 Hp2. apply closing_bind with (Q := fun base d => sy_pool d = true /\ (base = "/" \/ Storage.is_base base)).
  { by apply driver_closing. }
  intros base w3 [Hp3 Hbase]. eapply closing_bind; [by apply register_modules_closing |].
  intros r w4 [Hp4 (ms & Hms & Hr)]. unfold InitAll. destruct (resolveOrderLocked iter iter' r) as [order|e|e] eqn:Eo.
  - apply closing_bind with (Q := fun _ d => sy_pool d = true); [by apply or_close_closing; rewrite zoom_pool |].
    intros _ w5 Hp5. apply closing_bind with (Q := fun _ d => sy_pool d = true).
    { unfold ignore, bind, attempt. pose proof (zoom_pool (RegisterPermissions true (mkRegistry (r_modules r) order)) w5 (fun _ _ => eq_refl)) as Hz.
      destruct (zoom _ w5) as [[a|e|e] w6]; cbn in *; [by rewrite Hz | by rewrite Hz | done]. }
    intros _ w6 Hp6. split; [done |]. split; [done |]. by exists ms, r.
  - apply closing_bind with (Q := fun _ _ => False); [| done]. done.
  - apply closing_bind with (Q := fun _ _ => False); [| done]. done.
Qed.
End Assembly.

(** An event a module records is one the worker will fetch. *)
Lemma RecordOutbox_due `{Env, Pg} refused tenantID eventType aggregateType aggregateID payload maxRetries w w' :
  RecordOutbox refused true tenantID eventType aggregateType aggregateID payload w = (Ok tt, w') -> 0 < maxRetries ->
  exists id row, w_db w !! id = None /\ w_db w' = <[id := row]> (w_db w)
    /\ ob_tenant_id row = tenantID /\ ob_event_type row = eventType /\ ob_aggregate_id row = aggregateID /\ due maxRetries row = true.
Proof.
  intros E Hm. unfold RecordOutbox in E. cbn [negb] in E. step_inv. unfold ret in E. simplify_eq.
  match goal with X : Create _ _ _ = _ |- _ => apply outbox_Create_Ok in X as [Hn Hd] end. cbn in Hn, Hd.
  eexists _, _. split_and!; [exact Hn | exact Hd | done | done | done |]. unfold due. cbn. by apply Z.ltb_lt.
Qed.

Lemma modules_stopped grpc l : life_inv grpc l -> lf_modules l = false ->
  lf_done l = true /\ lf_cancelled l = true /\ (lf_grpc l = Idle \/ lf_grpc l = Closed) /\ lf_calls l = 0%nat.
Proof.
  intros Hi. rewrite (li_modules _ _ Hi), Nat.ltb_ge. intros Hc.
  assert (lf_grpc l = Idle \/ lf_grpc l = Closed) as Hg.
  { destruct grpc; [right; by apply (li_grpc _ _ Hi); [lia |] | left; by rewrite (li_no_grpc _ _ Hi)]. }
  split_and!; [apply (li_done _ _ Hi); lia | apply (li_cancelled _ _ Hi); lia | done | by apply (li_calls _ _ Hi)].
Qed.

(** Everything the closer stops is stopped. *)
Record shut_down (l : Life) : Prop := {
  sh_context : lf_done l = true;
  sh_worker : lf_cancelled l = true;                       (* told to stop, not waited for *)
  sh_grpc : lf_grpc l = Idle \/ lf_grpc l = Closed;
  sh_calls : lf_calls l = 0%nat;
  sh_http : lf_http l = Closed;
  sh_modules : lf_modules l = false;
  sh_limiter : lf_limiter l = false;
  sh_dispatcher : lf_subscribed l = true;                  (* never unsubscribed *)
}.

Lemma returned_clean grpc l : life_inv grpc l -> lf_main l = Returned None -> shut_down l.
Proof.
  intros Hi Hret. pose proof (li_clean _ _ Hi Hret) as Hc. assert (lf_modules l = false) as Hm by by rewrite (li_modules _ _ Hi), Hc.
  destruct (modules_stopped grpc l Hi Hm) as (? & ? & ? & ?).
  split; try done; [apply (li_http _ _ Hi) | apply (li_limiter _ _ Hi) | apply (li_subscribed _ _ Hi)]; rewrite ?Hc, ?Hret; cbn; lia.
Qed.

(** ** Properties *)

(** C30: Starting and stopping, in every interleaving of the caller, the closer, the
    context, the outbox worker, the clients of the gRPC server and a failing HTTP
    listener.  [Start] returns
    without an error only after the context was cancelled, the outbox worker was told
    to stop, the gRPC server has closed with no call open, the HTTP server takes no
    connections, the modules were stopped and the limiter was closed; modules are
    stopped only after the worker was told and no gRPC call is open any more.  The
    worker is not waited for, and the webhook dispatcher stays subscribed.  The
    caller and the closer take at most eighteen steps; once the context is
    cancelled they come to a halt only when [Start] has returned and the shutdown is
    complete or was never reached, or while the closer is held up, by [GracefulStop]
    with a call still open or by a module that does not return. *)
Theorem start_shutdown (grpc : bool) (port : string) (returns limiter : bool) (l : Life) :
  reachable grpc port returns limiter l ->
  (lf_main l = Returned None -> shut_down l)
  /\ (lf_modules l = false -> lf_done l = true /\ lf_cancelled l = true /\ (lf_grpc l = Idle \/ lf_grpc l = Closed) /\ lf_calls l = 0%nat)
  /\ (forall n l', run grpc port returns n l l' -> (n <= 18)%nat)
  /\ (lf_done l = true -> (forall l', ~ step grpc port returns l l') ->
      lf_closer l = DrainGrpc /\ (0 < lf_calls l)%nat \/ lf_closer l = InModules /\ returns = false
      \/ (exists r, lf_main l = Returned r) /\ (lf_closer l = NotStarted \/ lf_closer l = Finished)).
Proof.
  intros Hr. pose proof (reachable_inv grpc port returns limiter l Hr) as Hi. split_and!.
  - by apply (returned_clean grpc).
  - by apply (modules_stopped grpc).
  - intros n l' Hn. pose proof (runs_end grpc port returns n l l' Hi Hn). pose proof (progress_bound l'). lia.
  - intros Hd Hs. destruct (stuck_returned grpc port returns l Hi Hd Hs) as [[?|?]|?]; auto.
Qed.

(** A run: everything starts, a call is open while the context is cancelled, the
    call ends, everything stops; the worker is still in a batch. *)
Definition stopped : Life := mkLife (Returned None) Finished true InBatch true true Closed 0 Closed false false None.

Ltac life_step c := eapply run_step; [by eapply c |].
Ltac life_background c := eapply run_background; [by eapply c |].

Lemma stopped_reachable : reachable true "50051" true true stopped.
Proof.
  unfold reachable, launched, stopped. eexists.
  life_step step_worker. life_step step_dispatcher. life_step step_grpc. life_step step_closer. life_step step_listen.
  life_background bg_call_opens. life_background bg_tick. life_step step_cancel.
  life_step step_done. life_step step_cancel_worker. life_step step_stop_grpc. life_background bg_call_ends. life_step step_grpc_drained.
  life_step step_stop_modules. life_step step_modules_stopped. life_step step_close_limiter.
  life_step step_stop_http. life_step step_server_closed. life_step (step_drained true "50051" true None). life_step step_return. apply run_start.
Qed.

Lemma start_shutdown_witness : reachable true "50051" true true stopped /\ lf_calls stopped = 0%nat /\ lf_http stopped = Closed.
Proof.
  split; [exact stopped_reachable |]. destruct (start_shutdown true "50051" true true stopped stopped_reachable) as (Hc & _).
  destruct (Hc eq_refl) as [_ _ _ Hn Hh _ _ _]. split; [exact Hn | exact Hh].
Defined.

(** The closer in [GracefulStop] with one stream open, while HTTP is served. *)
Definition waiting_for_stream : Life := mkLife Listening DrainGrpc true Gone true true Draining 1 Serving true true None.

(** Orders to know about.  Modules are stopped while the HTTP server still takes
    requests, whose routes it mounts; when the port of gRPC is taken, [Start] returns
    with the outbox worker running; [Start] can return without an error while the worker is
    in a batch; and one open stream, such as the public Watch of the health service,
    holds up the whole shutdown, for [GracefulStop] has no deadline. *)
Theorem shutdown_gaps :
  (exists l, reachable true "50051" true true l /\ lf_modules l = false /\ lf_http l = Serving)
  /\ (exists l e, reachable true "50051" true true l /\ lf_main l = Returned (Some e) /\ worker_runs l = true /\ worker_asked l = false)
  /\ (reachable true "50051" true true stopped /\ lf_worker stopped = InBatch)
  /\ (reachable true "50051" true true waiting_for_stream /\ forall l', ~ step true "50051" true waiting_for_stream l').
Proof.
  split_and!; [| | exact stopped_reachable | done | |].
  - exists (mkLife Listening CloseLimiter true Selecting true true Closed 0 Serving false true None). split; [| done]. eexists.
    life_step step_worker. life_step step_dispatcher. life_step step_grpc. life_step step_closer. life_step step_listen. life_step step_cancel.
    life_step step_done. life_step step_cancel_worker. life_step step_stop_grpc. life_step step_grpc_drained. life_step step_stop_modules.
    life_step step_modules_stopped. apply run_start.
  - exists (mkLife (Returned (Some (EWrap "grpc listener on :50051: " (ENew "address already in use") ""))) NotStarted false Selecting false true Idle 0 Idle true true None).
    eexists. split; [| done]. eexists.
    life_step step_worker. life_step step_dispatcher. life_step (step_grpc_refused true "50051" true (ENew "address already in use")). apply run_start.
  - eexists. life_step step_worker. life_step step_dispatcher. life_step step_grpc. life_step step_closer. life_step step_listen.
    life_background bg_call_opens. life_step step_cancel. life_step step_done. life_step step_cancel_worker. life_step step_stop_grpc.
    life_background bg_worker_ends. apply run_start.
  - intros l' Hs. unfold waiting_for_stream in Hs. by inversion Hs.
Qed.

(** [Shutdown], when it returns: the limiter is closed and the modules are stopped,
    with gRPC no call is open, and a worker that was started was told to stop. *)
Inductive shutting (grpc returns : bool) (l0 : Life) : ShutdownPoint -> Life -> Prop :=
  | shutting_start : shutting grpc returns l0 SdWorker l0
  | shutting_step p l p' l' : shutting grpc returns l0 p l -> Shutdown grpc returns p l p' l' -> shutting grpc returns l0 p' l'.

Definition shutdown_rank (p : ShutdownPoint) : nat :=
  match p with SdWorker => 0 | SdGrpc => 1 | SdDrain => 2 | SdLimiter => 3 | SdModules => 4 | SdInModules => 5 | SdReturned => 6 end.

Lemma shutting_inv grpc returns l0 p l : shutting grpc returns l0 p l ->
  ((1 <= shutdown_rank p)%nat -> lf_worker l <> Unstarted -> lf_cancelled l = true)
  /\ ((3 <= shutdown_rank p)%nat -> grpc = true -> lf_grpc l = Closed /\ lf_calls l = 0%nat)
  /\ ((4 <= shutdown_rank p)%nat -> lf_limiter l = false) /\ ((5 <= shutdown_rank p)%nat -> lf_modules l = false)
  /\ (lf_worker l0 <> Unstarted -> lf_worker l <> Unstarted).
Proof.
  induction 1 as [|p l p' l' _ (I1 & I2 & I3 & I4 & I5) Hs]; [split_and!; cbn; lia || done |].
  destruct Hs as [? ? ? []| | | | | | |]; cbn in *; split_and!; intros.
  all: try solve [done | lia | congruence | eauto | by destruct k | by apply I1; [lia |] | by apply I2; [lia |] | by apply I3; lia | by apply I4; lia | by apply I5 | by destruct I2].
Qed.

Theorem Shutdown_returned grpc returns l0 l : shutting grpc returns l0 SdReturned l ->
  lf_limiter l = false /\ lf_modules l = false /\ (grpc = true -> lf_grpc l = Closed /\ lf_calls l = 0%nat)
  /\ (lf_worker l0 <> Unstarted -> lf_cancelled l = true).
Proof.
  intros (I1 & I2 & I3 & I4 & I5)%shutting_inv. cbn in *. split_and!; [apply I3; lia | apply I4; lia | intros; apply I2; [lia | done] |].
  intros Hw. apply I1; [lia | auto].
Qed.
