(* ===== verification/Commands.v ===== *)
(** * The commands

    [cmd/seed/main.go] with the flags it takes, and [cmd/server/main.go] from the
    configuration to the exit code.  [flag.Parse] is the standard package for flags
    with text values.  What a command prints on its own is modelled; its log is not. *)

From S2P Require Import Prelude GoStrings GoTime GoFloat Sdk Tables Organization Tenants Auth Identity Bootstrap Config Registry Lifecycle.
From S2P Require Storage.
#[local] Open Scope string_scope.
#[local] Open Scope list_scope.
#[local] Open Scope Z_scope.

(** ** Package flag *)

Inductive Token := NotFlag | EndOfFlags | BadSyntax | Flag (name : string) (value : option string).

(** An argument: [-name], [-name=value] or the same with two dashes.  An equals sign
    cannot be the first byte of a name. *)
Definition flag_token (s : string) : Token :=
  match s with
  | String a (String b rest) =>
      if negb (Ascii.eqb a "-") then NotFlag
      else if String.eqb s "--" then EndOfFlags
      else match (if Ascii.eqb b "-" then rest else String b rest) with
           | "" => BadSyntax
           | String c name =>
               if Ascii.eqb c "-" || Ascii.eqb c "=" then BadSyntax
               else match SplitN2 name "=" with
                    | Some (n, v) => Flag (String c n) (Some v)
                    | None => Flag (String c name) None
                    end
           end
  | _ => NotFlag
  end.

(** The values of the flags and the arguments left over, or the exit code. *)
Inductive FlagOutcome := Parsed (values : gmap string string) (rest : list string) | Exits (code : Z).

(** A flag that is not defined or has no value ends the process with code 2, a call
    for help with code 0. *)
Fixpoint flag_Parse (values : gmap string string) (args : list string) : FlagOutcome :=
  match args with
  | [] => Parsed values []
  | s :: args' =>
      match flag_token s with
      | NotFlag => Parsed values args
      | EndOfFlags => Parsed values args'
      | BadSyntax => Exits 2
      | Flag name value =>
          match values !! name with
          | None => Exits (if String.eqb name "help" || String.eqb name "h" then 0 else 2)
          | Some _ =>
              match value with
              | Some v => flag_Parse (<[name := v]> values) args'
              | None => match args' with
                        | v :: args'' => flag_Parse (<[name := v]> values) args''
                        | [] => Exits 2
                        end
              end
          end
      end
  end.

(** ** The seed command *)

Definition getEnvDefault (Getenv : Environ) (key fallback : string) : string :=
  if negb (String.eqb (Getenv key) "") then Getenv key else fallback.

(** The flags, with what they are when they are not given. *)
Definition seed_flags (Getenv : Environ) : gmap string string := list_to_map [
  ("email", getEnvDefault Getenv "SEED_EMAIL" "admin@akordium.com");
  ("password", getEnvDefault Getenv "SEED_PASSWORD" "Secret123!");
  ("name", getEnvDefault Getenv "SEED_NAME" "Owner Administrator");
  ("tenant", getEnvDefault Getenv "SEED_TENANT" "akordium");
  ("tenant-code", "");
  ("tenant-name", getEnvDefault Getenv "SEED_TENANT_NAME" "Akordium Lab");
  ("org", getEnvDefault Getenv "SEED_ORG" "Akordium Main Org");
  ("org-name", "");
  ("org-code", getEnvDefault Getenv "SEED_ORG_CODE" "main")
].

Definition seed_config (flags : gmap string string) : SeedConfig :=
  let flag name := default "" (flags !! name) in
  let tenantCode := if negb (String.eqb (flag "tenant-code") "") then flag "tenant-code" else flag "tenant" in
  let orgName := if negb (String.eqb (flag "org-name") "") then flag "org-name" else flag "org" in
  mkSeedConfig (flag "email") (flag "password") (flag "name") tenantCode (flag "tenant-name") (flag "org-code") orgName.

(** The process: its pool, and the database behind it. *)
Record SeedProc := mkSeedProc { sp_sys : Sys unit; sp_db : SeedDB }.

#[export] Instance Lens_sp_sys : Lens SeedProc (Sys unit).
Proof. refine {| lens_get := sp_sys; lens_set x d := mkSeedProc x (sp_db d) |}; by intros; repeat match goal with d : SeedProc |- _ => destruct d end. Defined.
#[export] Instance Lens_sp_db : Lens SeedProc SeedDB.
Proof. refine {| lens_get := sp_db; lens_set x d := mkSeedProc (sp_sys d) x |}; by intros; repeat match goal with d : SeedProc |- _ => destruct d end. Defined.

Record Exit := mkExit { ex_code : Z; ex_printed : string }.

Section Seed.
  Context {FS : Type} `{UnicodeTables, Env, Pg, TenantServer, IamServer, Bcrypt, UUIDLib, GoPlatform, Dotenv, Drivers FS}.
  Variable org_refused : OrgRow -> option error.

(** [os.Exit] skips the deferred call that closes the pool. *)
Definition seed_main (args : list string) (environ : Environ) : M SeedProc Exit :=
  match flag_Parse (seed_flags environ) args with
  | Exits code => ret (mkExit code "")
  | Parsed flags _ =>
      loaded <- attempt (lift_res (Load environ)) ;;
      match loaded with
      | inr _ => ret (mkExit 1 "")
      | inl cfg =>
          pool <- attempt (zoom (NewPostgresPool cfg)) ;;
          match pool with
          | inr _ => ret (mkExit 1 "")
          | inl _ =>
              run <- attempt (zoom (Run org_refused (seed_config flags))) ;;
              match run with
              | inr _ => ret (mkExit 1 "")
              | inl result => zoom (set_pool false) ;;; ret (mkExit 0 (Summary result))
              end
          end
      end
  end.
End Seed.

(** ** The server command *)

Section Server.
  Context {FS : Type} `{UnicodeTables, Env, GoPlatform, Dotenv, Drivers FS}.

(** The options: [godotenv.Load] has set the variables of the process by then. *)
Definition server_options (environ : Environ) (cfg : AppConfig) : Options FS unit :=
  mkOptions cfg false [] (String.eqb (godotenv_Load environ "AUTO_MIGRATE") "true") [].

(** [main] up to [Start]: the application, or the exit code. *)
Definition server_boot (ctx : Ctx) (environ : Environ) : M (Sys unit) (Application unit + Z) :=
  match main_config environ with
  | Ok cfg =>
      app <- attempt (New [] [] ctx (server_options environ cfg)) ;;
      match app with inl a => ret (inl a) | inr _ => ret (inr 1) end
  | Err _ => ret (inr 1)
  | Panic e => panic e
  end.

(** The process exits with a code: it was never started, or [Start] has returned.
    There are no modules that could hold it up. *)
Inductive server_exits (ctx : Ctx) (environ : Environ) (w : World (Sys unit)) : Z -> option Life -> Prop :=
  | exits_unstarted code w' : server_boot ctx environ w = (Ok (inr code), w') -> server_exits ctx environ w code None
  | exits_started app w' l err :
      server_boot ctx environ w = (Ok (inl app), w') ->
      reachable (ap_grpc app) (cf_GRPCPort (ap_cfg app)) true (bool_decide (is_Some (ap_limiter app))) l -> lf_main l = Returned err ->
      server_exits ctx environ w (match err with Some _ => 1 | None => 0 end) (Some l).
End Server.

(** ** Command lines *)

(** A flag of a command line: its name and value in one argument or in two. *)
Record Setting := mkSetting { st_Dashes : bool; st_Joined : bool; st_Name : string; st_Value : string }.

Definition render (s : Setting) : list string :=
  let flag := (if st_Dashes s then "--" else "-") +:+ st_Name s in
  if st_Joined s then [flag +:+ "=" +:+ st_Value s] else [flag; st_Value s].

(** A name as a program defines it. *)
Definition plain_name (name : string) : bool :=
  match name with "" => false | String c _ => negb (Ascii.eqb c "-") && no_char "=" name end.

Definition set_flags (values : gmap string string) (l : list Setting) : gmap string string :=
  fold_left (fun m s => <[st_Name s := st_Value s]> m) l values.

Lemma SplitN2_none c s : no_char c s = true -> SplitN2 s c = None.
Proof.
  unfold SplitN2. intros Hs. enough (IndexByte s c = None) as -> by done. induction s as [|d s IH]; [done |].
  cbn in Hs. apply andb_true_iff in Hs as [Hd Hs]. cbn [IndexByte]. apply negb_true_iff in Hd. rewrite Hd. by rewrite IH.
Qed.

Lemma token_plain (dashes : bool) name : plain_name name = true -> flag_token ((if dashes then "--" else "-") +:+ name) = Flag name None.
Proof.
  destruct name as [|c name]; [done |]. cbn [plain_name]. rewrite Storage.no_char_cons, andb_true_iff, andb_true_iff. intros [Hd [He Hn]].
  apply negb_true_iff in Hd, He. rewrite Ascii.eqb_sym in He.
  destruct dashes; cbn [String.append flag_token]; cbn; rewrite ?Hd, ?He, ?(SplitN2_none _ _ Hn); cbn; by rewrite ?Hd, ?He, ?(SplitN2_none _ _ Hn).
Qed.

Lemma token_joined (dashes : bool) name v : plain_name name = true ->
  flag_token ((if dashes then "--" else "-") +:+ name +:+ "=" +:+ v) = Flag name (Some v).
Proof.
  destruct name as [|c name]; [done |]. cbn [plain_name]. rewrite Storage.no_char_cons, andb_true_iff, andb_true_iff. intros [Hd [He Hn]].
  apply negb_true_iff in Hd, He. rewrite Ascii.eqb_sym in He. pose proof (SplitN2_append "=" name v Hn) as Es.
  destruct dashes; cbn [String.append flag_token]; cbn in Es |- *; rewrite ?Hd, ?He; cbn; by rewrite ?Hd, ?He, ?Es.
Qed.

(** Parsing what a command line was written from. *)
Lemma Parse_render values l : Forall (fun s => plain_name (st_Name s) = true /\ is_Some (values !! st_Name s)) l ->
  flag_Parse values (concat (map render l)) = Parsed (set_flags values l) [].
Proof.
  intros Hl. revert values Hl. induction l as [|s l IH]; intros values Hl; [done |]. apply Forall_cons in Hl as [[Hn [x Hx]] Hl].
  assert (Forall (fun s' => plain_name (st_Name s') = true /\ is_Some (<[st_Name s := st_Value s]> values !! st_Name s')) l) as Hl'.
  { eapply Forall_impl; [exact Hl |]. intros s' [? ?]. split; [done |]. destruct (decide (st_Name s = st_Name s')) as [->|]; [by rewrite lookup_insert_eq | by rewrite lookup_insert_ne]. }
  cbn [map concat]. unfold render at 1. cbv zeta. destruct (st_Joined s); cbn [app flag_Parse].
  - rewrite append_assoc, token_joined by done. rewrite Hx. by apply IH.
  - rewrite token_plain by done. rewrite Hx. by apply IH.
Qed.

(** The value of a flag: the last one given, or the default. *)
Definition given (l : list Setting) (name : string) : option string :=
  fold_left (fun o s => if String.eqb (st_Name s) name then Some (st_Value s) else o) l None.

Lemma set_flags_lookup values l name : set_flags values l !! name = match given l name with Some v => Some v | None => values !! name end.
Proof.
  unfold set_flags, given. induction l as [|s l IH] using rev_ind; [done |]. rewrite !fold_left_app. cbn [fold_left].
  destruct (String.eqb_spec (st_Name s) name) as [->|Hne]; [apply lookup_insert_eq |]. by rewrite lookup_insert_ne.
Qed.

(** ** A run of the seed command *)

(** What a command line chooses: a flag, or a variable, or the built-in value; the
    two aliases win when they are not empty. *)
Definition chosen (environ : Environ) (l : list Setting) : SeedConfig :=
  let pick name var dflt := default (getEnvDefault environ var dflt) (given l name) in
  let alias alt name var dflt := match given l alt with Some (String c s) => String c s | _ => pick name var dflt end in
  mkSeedConfig (pick "email" "SEED_EMAIL" "admin@akordium.com") (pick "password" "SEED_PASSWORD" "Secret123!")
    (pick "name" "SEED_NAME" "Owner Administrator") (alias "tenant-code" "tenant" "SEED_TENANT" "akordium")
    (pick "tenant-name" "SEED_TENANT_NAME" "Akordium Lab") (pick "org-code" "SEED_ORG_CODE" "main")
    (alias "org-name" "org" "SEED_ORG" "Akordium Main Org").

Definition seed_names : list string :=
  ["email"; "password"; "name"; "tenant"; "tenant-code"; "tenant-name"; "org"; "org-name"; "org-code"].

Lemma seed_config_chosen environ l : seed_config (set_flags (seed_flags environ) l) = chosen environ l.
Proof.
  unfold seed_config, chosen. cbv zeta. rewrite !set_flags_lookup. f_equal; try by destruct (given l _).
  - destruct (given l "tenant-code") as [[|c s]|]; [| done |]; by destruct (given l "tenant").
  - destruct (given l "org-name") as [[|c s]|]; [| done |]; by destruct (given l "org").
Qed.

Lemma seed_Parse environ l : Forall (fun s => st_Name s ∈ seed_names) l ->
  flag_Parse (seed_flags environ) (concat (map render l)) = Parsed (set_flags (seed_flags environ) l) [].
Proof.
  intros Hl. apply Parse_render. eapply Forall_impl; [exact Hl |]. intros s Hs.
  assert (Forall (fun n => plain_name n = true /\ is_Some (seed_flags environ !! n)) seed_names) as Hall by (repeat constructor; by eexists).
  rewrite Forall_forall in Hall. by apply Hall.
Qed.

Section SeedRuns.
  Context {FS : Type} `{UnicodeTables, Env, Pg, TenantServer, IamServer, Bcrypt, UUIDLib, GoPlatform, Dotenv, Drivers FS}.
  Variable org_refused : OrgRow -> option error.

(** The pool opens: the URL is understood and the database answers. *)
Definition opens (c : AppConfig) : bool :=
  match pgx_ParseConfig (cf_DatabaseURL c) with
  | inr _ => false
  | inl parsed => match pgx_NewWithConfig (pool_config c parsed), pgx_Ping with None, None => true | _, _ => false end
  end.

Lemma NewPostgresPool_opens (c : AppConfig) (w : World (Sys unit)) :
  if opens c then exists cfg, NewPostgresPool c w = (Ok cfg, (set_pool true w).2)
  else exists err w', NewPostgresPool c w = (Err err, w').
Proof.
  unfold opens, NewPostgresPool. destruct (pgx_ParseConfig _) as [parsed|err]; [| eauto]. destruct (pgx_NewWithConfig _); [eauto |].
  unfold bind at 1. unfold set_pool at 1. destruct pgx_Ping; [| eauto]. unfold close_and_fail, bind, set_pool, fail. eauto.
Qed.
(** The command, from the run it makes. *)
Lemma seed_main_cases (l : list Setting) (environ : Environ) (w : World SeedProc) :
  Forall (fun s => st_Name s ∈ seed_names) l ->
  let command := seed_main org_refused (concat (map render l)) environ w in
  if opens (load_from (godotenv_Load environ)) then
    match Run org_refused (chosen environ l) (mkWorld (sp_db (w_db w)) (w_tick w)) with
    | (Ok result, v) => exists w', command = (Ok (mkExit 0 (Summary result)), w') /\ sp_db (w_db w') = w_db v /\ sy_pool (sp_sys (w_db w')) = false
    | (Err _, v) => exists w', command = (Ok (mkExit 1 ""), w') /\ sp_db (w_db w') = w_db v
    | (Panic e, v) => exists w', command = (Panic e, w') /\ sp_db (w_db w') = w_db v
    end
  else exists w', command = (Ok (mkExit 1 ""), w') /\ sp_db (w_db w') = sp_db (w_db w).
Proof.
  intros Hl command. set (c := load_from (godotenv_Load environ)).
  assert (command = bind (attempt (zoom (NewPostgresPool c))) (fun pool => match pool with
    | inr _ => ret (mkExit 1 "")
    | inl _ => bind (attempt (zoom (Run org_refused (chosen environ l)))) (fun run => match run with
        | inr _ => ret (mkExit 1 "")
        | inl result => zoom (set_pool false) ;;; ret (mkExit 0 (Summary result)) end) end) w) as ->.
  { unfold command, seed_main. by rewrite seed_Parse, seed_config_chosen by done. }
  clear Hl. pose proof (NewPostgresPool_opens c (mkWorld (sp_sys (w_db w)) (w_tick w))) as Hp.
  unfold zoom, attempt, bind. cbn [lens_get lens_set Lens_sp_sys Lens_sp_db].
  destruct (opens c); [destruct Hp as [cfg ->] | destruct Hp as (err & w' & ->); by eexists].
  unfold set_pool. cbn [snd w_db w_tick sp_db sp_sys]. destruct (Run _ _ _) as [[res|e|e] v]; by eexists.
Qed.
End SeedRuns.

(** The same command on a database that it has seeded. *)
Lemma seed_again {FS} `{UnicodeTables, Env, Pg, TenantServer, IamServer, Bcrypt, UUIDLib, GoPlatform, Dotenv, Drivers FS}
    org_refused (l : list Setting) (environ : Environ) (w : World SeedProc) n res :
  Forall (fun s => st_Name s ∈ seed_names) l -> (forall k, env_fault k = None) -> opens (load_from (godotenv_Load environ)) = true ->
  seed_inv (sp_db (w_db w)) -> sc_Email (chosen environ l) <> "" -> sc_Password (chosen environ l) <> "" ->
  seeded (with_defaults (chosen environ l)) (sp_db (w_db w)) (sr_TenantID res) (sr_OrgID res) (sr_UserID res) ->
  let again := seed_main org_refused (concat (map render l)) environ (mkWorld (w_db w) n) in
  again.1 = Ok (mkExit 0 (Summary (mkSeedResult false (sr_TenantID res) false (sr_OrgID res) false (sr_UserID res) false 0 6 false)))
  /\ settled (sb_iam (sp_db (w_db w))) (sb_iam (sp_db (w_db again.2))) /\ sb_orgs (sp_db (w_db again.2)) = sb_orgs (sp_db (w_db w)).
Proof.
  intros Hl Hf Ho Hi He Hp Hs again.
  destruct (Run_again org_refused Hf (chosen environ l) (mkWorld (sp_db (w_db w)) n) _ _ _ Hi Hs He Hp) as (v & Er & Hset & Horg & _).
  pose proof (seed_main_cases org_refused l environ (mkWorld (w_db w) n) Hl) as Hc. cbv zeta in Hc. fold again in Hc. cbn [w_db w_tick] in Hc.
  rewrite Ho, Er in Hc. destruct Hc as (w' & -> & Hd & _). cbn [fst snd]. by rewrite Hd.
Qed.

(** ** Properties *)


(** The database answers, migrations apply, and the directory of the process is the
    root. *)
Definition calm_drivers : Drivers unit := {|
  pgx_ParseConfig _ := inl (mkPoolConfig 4 0 0 0 false false); pgx_NewWithConfig _ := None; pgx_Ping := None;
  pgx_ConnString := "postgres://localhost/core"; url_WithScheme _ _ := inl "pgx5://localhost/core"; iofs_New _ _ := None;
  migrate_New _ _ := None; migrate_Up _ _ := None; migrate_ErrNoChange _ := false; coreFS := tt; os_Getwd := Ok "/" |}.
Definition decimal_ids : UUIDLib := {| uuid_Parse _ := None; uuid_String n := Itoa (Z.of_N n) |}.
Definition vars (l : list (string * string)) : Environ := fun key => default "" (snd <$> List.find (fun v => String.eqb v.1 key) l).
Definition fresh_process : World SeedProc := mkWorld (mkSeedProc (mkSys false tt ∅ (Storage.mkFS ∅ ∅)) demo_seed) 0.


(** ** The server process *)

Section ServerRuns.
  Context {FS : Type} `{UnicodeTables, Env, GoPlatform, Dotenv, Drivers FS}.

(** An application that was put together: the pool has opened, and the migrations of
    the core were applied when they were asked for. *)
Lemma New_started ctx (opts : Options FS unit) (w : World (Sys unit)) app w' :
  op_DBPool opts = false -> New [] [] ctx opts w = (Ok app, w') ->
  opens (op_Config opts) = true /\ ap_cfg app = op_Config opts
  /\ (op_RunMigrations opts = true -> (Up (op_ExtraMigrationFS opts) (set_pool true w).2).1 = Ok tt).
Proof.
  intros Hp E. unfold New in E. rewrite Hp in E. cbv zeta in E. step_inv.
  apply wrap_err_Ok in R3. pose proof (NewPostgresPool_opens (op_Config opts) w) as Ho.
  destruct (opens (op_Config opts)); [destruct Ho as [cfg Ho]; rewrite Ho in R3 | destruct Ho as (? & ? & Ho); by rewrite Ho in R3].
  injection R3 as <- <-. destruct (InitAll [] [] ctx a2) as [init registry]. step_inv.
  split_and!; [done | done |]. intros Hm. rewrite Hm in R0. unfold or_close, bind, attempt in R0.
  by destruct (Up _ _) as [[[]|e|e] v].
Qed.

(** The server process, whatever the environment and the goroutines do.  It exits
    with 0 only after a complete shutdown ([shut_down]).  It never starts, and exits with 1, in
    production with the published secret, when the pool does not open, and when
    AUTO_MIGRATE is true and the migrations of the core are not applied. *)
Theorem server_process ctx (environ : Environ) (w : World (Sys unit)) code life :
  server_exits ctx environ w code life ->
  let c := load_from (godotenv_Load environ) in
  (code = 0 \/ code = 1)
  /\ (code = 0 -> exists l, life = Some l /\ shut_down l)
  /\ (IsProduction c = true /\ cf_JWTSecret c = insecureJWTSecretFallback
      \/ opens c = false
      \/ godotenv_Load environ "AUTO_MIGRATE" = "true" /\ (applyFS coreFS "." pgx_ConnString (set_pool true w).2).1 <> Ok tt ->
      code = 1 /\ life = None).
Proof.
  intros Hx c. destruct Hx as [code w' E|app w' l err E Hr Hret]; unfold server_boot, main_config, Load in E; fold c in E.
  - assert (code = 1) as ->; [| by split_and!; auto]. destruct (ValidateJWTSecret c) as [u|e|e]; [| by injection E | done].
    step_inv. destruct a; unfold ret in E; by simplify_eq.
  - destruct (ValidateJWTSecret c) as [u|e|e] eqn:Ev; [| done | done]. step_inv. destruct a as [a|a]; unfold ret in E; simplify_eq.
    match goal with X : attempt _ _ = _ |- _ => apply attempt_Ok in X as [(a & X & [= <-])|(? & _ & [=])];
      apply New_started in X as (Ho & _ & Hm); [| done] end.
    split; [destruct err; auto |]. split.
    + destruct err; [done |]. intros _. exists l. split; [done |]. eapply returned_clean; [by eapply reachable_inv | done].
    + intros [[Hp Hs]|[Hn|[Hau Hf]]]; exfalso.
      * unfold ValidateJWTSecret in Ev. by rewrite Hp, Hs in Ev.
      * cbn in Ho. by rewrite Ho in Hn.
      * apply Hf. cbn in Hm. rewrite Hau in Hm. specialize (Hm eq_refl). apply Up_exact in Hm. by apply Forall_inv in Hm.
Qed.
End ServerRuns.

(** Two surprises.  The variables are read before [config.Load] reads the .env file,
    so SEED_EMAIL of that file does not count; and without any setting, also in
    production, the owner gets the password of the source. *)
Theorem seed_gaps :
  let I1 := calm zeroTime 1 in let I2 := pgx 0 in let I3 := open_tenant_server in let I4 := open_iam_server in let I5 := plain_bcrypt in
  let I6 := decimal_ids in let I7 := amd64 in let I9 := calm_drivers in
  let I8 := {| godotenv_Load e := fun key => if String.eqb (e key) "" && String.eqb key "SEED_EMAIL" then "dotenv@acme.id" else e key |} in
  let owner environ := match seed_main (fun _ => None) [] environ fresh_process with
    | (Ok e, w) => (ex_code e, map (fun u => (u_Email u.2, u_PasswordHash u.2)) (map_to_list (iam_users (sb_iam (sp_db (w_db w))))))
    | _ => (2, []) end in
  owner (vars []) = (0, [("admin@akordium.com", "$2a$10$Secret123!")])
  /\ owner (vars [("APP_ENV", "production")]) = owner (vars [])
  /\ flag_Parse (seed_flags (vars [])) ["-h"] = Exits 0 /\ flag_Parse (seed_flags (vars [])) ["-user"; "x"] = Exits 2.
Proof. by vm_compute. Qed.
